(* ===== verification/_CoqProject ===== *)
-Q . S2P
Prelude.v
Tlv.v
Framing.v
Text.v
Sockets.v
NodeEnv.v
NasEps.v
S1ap.v
LegacyNas.v
Subscriber.v
UeStore.v
Metrics.v
ThreadPool.v
Ring.v
Fastpath.v
Hss.v
Pcrf.v
Pgw.v
Sgw.v
Mme.v
Enb.v
Epc.v
Mobility.v
PcapFile.v
PcapText.v
Strings.v
Log.v
Scenario.v
Console.v
PerfTables.v
PerfThreads.v
Perf4g.v
DpdkReal.v
Bench.v
PerfMain.v
Json.v
Http.v
Prometheus.v
Sbi.v
Aka5g.v
EventLog.v
Oran.v
Nrf.v
Udm.v
Pfcp.v
Smf.v
Upf5g.v
Amf.v
Gnb.v
Core5g.v
GnbMain.v
Cbsd.v
Sas.v
DomainProxy.v
CbsdAgent.v
Sip.v
SipText.v
ImsEnv.v
ImsMain.v
ImsHss.v
Scscf.v
Pcscf.v
UeSim.v
Ims.v
ImsCall.v
