(* ===== verification/Prelude.v ===== *)
(** * Verification library of the mobile-core simulators

    The repository holds four simulators written in C++: a 4G evolved packet
    core ([4g-simulator]), a 5G core ([5g-simulator]), an IMS core
    ([ims-simulator]) and a CBRS domain proxy ([cbrs-domain-proxy]).  This
    library models all four, from the octets their nodes exchange to their
    end-to-end procedures, with the capture file of the 4G core and the
    user-plane fast path of the 5G core.

    ** The program and its model

    The 4G nodes are processes joined by TCP and UDP sockets.  The eNB turns
    commands into S1AP messages, and plays the UE; the MME keeps a context per
    UE and runs the procedures, asking the HSS for authentication vectors and
    the S-GW for a session; the S-GW asks the P-GW; the P-GW asks the PCRF for a
    policy and allocates the address.  All of them speak one TLV format.
    The 5G functions find each other through the NRF and talk HTTP with JSON
    bodies (AMF, SMF, UDM), N2 text frames (gNB, AMF) and PFCP (SMF, UPF).
    The CBRS devices ask the SAS for spectrum through the domain proxy, one
    thread per device over a shared registry.  The IMS phones register and call
    through the P-CSCF, which routes by identity and call, and the S-CSCF, which
    keeps the calls and asks the HSS and the MTAS; they speak the TLV format
    with SIP types and tags.

    - [Prelude]: machine integers, little- and big-endian octets, results and
      the state-and-failure monad [M] in which handlers are written.
    - [Tlv] ([common/tlv.h], [message_types.h]): [MessageWriter],
      [MessageReader] and the parsing loop of every handler.
    - [Framing] ([common/socket_wrapper.h]): length-prefixed frames over a byte
      stream, with the system calls [send] and [recv] as parameters.
    - [Sockets] ([common/socket_wrapper.h] of [4g-simulator] and
      [5g-simulator]): the socket objects, their moves and assignments, and the
      descriptors the system has open.
    - [Text]: [to_string], [sscanf], [stoi] and [snprintf] as the nodes use
      them.
    - [NodeEnv]: the class [Env], which states what a node finds around it
      (sockets, capture, clock, random numbers, stop flag), the script world
      [World], and the reasoning rules [triple] and [keeps] for handlers.
    - [NasEps], [S1ap] ([common/nas_eps.cpp], [common/s1ap_codec.cpp]): the
      NAS messages and S1AP PDUs of the capture; [LegacyNas]
      ([common/message.h], [exceptions.h]): the packed structures they replaced.
    - [Subscriber], [UeStore], [Metrics] ([common/subscriber_profile.h],
      [mme/ue_context.h], [mme/ue_context_store.h], [common/metrics.h]): the
      data the nodes keep.  A [shared_ptr] is a place in a heap, so sharing
      and writes through a pointer are visible.
    - [ThreadPool] ([common/thread_pool.h]): the pool of the bulk attach as a
      step relation of its workers, its clients and its destructor.
    - [Hss], [Pcrf], [Pgw], [Sgw], [Mme], [Enb] ([hss/hss_node.cpp] and so
      on): a record for the state of the node, one definition per handler and
      one for a turn of each receive loop ([hss_receive], [mme_receive], ...).
    - [Epc]: the nodes closed into one system.  The classes [GxPeer], [S5Peer]
      and [MmePeers] state what a client relies on; their instances there are
      the theorems of the servers.  [epc_step] delivers one message between
      eNB and MME.
    - [Mobility]: tracking area update and handover in that system.
    - [PcapFile] ([common/pcap_writer.cpp]): the capture file, its frames and
      the sequence numbers of its connections; [PcapText] (the writers of
      [5g-simulator] and [ims-simulator]): texts on TCP connections.
    - [Ring], [Fastpath] ([5g-simulator/src/upf_fastpath]): the lock-free ring,
      the rule tables, the buffer pool, the counters, and the polling and
      blocking forwarding paths.
    - [DpdkReal] ([upf_fastpath/dpdk_compat.h], [upf_dpdk_real.cpp]): the
      polling loop, the hash table, the arguments and the start of the fast
      path on the DPDK library, which is a parameter.
    - [Bench] ([upf_fastpath/benchmark.cpp], [upf_fastpath_demo.cpp]): the
      programs that drive the two paths, written over the class [Path]; the
      class [Counting] states what they rely on.
    - [Strings], [Json], [Http], [Sbi] ([5g-simulator/src/common/wire.h],
      [nrf_client.h]): the texts of the 5G functions, their getter and their
      HTTP reader and writer; the class of connections they call each other
      over.
    - [Aka5g], [Nrf], [Udm], [Pfcp], [Smf], [Upf5g], [Amf], [Gnb]
      ([aka_lite.h], [ids5g.h], [nrf/nrf_main.cpp] and so on): the 5G
      functions, a turn of each server loop included; [Core5g]: the functions
      closed into one system; [GnbMain]: the gNB's command line over it.
    - [EventLog] ([4g-simulator/src/common/json_event_log.h]): the table of
      explanations, the lines of the event log and a reader of them.
    - [Log] ([common/logger.h] of the four C++ programs,
      [common/visual_logger.h]): levels, lines and the session file of the
      loggers, and the boxes several threads draw.
    - [Prometheus] ([common/metrics.h], [common/prometheus_server.h]): the
      percentiles and the text of the metrics, with IEEE doubles, the server
      that answers with them, and a scraper's reading of the text.
    - [Oran] ([4g-simulator/src/o_ran]): the E2 agent and the application,
      each a tree of system calls, run against each other.
    - [Scenario] ([4g-simulator/src/scenario_runner.cpp]): the reader of
      scenario files and the program that pipes their commands.
    - [Console] ([4g-simulator/src/main.cpp]): the command loop and its end
      with the pool, the metrics and the command thread of the eNB
      ([enb/enb_node.cpp]), their threads interleaved.
    - [PerfTables], [PerfThreads] ([ims-simulator/src/perf_scenarios.cpp]) and
      [Perf4g] ([4g-simulator/src/perf/perf_scenarios.h]): the performance
      scenarios, each in its slow and its repaired variant; [PerfMain]
      ([perf_scenarios_main.cpp]): the program that chooses among them.
    - [Cbsd], [Sas], [DomainProxy], [CbsdAgent] ([cbrs-domain-proxy/src]): the
      registry and its lifecycle, the SAS stub, the proxy's threads interleaved
      at their accesses to what they share, the device.
    - [Sip], [SipText], [ImsEnv] ([ims-simulator/src/ims/sip.h], [sip_text.h]):
      the messages, the field loops and the captured texts of the IMS, and the
      actions of its handlers; [ImsHss], [Scscf], [Pcscf], [UeSim]
      ([ims/ims_hss.cpp], [scscf_node.cpp], [pcscf_node.cpp], [ue_sim.cpp]): the
      nodes and the phone; [Ims]: the nodes closed into one system whose steps
      are those of its threads; [ImsCall]: calls through it.
    - [ImsMain] ([ims-simulator/src/ims_main.cpp]): the single-process program
      that captures the flows without the nodes.

    ** What the theorems show

    - Formats: a written message parses to its fields whatever handler reads
      it, unknown fields are skipped, parsing ends; frames survive any
      chopping of the stream and bad lengths are refused; S1AP, NAS and
      Diameter octets read back through readers written from the documented
      formats.
    - Nodes: each handler on its branches, errors included; the store of UE
      contexts refines a finite map; the MME's invariant over every message
      it can receive; a UE enters [SESSION_PENDING] only through a matching
      response; the P-GW grants what the policy allows.
    - System: the attach, tracking area update and handover run to completion
      from every state at rest; every attached UE gets its own address; UE,
      MME and HSS agree on the response.
    - Capture: the file reads back to its frames, checksums verify, sequence
      numbers continue; every conversation of the 5G core and the IMS is in the
      file with its handshake and its texts, whatever else is captured, and its
      segments continue the handshake when the lower endpoint opens it.
    - Fast path: the ring is a bounded queue, also with the steps of its two
      threads interleaved; both paths leave the counters of one specification,
      and the threads of the blocking one come to rest, with [stop] returned
      unless its notification is missed.
    - 5G: a registration and a session lead through all functions and leave
      the system at rest; whatever is typed at the gNB, the core ends where an
      abstract core ends, with distinct addresses for up to 65536 sessions, and
      a session needs no registration; the AMF accepts a response exactly when
      it is the expected one; the NRF refines a map; PFCP and HTTP messages
      read back.
    - CBRS: under every interleaving the registry is well typed and a device
      moves along the documented lifecycle, or makes one of the departures from
      it that [DomainProxy.moves] lists; device and proxy agree.
    - IMS: registration, call set-up, answering and the changes of media from
      every state of a dialog; where each message is routed; the call table
      under every message; after the caller hangs up, no interleaving lets the
      callee know.
    - Event log: every line reads back to its event, from the first on at
      which the file can be opened; the explanation written does not depend on
      the order of the hash table.
    - Metrics: what a scrape reads is what the batch recorded, and the
      percentiles are the latencies at their ranks (computed for batches of up
      to a thousand attaches).
    - O-RAN: under every interleaving and cutting of the stream the control
      loop ends with both programs agreeing, as long as a length arrives whole.
    - Programs: the pool runs every task and its destructor drains the queue,
      or hangs in a schedule that is exhibited; a scenario file, its values
      quoted or not, reads back to its steps; a command typed at the console
      leads to the attaches it asks for, at most a hundred, unless the loop has
      ended first: a command left over then is in the queue of a thread that has
      gone; the texts of a call share a dialog.
    - Performance scenarios: slow and repaired variants compute the same
      (shards and one lock, scan and index, list and map), the bounded queue
      keeps its bound and every item is done, leaked blocks are counted; some
      scenarios measure nothing, which is shown too.
    - Fast-path programs: a benchmark that ends counts as many packets
      forwarded as it generated, in every interleaving; its wait can end early,
      in a schedule that is exhibited.
    - The core on DPDK counts as the simulated path and frees every buffer,
      whatever octets the frames hold.
    - Sockets: every open descriptor belongs to one object, whatever is moved,
      assigned or refused, or was overwritten by a second [bind] of the 5G
      class, which leaks it.
    - Logs: the session file is the console without its colours, until
      something is printed after the end; boxes are never mixed.
    - Divergences: theorems that exhibit where the code does not do what it
      means to (a truncated field, an unguarded Attach Complete, interleaved
      handovers, miscounted elements, the wrap of the buffer pool, notifications
      that are lost because no mutex is held, piped commands dropped at the end
      of the input, and others).

    ** Fuel

    [Tlv.parse_loop] takes the length of the payload and one more turn, and
    [Tlv.parse_terminates] shows it never runs out: every turn advances.  The
    loops of [Framing] take the number of octets asked for, of which each call
    moves at least one.  [Text.to_string] takes one turn more than the binary
    logarithm of its number, which is at least its number of digits.  [PcapFile.fold_carry]
    takes three turns, and two fold the sum of any header; the readers of
    [S1ap], [PcapFile] and [EventLog] take the length of their input.  The drain
    of the polling path of [Fastpath] succeeds with any fuel above the number of
    waiting packets; its blocking path, [Console], [ThreadPool] and [Perf4g] are
    step relations without fuel, whose own steps are shown to be finitely many.
    [Sip.sip_loop] and [Sip.first_loop] take the length of
    the payload and one more turn, like [Tlv.parse_loop] ([sip_parse_terminates]);
    the loops over texts of [Strings], [Json] and [Http] are structural or take
    the length of the text, like [Scenario.lines_loop]; [Oran.recv_loop]
    takes the length of the message, of which each read gets at least one octet;
    [DpdkReal.parse_from] takes the number of arguments, of which each turn uses
    one or two.

    ** What is not modelled

    The calls of the loggers in the handlers (the loggers have a file of their
    own, and so have the socket classes: in the nodes a connection is there
    already); opening files, and pauses; the address a UDP reply goes to (each
    server has one client).  The UDP and TCP transport between modelled nodes delivers
    messages whole and in order, as [Framing] shows for TCP.  Of the C++ memory
    model the ring assumes sequential consistency.  Of the main programs the
    command loops of the 4G, of the gNB and of the single-process IMS are modelled; the
    start-up of the processes, the printed diagrams, the status texts and the
    programs that only print generated numbers are not, nor are signals and the
    joins of the node threads.  The performance
    scenarios are modelled without the times and percentages they measure.  In
    the IMS a connection, once made, is not lost; a request of a phone is three
    steps of its P-CSCF thread, every other message or command is one step of
    the thread that handles it, so the two locks of the P-CSCF are not visible;
    the exchange of the S-CSCF with the HSS is part of one step.
    Copies of the 4G event log and message code in the other programs are
    modelled once, and the services in Go are not modelled. *)

From Stdlib Require Import ZArith Lia Ascii String.
From stdpp Require Export base list gmap option.
Export String.StringSyntax.
#[local] Open Scope Z_scope.

(** ** Machine integers

    A [w]-bit unsigned integer is a [Z] in [0, 2^w); conversions wrap. *)

Definition wrap (w z : Z) : Z := z mod 2 ^ w.
Definition u8 (z : Z) : Z := wrap 8 z.
Definition u16 (z : Z) : Z := wrap 16 z.
Definition u32 (z : Z) : Z := wrap 32 z.
Definition u64 (z : Z) : Z := wrap 64 z.

Definition in_u (w z : Z) : Prop := 0 <= z < 2 ^ w.

(** A byte sequence: [std::vector<uint8_t>] and [std::string]. *)
Abbreviation bytes := (list Z).

Definition is_bytes (l : bytes) : Prop := Forall (in_u 8) l.

(** A string literal of the source, as the sequence of its characters. *)
Definition str (s : string) : bytes :=
  map (fun c => Z.of_N (N_of_ascii c)) (list_ascii_of_string s).
#[global] Arguments str s%_string.

(** A literal that holds quotes, written with apostrophes. *)
Definition quotes (s : string) : bytes := map (fun c => if c =? 39 then 34 else c) (str s).
#[global] Arguments quotes s%_string.

(** Little- and big-endian emission and reading, byte by byte, as the
    [push_back(v); push_back(v>>8); ...] sequences of the source. *)
Definition le16 (v : Z) : bytes := [u8 v; u8 (Z.shiftr v 8)].
Definition le32 (v : Z) : bytes :=
  [u8 v; u8 (Z.shiftr v 8); u8 (Z.shiftr v 16); u8 (Z.shiftr v 24)].
Definition be16 (v : Z) : bytes := [u8 (Z.shiftr v 8); u8 v].
Definition be32 (v : Z) : bytes :=
  [u8 (Z.shiftr v 24); u8 (Z.shiftr v 16); u8 (Z.shiftr v 8); u8 v].

Definition from_le16 (b0 b1 : Z) : Z := Z.lor b0 (Z.shiftl b1 8).
Definition from_le32 (b0 b1 b2 b3 : Z) : Z :=
  Z.lor (Z.lor (Z.lor b0 (Z.shiftl b1 8)) (Z.shiftl b2 16)) (Z.shiftl b3 24).

(** ** Lemmas on machine integers *)

Ltac unfold_u := unfold in_u, u8, u16, u32, u64, wrap in *.

Lemma wrap_range (w z : Z) : 0 <= w -> in_u w (wrap w z).
Proof. intros Hw. unfold in_u, wrap. apply Z.mod_pos_bound. apply Z.pow_pos_nonneg; lia. Qed.

Lemma wrap_small (w z : Z) : in_u w z -> wrap w z = z.
Proof. intros H. apply Z.mod_small. exact H. Qed.

Lemma u8_range (z : Z) : in_u 8 (u8 z).
Proof. apply wrap_range. lia. Qed.
Lemma u16_range (z : Z) : in_u 16 (u16 z).
Proof. apply wrap_range. lia. Qed.
Lemma u32_range (z : Z) : in_u 32 (u32 z).
Proof. apply wrap_range. lia. Qed.
Lemma u64_range (z : Z) : in_u 64 (u64 z).
Proof. apply wrap_range. lia. Qed.

Lemma u8_small (z : Z) : in_u 8 z -> u8 z = z.
Proof. apply wrap_small. Qed.
Lemma u16_small (z : Z) : in_u 16 z -> u16 z = z.
Proof. apply wrap_small. Qed.
Lemma u32_small (z : Z) : in_u 32 z -> u32 z = z.
Proof. apply wrap_small. Qed.
Lemma u64_small (z : Z) : in_u 64 z -> u64 z = z.
Proof. apply wrap_small. Qed.

(** Disjoint bit ranges: [lor] is addition. *)
Lemma lor_shiftl_add (a b k : Z) :
  0 <= k -> 0 <= a < 2 ^ k -> Z.lor a (Z.shiftl b k) = a + b * 2 ^ k.
Proof.
  intros Hk Ha. rewrite <- Z.shiftl_mul_pow2 by lia.
  assert (Hnc : Z.land a (Z.shiftl b k) = 0).
  { apply Z.bits_inj'. intros n Hn. rewrite Z.land_spec, Z.bits_0.
    destruct (Z.ltb_spec n k).
    - rewrite (Z.shiftl_spec_low b k n) by lia. apply andb_false_r.
    - rewrite <- (Z.mod_small a (2 ^ k)) by lia.
      rewrite Z.mod_pow2_bits_high by lia. reflexivity. }
  rewrite <- Z.lxor_lor by exact Hnc. symmetry. apply Z.add_nocarry_lxor. exact Hnc.
Qed.

Ltac div_eqs := Z.div_mod_to_equations; lia.

Lemma from_le16_add (a b : Z) : in_u 8 a -> from_le16 a b = a + b * 256.
Proof. intros Ha. unfold from_le16. rewrite lor_shiftl_add; unfold_u; lia. Qed.

Lemma from_le32_add (a b c d : Z) :
  in_u 8 a -> in_u 8 b -> in_u 8 c ->
  from_le32 a b c d = a + b * 256 + c * 65536 + d * 16777216.
Proof.
  intros Ha Hb Hc. unfold from_le32, in_u in *. change (2 ^ 8) with 256 in *.
  rewrite (lor_shiftl_add a b 8) by (change (2 ^ 8) with 256; lia).
  change (2 ^ 8) with 256.
  rewrite (lor_shiftl_add _ c 16) by (change (2 ^ 16) with 65536; lia).
  change (2 ^ 16) with 65536.
  rewrite (lor_shiftl_add _ d 24) by (change (2 ^ 24) with 16777216; lia).
  reflexivity.
Qed.

Lemma le16_roundtrip (v : Z) :
  in_u 16 v -> from_le16 (u8 v) (u8 (Z.shiftr v 8)) = v.
Proof.
  intros Hv. rewrite from_le16_add by apply u8_range.
  rewrite Z.shiftr_div_pow2 by lia. unfold_u.
  change (2 ^ 8) with 256. change (2 ^ 16) with 65536 in Hv. div_eqs.
Qed.

Lemma le32_roundtrip (v : Z) :
  in_u 32 v ->
  from_le32 (u8 v) (u8 (Z.shiftr v 8)) (u8 (Z.shiftr v 16)) (u8 (Z.shiftr v 24)) = v.
Proof.
  intros Hv. rewrite from_le32_add by apply u8_range.
  rewrite !Z.shiftr_div_pow2 by lia. unfold_u.
  change (2 ^ 8) with 256. change (2 ^ 16) with 65536.
  change (2 ^ 24) with 16777216. change (2 ^ 32) with 4294967296 in Hv. div_eqs.
Qed.

Lemma le64_roundtrip (v : Z) :
  in_u 64 v -> Z.lor (u32 v) (Z.shiftl (u32 (Z.shiftr v 32)) 32) = v.
Proof.
  intros Hv. rewrite lor_shiftl_add; [|lia|apply u32_range].
  rewrite Z.shiftr_div_pow2 by lia. unfold_u. change (2 ^ 32) with 4294967296.
  change (2 ^ 64) with 18446744073709551616 in Hv. div_eqs.
Qed.

Lemma be32_length (z : Z) : length (be32 z) = 4%nat.
Proof. reflexivity. Qed.

Lemma be32_bytes (z : Z) : is_bytes (be32 z).
Proof. repeat apply List.Forall_cons; try apply List.Forall_nil; apply u8_range. Qed.

Lemma be32_inj (a b : Z) : in_u 32 a -> in_u 32 b -> be32 a = be32 b -> a = b.
Proof.
  intros Ha Hb. unfold be32. rewrite !Z.shiftr_div_pow2 by lia. unfold_u.
  intros [= H1 H2 H3 H4]. div_eqs.
Qed.

(** A counter incremented [k] times and once more. *)
Lemma u32_succ (a : Z) (k : nat) : u32 (u32 (a + Z.of_nat k) + 1) = u32 (a + Z.of_nat (S k)).
Proof. unfold u32, wrap. rewrite Zplus_mod_idemp_l. f_equal. lia. Qed.

Lemma u32_offset_inj (a : Z) (j k : nat) :
  Z.of_nat j < 2 ^ 32 -> Z.of_nat k < 2 ^ 32 ->
  u32 (a + Z.of_nat j) = u32 (a + Z.of_nat k) -> j = k.
Proof. unfold u32, wrap. change (2 ^ 32) with 4294967296. intros. div_eqs. Qed.

(** Exclusive or stays in the width. *)
Lemma lxor_range (w a b : Z) : 0 <= w -> in_u w a -> in_u w b -> in_u w (Z.lxor a b).
Proof.
  intros Hw Ha Hb. rewrite <- (Z.mod_small a (2 ^ w)), <- (Z.mod_small b (2 ^ w)) by assumption.
  rewrite <- !Z.land_ones, <- (Z.land_diag (Z.ones w)) by lia.
  replace (Z.lxor _ _) with (Z.land (Z.lxor a b) (Z.ones w)).
  - rewrite Z.land_ones by lia. apply wrap_range. exact Hw.
  - rewrite !Z.land_diag. apply Z.bits_inj'. intros n Hn.
    rewrite Z.land_spec, !Z.lxor_spec, !Z.land_spec.
    destruct (Z.testbit a n), (Z.testbit b n), (Z.testbit (Z.ones w) n); reflexivity.
Qed.

(** ** Results and the handler monad

    What a piece of the program does when it is run: it returns, it has
    undefined behaviour (an access outside a buffer, an uninitialised
    read), it blocks for ever on input that does not come, or the fuel of
    the model ran out (excluded by a theorem for each loop). *)

Inductive res (A : Type) : Type :=
| Ok (a : A)
| Undefined
| Waiting
| OutOfFuel.
Arguments Ok {A} a.
Arguments Undefined {A}.
Arguments Waiting {A}.
Arguments OutOfFuel {A}.

#[export] Instance res_ret : MRet res := fun A a => Ok a.
#[export] Instance res_bind : MBind res := fun A B k m =>
  match m with
  | Ok a => k a
  | Undefined => Undefined
  | Waiting => Waiting
  | OutOfFuel => OutOfFuel
  end.

(** Stateful code over a state [S]. *)
Definition M (S A : Type) : Type := S -> res (A * S).

#[export] Instance M_ret {S} : MRet (M S) := fun A a s => Ok (a, s).
#[export] Instance M_bind {S} : MBind (M S) := fun A B k m s =>
  match m s with
  | Ok (a, s') => k a s'
  | Undefined => Undefined
  | Waiting => Waiting
  | OutOfFuel => OutOfFuel
  end.

Definition liftM {S A} (m : res A) : M S A := fun s =>
  match m with
  | Ok a => Ok (a, s)
  | Undefined => Undefined
  | Waiting => Waiting
  | OutOfFuel => OutOfFuel
  end.

Lemma res_bind_Ok {A B} (a : A) (k : A -> res B) : (Ok a ≫= k) = k a.
Proof. reflexivity. Qed.

Lemma M_bind_Ok {S A B} (m : M S A) (k : A -> M S B) (s s' : S) (a : A) :
  m s = Ok (a, s') -> (m ≫= k) s = k a s'.
Proof. intros H. unfold mbind, M_bind. rewrite H. reflexivity. Qed.

Lemma M_bind_eq {S A B} (m : M S A) (k : A -> M S B) (s : S) :
  (m ≫= k) s = match m s with
               | Ok (a, s') => k a s'
               | Undefined => Undefined
               | Waiting => Waiting
               | OutOfFuel => OutOfFuel
               end.
Proof. reflexivity. Qed.

Lemma M_ret_eq {S A} (a : A) (s : S) : (mret a : M S A) s = Ok (a, s).
Proof. reflexivity. Qed.

Lemma M_bind_inv {S A B} (m : M S A) (k : A -> M S B) (s s2 : S) (b : B) :
  (m ≫= k) s = Ok (b, s2) -> exists a s1, m s = Ok (a, s1) /\ k a s1 = Ok (b, s2).
Proof.
  unfold mbind, M_bind. destruct (m s) as [[a s1]| | |] eqn:E; intros H; try discriminate.
  exists a, s1. split; [reflexivity|exact H].
Qed.

(** ** Lists *)

Lemma lookup_drop_S {A} (l : list A) (i : nat) (x : A) (r : list A) :
  drop i l = x :: r -> l !! i = Some x /\ drop (S i) l = r.
Proof.
  intros H. split.
  - rewrite <- (Nat.add_0_r i), <- lookup_drop, H. reflexivity.
  - replace (S i) with (i + 1)%nat by lia. rewrite <- drop_drop, H. reflexivity.
Qed.

Lemma drop_app_eq {A} (l l1 l2 : list A) (i n : nat) :
  drop i l = l1 ++ l2 -> n = length l1 -> drop (i + n) l = l2.
Proof. intros H ->. rewrite <- drop_drop, H. apply drop_app_length. Qed.

(** *** One element changes: what a test says of all or of some, what a sum or
    a filter makes of the list *)

Section Insert.
Context {A : Type}.
Implicit Types (f : A -> bool) (l : list A) (i : nat) (x y : A).

Lemma forallb_insert f l i x : f x = true -> forallb f l = true -> forallb f (<[i := x]> l) = true.
Proof.
  intros Hx. revert i. induction l as [|y l IH]; intros i; cbn; [destruct i; auto|].
  rewrite andb_true_iff. intros [Hy H]. destruct i; cbn; rewrite andb_true_iff; auto.
Qed.

Lemma forallb_lookup f l i x : forallb f l = true -> l !! i = Some x -> f x = true.
Proof.
  rewrite forallb_forall. intros H E. apply H, list_elem_of_In, list_elem_of_lookup. eauto.
Qed.

Lemma existsb_lookup f l i x : l !! i = Some x -> f x = true -> existsb f l = true.
Proof.
  intros E Hf. apply existsb_exists. exists x. split; [|exact Hf].
  apply list_elem_of_In, list_elem_of_lookup. eauto.
Qed.

Lemma existsb_insert f l i x : f x = false -> existsb f (<[i := x]> l) = true -> existsb f l = true.
Proof.
  intros Hx. revert i. induction l as [|y l IH]; intros i; cbn; [destruct i; auto|].
  destruct i; cbn; rewrite !orb_true_iff; [rewrite Hx; intuition discriminate|].
  intros [H | H]; eauto.
Qed.

Lemma existsb_keep f l i x y :
  l !! i = Some x -> f x = false -> existsb f l = true -> existsb f (<[i := y]> l) = true.
Proof.
  intros E Hx. revert i E. induction l as [|z l IH]; intros [|i] E; try discriminate; cbn in *.
  - injection E as ->. rewrite Hx. cbn. intros H. rewrite H. apply orb_true_r.
  - rewrite !orb_true_iff. intros [H | H]; eauto.
Qed.

Lemma existsb_moved f l i x y : l !! i = Some x -> f y = true -> existsb f (<[i := y]> l) = true.
Proof.
  intros E Hf. apply (existsb_lookup f _ i y); [|exact Hf].
  apply list_lookup_insert_eq. apply lookup_lt_Some in E. exact E.
Qed.

Lemma sum_insert (w : A -> nat) l i x y :
  l !! i = Some x -> (sum_list (map w (<[i := y]> l)) + w x = sum_list (map w l) + w y)%nat.
Proof.
  revert i. induction l as [|z l IH]; intros [|i] E; try discriminate.
  - injection E as ->. cbn. lia.
  - specialize (IH i E).
    change (w z + sum_list (map w (<[i := y]> l)) + w x = w z + sum_list (map w l) + w y)%nat. lia.
Qed.

Lemma omap_cons_app {B} (g : A -> option B) x l : omap g (x :: l) = option_list (g x) ++ omap g l.
Proof. cbn. destruct (g x); reflexivity. Qed.

Lemma omap_insert {B} (g : A -> option B) l i x y :
  l !! i = Some x -> option_list (g x) ++ omap g (<[i := y]> l) ≡ₚ option_list (g y) ++ omap g l.
Proof.
  revert i. induction l as [|z l IH]; intros [|i] E; try discriminate; cbn [lookup list_lookup] in E.
  - injection E as ->. cbn [insert list_insert]. rewrite !omap_cons_app. apply Permutation_app_swap_app.
  - cbn [insert list_insert]. rewrite !omap_cons_app.
    rewrite Permutation_app_swap_app, (IH i E). apply Permutation_app_swap_app.
Qed.

End Insert.
