(* ===== verification/Tlv.v ===== *)
(** * The TLV frame format

    [4g-simulator/src/common/tlv.h] and [common/message_types.h]: the tags,
    the message types, [MessageWriter] and [MessageReader], and the
    [while (r.hasMore()) { peek; switch }] loop that every message handler
    of the 4G nodes contains.  A cast [Tag(x)] of the source may hold any
    16-bit value, so a tag read from the wire is its code. *)

From S2P Require Import Prelude.
#[local] Open Scope Z_scope.

(** ** Tags and message types *)

Inductive Tag : Set :=
  | ENB_UE_S1AP_ID | MME_UE_S1AP_ID | RRC_CAUSE | TAI_MCC | TAI_MNC | TAI_TAC
  | EUTRAN_CGI | ICSR_AMBR_UL | ICSR_AMBR_DL | ICSR_SGW_S1U_IP | ICSR_SGW_TEID
  | ICSR_ENB_TEID | NAS_PROTO_DISC | NAS_SEC_HDR | NAS_MSG_TYPE
  | NAS_ATTACH_TYPE | NAS_KSI | NAS_ID_TYPE | NAS_IMSI | NAS_UE_CAP | NAS_RAND
  | NAS_AUTN | NAS_RES | NAS_EBI | NAS_UE_IP | DIA_IMSI | DIA_PLMN | DIA_RAND
  | DIA_AUTN | DIA_XRES | DIA_KASME | GTP_IMSI | GTP_CAUSE | GTP_APN
  | GTP_PDN_TYPE | GTP_EBI | GTP_QCI | GTP_SENDER_TEID | GTP_BEARER_TEID
  | GTP_UE_IP | GTP_ENB_TEID | GTP_AMBR_UL | GTP_AMBR_DL | GX_IMSI | GX_APN
  | GX_QCI | GX_RULE_NAME | GX_MAX_UL_BPS | GX_MAX_DL_BPS | GX_RESULT_CODE
  | TAU_UPDATE_TYPE | TAU_IMSI | HO_TYPE | HO_CAUSE | HO_TARGET_TAC
  | HO_TARGET_CELL | HO_SRC_CONTAINER | HO_TGT_CONTAINER | HO_ENB_TEID_NEW
  | HO_PDCP_SN_UL | HO_PDCP_SN_DL.

Definition tag_code (t : Tag) : Z :=
  match t with
  | ENB_UE_S1AP_ID => 0x0010 | MME_UE_S1AP_ID => 0x0011 | RRC_CAUSE => 0x0012
  | TAI_MCC => 0x0013 | TAI_MNC => 0x0014 | TAI_TAC => 0x0015
  | EUTRAN_CGI => 0x0016 | ICSR_AMBR_UL => 0x0050 | ICSR_AMBR_DL => 0x0051
  | ICSR_SGW_S1U_IP => 0x0052 | ICSR_SGW_TEID => 0x0053
  | ICSR_ENB_TEID => 0x0054 | NAS_PROTO_DISC => 0x0100 | NAS_SEC_HDR => 0x0101
  | NAS_MSG_TYPE => 0x0102 | NAS_ATTACH_TYPE => 0x0103 | NAS_KSI => 0x0104
  | NAS_ID_TYPE => 0x0105 | NAS_IMSI => 0x0106 | NAS_UE_CAP => 0x0107
  | NAS_RAND => 0x0108 | NAS_AUTN => 0x0109 | NAS_RES => 0x010A
  | NAS_EBI => 0x010B | NAS_UE_IP => 0x010C | DIA_IMSI => 0x0200
  | DIA_PLMN => 0x0201 | DIA_RAND => 0x0202 | DIA_AUTN => 0x0203
  | DIA_XRES => 0x0204 | DIA_KASME => 0x0205 | GTP_IMSI => 0x0300
  | GTP_CAUSE => 0x0301 | GTP_APN => 0x0302 | GTP_PDN_TYPE => 0x0303
  | GTP_EBI => 0x0304 | GTP_QCI => 0x0305 | GTP_SENDER_TEID => 0x0306
  | GTP_BEARER_TEID => 0x0307 | GTP_UE_IP => 0x0308 | GTP_ENB_TEID => 0x0309
  | GTP_AMBR_UL => 0x030A | GTP_AMBR_DL => 0x030B | GX_IMSI => 0x0400
  | GX_APN => 0x0401 | GX_QCI => 0x0402 | GX_RULE_NAME => 0x0403
  | GX_MAX_UL_BPS => 0x0404 | GX_MAX_DL_BPS => 0x0405
  | GX_RESULT_CODE => 0x0406 | TAU_UPDATE_TYPE => 0x0500 | TAU_IMSI => 0x0501
  | HO_TYPE => 0x0600 | HO_CAUSE => 0x0601 | HO_TARGET_TAC => 0x0602
  | HO_TARGET_CELL => 0x0603 | HO_SRC_CONTAINER => 0x0604
  | HO_TGT_CONTAINER => 0x0605 | HO_ENB_TEID_NEW => 0x0606
  | HO_PDCP_SN_UL => 0x0607 | HO_PDCP_SN_DL => 0x0608
  end.

Definition all_tags : list Tag :=
  [ENB_UE_S1AP_ID; MME_UE_S1AP_ID; RRC_CAUSE; TAI_MCC; TAI_MNC; TAI_TAC;
  EUTRAN_CGI; ICSR_AMBR_UL; ICSR_AMBR_DL; ICSR_SGW_S1U_IP; ICSR_SGW_TEID;
  ICSR_ENB_TEID; NAS_PROTO_DISC; NAS_SEC_HDR; NAS_MSG_TYPE; NAS_ATTACH_TYPE;
  NAS_KSI; NAS_ID_TYPE; NAS_IMSI; NAS_UE_CAP; NAS_RAND; NAS_AUTN; NAS_RES;
  NAS_EBI; NAS_UE_IP; DIA_IMSI; DIA_PLMN; DIA_RAND; DIA_AUTN; DIA_XRES;
  DIA_KASME; GTP_IMSI; GTP_CAUSE; GTP_APN; GTP_PDN_TYPE; GTP_EBI; GTP_QCI;
  GTP_SENDER_TEID; GTP_BEARER_TEID; GTP_UE_IP; GTP_ENB_TEID; GTP_AMBR_UL;
  GTP_AMBR_DL; GX_IMSI; GX_APN; GX_QCI; GX_RULE_NAME; GX_MAX_UL_BPS;
  GX_MAX_DL_BPS; GX_RESULT_CODE; TAU_UPDATE_TYPE; TAU_IMSI; HO_TYPE; HO_CAUSE;
  HO_TARGET_TAC; HO_TARGET_CELL; HO_SRC_CONTAINER; HO_TGT_CONTAINER;
  HO_ENB_TEID_NEW; HO_PDCP_SN_UL; HO_PDCP_SN_DL].

Inductive MessageType : Set :=
  | S1AP_INITIAL_UE_MSG | S1AP_DL_NAS_TRANSPORT | S1AP_UL_NAS_TRANSPORT
  | S1AP_INITIAL_CONTEXT_SETUP_REQ | S1AP_INITIAL_CONTEXT_SETUP_RSP
  | S1AP_TAU_REQUEST | S1AP_TAU_ACCEPT | S1AP_HANDOVER_REQUIRED
  | S1AP_HANDOVER_REQUEST | S1AP_HANDOVER_REQUEST_ACK | S1AP_HANDOVER_COMMAND
  | S1AP_ENB_STATUS_TRANSFER | S1AP_MME_STATUS_TRANSFER | S1AP_HANDOVER_NOTIFY
  | S1AP_UE_CONTEXT_RELEASE_CMD | S1AP_UE_CONTEXT_RELEASE_CMPL | DIA_AIR
  | DIA_AIA | GTP_CREATE_SESSION_REQ | GTP_CREATE_SESSION_RSP
  | GTP_MODIFY_BEARER_REQ | GTP_MODIFY_BEARER_RSP | DIA_GX_CCR_I
  | DIA_GX_CCA_I.

Definition type_code (t : MessageType) : Z :=
  match t with
  | S1AP_INITIAL_UE_MSG => 0x0001 | S1AP_DL_NAS_TRANSPORT => 0x0002
  | S1AP_UL_NAS_TRANSPORT => 0x0003 | S1AP_INITIAL_CONTEXT_SETUP_REQ => 0x0004
  | S1AP_INITIAL_CONTEXT_SETUP_RSP => 0x0005 | S1AP_TAU_REQUEST => 0x0006
  | S1AP_TAU_ACCEPT => 0x0007 | S1AP_HANDOVER_REQUIRED => 0x0010
  | S1AP_HANDOVER_REQUEST => 0x0011 | S1AP_HANDOVER_REQUEST_ACK => 0x0012
  | S1AP_HANDOVER_COMMAND => 0x0013 | S1AP_ENB_STATUS_TRANSFER => 0x0014
  | S1AP_MME_STATUS_TRANSFER => 0x0015 | S1AP_HANDOVER_NOTIFY => 0x0016
  | S1AP_UE_CONTEXT_RELEASE_CMD => 0x0017
  | S1AP_UE_CONTEXT_RELEASE_CMPL => 0x0018 | DIA_AIR => 0x0101
  | DIA_AIA => 0x0102 | GTP_CREATE_SESSION_REQ => 0x0201
  | GTP_CREATE_SESSION_RSP => 0x0202 | GTP_MODIFY_BEARER_REQ => 0x0203
  | GTP_MODIFY_BEARER_RSP => 0x0204 | DIA_GX_CCR_I => 0x0401
  | DIA_GX_CCA_I => 0x0402
  end.

Definition all_types : list MessageType :=
  [S1AP_INITIAL_UE_MSG; S1AP_DL_NAS_TRANSPORT; S1AP_UL_NAS_TRANSPORT;
  S1AP_INITIAL_CONTEXT_SETUP_REQ; S1AP_INITIAL_CONTEXT_SETUP_RSP;
  S1AP_TAU_REQUEST; S1AP_TAU_ACCEPT; S1AP_HANDOVER_REQUIRED;
  S1AP_HANDOVER_REQUEST; S1AP_HANDOVER_REQUEST_ACK; S1AP_HANDOVER_COMMAND;
  S1AP_ENB_STATUS_TRANSFER; S1AP_MME_STATUS_TRANSFER; S1AP_HANDOVER_NOTIFY;
  S1AP_UE_CONTEXT_RELEASE_CMD; S1AP_UE_CONTEXT_RELEASE_CMPL; DIA_AIR; DIA_AIA;
  GTP_CREATE_SESSION_REQ; GTP_CREATE_SESSION_RSP; GTP_MODIFY_BEARER_REQ;
  GTP_MODIFY_BEARER_RSP; DIA_GX_CCR_I; DIA_GX_CCA_I].

(** The [MessageType] a 16-bit code stands for, when it has an enumerator. *)
Definition type_of_code (z : Z) : option MessageType :=
  List.find (fun t => type_code t =? z) all_types.

Definition type_name (t : MessageType) : bytes :=
  match t with
  | S1AP_INITIAL_UE_MSG => str "S1AP_InitialUEMsg"
  | S1AP_DL_NAS_TRANSPORT => str "S1AP_DL_NAS_Transport"
  | S1AP_UL_NAS_TRANSPORT => str "S1AP_UL_NAS_Transport"
  | S1AP_INITIAL_CONTEXT_SETUP_REQ => str "S1AP_InitialContextSetupReq"
  | S1AP_INITIAL_CONTEXT_SETUP_RSP => str "S1AP_InitialContextSetupRsp"
  | S1AP_TAU_REQUEST => str "S1AP_TAU_Request"
  | S1AP_TAU_ACCEPT => str "S1AP_TAU_Accept"
  | S1AP_HANDOVER_REQUIRED => str "S1AP_HandoverRequired"
  | S1AP_HANDOVER_REQUEST => str "S1AP_HandoverRequest"
  | S1AP_HANDOVER_REQUEST_ACK => str "S1AP_HandoverRequestAck"
  | S1AP_HANDOVER_COMMAND => str "S1AP_HandoverCommand"
  | S1AP_ENB_STATUS_TRANSFER => str "S1AP_eNBStatusTransfer"
  | S1AP_MME_STATUS_TRANSFER => str "S1AP_MMEStatusTransfer"
  | S1AP_HANDOVER_NOTIFY => str "S1AP_HandoverNotify"
  | S1AP_UE_CONTEXT_RELEASE_CMD => str "S1AP_UEContextReleaseCmd"
  | S1AP_UE_CONTEXT_RELEASE_CMPL => str "S1AP_UEContextReleaseCmpl"
  | DIA_AIR => str "Diameter_AIR"
  | DIA_AIA => str "Diameter_AIA"
  | GTP_CREATE_SESSION_REQ => str "GTP_CreateSessionReq"
  | GTP_CREATE_SESSION_RSP => str "GTP_CreateSessionRsp"
  | GTP_MODIFY_BEARER_REQ => str "GTP_ModifyBearerReq"
  | GTP_MODIFY_BEARER_RSP => str "GTP_ModifyBearerRsp"
  | DIA_GX_CCR_I => str "Diameter_Gx_CCR-I"
  | DIA_GX_CCA_I => str "Diameter_Gx_CCA-I"
  end.

Definition msg_type_str (z : Z) : bytes :=
  match type_of_code z with Some t => type_name t | None => str "UNKNOWN" end.

(** ** MessageWriter *)

Record MessageWriter : Type := mkWriter { buf_ : bytes }.

Definition put (w : MessageWriter) (b : bytes) : MessageWriter := mkWriter (buf_ w ++ b).

Definition pu16 (w : MessageWriter) (v : Z) : MessageWriter :=
  put w [u8 v; u8 (Z.shiftr v 8)].

Definition pu32 (w : MessageWriter) (v : Z) : MessageWriter :=
  put w [u8 v; u8 (Z.shiftr v 8); u8 (Z.shiftr v 16); u8 (Z.shiftr v 24)].

Definition th (w : MessageWriter) (t : Tag) (n : Z) : MessageWriter :=
  let x := tag_code t in
  put w [u8 x; u8 (Z.shiftr x 8); u8 n; u8 (Z.shiftr n 8)].

(** The constructor: four bytes for the TCP length prefix, then the header. *)
Definition newWriter (type : MessageType) (seq flags : Z) : MessageWriter :=
  pu32 (pu16 (pu16 (mkWriter [0; 0; 0; 0]) (type_code type)) flags) seq.

Definition writeU8 (w : MessageWriter) (t : Tag) (v : Z) : MessageWriter :=
  put (th w t 1) [u8 v].

Definition writeU16 (w : MessageWriter) (t : Tag) (v : Z) : MessageWriter :=
  pu16 (th w t 2) v.

Definition writeU32 (w : MessageWriter) (t : Tag) (v : Z) : MessageWriter :=
  pu32 (th w t 4) v.

Definition writeU64 (w : MessageWriter) (t : Tag) (v : Z) : MessageWriter :=
  pu32 (pu32 (th w t 8) (u32 v)) (u32 (Z.shiftr v 32)).

(** [n] bytes from the array [d], which every call makes at least [n] long. *)
Definition writeBytes (w : MessageWriter) (t : Tag) (d : bytes) (n : Z) : MessageWriter :=
  put (th w t n) (take (Z.to_nat n) d).

Definition writeStr (w : MessageWriter) (t : Tag) (s : bytes) : MessageWriter :=
  writeBytes w t s (u16 (Z.of_nat (length s))).

Definition writeIPv4 (w : MessageWriter) (t : Tag) (ip_be : Z) : MessageWriter :=
  pu32 (th w t 4) ip_be.

Definition frame (w : MessageWriter) : bytes :=
  let n := u32 (u32 (Z.of_nat (length (buf_ w))) - 4) in
  <[3%nat := u8 (Z.shiftr n 24)]> (<[2%nat := u8 (Z.shiftr n 16)]>
    (<[1%nat := u8 (Z.shiftr n 8)]> (<[0%nat := u8 n]> (buf_ w)))).

Definition udpPayload (w : MessageWriter) : bytes := drop 4 (buf_ w).

(** ** MessageReader *)

Record MessageReader : Type := mkReader {
  rbuf : bytes;  (** [buf_]: the payload, held by reference *)
  pos_ : nat;
  msgType : Z;
  flags : Z;
  seqNum : Z
}.

Definition newReader (buf : bytes) : MessageReader :=
  match buf with
  | t0 :: t1 :: f0 :: f1 :: s0 :: s1 :: s2 :: s3 :: _ =>
      mkReader buf 8 (from_le16 t0 t1) (from_le16 f0 f1) (from_le32 s0 s1 s2 s3)
  | _ => mkReader buf 0 0 0 0
  end.

Definition hasMore (r : MessageReader) : bool := (pos_ r <? length (rbuf r))%nat.

(** [buf_[i]]: undefined behaviour outside the vector. *)
Definition at_ (r : MessageReader) (i : nat) : res Z :=
  match rbuf r !! i with Some b => Ok b | None => Undefined end.

Definition advance (r : MessageReader) (n : nat) : MessageReader :=
  mkReader (rbuf r) (pos_ r + n) (msgType r) (flags r) (seqNum r).

(** [peek(tag, len)]: [None] is the result [false], the arguments unset. *)
Definition peek (r : MessageReader) : option (Z * Z) :=
  match rbuf r !! pos_ r, rbuf r !! S (pos_ r),
        rbuf r !! S (S (pos_ r)), rbuf r !! S (S (S (pos_ r))) with
  | Some t0, Some t1, Some l0, Some l1 => Some (from_le16 t0 t1, from_le16 l0 l1)
  | _, _, _, _ => None
  end.

Definition readU8 (r : MessageReader) : res (Z * MessageReader) :=
  let r := advance r 4 in
  v ← at_ r (pos_ r); mret (v, advance r 1).

Definition readU16 (r : MessageReader) : res (Z * MessageReader) :=
  let r := advance r 4 in
  b0 ← at_ r (pos_ r); b1 ← at_ r (pos_ r + 1);
  mret (from_le16 b0 b1, advance r 2).

Definition readU32 (r : MessageReader) : res (Z * MessageReader) :=
  let r := advance r 4 in
  b0 ← at_ r (pos_ r); b1 ← at_ r (pos_ r + 1);
  b2 ← at_ r (pos_ r + 2); b3 ← at_ r (pos_ r + 3);
  mret (from_le32 b0 b1 b2 b3, advance r 4).

Definition readU64 (r : MessageReader) : res (Z * MessageReader) :=
  let r := advance r 4 in
  b0 ← at_ r (pos_ r); b1 ← at_ r (pos_ r + 1);
  b2 ← at_ r (pos_ r + 2); b3 ← at_ r (pos_ r + 3);
  b4 ← at_ r (pos_ r + 4); b5 ← at_ r (pos_ r + 5);
  b6 ← at_ r (pos_ r + 6); b7 ← at_ r (pos_ r + 7);
  let lo := from_le32 b0 b1 b2 b3 in
  let hi := from_le32 b4 b5 b6 b7 in
  mret (Z.lor lo (Z.shiftl hi 32), advance r 8).

Definition readBytes (r : MessageReader) : res (bytes * MessageReader) :=
  match peek r with
  | None => Undefined
  | Some (_, len) =>
      let r := advance r 4 in
      let n := Z.to_nat len in
      if (pos_ r + n <=? length (rbuf r))%nat
      then Ok (take n (drop (pos_ r) (rbuf r)), advance r n)
      else Undefined
  end.

Definition readStr (r : MessageReader) : res (bytes * MessageReader) := readBytes r.

Definition skip (r : MessageReader) : MessageReader :=
  match peek r with
  | None => r
  | Some (_, len) => advance r (4 + Z.to_nat len)
  end.

(** ** The handlers' parsing loop

    [while (r.hasMore()) { if (!r.peek(tag,len)) break; switch (tag) {
    case T: local = r.readX(); break; ... default: r.skip(); } }].  A
    handler is given by its locals and its cases: the tag, the read of the
    case and what it stores. *)

Inductive rd (A : Type) : Type :=
| RdU8 (set : Z -> A -> A)
| RdU16 (set : Z -> A -> A)
| RdU32 (set : Z -> A -> A)
| RdU64 (set : Z -> A -> A)
| RdBytes (set : bytes -> A -> A).
Arguments RdU8 {A} set.
Arguments RdU16 {A} set.
Arguments RdU32 {A} set.
Arguments RdU64 {A} set.
Arguments RdBytes {A} set.

Definition cases (A : Type) : Type := list (Tag * rd A).

Fixpoint find_case {A} (cs : cases A) (tag : Z) : option (rd A) :=
  match cs with
  | [] => None
  | (t, c) :: cs' => if tag_code t =? tag then Some c else find_case cs' tag
  end.

Definition run_case {A} (c : rd A) (r : MessageReader) (a : A) : res (A * MessageReader) :=
  match c with
  | RdU8 set => '(v, r') ← readU8 r; mret (set v a, r')
  | RdU16 set => '(v, r') ← readU16 r; mret (set v a, r')
  | RdU32 set => '(v, r') ← readU32 r; mret (set v a, r')
  | RdU64 set => '(v, r') ← readU64 r; mret (set v a, r')
  | RdBytes set => '(v, r') ← readBytes r; mret (set v a, r')
  end.

Fixpoint parse_loop {A} (fuel : nat) (cs : cases A) (r : MessageReader) (a : A) : res A :=
  match fuel with
  | O => OutOfFuel
  | S fuel' =>
      if hasMore r then
        match peek r with
        | None => Ok a
        | Some (tag, _) =>
            match find_case cs tag with
            | Some c => '(a', r') ← run_case c r a; parse_loop fuel' cs r' a'
            | None => parse_loop fuel' cs (skip r) a
            end
        end
      else Ok a
  end.

(** The loop of a handler from the reader it has: every turn moves the
    reader by at least four bytes, so the bytes left bound the turns. *)
Definition parse {A} (cs : cases A) (r : MessageReader) (a : A) : res A :=
  parse_loop (S (length (rbuf r))) cs r a.

(** ** Messages as lists of fields (the specification side) *)

Inductive field : Type :=
| FU8 (t : Tag) (v : Z)
| FU16 (t : Tag) (v : Z)
| FU32 (t : Tag) (v : Z)
| FU64 (t : Tag) (v : Z)
| FBytes (t : Tag) (b : bytes).

Definition field_tag (f : field) : Tag :=
  match f with FU8 t _ | FU16 t _ | FU32 t _ | FU64 t _ | FBytes t _ => t end.

Definition write_field (w : MessageWriter) (f : field) : MessageWriter :=
  match f with
  | FU8 t v => writeU8 w t v
  | FU16 t v => writeU16 w t v
  | FU32 t v => writeU32 w t v
  | FU64 t v => writeU64 w t v
  | FBytes t b => writeStr w t b
  end.

Definition wf_field (f : field) : Prop :=
  match f with
  | FU8 _ v => in_u 8 v
  | FU16 _ v => in_u 16 v
  | FU32 _ v => in_u 32 v
  | FU64 _ v => in_u 64 v
  | FBytes _ b => Z.of_nat (length b) < 65536
  end.

Definition message (type : MessageType) (seq : Z) (fs : list field) : MessageWriter :=
  foldl write_field (newWriter type seq 0) fs.

(** What a field does to a handler's locals; [None] when the case reads
    another type than the field has. *)
Definition apply_field {A} (cs : cases A) (a : A) (f : field) : option A :=
  match find_case cs (tag_code (field_tag f)), f with
  | None, _ => Some a
  | Some (RdU8 set), FU8 _ v => Some (set v a)
  | Some (RdU16 set), FU16 _ v => Some (set v a)
  | Some (RdU32 set), FU32 _ v => Some (set v a)
  | Some (RdU64 set), FU64 _ v => Some (set v a)
  | Some (RdBytes set), FBytes _ b => Some (set b a)
  | Some _, _ => None
  end.

Fixpoint apply_fields {A} (cs : cases A) (a : A) (fs : list field) : option A :=
  match fs with
  | [] => Some a
  | f :: fs' => match apply_field cs a f with
                | Some a' => apply_fields cs a' fs'
                | None => None
                end
  end.

(** The bytes of a field on the wire. *)
Definition enc_hdr (t : Tag) (n : Z) : bytes := le16 (tag_code t) ++ le16 n.

Definition enc_field (f : field) : bytes :=
  match f with
  | FU8 t v => enc_hdr t 1 ++ [u8 v]
  | FU16 t v => enc_hdr t 2 ++ le16 v
  | FU32 t v => enc_hdr t 4 ++ le32 v
  | FU64 t v => enc_hdr t 8 ++ le32 (u32 v) ++ le32 (u32 (Z.shiftr v 32))
  | FBytes t b => enc_hdr t (Z.of_nat (length b)) ++ b
  end.

Definition enc_fields (fs : list field) : bytes := concat (map enc_field fs).

Definition enc_message (type : MessageType) (seq : Z) (fs : list field) : bytes :=
  le16 (type_code type) ++ le16 0 ++ le32 seq ++ enc_fields fs.

(** The bytes a reader has in front of it. *)
Definition rest (r : MessageReader) : bytes := drop (pos_ r) (rbuf r).

(** ** Lemmas: codes *)

#[export] Instance Tag_eq_dec : EqDecision Tag.
Proof. solve_decision. Defined.

#[export] Instance MessageType_eq_dec : EqDecision MessageType.
Proof. solve_decision. Defined.

Lemma tag_code_range (t : Tag) : in_u 16 (tag_code t).
Proof. unfold in_u. destruct t; cbn; lia. Qed.

Lemma type_code_range (t : MessageType) : in_u 16 (type_code t).
Proof. unfold in_u. destruct t; cbn; lia. Qed.

Lemma type_of_code_type_code (t : MessageType) : type_of_code (type_code t) = Some t.
Proof. destruct t; reflexivity. Qed.

Lemma tag_code_inj (t t' : Tag) : tag_code t = tag_code t' -> t = t'.
Proof.
  assert (H : forall t, List.find (fun x => tag_code x =? tag_code t) all_tags = Some t)
    by (intros []; reflexivity).
  intros E. pose proof (H t) as H1. rewrite E, H in H1. congruence.
Qed.

Lemma type_code_inj (t t' : MessageType) : type_code t = type_code t' -> t = t'.
Proof.
  intros E. pose proof (type_of_code_type_code t) as H.
  rewrite E, type_of_code_type_code in H. congruence.
Qed.

(** ** Lemmas: what the writer writes *)

Lemma write_field_enc (w : MessageWriter) (f : field) :
  wf_field f -> buf_ (write_field w f) = buf_ w ++ enc_field f.
Proof.
  destruct f as [t v|t v|t v|t v|t b]; intros H; cbn [write_field enc_field wf_field] in *.
  5: { unfold writeStr, writeBytes. rewrite u16_small by (unfold in_u; lia).
       rewrite Nat2Z.id, take_ge by lia. cbn. rewrite <- app_assoc. reflexivity. }
  all: cbn; rewrite <- ?app_assoc; reflexivity.
Qed.

Lemma newWriter_buf (type : MessageType) (seq flags : Z) :
  buf_ (newWriter type seq flags) =
  [0; 0; 0; 0] ++ le16 (type_code type) ++ le16 flags ++ le32 seq.
Proof. reflexivity. Qed.

Lemma foldl_write_field_enc (fs : list field) (w : MessageWriter) :
  Forall wf_field fs -> buf_ (foldl write_field w fs) = buf_ w ++ enc_fields fs.
Proof.
  revert w. induction fs as [|f fs IH]; intros w H; cbn.
  - rewrite app_nil_r. reflexivity.
  - inversion_clear H. rewrite IH, write_field_enc by assumption.
    rewrite <- app_assoc. reflexivity.
Qed.

Lemma message_buf (type : MessageType) (seq : Z) (fs : list field) :
  Forall wf_field fs ->
  buf_ (message type seq fs) = [0; 0; 0; 0] ++ enc_message type seq fs.
Proof.
  intros H. unfold message. rewrite foldl_write_field_enc by exact H.
  rewrite newWriter_buf. unfold enc_message. rewrite <- !app_assoc. reflexivity.
Qed.

Lemma message_udp (type : MessageType) (seq : Z) (fs : list field) :
  Forall wf_field fs -> udpPayload (message type seq fs) = enc_message type seq fs.
Proof. intros H. unfold udpPayload. rewrite message_buf by exact H. reflexivity. Qed.

Lemma frame_split (w : MessageWriter) (p : bytes) (b0 b1 b2 b3 : Z) :
  buf_ w = [b0; b1; b2; b3] ++ p -> 4 + Z.of_nat (length p) < 2 ^ 32 ->
  frame w = le32 (Z.of_nat (length p)) ++ p.
Proof.
  intros Hb Hlen. unfold frame. rewrite Hb, length_app.
  replace (u32 (u32 (Z.of_nat (length [b0; b1; b2; b3] + length p)) - 4))
    with (Z.of_nat (length p)) by (cbn [length]; rewrite (u32_small (Z.of_nat _)), u32_small;
      unfold in_u; lia).
  reflexivity.
Qed.

Lemma message_frame (type : MessageType) (seq : Z) (fs : list field) :
  Forall wf_field fs -> 4 + Z.of_nat (length (enc_message type seq fs)) < 2 ^ 32 ->
  frame (message type seq fs) =
  le32 (Z.of_nat (length (enc_message type seq fs))) ++ enc_message type seq fs.
Proof.
  intros H Hl. apply (frame_split _ _ 0 0 0 0); [apply message_buf; exact H|exact Hl].
Qed.

(** ** Lemmas: what the reader reads *)

Lemma rest_lookup (r : MessageReader) (k : nat) : rbuf r !! (pos_ r + k)%nat = rest r !! k.
Proof. unfold rest. rewrite lookup_drop. reflexivity. Qed.

Lemma at_rest (r : MessageReader) (k : nat) :
  at_ r (pos_ r + k) = match rest r !! k with Some b => Ok b | None => Undefined end.
Proof. unfold at_. rewrite rest_lookup. reflexivity. Qed.

Lemma at_rest_0 (r : MessageReader) :
  at_ r (pos_ r) = match rest r !! 0%nat with Some b => Ok b | None => Undefined end.
Proof. rewrite <- at_rest, Nat.add_0_r. reflexivity. Qed.

Lemma rest_advance (r : MessageReader) (n : nat) : rest (advance r n) = drop n (rest r).
Proof. unfold rest, advance; cbn. rewrite drop_drop. reflexivity. Qed.

Lemma rest_length (r : MessageReader) : length (rest r) = (length (rbuf r) - pos_ r)%nat.
Proof. apply length_drop. Qed.

Lemma peek_rest (r : MessageReader) :
  peek r = match rest r with
           | t0 :: t1 :: l0 :: l1 :: _ => Some (from_le16 t0 t1, from_le16 l0 l1)
           | _ => None
           end.
Proof.
  unfold peek.
  replace (S (S (S (pos_ r)))) with (pos_ r + 3)%nat by lia.
  replace (S (S (pos_ r))) with (pos_ r + 2)%nat by lia.
  replace (S (pos_ r)) with (pos_ r + 1)%nat by lia.
  rewrite <- (Nat.add_0_r (pos_ r)) at 1. rewrite !rest_lookup.
  destruct (rest r) as [|t0 [|t1 [|l0 [|l1 l]]]]; reflexivity.
Qed.

Lemma hasMore_rest (r : MessageReader) :
  hasMore r = match rest r with [] => false | _ => true end.
Proof.
  unfold hasMore. pose proof (rest_length r) as H.
  destruct (rest r); cbn in H; [apply Nat.ltb_ge|apply Nat.ltb_lt]; lia.
Qed.

(** Reading back one encoded value. *)
Ltac read_value E r4 :=
  rewrite ?(at_rest_0 r4), ?(at_rest r4), E; cbn.

Lemma readU8_enc (r : MessageReader) (h v : Z) (h1 h2 h3 : Z) (l : bytes) :
  rest r = [h; h1; h2; h3] ++ v :: l ->
  exists r', readU8 r = Ok (v, r') /\ rest r' = l /\ rbuf r' = rbuf r.
Proof.
  intros E. unfold readU8. set (r4 := advance r 4).
  assert (E4 : rest r4 = v :: l) by (unfold r4; rewrite rest_advance, E; reflexivity).
  read_value E4 r4. eexists. split; [reflexivity|].
  rewrite rest_advance, E4. split; reflexivity.
Qed.

Lemma readU16_enc (r : MessageReader) (h h1 h2 h3 b0 b1 : Z) (l : bytes) :
  rest r = [h; h1; h2; h3] ++ [b0; b1] ++ l ->
  exists r', readU16 r = Ok (from_le16 b0 b1, r') /\ rest r' = l /\ rbuf r' = rbuf r.
Proof.
  intros E. unfold readU16. set (r4 := advance r 4).
  assert (E4 : rest r4 = [b0; b1] ++ l) by (unfold r4; rewrite rest_advance, E; reflexivity).
  read_value E4 r4. eexists. split; [reflexivity|].
  rewrite rest_advance, E4. split; reflexivity.
Qed.

Lemma readU32_enc (r : MessageReader) (h h1 h2 h3 b0 b1 b2 b3 : Z) (l : bytes) :
  rest r = [h; h1; h2; h3] ++ [b0; b1; b2; b3] ++ l ->
  exists r', readU32 r = Ok (from_le32 b0 b1 b2 b3, r') /\ rest r' = l /\ rbuf r' = rbuf r.
Proof.
  intros E. unfold readU32. set (r4 := advance r 4).
  assert (E4 : rest r4 = [b0; b1; b2; b3] ++ l)
    by (unfold r4; rewrite rest_advance, E; reflexivity).
  read_value E4 r4. eexists. split; [reflexivity|].
  rewrite rest_advance, E4. split; reflexivity.
Qed.

Lemma readU64_enc (r : MessageReader) (h h1 h2 h3 b0 b1 b2 b3 b4 b5 b6 b7 : Z) (l : bytes) :
  rest r = [h; h1; h2; h3] ++ [b0; b1; b2; b3; b4; b5; b6; b7] ++ l ->
  exists r', readU64 r = Ok (Z.lor (from_le32 b0 b1 b2 b3)
                                   (Z.shiftl (from_le32 b4 b5 b6 b7) 32), r')
             /\ rest r' = l /\ rbuf r' = rbuf r.
Proof.
  intros E. unfold readU64. set (r4 := advance r 4).
  assert (E4 : rest r4 = [b0; b1; b2; b3; b4; b5; b6; b7] ++ l)
    by (unfold r4; rewrite rest_advance, E; reflexivity).
  read_value E4 r4. eexists. split; [reflexivity|].
  rewrite rest_advance, E4. split; reflexivity.
Qed.

(** A header of any 16-bit code, the tags of other protocols included. *)
Lemma peek_hdr (r : MessageReader) (c n : Z) (l : bytes) :
  in_u 16 c -> in_u 16 n -> rest r = le16 c ++ le16 n ++ l -> peek r = Some (c, n).
Proof.
  intros Hc Hn E. rewrite peek_rest, E. cbn. rewrite !le16_roundtrip by assumption. reflexivity.
Qed.

Lemma readBytes_hdr (r : MessageReader) (c : Z) (b l : bytes) :
  in_u 16 c -> Z.of_nat (length b) < 65536 ->
  rest r = le16 c ++ le16 (Z.of_nat (length b)) ++ b ++ l ->
  exists r', readBytes r = Ok (b, r') /\ rest r' = l /\ rbuf r' = rbuf r.
Proof.
  intros Hc Hb E. unfold readBytes.
  rewrite (peek_hdr r c (Z.of_nat (length b)) (b ++ l)) by (unfold in_u in *; first [lia|exact E]).
  rewrite Nat2Z.id. set (r4 := advance r 4).
  assert (E4 : rest r4 = b ++ l) by (unfold r4; rewrite rest_advance, E; reflexivity).
  pose proof (rest_length r4) as Hl. rewrite E4, length_app in Hl.
  destruct (Nat.leb_spec (pos_ r4 + length b) (length (rbuf r4))) as [Hle|Hle].
  - exists (advance r4 (length b)). fold (rest r4). rewrite E4, take_app_length.
    rewrite rest_advance, E4, drop_app_length. auto.
  - exfalso. destruct (decide (length b = 0)%nat) as [H0|H0]; [|lia].
    rewrite H0 in Hle. apply (f_equal length) in E. unfold rest in E.
    rewrite length_drop in E. cbn in E. unfold r4 in Hle; cbn in Hle. lia.
Qed.

Lemma peek_enc (r : MessageReader) (t : Tag) (n : Z) (l : bytes) :
  in_u 16 n -> rest r = enc_hdr t n ++ l -> peek r = Some (tag_code t, n).
Proof. intros Hn E. apply (peek_hdr r _ n l); [apply tag_code_range|exact Hn|exact E]. Qed.

Lemma readBytes_enc (r : MessageReader) (t : Tag) (b l : bytes) :
  Z.of_nat (length b) < 65536 -> rest r = enc_hdr t (Z.of_nat (length b)) ++ b ++ l ->
  exists r', readBytes r = Ok (b, r') /\ rest r' = l /\ rbuf r' = rbuf r.
Proof. intros Hb E. apply (readBytes_hdr r (tag_code t)); [apply tag_code_range|exact Hb|exact E]. Qed.

(** One turn of the loop on an encoded field. *)
Lemma run_case_enc {A} (c : rd A) (cs : cases A) (f : field) (r : MessageReader)
    (a a' : A) (l : bytes) :
  wf_field f -> rest r = enc_field f ++ l ->
  find_case cs (tag_code (field_tag f)) = Some c -> apply_field cs a f = Some a' ->
  exists r', run_case c r a = Ok (a', r') /\ rest r' = l /\ rbuf r' = rbuf r.
Proof.
  intros Hwf E Hc Hap. unfold apply_field in Hap. rewrite Hc in Hap.
  destruct f as [t v|t v|t v|t v|t b], c; try discriminate; injection Hap as <-;
    cbn [enc_field wf_field] in *; cbn [run_case].
  - edestruct readU8_enc as (r' & -> & Hr); [exact E|].
    exists r'. cbn. rewrite u8_small by exact Hwf. auto.
  - edestruct readU16_enc as (r' & -> & Hr); [exact E|].
    exists r'. cbn. rewrite le16_roundtrip by exact Hwf. auto.
  - edestruct readU32_enc as (r' & -> & Hr); [exact E|].
    exists r'. cbn. rewrite le32_roundtrip by exact Hwf. auto.
  - edestruct readU64_enc as (r' & -> & Hr); [exact E|].
    exists r'. cbn. rewrite !le32_roundtrip, le64_roundtrip by first [exact Hwf|apply u32_range].
    auto.
  - edestruct readBytes_enc as (r' & -> & Hr);
      [exact Hwf|rewrite app_assoc; exact E|].
    exists r'. cbn. auto.
Qed.

Definition val_len (f : field) : Z :=
  match f with
  | FU8 _ _ => 1 | FU16 _ _ => 2 | FU32 _ _ => 4 | FU64 _ _ => 8
  | FBytes _ b => Z.of_nat (length b)
  end.

Lemma enc_field_hdr (f : field) :
  exists v, enc_field f = enc_hdr (field_tag f) (val_len f) ++ v
            /\ Z.of_nat (length v) = val_len f.
Proof. destruct f; eexists; (split; [reflexivity|reflexivity]). Qed.

Lemma val_len_range (f : field) : wf_field f -> in_u 16 (val_len f).
Proof. unfold in_u. destruct f; cbn; lia. Qed.

Lemma skip_enc (r : MessageReader) (f : field) (l : bytes) :
  wf_field f -> rest r = enc_field f ++ l ->
  rest (skip r) = l /\ rbuf (skip r) = rbuf r.
Proof.
  intros Hwf E. destruct (enc_field_hdr f) as (v & Ev & Hv). rewrite Ev, <- app_assoc in E.
  unfold skip. rewrite (peek_enc r _ _ _ (val_len_range f Hwf) E).
  rewrite rest_advance, E, <- Hv, Nat2Z.id. split; [|reflexivity].
  rewrite app_assoc. apply drop_app_length'. rewrite length_app. reflexivity.
Qed.

Lemma enc_field_length (f : field) : (4 < length (enc_field f) \/ length (enc_field f) = 4)%nat.
Proof. destruct f; cbn; lia. Qed.

(** The loop of a handler on the encoding of a list of fields computes the
    handler's cases on the fields, in order, skipping the unknown ones, and
    goes on with what follows. *)
Lemma parse_loop_prefix {A} (cs : cases A) (fs : list field) (fuel : nat)
    (r : MessageReader) (a a' : A) (tl : bytes) :
  Forall wf_field fs -> rest r = enc_fields fs ++ tl ->
  (length (enc_fields fs ++ tl) < fuel)%nat -> apply_fields cs a fs = Some a' ->
  exists fuel' r', parse_loop fuel cs r a = parse_loop fuel' cs r' a'
                   /\ rest r' = tl /\ (length tl < fuel')%nat.
Proof.
  revert fuel r a. induction fs as [|f fs IH]; intros fuel r a Hwf E Hfuel Hap;
    cbn [apply_fields] in *.
  - injection Hap as <-. exists fuel, r. auto.
  - destruct fuel as [|fuel]; [lia|]. cbn [parse_loop].
    inversion_clear Hwf as [|? ? Hf Hfs]. unfold enc_fields in E, Hfuel; cbn in E, Hfuel.
    fold (enc_fields fs) in E, Hfuel. rewrite <- app_assoc in E, Hfuel.
    rewrite length_app in Hfuel. pose proof (enc_field_length f) as Hlen.
    assert (Hm : hasMore r = true)
      by (rewrite hasMore_rest, E; destruct (enc_field f); [cbn in Hlen; lia|reflexivity]).
    destruct (enc_field_hdr f) as (v & Ev & _).
    assert (Hpk : peek r = Some (tag_code (field_tag f), val_len f)).
    { eapply peek_enc; [apply val_len_range; exact Hf|]. rewrite E, Ev, <- app_assoc. reflexivity. }
    rewrite Hm, Hpk. destruct (apply_field cs a f) as [a1|] eqn:Ea; [|discriminate].
    destruct (find_case cs (tag_code (field_tag f))) as [c|] eqn:Ec.
    + destruct (run_case_enc c cs f r a a1 _ Hf E Ec Ea) as (r' & -> & Er & _).
      cbn. apply IH; [exact Hfs|exact Er|lia|exact Hap].
    + unfold apply_field in Ea. rewrite Ec in Ea. injection Ea as <-.
      apply IH; [exact Hfs|apply (skip_enc r f _ Hf E)|lia|exact Hap].
Qed.

Lemma parse_loop_end {A} (cs : cases A) (fuel : nat) (r : MessageReader) (a : A) :
  rest r = [] -> (0 < fuel)%nat -> parse_loop fuel cs r a = Ok a.
Proof.
  intros E Hf. destruct fuel as [|fuel]; [lia|].
  cbn [parse_loop]. rewrite hasMore_rest, E. reflexivity.
Qed.

Lemma newReader_enc (type : MessageType) (seq : Z) (fs : list field) (tl : bytes) :
  in_u 32 seq ->
  newReader (enc_message type seq fs ++ tl) =
  mkReader (enc_message type seq fs ++ tl) 8 (type_code type) 0 seq.
Proof.
  intros Hs. unfold newReader, enc_message, le32; cbn.
  rewrite le16_roundtrip, le32_roundtrip by first [apply type_code_range|exact Hs].
  reflexivity.
Qed.

Lemma parse_prefix {A} (cs : cases A) (type : MessageType) (seq : Z) (fs : list field)
    (a a' : A) (tl : bytes) :
  in_u 32 seq -> Forall wf_field fs -> apply_fields cs a fs = Some a' ->
  exists fuel r, parse cs (newReader (enc_message type seq fs ++ tl)) a = parse_loop fuel cs r a'
                 /\ rest r = tl /\ (length tl < fuel)%nat.
Proof.
  intros Hs Hwf Hap. unfold parse. rewrite newReader_enc by exact Hs. cbn [rbuf].
  apply (parse_loop_prefix cs fs); [exact Hwf| | |exact Hap].
  - unfold rest, enc_message; cbn. reflexivity.
  - unfold enc_message. rewrite !length_app. lia.
Qed.

(** What a handler gets from a message another node wrote. *)
Lemma parse_enc {A} (cs : cases A) (type : MessageType) (seq : Z) (fs : list field) (a a' : A) :
  in_u 32 seq -> Forall wf_field fs -> apply_fields cs a fs = Some a' ->
  parse cs (newReader (enc_message type seq fs)) a = Ok a'.
Proof.
  intros Hs Hwf Hap.
  destruct (parse_prefix cs type seq fs a a' [] Hs Hwf Hap) as (fuel & r & E & Er & Hf).
  rewrite app_nil_r in E. rewrite E. apply parse_loop_end; [exact Er|cbn in Hf; lia].
Qed.

Lemma msgType_enc (type : MessageType) (seq : Z) (fs : list field) :
  in_u 32 seq -> msgType (newReader (enc_message type seq fs)) = type_code type.
Proof.
  intros Hs. rewrite <- (app_nil_r (enc_message type seq fs)), newReader_enc by exact Hs.
  reflexivity.
Qed.

Lemma seqNum_enc (type : MessageType) (seq : Z) (fs : list field) :
  in_u 32 seq -> seqNum (newReader (enc_message type seq fs)) = seq.
Proof.
  intros Hs. rewrite <- (app_nil_r (enc_message type seq fs)), newReader_enc by exact Hs.
  reflexivity.
Qed.

Lemma enc_message_long (type : MessageType) (seq : Z) (fs : list field) :
  (length (enc_message type seq fs) <? 8)%nat = false.
Proof. apply Nat.ltb_ge. unfold enc_message. rewrite !length_app. cbn. lia. Qed.

(** ** Lemmas: termination of the loop *)

Lemma readBytes_advance (r r' : MessageReader) (b : bytes) :
  readBytes r = Ok (b, r') -> rbuf r' = rbuf r /\ (pos_ r + 4 <= pos_ r')%nat.
Proof.
  unfold readBytes. destruct (peek r) as [[t n]|]; [|discriminate].
  destruct (_ <=? _)%nat; [|discriminate]. intros [= _ <-]. cbn. split; [reflexivity|lia].
Qed.

Ltac split_at :=
  repeat match goal with
  | H : context [at_ ?r ?i] |- _ => destruct (at_ r i); try discriminate
  end.

Lemma run_case_advance {A} (c : rd A) (r r' : MessageReader) (a a' : A) :
  run_case c r a = Ok (a', r') -> rbuf r' = rbuf r /\ (pos_ r + 4 <= pos_ r')%nat.
Proof.
  destruct c; cbn; unfold readU8, readU16, readU32, readU64, mbind, res_bind.
  5: { destruct (readBytes r) as [[b r1]| | |] eqn:E; try discriminate.
       intros [= _ <-]. exact (readBytes_advance _ _ _ E). }
  all: intros H; split_at; injection H as <- <-; cbn; split; [reflexivity|lia].
Qed.

Lemma run_case_fuel {A} (c : rd A) (r : MessageReader) (a : A) : run_case c r a <> OutOfFuel.
Proof.
  destruct c; cbn; unfold readU8, readU16, readU32, readU64, readBytes, mbind, res_bind, at_.
  5: { destruct (peek r) as [[t n]|]; [|discriminate]. destruct (_ <=? _)%nat; discriminate. }
  all: intros H; repeat match type of H with
       | context [rbuf ?x !! ?i] => destruct (rbuf x !! i); try discriminate end.
Qed.

Lemma parse_loop_fuel {A} (cs : cases A) (fuel : nat) (r : MessageReader) (a : A) :
  (length (rbuf r) - pos_ r < fuel)%nat -> parse_loop fuel cs r a <> OutOfFuel.
Proof.
  revert r a. induction fuel as [|fuel IH]; intros r a Hf; [lia|]. cbn [parse_loop].
  destruct (hasMore r) eqn:Hm; [|discriminate]. apply Nat.ltb_lt in Hm.
  destruct (peek r) as [[tag n]|] eqn:Hp; [|discriminate].
  destruct (find_case cs tag) as [c|].
  - pose proof (run_case_fuel c r a) as Hc.
    destruct (run_case c r a) as [[a1 r1]| | |] eqn:E; cbn; try congruence.
    apply run_case_advance in E as [E1 E2]. apply IH. rewrite E1. lia.
  - apply IH. unfold skip. rewrite Hp. cbn. lia.
Qed.

(** ** Lemmas: truncated input *)

Lemma take_enc_field (f : field) (n : nat) :
  (4 <= n)%nat -> exists v, take n (enc_field f) = enc_hdr (field_tag f) (val_len f) ++ v
                            /\ v = take (n - 4) (drop 4 (enc_field f)).
Proof.
  intros Hn. destruct (enc_field_hdr f) as (v & -> & _).
  exists (take (n - 4) v). split; [|reflexivity].
  rewrite take_app, take_ge by (cbn; lia). reflexivity.
Qed.

Lemma run_case_short {A} (c : rd A) (cs : cases A) (f : field) (r : MessageReader)
    (a a' : A) (n : nat) :
  wf_field f -> (4 <= n < length (enc_field f))%nat -> rest r = take n (enc_field f) ->
  find_case cs (tag_code (field_tag f)) = Some c -> apply_field cs a f = Some a' ->
  run_case c r a = Undefined.
Proof.
  intros Hwf Hn E Hc Hap. unfold apply_field in Hap. rewrite Hc in Hap.
  destruct (take_enc_field f n ltac:(lia)) as (v & Ev & Hv). rewrite Ev in E.
  assert (Hl : (length v = n - 4)%nat).
  { rewrite Hv, length_take, length_drop. lia. }
  assert (E4 : rest (advance r 4) = v) by (rewrite rest_advance, E; reflexivity).
  destruct f as [t z|t z|t z|t z|t b], c; try discriminate; cbn in Hn; cbn [run_case].
  5: { unfold readBytes. rewrite (peek_enc r _ _ _ (val_len_range _ Hwf) E). cbn [val_len].
       rewrite Nat2Z.id.
       pose proof (rest_length (advance r 4)) as Hr. rewrite E4 in Hr.
       destruct (Nat.leb_spec (pos_ (advance r 4) + length b) (length (rbuf (advance r 4))))
         as [Hle|Hle]; [|reflexivity]. cbn in Hn. lia. }
  all: unfold readU8, readU16, readU32, readU64; rewrite ?at_rest_0, ?at_rest, E4;
    repeat (destruct v as [|? v]; [reflexivity|cbn]); cbn in Hl; lia.
Qed.

(** ** Properties *)

(** C9. A message built by any sequence of [write] calls and received whole,
    over UDP or as the payload of a TCP frame, gives the receiving handler's
    locals exactly the effect of its cases on the fields, in order; the
    reader's header has the type and the sequence number of the writer. *)
Theorem parse_message {A} (cs : cases A) (type : MessageType) (seq : Z) (fs : list field)
    (a a' : A) (Hseq : in_u 32 seq) (Hwf : Forall wf_field fs)
    (Hap : apply_fields cs a fs = Some a') :
  let p := udpPayload (message type seq fs) in
  parse cs (newReader p) a = Ok a' /\ msgType (newReader p) = type_code type
  /\ seqNum (newReader p) = seq.
Proof.
  cbv zeta. rewrite message_udp by exact Hwf.
  split; [|split]; [apply parse_enc|apply msgType_enc|apply seqNum_enc]; assumption.
Qed.

Lemma parse_message_witness :
  let cs : cases (Z * bytes) :=
    [(GTP_CAUSE, RdU8 (fun v a => (v, a.2))); (GTP_UE_IP, RdBytes (fun b a => (a.1, b)))] in
  let p := udpPayload (message GTP_CREATE_SESSION_RSP 7
             [FU8 GTP_CAUSE 16; FU32 GTP_SENDER_TEID 2000; FBytes GTP_UE_IP [10; 0; 0; 1]]) in
  parse cs (newReader p) (0, []) = Ok (16, [10; 0; 0; 1])
  /\ msgType (newReader p) = type_code GTP_CREATE_SESSION_RSP /\ seqNum (newReader p) = 7.
Proof.
  apply parse_message; [split; reflexivity || lia| |reflexivity].
  repeat (constructor; [cbn; unfold in_u; lia|]). constructor.
Defined.

(** C34. The parsing loop of every handler terminates on every payload, from
    every position: the bytes of the buffer bound its turns. *)
Theorem parse_terminates {A} (cs : cases A) (r : MessageReader) (a : A) :
  parse cs r a <> OutOfFuel.
Proof. apply parse_loop_fuel. lia. Qed.

(** Forward compatibility: a field whose tag the handler has no case for,
    anywhere in the message, changes nothing of what the handler gets. *)
Theorem unknown_field_skipped {A} (cs : cases A) (type : MessageType) (seq : Z)
    (fs gs : list field) (f : field) (a a' : A) (Hseq : in_u 32 seq)
    (Hwf : Forall wf_field (fs ++ f :: gs))
    (Hunknown : find_case cs (tag_code (field_tag f)) = None)
    (Hap : apply_fields cs a (fs ++ gs) = Some a') :
  parse cs (newReader (udpPayload (message type seq (fs ++ f :: gs)))) a =
  parse cs (newReader (udpPayload (message type seq (fs ++ gs)))) a.
Proof.
  assert (Hwf' : Forall wf_field (fs ++ gs)).
  { apply Forall_app in Hwf as [H1 H2]. apply Forall_app. inversion_clear H2. auto. }
  rewrite !message_udp by assumption.
  rewrite !(parse_enc cs type seq _ a a'); try assumption; [reflexivity|].
  clear Hwf Hwf'. revert a Hap. induction fs as [|g fs IH]; intros a Hap; cbn in *.
  - unfold apply_field. rewrite Hunknown. exact Hap.
  - destruct (apply_field cs a g); [apply IH; exact Hap|discriminate].
Qed.

Lemma unknown_field_skipped_witness :
  let cs : cases Z := [(GTP_CAUSE, RdU8 (fun v _ => v))] in
  parse cs (newReader (udpPayload (message GTP_CREATE_SESSION_RSP 1
    ([FU64 GTP_IMSI 404100000000001] ++ FBytes GTP_APN (str "ims") :: [FU8 GTP_CAUSE 16])))) 0 =
  parse cs (newReader (udpPayload (message GTP_CREATE_SESSION_RSP 1
    ([FU64 GTP_IMSI 404100000000001] ++ [FU8 GTP_CAUSE 16])))) 0.
Proof.
  intros cs. apply (unknown_field_skipped cs _ _ _ _ _ 0 16); try reflexivity.
  - unfold in_u; lia.
  - repeat (constructor; [cbn; unfold in_u; lia|]). constructor.
Defined.

(** A message cut inside the value of a field the handler reads makes the
    handler access its buffer out of bounds: the read functions compare no
    length with the size of the buffer. *)
Theorem truncated_value_undefined {A} (cs : cases A) (type : MessageType) (seq : Z)
    (fs : list field) (f : field) (n : nat) (a a1 a2 : A) (Hseq : in_u 32 seq)
    (Hwf : Forall wf_field (fs ++ [f])) (Hap : apply_fields cs a fs = Some a1)
    (Hread : find_case cs (tag_code (field_tag f)) <> None)
    (Hap2 : apply_field cs a1 f = Some a2) (Hn : (4 <= n < length (enc_field f))%nat) :
  parse cs (newReader (udpPayload (message type seq fs) ++ take n (enc_field f))) a = Undefined.
Proof.
  apply Forall_app in Hwf as [Hfs Hf]. inversion_clear Hf.
  rewrite message_udp by exact Hfs.
  destruct (parse_prefix cs type seq fs a a1 (take n (enc_field f)) Hseq Hfs Hap)
    as (fuel & r & -> & Er & Hfuel).
  destruct fuel as [|fuel]; [lia|]. cbn [parse_loop].
  destruct (take_enc_field f n ltac:(lia)) as (v & Ev & _).
  rewrite hasMore_rest, Er, Ev. cbn.
  rewrite (peek_enc r (field_tag f) (val_len f) v)
    by first [apply val_len_range; assumption|rewrite Er; exact Ev].
  destruct (find_case cs (tag_code (field_tag f))) as [c|] eqn:Ec; [|contradiction].
  rewrite (run_case_short c cs f r a1 a2 n); auto.
Qed.

Lemma truncated_value_undefined_witness :
  let cs : cases Z := [(MME_UE_S1AP_ID, RdU32 (fun v _ => v))] in
  parse cs (newReader (udpPayload (message S1AP_UL_NAS_TRANSPORT 1 [])
                       ++ take 6 (enc_field (FU32 MME_UE_S1AP_ID 1)))) 0 = Undefined.
Proof.
  intros cs. apply (truncated_value_undefined cs _ _ [] (FU32 MME_UE_S1AP_ID 1) 6 0 0 1);
    try reflexivity; try discriminate; try (cbn; lia).
  - unfold in_u; lia.
  - repeat (constructor; [cbn; unfold in_u; lia|]). constructor.
Defined.
