(* ===== verification/Framing.v ===== *)
(** * TCP framing

    [Socket] of [4g-simulator/src/common/socket_wrapper.h]: [sendAll],
    [recvAll], [sendFrame], [sendPayload] and [recvFrame] over a byte stream.
    The system calls [send] and [recv] are not code of the repository: they
    are parameters, with what the code relies on as hypotheses (a call
    transfers at least one and at most the asked number of bytes, in order,
    or fails). *)

From S2P Require Import Prelude Tlv.
#[local] Open Scope Z_scope.

(** ** The system calls *)

Section Socket.
Context {S : Type}.
(** [recv(fd, p, r, 0)]: [None] is a result [n <= 0]. *)
Variable recv : S -> nat -> option (bytes * S).
(** [send(fd, p, r, 0)]: how many bytes were taken; [None] is [n <= 0]. *)
Variable send : S -> bytes -> option (nat * S).

Fixpoint recvAll_loop (fuel : nat) (s : S) (r : nat) : option (bytes * S) :=
  match r, fuel with
  | O, _ => Some ([], s)
  | _, O => None
  | _, Datatypes.S fuel' =>
      match recv s r with
      | None => None
      | Some (b, s') =>
          match recvAll_loop fuel' s' (r - length b) with
          | None => None
          | Some (b', s'') => Some (b ++ b', s'')
          end
      end
  end.

(** Each call takes at least one byte: [len] calls are enough. *)
Definition recvAll (s : S) (len : Z) : option (bytes * S) :=
  recvAll_loop (Z.to_nat len) s (Z.to_nat len).

Fixpoint sendAll_loop (fuel : nat) (s : S) (buf : bytes) : option S :=
  match buf, fuel with
  | [], _ => Some s
  | _, O => None
  | _, Datatypes.S fuel' =>
      match send s buf with
      | None => None
      | Some (n, s') => sendAll_loop fuel' s' (drop n buf)
      end
  end.

Definition sendAll (s : S) (buf : bytes) : option S := sendAll_loop (length buf) s buf.

Definition sendFrame (s : S) (frame : bytes) : option S := sendAll s frame.

Definition sendPayload (s : S) (payload : bytes) : option S :=
  let len := u32 (Z.of_nat (length payload)) in
  match sendAll s [u8 len; u8 (Z.shiftr len 8); u8 (Z.shiftr len 16); u8 (Z.shiftr len 24)] with
  | None => None
  | Some s' => sendAll s' payload
  end.

(** The length is read into a [uint32_t] of a little-endian host. *)
Definition recvFrame (s : S) : option (bytes * S) :=
  match recvAll s 4 with
  | Some ([b0; b1; b2; b3], s') =>
      let plen := from_le32 b0 b1 b2 b3 in
      if (plen =? 0) || (plen >? 65536) then None else recvAll s' plen
  | _ => None
  end.

(** ** What the kernel does *)

(** The bytes still to be received, and those the peer was sent. *)
Variable incoming outgoing : S -> bytes.
Hypothesis recv_some : forall s r b s', recv s r = Some (b, s') ->
  (1 <= length b <= r)%nat /\ incoming s = b ++ incoming s'.
Hypothesis recv_none : forall s r, recv s r = None -> (0 < r)%nat -> incoming s = [].
Hypothesis send_some : forall s b n s', send s b = Some (n, s') ->
  (1 <= n <= length b)%nat /\ outgoing s' = outgoing s ++ take n b.

Lemma recvAll_loop_spec (fuel r : nat) (s : S) (l l' : bytes) :
  (r <= fuel)%nat -> incoming s = l ++ l' -> length l = r ->
  exists s', recvAll_loop fuel s r = Some (l, s') /\ incoming s' = l'.
Proof.
  revert r s l. induction fuel as [|fuel IH]; intros r s l Hr E Hl; destruct r as [|r]; cbn.
  - destruct l; [exists s; auto|discriminate].
  - lia.
  - destruct l; [exists s; auto|discriminate].
  - destruct (recv s (Datatypes.S r)) as [[b s1]|] eqn:Hrecv.
    + destruct (recv_some _ _ _ _ Hrecv) as [Hb Hin]. rewrite E in Hin.
      assert (Hsplit : l = b ++ drop (length b) l).
      { rewrite <- (take_drop (length b) l) at 1. f_equal.
        transitivity (take (length b) (l ++ l')); [rewrite take_app_le by lia; reflexivity|].
        rewrite Hin. apply take_app_length. }
      destruct (IH (Datatypes.S r - length b)%nat s1 (drop (length b) l)) as (s' & Hs' & Hin').
      * lia.
      * rewrite Hsplit in Hin. rewrite <- app_assoc in Hin. apply app_inv_head in Hin.
        symmetry. exact Hin.
      * rewrite length_drop. lia.
      * rewrite Hs'. exists s'. rewrite <- Hsplit. auto.
    + exfalso. rewrite (recv_none _ _ Hrecv) in E by lia.
      destruct l; cbn in *; [lia|discriminate].
Qed.

Lemma recvAll_spec (s : S) (l l' : bytes) :
  incoming s = l ++ l' ->
  exists s', recvAll s (Z.of_nat (length l)) = Some (l, s') /\ incoming s' = l'.
Proof. intros E. unfold recvAll. rewrite Nat2Z.id. apply recvAll_loop_spec; auto. Qed.

Lemma sendAll_loop_spec (fuel : nat) (s s' : S) (buf : bytes) :
  sendAll_loop fuel s buf = Some s' -> outgoing s' = outgoing s ++ buf.
Proof.
  revert s buf. induction fuel as [|fuel IH]; intros s buf; destruct buf as [|b buf]; cbn;
    try discriminate; try (intros [= ->]; rewrite app_nil_r; reflexivity).
  destruct (send s (b :: buf)) as [[n s1]|] eqn:E; [|discriminate].
  intros H. apply IH in H. destruct (send_some _ _ _ _ E) as [_ Ho].
  rewrite H, Ho, <- app_assoc, take_drop. reflexivity.
Qed.

Lemma sendAll_loop_done (fuel : nat) (s : S) (buf : bytes) :
  (forall s b, b <> [] -> send s b <> None) -> (length buf <= fuel)%nat ->
  sendAll_loop fuel s buf <> None.
Proof.
  intros Hup. revert s buf.
  induction fuel as [|fuel IH]; intros s buf Hl; destruct buf as [|b buf]; cbn in *;
    try discriminate; [lia|].
  destruct (send s (b :: buf)) as [[n s1]|] eqn:E.
  - apply IH. destruct (send_some _ _ _ _ E) as [Hn _]. rewrite length_drop. cbn. lia.
  - apply Hup in E; [easy|discriminate].
Qed.

(** ** Frames on the stream *)

Lemma recvFrame_at (s : S) (p tl : bytes) :
  incoming s = le32 (Z.of_nat (length p)) ++ p ++ tl ->
  (1 <= length p)%nat -> Z.of_nat (length p) <= 65536 ->
  exists s', recvFrame s = Some (p, s') /\ incoming s' = tl.
Proof.
  intros E H1 H2. unfold recvFrame.
  destruct (recvAll_spec s _ _ E) as (s1 & Hr & E1).
  change (recvAll s 4 = Some (le32 (Z.of_nat (length p)), s1)) in Hr. rewrite Hr. cbn.
  rewrite le32_roundtrip by (unfold in_u; lia).
  replace ((Z.of_nat (length p) =? 0) || (Z.of_nat (length p) >? 65536)) with false by lia.
  apply recvAll_spec. exact E1.
Qed.

Lemma sendPayload_spec (s s' : S) (p : bytes) :
  sendPayload s p = Some s' -> outgoing s' = outgoing s ++ le32 (u32 (Z.of_nat (length p))) ++ p.
Proof.
  unfold sendPayload. destruct (sendAll s _) as [s1|] eqn:E; [|discriminate].
  intros H. apply sendAll_loop_spec in E, H. rewrite H, E, <- app_assoc. reflexivity.
Qed.

(** C10. Framing: a frame of a [MessageWriter], or a payload forwarded with
    [sendPayload], sent on one end and received on the other gives the payload
    a UDP datagram would carry, and leaves the stream at the next frame,
    however the kernel cuts the stream into pieces. *)
Theorem recvFrame_sendFrame (w : MessageWriter) (p tl : bytes) (b0 b1 b2 b3 : Z) (s1 s2 r : S)
    (Hw : buf_ w = [b0; b1; b2; b3] ++ p)
    (Hlen : (1 <= length p)%nat /\ Z.of_nat (length p) <= 65536)
    (Hsend : sendFrame s1 (frame w) = Some s2 \/ sendPayload s1 p = Some s2)
    (Hstream : outgoing s1 ++ incoming r = outgoing s2 ++ tl) :
  exists r', recvFrame r = Some (udpPayload w, r') /\ incoming r' = tl.
Proof.
  destruct Hlen as [H1 H2].
  assert (Hp : udpPayload w = p) by (unfold udpPayload; rewrite Hw; reflexivity).
  assert (Hout : outgoing s2 = outgoing s1 ++ le32 (Z.of_nat (length p)) ++ p).
  { destruct Hsend as [Hs|Hs].
    - apply sendAll_loop_spec in Hs.
      rewrite (frame_split w p b0 b1 b2 b3 Hw) in Hs by lia. exact Hs.
    - apply sendPayload_spec in Hs. rewrite u32_small in Hs by (unfold in_u; lia). exact Hs. }
  rewrite Hout, <- app_assoc in Hstream. apply app_inv_head in Hstream.
  rewrite Hp. apply recvFrame_at; [|exact H1|exact H2].
  rewrite Hstream, <- app_assoc. reflexivity.
Qed.

(** A frame announcing no payload or more than 65536 bytes is refused
    before any of its payload is read. *)
Theorem recvFrame_rejects (s : S) (n : Z) (tl : bytes)
    (Hn : in_u 32 n) (Hbad : n = 0 \/ 65536 < n) (Hs : incoming s = le32 n ++ tl) :
  recvFrame s = None.
Proof.
  unfold recvFrame. destruct (recvAll_spec s (le32 n) tl Hs) as (s1 & Hr & _).
  change (recvAll s 4 = Some (le32 n, s1)) in Hr. rewrite Hr. cbn.
  rewrite le32_roundtrip by exact Hn.
  replace ((n =? 0) || (n >? 65536)) with true by lia. reflexivity.
Qed.

End Socket.

(** ** A kernel that cuts the stream into small pieces *)

Module Chopper.

(** The bytes in flight towards this end, and the bytes it has sent. *)
Record conn : Type := mkConn { inq : bytes; outq : bytes }.

(** At most three bytes per call, whatever was asked. *)
Definition recv (c : conn) (r : nat) : option (bytes * conn) :=
  match take (min r 3) (inq c) with
  | [] => None
  | b => Some (b, mkConn (drop (min r 3) (inq c)) (outq c))
  end.

Definition send (c : conn) (b : bytes) : option (nat * conn) :=
  match b with
  | [] => None
  | _ => Some (min 3 (length b), mkConn (inq c) (outq c ++ take (min 3 (length b)) b))
  end.

Lemma recv_some (s : conn) (r : nat) (b : bytes) (s' : conn) :
  recv s r = Some (b, s') -> (1 <= length b <= r)%nat /\ inq s = b ++ inq s'.
Proof.
  unfold recv. destruct (take (min r 3) (inq s)) as [|x l] eqn:E; [discriminate|].
  intros [= <- <-]. cbn [inq]. rewrite <- E at 3. rewrite take_drop.
  apply (f_equal length) in E. rewrite length_take in E. cbn in *. split; [lia|reflexivity].
Qed.

Lemma recv_none (s : conn) (r : nat) : recv s r = None -> (0 < r)%nat -> inq s = [].
Proof.
  unfold recv. destruct (take (min r 3) (inq s)) eqn:E; [|discriminate].
  intros _ Hr. apply (f_equal length) in E. rewrite length_take in E. cbn in E.
  apply length_zero_iff_nil. lia.
Qed.

Lemma send_some (s : conn) (b : bytes) (n : nat) (s' : conn) :
  send s b = Some (n, s') -> (1 <= n <= length b)%nat /\ outq s' = outq s ++ take n b.
Proof.
  unfold send. destruct b as [|x b]; [discriminate|]. intros [= <- <-].
  split; [|reflexivity]. destruct b as [|y [|z b]]; cbn; lia.
Qed.

End Chopper.

Lemma recvFrame_sendFrame_witness :
  let w := message DIA_AIR 3 [FU64 DIA_IMSI 404100000000001] in
  let c := Chopper.mkConn [] [7] in
  exists r', recvFrame Chopper.recv (Chopper.mkConn (frame w ++ [1; 2]) []) =
             Some (udpPayload w, r') /\ Chopper.inq r' = [1; 2].
Proof.
  intros w c.
  apply (recvFrame_sendFrame Chopper.recv Chopper.send Chopper.inq Chopper.outq
           Chopper.recv_some Chopper.recv_none Chopper.send_some w (drop 4 (buf_ w)) [1; 2] 0 0 0 0
           c (Chopper.mkConn [] (7 :: frame w))).
  - reflexivity.
  - vm_compute. split; [lia|discriminate].
  - left. reflexivity.
  - reflexivity.
Defined.

Lemma recvFrame_rejects_witness :
  recvFrame Chopper.recv (Chopper.mkConn (le32 65537 ++ [9]) []) = None.
Proof.
  apply (recvFrame_rejects Chopper.recv Chopper.inq Chopper.recv_some Chopper.recv_none
           _ 65537 [9]).
  - unfold in_u; lia.
  - right; lia.
  - reflexivity.
Defined.
