(* ===== verification/Text.v ===== *)
(** * Decimal text

    What the nodes use of the C++ library to print and scan numbers:
    [std::to_string], [snprintf] with [%u.%u.%u.%u], [sscanf] with the same
    format and [std::stoi].  A character is its code. *)

From S2P Require Import Prelude.
#[local] Open Scope Z_scope.

(** ** Printing *)

Fixpoint dec_loop (fuel : nat) (n : Z) (acc : bytes) : bytes :=
  match fuel with
  | O => acc
  | S fuel' =>
      let acc := (48 + n mod 10) :: acc in
      if n / 10 =? 0 then acc else dec_loop fuel' (n / 10) acc
  end.

(** [std::to_string] of an unsigned value; a number has at most as many
    decimal digits as binary ones. *)
Definition to_string (n : Z) : bytes := dec_loop (S (Z.to_nat (Z.log2 n))) n [].

(** [snprintf(buf, 32, "%u.%u.%u.%u", a, b, c, d)] for values below 2^32
    that fit: the callers pass octets. *)
Definition ip_str (a b c d : Z) : bytes :=
  to_string a ++ [46] ++ to_string b ++ [46] ++ to_string c ++ [46] ++ to_string d.

(** ** Scanning *)

Definition is_digit (c : Z) : bool := (48 <=? c) && (c <=? 57).

Definition is_space (c : Z) : bool := (c =? 32) || ((9 <=? c) && (c <=? 13)).

Fixpoint skip_spaces (l : bytes) : bytes :=
  match l with
  | c :: l' => if is_space c then skip_spaces l' else l
  | [] => []
  end.

(** The value of the leading digits, how many there are, and what follows. *)
Fixpoint scan_digits (l : bytes) (v : Z) (n : nat) : Z * nat * bytes :=
  match l with
  | c :: l' => if is_digit c then scan_digits l' (v * 10 + (c - 48)) (S n) else (v, n, l)
  | [] => (v, n, [])
  end.

(** An optional sign: the sign and what follows. *)
Definition scan_sign (l : bytes) : bool * bytes :=
  match l with
  | c :: l' => if c =? 45 then (true, l') else if c =? 43 then (false, l') else (false, l)
  | [] => (false, [])
  end.

(** One [%u]: [strtoul] on the digits, stored in an [unsigned]. *)
Definition scan_u (l : bytes) : option (Z * bytes) :=
  let '(neg, l1) := scan_sign (skip_spaces l) in
  let '(v, n, l2) := scan_digits l1 0 0 in
  match n with
  | O => None
  | S _ =>
      let v := if 2 ^ 64 <=? v then 2 ^ 64 - 1 else if neg then - v else v in
      Some (u32 v, l2)
  end.

(** A literal character of a format. *)
Definition scan_char (c : Z) (l : bytes) : option bytes :=
  match l with x :: l' => if x =? c then Some l' else None | [] => None end.

(** [sscanf(s, "%u.%u.%u.%u", &a, &b, &c, &d)]: [None] when fewer than four
    conversions are made. *)
Definition scan_ip (s : bytes) : option (Z * Z * Z * Z) :=
  '(a, s) ← scan_u s; s ← scan_char 46 s;
  '(b, s) ← scan_u s; s ← scan_char 46 s;
  '(c, s) ← scan_u s; s ← scan_char 46 s;
  '(d, s) ← scan_u s; Some (a, b, c, d).

(** [std::stoi]: [None] when it throws [invalid_argument] or [out_of_range]. *)
Definition stoi (s : bytes) : option Z :=
  let '(neg, l1) := scan_sign (skip_spaces s) in
  let '(v, n, l2) := scan_digits l1 0 0 in
  match n with
  | O => None
  | S _ =>
      let v := if neg then - v else v in
      if (- 2 ^ 31 <=? v) && (v <? 2 ^ 31) then Some v else None
  end.

(** ** Lemmas *)

Definition all_digits (l : bytes) : Prop := Forall (fun c => is_digit c = true) l.

Lemma is_digit_of (d : Z) : 0 <= d < 10 -> is_digit (48 + d) = true.
Proof. intros H. unfold is_digit. lia. Qed.

Lemma scan_digits_app (ds l : bytes) (v : Z) (n : nat) :
  all_digits ds ->
  scan_digits (ds ++ l) v n =
  scan_digits l (fold_left (fun v c => v * 10 + (c - 48)) ds v) (length ds + n).
Proof.
  revert v n. induction ds as [|c ds IH]; intros v n H; cbn; [reflexivity|].
  inversion_clear H as [|? ? Hc Hds]. rewrite Hc, IH by exact Hds.
  f_equal. cbn. lia.
Qed.

Lemma dec_loop_app (fuel : nat) (n : Z) (acc : bytes) :
  dec_loop fuel n acc = dec_loop fuel n [] ++ acc.
Proof.
  revert n acc. induction fuel as [|fuel IH]; intros n acc; cbn; [reflexivity|].
  destruct (n / 10 =? 0); [reflexivity|].
  rewrite (IH _ (_ :: acc)), (IH _ [_]), <- app_assoc. reflexivity.
Qed.

(** The printed digits and the number they denote. *)
Lemma dec_loop_spec (fuel : nat) (n : Z) :
  0 <= n < 2 ^ Z.of_nat fuel -> (1 <= fuel)%nat ->
  let ds := dec_loop fuel n [] in
  all_digits ds /\ ds <> [] /\ fold_left (fun v c => v * 10 + (c - 48)) ds 0 = n.
Proof.
  revert n. induction fuel as [|fuel IH]; intros n Hn Hf; [lia|]. cbn [dec_loop].
  assert (Hm : 0 <= n mod 10 < 10) by (apply Z.mod_pos_bound; lia).
  destruct (Z.eqb_spec (n / 10) 0) as [E|E].
  - split; [constructor; [apply is_digit_of; exact Hm|constructor]|].
    split; [discriminate|]. cbn [fold_left]. div_eqs.
  - assert (Hn' : 0 <= n / 10 < 2 ^ Z.of_nat fuel).
    { rewrite Nat2Z.inj_succ, Z.pow_succ_r in Hn by lia. div_eqs. }
    assert (Hf' : (1 <= fuel)%nat).
    { destruct fuel; [|lia]. cbn in Hn'. div_eqs. }
    destruct (IH _ Hn' Hf') as (H1 & H2 & H3).
    rewrite dec_loop_app. split; [|split].
    + apply Forall_app. split; [exact H1|].
      constructor; [apply is_digit_of; exact Hm|constructor].
    + destruct (dec_loop fuel (n / 10) []); discriminate.
    + rewrite fold_left_app, H3. cbn [fold_left]. div_eqs.
Qed.

Lemma to_string_spec (n : Z) :
  0 <= n -> all_digits (to_string n) /\ to_string n <> []
            /\ fold_left (fun v c => v * 10 + (c - 48)) (to_string n) 0 = n.
Proof.
  intros Hn. apply dec_loop_spec; [|lia].
  split; [exact Hn|]. destruct (Z.eq_dec n 0) as [->|H0]; [reflexivity|].
  rewrite Nat2Z.inj_succ, Z2Nat.id by apply Z.log2_nonneg.
  apply Z.log2_spec. lia.
Qed.

Lemma digit_not_space (c : Z) : is_digit c = true -> is_space c = false.
Proof. unfold is_digit, is_space. lia. Qed.

(** Scanning what was printed, followed by anything but a digit. *)
Lemma scan_u_to_string (n : Z) (l : bytes) :
  in_u 32 n -> match l with c :: _ => is_digit c = false | [] => True end ->
  scan_u (to_string n ++ l) = Some (n, l).
Proof.
  intros Hn Hl. destruct (to_string_spec n) as (Hd & Hne & Hv); [apply Hn|].
  unfold scan_u. destruct (to_string n) as [|c ds] eqn:E; [contradiction|].
  rewrite <- E in *. assert (Hc : is_digit c = true) by (rewrite E in Hd; inversion Hd; auto).
  assert (Hs : scan_sign (skip_spaces (to_string n ++ l)) = (false, to_string n ++ l)).
  { rewrite E. cbn. rewrite digit_not_space by exact Hc. cbn.
    unfold is_digit in Hc. replace (c =? 45) with false by lia.
    replace (c =? 43) with false by lia. reflexivity. }
  rewrite Hs, scan_digits_app by exact Hd. rewrite Hv.
  assert (Hend : forall v k, scan_digits l v k = (v, k, l)).
  { intros v k. destruct l as [|x l]; [reflexivity|]. cbn. rewrite Hl. reflexivity. }
  rewrite Hend, E. cbn [length Nat.add].
  unfold in_u in Hn. replace (2 ^ 64 <=? n) with false by lia.
  rewrite u32_small by exact Hn. reflexivity.
Qed.

(** Reading a command's number. *)
Lemma stoi_to_string (n : Z) : 0 <= n < 2 ^ 31 -> stoi (to_string n) = Some n.
Proof.
  intros Hn. destruct (to_string_spec n) as (Hd & Hne & Hv); [apply Hn|].
  pose proof (scan_digits_app (to_string n) [] 0 0 Hd) as Hs. rewrite app_nil_r, Hv in Hs.
  unfold stoi. destruct (to_string n) as [|c ds] eqn:E; [contradiction|].
  assert (Hc : is_digit c = true) by (inversion Hd; auto).
  cbn [skip_spaces]. rewrite digit_not_space by exact Hc. cbn [scan_sign].
  unfold is_digit in Hc. replace (c =? 45) with false by lia. replace (c =? 43) with false by lia.
  rewrite Hs. cbn [scan_digits length Nat.add]. rewrite andb_true_intro by lia. reflexivity.
Qed.

#[local] Opaque scan_u to_string.

(** The address a node prints is the one another scans. *)
Lemma scan_ip_ip_str (a b c d : Z) :
  in_u 8 a -> in_u 8 b -> in_u 8 c -> in_u 8 d ->
  scan_ip (ip_str a b c d) = Some (a, b, c, d).
Proof.
  assert (W : forall x, in_u 8 x -> in_u 32 x) by (unfold in_u; lia).
  intros Ha%W Hb%W Hc%W Hd%W. unfold scan_ip, ip_str.
  rewrite scan_u_to_string by (exact Ha || reflexivity). cbn.
  rewrite scan_u_to_string by (exact Hb || reflexivity). cbn.
  rewrite scan_u_to_string by (exact Hc || reflexivity). cbn.
  rewrite <- (app_nil_r (to_string d)), scan_u_to_string by (exact Hd || exact I).
  reflexivity.
Qed.

#[local] Transparent scan_u to_string.

Lemma to_string_length (n : Z) (k : nat) :
  10 ^ Z.of_nat k <= n < 10 ^ Z.of_nat (S k) -> length (to_string n) = S k.
Proof.
  intros Hn. unfold to_string.
  assert (Hfuel : 0 <= n < 2 ^ Z.of_nat (S (Z.to_nat (Z.log2 n)))).
  { assert (0 < n) by (pose proof (Z.pow_pos_nonneg 10 (Z.of_nat k)); lia).
    rewrite Nat2Z.inj_succ, Z2Nat.id by apply Z.log2_nonneg.
    split; [lia|]. apply Z.log2_spec. lia. }
  revert Hfuel. generalize (S (Z.to_nat (Z.log2 n))) as fuel. intros fuel.
  revert n k Hn. induction fuel as [|fuel IH]; intros n k Hn Hf.
  - cbn in Hf. pose proof (Z.pow_pos_nonneg 10 (Z.of_nat k)). lia.
  - cbn [dec_loop]. destruct k as [|k].
    + cbn in Hn. replace (n / 10 =? 0) with true; [reflexivity|].
      symmetry. apply Z.eqb_eq. apply Z.div_small. lia.
    + rewrite !Nat2Z.inj_succ, !Z.pow_succ_r in Hn by lia.
      pose proof (Z.pow_pos_nonneg 10 (Z.of_nat k)).
      replace (n / 10 =? 0) with false
        by (symmetry; apply Z.eqb_neq; div_eqs).
      rewrite dec_loop_app, length_app, (IH (n / 10) k); [cbn; lia| |].
      * rewrite Nat2Z.inj_succ, Z.pow_succ_r by lia. div_eqs.
      * rewrite Nat2Z.inj_succ, Z.pow_succ_r in Hf by lia. div_eqs.
Qed.
