(* ===== verification/Sockets.v ===== *)
(** * Socket objects and the descriptors they own

    [Socket] and [UdpSocket] of [4g-simulator/src/common/socket_wrapper.h] (the
    IMS has the same file) and of [5g-simulator/src/common/socket_wrapper.h] (of
    which [cbrs-domain-proxy] has [Socket]): how descriptors are opened, moved
    between objects and closed.  What the system calls return is an argument of
    each operation.  Sending and receiving on a connection is in [Framing]. *)

From stdpp Require Import fin_maps fin_sets.
From S2P Require Import Prelude Text.
#[local] Open Scope Z_scope.

(** ** The system *)

(** Open descriptors, results of [getaddrinfo] not yet freed, and whether
    something was closed or freed that was not there. *)
Record Sys : Type := mkSys { fds : gset Z; infos : gset nat; misuse : bool }.

Definition opened (fd : Z) (y : Sys) : Sys := mkSys ({[fd]} ∪ fds y) (infos y) (misuse y).
Definition sys_close (fd : Z) (y : Sys) : Sys :=
  mkSys (fds y ∖ {[fd]}) (infos y) (misuse y || negb (bool_decide (fd ∈ fds y))).
Definition resolved (r : nat) (y : Sys) : Sys := mkSys (fds y) ({[r]} ∪ infos y) (misuse y).
Definition freeaddrinfo (r : nat) (y : Sys) : Sys :=
  mkSys (fds y) (infos y ∖ {[r]}) (misuse y || negb (bool_decide (r ∈ infos y))).

(** What the calls of one operation return.  [getaddrinfo]: [None] when it fails,
    [Some None] when it leaves a null pointer. *)
Record Answers : Type := mkAnswers {
  a_socket : Z; a_bind : bool; a_listen : bool; a_connect : bool; a_accept : Z;
  a_info : option (option nat) }.

(** A new descriptor is not negative when the call succeeds, and is not one that
    is open; a new address list is not one that is in use. *)
Definition lawful (a : Answers) (y : Sys) : Prop :=
  (0 <= a_socket a -> a_socket a ∉ fds y) /\ (0 <= a_accept a -> a_accept a ∉ fds y)
  /\ match a_info a with Some (Some r) => r ∉ infos y | _ => True end.

(** The descriptor of the new object, or the text of the exception. *)
Definition Made : Type := (Z + bytes)%type.

Definition opened_if (fd : Z) (y : Sys) : Sys := if fd <? 0 then y else opened fd y.

Definition createServer (port : Z) (a : Answers) (y : Sys) : Sys * Made :=
  let fd := a_socket a in
  let y := opened_if fd y in
  if fd <? 0 then (y, inr (str "socket() failed"))
  else if negb (a_bind a) then (sys_close fd y, inr (str "bind() failed port " ++ to_string port))
  else if negb (a_listen a) then (sys_close fd y, inr (str "listen() failed"))
  else (y, inl fd).

Definition accept (a : Answers) (y : Sys) : Sys * Made :=
  let cfd := a_accept a in
  if cfd <? 0 then (y, inr (str "accept() failed")) else (opened cfd y, inl cfd).

(** The 4G and IMS [connectTo], over [inet_pton]. *)
Definition connectTo (ip : bytes) (port : Z) (a : Answers) (y : Sys) : Sys * Made :=
  let fd := a_socket a in
  let y := opened_if fd y in
  if fd <? 0 then (y, inr (str "socket() failed"))
  else if negb (a_connect a)
       then (sys_close fd y, inr (str "connect() failed to " ++ ip ++ str ":" ++ to_string port))
  else (y, inl fd).

(** The 5G and CBRS [connectTo], over [getaddrinfo]. *)
Definition connectTo5 (host : bytes) (port : Z) (a : Answers) (y : Sys) : Sys * Made :=
  match a_info a with
  | Some (Some r) =>
      let y := resolved r y in
      let fd := a_socket a in
      let y := opened_if fd y in
      if fd <? 0 then (freeaddrinfo r y, inr (str "socket() failed"))
      else if negb (a_connect a)
           then (sys_close fd (freeaddrinfo r y),
                 inr (str "connect() failed to " ++ host ++ str ":" ++ to_string port))
      else (freeaddrinfo r y, inl fd)
  | _ => (y, inr (str "getaddrinfo() failed for " ++ host))
  end.

(** [UdpSocket::bind] of the 4G core. *)
Definition udpBind (port : Z) (a : Answers) (y : Sys) : Sys * Made :=
  let fd := a_socket a in
  let y := opened_if fd y in
  if fd <? 0 then (y, inr (str "UDP socket() failed"))
  else if negb (a_bind a) then (sys_close fd y, inr (str "UDP bind() failed port " ++ to_string port))
  else (y, inl fd).

(** [UdpSocket::bind] of the 5G core, a member of an object that exists: its new
    [fd_], and the exception. *)
Definition udpBind5 (port : Z) (a : Answers) (y : Sys) : Sys * Z * option bytes :=
  let fd := a_socket a in
  let y := opened_if fd y in
  if fd <? 0 then (y, fd, Some (str "UDP socket() failed"))
  else if negb (a_bind a) then (y, fd, Some (str "UDP bind() failed port " ++ to_string port))
  else (y, fd, None).

(** ** Objects *)

(** The [fd_] of the objects that are alive. *)
Record State : Type := mkState { sys : Sys; objs : gmap nat Z }.

Definition close_fd (fd : Z) (y : Sys) : Sys := if 0 <=? fd then sys_close fd y else y.

Inductive Op : Type :=
| New (id : nat)                                     (** [Socket()] *)
| CreateServer (id : nat) (port : Z)
| Accept (id : nat)
| ConnectTo (id : nat) (ip : bytes) (port : Z)
| ConnectTo5 (id : nat) (host : bytes) (port : Z)
| UdpBind (id : nat) (port : Z)
| UdpBind5 (id : nat) (port : Z)
| MoveNew (id old : nat)                             (** [Socket(Socket&& o)] *)
| MoveAssign (id old : nat)                          (** [operator=(Socket&& o)] *)
| Close (id : nat)
| Destroy (id : nat).

(** A new object takes what a factory made; an exception leaves none. *)
Definition made (id : nat) (st : State) (m : Sys * Made) : State :=
  mkState m.1 (match m.2 with inl fd => <[id := fd]> (objs st) | inr _ => objs st end).

Definition close (id : nat) (fd : Z) (st : State) : State :=
  mkState (close_fd fd (sys st)) (if 0 <=? fd then <[id := -1]> (objs st) else objs st).

(** [None] when the program has no such object, or has it already. *)
Definition exec (a : Answers) (st : State) (o : Op) : option State :=
  let fresh id (st' : State) := match objs st !! id with None => Some st' | Some _ => None end in
  match o with
  | New id => fresh id (mkState (sys st) (<[id := -1]> (objs st)))
  | CreateServer id port => fresh id (made id st (createServer port a (sys st)))
  | Accept id => fresh id (made id st (accept a (sys st)))
  | ConnectTo id ip port => fresh id (made id st (connectTo ip port a (sys st)))
  | ConnectTo5 id host port => fresh id (made id st (connectTo5 host port a (sys st)))
  | UdpBind id port => fresh id (made id st (udpBind port a (sys st)))
  | UdpBind5 id port =>
      match objs st !! id with
      | Some _ => let '(y, fd, _) := udpBind5 port a (sys st) in Some (mkState y (<[id := fd]> (objs st)))
      | None => None
      end
  | MoveNew id old =>
      match objs st !! old with
      | Some fd => fresh id (mkState (sys st) (<[old := -1]> (<[id := fd]> (objs st))))
      | None => None
      end
  | MoveAssign id old =>
      match objs st !! id, objs st !! old with
      | Some mine, Some fd =>
          if bool_decide (id = old) then Some st
          else let st := close id mine st in Some (mkState (sys st) (<[old := -1]> (<[id := fd]> (objs st))))
      | _, _ => None
      end
  | Close id => match objs st !! id with Some fd => Some (close id fd st) | None => None end
  | Destroy id =>
      match objs st !! id with
      | Some fd => let st := close id fd st in Some (mkState (sys st) (delete id (objs st)))
      | None => None
      end
  end.

(** The descriptor an operation overwrites: the 5G [UdpSocket::bind] stores
    its new one over the one the object holds. *)
Definition overwritten (st : State) (o : Op) : gset Z :=
  match o with
  | UdpBind5 id _ =>
      match objs st !! id with Some fd => if 0 <=? fd then {[fd]} else ∅ | None => ∅ end
  | _ => ∅
  end.

(** A run from no objects and nothing open, with the descriptors overwritten
    on the way. *)
Inductive reaches : gset Z -> State -> Prop :=
| reaches_start : reaches ∅ (mkState (mkSys ∅ ∅ false) ∅)
| reaches_step lost st a o st' :
    reaches lost st -> lawful a (sys st) -> exec a st o = Some st' ->
    reaches (overwritten st o ∪ lost) st'.

(** ** Datagrams and waiting *)

(** [vector::resize]. *)
Definition resize (n : nat) (l : bytes) : bytes := take n l ++ repeat 0 (n - length l).

(** [recvFrom]: the result of [recvfrom] is a count and what it wrote. *)
Definition recvFrom (payload : bytes) (n : Z) (data : bytes) : bool * bytes :=
  let payload := resize (Z.to_nat 8192) payload in
  if n <=? 0 then (false, payload)
  else (true, resize (Z.to_nat n) (data ++ drop (length data) payload)).

(** [hasData]: a descriptor that does not fit the set is undefined behaviour. *)
Definition FD_SETSIZE : Z := 1024.
Definition hasData (fd select_result : Z) : res bool :=
  if fd <? 0 then Ok false
  else if FD_SETSIZE <=? fd then Undefined
  else Ok (0 <? select_result).

Definition recvWithTimeout (fd select_result : Z) (payload : bytes) (n : Z) (data : bytes) : res (bool * bytes) :=
  hasData fd select_result ≫= fun ready : bool =>
  if ready then Ok (recvFrom payload n data) else Ok (false, payload).

(** [sendTo]: the whole datagram was taken. *)
Definition sendTo (payload : bytes) (n : Z) : bool := n =? Z.of_nat (length payload).

(** ** Ownership *)

(** Every open descriptor belongs to one object or was overwritten, an object
    holds an open descriptor or none, and nothing was closed or freed twice. *)
Record owned (lost : gset Z) (st : State) : Prop := {
  own_fds fd : fd ∈ fds (sys st) <-> fd ∈ lost \/ (0 <= fd /\ exists id, objs st !! id = Some fd);
  own_lost fd : fd ∈ lost -> 0 <= fd /\ forall id, objs st !! id <> Some fd;
  own_one i j fd : objs st !! i = Some fd -> objs st !! j = Some fd -> 0 <= fd -> i = j;
  own_infos : infos (sys st) = ∅;
  own_misuse : misuse (sys st) = false }.

(** Descriptors of objects after an object got a value. *)
Lemma lookup_set (m : gmap nat Z) (id i : nat) (v fd : Z) :
  <[id := v]> m !! i = Some fd -> (i = id /\ fd = v) \/ (i <> id /\ m !! i = Some fd).
Proof. intros H. apply lookup_insert_Some in H as [[-> ->]|[? ?]]; auto. Qed.

Lemma owned_start : owned ∅ (mkState (mkSys ∅ ∅ false) ∅).
Proof.
  split; try reflexivity; cbn.
  - intros fd. split; [set_solver|]. intros [H|(_ & id & H)]; [set_solver|]. rewrite lookup_empty in H. discriminate.
  - set_solver.
  - intros i j fd H. rewrite lookup_empty in H. discriminate.
Qed.

Section Owners.
Context (lost : gset Z).

(** An object that holds nothing may be set to nothing. *)
Lemma owned_none (st : State) (id : nat) (v : Z) :
  owned lost st -> v < 0 -> (forall fd, objs st !! id = Some fd -> fd < 0) ->
  owned lost (mkState (sys st) (<[id := v]> (objs st))).
Proof.
  intros [F L O I M] Hv Hid. split; cbn; try assumption.
  - intros fd. rewrite F. split; (intros [HL|(Hfd & i & Hi)]; [left; exact HL|right; split; [exact Hfd|]]).
    + exists i. rewrite lookup_insert_ne; [exact Hi|]. intros <-. specialize (Hid _ Hi). lia.
    + apply lookup_set in Hi as [[-> ->]|[_ Hi]]; [lia|eauto].
  - intros fd HL. destruct (L fd HL) as [Hfd Hn]. split; [exact Hfd|]. intros i Hi.
    apply lookup_set in Hi as [[_ ->]|[_ Hi]]; [lia|exact (Hn i Hi)].
  - intros i j fd Hi Hj Hfd.
    apply lookup_set in Hi as [[-> ->]|[_ Hi]]; [lia|]. apply lookup_set in Hj as [[-> ->]|[_ Hj]]; [lia|]. eauto.
Qed.

(** An object that takes a descriptor just opened. *)
Lemma owned_opened (st : State) (id : nat) (fd : Z) :
  owned lost st -> 0 <= fd -> fd ∉ fds (sys st) -> (forall v, objs st !! id = Some v -> v < 0) ->
  owned lost (mkState (opened fd (sys st)) (<[id := fd]> (objs st))).
Proof.
  intros [F L O I M] Hfd Hn Hid.
  assert (Hno : forall k, objs st !! k = Some fd -> False) by (intros k Hk; apply Hn, F; eauto).
  split; cbn; try assumption.
  - intros x. rewrite elem_of_union, elem_of_singleton, F. split.
    + intros [->|[HL|(Hx & i & Hi)]]; [right; split; [assumption|exists id; apply lookup_insert_eq]|left; exact HL|].
      right. split; [exact Hx|].
      exists i. rewrite lookup_insert_ne; [exact Hi|]. intros <-. specialize (Hid _ Hi). lia.
    + intros [HL|(Hx & i & Hi)]; [auto|]. apply lookup_set in Hi as [[_ ->]|[_ Hi]]; eauto 6.
  - intros x HL. destruct (L x HL) as [Hx Hn']. split; [exact Hx|]. intros i Hi.
    apply lookup_set in Hi as [[_ ->]|[_ Hi]]; [apply Hn, F; auto|exact (Hn' i Hi)].
  - intros i j x Hi Hj Hx.
    apply lookup_set in Hi as [[-> ->]|[_ Hi]], Hj as [[-> Ej]|[_ Hj]]; subst; eauto; exfalso; eauto.
Qed.

(** What [close] of an object leaves: the object holds nothing and what it held is
    closed. *)
Lemma owned_close (st : State) (id : nat) (fd : Z) :
  owned lost st -> objs st !! id = Some fd ->
  owned lost (close id fd st) /\ exists v, objs (close id fd st) !! id = Some v /\ v < 0.
Proof.
  intros Hst Hid. unfold close, close_fd. destruct (Z.leb_spec 0 fd) as [Hfd|Hfd].
  2: { split; [destruct st; exact Hst|]. exists fd. split; [exact Hid|lia]. }
  destruct Hst as [F L O I M]. split; [|exists (-1); split; [apply lookup_insert_eq|lia]].
  assert (Hin : fd ∈ fds (sys st)) by (apply F; eauto). split; cbn.
  - intros x. rewrite elem_of_difference, elem_of_singleton, F. split.
    + intros ([HL|(Hx & i & Hi)] & Hne); [left; exact HL|right]. split; [exact Hx|].
      exists i. rewrite lookup_insert_ne; [exact Hi|]. congruence.
    + intros [HL|(Hx & i & Hi)]; [split; [auto|]; intros ->; exact (proj2 (L fd HL) id Hid)|].
      apply lookup_set in Hi as [[-> ->]|[Hne Hi]]; [lia|].
      split; [eauto|]. intros ->. apply Hne. exact (O i id fd Hi Hid Hfd).
  - intros x HL. destruct (L x HL) as [Hx Hn]. split; [exact Hx|]. intros i Hi.
    apply lookup_set in Hi as [[_ ->]|[_ Hi]]; [lia|exact (Hn i Hi)].
  - intros i j x Hi Hj Hx.
    apply lookup_set in Hi as [[-> ->]|[_ Hi]]; [lia|]. apply lookup_set in Hj as [[-> ->]|[_ Hj]]; [lia|]. eauto.
  - exact I.
  - rewrite M, bool_decide_true by exact Hin. reflexivity.
Qed.

(** A descriptor handed from one object to another. *)
Lemma owned_moved (st : State) (id old : nat) (fd : Z) :
  owned lost st -> objs st !! old = Some fd -> id <> old -> (forall v, objs st !! id = Some v -> v < 0) ->
  owned lost (mkState (sys st) (<[old := -1]> (<[id := fd]> (objs st)))).
Proof.
  intros [F L O I M] Hold Hne Hid. split; cbn; try assumption.
  - intros x. rewrite F. split; (intros [HL|(Hx & i & Hi)]; [left; exact HL|right; split; [exact Hx|]]).
    + destruct (decide (i = old)) as [->|Ho].
      * exists id. rewrite lookup_insert_ne, lookup_insert_eq by congruence. congruence.
      * exists i. rewrite !lookup_insert_ne; [exact Hi| |congruence]. intros <-. specialize (Hid _ Hi). lia.
    + apply lookup_set in Hi as [[-> ->]|[_ Hi]]; [lia|]. apply lookup_set in Hi as [[-> ->]|[_ Hi]]; eauto.
  - intros x HL. destruct (L x HL) as [Hx Hn]. split; [exact Hx|]. intros i Hi.
    apply lookup_set in Hi as [[_ ->]|[_ Hi]]; [lia|].
    apply lookup_set in Hi as [[_ ->]|[_ Hi]]; [exact (Hn old Hold)|exact (Hn i Hi)].
  - intros i j x Hi Hj Hx.
    apply lookup_set in Hi as [[-> ->]|[Hi0 Hi]]; [lia|]. apply lookup_set in Hj as [[-> ->]|[Hj0 Hj]]; [lia|].
    apply lookup_set in Hi as [[-> ->]|[_ Hi]], Hj as [[-> Ej]|[_ Hj]]; subst; eauto.
    + destruct Hj0. exact (O j old fd Hj Hold Hx).
    + destruct Hi0. exact (O i old fd Hi Hold Hx).
Qed.

Lemma owned_delete (st : State) (id : nat) (v : Z) :
  owned lost st -> objs st !! id = Some v -> v < 0 -> owned lost (mkState (sys st) (delete id (objs st))).
Proof.
  intros [F L O I M] Hid Hv. split; cbn; try assumption.
  - intros x. rewrite F. split; (intros [HL|(Hx & i & Hi)]; [left; exact HL|right; split; [exact Hx|]]).
    + exists i. rewrite lookup_delete_ne; [exact Hi|]. intros <-. rewrite Hid in Hi. injection Hi as ->. lia.
    + apply lookup_delete_Some in Hi as [_ Hi]. eauto.
  - intros x HL. destruct (L x HL) as [Hx Hn]. split; [exact Hx|]. intros i Hi.
    apply lookup_delete_Some in Hi as [_ Hi]. exact (Hn i Hi).
  - intros i j x Hi Hj. apply lookup_delete_Some in Hi as [_ Hi]. apply lookup_delete_Some in Hj as [_ Hj]. eauto.
Qed.

(** The descriptor an object held is overwritten. *)
Lemma owned_overwritten (st : State) (id : nat) (fd : Z) :
  owned lost st -> objs st !! id = Some fd -> 0 <= fd ->
  owned ({[fd]} ∪ lost) (mkState (sys st) (<[id := -1]> (objs st))).
Proof.
  intros [F L O I M] Hid Hfd. split; cbn; try assumption.
  - intros x. rewrite F, elem_of_union, elem_of_singleton. split.
    + intros [HL|(Hx & i & Hi)]; [auto|]. destruct (decide (x = fd)) as [->|Hne]; [auto|].
      right. split; [exact Hx|]. exists i. rewrite lookup_insert_ne; congruence.
    + intros [[->|HL]|(Hx & i & Hi)]; [eauto|auto|]. apply lookup_set in Hi as [[_ ->]|[_ Hi]]; [lia|eauto].
  - intros x [->%elem_of_singleton|HL]%elem_of_union.
    + split; [exact Hfd|]. intros i Hi. apply lookup_set in Hi as [[_ E]|[Hne Hi]]; [lia|].
      apply Hne. exact (O i id fd Hi Hid Hfd).
    + destruct (L x HL) as [Hx Hn]. split; [exact Hx|]. intros i Hi.
      apply lookup_set in Hi as [[_ ->]|[_ Hi]]; [lia|exact (Hn i Hi)].
  - intros i j x Hi Hj Hx.
    apply lookup_set in Hi as [[-> ->]|[_ Hi]]; [lia|]. apply lookup_set in Hj as [[-> ->]|[_ Hj]]; [lia|]. eauto.
Qed.

End Owners.

(** ** The factories *)

(** A factory opens the descriptor it returns and nothing else; when it throws,
    everything is as before. *)
Definition fair (y : Sys) (m : Sys * Made) : Prop :=
  match m.2 with inl fd => 0 <= fd /\ (fd ∉ fds y) /\ m.1 = opened fd y | inr _ => m.1 = y end.

Lemma close_opened (fd : Z) (y : Sys) : fd ∉ fds y -> sys_close fd (opened fd y) = y.
Proof.
  intros H. destruct y as [f i m]. unfold sys_close, opened. cbn in *. f_equal; [set_solver|].
  rewrite bool_decide_true by set_solver. apply orb_false_r.
Qed.

Lemma free_resolved (r : nat) (fd : Z) (y : Sys) :
  r ∉ infos y -> freeaddrinfo r (opened fd (resolved r y)) = opened fd y.
Proof.
  intros H. destruct y as [f i m]. unfold freeaddrinfo, opened, resolved. cbn in *. f_equal; [set_solver|].
  rewrite bool_decide_true by set_solver. apply orb_false_r.
Qed.

Lemma free_resolved_only (r : nat) (y : Sys) : r ∉ infos y -> freeaddrinfo r (resolved r y) = y.
Proof.
  intros H. destruct y as [f i m]. unfold freeaddrinfo, resolved. cbn in *. f_equal; [set_solver|].
  rewrite bool_decide_true by set_solver. apply orb_false_r.
Qed.

Section Factories.
Context (a : Answers) (y : Sys) (La : lawful a y).

(** A factory opens its socket first, and closes it when a later call fails. *)
Ltac factory :=
  unfold opened_if; destruct La as (Ls & _); destruct (Z.ltb_spec (a_socket a) 0); [reflexivity|];
  repeat (match goal with |- context [negb ?b] => destruct b end; cbn [negb]);
  first [apply close_opened; auto|split; [assumption|]; split; [auto|reflexivity]].

Lemma createServer_fair (port : Z) : fair y (createServer port a y).
Proof. unfold createServer. factory. Qed.

Lemma connectTo_fair (ip : bytes) (port : Z) : fair y (connectTo ip port a y).
Proof. unfold connectTo. factory. Qed.

Lemma udpBind_fair (port : Z) : fair y (udpBind port a y).
Proof. unfold udpBind. factory. Qed.

Lemma accept_fair : fair y (accept a y).
Proof.
  destruct La as (_ & Lc & _). unfold accept. destruct (Z.ltb_spec (a_accept a) 0); [reflexivity|].
  split; [assumption|]. split; [auto|reflexivity].
Qed.

Lemma connectTo5_fair (host : bytes) (port : Z) : fair y (connectTo5 host port a y).
Proof.
  destruct La as (Ls & _ & Li). unfold connectTo5.
  destruct (a_info a) as [[r|]|]; [|reflexivity|reflexivity]. unfold opened_if.
  destruct (Z.ltb_spec (a_socket a) 0); [apply free_resolved_only; exact Li|].
  rewrite free_resolved by exact Li. destruct (a_connect a); cbn [negb].
  - split; [assumption|]. split; [auto|reflexivity].
  - apply close_opened. auto.
Qed.

End Factories.

Section Steps.
Context (lost : gset Z).

Lemma owned_made (st : State) (id : nat) (m : Sys * Made) :
  owned lost st -> objs st !! id = None -> fair (sys st) m -> owned lost (made id st m).
Proof.
  intros Hst Hid Hm. unfold fair in Hm. unfold made. destruct m as [y [fd|msg]]; cbn in *.
  - destruct Hm as (Hfd & Hn & ->). apply owned_opened; try assumption. rewrite Hid. discriminate.
  - subst y. destruct st; exact Hst.
Qed.

(** An object that holds nothing after [close]. *)
Lemma owned_after_close (st : State) (id : nat) (fd : Z) :
  owned lost st -> objs st !! id = Some fd ->
  owned lost (close id fd st) /\ forall v, objs (close id fd st) !! id = Some v -> v < 0.
Proof.
  intros Hst Hid. destruct (owned_close lost st id fd Hst Hid) as (Ho & v & Hv & Hlt).
  split; [exact Ho|]. intros w Hw. rewrite Hv in Hw. injection Hw as <-. exact Hlt.
Qed.

Lemma close_other (st : State) (id i : nat) (fd : Z) : i <> id -> objs (close id fd st) !! i = objs st !! i.
Proof. intros Hi. unfold close. cbn. destruct (0 <=? fd); [apply lookup_insert_ne; congruence|reflexivity]. Qed.

(** [bind] on an object that holds nothing, and on any. *)
Lemma owned_bound (a : Answers) (st : State) (id : nat) (port : Z) :
  owned lost st -> lawful a (sys st) -> (forall v, objs st !! id = Some v -> v < 0) ->
  owned lost (let '(y, fd, _) := udpBind5 port a (sys st) in mkState y (<[id := fd]> (objs st))).
Proof.
  intros Hst (Ls & _) Hold. unfold udpBind5, opened_if. destruct (Z.ltb_spec (a_socket a) 0).
  - apply owned_none; assumption.
  - destruct (a_bind a); cbn; apply owned_opened; auto.
Qed.

End Steps.

Lemma owned_rebound (lost : gset Z) (a : Answers) (st st' : State) (id : nat) (port : Z) :
  owned lost st -> lawful a (sys st) -> exec a st (UdpBind5 id port) = Some st' ->
  owned (overwritten st (UdpBind5 id port) ∪ lost) st'.
Proof.
  intros Hst La E. cbn in *. destruct (objs st !! id) as [fd|] eqn:Hid; [|discriminate].
  destruct (Z.leb_spec 0 fd) as [Hfd|Hfd].
  - pose proof (owned_bound _ a _ id port (owned_overwritten lost st id fd Hst Hid Hfd) La) as Hb.
    cbn [sys objs] in Hb. destruct (udpBind5 port a (sys st)) as [[y v] e]. injection E as <-.
    rewrite insert_insert_eq in Hb. apply Hb. intros w. rewrite lookup_insert_eq. intros [= <-]. lia.
  - pose proof (owned_bound lost a st id port Hst La) as Hb.
    destruct (udpBind5 port a (sys st)) as [[y v] e]. injection E as <-. rewrite union_empty_l_L.
    apply Hb. rewrite Hid. intros w [= <-]. exact Hfd.
Qed.

Lemma exec_owned (lost : gset Z) (a : Answers) (st st' : State) (o : Op) :
  owned lost st -> lawful a (sys st) -> exec a st o = Some st' -> owned (overwritten st o ∪ lost) st'.
Proof.
  intros Hst La E.
  destruct o as [id|id port|id|id ip port|id host port|id port|id port|id old|id old|id|id].
  7: exact (owned_rebound lost a st st' id port Hst La E).
  all: cbn [exec overwritten] in *; rewrite union_empty_l_L.
  1-6: destruct (objs st !! id) eqn:Hid; [discriminate|]; injection E as <-.
  - apply owned_none; [exact Hst|lia|]. rewrite Hid. discriminate.
  - apply owned_made; [exact Hst|exact Hid|apply createServer_fair; exact La].
  - apply owned_made; [exact Hst|exact Hid|apply accept_fair; exact La].
  - apply owned_made; [exact Hst|exact Hid|apply connectTo_fair; exact La].
  - apply owned_made; [exact Hst|exact Hid|apply connectTo5_fair; exact La].
  - apply owned_made; [exact Hst|exact Hid|apply udpBind_fair; exact La].
  - destruct (objs st !! old) as [fd|] eqn:Ho; [|discriminate]. destruct (objs st !! id) eqn:Hid; [discriminate|].
    injection E as <-. apply owned_moved; [exact Hst|exact Ho|congruence|rewrite Hid; discriminate].
  - destruct (objs st !! id) as [mine|] eqn:Hid; [|discriminate].
    destruct (objs st !! old) as [fd|] eqn:Ho; [|discriminate].
    case_bool_decide as Hne; injection E as <-; [exact Hst|].
    destruct (owned_after_close lost st id mine Hst Hid) as [Hc Hv].
    apply (owned_moved lost (close id mine st)); [exact Hc|rewrite close_other by congruence; exact Ho|exact Hne|exact Hv].
  - destruct (objs st !! id) as [fd|] eqn:Hid; [|discriminate]. injection E as <-.
    apply (owned_close lost st id fd Hst Hid).
  - destruct (objs st !! id) as [fd|] eqn:Hid; [|discriminate]. injection E as <-.
    destruct (owned_close lost st id fd Hst Hid) as (Hc & v & Hv & Hlt).
    exact (owned_delete lost (close id fd st) id v Hc Hv Hlt).
Qed.

Lemma reaches_owned (lost : gset Z) (st : State) : reaches lost st -> owned lost st.
Proof. induction 1 as [|lost st a o st' _ IH La E]; [exact owned_start|exact (exec_owned lost a st st' o IH La E)]. Qed.

(** ** Properties *)

(** C11. Every descriptor has one owner, or was overwritten.  However sockets
    are made, moved, assigned, bound, closed and destroyed, and whatever the
    system calls answer, the open descriptors are those some object holds and
    those that a second [bind] of a 5G [UdpSocket] has overwritten, which no
    object holds and nothing closes; no two objects hold the same one, no
    descriptor is closed twice, no address list is kept or freed twice; and
    once no object is left only the overwritten ones are open. *)
Theorem sockets_own (lost : gset Z) (st : State) :
  reaches lost st ->
  (forall fd, fd ∈ fds (sys st) <-> fd ∈ lost \/ (0 <= fd /\ exists id, objs st !! id = Some fd))
  /\ (forall fd id, fd ∈ lost -> objs st !! id <> Some fd)
  /\ (forall i j fd, objs st !! i = Some fd -> objs st !! j = Some fd -> 0 <= fd -> i = j)
  /\ misuse (sys st) = false /\ infos (sys st) = ∅
  /\ (objs st = ∅ -> fds (sys st) = lost).
Proof.
  intros H. destruct (reaches_owned lost st H) as [F L O I M].
  split; [exact F|]. split; [intros fd id HL; apply L; exact HL|].
  split; [exact O|]. split; [exact M|]. split; [exact I|]. intros E.
  apply set_eq. intros fd. rewrite F, E.
  split; [intros [HL|(_ & id & Hid)]; [exact HL|rewrite lookup_empty in Hid; discriminate]|auto].
Qed.

Definition no_answers : Answers := mkAnswers (-1) false false false (-1) None.

Lemma no_answers_lawful (y : Sys) : lawful no_answers y.
Proof. split; [cbn; lia|]. split; [cbn; lia|exact I]. Qed.

(** A server socket made, assigned to a member, and both objects destroyed; and
    a 5G [UdpSocket] bound twice and destroyed: one descriptor stays open. *)
Lemma sockets_own_witness :
  (exists st, reaches ∅ st /\ objs st = ∅ /\ fds (sys st) = ∅)
  /\ (exists st, reaches {[5]} st /\ objs st = ∅ /\ fds (sys st) = {[5]}).
Proof.
  assert (L : forall fd y, fd ∉ fds y -> lawful (mkAnswers fd true true true (-1) None) y)
    by (intros fd y Hfd; split; [intros _; exact Hfd|]; split; [cbn; lia|exact I]).
  pose proof (reaches_step _ _ no_answers (New 0) _ reaches_start (no_answers_lawful _) eq_refl) as H1.
  split.
  - pose proof (reaches_step _ _ _ (CreateServer 1 5060) _ H1 (L 3 _ (not_elem_of_empty _)) eq_refl) as H2.
    pose proof (reaches_step _ _ no_answers (MoveAssign 0 1) _ H2 (no_answers_lawful _) eq_refl) as H3.
    pose proof (reaches_step _ _ no_answers (Destroy 1) _ H3 (no_answers_lawful _) eq_refl) as H4.
    pose proof (reaches_step _ _ no_answers (Destroy 0) _ H4 (no_answers_lawful _) eq_refl) as H5.
    eexists. split; [exact H5|]. split; [reflexivity|]. apply (sockets_own _ _ H5). reflexivity.
  - pose proof (reaches_step _ _ _ (UdpBind5 0 8805) _ H1 (L 5 _ (not_elem_of_empty _)) eq_refl) as H2.
    assert (L4 : lawful (mkAnswers 4 true true true (-1) None) (mkSys ({[5]} ∪ ∅) ∅ false))
      by (apply L; set_solver).
    pose proof (reaches_step _ _ _ (UdpBind5 0 8805) _ H2 L4 eq_refl) as H3.
    pose proof (reaches_step _ _ no_answers (Destroy 0) _ H3 (no_answers_lawful _) eq_refl) as H4.
    eexists. split; [exact H4|]. split; [reflexivity|]. apply (sockets_own _ _ H4). reflexivity.
Defined.

(** The 5G [UdpSocket] loses a descriptor when it is bound again: the one it
    held stays open, with no object that holds it. *)
Theorem rebind_leaks (a b : Answers) (port : Z) (st1 st2 st3 : State) :
  let start := mkState (mkSys ∅ ∅ false) ∅ in
  0 <= a_socket a -> 0 <= a_socket b -> a_socket a <> a_socket b ->
  exec a start (New 0) = Some st1 -> exec a st1 (UdpBind5 0 port) = Some st2 -> exec b st2 (UdpBind5 0 port) = Some st3 ->
  a_socket a ∈ fds (sys st3) /\ forall id, objs st3 !! id <> Some (a_socket a).
Proof.
  intros start Ha Hb Hne E1 E2 E3.
  assert (E : exec a start (New 0) = Some (mkState (mkSys ∅ ∅ false) (<[0%nat := -1]> ∅))) by reflexivity.
  rewrite E in E1. injection E1 as <-. clear E. unfold exec in E2, E3. cbn [objs sys] in E2.
  unfold udpBind5, opened_if in *.
  replace (a_socket a <? 0) with false in * by lia. replace (a_socket b <? 0) with false in * by lia.
  rewrite lookup_insert_eq in E2.
  assert (E2' : st2 = mkState (opened (a_socket a) (mkSys ∅ ∅ false)) (<[0%nat := a_socket a]> (<[0%nat := -1]> ∅)))
    by (destruct (a_bind a); injection E2 as <-; reflexivity).
  subst st2. cbn [objs sys] in E3. rewrite lookup_insert_eq in E3.
  assert (E3' : fds (sys st3) = {[a_socket b]} ∪ ({[a_socket a]} ∪ ∅)
                /\ objs st3 = <[0%nat := a_socket b]> (<[0%nat := a_socket a]> (<[0%nat := -1]> ∅)))
    by (destruct (a_bind b); injection E3 as <-; split; reflexivity).
  destruct E3' as [-> ->]. split; [set_solver|]. intros id Hid.
  apply lookup_set in Hid as [[_ E]|[Hn Hid]]; [congruence|].
  rewrite !lookup_insert_ne, lookup_empty in Hid by congruence. discriminate.
Qed.

Lemma rebind_leaks_witness :
  exists st : State, 3 ∈ fds (sys st) /\ forall id, objs st !! id <> Some 3.
Proof.
  eexists. eapply (rebind_leaks (mkAnswers 3 true true true (-1) None) (mkAnswers 4 true true true (-1) None) 8805);
    [cbn; lia|cbn; lia|cbn; lia|reflexivity|reflexivity|reflexivity].
Defined.
