(* ===== verification/NodeEnv.v ===== *)
(** * What surrounds a node

    A node of the simulator is a state and handlers that also act on the
    outside: sockets, the capture file, the clock, [std::rand], the stop flag
    and, for the MME, the thread that feeds it Diameter answers.  The outside
    is an interface, the class [Env]; the handlers are written against it and
    the theorems about a node hold in every environment that keeps the
    promises they name.  [World] is the instance that replays a script and
    records what the node does.  Log output is not modelled. *)

From S2P Require Import Prelude Tlv.
#[local] Open Scope Z_scope.

(** ** Sockets and captures *)

(** The socket members of the nodes, by their names in the classes. *)
Inductive Chan : Set :=
| enb_conn_ | hss_conn_ | sgw_udp_   (* MmeNode *)
| mme_conn_                          (* HssNode, EnbNode *)
| s11_socket_ | s5_socket_           (* SgwNode; s5_socket_ of PgwNode *)
| pcrf_conn_                         (* PgwNode *)
| pgw_conn_.                         (* PcrfNode *)

#[export] Instance Chan_eq_dec : EqDecision Chan.
Proof. solve_decision. Defined.

(** [DiameterCmd], [DiameterApp] and [GtpMsgType] of pcap_writer.h. *)
Inductive DiameterCmd : Set := CREDIT_CONTROL | AUTH_INFO | UPDATE_LOCATION | SERVER_ASSIGNMENT.

Definition DiameterCmd_code (c : DiameterCmd) : Z :=
  match c with
  | CREDIT_CONTROL => 272 | AUTH_INFO => 318 | UPDATE_LOCATION => 316
  | SERVER_ASSIGNMENT => 301
  end.

Inductive DiameterApp : Set := S6A | GX | CX.

Definition DiameterApp_code (a : DiameterApp) : Z :=
  match a with S6A => 16777251 | GX => 16777238 | CX => 16777216 end.

Inductive GtpMsgType : Set :=
| CREATE_SESSION_REQ | CREATE_SESSION_RSP | MODIFY_BEARER_REQ | MODIFY_BEARER_RSP
| DELETE_SESSION_REQ | DELETE_SESSION_RSP.

Definition GtpMsgType_code (t : GtpMsgType) : Z :=
  match t with
  | CREATE_SESSION_REQ => 32 | CREATE_SESSION_RSP => 33 | MODIFY_BEARER_REQ => 34
  | MODIFY_BEARER_RSP => 35 | DELETE_SESSION_REQ => 36 | DELETE_SESSION_RSP => 37
  end.

Definition IP_UE : Z := 0x0A000001.
Definition IP_ENB : Z := 0x0A000002.
Definition IP_MME : Z := 0x0A000003.
Definition IP_HSS : Z := 0x0A000004.
Definition IP_SGW : Z := 0x0A000005.
Definition IP_PGW : Z := 0x0A000006.
Definition IP_PCRF : Z := 0x0A000007.
Definition IP_PCSCF : Z := 0x0A000008.
Definition IP_SCSCF : Z := 0x0A000009.
Definition IP_MTAS : Z := 0x0A00000A.

Definition PORT_S1AP : Z := 36412.
Definition PORT_DIA : Z := 3868.
Definition PORT_GX : Z := 3869.
Definition PORT_SGW : Z := 2123.
Definition PORT_PGW : Z := 2124.
Definition PORT_SIP : Z := 5060.

(** The calls a node makes to [PcapWriter::instance()]. *)
Inductive PcapCall : Type :=
| writeS1AP (msg_name : bytes) (src_ip src_port dst_ip dst_port : Z) (payload : bytes)
| writeDiameter (cmd : DiameterCmd) (app : DiameterApp) (is_request : bool)
    (src_ip src_port dst_ip dst_port : Z)
| writeGTPv2 (type : GtpMsgType) (teid : Z) (src_ip src_port dst_ip dst_port : Z).

(** ** The environment *)

Class Env (W : Type) : Type := {
  (** [conn.sendFrame(frame)] or [socket.sendTo(payload, ...)], and its result. *)
  env_send : Chan -> bytes -> W -> bool * W;
  (** Waiting at most this many milliseconds for a payload; [None]: timeout,
      or a failed receive. *)
  env_recv : Chan -> Z -> W -> option bytes * W;
  env_pcap : PcapCall -> W -> W;
  (** [steady_clock::now()], in milliseconds. *)
  env_now : W -> Z * W;
  (** [std::rand()]. *)
  env_rand : W -> Z * W;
  (** [Chaos::enabled().load()]. *)
  env_chaos : W -> bool;
  (** [stop_.load()]. *)
  env_stop : W -> bool * W;
  (** The payloads another receive thread of the node handles while this
      thread is blocked, and the stop flag when it wakes up. *)
  env_blocked : W -> list bytes * bool * W
}.

Section Ops.
Context {S W : Type} `{Env W}.

Definition get_state : M (S * W) S := fun '(s, w) => Ok (s, (s, w)).
Definition put_state (s : S) : M (S * W) unit := fun '(_, w) => Ok (tt, (s, w)).
Definition modify (f : S -> S) : M (S * W) unit := fun '(s, w) => Ok (tt, (f s, w)).

Definition send (c : Chan) (b : bytes) : M (S * W) bool := fun '(s, w) =>
  let '(ok, w') := env_send c b w in Ok (ok, (s, w')).

Definition recvWithTimeout (c : Chan) (ms : Z) : M (S * W) (option bytes) := fun '(s, w) =>
  let '(p, w') := env_recv c ms w in Ok (p, (s, w')).

Definition pcap (c : PcapCall) : M (S * W) unit := fun '(s, w) => Ok (tt, (s, env_pcap c w)).

Definition now : M (S * W) Z := fun '(s, w) =>
  let '(t, w') := env_now w in Ok (t, (s, w')).

Definition stop_load : M (S * W) bool := fun '(s, w) =>
  let '(b, w') := env_stop w in Ok (b, (s, w')).

Definition blocked : M (S * W) (list bytes * bool) := fun '(s, w) =>
  let '(l, b, w') := env_blocked w in Ok ((l, b), (s, w')).

(** [Chaos::rollDrop]: with chaos on, true one time in five. *)
Definition rollDrop : M (S * W) bool := fun '(s, w) =>
  if env_chaos w then
    let '(r, w') := env_rand w in
    Ok (r mod 100 <? 20, (s, w'))
  else Ok (false, (s, w)).

End Ops.

(** [apn.empty() ? "internet" : apn]. *)
Definition apn_or_internet (apn : bytes) : bytes :=
  if (length apn =? 0)%nat then str "internet" else apn.

(** A socket's payload is handed to a handler that may act on it. *)
Definition parse_payload {S W A} (cs : cases A) (payload : bytes) (a : A) : M (S * W) A :=
  liftM (parse cs (newReader payload) a).

(** ** The scripted world *)

Inductive Event : Type :=
| Sent (c : Chan) (b : bytes)
| Captured (p : PcapCall).

Record World : Type := mkWorld {
  trace : list Event;                   (** what the node did, in order *)
  inbox : list (option bytes);          (** what its next receives give *)
  blockeds : list (list bytes * bool);  (** what its next waits meet *)
  clock : list Z;
  rands : list Z;
  chaos_on : bool;
  stops : list bool;
  link_up : bool                        (** whether sends succeed *)
}.

Definition quiet : World := mkWorld [] [] [] [] [] false [] true.

Definition log (e : Event) (w : World) : World :=
  mkWorld (trace w ++ [e]) (inbox w) (blockeds w) (clock w) (rands w) (chaos_on w)
    (stops w) (link_up w).

#[export] Instance World_Env : Env World := {
  env_send c b w := (link_up w, log (Sent c b) w);
  env_recv c ms w :=
    match inbox w with
    | [] => (None, w)
    | p :: l => (p, mkWorld (trace w) l (blockeds w) (clock w) (rands w) (chaos_on w)
                      (stops w) (link_up w))
    end;
  env_pcap p w := log (Captured p) w;
  env_now w :=
    match clock w with
    | [] => (0, w)
    | t :: l => (t, mkWorld (trace w) (inbox w) (blockeds w) l (rands w) (chaos_on w)
                      (stops w) (link_up w))
    end;
  env_rand w :=
    match rands w with
    | [] => (0, w)
    | t :: l => (t, mkWorld (trace w) (inbox w) (blockeds w) (clock w) l (chaos_on w)
                      (stops w) (link_up w))
    end;
  env_chaos w := chaos_on w;
  env_stop w :=
    match stops w with
    | [] => (false, w)
    | b :: l => (b, mkWorld (trace w) (inbox w) (blockeds w) (clock w) (rands w)
                      (chaos_on w) l (link_up w))
    end;
  env_blocked w :=
    match blockeds w with
    | [] => ([], false, w)
    | (ps, b) :: l => (ps, b, mkWorld (trace w) (inbox w) l (clock w) (rands w)
                                (chaos_on w) (stops w) (link_up w))
    end
}.

(** ** A world that only records what is sent *)

Record Outbox : Type := mkOut { sent : list bytes }.

#[export] Instance Outbox_Env : Env Outbox := {
  env_send _ b w := (true, mkOut (sent w ++ [b]));
  env_recv _ _ w := (None, w);
  env_pcap _ w := w;
  env_now w := (0, w);
  env_rand w := (0, w);
  env_chaos _ := false;
  env_stop w := (false, w);
  env_blocked w := ([], false, w)
}.

(** What a node does with a payload when it only answers: the frames or
    datagrams it sends.  A run that fails sends nothing and changes nothing. *)
Definition serve {S} (h : bytes -> M (S * Outbox) unit) (s : S) (p : bytes) : S * list bytes :=
  match h p (s, mkOut []) with
  | Ok (_, (s', w)) => (s', sent w)
  | _ => (s, [])
  end.

(** The messages a node sent on a socket, in order. *)
Definition sent_on (c : Chan) (w : World) : list bytes :=
  omap (fun e => match e with
                 | Sent c' b => if decide (c = c') then Some b else None
                 | Captured _ => None
                 end) (trace w).

(** ** Lemmas *)

#[global] Arguments frame : simpl never.
#[global] Arguments udpPayload : simpl never.
#[global] Arguments message : simpl never.
#[global] Arguments enc_message : simpl never.
#[global] Arguments parse : simpl never.
#[global] Arguments u8 : simpl never.
#[global] Arguments u16 : simpl never.
#[global] Arguments u32 : simpl never.
#[global] Arguments u64 : simpl never.

Lemma parse_payload_enc {S W A} (cs : cases A) (type : MessageType) (seq : Z)
    (fs : list field) (a a' : A) (s : S) (w : W) :
  in_u 32 seq -> Forall wf_field fs -> apply_fields cs a fs = Some a' ->
  parse_payload cs (enc_message type seq fs) a (s, w) = Ok (a', (s, w)).
Proof. intros. unfold parse_payload, liftM. rewrite (parse_enc _ _ _ _ _ a'); auto. Qed.

(** ** Automation *)

#[global] Arguments parse_payload : simpl never.

(** The fields of a message are well formed. *)
Ltac wf_fields :=
  repeat apply List.Forall_cons; try apply List.Forall_nil; cbn [wf_field];
  try first [ assumption | apply u32_range | apply u8_range | apply u16_range | apply u64_range
            | unfold in_u; lia | cbn; lia ].

(** A handler parses a message another node wrote. *)
Ltac parse_msg :=
  match goal with
  | |- context [parse_payload ?cs (enc_message ?ty ?sq ?fs) ?a (?s, ?w)] =>
      let r := eval cbn in (apply_fields cs a fs) in
      lazymatch r with
      | Some ?a' =>
          rewrite (parse_payload_enc cs ty sq fs a a' s w);
          [ | try assumption; try apply u32_range | wf_fields | reflexivity ]
      end
  end.

(** Running the monad: the binds, and the operations on the state. *)
Ltac run_ops :=
  cbn [get_state put_state modify pcap send recvWithTimeout now stop_load blocked fst snd].
Ltac run_m := run_ops; repeat (first [rewrite M_bind_eq | rewrite M_ret_eq]; run_ops).

(** ** Triples

    What every successful run of a piece of a node guarantees, in every
    environment.  A handler [keeps] an invariant of the node's state when
    each of its state changes does. *)

Definition triple {S W A} (P : S -> Prop) (m : M (S * W) A) (Q : A -> S -> Prop) : Prop :=
  forall s w a s' w', P s -> m (s, w) = Ok (a, (s', w')) -> Q a s'.

Definition keeps {S W A} (P : S -> Prop) (m : M (S * W) A) : Prop := triple P m (fun _ => P).

Create HintDb triples.

Section Triples.
Context {S W : Type} `{Env W}.
Implicit Types P : S -> Prop.

Lemma triple_bind {A B} P (m : M (S * W) A) (k : A -> M (S * W) B) (R : A -> S -> Prop) Q :
  triple P m R -> (forall a, triple (R a) (k a) Q) -> triple P (m ≫= k) Q.
Proof.
  intros Hm Hk s w b s' w' HP E. apply M_bind_inv in E as (a & [s1 w1] & E1 & E2).
  exact (Hk a _ _ _ _ _ (Hm _ _ _ _ _ HP E1) E2).
Qed.

Lemma keeps_bind {A B} P (m : M (S * W) A) (k : A -> M (S * W) B) :
  keeps P m -> (forall a, keeps P (k a)) -> keeps P (m ≫= k).
Proof. apply (triple_bind P m k (fun _ => P)). Qed.

Lemma triple_ret {A} P (a : A) (Q : A -> S -> Prop) :
  (forall s, P s -> Q a s) -> triple P (mret a : M (S * W) A) Q.
Proof. intros HQ s w a' s' w' HP [= -> -> ->]. auto. Qed.

Lemma keeps_ret {A} P (a : A) : keeps P (mret a : M (S * W) A).
Proof. apply (triple_ret P a (fun _ => P)). auto. Qed.

Lemma triple_get P : triple P (get_state : M (S * W) S) (fun a s => a = s /\ P s).
Proof. intros s w a s' w' HP [= <- -> _]. auto. Qed.

Lemma keeps_get P : keeps P (get_state : M (S * W) S).
Proof. intros s w a s' w' HP [= _ <- _]. exact HP. Qed.

Lemma triple_modify P (f : S -> S) (Q : unit -> S -> Prop) :
  (forall s, P s -> Q tt (f s)) -> triple P (modify f : M (S * W) unit) Q.
Proof. intros HQ s w [] s' w' HP [= <- _]. auto. Qed.

Lemma keeps_modify P (f : S -> S) :
  (forall s, P s -> P (f s)) -> keeps P (modify f : M (S * W) unit).
Proof. intros HP. apply (triple_modify P f (fun _ => P)). exact HP. Qed.

Lemma keeps_send P c b : keeps P (send c b : M (S * W) bool).
Proof. intros s w a s' w' HP. cbn. destruct (env_send c b w). intros [= _ <- _]. exact HP. Qed.

Lemma keeps_recv P c t : keeps P (recvWithTimeout c t : M (S * W) _).
Proof. intros s w a s' w' HP. cbn. destruct (env_recv c t w). intros [= _ <- _]. exact HP. Qed.

Lemma keeps_pcap P c : keeps P (pcap c : M (S * W) unit).
Proof. intros s w a s' w' HP [= _ <- _]. exact HP. Qed.

Lemma keeps_now P : keeps P (now : M (S * W) Z).
Proof. intros s w a s' w' HP. cbn. destruct (env_now w). intros [= _ <- _]. exact HP. Qed.

Lemma keeps_stop P : keeps P (stop_load : M (S * W) bool).
Proof. intros s w a s' w' HP. cbn. destruct (env_stop w). intros [= _ <- _]. exact HP. Qed.

Lemma keeps_blocked P : keeps P (blocked : M (S * W) _).
Proof.
  intros s w a s' w' HP. cbn. destruct (env_blocked w) as [[? ?] ?].
  intros [= _ <- _]. exact HP.
Qed.

Lemma keeps_roll P : keeps P (rollDrop : M (S * W) bool).
Proof.
  intros s w a s' w' HP. unfold rollDrop. destruct (env_chaos w).
  - destruct (env_rand w). intros [= _ <- _]. exact HP.
  - intros [= _ <- _]. exact HP.
Qed.

Lemma keeps_lift {A} P (m : res A) : keeps P (liftM m : M (S * W) A).
Proof. intros s w a s' w' HP. unfold liftM. destruct m; [|discriminate..]. intros [= _ <- _]. exact HP. Qed.

Lemma keeps_parse {A} P (cs : cases A) p a : keeps P (parse_payload cs p a : M (S * W) A).
Proof. apply keeps_lift. Qed.

Lemma triple_parse {A} P (cs : cases A) p (a0 : A) :
  triple P (parse_payload cs p a0 : M (S * W) A)
    (fun l s => P s /\ parse cs (newReader p) a0 = Ok l).
Proof.
  intros s w l s' w' HP. unfold parse_payload, liftM.
  destruct (parse cs (newReader p) a0) eqn:E; [|discriminate..]. intros [= -> <- _]. auto.
Qed.

Lemma triple_conseq {A} P P' (m : M (S * W) A) (Q Q' : A -> S -> Prop) :
  triple P' m Q' -> (forall s, P s -> P' s) -> (forall a s, Q' a s -> Q a s) -> triple P m Q.
Proof. intros Hm HP HQ s w a s' w' H0 E. eapply HQ, Hm; eauto. Qed.

Lemma keeps_triple {A} P (m : M (S * W) A) (Q : A -> S -> Prop) :
  keeps P m -> (forall a s, P s -> Q a s) -> triple P m Q.
Proof. intros Hm HQ. eapply triple_conseq; [exact Hm|auto|exact HQ]. Qed.

End Triples.

#[export] Hint Resolve keeps_ret keeps_get keeps_send keeps_recv keeps_pcap keeps_now
  keeps_stop keeps_blocked keeps_roll keeps_lift keeps_parse : triples.

(** Splits a handler into its operations; leaves the state changes. *)
Ltac keeps_step :=
  first
  [ solve [auto with triples nocore]
  | match goal with
    | |- keeps _ (_ ≫= _) => apply keeps_bind; [|intros ?]
    | |- keeps _ (if ?b then _ else _) => destruct b eqn:?
    | |- keeps _ (match ?x with _ => _ end) => destruct x eqn:?
    end ].
Ltac keeps_tac := repeat keeps_step.
