(* ===== verification/NasEps.v ===== *)
(** * NAS-EPS messages

    [4g-simulator/src/common/nas_eps.cpp]: the byte sequences of the NAS
    messages embedded in the S1AP messages of the capture. *)

From S2P Require Import Prelude Text.
#[local] Open Scope Z_scope.

(** ** EPS mobile identity *)

(** [for (i = 1; i + 1 < digits.size(); i += 2)]: two digits to a byte. *)
Fixpoint bcd_pairs (digits : bytes) : bytes :=
  match digits with
  | c0 :: c1 :: l =>
      let lo := u8 (c0 - 48) in
      let hi := u8 (c1 - 48) in
      u8 (Z.lor (Z.shiftl hi 4) lo) :: bcd_pairs l
  | _ => []
  end.

Definition encodeEpsIdImsi (imsi : Z) : bytes :=
  match to_string imsi with
  | [] => []  (* not a printed number *)
  | c :: l => u8 (Z.lor (Z.lor (Z.shiftl (c - 48) 4) (Z.shiftl 1 3)) 1) :: bcd_pairs l
  end.

(** ** Messages *)

Definition size8 (l : bytes) : Z := u8 (Z.of_nat (length l)).

Definition size16 (l : bytes) : bytes :=
  [u8 (Z.land (Z.shiftr (Z.of_nat (length l)) 8) 0xFF);
   u8 (Z.land (Z.of_nat (length l)) 0xFF)].

Definition buildAttachRequest (imsi : Z) : bytes :=
  let epsid := encodeEpsIdImsi imsi in
  let esm := [0x02; 0x01; 0xd0; 0x11] in
  [0x07; 0x41; Z.lor (Z.shiftl 7 4) 1; size8 epsid] ++ epsid ++ [0x02; 0xe0; 0xe0]
  ++ size16 esm ++ esm.

Definition buildAuthRequest (rand16 autn16 : bytes) : bytes :=
  [0x07; 0x52; 0x00] ++ take 16 rand16 ++ [0x10] ++ take 16 autn16.

Definition buildAuthResponse (res8 : bytes) : bytes := [0x07; 0x53; 0x08] ++ take 8 res8.

Definition SECURITY_MODE_COMMAND : bytes := [0x07; 0x5d; 0x22; 0x07; 0x02; 0xe0; 0xe0].
Definition SECURITY_MODE_COMPLETE : bytes := [0x07; 0x5e].
Definition ATTACH_COMPLETE : bytes := [0x07; 0x43; 0x00; 0x03; 0x52; 0x01; 0xc2].

Definition buildAttachAccept (ue_ip : bytes) : bytes :=
  let esm := [0x52; 0x01; 0xc1] ++ [0x01; 0x09] ++ [0x09; 0x08] ++ str "internet"
             ++ [0x05; 0x01] ++ take 4 ue_ip in
  [0x07; 0x42; 0x01; 0x1e; 0x06; 0x00; 0x04; 0xf4; 0x01; 0x00; 0x01] ++ size16 esm ++ esm.

Definition buildTauRequest (imsi : Z) : bytes :=
  let epsid := encodeEpsIdImsi imsi in
  [0x07; 0x48; 0x00; size8 epsid] ++ epsid ++ [0x58; 0x02; 0xe0; 0xe0].

Definition buildTauAccept : bytes :=
  [0x07; 0x49; 0x00; 0x5A; 0x49; 0x54; 0x07; 0x00; 0x01; 0x04; 0xF4; 0x01; 0x00; 0x02].

(** ** The identity read back (specification) *)

(** The digits a receiver of TS 24.008 reads: the high half of the first
    octet, then the low and the high half of each following octet. *)
Definition decodeEpsIdImsi (l : bytes) : bytes :=
  match l with
  | [] => []
  | b :: l => 48 + Z.shiftr b 4
              :: concat (map (fun b => [48 + Z.land b 15; 48 + Z.shiftr b 4]) l)
  end.

(** ** Lemmas *)

Lemma nibbles (hi lo : Z) : 0 <= hi < 16 -> 0 <= lo < 16 ->
  let b := u8 (Z.lor (Z.shiftl hi 4) lo) in Z.shiftr b 4 = hi /\ Z.land b 15 = lo.
Proof.
  intros Hh Hl. cbv zeta. rewrite Z.lor_comm, lor_shiftl_add by lia.
  rewrite u8_small by (unfold in_u; lia). rewrite Z.shiftr_div_pow2 by lia.
  change 15 with (Z.ones 4). rewrite Z.land_ones by lia. change (2 ^ 4) with 16.
  split; [rewrite Z.div_add, Z.div_small by lia; lia|].
  rewrite Z.mod_add, Z.mod_small by lia. reflexivity.
Qed.

Lemma digit_value (c : Z) : is_digit c = true -> 0 <= c - 48 < 16 /\ u8 (c - 48) = c - 48.
Proof.
  unfold is_digit. intros H. split; [lia|]. apply u8_small. unfold in_u. lia.
Qed.

Lemma bcd_pairs_decode (n : nat) (l : bytes) :
  length l = (2 * n)%nat -> all_digits l ->
  concat (map (fun b => [48 + Z.land b 15; 48 + Z.shiftr b 4]) (bcd_pairs l)) = l
  /\ length (bcd_pairs l) = n.
Proof.
  revert l. induction n as [|n IH]; intros l Hl Hd.
  - destruct l; [split; reflexivity|discriminate].
  - destruct l as [|c0 [|c1 l]]; cbn in Hl; [lia|lia|].
    inversion_clear Hd as [|? ? H0 Hd']. inversion_clear Hd' as [|? ? H1 Hd].
    apply digit_value in H0 as [H0 E0], H1 as [H1 E1].
    destruct (IH l ltac:(lia) Hd) as [IH1 IH2].
    destruct (nibbles (c1 - 48) (c0 - 48) H1 H0) as [Ehi Elo].
    cbn [bcd_pairs]. rewrite E0, E1. cbn [map concat length].
    rewrite Ehi, Elo, IH1, IH2. split; [|reflexivity].
    cbn. f_equal; [lia|]. f_equal. lia.
Qed.

Lemma imsi_digits (imsi : Z) : 10 ^ 14 <= imsi < 10 ^ 15 ->
  exists c l, to_string imsi = c :: l /\ length l = 14%nat /\ is_digit c = true /\ all_digits l.
Proof.
  intros H. pose proof (to_string_length imsi 14 H) as Hl.
  destruct (to_string_spec imsi) as (Hd & _); [lia|].
  destruct (to_string imsi) as [|c l]; [discriminate|]. injection Hl as Hl.
  inversion_clear Hd. exists c, l. auto.
Qed.

Lemma encodeEpsIdImsi_length (imsi : Z) :
  10 ^ 14 <= imsi < 10 ^ 15 -> length (encodeEpsIdImsi imsi) = 8%nat.
Proof.
  intros H. destruct (imsi_digits imsi H) as (c & l & E & Hl & _ & Hd).
  unfold encodeEpsIdImsi. rewrite E. cbn.
  destruct (bcd_pairs_decode 7 l Hl Hd) as [_ ->]. reflexivity.
Qed.

(** ** Properties *)

(** The EPS mobile identity of a 15-digit IMSI is eight octets, the first
    marked odd/IMSI, from which a receiver reads back all fifteen digits. *)
Theorem encodeEpsIdImsi_roundtrip (imsi : Z) (H : 10 ^ 14 <= imsi < 10 ^ 15) :
  decodeEpsIdImsi (encodeEpsIdImsi imsi) = to_string imsi
  /\ length (encodeEpsIdImsi imsi) = 8%nat
  /\ exists b, encodeEpsIdImsi imsi !! 0%nat = Some b /\ Z.land b 15 = 9.
Proof.
  split; [|split; [apply encodeEpsIdImsi_length; exact H|]];
    destruct (imsi_digits imsi H) as (c & l & E & Hl & Hc & Hd);
    apply digit_value in Hc as [Hc _]; unfold encodeEpsIdImsi; rewrite E;
    rewrite <- Z.lor_assoc; change (Z.lor (Z.shiftl 1 3) 1) with 9;
    destruct (nibbles (c - 48) 9 Hc ltac:(lia)) as [Ehi Elo].
  - cbn [decodeEpsIdImsi]. destruct (bcd_pairs_decode 7 l Hl Hd) as [-> _].
    rewrite Ehi. f_equal. lia.
  - eexists. split; [reflexivity|exact Elo].
Qed.

Lemma encodeEpsIdImsi_roundtrip_witness :
  decodeEpsIdImsi (encodeEpsIdImsi 404100000000001) = to_string 404100000000001
  /\ length (encodeEpsIdImsi 404100000000001) = 8%nat
  /\ exists b, encodeEpsIdImsi 404100000000001 !! 0%nat = Some b /\ Z.land b 15 = 9.
Proof. apply encodeEpsIdImsi_roundtrip. lia. Defined.

(** The NAS builders give messages of the sizes their header documents,
    and the length octets inside them are the sizes of what they announce. *)
Theorem nas_sizes (imsi : Z) (rand autn res ip : bytes) (H : 10 ^ 14 <= imsi < 10 ^ 15)
    (Hr : length rand = 16%nat) (Ha : length autn = 16%nat) (Hs : length res = 8%nat)
    (Hi : length ip = 4%nat) :
  length (buildAttachRequest imsi) = 21%nat /\ length (buildAuthRequest rand autn) = 36%nat
  /\ length (buildAuthResponse res) = 11%nat /\ length (buildAttachAccept ip) = 34%nat
  /\ length (buildTauRequest imsi) = 16%nat
  /\ buildAttachRequest imsi !! 3%nat = Some 8 /\ buildTauRequest imsi !! 3%nat = Some 8
  /\ take 2 (drop 11 (buildAttachAccept ip)) = [0; 21].
Proof.
  pose proof (encodeEpsIdImsi_length imsi H) as He.
  unfold buildAttachRequest, buildAuthRequest, buildAuthResponse, buildAttachAccept,
    buildTauRequest, size8, size16.
  repeat split;
    rewrite ?length_app, ?length_take, ?He, ?Hr, ?Ha, ?Hs, ?Hi; cbn; rewrite ?He; try reflexivity;
    rewrite ?length_take, ?Hi; reflexivity.
Qed.

Lemma nas_sizes_witness :
  let z := replicate 16 0 in
  length (buildAttachRequest 404100000000001) = 21%nat /\ length (buildAuthRequest z z) = 36%nat
  /\ length (buildAuthResponse (replicate 8 0)) = 11%nat
  /\ length (buildAttachAccept [10; 0; 0; 1]) = 34%nat
  /\ length (buildTauRequest 404100000000001) = 16%nat
  /\ buildAttachRequest 404100000000001 !! 3%nat = Some 8
  /\ buildTauRequest 404100000000001 !! 3%nat = Some 8
  /\ take 2 (drop 11 (buildAttachAccept [10; 0; 0; 1])) = [0; 21].
Proof. apply nas_sizes; first [lia|reflexivity]. Defined.
