(* ===== verification/S1ap.v ===== *)
(** * S1AP PDUs

    [4g-simulator/src/common/s1ap_codec.cpp]: the byte-template builders of the
    S1AP messages that go to the capture.  The theorems read the PDUs back
    with a reader of the Aligned-PER frame the file documents (type, procedure,
    criticality, length, IE count, and each IE as identifier, criticality,
    length and value), which is a specification. *)

From S2P Require Import Prelude Text NasEps.
#[local] Open Scope Z_scope.

(** ** Templates *)

Definition hex_val (c : Z) : Z :=
  if (48 <=? c) && (c <=? 57) then c - 48
  else if (97 <=? c) && (c <=? 102) then c - 87
  else c - 55.

(** [sscanf(p, "%2x", &byte)] on each pair of characters; the templates
    hold hexadecimal digits only. *)
Fixpoint hex2bytes (hex : bytes) : bytes :=
  match hex with
  | h :: l :: p => u8 (16 * hex_val h + hex_val l) :: hex2bytes p
  | _ => []
  end.

(** [for (i...) pdu[k + i] = v[i]], and [pdu[k] = static_cast<uint8_t>(v & 0xFF)]. *)
Definition splice (k : nat) (v : bytes) (pdu : bytes) : bytes := list_inserts k v pdu.

Definition low8 (v : Z) : Z := u8 (Z.land v 0xFF).

Definition buildInitialUEMessage (enb_ue_id imsi : Z) : bytes :=
  let pdu := hex2bytes (str
"000c403e000005000800020001001a00161507417108494001000000001002e0e000040201d011004300060004f4010001006400080004f401000000100086400130")
  in
  let pdu := <[12%nat := low8 enb_ue_id]> pdu in
  splice 22 (encodeEpsIdImsi imsi) pdu.

Definition buildNasTransport (proc0 proc1 mme_id enb_id : Z) (nas : bytes) : bytes :=
  let size := Z.of_nat (length nas) in
  let pdu := hex2bytes (str "000b4038000003000000020000000800020001001a002524") in
  let pdu := <[0%nat := proc0]> pdu in
  let pdu := <[1%nat := proc1]> pdu in
  let pdu := <[3%nat := u8 (20 + size)]> pdu in
  let pdu := <[12%nat := low8 mme_id]> pdu in
  let pdu := <[18%nat := low8 enb_id]> pdu in
  let pdu := <[22%nat := u8 (size + 1)]> pdu in
  let pdu := <[23%nat := u8 size]> pdu in
  pdu ++ nas.

Definition buildDlNasTransport (mme_id enb_id : Z) (nas : bytes) : bytes :=
  buildNasTransport 0x00 0x0b mme_id enb_id nas.

Definition buildUlNasTransport (mme_id enb_id : Z) (nas : bytes) : bytes :=
  buildNasTransport 0x00 0x0d mme_id enb_id nas.

Definition buildInitialContextSetupRequest (mme_id enb_id sgw_s1u_teid : Z)
    (ue_ip kenb32 : bytes) : bytes :=
  let pdu := hex2bytes (str
"00090080840000060000000200000008000200010018003600003440314500093c0f800a00000512345678220742011e060004f401000100155201c101090908696e7465726e657405010a2d00020042000a1805f5e1006002faf080004900201111111111111111111111111111111111111111111111111111111111111111006b00051c000e0000")
  in
  let pdu := <[13%nat := low8 mme_id]> pdu in
  let pdu := <[19%nat := low8 enb_id]> pdu in
  let pdu := <[39%nat := low8 (Z.shiftr sgw_s1u_teid 24)]> pdu in
  let pdu := <[40%nat := low8 (Z.shiftr sgw_s1u_teid 16)]> pdu in
  let pdu := <[41%nat := low8 (Z.shiftr sgw_s1u_teid 8)]> pdu in
  let pdu := <[42%nat := low8 sgw_s1u_teid]> pdu in
  let pdu := splice 74 (take 4 ue_ip) pdu in
  splice 96 (take 32 kenb32) pdu.

Definition buildInitialContextSetupResponse (mme_id enb_id enb_s1u_teid : Z) : bytes :=
  let pdu := hex2bytes (str
"200900220000030000000200000008000200010033400f000032400a0a1f0a00000287654321")
  in
  let pdu := <[12%nat := low8 mme_id]> pdu in
  let pdu := <[18%nat := low8 enb_id]> pdu in
  let pdu := <[34%nat := low8 (Z.shiftr enb_s1u_teid 24)]> pdu in
  let pdu := <[35%nat := low8 (Z.shiftr enb_s1u_teid 16)]> pdu in
  let pdu := <[36%nat := low8 (Z.shiftr enb_s1u_teid 8)]> pdu in
  <[37%nat := low8 enb_s1u_teid]> pdu.

(** ** Handover PDUs *)

Definition buildHoPdu (pdu_type proc_code criticality mme_id enb_id : Z)
    (extra_ies : bytes) : bytes :=
  let ies := [0x00; 0x00; 0x00; 0x02; low8 (Z.shiftr mme_id 8); low8 mme_id;
              0x00; 0x08; 0x00; 0x02; low8 (Z.shiftr enb_id 8); low8 enb_id] ++ extra_ies in
  let n_ies := u8 (2 + Z.of_nat (length extra_ies) / 6) in
  let body := [0x00; 0x00; n_ies] ++ ies in
  [pdu_type; proc_code; criticality; u8 (Z.of_nat (length body))] ++ body.

Definition buildHandoverRequired (mme_id enb_id : Z) : bytes :=
  buildHoPdu 0x00 0x00 0x00 mme_id enb_id
    [0x00; 0x01; 0x00; 0x01; 0x00; 0x00; 0x02; 0x40; 0x02; 0x00; 0x00].

Definition buildHandoverRequest (mme_id enb_id : Z) : bytes :=
  buildHoPdu 0x00 0x01 0x00 mme_id enb_id
    [0x00; 0x01; 0x00; 0x01; 0x00; 0x00; 0x02; 0x40; 0x02; 0x00; 0x00].

Definition buildHandoverRequestAck (mme_id enb_id : Z) : bytes :=
  buildHoPdu 0x20 0x01 0x40 mme_id enb_id [].

Definition buildHandoverCommand (mme_id enb_id : Z) : bytes :=
  buildHoPdu 0x20 0x00 0x00 mme_id enb_id [].

Definition buildENBStatusTransfer (mme_id enb_id : Z) : bytes :=
  buildHoPdu 0x00 0x18 0x40 mme_id enb_id [].

Definition buildMMEStatusTransfer (mme_id enb_id : Z) : bytes :=
  buildHoPdu 0x00 0x19 0x40 mme_id enb_id [].

Definition buildHandoverNotify (mme_id enb_id : Z) : bytes :=
  buildHoPdu 0x00 0x02 0x40 mme_id enb_id [].

Definition buildUEContextReleaseCommand (mme_id enb_id : Z) : bytes :=
  buildHoPdu 0x00 0x17 0x00 mme_id enb_id [].

Definition buildUEContextReleaseComplete (mme_id enb_id : Z) : bytes :=
  buildHoPdu 0x20 0x17 0x40 mme_id enb_id [].

(** ** A reader of the frame (specification) *)

Record IE : Type := mkIE { ie_id : Z; ie_crit : Z; ie_value : bytes }.

Record Pdu : Type := mkPdu {
  pdu_type : Z;
  proc_code : Z;
  crit : Z;
  count : Z;        (** the announced number of IEs *)
  ies : list IE     (** the IEs that are there *)
}.

(** A length determinant: one octet below 128, two octets below 16384. *)
Definition read_len (l : bytes) : option (nat * bytes) :=
  match l with
  | b :: l1 =>
      if b <? 128 then Some (Z.to_nat b, l1)
      else match l1 with
           | b1 :: l2 => if b <? 192 then Some (Z.to_nat ((b - 128) * 256 + b1), l2) else None
           | [] => None
           end
  | [] => None
  end.

Fixpoint read_ies (fuel : nat) (l : bytes) : option (list IE) :=
  match l, fuel with
  | [], _ => Some []
  | i1 :: i0 :: c :: l1, S fuel' =>
      match read_len l1 with
      | Some (n, l2) =>
          if (length l2 <? n)%nat then None
          else match read_ies fuel' (drop n l2) with
               | Some es => Some (mkIE (i1 * 256 + i0) c (take n l2) :: es)
               | None => None
               end
      | None => None
      end
  | _, _ => None
  end.

(** The whole PDU: the length must be exactly what follows. *)
Definition read_pdu (l : bytes) : option Pdu :=
  match l with
  | t :: p :: c :: l1 =>
      match read_len l1 with
      | Some (n, l2) =>
          if (length l2 =? n)%nat then
            match l2 with
            | 0 :: n1 :: n0 :: l3 =>
                match read_ies (length l3) l3 with
                | Some es => Some (mkPdu t p c (n1 * 256 + n0) es)
                | None => None
                end
            | _ => None
            end
          else None
      | None => None
      end
  | _ => None
  end.

(** A PDU whose announced number of IEs is the number of those there. *)
Definition counted (p : Pdu) : bool := count p =? Z.of_nat (length (ies p)).

(** ** Lemmas *)

#[local] Arguments low8 : simpl never.

Lemma low8_u8 (v : Z) : low8 v = u8 v.
Proof.
  unfold low8. change 0xFF with (Z.ones 8). rewrite Z.land_ones by lia.
  unfold u8, wrap. apply Z.mod_mod. lia.
Qed.

Lemma nasTransport_bytes (p0 p1 mme_id enb_id : Z) (nas : bytes) :
  buildNasTransport p0 p1 mme_id enb_id nas =
  [p0; p1; 0x40; u8 (20 + Z.of_nat (length nas)); 0; 0; 3;
   0; 0; 0; 2; 0; low8 mme_id; 0; 8; 0; 2; 0; low8 enb_id;
   0; 0x1a; 0; u8 (Z.of_nat (length nas) + 1); u8 (Z.of_nat (length nas))] ++ nas.
Proof. reflexivity. Qed.

Lemma read_len_small (n : Z) (l : bytes) :
  0 <= n < 128 -> read_len (u8 n :: l) = Some (Z.to_nat n, l).
Proof.
  intros H. cbn. rewrite u8_small by (unfold in_u; lia).
  replace (n <? 128) with true by lia. reflexivity.
Qed.

Lemma read_ies_cons (fuel : nat) (i1 i0 c n : Z) (v l : bytes) (es : list IE) :
  0 <= n < 128 -> length v = Z.to_nat n -> read_ies fuel l = Some es ->
  read_ies (S fuel) (i1 :: i0 :: c :: n :: v ++ l) = Some (mkIE (i1 * 256 + i0) c v :: es).
Proof.
  intros Hn Hv E. cbn [read_ies read_len]. replace (n <? 128) with true by lia.
  rewrite length_app, <- Hv, (proj2 (Nat.ltb_ge _ _)) by lia.
  rewrite drop_app_length, take_app_length, E. reflexivity.
Qed.

(** ** Properties *)

(** The NAS transport wrapper round-trips: for a NAS message of up to 107
    octets (the file claims 127) the PDU reads back as exactly its three IEs,
    with the UE identifiers in their low octets and the NAS message whole. *)
Theorem nasTransport_roundtrip (p0 p1 mme_id enb_id : Z) (nas : bytes)
    (Hnas : (length nas <= 107)%nat) :
  let p := mkPdu p0 p1 0x40 3
             [mkIE 0 0 [0; u8 mme_id]; mkIE 8 0 [0; u8 enb_id];
              mkIE 26 0 (Z.of_nat (length nas) :: nas)] in
  read_pdu (buildNasTransport p0 p1 mme_id enb_id nas) = Some p /\ counted p = true.
Proof.
  cbv zeta. split; [|reflexivity]. rewrite nasTransport_bytes, !low8_u8.
  unfold read_pdu. cbn [app]. rewrite read_len_small by lia.
  replace (_ =? Z.to_nat _)%nat with true
    by (symmetry; apply Nat.eqb_eq; cbn [length]; lia).
  assert (Hs : u8 (Z.of_nat (length nas) + 1) = Z.of_nat (S (length nas)))
    by (rewrite u8_small by (unfold in_u; lia); lia).
  rewrite Hs, (u8_small (Z.of_nat (length nas))) by (unfold in_u; lia).
  cbn [length].
  match goal with |- context [read_ies ?f ?l] =>
    assert (E : read_ies f l = Some [mkIE 0 0 [0; u8 mme_id]; mkIE 8 0 [0; u8 enb_id];
                                     mkIE 26 0 (Z.of_nat (length nas) :: nas)]) end.
  { apply (read_ies_cons _ 0 0 0 2 [0; u8 mme_id]); [lia|reflexivity|].
    apply (read_ies_cons _ 0 8 0 2 [0; u8 enb_id]); [lia|reflexivity|].
    rewrite <- (app_nil_r nas) at 4.
    apply (read_ies_cons _ 0 26 0 _ (Z.of_nat (length nas) :: nas) []);
      [lia|cbn [length]; lia|destruct (length nas); reflexivity]. }
  rewrite E. reflexivity.
Qed.

Lemma nasTransport_roundtrip_witness :
  let p := mkPdu 0 0x0b 0x40 3
             [mkIE 0 0 [0; u8 1]; mkIE 8 0 [0; u8 2]; mkIE 26 0 [2; 7; 94]] in
  read_pdu (buildNasTransport 0 0x0b 1 2 SECURITY_MODE_COMPLETE) = Some p /\ counted p = true.
Proof. apply (nasTransport_roundtrip 0 0x0b 1 2 SECURITY_MODE_COMPLETE). cbn. lia. Defined.

(** From 108 octets of NAS message on, below the 128 the file gives as
    its limit, the length octet of the wrapper is no longer the length of
    what follows, and the PDU cannot be read. *)
Theorem nasTransport_too_long (p0 p1 mme_id enb_id : Z) (nas : bytes)
    (Hnas : (108 <= length nas <= 127)%nat) :
  read_pdu (buildNasTransport p0 p1 mme_id enb_id nas) = None.
Proof.
  rewrite nasTransport_bytes. unfold read_pdu. cbn [app].
  unfold read_len. rewrite u8_small by (unfold in_u; lia).
  replace (20 + Z.of_nat (length nas) <? 128) with false by lia.
  replace (20 + Z.of_nat (length nas) <? 192) with true by lia.
  replace (_ =? Z.to_nat _)%nat with false; [reflexivity|].
  symmetry. apply Nat.eqb_neq. cbn [length]. lia.
Qed.

Lemma nasTransport_too_long_witness :
  read_pdu (buildNasTransport 0 0x0b 1 2 (replicate 108 0)) = None.
Proof. apply nasTransport_too_long. cbn. lia. Defined.

(** The handover PDUs without extra IEs carry both 16-bit UE identifiers,
    two IEs as announced, under the procedure of their name. *)
Theorem handover_pdus_roundtrip (mme_id enb_id : Z) :
  let p t c k := Some (mkPdu t c k 2
                  [mkIE 0 0 [u8 (Z.shiftr mme_id 8); u8 mme_id];
                   mkIE 8 0 [u8 (Z.shiftr enb_id 8); u8 enb_id]]) in
  read_pdu (buildHandoverRequestAck mme_id enb_id) = p 0x20 1 0x40
  /\ read_pdu (buildHandoverCommand mme_id enb_id) = p 0x20 0 0
  /\ read_pdu (buildENBStatusTransfer mme_id enb_id) = p 0 24 0x40
  /\ read_pdu (buildMMEStatusTransfer mme_id enb_id) = p 0 25 0x40
  /\ read_pdu (buildHandoverNotify mme_id enb_id) = p 0 2 0x40
  /\ read_pdu (buildUEContextReleaseCommand mme_id enb_id) = p 0 23 0
  /\ read_pdu (buildUEContextReleaseComplete mme_id enb_id) = p 0x20 23 0x40.
Proof. cbv zeta. rewrite <- !low8_u8. repeat split. Qed.

(** HandoverRequired and HandoverRequest carry four IEs and announce
    three: the count divides the octets of the extra IEs by six, and the two
    extra IEs are eleven octets. *)
Theorem handover_required_miscounted (mme_id enb_id : Z) :
  exists p q, read_pdu (buildHandoverRequired mme_id enb_id) = Some p
              /\ read_pdu (buildHandoverRequest mme_id enb_id) = Some q
              /\ count p = 3 /\ length (ies p) = 4%nat /\ counted p = false
              /\ count q = 3 /\ length (ies q) = 4%nat /\ counted q = false.
Proof. eexists _, _. repeat split. Qed.

(** The bearer messages carry the tunnel endpoints: the request's E-RAB IE
    holds the S-GW TEID, big-endian, after the S-GW address and before a NAS
    Attach Accept with the UE's address, and its security key is the KeNB; the
    response's E-RAB IE ends with the eNB TEID. *)
Theorem icsr_roundtrip (mme_id enb_id teid a b c d : Z) (kenb : bytes)
    (Hk : length kenb = 32%nat) :
  exists p, read_pdu (buildInitialContextSetupRequest mme_id enb_id teid [a; b; c; d] kenb)
            = Some p /\ counted p = true
    /\ ies p !! 0%nat = Some (mkIE 0 0 [0; u8 mme_id])
    /\ ies p !! 1%nat = Some (mkIE 8 0 [0; u8 enb_id])
    /\ (exists v, ies p !! 2%nat = Some (mkIE 24 0 v)
                  /\ take 4 (drop 15 v) = be32 teid
                  /\ drop 20 v = buildAttachAccept [a; b; c; d])
    /\ In (mkIE 73 0 kenb) (ies p)
    /\ exists q, read_pdu (buildInitialContextSetupResponse mme_id enb_id teid) = Some q
        /\ counted q = true
        /\ exists v, ies q !! 2%nat = Some (mkIE 51 0x40 v) /\ drop 11 v = be32 teid.
Proof.
  do 33 (destruct kenb as [|? kenb]; try discriminate Hk).
  unfold be32. rewrite <- !low8_u8. eexists. split; [reflexivity|].
  split; [reflexivity|]. split; [reflexivity|]. split; [reflexivity|].
  split; [eexists; split; [reflexivity|split; reflexivity]|].
  split; [cbn; auto 10|].
  eexists. split; [reflexivity|]. split; [reflexivity|].
  eexists. split; reflexivity.
Qed.

Lemma icsr_roundtrip_witness :
  exists p, read_pdu (buildInitialContextSetupRequest 1 2 1001 [10; 0; 0; 1] (replicate 32 17))
            = Some p /\ counted p = true
    /\ ies p !! 0%nat = Some (mkIE 0 0 [0; u8 1])
    /\ ies p !! 1%nat = Some (mkIE 8 0 [0; u8 2])
    /\ (exists v, ies p !! 2%nat = Some (mkIE 24 0 v)
                  /\ take 4 (drop 15 v) = be32 1001
                  /\ drop 20 v = buildAttachAccept [10; 0; 0; 1])
    /\ In (mkIE 73 0 (replicate 32 17)) (ies p)
    /\ exists q, read_pdu (buildInitialContextSetupResponse 1 2 1001) = Some q
        /\ counted q = true
        /\ exists v, ies q !! 2%nat = Some (mkIE 51 0x40 v) /\ drop 11 v = be32 1001.
Proof. apply icsr_roundtrip. reflexivity. Defined.
