(* ===== verification/LegacyNas.v ===== *)
(** * The packed structures of the first design

    [4g-simulator/src/common/message.h]: [MessageHeader], [NAS_AttachRequest] and
    [S1AP_InitialUEMessage], laid out without padding in the byte order of the
    host, which is little-endian, with the two functions that copy an attach
    request into and out of a buffer, and the text of a header; and the
    exceptions of [common/exceptions.h].  No node uses them any more. *)

From S2P Require Import Prelude Text.
#[local] Open Scope Z_scope.

Definition le64 (v : Z) : bytes := le32 (u32 v) ++ le32 (u32 (Z.shiftr v 32)).

(** ** The header *)

Record MessageHeader : Type := mkHeader {
  domain : Z; version : Z; msg_type : Z; msg_length : Z; sequence_num : Z }.

Definition header_ok (h : MessageHeader) : Prop :=
  in_u 8 (domain h) /\ in_u 8 (version h) /\ in_u 16 (msg_type h)
  /\ in_u 32 (msg_length h) /\ in_u 32 (sequence_num h).

Definition header_bytes (h : MessageHeader) : bytes :=
  [domain h; version h] ++ le16 (msg_type h) ++ le32 (msg_length h) ++ le32 (sequence_num h).

(** A digit of [%X]. *)
Definition hex_upper (d : Z) : Z := if d <? 10 then 48 + d else 55 + d.
Definition hex2 (v : Z) : bytes := [hex_upper (v / 16); hex_upper (v mod 16)].

(** [operator<<]; the text of [snprintf] is at most 31 characters. *)
Definition header_text (h : MessageHeader) : bytes :=
  str "Header[Domain: " ++ to_string (domain h) ++ str ", Type: " ++ to_string (msg_type h)
  ++ str ", Len: " ++ to_string (msg_length h) ++ str "] "
  ++ take 31 (str " (Hex: " ++ hex2 (domain h) ++ [32] ++ hex2 (version h) ++ [32]
              ++ hex2 (msg_type h / 256) ++ hex2 (msg_type h mod 256) ++ str ")").

(** ** The attach request *)

Record NAS_AttachRequest : Type := mkAttach {
  protocol_discriminator : Z; security_header_type : Z; message_type : Z; eps_attach_type : Z;
  nas_ksi : Z; identity_type : Z; imsi : Z; ue_network_capability : Z }.

Definition attach_ok (n : NAS_AttachRequest) : Prop :=
  in_u 8 (protocol_discriminator n) /\ in_u 8 (security_header_type n) /\ in_u 8 (message_type n)
  /\ in_u 8 (eps_attach_type n) /\ in_u 8 (nas_ksi n) /\ in_u 8 (identity_type n)
  /\ in_u 64 (imsi n) /\ in_u 8 (ue_network_capability n).

(** The octets of the structure. *)
Definition attach_bytes (n : NAS_AttachRequest) : bytes :=
  [protocol_discriminator n; security_header_type n; message_type n; eps_attach_type n; nas_ksi n; identity_type n]
  ++ le64 (imsi n) ++ [ue_network_capability n].
Definition sizeof_attach : nat := 15.

(** What octets mean as a structure. *)
Definition attach_of (b : bytes) : NAS_AttachRequest :=
  let at_ i := nth i b 0 in
  mkAttach (at_ 0%nat) (at_ 1%nat) (at_ 2%nat) (at_ 3%nat) (at_ 4%nat) (at_ 5%nat)
    (Z.lor (from_le32 (at_ 6%nat) (at_ 7%nat) (at_ 8%nat) (at_ 9%nat))
       (Z.shiftl (from_le32 (at_ 10%nat) (at_ 11%nat) (at_ 12%nat) (at_ 13%nat)) 32))
    (at_ 14%nat).

(** [buf_size] is what the caller says; a buffer that is shorter is written past
    its end. *)
Definition serialize_nas_attach (nas : NAS_AttachRequest) (buf : bytes) (buf_size : Z) : res (Z * bytes) :=
  if buf_size <? Z.of_nat sizeof_attach then Ok (0, buf)
  else if (length buf <? sizeof_attach)%nat then Undefined
  else Ok (Z.of_nat sizeof_attach, attach_bytes nas ++ drop sizeof_attach buf).

Definition deserialize_nas_attach (buf : bytes) (len : Z) (out : NAS_AttachRequest) : res (bool * NAS_AttachRequest) :=
  if len <? Z.of_nat sizeof_attach then Ok (false, out)
  else if (length buf <? sizeof_attach)%nat then Undefined
  else Ok (true, attach_of buf).

(** ** The initial UE message *)

Record S1AP_InitialUEMessage : Type := mkInitial {
  i_header : MessageHeader; enb_ue_s1ap_id : Z; nas_pdu_length : Z; nas_pdu : bytes;
  tai_mcc : Z; tai_mnc : Z; tai_tac : Z; eutran_cgi_cell_id : Z; rrc_establishment_cause : Z }.

Definition NAS_PDU_MAX : nat := 512.

Definition initial_bytes (m : S1AP_InitialUEMessage) : bytes :=
  header_bytes (i_header m) ++ le32 (enb_ue_s1ap_id m) ++ le16 (nas_pdu_length m) ++ nas_pdu m
  ++ le16 (tai_mcc m) ++ le16 (tai_mnc m) ++ le16 (tai_tac m) ++ le32 (eutran_cgi_cell_id m)
  ++ [rrc_establishment_cause m].

(** An attach request in the message's own buffer. *)
Definition with_attach (nas : NAS_AttachRequest) (m : S1AP_InitialUEMessage) : res S1AP_InitialUEMessage :=
  serialize_nas_attach nas (nas_pdu m) (Z.of_nat NAS_PDU_MAX) ≫= fun r : Z * bytes =>
  Ok (mkInitial (i_header m) (enb_ue_s1ap_id m) (fst r) (snd r) (tai_mcc m) (tai_mnc m) (tai_tac m)
        (eutran_cgi_cell_id m) (rrc_establishment_cause m)).

Definition attach_in (m : S1AP_InitialUEMessage) (out : NAS_AttachRequest) : res (bool * NAS_AttachRequest) :=
  deserialize_nas_attach (nas_pdu m) (nas_pdu_length m) out.

(** ** Exceptions *)

Inductive TelecomException : Type :=
| Telecom (msg : bytes) | SocketException (msg : bytes) | ProtocolException (msg : bytes) | AuthException (msg : bytes).
Definition what (e : TelecomException) : bytes :=
  match e with
  | Telecom msg => msg
  | SocketException msg => str "SOCKET_ERR: " ++ msg
  | ProtocolException msg => str "PROTOCOL_ERR: " ++ msg
  | AuthException msg => str "AUTH_FAILURE: " ++ msg
  end.

(** ** Lemmas *)

Lemma attach_length (n : NAS_AttachRequest) : length (attach_bytes n) = sizeof_attach.
Proof. reflexivity. Qed.

Lemma attach_of_bytes (n : NAS_AttachRequest) (r : bytes) : attach_ok n -> attach_of (attach_bytes n ++ r) = n.
Proof.
  intros (_ & _ & _ & _ & _ & _ & Hi & _). destruct n as [pd sh mt at_ ksi it im cap].
  unfold attach_of, attach_bytes. cbn [protocol_discriminator security_header_type message_type eps_attach_type
    nas_ksi identity_type imsi ue_network_capability le64 le32 app nth] in *.
  rewrite !le32_roundtrip by apply u32_range. rewrite le64_roundtrip by exact Hi. reflexivity.
Qed.

(** ** Properties *)

(** An attach request goes through a buffer unchanged.  Into any buffer of at
    least the size it is given, and with the length it returns, the request is
    read back as it was and the octets behind it are kept; a size or a length
    below fifteen octets is refused and nothing is changed. *)
Theorem attach_through_buffer (nas out : NAS_AttachRequest) (buf : bytes) (size : Z) :
  attach_ok nas -> size <= Z.of_nat (length buf) ->
  if size <? 15 then
    serialize_nas_attach nas buf size = Ok (0, buf) /\ deserialize_nas_attach buf size out = Ok (false, out)
  else exists buf',
    serialize_nas_attach nas buf size = Ok (15, buf') /\ length buf' = length buf
    /\ deserialize_nas_attach buf' 15 out = Ok (true, nas) /\ drop 15 buf' = drop 15 buf.
Proof.
  intros Hn Hs. unfold serialize_nas_attach, deserialize_nas_attach. change (Z.of_nat sizeof_attach) with 15.
  destruct (Z.ltb_spec size 15) as [Hlt|Hge]; [split; reflexivity|].
  exists (attach_bytes nas ++ drop 15 buf).
  assert (Hl : length (attach_bytes nas ++ drop 15 buf) = length buf)
    by (rewrite length_app, length_drop, attach_length; unfold sizeof_attach; lia).
  rewrite Hl. unfold sizeof_attach. destruct (Nat.ltb_spec (length buf) 15); [lia|].
  split; [reflexivity|]. split; [reflexivity|]. split; [|apply (drop_app_length' _ _ 15%nat); reflexivity].
  cbn [Z.ltb Z.compare Pos.compare Pos.compare_cont]. rewrite attach_of_bytes by exact Hn. reflexivity.
Qed.

Definition first_attach : NAS_AttachRequest := mkAttach 7 0 65 1 7 1 404100000000001 224.

Lemma attach_through_buffer_witness :
  exists buf',
    serialize_nas_attach first_attach (repeat 0 512) 512 = Ok (15, buf')
    /\ deserialize_nas_attach buf' 15 (mkAttach 0 0 0 0 0 0 0 0) = Ok (true, first_attach).
Proof.
  destruct (attach_through_buffer first_attach (mkAttach 0 0 0 0 0 0 0 0) (repeat 0 512) 512) as (buf' & E & _ & D & _).
  - unfold attach_ok, in_u; cbn; lia.
  - rewrite repeat_length. lia.
  - exists buf'. split; [exact E|exact D].
Defined.

(** The messages have their wire sizes, and the initial message carries an attach
    request through its own buffer. *)
Theorem initial_carries_attach (m : S1AP_InitialUEMessage) (nas out : NAS_AttachRequest) :
  attach_ok nas -> length (nas_pdu m) = NAS_PDU_MAX ->
  exists m', with_attach nas m = Ok m' /\ attach_in m' out = Ok (true, nas)
  /\ length (initial_bytes m') = 541%nat /\ nas_pdu_length m' = 15.
Proof.
  intros Hn Hl.
  pose proof (attach_through_buffer nas out (nas_pdu m) (Z.of_nat NAS_PDU_MAX) Hn ltac:(lia)) as H.
  change (Z.of_nat NAS_PDU_MAX <? 15) with false in H. destruct H as (buf' & E & Hl' & D & _).
  eexists. unfold with_attach. rewrite E, res_bind_Ok. split; [reflexivity|]. cbn [fst snd].
  split; [exact D|]. split; [|reflexivity]. unfold initial_bytes. cbn [nas_pdu i_header].
  rewrite !length_app, Hl', Hl. reflexivity.
Qed.

Lemma initial_carries_attach_witness :
  exists m', with_attach first_attach (mkInitial (mkHeader 1 1 1 541 1) 1 0 (repeat 0 512) 404 10 1 1 3) = Ok m'
  /\ attach_in m' first_attach = Ok (true, first_attach).
Proof.
  destruct (initial_carries_attach (mkInitial (mkHeader 1 1 1 541 1) 1 0 (repeat 0 512) 404 10 1 1 3) first_attach first_attach)
    as (m' & E & D & _).
  - unfold attach_ok, in_u; cbn; lia.
  - apply repeat_length.
  - exists m'. split; [exact E|exact D].
Defined.
