(* ===== verification/Subscriber.v ===== *)
(** * Subscriber profiles

    [4g-simulator/src/common/subscriber_profile.h]: the immutable profiles and
    the registry that shares one object per access point name.  A
    [shared_ptr<const SubscriberProfile>] is the place of the object in the
    registry's heap, so that sharing can be stated. *)

From S2P Require Import Prelude.
#[local] Open Scope Z_scope.

Record SubscriberProfile : Type := mkProfile {
  apn : bytes;
  qci : Z;
  max_ul_bps : Z;
  max_dl_bps : Z;
  online_charging : bool;
  offline_charging : bool;
  charging_rule : bytes
}.

(** The registry: the objects it made, and the map from names to them. *)
Record ProfileRegistry : Type := mkRegistry {
  objects : list SubscriberProfile;
  profiles_ : gmap bytes nat
}.

Definition add (r : ProfileRegistry) (key : bytes) (p : SubscriberProfile) : ProfileRegistry :=
  mkRegistry (objects r ++ [p]) (<[key := length (objects r)]> (profiles_ r)).

(** [profiles_.find(apn)], else [profiles_.at("internet")], which throws when
    there is none ([None]). *)
Definition get_ptr (r : ProfileRegistry) (a : bytes) : option nat :=
  match profiles_ r !! a with
  | Some i => Some i
  | None => profiles_ r !! str "internet"
  end.

Definition get (r : ProfileRegistry) (a : bytes) : option SubscriberProfile :=
  i ← get_ptr r a; objects r !! i.

(** The constructor of the registry, the only code that adds profiles. *)
Definition newRegistry : ProfileRegistry :=
  let r := mkRegistry [] ∅ in
  let r := add r (str "internet")
    (mkProfile (str "internet") 9 50000000 100000000 false true (str "internet_rule")) in
  let r := add r (str "ims")
    (mkProfile (str "ims") 1 5000000 5000000 false false (str "ims_rule")) in
  let r := add r (str "mms")
    (mkProfile (str "mms") 9 1000000 2000000 false true (str "mms_rule")) in
  add r (str "gaming")
    (mkProfile (str "gaming") 4 10000000 20000000 false true (str "gaming_rule")).

(** What [ProfileRegistry::instance().get(apn)] dereferences to. *)
Definition profile_of (a : bytes) : SubscriberProfile :=
  match get newRegistry a with
  | Some p => p
  | None => mkProfile [] 0 0 0 false false []  (* excluded by [get_total] *)
  end.

(** ** Lemmas *)

Lemma profiles_lookup (a : bytes) :
  profiles_ newRegistry !! a =
  if decide (a = str "gaming") then Some 3%nat
  else if decide (a = str "mms") then Some 2%nat
  else if decide (a = str "ims") then Some 1%nat
  else if decide (a = str "internet") then Some 0%nat else None.
Proof.
  unfold newRegistry, add; cbn [objects profiles_ length app].
  repeat (case_decide; [subst a; reflexivity|rewrite lookup_insert_ne by congruence]).
  apply lookup_empty.
Qed.

Lemma name_cases (x : bytes) :
  (x = str "internet" \/ x = str "ims" \/ x = str "mms" \/ x = str "gaming")
  \/ ((x ∉ [str "internet"; str "ims"; str "mms"; str "gaming"])
      /\ profiles_ newRegistry !! x = None).
Proof.
  rewrite profiles_lookup. rewrite !not_elem_of_cons.
  repeat (case_decide; [left; tauto|]). right. repeat split; try assumption. apply not_elem_of_nil.
Qed.

Lemma get_total (a : bytes) : get newRegistry a = Some (profile_of a).
Proof.
  unfold profile_of, get, get_ptr. rewrite profiles_lookup.
  repeat (case_decide; [reflexivity|]). reflexivity.
Qed.

Lemma profile_of_internet :
  profile_of (str "internet") =
  mkProfile (str "internet") 9 50000000 100000000 false true (str "internet_rule").
Proof. reflexivity. Qed.

(** What the wire needs of a profile: fields in range, short strings. *)
Lemma profile_of_range (a : bytes) :
  in_u 8 (qci (profile_of a)) /\ in_u 32 (max_ul_bps (profile_of a))
  /\ in_u 32 (max_dl_bps (profile_of a)) /\ (length (apn (profile_of a)) < 20)%nat
  /\ (length (charging_rule (profile_of a)) < 20)%nat.
Proof.
  unfold profile_of, get, get_ptr. rewrite profiles_lookup. unfold in_u.
  repeat case_decide; repeat split; vm_compute; first [discriminate|reflexivity|lia].
Qed.

(** ** Properties *)

(** The registry never fails and shares: for every name it returns a
    profile, that of the name when the name is registered and the internet
    profile otherwise, and two subscribers get the same object exactly when
    their effective names are equal. *)
Theorem registry_flyweight (a b : bytes) :
  let known x := decide (x ∈ [str "internet"; str "ims"; str "mms"; str "gaming"]) in
  let eff x := if known x then x else str "internet" in
  (exists p, get newRegistry a = Some p /\ apn p = eff a)
  /\ (get_ptr newRegistry a = get_ptr newRegistry b <-> eff a = eff b).
Proof.
  cbv zeta. unfold get, get_ptr.
  destruct (name_cases a) as [Ha|(Ha & -> )]; destruct (name_cases b) as [Hb|(Hb & ->)];
    rewrite ?(decide_False (P := a ∈ _)), ?(decide_False (P := b ∈ _)) by assumption;
    repeat match goal with
    | H : ?x = _ \/ _ |- _ => destruct H as [H|H]
    | H : ?x = _ |- _ => subst x
    end; vm_compute;
    (split; [eexists; split; reflexivity|split; first [reflexivity|discriminate]]).
Qed.
