(* ===== verification/UeStore.v ===== *)
(** * UE contexts and their sharded store

    [4g-simulator/src/mme/ue_context.h] and [ue_context_store.h].  A
    [shared_ptr<UeContext>] is a place in a heap of contexts: the store maps
    identifiers to places, and the handlers write through the place they found
    while the store keeps it.  Each operation of the store runs under the lock
    of its shard, so it is one step. *)

From S2P Require Import Prelude.
#[local] Open Scope Z_scope.

(** ** Contexts *)

Inductive EmmState : Set :=
| DEREGISTERED | REGISTERED_INITIATED | AUTH_PENDING | SESSION_PENDING | REGISTERED
| DEREGISTERED_INITIATED.

#[export] Instance EmmState_eq_dec : EqDecision EmmState.
Proof. solve_decision. Defined.

Definition emm_state_str (s : EmmState) : bytes :=
  match s with
  | DEREGISTERED => str "DEREGISTERED"
  | REGISTERED_INITIATED => str "REGISTERED_INITIATED"
  | AUTH_PENDING => str "AUTH_PENDING"
  | SESSION_PENDING => str "SESSION_PENDING"
  | REGISTERED => str "REGISTERED"
  | DEREGISTERED_INITIATED => str "DEREGISTERED_INITIATED"
  end.

(** The arrays of [AuthVectors]: 16, 16, 8 and 32 octets. *)
Record AuthVectors : Type := mkAuth {
  av_rand : bytes;
  av_autn : bytes;
  av_xres : bytes;
  av_kasme : bytes
}.

(** [AuthVectors av{}]: all zeros. *)
Definition zeroAuth : AuthVectors :=
  mkAuth (replicate 16 0) (replicate 16 0) (replicate 8 0) (replicate 32 0).

Record Bearer : Type := mkBearer {
  ebi : Z;
  qci : Z;
  sgw_s11_teid : Z;
  sgw_s1u_teid : Z;
  pgw_s5_teid : Z;
  enb_s1u_teid : Z;
  ue_ip : bytes
}.

Record UeContext : Type := mkUe {
  imsi : Z;
  mme_ue_s1ap_id : Z;
  enb_ue_s1ap_id : Z;
  emm_state : EmmState;
  auth : AuthVectors;
  bearers : list Bearer;
  tai_mcc : Z;
  tai_mnc : Z;
  tai_tac : Z;
  attach_start : Z;
  profile : bytes  (** the access point name of the shared profile *)
}.

(** [defaultBearer()]: the place of the first bearer with EBI 5. *)
Fixpoint default_index (bs : list Bearer) : option nat :=
  match bs with
  | [] => None
  | b :: bs' => if ebi b =? 5 then Some 0%nat else S <$> default_index bs'
  end.

Definition defaultBearer (c : UeContext) : option Bearer :=
  i ← default_index (bearers c); bearers c !! i.

(** Writing through the pointer [defaultBearer()] returned. *)
Definition set_default_teid (teid : Z) (c : UeContext) : UeContext :=
  match default_index (bearers c) with
  | None => c
  | Some i =>
      mkUe (imsi c) (mme_ue_s1ap_id c) (enb_ue_s1ap_id c) (emm_state c) (auth c)
        (alter (fun b => mkBearer (ebi b) (qci b) (sgw_s11_teid b) (sgw_s1u_teid b)
                           (pgw_s5_teid b) teid (ue_ip b)) i (bearers c))
        (tai_mcc c) (tai_mnc c) (tai_tac c) (attach_start c) (profile c)
  end.

Definition set_mme_id (id : Z) (c : UeContext) : UeContext :=
  mkUe (imsi c) id (enb_ue_s1ap_id c) (emm_state c) (auth c) (bearers c)
    (tai_mcc c) (tai_mnc c) (tai_tac c) (attach_start c) (profile c).

Definition set_state (st : EmmState) (c : UeContext) : UeContext :=
  mkUe (imsi c) (mme_ue_s1ap_id c) (enb_ue_s1ap_id c) st (auth c) (bearers c)
    (tai_mcc c) (tai_mnc c) (tai_tac c) (attach_start c) (profile c).

Definition set_auth (av : AuthVectors) (c : UeContext) : UeContext :=
  mkUe (imsi c) (mme_ue_s1ap_id c) (enb_ue_s1ap_id c) (emm_state c) av (bearers c)
    (tai_mcc c) (tai_mnc c) (tai_tac c) (attach_start c) (profile c).

Definition push_bearer (b : Bearer) (c : UeContext) : UeContext :=
  mkUe (imsi c) (mme_ue_s1ap_id c) (enb_ue_s1ap_id c) (emm_state c) (auth c)
    (bearers c ++ [b]) (tai_mcc c) (tai_mnc c) (tai_tac c) (attach_start c) (profile c).

(** ** The store *)

Abbreviation Ptr := nat (only parsing).

(** The contexts made by [make_shared], by place. *)
Abbreviation Heap := (list UeContext).

Record UeContextStore : Type := mkStore {
  shards_ : list (gmap Z Ptr);
  next_id_ : Z
}.

Definition NUM_SHARDS : Z := 64.

Definition newStore : UeContextStore := mkStore (replicate 64 ∅) 1.

Definition shard_index (id : Z) : nat := Z.to_nat (id mod NUM_SHARDS).

Definition shard (s : UeContextStore) (id : Z) : gmap Z Ptr :=
  default ∅ (shards_ s !! shard_index id).

(** [insert(ctx)]: takes the next identifier, writes it into the context and
    stores the pointer in the identifier's shard. *)
Definition insert_ctx (s : UeContextStore) (h : Heap) (p : Ptr) : Z * UeContextStore * Heap :=
  let id := next_id_ s in
  (id,
   mkStore (alter (fun m => <[id := p]> m) (shard_index id) (shards_ s)) (u32 (id + 1)),
   alter (set_mme_id id) p h).

Definition find (s : UeContextStore) (id : Z) : option Ptr := shard s id !! id.

Definition remove (s : UeContextStore) (id : Z) : UeContextStore :=
  mkStore (alter (fun m => delete id m) (shard_index id) (shards_ s)) (next_id_ s).

Definition store_size (s : UeContextStore) : nat :=
  foldl (fun total m => (total + size m)%nat) 0%nat (shards_ s).

(** [forEach]: the shards in order, each in the order of its hash table,
    which the program leaves unspecified (here the order of [map_to_list]). *)
Definition forEach {A} (s : UeContextStore) (fn : Ptr -> A) : list A :=
  concat (map (fun m => map (fun '(_, p) => fn p) (map_to_list m)) (shards_ s)).

(** ** The specification: one map *)

Definition all_ids (s : UeContextStore) : gmap Z Ptr :=
  foldr (fun m acc => m ∪ acc) ∅ (shards_ s).

(** Every identifier is in the shard of its remainder. *)
Definition wf_store (s : UeContextStore) : Prop :=
  length (shards_ s) = 64%nat /\ in_u 32 (next_id_ s)
  /\ forall i m k p, shards_ s !! i = Some m -> m !! k = Some p -> shard_index k = i.

(** ** Lemmas *)

Lemma shard_index_lt (id : Z) : (shard_index id < 64)%nat.
Proof.
  unfold shard_index, NUM_SHARDS.
  assert (0 <= id mod 64 < 64) by (apply Z.mod_pos_bound; lia). lia.
Qed.

Lemma wf_newStore : wf_store newStore.
Proof.
  split; [reflexivity|]. split; [unfold in_u; cbn; lia|].
  intros i m k p Hm Hk. apply lookup_replicate in Hm as [-> _].
  rewrite lookup_empty in Hk. discriminate.
Qed.

Lemma shard_lookup (s : UeContextStore) (id : Z) :
  wf_store s -> shards_ s !! shard_index id = Some (shard s id).
Proof.
  intros [Hl _]. unfold shard.
  destruct (shards_ s !! shard_index id) eqn:E; [reflexivity|].
  apply lookup_ge_None in E. pose proof (shard_index_lt id). lia.
Qed.

Lemma foldr_union_lookup (l : list (gmap Z Ptr)) (k : Z) :
  foldr (fun m acc => m ∪ acc) ∅ l !! k = head (omap (fun m => m !! k) l).
Proof.
  induction l as [|m l IH]; cbn; [apply lookup_empty|].
  rewrite lookup_union, IH.
  destruct (m !! k) eqn:E; cbn; [destruct (head _); reflexivity|].
  destruct (head _); reflexivity.
Qed.

(** Looking in the one shard is looking in the whole store. *)
Lemma find_all_ids (s : UeContextStore) (id : Z) :
  wf_store s -> find s id = all_ids s !! id.
Proof.
  intros Hwf. unfold all_ids. rewrite foldr_union_lookup.
  pose proof (shard_lookup s id Hwf) as Hs. destruct Hwf as (_ & _ & Hk).
  unfold find. destruct (shard s id !! id) as [p|] eqn:E.
  - assert (Hin : p ∈ omap (fun m => m !! id) (shards_ s)).
    { apply list_elem_of_omap. exists (shard s id). split; [|exact E].
      eapply list_elem_of_lookup_2. exact Hs. }
    destruct (omap (fun m => m !! id) (shards_ s)) as [|q l] eqn:Eo;
      [apply elem_of_nil in Hin as []|].
    assert (Hq : q ∈ omap (fun m => m !! id) (shards_ s)) by (rewrite Eo; apply list_elem_of_here).
    apply list_elem_of_omap in Hq as (m & Hm & Hmq). apply list_elem_of_lookup_1 in Hm as (i & Hi).
    assert (i = shard_index id) as -> by (symmetry; eapply Hk; eauto).
    rewrite Hs in Hi. injection Hi as <-. cbn. congruence.
  - destruct (omap (fun m => m !! id) (shards_ s)) as [|q l] eqn:Eo; [reflexivity|].
    assert (Hq : q ∈ omap (fun m => m !! id) (shards_ s)) by (rewrite Eo; apply list_elem_of_here).
    apply list_elem_of_omap in Hq as (m & Hm & Hmq). apply list_elem_of_lookup_1 in Hm as (i & Hi).
    assert (i = shard_index id) as -> by (symmetry; eapply Hk; eauto).
    rewrite Hs in Hi. injection Hi as <-. congruence.
Qed.

Lemma wf_alter (s : UeContextStore) (id n : Z) (f : gmap Z Ptr -> gmap Z Ptr) :
  wf_store s -> in_u 32 n ->
  (forall m k p, f m !! k = Some p -> (exists q, m !! k = Some q) \/ k = id) ->
  wf_store (mkStore (alter f (shard_index id) (shards_ s)) n).
Proof.
  intros (Hl & Hn & Hk) Hn' Hf. split; [cbn; rewrite length_alter; exact Hl|].
  split; [exact Hn'|]. cbn. intros i m k p Hm Hp.
  destruct (decide (i = shard_index id)) as [->|Hne].
  - rewrite list_lookup_alter_eq in Hm. apply fmap_Some in Hm as (m0 & Hm0 & ->).
    apply Hf in Hp as [[q Hq]|Hid]; [eapply Hk; eauto|congruence].
  - rewrite list_lookup_alter_ne in Hm by congruence. eapply Hk; eauto.
Qed.

Lemma find_alter (s : UeContextStore) (id n k : Z) (f : gmap Z Ptr -> gmap Z Ptr) :
  wf_store s -> (forall m k, k <> id -> f m !! k = m !! k) ->
  find (mkStore (alter f (shard_index id) (shards_ s)) n) k =
  if decide (k = id) then f (shard s id) !! id else find s k.
Proof.
  intros Hwf Hf. pose proof (shard_lookup s id Hwf) as Hs. unfold find, shard at 1; cbn [shards_].
  destruct (decide (shard_index k = shard_index id)) as [E|E].
  - rewrite E, list_lookup_alter_eq, Hs. cbn. destruct (decide (k = id)) as [->|Hne]; [reflexivity|].
    rewrite Hf by exact Hne. unfold shard. rewrite E. reflexivity.
  - rewrite list_lookup_alter_ne by congruence.
    destruct (decide (k = id)) as [->|]; [congruence|reflexivity].
Qed.

Lemma insert_ctx_wf (s : UeContextStore) (h : Heap) (p : Ptr) :
  wf_store s -> wf_store (insert_ctx s h p).1.2.
Proof.
  intros Hwf. apply wf_alter; [exact Hwf|apply u32_range|].
  intros m k q Hq. destruct (decide (k = next_id_ s)) as [->|Hne]; [right; reflexivity|].
  rewrite lookup_insert_ne in Hq by congruence. eauto.
Qed.

Lemma insert_ctx_find (s : UeContextStore) (h : Heap) (p : Ptr) (k : Z) :
  wf_store s ->
  find (insert_ctx s h p).1.2 k = if decide (k = next_id_ s) then Some p else find s k.
Proof.
  intros Hwf. unfold insert_ctx; cbn [fst snd]. rewrite find_alter;
    [|exact Hwf|intros; apply lookup_insert_ne; congruence].
  destruct (decide (k = next_id_ s)); [apply lookup_insert_eq|reflexivity].
Qed.

Lemma remove_wf (s : UeContextStore) (id : Z) : wf_store s -> wf_store (remove s id).
Proof.
  intros Hwf. apply wf_alter; [exact Hwf|apply Hwf|].
  intros m k q Hq. apply lookup_delete_Some in Hq as [_ Hq]. eauto.
Qed.

Lemma remove_find (s : UeContextStore) (id k : Z) :
  wf_store s -> find (remove s id) k = if decide (k = id) then None else find s k.
Proof.
  intros Hwf. unfold remove. rewrite find_alter;
    [|exact Hwf|intros; apply lookup_delete_ne; congruence].
  destruct (decide (k = id)); [apply lookup_delete_eq|reflexivity].
Qed.

Lemma sum_sizes (l : list (gmap Z Ptr)) (off acc : nat) :
  (forall i m k p, l !! i = Some m -> m !! k = Some p -> shard_index k = (off + i)%nat) ->
  foldl (fun total m => (total + size m)%nat) acc l =
  (acc + size (foldr (fun m acc => m ∪ acc) (∅ : gmap Z Ptr) l))%nat.
Proof.
  revert off acc. induction l as [|m l IH]; intros off acc Hk; cbn.
  - rewrite map_size_empty. lia.
  - rewrite (IH (S off)).
    2: { intros i m' k p Hi Hp. rewrite (Hk (S i) m' k p Hi Hp). lia. }
    rewrite map_size_disj_union; [lia|].
    apply map_disjoint_spec. intros k p q Hp Hq. rewrite foldr_union_lookup in Hq.
    destruct (omap (fun m => m !! k) l) as [|q' l'] eqn:Eo; [discriminate|].
    assert (Hin : q' ∈ omap (fun m => m !! k) l) by (rewrite Eo; apply list_elem_of_here).
    apply list_elem_of_omap in Hin as (m' & Hm' & Hq'). apply list_elem_of_lookup_1 in Hm' as (i & Hi).
    pose proof (Hk 0%nat m k p eq_refl Hp). pose proof (Hk (S i) m' k q' Hi Hq'). lia.
Qed.

(** [n] contexts inserted one after the other. *)
Fixpoint insert_all (s : UeContextStore) (h : Heap) (ps : list Ptr) : list Z * UeContextStore * Heap :=
  match ps with
  | [] => ([], s, h)
  | p :: ps' =>
      let '(id, s1, h1) := insert_ctx s h p in
      let '(ids, s2, h2) := insert_all s1 h1 ps' in (id :: ids, s2, h2)
  end.

Lemma insert_all_spec (ps : list Ptr) (s : UeContextStore) (h : Heap) :
  wf_store s -> next_id_ s + Z.of_nat (length ps) < 2 ^ 32 ->
  let '(ids, s', h') := insert_all s h ps in
  ids = seqZ (next_id_ s) (Z.of_nat (length ps)) /\ wf_store s'
  /\ forall k, find s' k = (if decide (next_id_ s <= k < next_id_ s + Z.of_nat (length ps))
                            then ps !! Z.to_nat (k - next_id_ s) else find s k).
Proof.
  revert s h. induction ps as [|p ps IH]; intros s h Hwf Hn; cbn [insert_all length] in *.
  - split; [reflexivity|]. split; [exact Hwf|]. intros k. rewrite decide_False by lia. reflexivity.
  - pose proof (insert_ctx_wf s h p Hwf) as Hwf1.
    pose proof (fun k => insert_ctx_find s h p k Hwf) as Hf1.
    assert (Hid : next_id_ (insert_ctx s h p).1.2 = next_id_ s + 1).
    { cbn. apply u32_small. destruct Hwf as (_ & [H0 _] & _). unfold in_u. lia. }
    assert (Hfst : (insert_ctx s h p).1.1 = next_id_ s) by reflexivity.
    destruct (insert_ctx s h p) as [[id s1] h1]. cbn [fst snd] in *.
    specialize (IH s1 h1 Hwf1). rewrite Hid in IH. specialize (IH ltac:(lia)).
    destruct (insert_all s1 h1 ps) as [[ids s2] h2]. destruct IH as (-> & Hwf2 & Hf2).
    split; [|split; [exact Hwf2|]].
    + rewrite Nat2Z.inj_succ, (seqZ_cons (next_id_ s)) by lia.
      rewrite Hfst, Z.pred_succ, Z.add_1_r. reflexivity.
    + intros k. rewrite Hf2, Hf1.
      destruct (decide (next_id_ s + 1 <= k < next_id_ s + 1 + Z.of_nat (length ps))).
      * rewrite decide_True by lia.
        replace (Z.to_nat (k - next_id_ s)) with (S (Z.to_nat (k - (next_id_ s + 1)))) by lia.
        reflexivity.
      * destruct (decide (k = next_id_ s)) as [->|].
        -- rewrite decide_True by lia. rewrite Z.sub_diag. reflexivity.
        -- rewrite decide_False by lia. reflexivity.
Qed.

(** ** Properties *)

(** C13. Sharding is invisible: the 64 maps behave as one map from identifiers
    to contexts under find, insert, remove and size, and every operation
    keeps each identifier in its own shard. *)
Theorem store_refines_map (s : UeContextStore) (h : Heap) (p : Ptr) (id : Z)
    (Hwf : wf_store s) :
  let s1 := (insert_ctx s h p).1.2 in
  let s2 := remove s id in
  find s id = all_ids s !! id
  /\ store_size s = size (all_ids s)
  /\ (wf_store s1 /\ all_ids s1 = <[next_id_ s := p]> (all_ids s))
  /\ (wf_store s2 /\ all_ids s2 = delete id (all_ids s)).
Proof.
  cbv zeta. pose proof (insert_ctx_wf s h p Hwf) as H1. pose proof (remove_wf s id Hwf) as H2.
  split; [apply find_all_ids; exact Hwf|].
  split; [unfold store_size; rewrite (sum_sizes _ 0); [reflexivity|]; apply Hwf|].
  split; (split; [assumption|]); apply map_eq; intros k; rewrite <- find_all_ids by assumption.
  - rewrite insert_ctx_find by exact Hwf. case_decide; simplify_map_eq; [reflexivity|].
    apply find_all_ids. exact Hwf.
  - rewrite remove_find by exact Hwf. case_decide; simplify_map_eq; [reflexivity|].
    apply find_all_ids. exact Hwf.
Qed.

Lemma store_refines_map_witness :
  let s1 := (insert_ctx newStore [] 0).1.2 in
  let s2 := remove newStore 9 in
  find newStore 9 = all_ids newStore !! 9
  /\ store_size newStore = size (all_ids newStore)
  /\ (wf_store s1 /\ all_ids s1 = <[1 := 0%nat]> (all_ids newStore))
  /\ (wf_store s2 /\ all_ids s2 = delete 9 (all_ids newStore)).
Proof. apply store_refines_map. exact wf_newStore. Defined.

(** No attach is lost in the store: up to 2^32 - 2 contexts inserted into
    a new store get the identifiers 1, 2, 3, ... without repetition, and each
    is found again under its identifier. *)
Theorem inserted_contexts_found (ps : list Ptr) (h : Heap)
    (Hn : Z.of_nat (length ps) < 2 ^ 32 - 1) :
  let '(ids, s, _) := insert_all newStore h ps in
  ids = seqZ 1 (Z.of_nat (length ps))
  /\ forall i p, ps !! i = Some p -> find s (1 + Z.of_nat i) = Some p.
Proof.
  pose proof (insert_all_spec ps newStore h wf_newStore) as H. cbn [next_id_ newStore] in H.
  specialize (H ltac:(lia)). destruct (insert_all newStore h ps) as [[ids s] h'].
  destruct H as (-> & _ & Hf). split; [reflexivity|]. intros i p Hp.
  pose proof (lookup_lt_Some _ _ _ Hp). rewrite Hf, decide_True by lia.
  replace (Z.to_nat (1 + Z.of_nat i - 1)) with i by lia. exact Hp.
Qed.

Lemma inserted_contexts_found_witness :
  let '(ids, s, _) := insert_all newStore [] [4; 5; 6]%nat in
  ids = seqZ 1 3 /\ forall i p, [4; 5; 6]%nat !! i = Some p -> find s (1 + Z.of_nat i) = Some p.
Proof. apply (inserted_contexts_found [4; 5; 6]%nat []). cbn. lia. Defined.
