(* ===== verification/Metrics.v ===== *)
(** * Attach metrics

    The counting part of [Metrics] in [4g-simulator/src/common/metrics.h]: the
    batch state, recording an attach, and the condition [waitForAll] waits
    for.  Latencies are whole milliseconds, as the MME records them; the
    percentiles and the texts, which are floating-point, are in
    [Prometheus]. *)

From S2P Require Import Prelude.
#[local] Open Scope Z_scope.

Record Metrics : Type := mkMetrics {
  latencies_ms_ : list Z;
  completed_ : Z;
  expected_ : Z
}.

Definition newMetrics : Metrics := mkMetrics [] 0 0.

Definition startBulk (expected_count : Z) (m : Metrics) : Metrics := mkMetrics [] 0 expected_count.

(** The new state, and whether the waiters are notified. *)
Definition recordAttach (latency_ms : Z) (m : Metrics) : Metrics * bool :=
  (mkMetrics (latencies_ms_ m ++ [latency_ms]) (completed_ m + 1) (expected_ m),
   expected_ m <=? completed_ m + 1).

(** The predicate of [waitForAll]. *)
Definition all_done (m : Metrics) : bool := expected_ m <=? completed_ m.

Definition recordAll (ls : list Z) (m : Metrics) : Metrics :=
  foldl (fun m l => (recordAttach l m).1) m ls.

(** ** Lemmas *)

Lemma recordAll_spec (ls : list Z) (m : Metrics) :
  recordAll ls m =
  mkMetrics (latencies_ms_ m ++ ls) (completed_ m + Z.of_nat (length ls)) (expected_ m).
Proof.
  unfold recordAll. revert m. induction ls as [|l ls IH]; intros m; cbn.
  - rewrite app_nil_r, Z.add_0_r. destruct m; reflexivity.
  - rewrite IH. cbn. rewrite <- app_assoc. cbn. f_equal. lia.
Qed.

(** ** Properties *)

(** A batch of [n] attaches is reported complete exactly from the n-th
    recorded attach on, with every latency kept in order; a recording notifies
    the waiting thread exactly when the batch is then complete, so no wake-up
    is lost. *)
Theorem bulk_completes (m : Metrics) (n : Z) (ls : list Z) (l : Z) :
  let m1 := recordAll ls (startBulk n m) in
  latencies_ms_ m1 = ls
  /\ all_done m1 = (n <=? Z.of_nat (length ls))
  /\ (recordAttach l m1).2 = all_done (recordAttach l m1).1
  /\ latencies_ms_ (recordAttach l m1).1 = ls ++ [l].
Proof.
  cbv zeta. rewrite recordAll_spec. unfold all_done, startBulk, recordAttach; cbn.
  auto.
Qed.
