(* ===== verification/ThreadPool.v ===== *)
(** * The thread pool of the 4G simulator

    [ThreadPool] of [4g-simulator/src/common/thread_pool.h]: workers that take
    tasks off a queue under a mutex and sleep on a condition variable.  The
    steps of the workers, of [submit] and of the destructor are interleaved.
    [mutex_] is held across steps only by a worker between its look at the
    predicate of [cv_.wait] and its going to sleep, [Deciding]; every other
    critical section is one step.  The destructor writes [stop_] without the
    mutex, so that step is possible at any time.  A spurious wake-up, which
    the standard allows and does not promise, is the step [Wake]. *)

From Stdlib Require Import ZArith Lia.
From stdpp Require Import relations sorting.
From S2P Require Import Prelude.
#[local] Open Scope nat_scope.

Section Pool.
Context {T : Type}.

(** ** State *)

(** Where a worker is in [workerLoop]. *)
Inductive Worker : Type :=
| Looping             (** about to lock [mutex_], or woken in [cv_.wait] *)
| Deciding            (** the mutex held, the predicate found false *)
| Sleeping
| Running (t : T)
| Exited.

(** How far the destructor is. *)
Inductive Phase : Set := Alive | Stopping | Notified | Joined.

Record ThreadPool : Type := mkPool {
  queue_ : list T;
  workers_ : list Worker;
  notifying : nat;        (** calls of [submit] between the push and [notify_one] *)
  phase : Phase;
  submitted : list T;     (** what was pushed, taken and finished so far, in order *)
  started : list T;
  finished : list T
}.

Definition newThreadPool (num_workers : nat) : ThreadPool :=
  mkPool [] (repeat Looping num_workers) 0 Alive [] [] [].

(** [stop_]. *)
Definition stop_ (p : ThreadPool) : bool := match phase p with Alive => false | _ => true end.

Definition is_deciding (w : Worker) : bool := match w with Deciding => true | _ => false end.
Definition is_sleeping (w : Worker) : bool := match w with Sleeping => true | _ => false end.
Definition is_exited (w : Worker) : bool := match w with Exited => true | _ => false end.

(** The mutex is free. *)
Definition unlocked (p : ThreadPool) : bool := forallb (fun w => negb (is_deciding w)) (workers_ p).

Definition set_workers (ws : list Worker) (p : ThreadPool) : ThreadPool :=
  mkPool (queue_ p) ws (notifying p) (phase p) (submitted p) (started p) (finished p).
Definition set_phase (ph : Phase) (p : ThreadPool) : ThreadPool :=
  mkPool (queue_ p) (workers_ p) (notifying p) ph (submitted p) (started p) (finished p).
Definition move (i : nat) (w : Worker) (p : ThreadPool) : ThreadPool :=
  set_workers (<[i := w]> (workers_ p)) p.

(** ** Steps *)

(** [submit], the part under the lock. *)
Definition push_task (t : T) (p : ThreadPool) : ThreadPool :=
  mkPool (queue_ p ++ [t]) (workers_ p) (S (notifying p)) (phase p) (submitted p ++ [t])
    (started p) (finished p).

Definition notified (p : ThreadPool) : ThreadPool :=
  mkPool (queue_ p) (workers_ p) (pred (notifying p)) (phase p) (submitted p) (started p) (finished p).

(** A worker with the lock takes the first task. *)
Definition take_task (i : nat) (t : T) (q : list T) (p : ThreadPool) : ThreadPool :=
  mkPool q (<[i := Running t]> (workers_ p)) (notifying p) (phase p) (submitted p)
    (started p ++ [t]) (finished p).

Definition finish_task (i : nat) (t : T) (p : ThreadPool) : ThreadPool :=
  mkPool (queue_ p) (<[i := Looping]> (workers_ p)) (notifying p) (phase p) (submitted p)
    (started p) (finished p ++ [t]).

Definition awaken (w : Worker) : Worker := match w with Sleeping => Looping | _ => w end.

Inductive Label : Type :=
| Submit (t : T)
| NotifyOne (i : option nat)    (** the worker the system wakes, if one sleeps *)
| Take (i : nat) | Check (i : nat) | Sleep (i : nat) | Leave (i : nat) | Finish (i : nat)
| Wake (i : nat)
| Stop | NotifyAll | Join.

Definition pool_step (lb : Label) (p : ThreadPool) : option ThreadPool :=
  match lb with
  | Submit t =>
      match phase p with
      | Alive => if unlocked p then Some (push_task t p) else None
      | _ => None
      end
  | NotifyOne None =>
      if (0 <? notifying p) && forallb (fun w => negb (is_sleeping w)) (workers_ p)
      then Some (notified p) else None
  | NotifyOne (Some i) =>
      match notifying p, workers_ p !! i with
      | S _, Some Sleeping => Some (move i Looping (notified p))
      | _, _ => None
      end
  | Take i =>
      match workers_ p !! i, queue_ p with
      | Some Looping, t :: q => if unlocked p then Some (take_task i t q p) else None
      | _, _ => None
      end
  | Check i =>
      match workers_ p !! i, queue_ p with
      | Some Looping, [] => if unlocked p && negb (stop_ p) then Some (move i Deciding p) else None
      | _, _ => None
      end
  | Sleep i =>
      match workers_ p !! i with Some Deciding => Some (move i Sleeping p) | _ => None end
  | Leave i =>
      match workers_ p !! i, queue_ p with
      | Some Looping, [] => if unlocked p && stop_ p then Some (move i Exited p) else None
      | _, _ => None
      end
  | Finish i =>
      match workers_ p !! i with Some (Running t) => Some (finish_task i t p) | _ => None end
  | Wake i =>
      match workers_ p !! i with Some Sleeping => Some (move i Looping p) | _ => None end
  | Stop =>
      match phase p, notifying p with Alive, 0 => Some (set_phase Stopping p) | _, _ => None end
  | NotifyAll =>
      match phase p with
      | Stopping => Some (set_phase Notified (set_workers (map awaken (workers_ p)) p))
      | _ => None
      end
  | Join =>
      match phase p with
      | Notified => if forallb is_exited (workers_ p) then Some (set_phase Joined p) else None
      | _ => None
      end
  end.

(** Any step; and the steps that need nobody to submit, to destroy or to wake
    without reason. *)
Definition any_step (p p' : ThreadPool) : Prop := exists lb, pool_step lb p = Some p'.

Definition working (lb : Label) : bool :=
  match lb with Submit _ | Wake _ | Stop => false | _ => true end.
Definition work_step (p p' : ThreadPool) : Prop :=
  exists lb, working lb = true /\ pool_step lb p = Some p'.

Fixpoint run_pool (ls : list Label) (p : ThreadPool) : option ThreadPool :=
  match ls with
  | [] => Some p
  | lb :: ls' => match pool_step lb p with Some p' => run_pool ls' p' | None => None end
  end.

(** The tasks being executed. *)
Definition task_of (w : Worker) : option T := match w with Running t => Some t | _ => None end.
Definition running (ws : list Worker) : list T := omap task_of ws.

Definition reachable (n : nat) (p : ThreadPool) : Prop := rtc any_step (newThreadPool n) p.

#[local] Arguments running : simpl never.

(** ** Lemmas: the workers *)

Lemma running_cons (w : Worker) (ws : list Worker) :
  running (w :: ws) = option_list (task_of w) ++ running ws.
Proof. exact (omap_cons_app task_of w ws). Qed.

(** Moving one worker changes the running tasks by its own. *)
Lemma running_insert (ws : list Worker) (i : nat) (w w' : Worker) :
  ws !! i = Some w ->
  option_list (task_of w) ++ running (<[i := w']> ws) ≡ₚ option_list (task_of w') ++ running ws.
Proof. exact (omap_insert task_of ws i w w'). Qed.

(** ** The invariant *)

(** Some worker will look at the queue again. *)
Definition attentive (w : Worker) : bool :=
  match w with Looping | Running _ => true | _ => false end.

Record pool_ok (n : nat) (p : ThreadPool) : Prop := {
  ok_size : length (workers_ p) = n;
  ok_fifo : submitted p = started p ++ queue_ p;
  ok_runs : started p ≡ₚ finished p ++ running (workers_ p);
  ok_deciding : unlocked p = false -> queue_ p = [];
  ok_awake : phase p = Alive -> queue_ p <> [] ->
             0 < notifying p \/ existsb attentive (workers_ p) = true;
  ok_exits : existsb is_exited (workers_ p) = true -> queue_ p = [] /\ stop_ p = true;
  ok_quiet : stop_ p = true -> notifying p = 0;
  ok_joined : phase p = Joined -> forallb is_exited (workers_ p) = true
}.

Lemma ok_new (n : nat) : pool_ok n (newThreadPool n).
Proof.
  assert (R : running (repeat Looping n) = []) by (induction n; [reflexivity|cbn; exact IHn]).
  constructor; cbn; try reflexivity; try discriminate.
  - apply repeat_length.
  - rewrite R. reflexivity.
  - intros _ H. contradiction.
  - clear R. induction n; cbn; [discriminate|exact IHn].
Qed.

Lemma running_same (ws : list Worker) (i : nat) (w w' : Worker) :
  ws !! i = Some w -> task_of w = None -> task_of w' = None -> running (<[i := w']> ws) ≡ₚ running ws.
Proof. intros E H H'. pose proof (running_insert ws i w w' E) as R. rewrite H, H' in R. exact R. Qed.

Lemma unlocked_insert (ws : list Worker) (i : nat) (w : Worker) (p : ThreadPool) :
  is_deciding w = false -> workers_ p = ws -> unlocked (set_workers (<[i := w]> ws) p) = false ->
  unlocked p = false.
Proof.
  intros Hw <- H. destruct (unlocked p) eqn:E; [|reflexivity].
  unfold unlocked in *. cbn in H. rewrite forallb_insert in H; [discriminate|rewrite Hw; reflexivity|exact E].
Qed.

(** A worker without a task goes on, and a notification may be used up. *)
Lemma ok_move (n k : nat) (p : ThreadPool) (i : nat) (w w' : Worker) :
  pool_ok n p -> workers_ p !! i = Some w -> task_of w = None -> task_of w' = None ->
  is_exited w = false -> k <= notifying p ->
  (is_deciding w' = true -> queue_ p = []) ->
  (is_exited w' = true -> queue_ p = [] /\ stop_ p = true) ->
  (attentive w' = true \/ queue_ p = []) ->
  pool_ok n (mkPool (queue_ p) (<[i := w']> (workers_ p)) k (phase p) (submitted p) (started p) (finished p)).
Proof.
  intros [Hs Hf Hr Hd Ha He Hq Hj] E Ht Ht' Hx Hk Cd Ce Ca. constructor; cbn [workers_ queue_ phase notifying submitted started finished].
  - rewrite length_insert. exact Hs.
  - exact Hf.
  - rewrite (running_same _ i w w' E Ht Ht'). exact Hr.
  - intros U. destruct (is_deciding w') eqn:Ed; [auto|].
    apply Hd. apply (unlocked_insert (workers_ p) i w' p Ed eq_refl). exact U.
  - intros _ Hne. right. destruct Ca as [Ca | Ca]; [|contradiction].
    exact (existsb_moved attentive _ i w w' E Ca).
  - intros H. destruct (is_exited w') eqn:Ee; [auto|]. apply He. exact (existsb_insert _ _ i w' Ee H).
  - intros H. pose proof (Hq H). lia.
  - intros H. exfalso. rewrite (forallb_lookup is_exited _ i w (Hj H) E) in Hx. discriminate.
Qed.

Lemma deciding_locks (i : nat) (p : ThreadPool) : workers_ p !! i = Some Deciding -> unlocked p = false.
Proof.
  intros E. destruct (unlocked p) eqn:U; [|reflexivity].
  symmetry. exact (forallb_lookup _ _ _ _ U E).
Qed.

(** While there is work, a pool in which nobody sleeps, decides or has left
    is attentive. *)
Lemma awake_attentive (n : nat) (p : ThreadPool) :
  0 < n -> pool_ok n p -> phase p = Alive -> queue_ p <> [] ->
  forallb (fun w => negb (is_sleeping w)) (workers_ p) = true -> existsb attentive (workers_ p) = true.
Proof.
  intros Hn [Hs Hf Hr Hd Ha He Hq Hj] HA Hne Hsl.
  destruct (workers_ p) as [|w ws] eqn:Ew; [cbn in Hs; lia|]. rewrite <- Ew in *.
  assert (E : workers_ p !! 0 = Some w) by (rewrite Ew; reflexivity).
  apply (existsb_lookup _ _ 0 w E). destruct w; try reflexivity; exfalso.
  - exact (Hne (Hd (deciding_locks 0 p E))).
  - exact (diff_false_true (forallb_lookup _ _ _ _ Hsl E)).
  - apply Hne. destruct He as [-> _]; [|reflexivity]. exact (existsb_lookup _ _ 0 _ E eq_refl).
Qed.

Lemma ok_submit (n : nat) (t : T) (p : ThreadPool) :
  pool_ok n p -> phase p = Alive -> unlocked p = true -> pool_ok n (push_task t p).
Proof.
  intros [Hs Hf Hr Hd Ha He Hq Hj] HA Hu. constructor; cbn.
  - exact Hs.
  - rewrite Hf. symmetry. apply app_assoc.
  - exact Hr.
  - intros U. change (unlocked p = false) in U. congruence.
  - intros _ _. left. lia.
  - intros H. destruct (He H) as [_ Hst]. unfold stop_ in Hst. rewrite HA in Hst. discriminate.
  - unfold stop_. cbn. rewrite HA. discriminate.
  - rewrite HA. discriminate.
Qed.

Lemma ok_take (n : nat) (i : nat) (t : T) (q : list T) (p : ThreadPool) :
  pool_ok n p -> workers_ p !! i = Some Looping -> queue_ p = t :: q -> unlocked p = true ->
  pool_ok n (take_task i t q p).
Proof.
  intros [Hs Hf Hr Hd Ha He Hq Hj] E Eq Hu. constructor; cbn.
  - rewrite length_insert. exact Hs.
  - rewrite Hf, Eq. apply (app_assoc _ [t]).
  - pose proof (running_insert _ i _ (Running t) E) as R. cbn in R. rewrite R, Hr.
    rewrite <- app_assoc. f_equiv. symmetry. apply Permutation_cons_append.
  - intros U. change (unlocked (set_workers (<[i := Running t]> (workers_ p)) p) = false) in U.
    apply (unlocked_insert (workers_ p) i (Running t) p eq_refl eq_refl) in U. congruence.
  - intros _ _. right. exact (existsb_moved attentive _ i _ (Running t) E eq_refl).
  - intros H. apply existsb_insert in H; [|reflexivity]. destruct (He H) as [He' _]. congruence.
  - exact Hq.
  - intros H. pose proof (forallb_lookup _ _ i _ (Hj H) E). discriminate.
Qed.

Lemma ok_finish (n : nat) (i : nat) (t : T) (p : ThreadPool) :
  pool_ok n p -> workers_ p !! i = Some (Running t) -> pool_ok n (finish_task i t p).
Proof.
  intros [Hs Hf Hr Hd Ha He Hq Hj] E. constructor; cbn.
  - rewrite length_insert. exact Hs.
  - exact Hf.
  - pose proof (running_insert _ i _ Looping E) as R. cbn in R. rewrite Hr, <- R.
    rewrite <- app_assoc. reflexivity.
  - intros U. change (unlocked (set_workers (<[i := Looping]> (workers_ p)) p) = false) in U.
    apply Hd. exact (unlocked_insert (workers_ p) i Looping p eq_refl eq_refl U).
  - intros _ _. right. exact (existsb_moved attentive _ i _ Looping E eq_refl).
  - intros H. apply He. exact (existsb_insert _ _ i Looping eq_refl H).
  - exact Hq.
  - intros H. pose proof (forallb_lookup _ _ i _ (Hj H) E). discriminate.
Qed.

Lemma ok_notify_none (n : nat) (p : ThreadPool) :
  0 < n -> pool_ok n p -> forallb (fun w => negb (is_sleeping w)) (workers_ p) = true ->
  pool_ok n (notified p).
Proof.
  intros Hn Hok Hsl. pose proof (awake_attentive n p Hn Hok) as K.
  destruct Hok as [Hs Hf Hr Hd Ha He Hq Hj]. constructor; cbn; auto.
  intros H. rewrite (Hq H). reflexivity.
Qed.

Lemma awaken_task (ws : list Worker) : running (map awaken ws) = running ws.
Proof.
  induction ws as [|w ws IH]; [reflexivity|]. cbn [map]. rewrite !running_cons, IH.
  destruct w; reflexivity.
Qed.

Lemma awaken_test (f : Worker -> bool) (ws : list Worker) :
  f Looping = f Sleeping -> map f (map awaken ws) = map f ws.
Proof.
  intros H. rewrite map_map. apply map_ext. intros []; try reflexivity. exact H.
Qed.

Lemma forallb_map_id (f : Worker -> bool) (ws : list Worker) : forallb f ws = forallb id (map f ws).
Proof. induction ws; cbn; [reflexivity|]. rewrite IHws. reflexivity. Qed.

Lemma existsb_map_id (f : Worker -> bool) (ws : list Worker) : existsb f ws = existsb id (map f ws).
Proof. induction ws; cbn; [reflexivity|]. rewrite IHws. reflexivity. Qed.

Lemma awaken_forallb (f : Worker -> bool) (ws : list Worker) :
  f Looping = f Sleeping -> forallb f (map awaken ws) = forallb f ws.
Proof. intros H. rewrite !(forallb_map_id f), awaken_test by exact H. reflexivity. Qed.

Lemma awaken_existsb (f : Worker -> bool) (ws : list Worker) :
  f Looping = f Sleeping -> existsb f (map awaken ws) = existsb f ws.
Proof. intros H. rewrite !(existsb_map_id f), awaken_test by exact H. reflexivity. Qed.

Lemma ok_notify_all (n : nat) (p : ThreadPool) :
  pool_ok n p -> phase p = Stopping ->
  pool_ok n (set_phase Notified (set_workers (map awaken (workers_ p)) p)).
Proof.
  intros [Hs Hf Hr Hd Ha He Hq Hj] HS.
  assert (Hst : stop_ p = true) by (unfold stop_; rewrite HS; reflexivity).
  constructor; cbn; try assumption; try discriminate.
  - rewrite length_map. exact Hs.
  - rewrite awaken_task. exact Hr.
  - unfold unlocked. cbn. rewrite awaken_forallb by reflexivity. exact Hd.
  - rewrite awaken_existsb by reflexivity. intros H. destruct (He H). auto.
  - intros _. exact (Hq Hst).
Qed.

Lemma ok_step (n : nat) (lb : Label) (p p' : ThreadPool) :
  0 < n -> pool_ok n p -> pool_step lb p = Some p' -> pool_ok n p'.
Proof.
  intros Hn Hok E. destruct lb as [t|[i|]|i|i|i|i|i|i| | |]; cbn [pool_step] in E.
  - destruct (phase p) eqn:HA; try discriminate. destruct (unlocked p) eqn:Hu; [|discriminate].
    injection E as <-. apply ok_submit; assumption.
  - destruct (notifying p) as [|k] eqn:Ek; [discriminate|].
    destruct (workers_ p !! i) as [[]|] eqn:Ei; try discriminate. injection E as <-.
    apply (ok_move n _ p i Sleeping Looping); auto; cbn; try discriminate. lia.
  - destruct ((0 <? notifying p) && _) eqn:C; [|discriminate]. injection E as <-.
    apply andb_true_iff in C as [_ C]. apply ok_notify_none; assumption.
  - destruct (workers_ p !! i) as [[]|] eqn:Ei; try discriminate.
    destruct (queue_ p) as [|t q] eqn:Eq; [discriminate|].
    destruct (unlocked p) eqn:Hu; [|discriminate]. injection E as <-. apply ok_take; assumption.
  - destruct (workers_ p !! i) as [[]|] eqn:Ei; try discriminate.
    destruct (queue_ p) eqn:Eq; [|discriminate]. destruct (unlocked p && _); [|discriminate].
    injection E as <-.
    apply (ok_move n _ p i Looping Deciding); auto; cbn; discriminate.
  - destruct (workers_ p !! i) as [[]|] eqn:Ei; try discriminate. injection E as <-.
    apply (ok_move n _ p i Deciding Sleeping); auto; cbn; try discriminate.
    right. exact (ok_deciding _ _ Hok (deciding_locks i p Ei)).
  - destruct (workers_ p !! i) as [[]|] eqn:Ei; try discriminate.
    destruct (queue_ p) eqn:Eq; [|discriminate]. destruct (unlocked p && _) eqn:C; [|discriminate].
    apply andb_true_iff in C as [_ C]. injection E as <-.
    apply (ok_move n _ p i Looping Exited); auto; cbn; discriminate.
  - destruct (workers_ p !! i) as [[]|] eqn:Ei; try discriminate. injection E as <-.
    apply ok_finish; assumption.
  - destruct (workers_ p !! i) as [[]|] eqn:Ei; try discriminate. injection E as <-.
    apply (ok_move n _ p i Sleeping Looping); auto; cbn; discriminate.
  - destruct (phase p) eqn:HA; try discriminate. destruct (notifying p) eqn:Ek; [|discriminate].
    injection E as <-. destruct Hok. constructor; cbn; auto; try discriminate.
    intros H. destruct (ok_exits0 H). auto.
  - destruct (phase p) eqn:HS; try discriminate. injection E as <-. apply ok_notify_all; assumption.
  - destruct (phase p) eqn:HS; try discriminate.
    destruct (forallb is_exited (workers_ p)) eqn:C; [|discriminate]. injection E as <-.
    assert (Hst : stop_ p = true) by (unfold stop_; rewrite HS; reflexivity).
    destruct Hok. constructor; cbn; auto; try discriminate. intros H. destruct (ok_exits0 H). auto.
Qed.

Lemma ok_reachable (n : nat) (p : ThreadPool) : 0 < n -> reachable n p -> pool_ok n p.
Proof.
  intros Hn. apply (rtc_ind_r (pool_ok n)); [apply ok_new|].
  intros x y _ [lb E] H. exact (ok_step n lb x y Hn H E).
Qed.

(** ** Lemmas: every run of the workers ends *)

Definition weight (w : Worker) : nat :=
  match w with Running _ => 3 | Looping => 2 | Deciding => 1 | Sleeping | Exited => 0 end.

Definition weights (ws : list Worker) : nat := sum_list (map weight ws).

#[local] Arguments weights : simpl never.

Lemma weights_insert (ws : list Worker) (i : nat) (w w' : Worker) :
  ws !! i = Some w -> weights (<[i := w']> ws) + weight w = weights ws + weight w'.
Proof. exact (sum_insert weight ws i w w'). Qed.

Lemma weights_awaken (ws : list Worker) : weights (map awaken ws) <= weights ws + 2 * length ws.
Proof. unfold weights. induction ws as [|[] ws IH]; cbn in *; lia. Qed.

Definition phase_weight (p : ThreadPool) : nat :=
  match phase p with Alive | Joined => 0 | Notified => 1 | Stopping => 2 * length (workers_ p) + 2 end.

Definition measure (p : ThreadPool) : nat :=
  2 * length (queue_ p) + weights (workers_ p) + 3 * notifying p + phase_weight p.

Lemma work_step_decreases (p p' : ThreadPool) : work_step p p' -> measure p' < measure p.
Proof.
  intros (lb & Hw & E). unfold measure, phase_weight.
  destruct lb as [t|[i|]|i|i|i|i|i|i| | |]; try discriminate Hw; cbn [pool_step] in E.
  - destruct (notifying p) as [|k] eqn:Ek; [discriminate|].
    destruct (workers_ p !! i) as [[]|] eqn:Ei; try discriminate. injection E as <-.
    pose proof (weights_insert _ i _ Looping Ei) as W. cbn in *. rewrite length_insert, Ek. cbn.
    destruct (phase p); lia.
  - destruct (Nat.ltb_spec 0 (notifying p)); [|discriminate]. destruct (forallb _ _); [|discriminate].
    injection E as <-. cbn. destruct (phase p); lia.
  - destruct (workers_ p !! i) as [[]|] eqn:Ei; try discriminate.
    destruct (queue_ p) as [|t q] eqn:Eq; [discriminate|]. destruct (unlocked p); [|discriminate].
    injection E as <-. pose proof (weights_insert _ i _ (Running t) Ei) as W. cbn in *.
    rewrite length_insert. destruct (phase p); lia.
  - destruct (workers_ p !! i) as [[]|] eqn:Ei; try discriminate.
    destruct (queue_ p) eqn:Eq; [|discriminate]. destruct (_ && _); [|discriminate].
    injection E as <-. pose proof (weights_insert _ i _ Deciding Ei) as W. cbn in *.
    rewrite length_insert, Eq. destruct (phase p); cbn; lia.
  - destruct (workers_ p !! i) as [[]|] eqn:Ei; try discriminate. injection E as <-.
    pose proof (weights_insert _ i _ Sleeping Ei) as W. cbn in *. rewrite length_insert.
    destruct (phase p); lia.
  - destruct (workers_ p !! i) as [[]|] eqn:Ei; try discriminate.
    destruct (queue_ p) eqn:Eq; [|discriminate]. destruct (_ && _); [|discriminate].
    injection E as <-. pose proof (weights_insert _ i _ Exited Ei) as W. cbn in *.
    rewrite length_insert, Eq. destruct (phase p); cbn; lia.
  - destruct (workers_ p !! i) as [[]|] eqn:Ei; try discriminate. injection E as <-.
    pose proof (weights_insert _ i _ Looping Ei) as W. cbn in *. rewrite length_insert.
    destruct (phase p); lia.
  - destruct (phase p) eqn:HS; try discriminate. injection E as <-. cbn.
    pose proof (weights_awaken (workers_ p)). lia.
  - destruct (phase p) eqn:HS; try discriminate. destruct (forallb _ _); [|discriminate].
    injection E as <-. cbn. lia.
Qed.

Lemma work_sn (p : ThreadPool) : sn work_step p.
Proof.
  remember (measure p) as k eqn:Ek. revert p Ek.
  induction (lt_wf k) as [k _ IH]. intros p ->. constructor. intros p' E.
  exact (IH _ (work_step_decreases p p' E) p' eq_refl).
Qed.

(** ** Lemmas: where the runs end *)

Section Ends.
Context (p : ThreadPool) (Hnf : nf work_step p).

Lemma no_step (lb : Label) : working lb = true -> pool_step lb p = None.
Proof.
  intros Hw. destruct (pool_step lb p) as [p'|] eqn:E; [|reflexivity].
  exfalso. apply Hnf. exists p', lb. auto.
Qed.

Lemma end_unlocked : unlocked p = true.
Proof.
  apply forallb_forall. intros w Hw. apply list_elem_of_In, list_elem_of_lookup in Hw as [i E].
  destruct w; try reflexivity. pose proof (no_step (Sleep i) eq_refl) as N. cbn in N.
  rewrite E in N. discriminate.
Qed.

Lemma end_workers (i : nat) (w : Worker) :
  workers_ p !! i = Some w -> w = Sleeping \/ w = Exited.
Proof.
  intros E. destruct w; auto; exfalso.
  - destruct (queue_ p) as [|t q] eqn:Eq.
    + destruct (stop_ p) eqn:Es.
      * pose proof (no_step (Leave i) eq_refl) as N. cbn in N. rewrite E, Eq, end_unlocked, Es in N.
        discriminate.
      * pose proof (no_step (Check i) eq_refl) as N. cbn in N. rewrite E, Eq, end_unlocked, Es in N.
        discriminate.
    + pose proof (no_step (Take i) eq_refl) as N. cbn in N. rewrite E, Eq, end_unlocked in N. discriminate.
  - pose proof (no_step (Sleep i) eq_refl) as N. cbn in N. rewrite E in N. discriminate.
  - pose proof (no_step (Finish i) eq_refl) as N. cbn in N. rewrite E in N. discriminate.
Qed.

Lemma end_idle : running (workers_ p) = [].
Proof.
  assert (K : forall i w, workers_ p !! i = Some w -> task_of w = None)
    by (intros i w E; destruct (end_workers i w E) as [-> | ->]; reflexivity).
  clear Hnf. induction (workers_ p) as [|w ws IH]; [reflexivity|].
  rewrite running_cons, (K 0 w eq_refl). apply IH. intros i. exact (K (S i)).
Qed.

Lemma end_silent : notifying p = 0.
Proof.
  destruct (notifying p) as [|k] eqn:Ek; [reflexivity|]. exfalso.
  destruct (existsb is_sleeping (workers_ p)) eqn:Es.
  - apply existsb_exists in Es as (w & Hw & Hs).
    apply list_elem_of_In, list_elem_of_lookup in Hw as [i E].
    pose proof (no_step (NotifyOne (Some i)) eq_refl) as N. cbn in N. rewrite Ek, E in N.
    destruct w; discriminate.
  - pose proof (no_step (NotifyOne None) eq_refl) as N. cbn in N. rewrite Ek in N. cbn in N.
    replace (forallb _ _) with true in N; [discriminate|]. symmetry. apply forallb_forall.
    intros w Hw. apply negb_true_iff. destruct (is_sleeping w) eqn:E; [|reflexivity].
    rewrite <- Es. symmetry. apply existsb_exists. eauto.
Qed.

Lemma end_inattentive : existsb attentive (workers_ p) = false.
Proof.
  destruct (existsb attentive (workers_ p)) eqn:E; [|reflexivity].
  apply existsb_exists in E as (w & Hw & Ha). apply list_elem_of_In, list_elem_of_lookup in Hw as [i E].
  destruct (end_workers i w E) as [-> | ->]; discriminate.
Qed.

(** A living pool at rest has done everything. *)
Lemma rest_drained (n : nat) :
  pool_ok n p -> phase p = Alive ->
  queue_ p = [] /\ finished p ≡ₚ submitted p /\ forallb is_sleeping (workers_ p) = true.
Proof.
  intros Hok Ha.
  assert (Eq : queue_ p = []).
  { destruct (queue_ p) as [|t q] eqn:Eq; [reflexivity|]. exfalso.
    destruct (ok_awake _ _ Hok Ha) as [H | H]; [rewrite Eq; discriminate| |].
    - rewrite end_silent in H. lia.
    - rewrite end_inattentive in H. discriminate. }
  split; [exact Eq|]. split.
  - rewrite (ok_fifo _ _ Hok), Eq, app_nil_r. symmetry.
    rewrite (ok_runs _ _ Hok), end_idle, app_nil_r. reflexivity.
  - apply forallb_forall. intros w Hw. pose proof Hw as Hx.
    apply list_elem_of_In, list_elem_of_lookup in Hw as [i E].
    destruct (end_workers i w E) as [-> | ->]; [reflexivity|].
    destruct (ok_exits _ _ Hok) as [_ Hst]; [apply existsb_exists; exists Exited; auto|].
    unfold stop_ in Hst. rewrite Ha in Hst. discriminate.
Qed.

End Ends.

(** Steps of the workers submit nothing. *)
Lemma work_keeps (p p' : ThreadPool) :
  work_step p p' -> submitted p' = submitted p /\ (phase p = Alive -> phase p' = Alive).
Proof.
  intros (lb & Hw & E).
  destruct lb as [t|[i|]|i|i|i|i|i|i| | |]; try discriminate Hw; cbn [pool_step] in E;
    repeat match type of E with
    | match ?x with _ => _ end = _ => destruct x eqn:?; try discriminate E
    | (if ?x then _ else _) = _ => destruct x eqn:?; try discriminate E
    end; injection E as <-; cbn; (split; [reflexivity|]); try congruence; auto.
Qed.

Lemma works_keep (p p' : ThreadPool) :
  rtc work_step p p' -> submitted p' = submitted p /\ (phase p = Alive -> phase p' = Alive).
Proof.
  induction 1 as [x|x y z E _ [IH1 IH2]]; [auto|]. destruct (work_keeps x y E) as [E1 E2].
  split; [congruence|auto].
Qed.

Lemma work_any (p p' : ThreadPool) : rtc work_step p p' -> rtc any_step p p'.
Proof. apply rtc_subrel. intros x y (lb & _ & E). exists lb. exact E. Qed.

(** *** Stopping *)

Record stopping_ok (n : nat) (p : ThreadPool) : Prop := {
  so_ok : pool_ok n p;
  so_stop : stop_ p = true;
  so_unlocked : unlocked p = true;
  so_awake : phase p <> Stopping -> existsb is_sleeping (workers_ p) = false
}.

Lemma unlocked_moved (i : nat) (w : Worker) (p q : ThreadPool) :
  workers_ q = <[i := w]> (workers_ p) -> is_deciding w = false -> unlocked p = true -> unlocked q = true.
Proof.
  intros E Hw Hu. unfold unlocked. rewrite E. apply forallb_insert; [rewrite Hw; reflexivity|exact Hu].
Qed.

Lemma not_sleeping_moved (i : nat) (w : Worker) (ws : list Worker) :
  is_sleeping w = false -> existsb is_sleeping ws = false -> existsb is_sleeping (<[i := w]> ws) = false.
Proof.
  intros Hw H. destruct (existsb is_sleeping (<[i := w]> ws)) eqn:E; [|reflexivity].
  rewrite (existsb_insert _ _ i w Hw E) in H. discriminate.
Qed.

Lemma stopping_step (n : nat) (p p' : ThreadPool) :
  0 < n -> stopping_ok n p -> work_step p p' -> stopping_ok n p'.
Proof.
  intros Hn [Hok Hst Hu Ha] (lb & Hw & E).
  assert (Hok' : pool_ok n p') by exact (ok_step n lb p p' Hn Hok E).
  pose proof (ok_quiet _ _ Hok Hst) as Hq.
  destruct lb as [t|[i|]|i|i|i|i|i|i| | |]; try discriminate Hw; cbn [pool_step] in E.
  - rewrite Hq in E. discriminate.
  - rewrite Hq in E. discriminate.
  - destruct (workers_ p !! i) as [[]|] eqn:Ei; try discriminate.
    destruct (queue_ p) as [|t q] eqn:Eq; [discriminate|]. rewrite Hu in E. injection E as <-.
    constructor; auto; [eapply unlocked_moved; eauto; reflexivity|].
    intros H. cbn. apply not_sleeping_moved; auto.
  - rewrite Hst in E. destruct (workers_ p !! i) as [[]|]; try discriminate.
    destruct (queue_ p); [|discriminate]. rewrite andb_false_r in E. discriminate.
  - destruct (workers_ p !! i) as [[]|] eqn:Ei; try discriminate.
    rewrite (deciding_locks i p Ei) in Hu. discriminate.
  - destruct (workers_ p !! i) as [[]|] eqn:Ei; try discriminate.
    destruct (queue_ p) eqn:Eq; [|discriminate]. destruct (_ && _); [|discriminate]. injection E as <-.
    constructor; auto; [eapply unlocked_moved; eauto; reflexivity|].
    intros H. cbn. apply not_sleeping_moved; auto.
  - destruct (workers_ p !! i) as [[]|] eqn:Ei; try discriminate. injection E as <-.
    constructor; auto; [eapply unlocked_moved; eauto; reflexivity|].
    intros H. cbn. apply not_sleeping_moved; auto.
  - destruct (phase p) eqn:HS; try discriminate. injection E as <-. constructor; auto.
    + unfold unlocked. cbn. rewrite awaken_forallb by reflexivity. exact Hu.
    + intros _. cbn. clear. induction (workers_ p) as [|[] ws IH]; cbn; auto.
  - destruct (phase p) eqn:HS; try discriminate. destruct (forallb _ _); [|discriminate].
    injection E as <-. constructor; auto.
Qed.

Lemma stopping_runs (n : nat) (p p' : ThreadPool) :
  0 < n -> stopping_ok n p -> rtc work_step p p' -> stopping_ok n p'.
Proof. intros Hn H R. induction R as [x|x y z E _ IH]; [exact H|]. apply IH. exact (stopping_step n x y Hn H E). Qed.

(** When all have left, everything is done. *)
Lemma all_exited (n : nat) (p : ThreadPool) :
  0 < n -> pool_ok n p -> forallb is_exited (workers_ p) = true ->
  queue_ p = [] /\ finished p ≡ₚ submitted p.
Proof.
  intros Hn Hok Hx. pose proof Hok as [Hs Hf Hr Hd Ha He Hq Hj].
  assert (E : running (workers_ p) = []).
  { clear - Hx. induction (workers_ p) as [|[] ws IH]; try discriminate; [reflexivity|].
    rewrite running_cons. exact (IH Hx). }
  assert (Hne : queue_ p = []).
  { destruct (workers_ p) as [|w ws] eqn:Ew; [cbn in Hs; lia|]. apply He. cbn in Hx |- *.
    apply andb_true_iff in Hx as [-> _]. reflexivity. }
  split; [exact Hne|]. rewrite Hf, Hne, app_nil_r. symmetry. rewrite Hr, E, app_nil_r. reflexivity.
Qed.

End Pool.

(** ** Properties *)

(** In every interleaving, the tasks taken and the tasks waiting are, in
    this order, the tasks submitted: none is lost, doubled or overtaken; what
    has been taken is finished or being executed; and when the destructor
    returns, every task has been executed. *)
Theorem pool_runs_all {T : Type} (n : nat) (p : @ThreadPool T)
    (Hn : 0 < n) (Hp : reachable n p) :
  submitted p = started p ++ queue_ p
  /\ started p ≡ₚ finished p ++ running (workers_ p)
  /\ (phase p = Joined -> queue_ p = [] /\ finished p ≡ₚ submitted p).
Proof.
  pose proof (ok_reachable n p Hn Hp) as Hok.
  split; [exact (ok_fifo _ _ Hok)|]. split; [exact (ok_runs _ _ Hok)|].
  intros HJ. exact (all_exited n p Hn Hok (ok_joined _ _ Hok HJ)).
Qed.

(** A run of an executable schedule is one of the interleavings. *)
Lemma run_pool_steps {T : Type} (ls : list (@Label T)) (p p' : ThreadPool) :
  run_pool ls p = Some p' -> rtc any_step p p'.
Proof.
  revert p. induction ls as [|lb ls IH]; intros p E; cbn in E; [injection E as ->; apply rtc_refl|].
  destruct (pool_step lb p) as [q|] eqn:Eq; [|discriminate].
  eapply rtc_l; [exists lb; exact Eq|exact (IH q E)].
Qed.

(** Two workers, three tasks, and the end. *)
Definition three_tasks : list (@Label nat) :=
  [Check 0; Sleep 0; Submit 7; NotifyOne (Some 0); Take 1; Submit 8; NotifyOne None; Submit 9;
   NotifyOne None; Take 0; Finish 0; Take 0; Stop; Finish 1; NotifyAll; Leave 1; Finish 0; Leave 0; Join].

Lemma pool_runs_all_witness :
  exists p, run_pool three_tasks (newThreadPool 2) = Some p
    /\ phase p = Joined /\ finished p ≡ₚ [7; 8; 9].
Proof.
  destruct (run_pool three_tasks (newThreadPool 2)) as [p|] eqn:E; [|vm_compute in E; discriminate].
  exists p. split; [reflexivity|].
  destruct (pool_runs_all 2 p ltac:(lia) (run_pool_steps _ _ _ E)) as (_ & _ & J).
  vm_compute in E. injection E as <-. split; [reflexivity|]. exact (proj2 (J eq_refl)).
Defined.

(** C22. While the pool lives no wake-up is lost: from every state, whatever
    the workers and the pending notifications do, they come to rest after
    finitely many steps, and at rest every submitted task has been executed
    and all workers sleep. *)
Theorem pool_drains {T : Type} (n : nat) (p : @ThreadPool T)
    (Hn : 0 < n) (Hp : reachable n p) (Hlive : phase p = Alive) :
  sn work_step p
  /\ (forall p', rtc work_step p p' -> nf work_step p' ->
        queue_ p' = [] /\ finished p' ≡ₚ submitted p /\ forallb is_sleeping (workers_ p') = true).
Proof.
  split; [apply work_sn|]. intros p' R Hnf. destruct (works_keep _ _ R) as [<- Ha].
  apply (rest_drained p' Hnf n); [|exact (Ha Hlive)].
  apply ok_reachable; [exact Hn|]. unfold reachable in *. transitivity p; [exact Hp|exact (work_any _ _ R)].
Qed.

Lemma pool_drains_witness :
  let p := push_task 7 (newThreadPool 1) in
  sn work_step p
  /\ (forall p', rtc work_step p p' -> nf work_step p' ->
        queue_ p' = [] /\ finished p' ≡ₚ [7] /\ forallb is_sleeping (workers_ p') = true).
Proof.
  intros p. apply (pool_drains 1 p); [lia| |reflexivity].
  apply rtc_once. exists (Submit 7). reflexivity.
Defined.

(** The destructor returns, every task executed, in every interleaving in
    which no worker is between its look at [stop_] and its sleep when [stop_]
    is set. *)
Theorem clean_shutdown {T : Type} (n : nat) (p p1 : @ThreadPool T)
    (Hn : 0 < n) (Hp : reachable n p) (Hfree : unlocked p = true) (Hstop : pool_step Stop p = Some p1) :
  sn work_step p1
  /\ (forall p', rtc work_step p1 p' -> nf work_step p' ->
        phase p' = Joined /\ finished p' ≡ₚ submitted p).
Proof.
  split; [apply work_sn|]. intros p' R Hnf.
  assert (E1 : p1 = set_phase Stopping p).
  { cbn in Hstop. destruct (phase p); try discriminate. destruct (notifying p); [|discriminate].
    injection Hstop as <-. reflexivity. }
  assert (H1 : stopping_ok n p1).
  { constructor; [exact (ok_step n Stop p p1 Hn (ok_reachable n p Hn Hp) Hstop)|..]; rewrite E1;
      [reflexivity|exact Hfree|]. intros H. contradiction H. reflexivity. }
  destruct (stopping_runs n p1 p' Hn H1 R) as [Hok Hst Hu Ha].
  destruct (works_keep _ _ R) as [Es _].
  assert (HJ : phase p' = Joined).
  { unfold stop_ in Hst. destruct (phase p') eqn:HP; try discriminate; [| |reflexivity]; exfalso.
    - pose proof (no_step p' Hnf NotifyAll eq_refl) as N. cbn in N. rewrite HP in N. discriminate.
    - pose proof (no_step p' Hnf Join eq_refl) as N. cbn in N. rewrite HP in N.
      replace (forallb is_exited (workers_ p')) with true in N; [discriminate|]. symmetry.
      apply forallb_forall. intros w Hw. pose proof Hw as Hx.
      apply list_elem_of_In, list_elem_of_lookup in Hw as [i E].
      destruct (end_workers p' Hnf i w E) as [-> | ->]; [|reflexivity].
      assert (S : existsb is_sleeping (workers_ p') = true) by (apply existsb_exists; exists Sleeping; auto).
      rewrite Ha in S; discriminate. }
  split; [exact HJ|]. replace (submitted p) with (submitted p') by (rewrite Es, E1; reflexivity).
  exact (proj2 (all_exited n p' Hn Hok (ok_joined _ _ Hok HJ))).
Qed.

Lemma clean_shutdown_witness :
  let p := push_task 7 (newThreadPool 1) in
  let p1 := set_phase Stopping (notified p) in
  sn work_step p1
  /\ (forall p', rtc work_step p1 p' -> nf work_step p' -> phase p' = Joined /\ finished p' ≡ₚ [7]).
Proof.
  intros p p1. apply (clean_shutdown 1 (notified p) p1); [lia| |reflexivity|reflexivity].
  eapply rtc_l; [exists (Submit 7); reflexivity|]. apply rtc_once. exists (NotifyOne None). reflexivity.
Defined.

(** The eight workers of the 4G program: seven asleep, one about to. *)
Definition unlucky_shutdown : list (@Label nat) :=
  flat_map (fun i => [Check i; Sleep i]) (seq 1 7) ++ [Check 0; Stop; NotifyAll; Sleep 0]
  ++ map Leave (seq 1 7).

(** C23. Otherwise it can hang: the destructor sets [stop_] without the mutex,
    so a worker that has just found nothing to do can miss both the flag and
    the notification.  In the state reached here every other worker has left,
    that one sleeps, no step but a spurious wake-up is possible, and the
    destructor waits for it. *)
Theorem shutdown_can_hang :
  exists p, run_pool unlucky_shutdown (newThreadPool 8) = Some p
    /\ phase p = Notified /\ workers_ p !! 0 = Some Sleeping
    /\ (forall lb p', pool_step lb p = Some p' -> lb = Wake 0).
Proof.
  eexists. split; [vm_compute; reflexivity|]. split; [reflexivity|]. split; [reflexivity|].
  intros lb p' E.
  destruct lb as [t|[i|]|i|i|i|i|i|i| | |]; try discriminate E;
    do 8 (destruct i as [|i]; [try discriminate E; try reflexivity|]);
    discriminate E.
Qed.
