(* ===== verification/Ring.v ===== *)
(** * The single-producer single-consumer ring of the UPF fast path

    [src/5g-simulator/src/upf_fastpath/ring_buffer.h].  [push], [pop] and
    [pop_burst] are first given as whole operations, and shown to be those of a
    bounded first-in first-out queue ([holds r q] relates a ring to the queue it
    stands for).  The second half opens the operations up into their loads and
    stores, one step each, and interleaves the producer's with the consumer's:
    whatever the schedule, what the consumer has received is a prefix of what
    the producer has published, and at most [N - 1] values are in between.

    The steps are interleaved in one order that all threads see.  The
    release store of each cursor, paired with the acquire load of the other
    side, is what makes the accesses of [buf_] respect that order in the code;
    the C++ memory model itself is not part of the model. *)

From Stdlib Require Import ZArith Lia.
From stdpp Require Import relations.
From S2P Require Import Prelude.
#[local] Open Scope Z_scope.

Section ring.
(** The ring has [N = 2 ^ k] slots of type [T]. *)
Context {T : Type} `{!Inhabited T} (k : Z).

Definition slots : Z := 2 ^ k.

Record SPSCRing := { head_ : Z; tail_ : Z; buf_ : list T }.

(** The cursors are zero; the array's initial contents are never read. *)
Definition newRing : SPSCRing :=
  {| head_ := 0; tail_ := 0; buf_ := repeat inhabitant (Z.to_nat slots) |}.

Definition capacity : Z := slots - 1.

(** [x & (N - 1)] on [size_t]. *)
Definition mask (x : Z) : Z := Z.land (u64 x) (slots - 1).

Definition store_head (h : Z) (r : SPSCRing) : SPSCRing :=
  {| head_ := h; tail_ := tail_ r; buf_ := buf_ r |}.
Definition store_tail (t : Z) (r : SPSCRing) : SPSCRing :=
  {| head_ := head_ r; tail_ := t; buf_ := buf_ r |}.
Definition write_slot (h : Z) (v : T) (r : SPSCRing) : SPSCRing :=
  {| head_ := head_ r; tail_ := tail_ r; buf_ := <[Z.to_nat h := v]> (buf_ r) |}.
Definition read_slot (t : Z) (r : SPSCRing) : T := buf_ r !!! Z.to_nat t.

Definition push (v : T) (r : SPSCRing) : SPSCRing * bool :=
  let h := head_ r in
  let next_h := mask (h + 1) in
  if next_h =? tail_ r then (r, false)
  else (store_head next_h (write_slot h v r), true).

Definition pop (r : SPSCRing) : SPSCRing * option T :=
  let t := tail_ r in
  if t =? head_ r then (r, None)
  else (store_tail (mask (t + 1)) r, Some (read_slot t r)).

(** [(h - t) & (N - 1)]. *)
Definition available (h t : Z) : Z := mask (h - t).

Definition pop_burst (max : Z) (r : SPSCRing) : SPSCRing * list T :=
  let t := tail_ r in
  let h := head_ r in
  let avail := available h t in
  let n := if avail <? max then avail else max in
  let out := map (fun i => read_slot (mask (t + Z.of_nat i)) r) (seq 0 (Z.to_nat n)) in
  if 0 <? n then (store_tail (mask (t + n)) r, out) else (r, out).

Definition ring_size (r : SPSCRing) : Z := available (head_ r) (tail_ r).
Definition ring_empty (r : SPSCRing) : bool := head_ r =? tail_ r.

(** ** The steps of the two threads *)

(** Where the producer is inside [push v]. *)
Inductive producer :=
| PIdle
| PHead (v : T) (h : Z)        (* [head_] loaded *)
| PRoom (v : T) (h next : Z)   (* [tail_] loaded, not full *)
| PWritten (v : T) (next : Z). (* the slot written *)

(** Where the consumer is inside [pop_burst(out, max)]. *)
Inductive consumer :=
| CIdle
| CTail (max t : Z)             (* [tail_] loaded *)
| CRead (t n : Z) (out : list T). (* [head_] loaded, [out] copied so far *)

(** [sent]: the values whose [push] stored [head_], in order; [got]: the
    values [pop_burst] has returned. *)
Record conc := { ring : SPSCRing; prod : producer; cons : consumer;
                 sent : list T; got : list T }.

Definition start : conc :=
  {| ring := newRing; prod := PIdle; cons := CIdle; sent := []; got := [] |}.

Inductive step : conc -> conc -> Prop :=
| push_begins r c s g v :
    step {| ring := r; prod := PIdle; cons := c; sent := s; got := g |}
         {| ring := r; prod := PHead v (head_ r); cons := c; sent := s; got := g |}
| push_full r c s g v h :
    mask (h + 1) = tail_ r ->
    step {| ring := r; prod := PHead v h; cons := c; sent := s; got := g |}
         {| ring := r; prod := PIdle; cons := c; sent := s; got := g |}
| push_room r c s g v h :
    mask (h + 1) <> tail_ r ->
    step {| ring := r; prod := PHead v h; cons := c; sent := s; got := g |}
         {| ring := r; prod := PRoom v h (mask (h + 1)); cons := c; sent := s; got := g |}
| push_writes r c s g v h next :
    step {| ring := r; prod := PRoom v h next; cons := c; sent := s; got := g |}
         {| ring := write_slot h v r; prod := PWritten v next; cons := c; sent := s; got := g |}
| push_publishes r c s g v next :
    step {| ring := r; prod := PWritten v next; cons := c; sent := s; got := g |}
         {| ring := store_head next r; prod := PIdle; cons := c; sent := s ++ [v]; got := g |}
| pop_begins r p s g max :
    0 <= max ->
    step {| ring := r; prod := p; cons := CIdle; sent := s; got := g |}
         {| ring := r; prod := p; cons := CTail max (tail_ r); sent := s; got := g |}
| pop_counts r p s g max t :
    step {| ring := r; prod := p; cons := CTail max t; sent := s; got := g |}
         {| ring := r; prod := p;
            cons := CRead t (if available (head_ r) t <? max then available (head_ r) t else max) [];
            sent := s; got := g |}
| pop_copies r p s g t n out :
    Z.of_nat (length out) < n ->
    step {| ring := r; prod := p; cons := CRead t n out; sent := s; got := g |}
         {| ring := r; prod := p;
            cons := CRead t n (out ++ [read_slot (mask (t + Z.of_nat (length out))) r]);
            sent := s; got := g |}
| pop_nothing r p s g t out :
    step {| ring := r; prod := p; cons := CRead t 0 out; sent := s; got := g |}
         {| ring := r; prod := p; cons := CIdle; sent := s; got := g |}
| pop_releases r p s g t n out :
    0 < n -> n <= Z.of_nat (length out) ->
    step {| ring := r; prod := p; cons := CRead t n out; sent := s; got := g |}
         {| ring := store_tail (mask (t + n)) r; prod := p; cons := CIdle;
            sent := s; got := g ++ out |}.

(** ** The queue a ring stands for *)

Hypothesis k_range : 0 < k <= 64.

Record holds (r : SPSCRing) (q : list T) : Prop := {
  holds_buf : Z.of_nat (length (buf_ r)) = slots;
  holds_tail : 0 <= tail_ r < slots;
  holds_head : head_ r = (tail_ r + Z.of_nat (length q)) mod slots;
  holds_room : Z.of_nat (length q) < slots;
  holds_items i v : q !! i = Some v ->
    buf_ r !! Z.to_nat ((tail_ r + Z.of_nat i) mod slots) = Some v }.

Lemma slots_pos : 1 < slots.
Proof. unfold slots. apply Z.pow_gt_1; lia. Qed.

Lemma mask_mod (x : Z) : mask x = x mod slots.
Proof.
  unfold mask, slots. rewrite Z.sub_1_r, <- Z.ones_equiv.
  rewrite Z.land_ones by lia. unfold u64, wrap.
  replace (2 ^ 64) with (2 ^ k * 2 ^ (64 - k)) by (rewrite <- Z.pow_add_r by lia; f_equal; lia).
  rewrite Z.rem_mul_r by (try apply Z.pow_nonzero; lia).
  rewrite Z.mul_comm, Z_mod_plus_full. apply Zmod_mod.
Qed.

Lemma slot_range (x : Z) : 0 <= x mod slots < slots.
Proof. apply Z.mod_pos_bound. pose proof slots_pos. lia. Qed.

Lemma mask_range (x : Z) : 0 <= mask x < slots.
Proof. rewrite mask_mod. apply slot_range. Qed.

(** Two offsets less than [N] apart share a slot only when they are equal. *)
Lemma slot_inj (a i j : Z) :
  0 <= i < slots -> 0 <= j < slots -> (a + i) mod slots = (a + j) mod slots -> i = j.
Proof.
  intros Hi Hj E. pose proof slots_pos.
  assert (D : ((a + i) - (a + j)) mod slots = 0) by (rewrite Zminus_mod, E, Z.sub_diag; reflexivity).
  apply Z.mod_divide in D; [|lia]. destruct D as [m D].
  assert (m = 0) by nia. lia.
Qed.

Lemma new_holds : holds newRing [].
Proof.
  pose proof slots_pos. split; simpl; try lia.
  - rewrite repeat_length. lia.
  - rewrite Z.mod_small; lia.
  - intros i v. rewrite lookup_nil. discriminate.
Qed.

(** The full test of [push]. *)
Lemma holds_full (r : SPSCRing) (q : list T) :
  holds r q -> (mask (head_ r + 1) = tail_ r <-> Z.of_nat (length q) = capacity).
Proof.
  intros [Hb Ht Hh Hr _]. pose proof slots_pos. unfold capacity.
  rewrite mask_mod, Hh, Zplus_mod_idemp_l.
  rewrite <- (Z.mod_small (tail_ r) slots) at 2 by lia. rewrite <- Z.add_assoc.
  split; intros E.
  - destruct (decide (Z.of_nat (length q) + 1 = slots)) as [|Hn]; [lia|].
    rewrite <- (Z.add_0_r (tail_ r)) in E at 2. apply slot_inj in E; lia.
  - replace (Z.of_nat (length q) + 1) with (1 * slots) by lia. apply Z_mod_plus_full.
Qed.

(** The count of [pop_burst] and of [size]. *)
Lemma holds_available (r : SPSCRing) (q : list T) :
  holds r q -> available (head_ r) (tail_ r) = Z.of_nat (length q).
Proof.
  intros [Hb Ht Hh Hr _]. unfold available. rewrite mask_mod, Hh, Zminus_mod_idemp_l.
  replace (tail_ r + Z.of_nat (length q) - tail_ r) with (Z.of_nat (length q)) by lia.
  apply Z.mod_small. lia.
Qed.

Lemma holds_empty (r : SPSCRing) (q : list T) : holds r q -> (head_ r = tail_ r <-> q = []).
Proof.
  intros [Hb Ht Hh Hr _]. rewrite Hh. split.
  - intros E. rewrite <- (Z.mod_small (tail_ r) slots) in E at 2 by lia.
    rewrite <- (Z.add_0_r (tail_ r)) in E at 2. apply slot_inj in E; [|lia..].
    destruct q; [reflexivity | simpl in E; lia].
  - intros ->. rewrite Z.add_0_r. apply Z.mod_small. lia.
Qed.

Lemma holds_read (r : SPSCRing) (q : list T) (i : nat) (v : T) :
  holds r q -> q !! i = Some v -> read_slot (mask (tail_ r + Z.of_nat i)) r = v.
Proof.
  intros H Hi. unfold read_slot. rewrite mask_mod.
  apply list_lookup_total_correct. exact (holds_items _ _ H i v Hi).
Qed.

(** The producer's slot is outside the queue while there is room. *)
Lemma holds_write (r : SPSCRing) (q : list T) (v : T) :
  holds r q ->
  holds (write_slot (head_ r) v r) q /\
  buf_ (write_slot (head_ r) v r) !! Z.to_nat (head_ r) = Some v.
Proof.
  intros [Hb Ht Hh Hr Hi]. split.
  - split; simpl; [rewrite length_insert; exact Hb | exact Ht | exact Hh | exact Hr |].
    intros i w E. pose proof (lookup_lt_Some _ _ _ E) as Hl. rewrite list_lookup_insert_ne; [exact (Hi i w E)|].
    intros C. rewrite Hh in C. apply Z2Nat.inj in C; [|apply slot_range..].
    apply slot_inj in C; lia.
  - simpl. apply list_lookup_insert_eq. rewrite Hh in *.
    pose proof (slot_range (tail_ r + Z.of_nat (length q))). lia.
Qed.

Lemma holds_publish (r : SPSCRing) (q : list T) (v : T) :
  holds r q -> buf_ r !! Z.to_nat (head_ r) = Some v -> Z.of_nat (length q) < capacity ->
  holds (store_head (mask (head_ r + 1)) r) (q ++ [v]).
Proof.
  intros [Hb Ht Hh Hr Hi] Hv Hc. unfold capacity in Hc.
  split; simpl; rewrite ?length_app; simpl; [exact Hb | exact Ht | | lia |].
  - rewrite mask_mod, Hh, Zplus_mod_idemp_l. f_equal. lia.
  - intros i w E. apply lookup_app_Some in E as [E | [Hl E]]; [exact (Hi i w E)|].
    apply list_lookup_singleton_Some in E as [Ei <-].
    replace i with (length q) by lia. rewrite <- Hh. exact Hv.
Qed.

Lemma holds_release (r : SPSCRing) (q : list T) (n : Z) :
  holds r q -> 0 <= n <= Z.of_nat (length q) ->
  holds (store_tail (mask (tail_ r + n)) r) (drop (Z.to_nat n) q).
Proof.
  intros [Hb Ht Hh Hr Hi] Hn.
  split; simpl; rewrite ?length_drop; [exact Hb | apply mask_range | | lia |].
  - rewrite mask_mod, Zplus_mod_idemp_l, Hh. f_equal. lia.
  - intros i v E. rewrite lookup_drop in E. apply Hi in E.
    rewrite mask_mod, Zplus_mod_idemp_l. rewrite <- E. do 3 f_equal. lia.
Qed.

(** ** The whole operations are those of the queue *)

Lemma push_spec (v : T) (r : SPSCRing) (q : list T) :
  holds r q ->
  let ok := Z.of_nat (length q) <? capacity in
  snd (push v r) = ok /\ holds (fst (push v r)) (if ok then q ++ [v] else q).
Proof.
  intros H. pose proof (holds_full r q H) as F. pose proof (holds_room _ _ H) as R.
  unfold push, capacity in *. cbv zeta.
  destruct (Z.eqb_spec (mask (head_ r + 1)) (tail_ r)) as [E|E];
    destruct (Z.ltb_spec (Z.of_nat (length q)) (slots - 1)); try (exfalso; intuition lia).
  - split; [reflexivity | exact H].
  - split; [reflexivity|]. destruct (holds_write r q v H) as [Hw Hs].
    exact (holds_publish _ q v Hw Hs ltac:(unfold capacity; lia)).
Qed.

Lemma pop_spec (r : SPSCRing) (q : list T) :
  holds r q -> snd (pop r) = head q /\ holds (fst (pop r)) (tail q).
Proof.
  intros H. pose proof (holds_empty r q H) as E. unfold pop. cbv zeta.
  destruct (Z.eqb_spec (tail_ r) (head_ r)) as [e|e].
  - destruct q; [split; [reflexivity | exact H] | symmetry in e; apply E in e; discriminate].
  - destruct q as [|v q]; [destruct e; symmetry; apply E; reflexivity|].
    pose proof (holds_read r (v :: q) 0 v H eq_refl) as R. rewrite Z.add_0_r in R.
    assert (Ht : mask (tail_ r) = tail_ r)
      by (rewrite mask_mod; apply Z.mod_small, (holds_tail _ _ H)).
    rewrite Ht in R. simpl. split; [rewrite R; reflexivity|].
    apply (holds_release r (v :: q) 1 H). simpl. lia.
Qed.

Lemma read_burst (r : SPSCRing) (q : list T) (n : nat) :
  holds r q -> (n <= length q)%nat ->
  map (fun i => read_slot (mask (tail_ r + Z.of_nat i)) r) (seq 0 n) = take n q.
Proof.
  intros H. induction n as [|n IH]; intros Hn; [reflexivity|].
  destruct (lookup_lt_is_Some_2 q n ltac:(lia)) as [v Hv].
  rewrite seq_S, map_app, IH by lia. simpl. rewrite (holds_read r q n v H Hv).
  symmetry. apply take_S_r. exact Hv.
Qed.

Lemma take_min (q : list T) (n : nat) : take (n `min` length q) q = take n q.
Proof. rewrite <- take_take. f_equal. apply firstn_all. Qed.

Lemma burst_count (a max : Z) : (if a <? max then a else max) = Z.min max a.
Proof. destruct (Z.ltb_spec a max); lia. Qed.

Lemma pop_burst_spec (max : nat) (r : SPSCRing) (q : list T) :
  holds r q ->
  snd (pop_burst (Z.of_nat max) r) = take max q /\
  holds (fst (pop_burst (Z.of_nat max) r)) (drop max q).
Proof.
  intros H. unfold pop_burst. cbv zeta. rewrite (holds_available r q H), burst_count.
  rewrite <- Nat2Z.inj_min. rewrite Nat2Z.id, (read_burst r q) by (exact H || lia).
  rewrite take_min.
  assert (D : drop (max `min` length q) q = drop max q).
  { destruct (Nat.le_ge_cases max (length q)); [f_equal; lia|].
    rewrite !drop_ge; [reflexivity | lia | lia]. }
  destruct (Z.ltb_spec 0 (Z.of_nat (max `min` length q))); simpl.
  - split; [reflexivity|]. rewrite <- D.
    replace (max `min` length q)%nat with (Z.to_nat (Z.of_nat (max `min` length q))) at 2 by lia.
    apply holds_release; [exact H | lia].
  - split; [reflexivity|]. rewrite <- D. replace (max `min` length q)%nat with 0%nat by lia.
    exact H.
Qed.

Inductive op := Push (v : T) | Pop | Burst (max : nat) | Size.
Inductive answer := Pushed (ok : bool) | Popped (v : option T) | Bursted (vs : list T) | Sized (n : Z).

Definition ring_op (o : op) (r : SPSCRing) : SPSCRing * answer :=
  match o with
  | Push v => let (r', ok) := push v r in (r', Pushed ok)
  | Pop => let (r', v) := pop r in (r', Popped v)
  | Burst max => let (r', vs) := pop_burst (Z.of_nat max) r in (r', Bursted vs)
  | Size => (r, Sized (ring_size r))
  end.

(** The contract: a queue of at most [capacity] values. *)
Definition queue_op (o : op) (q : list T) : list T * answer :=
  match o with
  | Push v => if Z.of_nat (length q) <? capacity then (q ++ [v], Pushed true) else (q, Pushed false)
  | Pop => (tail q, Popped (head q))
  | Burst max => (drop max q, Bursted (take max q))
  | Size => (q, Sized (Z.of_nat (length q)))
  end.

Fixpoint run_ops {S A : Type} (f : op -> S -> S * A) (ops : list op) (s : S) : list A :=
  match ops with
  | [] => []
  | o :: rest => let (s', a) := f o s in a :: run_ops f rest s'
  end.

Lemma ring_op_spec (o : op) (r : SPSCRing) (q : list T) :
  holds r q ->
  snd (ring_op o r) = snd (queue_op o q) /\ holds (fst (ring_op o r)) (fst (queue_op o q)).
Proof.
  intros H. destruct o as [v| |max|]; simpl.
  - pose proof (push_spec v r q H) as [E P]. destruct (push v r). simpl in *. subst b.
    destruct (_ <? _); auto.
  - pose proof (pop_spec r q H) as [E P]. destruct (pop r). simpl in *. subst. auto.
  - pose proof (pop_burst_spec max r q H) as [E P]. destruct (pop_burst _ r). simpl in *. subst. auto.
  - unfold ring_size. rewrite (holds_available r q H). auto.
Qed.

Lemma run_ops_holds (ops : list op) (r : SPSCRing) (q : list T) :
  holds r q -> run_ops ring_op ops r = run_ops queue_op ops q.
Proof.
  revert r q. induction ops as [|o ops IH]; intros r q H; [reflexivity|].
  simpl. destruct (ring_op_spec o r q H) as [E P].
  destruct (ring_op o r), (queue_op o q). simpl in *. subst. f_equal. apply IH. exact P.
Qed.

(** ** Interleaved, the values still come out in order *)

(** What the producer knows at each point of [push]. *)
Definition producer_ok (r : SPSCRing) (q : list T) (p : producer) : Prop :=
  match p with
  | PIdle => True
  | PHead _ h => h = head_ r
  | PRoom _ h next => h = head_ r /\ next = mask (h + 1) /\ Z.of_nat (length q) < capacity
  | PWritten v next =>
      next = mask (head_ r + 1) /\ buf_ r !! Z.to_nat (head_ r) = Some v /\
      Z.of_nat (length q) < capacity
  end.

(** What the consumer knows at each point of [pop_burst]. *)
Definition consumer_ok (r : SPSCRing) (q : list T) (c : consumer) : Prop :=
  match c with
  | CIdle => True
  | CTail max t => 0 <= max /\ t = tail_ r
  | CRead t n out =>
      t = tail_ r /\ 0 <= n <= Z.of_nat (length q) /\ Z.of_nat (length out) <= n /\
      out = take (length out) q
  end.

Definition conc_ok (c : conc) : Prop :=
  exists q, sent c = got c ++ q /\ holds (ring c) q /\
            producer_ok (ring c) q (prod c) /\ consumer_ok (ring c) q (cons c).

Lemma conc_ok_start : conc_ok start.
Proof. exists []. split; [reflexivity|]. split; [exact new_holds|]. split; exact I. Qed.

Lemma consumer_ok_publish (r : SPSCRing) (q : list T) (v : T) (h : Z) (c : consumer) :
  consumer_ok r q c -> consumer_ok (store_head h r) (q ++ [v]) c.
Proof.
  destruct c as [|max t|t n out]; simpl; [auto..|].
  intros (-> & Hn & Ho & E). rewrite length_app. simpl. repeat split; try lia.
  rewrite take_app_le by lia. exact E.
Qed.

Lemma producer_ok_release (r : SPSCRing) (q : list T) (n : nat) (t : Z) (p : producer) :
  producer_ok r q p -> producer_ok (store_tail t r) (drop n q) p.
Proof.
  pose proof (length_drop q n) as L.
  destruct p as [|v h|v h next|v next]; simpl; [auto..| |]; rewrite L;
    intros (? & ? & ?); repeat split; auto; lia.
Qed.

Lemma full_step (r : SPSCRing) (q : list T) :
  holds r q -> mask (head_ r + 1) <> tail_ r -> Z.of_nat (length q) < capacity.
Proof.
  intros H Hn. pose proof (holds_full r q H). pose proof (holds_room _ _ H).
  unfold capacity in *. lia.
Qed.

Lemma copy_step (r : SPSCRing) (q : list T) (t n : Z) (out : list T) :
  holds r q -> consumer_ok r q (CRead t n out) -> Z.of_nat (length out) < n ->
  consumer_ok r q (CRead t n (out ++ [read_slot (mask (t + Z.of_nat (length out))) r])).
Proof.
  intros H (-> & Hn & Ho & E) Hl. simpl. rewrite length_app. simpl.
  destruct (lookup_lt_is_Some_2 q (length out) ltac:(lia)) as [v Hv].
  repeat split; [lia..|].
  rewrite (holds_read r q _ v H Hv), Nat.add_1_r, (take_S_r q _ v Hv), <- E. reflexivity.
Qed.

Lemma count_step (r : SPSCRing) (q : list T) (max t : Z) :
  holds r q -> consumer_ok r q (CTail max t) ->
  consumer_ok r q (CRead t (if available (head_ r) t <? max then available (head_ r) t else max) []).
Proof.
  intros H [Hm ->]. simpl. rewrite (holds_available r q H), burst_count. repeat split; lia.
Qed.

(** Close a case with the queue [q]. *)
Ltac with_queue q := exists q; refine (conj _ (conj _ (conj _ _))); simpl; auto.

Lemma step_ok (c c' : conc) : conc_ok c -> step c c' -> conc_ok c'.
Proof.
  intros (q & E & H & P & C) St. destruct St; simpl in *.
  - with_queue q.
  - with_queue q.
  - subst h. with_queue q. eauto using full_step.
  - destruct P as (-> & -> & Hc). destruct (holds_write r q v H) as [Hw Hs].
    with_queue q.
  - destruct P as (-> & Hs & Hc). with_queue (q ++ [v]).
    + rewrite E. symmetry. apply app_assoc.
    + apply holds_publish; assumption.
    + apply consumer_ok_publish. exact C.
  - with_queue q.
  - pose proof (count_step r q max t H C). with_queue q.
  - pose proof (copy_step r q t n out H C ltac:(assumption)). with_queue q.
  - with_queue q.
  - destruct C as (-> & Hn & Ho & Eo). with_queue (drop (Z.to_nat n) q).
    + rewrite E, Eo, <- app_assoc. f_equal.
      replace (Z.to_nat n) with (length out) by lia. symmetry. apply take_drop.
    + apply holds_release; auto.
    + apply producer_ok_release. exact P.
Qed.

Lemma reachable_ok (c : conc) : rtc step start c -> conc_ok c.
Proof. apply (rtc_ind_r conc_ok); [exact conc_ok_start | eauto using step_ok]. Qed.
End ring.

(** In front of its clients the ring is a queue of at most [N - 1] values:
    whatever the sequence of pushes, pops, bursts and size queries, it answers
    what the queue answers, the one wrapping its cursors round an array of
    [N = 2 ^ k] slots and the other being a list. *)
Theorem ring_refines_queue {T : Type} `{!Inhabited T} (k : Z) (ops : list (@op T)) :
  0 < k <= 64 -> run_ops (ring_op k) ops (newRing k) = run_ops (queue_op k) ops [].
Proof. intros Hk. apply run_ops_holds; [exact Hk | apply new_holds; exact Hk]. Qed.

Lemma ring_refines_queue_witness :
  run_ops (ring_op 1) [Push 7; Push 8; Size; Burst 4; Push 9; Pop; Pop] (newRing 1)
  = run_ops (queue_op 1) [Push 7; Push 8; Size; Burst 4; Push 9; Pop; Pop] ([] : list Z).
Proof. apply ring_refines_queue. lia. Defined.

(** C16. Producer and consumer interleaved at the granularity of their loads and
    stores, in any schedule: what the bursts have returned is, in order and
    without loss or repetition, a prefix of what the pushes have published;
    never more than [N - 1] values are in the ring; and when the consumer finds
    the cursors equal it has received everything. *)
Theorem ring_interleaved_fifo {T : Type} `{!Inhabited T} (k : Z) (c : @conc T) :
  0 < k <= 64 -> rtc (step k) (start k) c ->
  got c `prefix_of` sent c /\
  Z.of_nat (length (sent c)) - Z.of_nat (length (got c)) <= capacity k /\
  (ring_empty (ring c) = true <-> got c = sent c).
Proof.
  intros Hk R. destruct (reachable_ok k Hk c R) as (q & S & H & _ & _). rewrite S.
  split; [exists q; reflexivity|].
  split; [rewrite length_app; pose proof (holds_room _ _ _ H); unfold capacity; lia|].
  unfold ring_empty. rewrite Z.eqb_eq, (holds_empty k Hk _ _ H). split.
  - intros ->. symmetry. apply app_nil_r.
  - intros E. apply (f_equal length) in E. rewrite length_app in E.
    apply length_zero_iff_nil. lia.
Qed.

(** The state after a push that published while a burst was under way: that
    burst had counted an empty ring, and a second one received the value. *)
Definition overlapped : @conc Z :=
  {| ring := {| head_ := 1; tail_ := 1; buf_ := [7; inhabitant] |};
     prod := PIdle; cons := CIdle; sent := [7]; got := [7] |}.

Lemma overlapped_reachable : rtc (step 1) (start 1) overlapped.
Proof.
  eapply rtc_l; [apply (push_begins 1) with (v := 7)|].
  eapply rtc_l; [apply push_room; vm_compute; discriminate|].
  eapply rtc_l; [apply pop_begins with (max := 4); lia|].
  eapply rtc_l; [apply push_writes|].
  eapply rtc_l; [apply pop_counts|].
  eapply rtc_l; [apply push_publishes|].
  eapply rtc_l; [apply pop_nothing|].
  eapply rtc_l; [apply pop_begins with (max := 4); lia|].
  eapply rtc_l; [apply pop_counts|].
  eapply rtc_l; [apply pop_copies; vm_compute; reflexivity|].
  eapply rtc_l; [apply pop_releases; vm_compute; [reflexivity | discriminate]|].
  vm_compute. apply rtc_refl.
Qed.

Lemma ring_interleaved_fifo_witness :
  got overlapped `prefix_of` sent overlapped /\
  Z.of_nat (length (sent overlapped)) - Z.of_nat (length (got overlapped)) <= capacity 1 /\
  (ring_empty (ring overlapped) = true <-> got overlapped = sent overlapped).
Proof. apply (ring_interleaved_fifo 1); [lia | exact overlapped_reachable]. Defined.
