(* ===== verification/Fastpath.v ===== *)
(** * The user-plane fast path of the 5G simulator

    [src/5g-simulator/src/upf_fastpath]: packets ([packet.h]), rule tables
    ([pfcp_rules.h]), packet buffers ([mbuf_pool.h]), counters ([stats.h]) and
    the two forwarding paths, the polling one ([dpdk_path.h], over the ring of
    [Ring.v]) and the blocking one ([socket_path.h]).  Both are shown to
    implement one specification, a bounded queue in front of the
    PDR / QER / FAR pipeline, the polling one as long as its pool of buffers has
    not wrapped; what happens at the wrap is a theorem too.

    A pointer to a buffer is its index in the pool.  The clock is an argument of
    the operations that read it.  The threads of the blocking path are cut
    where they meet: at the mutex, at the test of the predicate, at the wait,
    at the notifications and at the steps of [stop].  Producer and worker of
    the polling path interleave as whole operations here;
    [Ring.ring_interleaved_fifo] opens the ring's up. *)

From Stdlib Require Import ZArith Lia.
From stdpp Require Import sorting.
From S2P Require Import Prelude Ring.
#[local] Open Scope Z_scope.

(** ** Packets *)

Inductive Direction := UL | DL.
#[global] Instance Direction_eq_dec : EqDecision Direction.
Proof. solve_decision. Defined.

Record Packet := {
  p_teid : Z; p_ue_ip : Z; p_dscp : Z; p_payload_len : Z; p_arrival_ns : Z; p_qfi : Z;
  p_pdr_id : Z; p_far_id : Z; p_classified : bool; p_dropped : bool; p_seq : Z; p_dir : Direction }.

Definition newPacket : Packet :=
  {| p_teid := 0; p_ue_ip := 0; p_dscp := 0; p_payload_len := 0; p_arrival_ns := 0; p_qfi := 0;
     p_pdr_id := 0; p_far_id := 0; p_classified := false; p_dropped := false; p_seq := 0;
     p_dir := UL |}.

(** The classifier's marks. *)
Definition classify (pdr far : Z) (p : Packet) : Packet :=
  {| p_teid := p_teid p; p_ue_ip := p_ue_ip p; p_dscp := p_dscp p;
     p_payload_len := p_payload_len p; p_arrival_ns := p_arrival_ns p; p_qfi := p_qfi p;
     p_pdr_id := pdr; p_far_id := far; p_classified := true; p_dropped := p_dropped p;
     p_seq := p_seq p; p_dir := p_dir p |}.

Definition mark_dropped (p : Packet) : Packet :=
  {| p_teid := p_teid p; p_ue_ip := p_ue_ip p; p_dscp := p_dscp p;
     p_payload_len := p_payload_len p; p_arrival_ns := p_arrival_ns p; p_qfi := p_qfi p;
     p_pdr_id := p_pdr_id p; p_far_id := p_far_id p; p_classified := p_classified p;
     p_dropped := true; p_seq := p_seq p; p_dir := p_dir p |}.

(** ** Rules *)

Record PDR := {
  pdr_pdr_id : Z; pdr_teid : Z; pdr_ue_ip : Z; pdr_dir : Direction;
  pdr_far_id : Z; pdr_qer_id : Z; pdr_precedence : Z }.

Inductive FarAction := FORWARD | DROP | BUFFER.

Record FAR := {
  far_far_id : Z; far_action : FarAction; far_dst_ip : Z; far_dst_port : Z; far_encap_gtpu : bool }.

Record QER := {
  qer_qer_id : Z; qer_qfi : Z; qer_ul_mbr_kbps : Z; qer_dl_mbr_kbps : Z;
  qer_ul_gbr_kbps : Z; qer_dl_gbr_kbps : Z }.

Record RuleTable := {
  pdrs_ : gmap Z PDR; fars_ : gmap Z FAR; qers_ : gmap Z QER;
  teid_to_pdr_ : gmap Z Z; ueip_to_pdr_ : gmap Z Z }.

Definition newRules : RuleTable :=
  {| pdrs_ := ∅; fars_ := ∅; qers_ := ∅; teid_to_pdr_ := ∅; ueip_to_pdr_ := ∅ |}.

Definition add_pdr (pdr : PDR) (rt : RuleTable) : RuleTable :=
  {| pdrs_ := <[pdr_pdr_id pdr := pdr]> (pdrs_ rt); fars_ := fars_ rt; qers_ := qers_ rt;
     teid_to_pdr_ := match pdr_dir pdr with
                     | UL => <[pdr_teid pdr := pdr_pdr_id pdr]> (teid_to_pdr_ rt)
                     | DL => teid_to_pdr_ rt
                     end;
     ueip_to_pdr_ := match pdr_dir pdr with
                     | UL => ueip_to_pdr_ rt
                     | DL => <[pdr_ue_ip pdr := pdr_pdr_id pdr]> (ueip_to_pdr_ rt)
                     end |}.

Definition add_far (far : FAR) (rt : RuleTable) : RuleTable :=
  {| pdrs_ := pdrs_ rt; fars_ := <[far_far_id far := far]> (fars_ rt); qers_ := qers_ rt;
     teid_to_pdr_ := teid_to_pdr_ rt; ueip_to_pdr_ := ueip_to_pdr_ rt |}.

Definition add_qer (qer : QER) (rt : RuleTable) : RuleTable :=
  {| pdrs_ := pdrs_ rt; fars_ := fars_ rt; qers_ := <[qer_qer_id qer := qer]> (qers_ rt);
     teid_to_pdr_ := teid_to_pdr_ rt; ueip_to_pdr_ := ueip_to_pdr_ rt |}.

Definition match_pdr (rt : RuleTable) (pkt : Packet) : option PDR :=
  match (match p_dir pkt with
         | UL => teid_to_pdr_ rt !! p_teid pkt
         | DL => ueip_to_pdr_ rt !! p_ue_ip pkt
         end) with
  | None => None
  | Some pdr_id => pdrs_ rt !! pdr_id
  end.

Definition get_far (rt : RuleTable) (far_id : Z) : option FAR := fars_ rt !! far_id.
Definition get_qer (rt : RuleTable) (qer_id : Z) : option QER := qers_ rt !! qer_id.

(** ** The demonstration rules *)

Definition ip4 (a b c d : Z) : Z :=
  Z.lor (Z.lor (Z.lor (u32 (Z.shiftl a 24)) (Z.shiftl b 16)) (Z.shiftl c 8)) d.

Definition base_ue_ip : Z := ip4 10 45 0 1.
Definition base_teid : Z := 1000.
Definition n6_gw_ip : Z := ip4 8 8 8 8.
Definition gnb_n3_ip : Z := ip4 10 10 0 1.

Definition qfi_cycle : list Z := [1; 2; 9].
Definition mbr_ul : list Z := [64; 4000; 100000].
Definition mbr_dl : list Z := [64; 8000; 100000].
Definition gbr_ul : list Z := [64; 2000; 0].
Definition gbr_dl : list Z := [64; 4000; 0].

Definition demo_pdr (dir : Direction) (i : Z) : PDR :=
  {| pdr_pdr_id := u32 (2 * i + match dir with UL => 1 | DL => 2 end);
     pdr_teid := u32 (base_teid + i); pdr_ue_ip := u32 (base_ue_ip + i); pdr_dir := dir;
     pdr_far_id := u32 (2 * i + match dir with UL => 1 | DL => 2 end);
     pdr_qer_id := u32 (i + 1); pdr_precedence := 100 |}.

Definition demo_far (dir : Direction) (i : Z) : FAR :=
  match dir with
  | UL => {| far_far_id := u32 (2 * i + 1); far_action := FORWARD; far_dst_ip := n6_gw_ip;
             far_dst_port := 0; far_encap_gtpu := false |}
  | DL => {| far_far_id := u32 (2 * i + 2); far_action := FORWARD; far_dst_ip := gnb_n3_ip;
             far_dst_port := 2152; far_encap_gtpu := true |}
  end.

Definition demo_qer (i : Z) : QER :=
  let qi := Z.to_nat (i mod 3) in
  {| qer_qer_id := u32 (i + 1); qer_qfi := qfi_cycle !!! qi;
     qer_ul_mbr_kbps := mbr_ul !!! qi; qer_dl_mbr_kbps := mbr_dl !!! qi;
     qer_ul_gbr_kbps := gbr_ul !!! qi; qer_dl_gbr_kbps := gbr_dl !!! qi |}.

(** One turn of the loop. *)
Definition add_demo_ue (rt : RuleTable) (i : nat) : RuleTable :=
  let i := Z.of_nat i in
  add_qer (demo_qer i)
    (add_far (demo_far DL i) (add_far (demo_far UL i)
      (add_pdr (demo_pdr DL i) (add_pdr (demo_pdr UL i) rt)))).

Definition build_demo_rules (num_ues : Z) : RuleTable :=
  fold_left add_demo_ue (seq 0 (Z.to_nat num_ues)) newRules.

(** ** Packet buffers *)

Record Mbuf := { pkt : Packet; in_use : bool }.
#[global] Instance Mbuf_inhabited : Inhabited Mbuf := populate {| pkt := newPacket; in_use := false |}.

Record MbufPool := { pool_ : list Mbuf; next_ : Z }.

Definition newPool (n : nat) : MbufPool := {| pool_ := repeat inhabitant n; next_ := 0 |}.

Definition pool_size (mp : MbufPool) : Z := Z.of_nat (length (pool_ mp)).

Definition set_in_use (b : bool) (m : Mbuf) : Mbuf := {| pkt := pkt m; in_use := b |}.
Definition set_pkt (p : Packet) (m : Mbuf) : Mbuf := {| pkt := p; in_use := in_use m |}.

Definition alter_mbuf (f : Mbuf -> Mbuf) (m : nat) (mp : MbufPool) : MbufPool :=
  {| pool_ := alter f m (pool_ mp); next_ := next_ mp |}.

(** [alloc]: the pointer is the index of the buffer. *)
Definition alloc (mp : MbufPool) : MbufPool * nat :=
  let idx := next_ mp in
  let mp := {| pool_ := pool_ mp; next_ := u32 (next_ mp + 1) |} in
  let (mp, idx) := if pool_size mp <=? idx then ({| pool_ := pool_ mp; next_ := 0 |}, 0) else (mp, idx) in
  (alter_mbuf (set_in_use true) (Z.to_nat idx) mp, Z.to_nat idx).

Definition free_mbuf (m : nat) (mp : MbufPool) : MbufPool := alter_mbuf (set_in_use false) m mp.

(** ** Counters *)

Definition RESERVOIR_SIZE : Z := 100000.

Record Counters := { pkts_rx : Z; pkts_forwarded : Z; pkts_dropped : Z; pkts_no_pdr : Z }.

Record PathStats := { counters : Counters; latencies : list Z; sample_idx : Z }.

Definition noCounters : Counters :=
  {| pkts_rx := 0; pkts_forwarded := 0; pkts_dropped := 0; pkts_no_pdr := 0 |}.

Definition newStats : PathStats :=
  {| counters := noCounters; latencies := repeat 0 (Z.to_nat RESERVOIR_SIZE); sample_idx := 0 |}.

Definition count_rx (c : Counters) : Counters :=
  {| pkts_rx := u64 (pkts_rx c + 1); pkts_forwarded := pkts_forwarded c;
     pkts_dropped := pkts_dropped c; pkts_no_pdr := pkts_no_pdr c |}.
Definition count_forwarded (c : Counters) : Counters :=
  {| pkts_rx := pkts_rx c; pkts_forwarded := u64 (pkts_forwarded c + 1);
     pkts_dropped := pkts_dropped c; pkts_no_pdr := pkts_no_pdr c |}.
Definition count_dropped (c : Counters) : Counters :=
  {| pkts_rx := pkts_rx c; pkts_forwarded := pkts_forwarded c;
     pkts_dropped := u64 (pkts_dropped c + 1); pkts_no_pdr := pkts_no_pdr c |}.
Definition count_no_pdr (c : Counters) : Counters :=
  {| pkts_rx := pkts_rx c; pkts_forwarded := pkts_forwarded c;
     pkts_dropped := pkts_dropped c; pkts_no_pdr := u64 (pkts_no_pdr c + 1) |}.

Definition count (f : Counters -> Counters) (s : PathStats) : PathStats :=
  {| counters := f (counters s); latencies := latencies s; sample_idx := sample_idx s |}.

Definition record_latency (arrival_ns now_ns_val : Z) (s : PathStats) : PathStats :=
  if now_ns_val <=? arrival_ns then s
  else
    let lat := now_ns_val - arrival_ns in
    let idx := sample_idx s mod RESERVOIR_SIZE in
    {| counters := counters s; latencies := <[Z.to_nat idx := lat]> (latencies s);
       sample_idx := u64 (sample_idx s + 1) |}.

Record Percentiles := { p50_ns : Z; p95_ns : Z; p99_ns : Z; avg_ns : Z; min_ns : Z; max_ns : Z }.

Definition compute_percentiles (s : PathStats) : Percentiles :=
  let filled := Z.min (sample_idx s) RESERVOIR_SIZE in
  if filled =? 0 then
    {| p50_ns := 0; p95_ns := 0; p99_ns := 0; avg_ns := 0; min_ns := 0; max_ns := 0 |}
  else
    let sorted := merge_sort Z.le (take (Z.to_nat filled) (latencies s)) in
    let at_ i := sorted !!! Z.to_nat i in
    let sum := fold_left (fun sum v => u64 (sum + v)) sorted 0 in
    {| p50_ns := at_ (filled * 50 / 100); p95_ns := at_ (filled * 95 / 100);
       p99_ns := at_ (filled * 99 / 100); avg_ns := sum / filled;
       min_ns := at_ 0; max_ns := at_ (filled - 1) |}.

Definition stats_reset (s : PathStats) : PathStats :=
  {| counters := noCounters; latencies := repeat 0 (length (latencies s)); sample_idx := 0 |}.

(** ** The polling path *)

Definition BURST_SIZE : nat := 32.
Definition RING_BITS : Z := 12. (* RING_SIZE = 4096 = 2 ^ 12 *)
Definition POOL_SIZE : Z := 65536.

Record DpdkPath := {
  d_rules_ : RuleTable; rx_ring_ : @SPSCRing nat; mbuf_pool_ : MbufPool;
  d_running_ : bool; d_stats_ : PathStats }.

Definition newDpdk (rules : RuleTable) : DpdkPath :=
  {| d_rules_ := rules; rx_ring_ := newRing RING_BITS; mbuf_pool_ := newPool (Z.to_nat POOL_SIZE);
     d_running_ := false; d_stats_ := newStats |}.

Definition d_set_ring (r : SPSCRing) (d : DpdkPath) : DpdkPath :=
  {| d_rules_ := d_rules_ d; rx_ring_ := r; mbuf_pool_ := mbuf_pool_ d;
     d_running_ := d_running_ d; d_stats_ := d_stats_ d |}.
Definition d_set_pool (mp : MbufPool) (d : DpdkPath) : DpdkPath :=
  {| d_rules_ := d_rules_ d; rx_ring_ := rx_ring_ d; mbuf_pool_ := mp;
     d_running_ := d_running_ d; d_stats_ := d_stats_ d |}.
Definition d_set_running (b : bool) (d : DpdkPath) : DpdkPath :=
  {| d_rules_ := d_rules_ d; rx_ring_ := rx_ring_ d; mbuf_pool_ := mbuf_pool_ d;
     d_running_ := b; d_stats_ := d_stats_ d |}.
Definition d_stat (f : PathStats -> PathStats) (d : DpdkPath) : DpdkPath :=
  {| d_rules_ := d_rules_ d; rx_ring_ := rx_ring_ d; mbuf_pool_ := mbuf_pool_ d;
     d_running_ := d_running_ d; d_stats_ := f (d_stats_ d) |}.

(** [alloc] never returns a null pointer, so its test has one branch. *)
Definition rx_enqueue (p : Packet) (d : DpdkPath) : DpdkPath * bool :=
  let d := d_stat (count count_rx) d in
  let (mp, m) := alloc (mbuf_pool_ d) in
  let d := d_set_pool (alter_mbuf (fun b => set_in_use true (set_pkt p b)) m mp) d in
  let (r, ok) := push RING_BITS m (rx_ring_ d) in
  if ok then (d_set_ring r d, true)
  else (d_stat (count count_dropped) (d_set_pool (free_mbuf m (mbuf_pool_ d)) d), false).

(** The body of the loop of [process_burst], on one buffer. *)
Definition process_mbuf (now : Z) (d : DpdkPath) (m : nat) : DpdkPath :=
  let p := pkt (pool_ (mbuf_pool_ d) !!! m) in
  let free (d : DpdkPath) := d_set_pool (free_mbuf m (mbuf_pool_ d)) d in
  let write p (d : DpdkPath) := d_set_pool (alter_mbuf (set_pkt p) m (mbuf_pool_ d)) d in
  match match_pdr (d_rules_ d) p with
  | None => free (d_stat (count count_dropped) (d_stat (count count_no_pdr) d))
  | Some pdr =>
      let p := classify (pdr_pdr_id pdr) (pdr_far_id pdr) p in
      let d := write p d in
      match option_map far_action (get_far (d_rules_ d) (pdr_far_id pdr)) with
      | None | Some DROP => free (d_stat (count count_dropped) (write (mark_dropped p) d))
      | Some _ => free (d_stat (record_latency (p_arrival_ns p) now) (d_stat (count count_forwarded) d))
      end
  end.

Definition process_burst (now : Z) (burst : list nat) (d : DpdkPath) : DpdkPath :=
  fold_left (process_mbuf now) burst d.

(** One turn of [lcore_poll_loop], and whether the ring held something. *)
Definition lcore_poll (now : Z) (d : DpdkPath) : DpdkPath * bool :=
  let (r, burst) := pop_burst RING_BITS (Z.of_nat BURST_SIZE) (rx_ring_ d) in
  let d := d_set_ring r d in
  match burst with
  | [] => (d, false)
  | _ => (process_burst now burst d, true)
  end.

(** The loop that empties the ring after [running_] is cleared. *)
Fixpoint lcore_drain (fuel : nat) (clock : nat -> Z) (d : DpdkPath) : option DpdkPath :=
  match fuel with
  | O => None
  | S fuel =>
      match lcore_poll (clock fuel) d with
      | (d, false) => Some d
      | (d, true) => lcore_drain fuel clock d
      end
  end.

Definition d_start (d : DpdkPath) : DpdkPath := d_set_running true d.
Definition d_stop (fuel : nat) (clock : nat -> Z) (d : DpdkPath) : option DpdkPath :=
  lcore_drain fuel clock (d_set_running false d).

(** ** The blocking path *)

Definition MAX_QUEUE_DEPTH : Z := 4096.

Record SocketPath := {
  s_rules_ : RuleTable; queue_ : list Packet; s_running_ : bool; s_stats_ : PathStats }.

Definition newSocketPath (rules : RuleTable) : SocketPath :=
  {| s_rules_ := rules; queue_ := []; s_running_ := false; s_stats_ := newStats |}.

Definition s_set_queue (q : list Packet) (s : SocketPath) : SocketPath :=
  {| s_rules_ := s_rules_ s; queue_ := q; s_running_ := s_running_ s; s_stats_ := s_stats_ s |}.
Definition s_set_running (b : bool) (s : SocketPath) : SocketPath :=
  {| s_rules_ := s_rules_ s; queue_ := queue_ s; s_running_ := b; s_stats_ := s_stats_ s |}.
Definition s_stat (f : PathStats -> PathStats) (s : SocketPath) : SocketPath :=
  {| s_rules_ := s_rules_ s; queue_ := queue_ s; s_running_ := s_running_ s;
     s_stats_ := f (s_stats_ s) |}.

Definition enqueue (p : Packet) (s : SocketPath) : SocketPath * bool :=
  let s := s_stat (count count_rx) s in
  if MAX_QUEUE_DEPTH <=? Z.of_nat (length (queue_ s)) then (s_stat (count count_dropped) s, false)
  else (s_set_queue (queue_ s ++ [p]) s, true).

(** [process_one] works on the worker's own copy of the packet. *)
Definition process_one (now : Z) (p : Packet) (s : SocketPath) : SocketPath * Packet :=
  match match_pdr (s_rules_ s) p with
  | None => (s_stat (count count_dropped) (s_stat (count count_no_pdr) s), p)
  | Some pdr =>
      let p := classify (pdr_pdr_id pdr) (pdr_far_id pdr) p in
      match option_map far_action (get_far (s_rules_ s) (pdr_far_id pdr)) with
      | None | Some DROP => (s_stat (count count_dropped) s, mark_dropped p)
      | Some _ => (s_stat (record_latency (p_arrival_ns p) now) (s_stat (count count_forwarded) s), p)
      end
  end.

Definition s_start (s : SocketPath) : SocketPath := s_set_running true s.

(** *** Its threads

    Where the worker is: before it tests the predicate of [cv_.wait], holding
    the mutex; past the test, which failed, and not yet asleep, still holding
    it; asleep; in [process_one]; before and in a turn of the second loop;
    returned. *)
Inductive WorkerPc :=
| Checking | AboutToWait | Asleep | Processing (p : Packet) | Draining | DrainProcessing (p : Packet) | Exited.

(** Where the thread that calls [enqueue] and [stop] is: between two calls; in
    [enqueue] before [notify_one]; in [stop], after the store, after
    [notify_one], after [join]. *)
Inductive ClientPc := Ready | Pushed | Stored | Notified | Joined.
#[global] Instance ClientPc_eq_dec : EqDecision ClientPc.
Proof. solve_decision. Defined.

Record SocketRun := { sp : SocketPath; worker : WorkerPc; client : ClientPc }.

(** After [start]. *)
Definition launched (rules : RuleTable) : SocketRun :=
  {| sp := s_start (newSocketPath rules); worker := Checking; client := Ready |}.

(** A step of the worker; it takes none while it sleeps. *)
Definition worker_turn (now : Z) (s : SocketPath) (w : WorkerPc) : option (SocketPath * WorkerPc) :=
  match w with
  | Checking =>
      match queue_ s with
      | p :: q => Some (s_set_queue q s, Processing p)
      | [] => Some (s, if s_running_ s then AboutToWait else Draining)
      end
  | AboutToWait => Some (s, Asleep)
  | Processing p => Some ((process_one now p s).1, Checking)
  | Draining =>
      match queue_ s with
      | p :: q => Some (s_set_queue q s, DrainProcessing p)
      | [] => Some (s, Exited)
      end
  | DrainProcessing p => Some ((process_one now p s).1, Draining)
  | Asleep | Exited => None
  end.

(** [notify_one]: only a thread that sleeps is woken. *)
Definition wake (w : WorkerPc) : WorkerPc := match w with Asleep => Checking | w => w end.

(** The part of [enqueue] up to its [notify_one], which it reaches only with
    the packet pushed.  It needs the mutex. *)
Definition socket_offer (p : Packet) (x : SocketRun) : option (SocketRun * bool) :=
  match client x, worker x with
  | Ready, AboutToWait => None
  | Ready, w =>
      let (s, ok) := enqueue p (sp x) in
      Some ({| sp := s; worker := w; client := if ok then Pushed else Ready |}, ok)
  | _, _ => None
  end.

(** The other steps: the rest of [enqueue], [stop] cut at its store, its
    notification and its join, the worker's, and a wake-up for no reason. *)
Inductive Move := Notify | StopStore | StopNotify | Join | WorkerTurn (now : Z) | Spurious.

Definition socket_move (m : Move) (x : SocketRun) : option SocketRun :=
  match m, client x, worker x with
  | Notify, Pushed, w => Some {| sp := sp x; worker := wake w; client := Ready |}
  | StopStore, Ready, w => Some {| sp := s_set_running false (sp x); worker := w; client := Stored |}
  | StopNotify, Stored, w => Some {| sp := sp x; worker := wake w; client := Notified |}
  | Join, Notified, Exited => Some {| sp := sp x; worker := Exited; client := Joined |}
  | WorkerTurn now, c, w => (fun r => {| sp := r.1; worker := r.2; client := c |}) <$> worker_turn now (sp x) w
  | Spurious, c, Asleep => Some {| sp := sp x; worker := Checking; client := c |}
  | _, _, _ => None
  end.

(** A schedule: packets offered, with the result of [enqueue], and moves. *)
Inductive Label := Offer (p : Packet) (ok : bool) | Do (m : Move).

Definition socket_step (l : Label) (x : SocketRun) : option SocketRun :=
  match l with
  | Offer p ok => socket_offer p x ≫= fun r => if bool_decide (r.2 = ok) then Some r.1 else None
  | Do m => socket_move m x
  end.

(** [None] when the threads cannot follow the schedule. *)
Fixpoint socket_run (ls : list Label) (x : SocketRun) : option SocketRun :=
  match ls with
  | [] => Some x
  | l :: ls => socket_step l x ≫= socket_run ls
  end.

(** What the threads do by themselves. *)
Definition own (x x' : SocketRun) : Prop := exists m, m <> Spurious /\ socket_move m x = Some x'.

(** ** The specification both paths implement *)

Record Flow := { waiting : list Packet; tallies : Counters }.

Definition newFlow : Flow := {| waiting := []; tallies := noCounters |}.

(** What the pipeline counts for one packet. *)
Definition tally_one (rules : RuleTable) (c : Counters) (p : Packet) : Counters :=
  match match_pdr rules p with
  | None => count_dropped (count_no_pdr c)
  | Some pdr =>
      match option_map far_action (get_far rules (pdr_far_id pdr)) with
      | None | Some DROP => count_dropped c
      | Some _ => count_forwarded c
      end
  end.

Inductive event := Arrive (p : Packet) | Work (now : Z).

Definition flow_event (rules : RuleTable) (cap : Z) (burst : nat) (fl : Flow) (e : event) : Flow :=
  match e with
  | Arrive p =>
      if Z.of_nat (length (waiting fl)) <? cap
      then {| waiting := waiting fl ++ [p]; tallies := count_rx (tallies fl) |}
      else {| waiting := waiting fl; tallies := count_dropped (count_rx (tallies fl)) |}
  | Work _ =>
      {| waiting := drop burst (waiting fl);
         tallies := fold_left (tally_one rules) (take burst (waiting fl)) (tallies fl) |}
  end.

Definition flow_run rules cap burst es fl := fold_left (flow_event rules cap burst) es fl.

(** Every arrival finds room. *)
Fixpoint roomy (rules : RuleTable) (cap : Z) (burst : nat) (es : list event) (fl : Flow) : bool :=
  match es with
  | [] => true
  | e :: rest =>
      match e with Arrive _ => Z.of_nat (length (waiting fl)) <? cap | Work _ => true end
      && roomy rules cap burst rest (flow_event rules cap burst fl e)
  end.

Definition packets (es : list event) : list Packet :=
  flat_map (fun e => match e with Arrive p => [p] | Work _ => [] end) es.

(** The counters of a path that has processed [ps] and nothing else. *)
Definition tally_all (rules : RuleTable) (ps : list Packet) (c : Counters) : Counters :=
  fold_left (fun c p => tally_one rules (count_rx c) p) ps c.

Definition dpdk_event (d : DpdkPath) (e : event) : DpdkPath :=
  match e with
  | Arrive p => fst (rx_enqueue p d)
  | Work now => fst (lcore_poll now d)
  end.

Definition dpdk_run es d := fold_left dpdk_event es d.

(** The packets offered to the blocking path, with what [enqueue] answered. *)
Definition offers (ls : list Label) : list (Packet * bool) :=
  flat_map (fun l => match l with Offer p ok => [(p, ok)] | Do _ => [] end) ls.

(** The counters once the offers and their packets are dealt with: a refusal
    is counted as a drop. *)
Definition tally_offers (rules : RuleTable) (os : list (Packet * bool)) (c : Counters) : Counters :=
  fold_left (fun c o => if o.2 : bool then tally_one rules (count_rx c) o.1 else count_dropped (count_rx c)) os c.

(** ** Lemmas: the demonstration rules *)

Record demo_inv (n : nat) (rt : RuleTable) : Prop := {
  inv_pdr_ul i : 0 <= i < Z.of_nat n -> pdrs_ rt !! (2 * i + 1) = Some (demo_pdr UL i);
  inv_pdr_dl i : 0 <= i < Z.of_nat n -> pdrs_ rt !! (2 * i + 2) = Some (demo_pdr DL i);
  inv_far_ul i : 0 <= i < Z.of_nat n -> fars_ rt !! (2 * i + 1) = Some (demo_far UL i);
  inv_far_dl i : 0 <= i < Z.of_nat n -> fars_ rt !! (2 * i + 2) = Some (demo_far DL i);
  inv_qer i : 0 <= i < Z.of_nat n -> qers_ rt !! (i + 1) = Some (demo_qer i);
  inv_teid t : teid_to_pdr_ rt !! t =
    if (0 <=? t - base_teid) && (t - base_teid <? Z.of_nat n)
    then Some (2 * (t - base_teid) + 1) else None;
  inv_ip a : ueip_to_pdr_ rt !! a =
    if (0 <=? a - base_ue_ip) && (a - base_ue_ip <? Z.of_nat n)
    then Some (2 * (a - base_ue_ip) + 2) else None }.

(** No identifier of the table wraps while it has fewer than [2^31] UEs. *)
Lemma demo_ids (i : Z) :
  0 <= i -> i + 1 < 2 ^ 31 ->
  u32 (2 * i + 1) = 2 * i + 1 /\ u32 (2 * i + 2) = 2 * i + 2 /\ u32 (i + 1) = i + 1 /\
  u32 (base_teid + i) = base_teid + i /\ u32 (base_ue_ip + i) = base_ue_ip + i.
Proof.
  intros H0 H1. change base_teid with 1000. change base_ue_ip with 170721281.
  change (2 ^ 31) with 2147483648 in H1.
  unfold u32. repeat split; apply wrap_small; unfold in_u; lia.
Qed.

Ltac lookup_step := repeat first [rewrite lookup_insert_eq | rewrite lookup_insert_ne by lia].
Ltac new_or_old n i := destruct (decide (i = Z.of_nat n)) as [->|].

Lemma index_extends (t base : Z) (n : nat) (f : Z -> Z) (m : gmap Z Z) :
  m !! t = (if (0 <=? t - base) && (t - base <? Z.of_nat n) then Some (f (t - base)) else None) ->
  <[base + Z.of_nat n := f (Z.of_nat n)]> m !! t =
  if (0 <=? t - base) && (t - base <? Z.of_nat (S n)) then Some (f (t - base)) else None.
Proof.
  intros H. destruct (decide (t = base + Z.of_nat n)) as [->|Hn].
  - rewrite lookup_insert_eq. replace (base + Z.of_nat n - base) with (Z.of_nat n) by lia.
    destruct (Z.leb_spec 0 (Z.of_nat n)), (Z.ltb_spec (Z.of_nat n) (Z.of_nat (S n)));
      reflexivity || lia.
  - rewrite lookup_insert_ne by lia. rewrite H.
    destruct (Z.leb_spec 0 (t - base)), (Z.ltb_spec (t - base) (Z.of_nat n)),
      (Z.ltb_spec (t - base) (Z.of_nat (S n))); simpl; reflexivity || lia.
Qed.

Lemma demo_inv_step (n : nat) (rt : RuleTable) :
  Z.of_nat (S n) < 2 ^ 31 -> demo_inv n rt -> demo_inv (S n) (add_demo_ue rt n).
Proof.
  intros Hn [A B C D E F G].
  destruct (demo_ids (Z.of_nat n)) as (I1 & I2 & I3 & I4 & I5); [lia..|].
  split; simpl; rewrite ?I1, ?I2, ?I3, ?I4, ?I5.
  - intros i Hi. new_or_old n i; lookup_step; [simpl; rewrite ?I1, ?I2, ?I3; reflexivity | apply A; lia].
  - intros i Hi. new_or_old n i; lookup_step; [simpl; rewrite ?I1, ?I2, ?I3; reflexivity | apply B; lia].
  - intros i Hi. new_or_old n i; lookup_step; [simpl; rewrite ?I1, ?I2, ?I3; reflexivity | apply C; lia].
  - intros i Hi. new_or_old n i; lookup_step; [simpl; rewrite ?I1, ?I2, ?I3; reflexivity | apply D; lia].
  - intros i Hi. new_or_old n i; lookup_step; [simpl; rewrite ?I1, ?I2, ?I3; reflexivity | apply E; lia].
  - intros t. exact (index_extends t base_teid n (fun i => 2 * i + 1) _ (F t)).
  - intros a. exact (index_extends a base_ue_ip n (fun i => 2 * i + 2) _ (G a)).
Qed.

Lemma demo_inv_build (n : nat) :
  Z.of_nat n < 2 ^ 31 -> demo_inv n (fold_left add_demo_ue (seq 0 n) newRules).
Proof.
  induction n as [|n IH]; intros Hn.
  - assert (N : forall x, (0 <=? x) && (x <? Z.of_nat 0) = false).
    { intros x. destruct (Z.leb_spec 0 x), (Z.ltb_spec x (Z.of_nat 0)); reflexivity || lia. }
    split; try lia; intros x; rewrite N; apply lookup_empty.
  - rewrite seq_S, fold_left_app. apply demo_inv_step; [exact Hn | apply IH; lia].
Qed.

(** ** Lemmas: the threads of the blocking path *)

Lemma record_latency_counters (a b : Z) (s : PathStats) :
  counters (record_latency a b s) = counters s.
Proof. unfold record_latency. destruct (b <=? a); reflexivity. Qed.

Lemma process_one_spec (now : Z) (p : Packet) (s : SocketPath) :
  let s' := fst (process_one now p s) in
  s_rules_ s' = s_rules_ s /\ queue_ s' = queue_ s /\ s_running_ s' = s_running_ s /\
  counters (s_stats_ s') = tally_one (s_rules_ s) (counters (s_stats_ s)) p.
Proof.
  unfold process_one, tally_one. destruct (match_pdr _ p) as [pdr|]; [|repeat split].
  destruct (option_map _ _) as [[]|]; simpl; repeat split; apply record_latency_counters.
Qed.

(** The packet the worker has taken, and the packets still to be processed. *)
Definition in_hand (w : WorkerPc) : list Packet :=
  match w with Processing p | DrainProcessing p => [p] | _ => [] end.
Definition pending (x : SocketRun) : list Packet := in_hand (worker x) ++ queue_ (sp x).

Lemma in_hand_wake (w : WorkerPc) : in_hand (wake w) = in_hand w.
Proof. destruct w; reflexivity. Qed.

(** What holds of the threads in every run. *)
Record shaped (x : SocketRun) : Prop := {
  sh_running : s_running_ (sp x) = match client x with Ready | Pushed => true | _ => false end;
  sh_worker : match worker x with
              | AboutToWait => queue_ (sp x) = []
              | Asleep => queue_ (sp x) = [] \/ client x = Pushed
              | Draining | DrainProcessing _ => s_running_ (sp x) = false
              | Exited => s_running_ (sp x) = false /\ queue_ (sp x) = []
              | Checking | Processing _ => True
              end;
  sh_joined : client x = Joined -> worker x = Exited }.

Lemma launched_shaped (rules : RuleTable) : shaped (launched rules).
Proof. split; [reflexivity|exact I|discriminate]. Qed.

Lemma offer_shaped (p : Packet) (x x' : SocketRun) (ok : bool) :
  shaped x -> socket_offer p x = Some (x', ok) -> shaped x'.
Proof.
  intros [R W J] E. unfold socket_offer in E. destruct x as [s w c]. cbn in *.
  destruct c; try discriminate. unfold enqueue in E. cbn [queue_ s_stat] in E.
  destruct (_ <=? _) in E; destruct w; try discriminate; injection E as <- <-;
    (split; cbn; [exact R| |discriminate]); auto;
    try (destruct W as [W|W]; [auto|discriminate]); try (destruct W; congruence); congruence.
Qed.

Lemma turn_shaped (now : Z) (x x' : SocketRun) :
  shaped x -> socket_move (WorkerTurn now) x = Some x' -> shaped x'.
Proof.
  intros [R W J] E. destruct x as [s w c]. cbn in *.
  destruct w as [| | |p| |p|]; cbn in E; try discriminate.
  - destruct (queue_ s) as [|p q] eqn:Q; injection E as <-.
    + split; cbn; [exact R| |intros E; specialize (J E); discriminate].
      destruct (s_running_ s) eqn:Rs; auto.
    + split; cbn; [exact R|exact I|intros E; specialize (J E); discriminate].
  - injection E as <-. split; cbn; [exact R|auto|intros E; specialize (J E); discriminate].
  - injection E as <-. destruct (process_one_spec now p s) as (_ & _ & N & _).
    split; cbn in *; [congruence|exact I|intros E; specialize (J E); discriminate].
  - destruct (queue_ s) as [|p q] eqn:Q; injection E as <-;
      (split; cbn; [exact R|auto|intros E; specialize (J E); discriminate]).
  - injection E as <-. destruct (process_one_spec now p s) as (_ & _ & N & _).
    split; cbn in *; [congruence|congruence|intros E; specialize (J E); discriminate].
Qed.

Lemma move_shaped (m : Move) (x x' : SocketRun) : shaped x -> socket_move m x = Some x' -> shaped x'.
Proof.
  intros Hx E. destruct m as [| | | |now|]; [| | | |exact (turn_shaped now x x' Hx E)|];
    destruct Hx as [R W J]; destruct x as [s w c]; cbn in *; destruct c; try discriminate;
    destruct w; try discriminate; injection E as <-; (split; cbn; auto; try discriminate);
    try (destruct W as [W|W]; [auto|discriminate]); try (intros E; specialize (J E); discriminate); auto.
  destruct W as [_ W]. auto.
Qed.

(** A move processes the next of the packets [ps], or none. *)
Definition goes_on (s s' : SocketPath) (ps ps' : list Packet) : Prop :=
  s_rules_ s' = s_rules_ s
  /\ exists k, (k <= length ps)%nat /\ ps' = drop k ps
     /\ counters (s_stats_ s') = fold_left (tally_one (s_rules_ s)) (take k ps) (counters (s_stats_ s)).

Lemma goes_same (s s' : SocketPath) (ps ps' : list Packet) :
  s_rules_ s' = s_rules_ s -> ps' = ps -> counters (s_stats_ s') = counters (s_stats_ s) -> goes_on s s' ps ps'.
Proof. intros Er -> Ec. split; [exact Er|]. exists 0%nat. rewrite drop_0. repeat split; [lia|exact Ec]. Qed.

Lemma goes_one (now : Z) (p : Packet) (s : SocketPath) :
  goes_on s (process_one now p s).1 (p :: queue_ s) (queue_ (process_one now p s).1).
Proof.
  destruct (process_one_spec now p s) as (Er & Eq & _ & Ec). split; [exact Er|].
  exists 1%nat. cbn. rewrite Eq. repeat split; [lia|exact Ec].
Qed.

Lemma worker_goes (now : Z) (s s' : SocketPath) (w w' : WorkerPc) :
  worker_turn now s w = Some (s', w') ->
  goes_on s s' (in_hand w ++ queue_ s) (in_hand w' ++ queue_ s').
Proof.
  destruct w as [| | |p| |p|]; cbn; intros E; try discriminate.
  - destruct (queue_ s) as [|q0 q] eqn:Q; injection E as <- <-; apply goes_same; try reflexivity.
    cbn. rewrite Q. destruct (s_running_ s); reflexivity.
  - injection E as <- <-. apply goes_same; reflexivity.
  - injection E as <- <-. apply goes_one.
  - destruct (queue_ s) as [|q0 q] eqn:Q; injection E as <- <-; apply goes_same; try reflexivity.
    cbn. exact Q.
  - injection E as <- <-. apply goes_one.
Qed.

Lemma move_goes (m : Move) (x x' : SocketRun) :
  socket_move m x = Some x' -> goes_on (sp x) (sp x') (pending x) (pending x').
Proof.
  unfold pending. destruct x as [s w c]. cbn. intros E. destruct m as [| | | |now|].
  5: { assert (E' : worker_turn now s w = Some (sp x', worker x')).
       { destruct c, w; cbn in *; try discriminate; try (destruct (queue_ s) in *); injection E as <-; reflexivity. }
       exact (worker_goes now s _ w _ E'). }
  all: destruct c; try discriminate; destruct w; try discriminate; injection E as <-; apply goes_same; reflexivity.
Qed.

(** An offer that is taken adds its packet. *)
Lemma offer_pending (p : Packet) (x x' : SocketRun) (ok : bool) :
  socket_offer p x = Some (x', ok) ->
  ok = (Z.of_nat (length (queue_ (sp x))) <? MAX_QUEUE_DEPTH)
  /\ s_rules_ (sp x') = s_rules_ (sp x) /\ worker x' = worker x
  /\ pending x' = pending x ++ (if ok then [p] else [])
  /\ counters (s_stats_ (sp x'))
     = if ok then count_rx (counters (s_stats_ (sp x))) else count_dropped (count_rx (counters (s_stats_ (sp x)))).
Proof.
  unfold socket_offer, pending. destruct x as [s w c]. cbn. intros E. destruct c; try discriminate.
  unfold enqueue in E. cbn [queue_ s_stat] in E.
  destruct (Z.leb_spec MAX_QUEUE_DEPTH (Z.of_nat (length (queue_ s))));
    destruct (Z.ltb_spec (Z.of_nat (length (queue_ s))) MAX_QUEUE_DEPTH); try lia;
    destruct w; try discriminate; injection E as <- <-; cbn; rewrite ?app_nil_r; auto.
Qed.

(** ** Lemmas: the polling path implements the specification *)

(** The fields the classifier reads. *)
Definition key (p : Packet) : Direction * Z * Z := (p_dir p, p_teid p, p_ue_ip p).

Lemma tally_one_key (rules : RuleTable) (c : Counters) (p q : Packet) :
  key p = key q -> tally_one rules c p = tally_one rules c q.
Proof. intros [= D Ht Hu]. unfold tally_one, match_pdr. rewrite D, Ht, Hu. reflexivity. Qed.

Definition packet_at (d : DpdkPath) (m : nat) : Packet := pkt (pool_ (mbuf_pool_ d) !!! m).

(** [d'] differs from [d] in what the worker writes: marks on packets, flags and
    counters. *)
Record same_queue (d d' : DpdkPath) : Prop := {
  sq_rules : d_rules_ d' = d_rules_ d;
  sq_ring : rx_ring_ d' = rx_ring_ d;
  sq_next : next_ (mbuf_pool_ d') = next_ (mbuf_pool_ d);
  sq_size : length (pool_ (mbuf_pool_ d')) = length (pool_ (mbuf_pool_ d));
  sq_keys j : key (packet_at d' j) = key (packet_at d j) }.

#[local] Instance same_queue_preorder : PreOrder same_queue.
Proof.
  split.
  - intros d. split; reflexivity.
  - intros a b c [] []. split; congruence.
Qed.

Lemma same_queue_refl (d : DpdkPath) : same_queue d d.
Proof. reflexivity. Qed.
#[local] Hint Resolve same_queue_refl : core.

Lemma then_stat (f : PathStats -> PathStats) (d d' : DpdkPath) :
  same_queue d d' -> same_queue d (d_stat f d').
Proof. intros []. split; assumption. Qed.

Lemma alter_total (f : Mbuf -> Mbuf) (l : list Mbuf) (m j : nat) :
  (forall b, key (pkt (f b)) = key (pkt b) \/ j <> m \/ b <> l !!! m) ->
  key (pkt (alter f m l !!! j)) = key (pkt (l !!! j)).
Proof.
  intros H. rewrite !list_lookup_total_alt. destruct (decide (m = j)) as [->|Hn].
  - rewrite list_lookup_alter_eq. destruct (l !! j) as [b|] eqn:E; [|reflexivity].
    destruct (H b) as [?|[?|Hb]]; [assumption | congruence|].
    destruct Hb. symmetry. apply list_lookup_total_correct. exact E.
  - rewrite list_lookup_alter_ne by congruence. reflexivity.
Qed.

Lemma then_free (m : nat) (d d' : DpdkPath) :
  same_queue d d' -> same_queue d (d_set_pool (free_mbuf m (mbuf_pool_ d')) d').
Proof.
  intros H. transitivity d'; [exact H|]. split; try reflexivity; simpl; [apply length_alter|].
  intros j. apply alter_total. intros b. left. reflexivity.
Qed.

Lemma then_write (m : nat) (p : Packet) (d d' : DpdkPath) :
  key p = key (packet_at d m) -> same_queue d d' ->
  same_queue d (d_set_pool (alter_mbuf (set_pkt p) m (mbuf_pool_ d')) d').
Proof.
  intros E H. transitivity d'; [exact H|]. rewrite <- (sq_keys _ _ H) in E. split; try reflexivity; simpl; [apply length_alter|].
  intros j. apply alter_total. intros b. simpl.
  destruct (decide (key p = key (pkt b))) as [|Hn]; [auto|].
  right. right. intros ->. apply Hn. exact E.
Qed.

Lemma process_mbuf_spec (now : Z) (d : DpdkPath) (m : nat) :
  same_queue d (process_mbuf now d m) /\
  counters (d_stats_ (process_mbuf now d m)) =
    tally_one (d_rules_ d) (counters (d_stats_ d)) (packet_at d m).
Proof.
  unfold process_mbuf, tally_one. fold (packet_at d m).
  destruct (match_pdr _ _) as [pdr|]; [|split; [auto using then_free, then_stat | reflexivity]].
  cbn [d_rules_ d_set_pool].
  destruct (option_map _ _) as [[]|]; split; auto using then_free, then_stat, then_write;
    reflexivity || apply record_latency_counters.
Qed.

Lemma process_burst_spec (now : Z) (ms : list nat) (ps : list Packet) (d : DpdkPath) :
  Forall2 (fun m p => key (packet_at d m) = key p) ms ps ->
  same_queue d (process_burst now ms d) /\
  counters (d_stats_ (process_burst now ms d)) =
    fold_left (tally_one (d_rules_ d)) ps (counters (d_stats_ d)).
Proof.
  revert ps d. induction ms as [|m ms IH]; intros ps d H; inversion H as [|? p ? ps' Hm Hms]; subst.
  - split; reflexivity.
  - destruct (process_mbuf_spec now d m) as [Q C].
    destruct (IH ps' (process_mbuf now d m)) as [Q' C'].
    + revert Hms. apply Forall2_impl. intros j p' Hj. rewrite (sq_keys _ _ Q). exact Hj.
    + split; [etransitivity; eassumption|].
      change (process_burst now (m :: ms) d) with (process_burst now ms (process_mbuf now d m)).
      rewrite C', C, (sq_rules _ _ Q), (tally_one_key _ _ _ _ Hm). reflexivity.
Qed.

(** After [n] arrivals: the ring holds buffers handed out so far, whose packets
    are the waiting ones up to the worker's marks. *)
Record d_ok (rules : RuleTable) (n : nat) (d : DpdkPath) (fl : Flow) : Prop := {
  ok_rules : d_rules_ d = rules;
  ok_counters : counters (d_stats_ d) = tallies fl;
  ok_size : pool_size (mbuf_pool_ d) = POOL_SIZE;
  ok_next : next_ (mbuf_pool_ d) = Z.of_nat n;
  ok_ring : exists ms, holds RING_BITS (rx_ring_ d) ms /\
    Forall2 (fun m p => (m < n)%nat /\ key (packet_at d m) = key p) ms (waiting fl) }.

Lemma ring_bits_range : 0 < RING_BITS <= 64.
Proof. unfold RING_BITS. lia. Qed.
#[local] Hint Resolve ring_bits_range : core.

Definition RING_CAPACITY : Z := capacity RING_BITS.

Lemma d_ok_new (rules : RuleTable) : d_ok rules 0 (newDpdk rules) newFlow.
Proof.
  split; [reflexivity | reflexivity | | reflexivity |].
  - unfold pool_size, newDpdk, newPool. cbn [mbuf_pool_ pool_]. rewrite repeat_length.
    unfold POOL_SIZE. lia.
  - exists []. split; [apply new_holds; auto | constructor].
Qed.

(** [alloc] on a pool that has not been handed out in full. *)
Lemma alloc_fresh (mp : MbufPool) (n : nat) :
  next_ mp = Z.of_nat n -> Z.of_nat n < pool_size mp -> Z.of_nat n < POOL_SIZE ->
  alloc mp = ({| pool_ := alter (set_in_use true) n (pool_ mp); next_ := Z.of_nat (S n) |}, n).
Proof.
  intros E Hn Hp. unfold alloc. rewrite E. unfold pool_size in *. cbn [pool_].
  destruct (Z.leb_spec (Z.of_nat (length (pool_ mp))) (Z.of_nat n)); [lia|].
  unfold alter_mbuf. cbn [pool_ next_]. rewrite Nat2Z.id. do 2 f_equal.
  rewrite u32_small; [lia|]. unfold in_u, POOL_SIZE in *. lia.
Qed.

(** [alloc] on a pool that has: the first buffer again. *)
Lemma alloc_wraps (mp : MbufPool) :
  next_ mp = pool_size mp ->
  alloc mp = ({| pool_ := alter (set_in_use true) 0%nat (pool_ mp); next_ := 0 |}, 0%nat).
Proof.
  intros E. unfold alloc. rewrite E. unfold pool_size. cbn [pool_].
  rewrite Z.leb_refl. reflexivity.
Qed.

(** What [rx_enqueue] stores in the buffer it was given. *)
Definition filled (m : nat) (p : Packet) (next : Z) (d : DpdkPath) : DpdkPath :=
  d_set_pool {| pool_ := alter (fun b => set_in_use true (set_pkt p b)) m
                           (alter (set_in_use true) m (pool_ (mbuf_pool_ d)));
                next_ := next |} (d_stat (count count_rx) d).

Lemma filled_other (m j : nat) (p : Packet) (next : Z) (d : DpdkPath) :
  j <> m -> packet_at (filled m p next d) j = packet_at d j.
Proof.
  intros Hj. unfold packet_at, filled. simpl. rewrite !list_lookup_total_alt.
  rewrite !list_lookup_alter_ne by congruence. reflexivity.
Qed.

Lemma filled_this (m : nat) (p : Packet) (next : Z) (d : DpdkPath) :
  (m < length (pool_ (mbuf_pool_ d)))%nat -> packet_at (filled m p next d) m = p.
Proof.
  intros Hm. unfold packet_at, filled. simpl. rewrite !list_lookup_total_alt.
  rewrite !list_lookup_alter_eq. destruct (lookup_lt_is_Some_2 _ _ Hm) as [b ->]. reflexivity.
Qed.

Lemma rx_enqueue_filled (p : Packet) (d : DpdkPath) (m : nat) (next : Z) :
  alloc (mbuf_pool_ d) = ({| pool_ := alter (set_in_use true) m (pool_ (mbuf_pool_ d)); next_ := next |}, m) ->
  rx_enqueue p d =
  let (r, ok) := push RING_BITS m (rx_ring_ d) in
  let d := filled m p next d in
  if ok then (d_set_ring r d, true)
  else (d_stat (count count_dropped) (d_set_pool (free_mbuf m (mbuf_pool_ d)) d), false).
Proof. intros E. unfold rx_enqueue. cbn [mbuf_pool_ d_stat]. rewrite E. reflexivity. Qed.

Lemma d_arrive_ok (rules : RuleTable) (n : nat) (d : DpdkPath) (fl : Flow) (p : Packet) :
  d_ok rules n d fl -> Z.of_nat n < POOL_SIZE ->
  d_ok rules (S n) (fst (rx_enqueue p d)) (flow_event rules RING_CAPACITY BURST_SIZE fl (Arrive p)).
Proof.
  intros [R C Sz Nx (ms & H & K)] Hp.
  rewrite (rx_enqueue_filled p d n (Z.of_nat (S n))) by (apply alloc_fresh; rewrite ?Sz; assumption).
  pose proof (push_spec RING_BITS ring_bits_range n (rx_ring_ d) ms H) as [E P].
  destruct (push RING_BITS n (rx_ring_ d)) as [r ok]. cbv zeta. simpl in E, P. subst ok.
  assert (Z2 : forall next, pool_size (mbuf_pool_ (filled n p next d)) = POOL_SIZE)
    by (intros; unfold filled, pool_size in *; simpl; rewrite !length_alter; exact Sz).
  assert (K2 : Forall2 (fun m q => (m < S n)%nat /\
      key (packet_at (filled n p (Z.of_nat (S n)) d) m) = key q) ms (waiting fl)).
  { revert K. apply Forall2_impl. intros m q [Hm <-]. rewrite filled_other by lia. auto. }
  unfold flow_event, RING_CAPACITY. rewrite <- (Forall2_length K).
  destruct (Z.of_nat (length ms) <? capacity RING_BITS); cbn [fst].
  - split; [exact R | simpl; rewrite C; reflexivity | apply Z2 | reflexivity |].
    exists (ms ++ [n]). split; [exact P|].
    apply Forall2_app; [exact K2|]. constructor; [|constructor]. split; [lia|].
    f_equal. apply (filled_this n p (Z.of_nat (S n)) d). unfold pool_size in Sz. lia.
  - split; [exact R | simpl; rewrite C; reflexivity | | reflexivity |].
    + unfold free_mbuf, pool_size. simpl. rewrite length_alter. apply (Z2 0).
    + exists ms. split; [exact H|]. revert K2. apply Forall2_impl. intros m q [Hm <-].
      split; [exact Hm|].
      apply (sq_keys _ _ (then_stat _ _ _ (then_free n _ _ (same_queue_refl _)))).
Qed.

Lemma lcore_poll_spec (now : Z) (d : DpdkPath) (ms : list nat) :
  holds RING_BITS (rx_ring_ d) ms ->
  exists r, holds RING_BITS r (drop BURST_SIZE ms) /\
    lcore_poll now d = (process_burst now (take BURST_SIZE ms) (d_set_ring r d),
                        match ms with [] => false | _ => true end).
Proof.
  intros H. destruct (pop_burst_spec RING_BITS ring_bits_range BURST_SIZE (rx_ring_ d) ms H) as [E P].
  unfold lcore_poll. destruct (pop_burst _ _ _) as [r out]. simpl in E, P. subst out.
  exists r. split; [exact P|]. destruct ms; reflexivity.
Qed.

Lemma d_work_ok (rules : RuleTable) (n : nat) (d : DpdkPath) (fl : Flow) (now : Z) :
  d_ok rules n d fl ->
  d_ok rules n (fst (lcore_poll now d)) (flow_event rules RING_CAPACITY BURST_SIZE fl (Work now)) /\
  snd (lcore_poll now d) = match waiting fl with [] => false | _ => true end.
Proof.
  intros [R C Sz Nx (ms & H & K)].
  destruct (lcore_poll_spec now d ms H) as (r & P & ->).
  destruct (process_burst_spec now (take BURST_SIZE ms) (take BURST_SIZE (waiting fl)) (d_set_ring r d))
    as [Q E].
  { apply Forall2_take. revert K. apply Forall2_impl. intros m q [_ <-]. reflexivity. }
  split.
  - split; simpl.
    + rewrite (sq_rules _ _ Q). exact R.
    + rewrite E. simpl. rewrite R, C. reflexivity.
    + unfold pool_size in *. rewrite (sq_size _ _ Q). exact Sz.
    + rewrite (sq_next _ _ Q). exact Nx.
    + exists (drop BURST_SIZE ms). rewrite (sq_ring _ _ Q). split; [exact P|].
      apply Forall2_drop. revert K. apply Forall2_impl. intros m q [Hm <-].
      split; [exact Hm|]. apply (sq_keys _ _ Q).
  - simpl. destruct K; reflexivity.
Qed.

Lemma dpdk_run_ok (rules : RuleTable) (es : list event) (n : nat) (d : DpdkPath) (fl : Flow) :
  d_ok rules n d fl -> Z.of_nat (n + length (packets es)) <= POOL_SIZE ->
  d_ok rules (n + length (packets es)) (dpdk_run es d) (flow_run rules RING_CAPACITY BURST_SIZE es fl).
Proof.
  revert n d fl. induction es as [|[p|now] es IH]; intros n d fl H Hn.
  - rewrite Nat.add_0_r. exact H.
  - simpl in Hn. change (length (packets (Arrive p :: es))) with (S (length (packets es))).
    rewrite Nat.add_succ_r in *. apply (IH (S n)); [|lia]. apply d_arrive_ok; [exact H | lia].
  - apply IH; [|exact Hn]. apply d_work_ok. exact H.
Qed.

Lemma d_running_ok (rules : RuleTable) (n : nat) (d : DpdkPath) (fl : Flow) (b : bool) :
  d_ok rules n d fl -> d_ok rules n (d_set_running b d) fl.
Proof. intros []. split; assumption. Qed.

Lemma tally_app (rules : RuleTable) (ps : list Packet) (n : nat) (c : Counters) :
  fold_left (tally_one rules) (drop n ps) (fold_left (tally_one rules) (take n ps) c)
  = fold_left (tally_one rules) ps c.
Proof. rewrite <- fold_left_app, take_drop. reflexivity. Qed.

Lemma dpdk_drain_ok (rules : RuleTable) (n fuel : nat) (clock : nat -> Z) (d : DpdkPath) (fl : Flow) :
  d_ok rules n d fl -> (length (waiting fl) < fuel)%nat ->
  exists d', lcore_drain fuel clock d = Some d' /\
    counters (d_stats_ d') = fold_left (tally_one rules) (waiting fl) (tallies fl) /\
    ring_empty (rx_ring_ d') = true.
Proof.
  revert d fl. induction fuel as [|fuel IH]; intros d fl H Hf; [lia|].
  destruct (d_work_ok rules n d fl (clock fuel) H) as [W E]. simpl.
  destruct (lcore_poll (clock fuel) d) as [d2 more]. simpl in W, E. subst more.
  destruct fl as [[|p w] c]; simpl in *.
  - exists d2. destruct W as [_ C _ _ (ms & Hh & K)].
    split; [reflexivity|]. split; [exact C|]. inversion K; subst.
    unfold ring_empty. apply Z.eqb_eq, (holds_empty RING_BITS ring_bits_range _ [] Hh). reflexivity.
  - destruct (IH _ _ W) as (d' & D & C & M).
    + simpl. rewrite length_drop. simpl. unfold BURST_SIZE. lia.
    + exists d'. split; [exact D|]. split; [|exact M]. rewrite C.
      exact (tally_app rules (p :: w) BURST_SIZE c).
Qed.

(** ** Lemmas: a flow that always has room counts every arrival *)

Lemma tally_one_rx (rules : RuleTable) (c : Counters) (p : Packet) :
  tally_one rules (count_rx c) p = count_rx (tally_one rules c p).
Proof.
  unfold tally_one. destruct (match_pdr rules p) as [pdr|]; [|reflexivity].
  destruct (option_map _ _) as [[]|]; reflexivity.
Qed.

Lemma tally_one_dropped (rules : RuleTable) (c : Counters) (p : Packet) :
  tally_one rules (count_dropped c) p = count_dropped (tally_one rules c p).
Proof.
  unfold tally_one. destruct (match_pdr rules p) as [pdr|]; [|reflexivity].
  destruct (option_map _ _) as [[]|]; reflexivity.
Qed.

Lemma tally_dropped (rules : RuleTable) (ps : list Packet) (c : Counters) :
  fold_left (tally_one rules) ps (count_dropped c) = count_dropped (fold_left (tally_one rules) ps c).
Proof.
  revert c. induction ps as [|p ps IH]; intros c; [reflexivity|]. simpl. rewrite tally_one_dropped. apply IH.
Qed.

Lemma tally_rx (rules : RuleTable) (ps : list Packet) (c : Counters) :
  fold_left (tally_one rules) ps (count_rx c) = count_rx (fold_left (tally_one rules) ps c).
Proof.
  revert c. induction ps as [|p ps IH]; intros c; [reflexivity|]. simpl. rewrite tally_one_rx. apply IH.
Qed.

(** The counters once the waiting packets are processed too. *)
Definition settled (rules : RuleTable) (fl : Flow) : Counters :=
  fold_left (tally_one rules) (waiting fl) (tallies fl).

Lemma settled_run (rules : RuleTable) (cap : Z) (burst : nat) (es : list event) (fl : Flow) :
  roomy rules cap burst es fl = true ->
  settled rules (flow_run rules cap burst es fl) = tally_all rules (packets es) (settled rules fl).
Proof.
  revert fl. induction es as [|e es IH]; intros fl H; [reflexivity|].
  simpl in H. apply andb_true_iff in H as [He H].
  change (flow_run rules cap burst (e :: es) fl) with (flow_run rules cap burst es (flow_event rules cap burst fl e)).
  rewrite (IH _ H). destruct e as [p|now]; simpl in *.
  - rewrite He. unfold settled. simpl. rewrite fold_left_app, tally_rx. reflexivity.
  - f_equal. apply (tally_app rules (waiting fl) burst).
Qed.

(** ** Lemmas: what a run of the blocking path has counted *)

(** The counters once the pending packets are processed too. *)
Definition settle (x : SocketRun) : Counters :=
  fold_left (tally_one (s_rules_ (sp x))) (pending x) (counters (s_stats_ (sp x))).

Lemma offer_settle (p : Packet) (x x' : SocketRun) (ok : bool) :
  socket_offer p x = Some (x', ok) ->
  s_rules_ (sp x') = s_rules_ (sp x)
  /\ settle x' = tally_offers (s_rules_ (sp x)) [(p, ok)] (settle x).
Proof.
  intros E. destruct (offer_pending p x x' ok E) as (_ & Er & _ & Ep & Ec). split; [exact Er|].
  unfold settle. rewrite Er, Ep, Ec, fold_left_app. cbn. destruct ok; cbn.
  - rewrite tally_rx. reflexivity.
  - rewrite tally_dropped, tally_rx. reflexivity.
Qed.

Lemma move_settle (m : Move) (x x' : SocketRun) :
  socket_move m x = Some x' -> s_rules_ (sp x') = s_rules_ (sp x) /\ settle x' = settle x.
Proof.
  intros E. destruct (move_goes m x x' E) as (Er & k & _ & Ep & Ec). split; [exact Er|].
  unfold settle. rewrite Er, Ep, Ec. apply tally_app.
Qed.

Lemma run_settle (ls : list Label) (x x' : SocketRun) :
  shaped x -> socket_run ls x = Some x' ->
  shaped x' /\ s_rules_ (sp x') = s_rules_ (sp x)
  /\ settle x' = tally_offers (s_rules_ (sp x)) (offers ls) (settle x).
Proof.
  revert x. induction ls as [|l ls IH]; intros x Hx E; [injection E as <-; auto|].
  cbn in E. destruct (socket_step l x) as [y|] eqn:El; [|discriminate]. cbn in E.
  assert (H : shaped y /\ s_rules_ (sp y) = s_rules_ (sp x)
              /\ settle y = tally_offers (s_rules_ (sp x)) (offers [l]) (settle x)).
  { destruct l as [p ok|m]; cbn in El.
    - destruct (socket_offer p x) as [[y' ok']|] eqn:Eo; [|discriminate]. cbn in El.
      case_bool_decide; [|discriminate]. injection El as ->. subst ok'.
      split; [eapply offer_shaped; eassumption|]. exact (offer_settle p x y ok Eo).
    - split; [eapply move_shaped; eassumption|]. exact (move_settle m x y El). }
  destruct H as (Hy & Er & Es). destruct (IH y Hy E) as (Hx' & Er' & Es').
  split; [exact Hx'|]. split; [congruence|]. rewrite Es', Er, Es.
  unfold offers, tally_offers. cbn [flat_map]. rewrite app_nil_r, fold_left_app. reflexivity.
Qed.

Lemma tally_taken (rules : RuleTable) (ps : list Packet) (c : Counters) :
  tally_offers rules (map (fun p => (p, true)) ps) c = tally_all rules ps c.
Proof. revert c. induction ps as [|p ps IH]; intros c; [reflexivity|apply IH]. Qed.

(** ** Lemmas: the end of a run of the blocking path *)

Lemma own_shaped (x x' : SocketRun) : own x x' -> shaped x -> shaped x'.
Proof. intros (m & _ & E) Hx. exact (move_shaped m x x' Hx E). Qed.

Lemma own_settle (x x' : SocketRun) : own x x' -> settle x' = settle x.
Proof. intros (m & _ & E). apply (move_settle m x x' E). Qed.

(** What the threads can still do. *)
Definition energy (x : SocketRun) : nat :=
  2 * length (queue_ (sp x))
  + match worker x with
    | Asleep | Exited => 0 | AboutToWait | Draining => 1 | Checking | DrainProcessing _ => 2 | Processing _ => 3
    end
  + match client x with Ready => 10 | Pushed => 13 | Stored => 4 | Notified => 1 | Joined => 0 end.

Lemma own_energy (x x' : SocketRun) : own x x' -> (energy x' < energy x)%nat.
Proof.
  intros (m & Hm & E). unfold energy. destruct x as [s w c]. destruct m as [| | | |now|]; [| | | | |contradiction].
  5: { assert (E' : exists s' w', worker_turn now s w = Some (s', w')
                      /\ x' = {| sp := s'; worker := w'; client := c |}).
       { destruct c, w; cbn in *; try discriminate; try (destruct (queue_ s) in *); injection E as <-; eauto. }
       destruct E' as (s' & w' & Et & ->). clear E. cbn [sp worker client].
       destruct w as [| | |p| |p|]; cbn in Et; try discriminate.
       - destruct (queue_ s) as [|q0 q] eqn:Q; injection Et as <- <-; cbn;
           [rewrite Q; destruct (s_running_ s); cbn; lia|lia].
       - injection Et as <- <-. cbn. lia.
       - injection Et as <- <-. destruct (process_one_spec now p s) as (_ & -> & _). cbn. lia.
       - destruct (queue_ s) as [|q0 q] eqn:Q; injection Et as <- <-; cbn; [rewrite Q; cbn; lia|lia].
       - injection Et as <- <-. destruct (process_one_spec now p s) as (_ & -> & _). cbn. lia. }
  all: destruct c; try discriminate; destruct w; try discriminate; injection E as <-; cbn; lia.
Qed.

Lemma own_sn (x : SocketRun) : sn own x.
Proof.
  induction x as [x IH] using (well_founded_induction (well_founded_ltof _ energy)).
  constructor. intros y Hy. apply IH. apply own_energy. exact Hy.
Qed.

(** The notification of [stop] reached a worker that had tested the predicate
    and was not yet asleep: it is not woken. *)
Definition missed (x : SocketRun) : bool :=
  match client x, worker x with Notified, (AboutToWait | Asleep) => true | _, _ => false end.

Lemma own_missed (x x' : SocketRun) :
  shaped x -> client x = Notified \/ client x = Joined -> own x x' ->
  missed x' = missed x /\ (client x' = Notified \/ client x' = Joined).
Proof.
  intros Hx Hc (m & Hm & E). destruct Hx as [R W J]. destruct x as [s w c]. cbn in *.
  destruct Hc as [-> | ->]; [|rewrite (J eq_refl) in *; destruct m; discriminate].
  destruct m as [| | | |now|]; cbn in E; try discriminate; [destruct w; try discriminate; injection E as <-; auto| |contradiction].
  destruct w; cbn in E; try discriminate; rewrite ?R in E; try (destruct (queue_ s) in E); injection E as <-; auto.
Qed.

Lemma notified_rest (x : SocketRun) :
  shaped x -> client x = Notified \/ client x = Joined -> nf own x ->
  queue_ (sp x) = [] /\ in_hand (worker x) = []
  /\ if missed x then client x = Notified /\ worker x = Asleep else client x = Joined.
Proof.
  intros [R W J] Hc Hn. destruct x as [s w c]. unfold missed. cbn in *.
  assert (Hstep : forall m y, m <> Spurious -> socket_move m {| sp := s; worker := w; client := c |} = Some y -> False).
  { intros m y Hm E. apply Hn. exists y, m. auto. }
  destruct Hc as [-> | ->]; [|rewrite (J eq_refl) in *; destruct W; auto].
  destruct w as [| | |p| |p|].
  1, 5: exfalso; destruct (queue_ s) eqn:Q;
    eapply (Hstep (WorkerTurn 0)); try discriminate; cbn; rewrite Q; reflexivity.
  1, 3, 4: exfalso; eapply (Hstep (WorkerTurn 0)); [discriminate|reflexivity].
  - destruct W as [W|W]; [auto|discriminate].
  - exfalso. eapply (Hstep Join); [discriminate|reflexivity].
Qed.

(** From the notification on, the threads come to rest with every packet
    processed, and [stop] has returned unless the notification was missed. *)
Lemma notified_end (x x' : SocketRun) :
  shaped x -> client x = Notified -> rtc own x x' -> nf own x' ->
  queue_ (sp x') = [] /\ counters (s_stats_ (sp x')) = settle x
  /\ if missed x then client x' = Notified /\ worker x' = Asleep else client x' = Joined.
Proof.
  intros Hx Hc Hr Hn.
  assert (H : shaped x' /\ settle x' = settle x /\ missed x' = missed x /\ (client x' = Notified \/ client x' = Joined)).
  { assert (Hc' : client x = Notified \/ client x = Joined) by auto. clear Hn Hc.
    induction Hr as [|x y z Hxy _ IH]; [auto|].
    destruct (own_missed x y Hx Hc' Hxy) as [Em Hc2].
    destruct (IH (own_shaped x y Hxy Hx) Hc2) as (Hz & Es & Emz & Hcz).
    rewrite Es, Emz, Em, (own_settle x y Hxy). auto. }
  destruct H as (Hx' & Es & Em & Hc'). destruct (notified_rest x' Hx' Hc' Hn) as (Hq & Hi & He).
  split; [exact Hq|]. split; [|rewrite <- Em; exact He].
  rewrite <- Es. unfold settle, pending. rewrite Hq, Hi. reflexivity.
Qed.

(** ** Lemmas: the pool at its wrap *)

Lemma enqueue_room (p : Packet) (d : DpdkPath) (ms : list nat) (m : nat) (next : Z) :
  holds RING_BITS (rx_ring_ d) ms -> Z.of_nat (length ms) < RING_CAPACITY ->
  alloc (mbuf_pool_ d) = ({| pool_ := alter (set_in_use true) m (pool_ (mbuf_pool_ d)); next_ := next |}, m) ->
  exists r, fst (rx_enqueue p d) = d_set_ring r (filled m p next d) /\ holds RING_BITS r (ms ++ [m]).
Proof.
  intros H Hl E. rewrite (rx_enqueue_filled p d m next E).
  destruct (push_spec RING_BITS ring_bits_range m (rx_ring_ d) ms H) as [Eo P].
  destruct (push _ _ _) as [r ok]. simpl in Eo, P. subst ok.
  unfold RING_CAPACITY in Hl. apply Z.ltb_lt in Hl. rewrite Hl in *. exists r. auto.
Qed.

Lemma pool_size_filled (m : nat) (p : Packet) (next : Z) (d : DpdkPath) :
  pool_size (mbuf_pool_ (filled m p next d)) = pool_size (mbuf_pool_ d).
Proof. unfold filled, pool_size. simpl. rewrite !length_alter. reflexivity. Qed.

(** The ring empty and every buffer handed out once: the next two arrivals are
    given the same one. *)
Lemma wrap_shares (p q : Packet) (d : DpdkPath) :
  holds RING_BITS (rx_ring_ d) [] -> pool_size (mbuf_pool_ d) = POOL_SIZE ->
  next_ (mbuf_pool_ d) = POOL_SIZE ->
  let d2 := fst (rx_enqueue q (fst (rx_enqueue p d))) in
  holds RING_BITS (rx_ring_ d2) [0%nat; 0%nat] /\ packet_at d2 0 = q /\
  d_rules_ d2 = d_rules_ d /\
  counters (d_stats_ d2) = count_rx (count_rx (counters (d_stats_ d))).
Proof.
  intros H Sz Nx.
  destruct (enqueue_room p d [] 0 0 H ltac:(reflexivity)) as (r1 & -> & H1);
    [apply alloc_wraps; congruence|].
  destruct (enqueue_room q (d_set_ring r1 (filled 0 p 0 d)) [0%nat] 0 1 H1 ltac:(reflexivity)) as (r2 & -> & H2).
  { apply (alloc_fresh _ 0); [reflexivity | | reflexivity].
    change (pool_size (mbuf_pool_ (d_set_ring r1 (filled 0 p 0 d)))) with (pool_size (mbuf_pool_ (filled 0 p 0 d))).
    rewrite pool_size_filled, Sz. reflexivity. }
  split; [exact H2|]. split; [|split; reflexivity].
  apply (filled_this 0 q 1 (d_set_ring r1 (filled 0 p 0 d))).
  pose proof (pool_size_filled 0 p 0 d) as L. unfold pool_size in *. simpl in *.
  rewrite Sz in L. unfold POOL_SIZE in L. lia.
Qed.

(** [n] packets, each followed by a poll. *)
Definition one_by_one (n : nat) (p : Packet) : list event :=
  flat_map (fun _ => [Arrive p; Work 0]) (seq 0 n).

Lemma one_by_one_packets (n : nat) (p : Packet) : length (packets (one_by_one n p)) = n.
Proof.
  unfold one_by_one. rewrite <- (length_seq n 0) at 2. generalize (seq 0 n) as l.
  induction l as [|i l IH]; [reflexivity | simpl; f_equal; exact IH].
Qed.

Lemma one_by_one_idle (rules : RuleTable) (n : nat) (p : Packet) (fl : Flow) :
  waiting fl = [] ->
  waiting (flow_run rules RING_CAPACITY BURST_SIZE (one_by_one n p) fl) = [].
Proof.
  unfold one_by_one. generalize (seq 0 n) as l. intros l. revert fl.
  induction l as [|i l IH]; intros fl Hw; [exact Hw|]. apply IH. simpl. rewrite Hw. reflexivity.
Qed.

(** ** Lemmas: the percentiles *)

Lemma sorted_lookup (l : list Z) (i j : nat) :
  StronglySorted Z.le l -> (i <= j < length l)%nat -> l !!! i <= l !!! j.
Proof.
  intros H. revert i j. induction H as [|x l Hs IH Hx]; intros i j Hij; simpl in *; [lia|].
  destruct i as [|i], j as [|j]; simpl; [lia | | lia | apply IH; lia].
  destruct (lookup_lt_is_Some_2 l j ltac:(lia)) as [y Hy].
  rewrite (list_lookup_total_correct _ _ _ Hy). exact (Forall_lookup_1 _ _ _ _ Hx Hy).
Qed.

(** The reported values are samples in order: minimum, median, 95th and 99th
    percentiles, maximum. *)
Lemma percentiles_ordered (s : PathStats) :
  0 < sample_idx s -> Z.of_nat (length (latencies s)) = RESERVOIR_SIZE ->
  let p := compute_percentiles s in
  min_ns p <= p50_ns p <= p95_ns p /\ p95_ns p <= p99_ns p <= max_ns p.
Proof.
  intros Hs Hl. unfold compute_percentiles. set (filled := Z.min _ _).
  assert (Hf : 0 < filled <= RESERVOIR_SIZE) by (unfold filled, RESERVOIR_SIZE in *; lia).
  destruct (Z.eqb_spec filled 0); [lia|]. cbv zeta. simpl.
  set (l := merge_sort Z.le _).
  assert (L : length l = Z.to_nat filled).
  { unfold l. rewrite (Permutation_length (merge_sort_Permutation _ _)), length_take. lia. }
  assert (S : StronglySorted Z.le l) by (apply StronglySorted_merge_sort; typeclasses eauto).
  repeat split; apply sorted_lookup; try exact S; rewrite L; Z.div_mod_to_equations; lia.
Qed.

(** ** Properties *)

(** The rule table built for [n] UEs classifies exactly their packets: an
    uplink packet by its tunnel and a downlink packet by its address match the
    PDR of their UE, which leads to the FAR of that direction (out to the
    Internet as it is, or to the gNB inside GTP-U on port 2152) and to the QER
    of the UE; a packet of no UE matches nothing. *)
Theorem demo_rules_classify (n : Z) (p : Packet) :
  0 <= n < 2 ^ 31 ->
  let rt := build_demo_rules n in
  let i := match p_dir p with UL => p_teid p - 1000 | DL => p_ue_ip p - ip4 10 45 0 1 end in
  if (0 <=? i) && (i <? n) then
    exists pdr far qer,
      match_pdr rt p = Some pdr /\ get_far rt (pdr_far_id pdr) = Some far /\
      get_qer rt (pdr_qer_id pdr) = Some qer /\ pdr_dir pdr = p_dir p /\
      far_action far = FORWARD /\
      (far_dst_ip far, far_dst_port far, far_encap_gtpu far) =
        match p_dir p with
        | UL => (ip4 8 8 8 8, 0, false) | DL => (ip4 10 10 0 1, 2152, true)
        end /\
      qer_qfi qer = nth (Z.to_nat (i mod 3)) [1; 2; 9] 0
  else match_pdr rt p = None.
Proof.
  intros Hn rt i. pose proof (demo_inv_build (Z.to_nat n) ltac:(lia)) as [A B C D E F G].
  change (fold_left _ _ _) with rt in *. rewrite Z2Nat.id in * by lia.
  assert (Q : forall j, 0 <= j -> qfi_cycle !!! Z.to_nat (j mod 3) = nth (Z.to_nat (j mod 3)) [1; 2; 9] 0).
  { intros j Hj. pose proof (Z.mod_pos_bound j 3 ltac:(lia)) as M.
    destruct (Z.to_nat (j mod 3)) as [|[|[|k]]] eqn:K; [reflexivity..|lia]. }
  unfold match_pdr. destruct (p_dir p) eqn:Dir; subst i;
    [rewrite F; change base_teid with 1000 | rewrite G; change base_ue_ip with (ip4 10 45 0 1)];
    destruct (_ && _) eqn:R; try reflexivity;
    apply andb_true_iff in R as [R1 R2]; apply Z.leb_le in R1; apply Z.ltb_lt in R2;
    [set (j := p_teid p - 1000) in * | set (j := p_ue_ip p - ip4 10 45 0 1) in *];
    destruct (demo_ids j) as (I1 & I2 & I3 & _); try lia;
    [exists (demo_pdr UL j), (demo_far UL j) | exists (demo_pdr DL j), (demo_far DL j)];
    exists (demo_qer j); unfold get_far, get_qer; cbn [demo_pdr pdr_far_id pdr_qer_id pdr_dir]; rewrite ?I1, ?I2, ?I3.
  - rewrite A, C, E by lia. repeat split. exact (Q j R1).
  - rewrite B, D, E by lia. repeat split. exact (Q j R1).
Qed.

Lemma demo_rules_classify_witness :
  exists pdr far qer,
    match_pdr (build_demo_rules 5) (classify 0 0 newPacket) = None /\
    let p := {| p_teid := 1004; p_ue_ip := 0; p_dscp := 0; p_payload_len := 0; p_arrival_ns := 0;
                p_qfi := 0; p_pdr_id := 0; p_far_id := 0; p_classified := false; p_dropped := false;
                p_seq := 0; p_dir := UL |} in
    match_pdr (build_demo_rules 5) p = Some pdr /\
    get_far (build_demo_rules 5) (pdr_far_id pdr) = Some far /\
    get_qer (build_demo_rules 5) (pdr_qer_id pdr) = Some qer /\ qer_qfi qer = 2.
Proof.
  pose proof (demo_rules_classify 5 (classify 0 0 newPacket) ltac:(lia)) as N.
  pose proof (demo_rules_classify 5
    {| p_teid := 1004; p_ue_ip := 0; p_dscp := 0; p_payload_len := 0; p_arrival_ns := 0;
       p_qfi := 0; p_pdr_id := 0; p_far_id := 0; p_classified := false; p_dropped := false;
       p_seq := 0; p_dir := UL |} ltac:(lia)) as (pdr & far & qer & P & F & Q & _ & _ & _ & R).
  exists pdr, far, qer. auto.
Defined.

(** C17. The polling path and the blocking path count the same.  Offered the
    same packets with room for each, at most [65536] of them, in any
    interleaving of the threads: [stop] of the polling path terminates; the
    threads of the blocking path come to rest after [stop] has notified; and
    both leave the counters of the specification, every packet received once
    and, by the rules alone, forwarded, dropped, or dropped for want of a PDR,
    with nothing queued.  [stop] of the blocking path has then returned, unless
    its notification fell between the worker's test of the predicate and its
    wait: then the worker sleeps and [join] waits for it. *)
Theorem paths_agree (rules : RuleTable) (es_d : list event) (ls : list Label) (x : SocketRun)
    (clock : nat -> Z) (fuel : nat) :
  offers ls = map (fun p => (p, true)) (packets es_d) ->
  Z.of_nat (length (packets es_d)) <= POOL_SIZE ->
  roomy rules RING_CAPACITY BURST_SIZE es_d newFlow = true ->
  (length (waiting (flow_run rules RING_CAPACITY BURST_SIZE es_d newFlow)) < fuel)%nat ->
  socket_run ls (launched rules) = Some x -> client x = Notified ->
  (exists d,
    d_stop fuel clock (dpdk_run es_d (d_start (newDpdk rules))) = Some d /\
    counters (d_stats_ d) = tally_all rules (packets es_d) noCounters /\ ring_empty (rx_ring_ d) = true) /\
  sn own x /\
  (forall x', rtc own x x' -> nf own x' ->
    counters (s_stats_ (sp x')) = tally_all rules (packets es_d) noCounters /\ queue_ (sp x') = [] /\
    if missed x then client x' = Notified /\ worker x' = Asleep else client x' = Joined).
Proof.
  intros Eo Hn Rd Fd Ex Hc. split; [|split; [apply own_sn|]].
  - pose proof (dpdk_run_ok rules es_d 0 _ _ (d_running_ok _ _ _ _ true (d_ok_new rules)) Hn) as D.
    destruct (dpdk_drain_ok rules _ fuel clock _ _ (d_running_ok _ _ _ _ false D) Fd) as (d & Ed & Cd & Xd).
    exists d. split; [exact Ed|]. split; [|exact Xd]. rewrite Cd. apply (settled_run rules _ _ es_d newFlow Rd).
  - intros x' Hr Hnf. destruct (run_settle ls _ x (launched_shaped rules) Ex) as (Hx & _ & Es).
    destruct (notified_end x x' Hx Hc Hr Hnf) as (Hq & Ec & He). split; [|split; [exact Hq|exact He]].
    rewrite Ec, Es, Eo. apply tally_taken.
Qed.

(** Three packets and [stop], whose notification finds the worker asleep, and
    the same with the notification missed. *)
Definition ul_packet (teid : Z) : Packet :=
  {| p_teid := teid; p_ue_ip := 0; p_dscp := 0; p_payload_len := 0; p_arrival_ns := 0; p_qfi := 0;
     p_pdr_id := 0; p_far_id := 0; p_classified := false; p_dropped := false; p_seq := 0; p_dir := UL |}.

Definition three_packets : list event :=
  [Arrive (ul_packet 5); Work 0; Work 1; Arrive (ul_packet 1000); Arrive (ul_packet 1001)].

Definition three_offers : list Label :=
  [Do (WorkerTurn 0); Do (WorkerTurn 0); Offer (ul_packet 5) true; Do Notify; Offer (ul_packet 1000) true; Do Notify;
   Do (WorkerTurn 1); Do (WorkerTurn 2); Offer (ul_packet 1001) true; Do Notify;
   Do (WorkerTurn 3); Do (WorkerTurn 4); Do (WorkerTurn 5); Do (WorkerTurn 6); Do (WorkerTurn 7); Do StopStore].

Lemma paths_agree_witness :
  let T := {| pkts_rx := 3; pkts_forwarded := 2; pkts_dropped := 1; pkts_no_pdr := 1 |} in
  exists d x y,
    d_stop 4 (fun _ => 9) (dpdk_run three_packets (d_start (newDpdk (build_demo_rules 2)))) = Some d /\
    counters (d_stats_ d) = T /\
    socket_run (three_offers ++ [Do (WorkerTurn 8); Do StopNotify]) (launched (build_demo_rules 2)) = Some x /\
    (forall x', rtc own x x' -> nf own x' -> counters (s_stats_ (sp x')) = T /\ client x' = Joined) /\
    socket_run (three_offers ++ [Do StopNotify]) (launched (build_demo_rules 2)) = Some y /\
    (forall y', rtc own y y' -> nf own y' -> counters (s_stats_ (sp y')) = T /\ worker y' = Asleep).
Proof.
  intros T.
  assert (ET : T = tally_all (build_demo_rules 2) (packets three_packets) noCounters) by (vm_compute; reflexivity).
  set (ls := three_offers ++ [Do (WorkerTurn 8); Do StopNotify]).
  set (run ls := socket_run ls (launched (build_demo_rules 2))).
  assert (F : forall ls b, option_map (fun x => (bool_decide (client x = Notified), missed x)) (run ls) = Some (true, b) ->
              exists x, run ls = Some x /\ client x = Notified /\ missed x = b).
  { intros l b. destruct (run l) as [x|]; [|discriminate]. intros [= H <-]. apply bool_decide_eq_true in H. eauto. }
  destruct (F ls false) as (x & Ex & Cx & Mx); [vm_compute; reflexivity|].
  destruct (F (three_offers ++ [Do StopNotify]) true) as (y & Ey & Cy & My); [vm_compute; reflexivity|].
  destruct (paths_agree (build_demo_rules 2) three_packets ls x (fun _ => 9) 4) as ((d & D & Cd & _) & _ & Hx);
    [vm_compute; reflexivity|vm_compute; discriminate|vm_compute; reflexivity|vm_compute; lia|exact Ex|exact Cx|].
  destruct (paths_agree (build_demo_rules 2) three_packets (three_offers ++ [Do StopNotify]) y (fun _ => 9) 4) as (_ & _ & Hy);
    [vm_compute; reflexivity|vm_compute; discriminate|vm_compute; reflexivity|vm_compute; lia|exact Ey|exact Cy|].
  rewrite Mx in Hx. rewrite My in Hy. rewrite <- ET in *. exists d, x, y.
  split; [exact D|]. split; [exact Cd|]. split; [exact Ex|].
  split; [intros x' Hr Hn; destruct (Hx x' Hr Hn) as (? & _ & ?); auto|].
  split; [exact Ey|]. intros y' Hr Hn. destruct (Hy y' Hr Hn) as (? & _ & _ & ?). auto.
Defined.

(** [stop] can wait for ever: it stores [running_] and notifies without the
    mutex.  The worker has found the queue empty and [running_] set; both
    happen before it sleeps; nothing wakes it, and no thread can go on. *)
Theorem stop_can_hang (rules : RuleTable) :
  exists ls x, socket_run ls (launched rules) = Some x
    /\ client x = Notified /\ worker x = Asleep /\ s_running_ (sp x) = false /\ nf own x.
Proof.
  exists [Do (WorkerTurn 0); Do StopStore; Do StopNotify; Do (WorkerTurn 0)]. eexists. split; [reflexivity|].
  repeat split. intros (y & m & Hm & E). destruct m; try discriminate. contradiction.
Qed.

(** The pool hands the same buffer out twice when it wraps.  After exactly
    [65536] arrivals, all processed, two packets that arrive before the next
    poll share buffer 0: the second overwrites the first in the ring, so the
    second is counted twice and the first never reaches the pipeline, whatever
    the rules say of it; [alloc] reports no failure. *)
Theorem pool_wrap_loses_packet (rules : RuleTable) (es : list event) (now : Z) (p q : Packet) :
  Z.of_nat (length (packets es)) = POOL_SIZE ->
  let fl := flow_run rules RING_CAPACITY BURST_SIZE es newFlow in
  waiting fl = [] ->
  let d := dpdk_run (es ++ [Arrive p; Arrive q; Work now]) (d_start (newDpdk rules)) in
  counters (d_stats_ d) = tally_one rules (tally_one rules (count_rx (count_rx (tallies fl))) q) q.
Proof.
  intros Hn fl Hw d.
  pose proof (dpdk_run_ok rules es 0 _ _ (d_running_ok _ _ _ _ true (d_ok_new rules))) as D.
  destruct D as [R C Sz Nx (ms & H & K)]; [lia|]. fold fl in C, K. rewrite Hw in K.
  inversion K; subst ms. unfold d, dpdk_run in *. rewrite fold_left_app. simpl fold_left.
  set (d0 := fold_left dpdk_event es _) in *.
  destruct (wrap_shares p q d0 H Sz) as (H2 & P2 & R2 & C2); [rewrite Nx; exact Hn|].
  destruct (lcore_poll_spec now _ _ H2) as (r & _ & ->).
  set (d2 := fst (rx_enqueue q _)) in *.
  destruct (process_burst_spec now [0%nat; 0%nat] [q; q] (d_set_ring r d2)) as [_ E].
  { repeat constructor; change (packet_at (d_set_ring r d2) 0) with (packet_at d2 0); rewrite P2; reflexivity. }
  change (take BURST_SIZE [0%nat; 0%nat]) with [0%nat; 0%nat]. cbn [fst]. rewrite E.
  simpl. rewrite R2, R, C2, C. reflexivity.
Qed.

(** The lost packet is one that would have been forwarded. *)
Lemma pool_wrap_loses_packet_witness :
  let ul teid := {| p_teid := teid; p_ue_ip := 0; p_dscp := 0; p_payload_len := 0; p_arrival_ns := 0;
    p_qfi := 0; p_pdr_id := 0; p_far_id := 0; p_classified := false; p_dropped := false;
    p_seq := 0; p_dir := UL |} in
  let rules := build_demo_rules 1 in
  let es := one_by_one (Z.to_nat POOL_SIZE) (ul 1000) in
  let fl := flow_run rules RING_CAPACITY BURST_SIZE es newFlow in
  let c := count_rx (count_rx (tallies fl)) in
  tally_one rules c (ul 1000) = count_forwarded c /\
  counters (d_stats_ (dpdk_run (es ++ [Arrive (ul 1000); Arrive (ul 5); Work 0]) (d_start (newDpdk rules))))
  = count_dropped (count_no_pdr (count_dropped (count_no_pdr c))).
Proof.
  intros ul rules es fl c. split; [reflexivity|].
  apply (pool_wrap_loses_packet rules es 0 (ul 1000) (ul 5)).
  - unfold es. rewrite one_by_one_packets, Z2Nat.id; [reflexivity | discriminate].
  - apply one_by_one_idle. reflexivity.
Defined.
