(* ===== verification/Hss.v ===== *)
(** * The Home Subscriber Server

    [HssNode] of [4g-simulator/src/hss/hss_node.cpp]: Diameter S6a
    authentication.  [std::mt19937] is the generator of the C++ standard, with
    its constants. *)

From S2P Require Import Prelude Tlv NodeEnv UeStore.
#[local] Open Scope Z_scope.

(** ** std::mt19937 *)

Module Mt19937.

(** The seeding recurrence, word after word. *)
Fixpoint seed_loop (n : nat) (i prev : Z) : list Z :=
  match n with
  | O => []
  | S n' =>
      let x := u32 (1812433253 * Z.lxor prev (Z.shiftr prev 30) + i) in
      x :: seed_loop n' (i + 1) x
  end.

Definition seed (s : Z) : list Z := u32 s :: seed_loop 623 1 (u32 s).

(** The word that replaces word [k]: bit 31 of it, the rest of the next, and
    the word 397 further on. *)
Definition twist (x0 x1 xm : Z) : Z :=
  let y := Z.lor (Z.land x0 0x80000000) (Z.land x1 0x7fffffff) in
  Z.lxor (Z.lxor xm (Z.shiftr y 1)) (if Z.odd y then 0x9908b0df else 0).

Definition temper (y : Z) : Z :=
  let y := Z.lxor y (Z.shiftr y 11) in
  let y := Z.lxor y (u32 (Z.land (Z.shiftl y 7) 0x9d2c5680)) in
  let y := Z.lxor y (u32 (Z.land (Z.shiftl y 15) 0xefc60000)) in
  Z.lxor y (Z.shiftr y 18).

(** The generator as a sliding window of 624 words: an output drops the
    first word and appends the new one. *)
Definition next (st : list Z) : Z * list Z :=
  match st with
  | x0 :: (x1 :: _) as tl =>
      let x := twist x0 x1 (nth 397 st 0) in
      (u32 (temper x), tail st ++ [x])
  | _ => (0, st)
  end.

End Mt19937.

(** ** Authentication vectors *)

(** [for (i < n) rand_out[i] = static_cast<uint8_t>(rng())]. *)
Fixpoint draw (n : nat) (rng : list Z) : bytes :=
  match n with
  | O => []
  | S n' => let '(x, rng') := Mt19937.next rng in u8 x :: draw n' rng'
  end.

Definition rand_of (imsi : Z) : bytes :=
  draw 16 (Mt19937.seed (u32 (Z.lxor imsi (Z.shiftr imsi 32)))).

Definition generateAuthVectors (imsi : Z) : AuthVectors :=
  let rand_out := rand_of imsi in
  let autn_out := map (fun b => Z.lxor b 0xAA) rand_out in
  let xres_out := map (fun b => Z.lxor b 0x55) (take 8 rand_out) in
  mkAuth rand_out autn_out xres_out (replicate 32 0).

(** ** The node *)

Record HssNode : Type := mkHss { hss_next_seq_ : Z }.

Definition newHss : HssNode := mkHss 1.

(** The locals of [handleAIR]. *)
Record AirFields : Type := mkAir { air_imsi : Z; air_plmn : Z }.

Definition air_cases : cases AirFields :=
  [(DIA_IMSI, RdU64 (fun v l => mkAir v (air_plmn l)));
   (DIA_PLMN, RdU32 (fun v l => mkAir (air_imsi l) v))].

(** The fields of the answer. *)
Definition aia_fields (imsi : Z) (av : AuthVectors) : list field :=
  [FU64 DIA_IMSI imsi; FBytes DIA_RAND (av_rand av); FBytes DIA_AUTN (av_autn av);
   FBytes DIA_XRES (av_xres av); FBytes DIA_KASME (av_kasme av)].

Section Hss.
Context {W : Type} `{Env W}.

Definition hss_seq : M (HssNode * W) Z :=
  n ← get_state; modify (fun s => mkHss (u32 (hss_next_seq_ s + 1)));; mret (hss_next_seq_ n).

Definition handleAIR (payload : bytes) (req_seq : Z) : M (HssNode * W) unit :=
  l ← parse_payload air_cases payload (mkAir 0 0);
  let imsi := air_imsi l in
  let av := generateAuthVectors imsi in
  seq ← hss_seq;
  ok ← send mme_conn_ (frame (message DIA_AIA seq (aia_fields imsi av)));
  if ok : bool
  then pcap (writeDiameter AUTH_INFO S6A false IP_HSS PORT_DIA IP_MME PORT_DIA)
  else mret tt.

(** One turn of [receiveLoop] on a payload. *)
Definition hss_receive (payload : bytes) : M (HssNode * W) unit :=
  let r := newReader payload in
  if msgType r =? type_code DIA_AIR then handleAIR payload (seqNum r) else mret tt.

End Hss.

(** ** Lemmas *)

Example mt19937_default_seed_first :
  (Mt19937.next (Mt19937.seed 5489)).1 = 3499211612.
Proof. vm_compute. reflexivity. Qed.

Lemma draw_length (n : nat) (rng : list Z) : length (draw n rng) = n.
Proof.
  revert rng. induction n as [|n IH]; intros rng; cbn; [reflexivity|].
  destruct (Mt19937.next rng). cbn. rewrite IH. reflexivity.
Qed.

Lemma draw_bytes (n : nat) (rng : list Z) : is_bytes (draw n rng).
Proof.
  revert rng. induction n as [|n IH]; intros rng; cbn; [constructor|].
  destruct (Mt19937.next rng). constructor; [apply u8_range|apply IH].
Qed.

Lemma rand_of_length (imsi : Z) : length (rand_of imsi) = 16%nat.
Proof. apply draw_length. Qed.

Lemma rand_of_bytes (imsi : Z) : is_bytes (rand_of imsi).
Proof. apply draw_bytes. Qed.

#[global] Opaque rand_of.

Lemma generate_lengths (imsi : Z) :
  let av := generateAuthVectors imsi in
  length (av_rand av) = 16%nat /\ length (av_autn av) = 16%nat
  /\ length (av_xres av) = 8%nat /\ length (av_kasme av) = 32%nat.
Proof.
  cbn. rewrite !length_map, length_take, rand_of_length. auto.
Qed.

Lemma aia_fields_wf (imsi : Z) : in_u 64 imsi ->
  Forall wf_field (aia_fields imsi (generateAuthVectors imsi)).
Proof.
  intros Hi. destruct (generate_lengths imsi) as (H1 & H2 & H3 & H4).
  repeat constructor; cbn [wf_field]; first [apply Hi|lia].
Qed.

Lemma hss_receive_air {W} `{Env W} (s : HssNode) (w : W) (seq imsi plmn : Z) :
  in_u 32 seq -> in_u 64 imsi -> in_u 32 plmn ->
  hss_receive (enc_message DIA_AIR seq [FU64 DIA_IMSI imsi; FU32 DIA_PLMN plmn]) (s, w) =
  let aia := message DIA_AIA (hss_next_seq_ s) (aia_fields imsi (generateAuthVectors imsi)) in
  let '(ok, w1) := env_send mme_conn_ (frame aia) w in
  Ok (tt, (mkHss (u32 (hss_next_seq_ s + 1)),
           if ok then env_pcap (writeDiameter AUTH_INFO S6A false IP_HSS PORT_DIA IP_MME PORT_DIA) w1
           else w1)).
Proof.
  intros Hs Hi Hp. unfold hss_receive. rewrite msgType_enc, seqNum_enc by exact Hs.
  rewrite Z.eqb_refl. unfold handleAIR.
  run_m. parse_msg. unfold hss_seq. run_m. cbn [air_imsi].
  destruct (env_send _ _ w) as [[|] w1]; reflexivity.
Qed.
