(* ===== verification/Pcrf.v ===== *)
(** * The Policy and Charging Rules Function

    [PcrfNode] of [4g-simulator/src/pcrf/pcrf_node.cpp]: Diameter Gx. *)

From S2P Require Import Prelude Tlv NodeEnv Subscriber.
#[local] Open Scope Z_scope.

Record PcrfNode : Type := mkPcrf { pcrf_next_seq_ : Z }.

Definition newPcrf : PcrfNode := mkPcrf 1.

(** The locals of [handleCCR]. *)
Record CcrFields : Type := mkCcr { ccr_imsi : Z; ccr_apn : bytes; ccr_qci : Z }.

Definition ccr_cases : cases CcrFields :=
  [(GX_IMSI, RdU64 (fun v l => mkCcr v (ccr_apn l) (ccr_qci l)));
   (GX_APN, RdBytes (fun v l => mkCcr (ccr_imsi l) v (ccr_qci l)));
   (GX_QCI, RdU8 (fun v l => mkCcr (ccr_imsi l) (ccr_apn l) v))].

Definition cca_fields (imsi : Z) (p : SubscriberProfile) : list field :=
  [FU8 GX_RESULT_CODE 0x01; FU64 GX_IMSI imsi; FBytes GX_APN (apn p); FU8 GX_QCI (qci p);
   FU32 GX_MAX_UL_BPS (max_ul_bps p); FU32 GX_MAX_DL_BPS (max_dl_bps p);
   FBytes GX_RULE_NAME (charging_rule p)].

(** The profile the PCRF applies to a request. *)
Definition policy_of (a : bytes) : SubscriberProfile :=
  profile_of (apn_or_internet a).

Section Pcrf.
Context {W : Type} `{Env W}.

Definition pcrf_seq : M (PcrfNode * W) Z :=
  n ← get_state; modify (fun s => mkPcrf (u32 (pcrf_next_seq_ s + 1)));; mret (pcrf_next_seq_ n).

Definition handleCCR (payload : bytes) : M (PcrfNode * W) unit :=
  l ← parse_payload ccr_cases payload (mkCcr 0 [] 9);
  let profile := policy_of (ccr_apn l) in
  pcap (writeDiameter CREDIT_CONTROL GX true IP_PGW PORT_GX IP_PCRF PORT_GX);;
  pcap (writeDiameter CREDIT_CONTROL GX false IP_PCRF PORT_GX IP_PGW PORT_GX);;
  seq ← pcrf_seq;
  send pgw_conn_ (frame (message DIA_GX_CCA_I seq (cca_fields (ccr_imsi l) profile)));;
  mret tt.

(** One turn of [receiveLoop] on a payload. *)
Definition pcrf_receive (payload : bytes) : M (PcrfNode * W) unit :=
  if (length payload <? 8)%nat then mret tt else
  let r := newReader payload in
  if msgType r =? type_code DIA_GX_CCR_I then handleCCR payload else mret tt.

End Pcrf.

(** ** Lemmas *)

Lemma cca_fields_wf (imsi : Z) (a : bytes) :
  in_u 64 imsi -> Forall wf_field (cca_fields imsi (policy_of a)).
Proof.
  intros Hi. unfold policy_of.
  destruct (profile_of_range (apn_or_internet a))
    as (H1 & H2 & H3 & H4 & H5).
  unfold cca_fields. wf_fields; lia.
Qed.

Lemma pcrf_receive_ccr {W} `{Env W} (s : PcrfNode) (w : W) (seq imsi q : Z) (a : bytes) :
  in_u 32 seq -> in_u 64 imsi -> in_u 8 q -> Z.of_nat (length a) < 65536 ->
  pcrf_receive (enc_message DIA_GX_CCR_I seq
                  [FU64 GX_IMSI imsi; FBytes GX_APN a; FU8 GX_QCI q]) (s, w) =
  let w1 := env_pcap (writeDiameter CREDIT_CONTROL GX false IP_PCRF PORT_GX IP_PGW PORT_GX)
              (env_pcap (writeDiameter CREDIT_CONTROL GX true IP_PGW PORT_GX IP_PCRF PORT_GX) w) in
  let cca := message DIA_GX_CCA_I (pcrf_next_seq_ s) (cca_fields imsi (policy_of a)) in
  Ok (tt, (mkPcrf (u32 (pcrf_next_seq_ s + 1)), (env_send pgw_conn_ (frame cca) w1).2)).
Proof.
  intros Hs Hi Hq Ha. unfold pcrf_receive. rewrite enc_message_long, msgType_enc by exact Hs.
  rewrite Z.eqb_refl. unfold handleCCR. run_m. parse_msg. unfold pcrf_seq. run_m.
  cbn [ccr_imsi ccr_apn]. destruct (env_send _ _ _). reflexivity.
Qed.

(** Any payload moves the sequence number by at most one. *)
Lemma pcrf_receive_seq {W} `{Env W} (p : bytes) (s s' : PcrfNode) (w w' : W) :
  pcrf_receive p (s, w) = Ok (tt, (s', w')) ->
  s' = s \/ s' = mkPcrf (u32 (pcrf_next_seq_ s + 1)).
Proof.
  unfold pcrf_receive. destruct (_ <? _)%nat; [intros [= <- _]; auto|].
  destruct (_ =? _); [|intros [= <- _]; auto].
  unfold handleCCR. run_m. unfold parse_payload, liftM.
  destruct (parse _ _ _) as [l| | |]; try discriminate.
  unfold pcrf_seq. run_m. destruct (env_send _ _ _). run_m. intros [= <- _]. auto.
Qed.
