(* ===== verification/Pgw.v ===== *)
(** * The PDN Gateway

    [PgwNode] of [4g-simulator/src/pgw/pgw_node.cpp]: the S5 server that asks
    the PCRF over Gx, then allocates the UE's address and a tunnel endpoint.
    The reply of [sendToAddr] goes to the one peer of [s5_socket_].  What the
    node relies on from the PCRF is the class [GxPeer]. *)

From S2P Require Import Prelude Tlv Text NodeEnv.
#[local] Open Scope Z_scope.

Record PgwNode : Type := mkPgw {
  pcrf_connected_ : bool;
  pgw_next_teid_ : Z;
  next_ip_ : Z;
  pgw_next_seq_ : Z
}.

(** After [setupSocket], with the Gx link up. *)
Definition newPgw : PgwNode := mkPgw true 2000 0x0A000001 1.

(** The locals of [handleCreateSessionReq], and of the answer's parsing. *)
Record PgwReq : Type := mkPgwReq { pr_imsi : Z; pr_apn : bytes; pr_qci : Z; pr_ebi : Z }.

Definition pgw_req_cases : cases PgwReq :=
  [(GTP_IMSI, RdU64 (fun v l => mkPgwReq v (pr_apn l) (pr_qci l) (pr_ebi l)));
   (GTP_APN, RdBytes (fun v l => mkPgwReq (pr_imsi l) v (pr_qci l) (pr_ebi l)));
   (GTP_EBI, RdU8 (fun v l => mkPgwReq (pr_imsi l) (pr_apn l) (pr_qci l) v));
   (GTP_QCI, RdU8 (fun v l => mkPgwReq (pr_imsi l) (pr_apn l) v (pr_ebi l)))].

Record CcaFields : Type := mkCca { rule_name : bytes; cca_result : Z }.

Definition cca_cases : cases CcaFields :=
  [(GX_RESULT_CODE, RdU8 (fun v l => mkCca (rule_name l) v));
   (GX_RULE_NAME, RdBytes (fun v l => mkCca v (cca_result l)))].

Definition ccr_fields (imsi : Z) (apn : bytes) (qci : Z) : list field :=
  [FU64 GX_IMSI imsi; FBytes GX_APN apn; FU8 GX_QCI qci].

(** The octets of an address, as [allocateIP] prints them. *)
Definition print_ip (raw : Z) : bytes :=
  ip_str (Z.land (Z.shiftr raw 24) 0xFF) (Z.land (Z.shiftr raw 16) 0xFF)
         (Z.land (Z.shiftr raw 8) 0xFF) (Z.land raw 0xFF).

(** [uint8_t ip_b[4] = {0}; if (sscanf(...) == 4) ...]. *)
Definition ip_octets (s : bytes) : bytes :=
  match scan_ip s with
  | Some (a, b, c, d) => [u8 a; u8 b; u8 c; u8 d]
  | None => [0; 0; 0; 0]
  end.

(** What the node tells the S-GW. *)
Definition pgw_rsp_fields (teid ip ebi : Z) : list field :=
  [FU8 GTP_CAUSE 16; FU32 GTP_SENDER_TEID teid; FBytes GTP_UE_IP (be32 ip); FU8 GTP_EBI ebi].

Section Pgw.
Context {W : Type} `{Env W}.

Definition pgw_seq : M (PgwNode * W) Z :=
  n ← get_state;
  modify (fun s => mkPgw (pcrf_connected_ s) (pgw_next_teid_ s) (next_ip_ s)
                     (u32 (pgw_next_seq_ s + 1)));;
  mret (pgw_next_seq_ n).

Definition pgw_teid : M (PgwNode * W) Z :=
  n ← get_state;
  modify (fun s => mkPgw (pcrf_connected_ s) (u32 (pgw_next_teid_ s + 1)) (next_ip_ s)
                     (pgw_next_seq_ s));;
  mret (pgw_next_teid_ n).

Definition allocateIP : M (PgwNode * W) bytes :=
  n ← get_state;
  modify (fun s => mkPgw (pcrf_connected_ s) (pgw_next_teid_ s) (u32 (next_ip_ s + 1))
                     (pgw_next_seq_ s));;
  mret (print_ip (next_ip_ n)).

Definition sendCCRandWaitCCA (imsi : Z) (apn : bytes) (qci : Z) : M (PgwNode * W) bool :=
  seq ← pgw_seq;
  send pcrf_conn_ (frame (message DIA_GX_CCR_I seq (ccr_fields imsi apn qci)));;
  p ← recvWithTimeout pcrf_conn_ 3000;
  match p with
  | None => mret false
  | Some payload =>
      if negb (msgType (newReader payload) =? type_code DIA_GX_CCA_I) then mret false
      else l ← parse_payload cca_cases payload (mkCca [] 0); mret (cca_result l =? 1)
  end.

Definition pgw_handleCreateSessionReq (payload : bytes) : M (PgwNode * W) unit :=
  l ← parse_payload pgw_req_cases payload (mkPgwReq 0 [] 9 5);
  n ← get_state;
  denied ← (if pcrf_connected_ n then
              ok ← sendCCRandWaitCCA (pr_imsi l)
                     (apn_or_internet (pr_apn l)) (pr_qci l);
              mret (negb ok)
            else mret false);
  if denied : bool then
    seq ← pgw_seq;
    send s5_socket_ (udpPayload (message GTP_CREATE_SESSION_RSP seq [FU8 GTP_CAUSE 64]));;
    mret tt
  else
    ue_ip ← allocateIP;
    pgw_teid ← pgw_teid;
    let ip_b := ip_octets ue_ip in
    seq ← pgw_seq;
    send s5_socket_ (udpPayload (message GTP_CREATE_SESSION_RSP seq
      [FU8 GTP_CAUSE 16; FU32 GTP_SENDER_TEID pgw_teid; FBytes GTP_UE_IP ip_b;
       FU8 GTP_EBI (pr_ebi l)]));;
    pcap (writeGTPv2 CREATE_SESSION_RSP pgw_teid IP_PGW PORT_PGW IP_SGW PORT_SGW).

(** One turn of [receiveLoop] on a datagram. *)
Definition pgw_receive (payload : bytes) : M (PgwNode * W) unit :=
  if (length payload <? 8)%nat then mret tt else
  if msgType (newReader payload) =? type_code GTP_CREATE_SESSION_REQ
  then pgw_handleCreateSessionReq payload else mret tt.

End Pgw.

(** ** What the P-GW relies on

    In the worlds of [I], a CCR-I of this node with an access point name shorter
    than 256 octets is answered before the
    timeout by a CCA-I with result 1. *)
Class GxPeer (W : Type) `{Env W} (I : W -> Prop) : Prop := {
  gx_answers (w : W) (seq imsi qci : Z) (apn : bytes) :
    I w -> in_u 32 seq -> in_u 64 imsi -> in_u 8 qci -> Z.of_nat (length apn) < 256 ->
    exists seq' fs rule w',
      env_recv pcrf_conn_ 3000
        (env_send pcrf_conn_ (frame (message DIA_GX_CCR_I seq (ccr_fields imsi apn qci))) w).2
      = (Some (enc_message DIA_GX_CCA_I seq' fs), w')
      /\ in_u 32 seq' /\ Forall wf_field fs
      /\ apply_fields cca_cases (mkCca [] 0) fs = Some (mkCca rule 1) /\ I w';
  gx_pcap (w : W) (c : PcapCall) : I w -> I (env_pcap c w)
}.

(** ** Lemmas *)

Lemma octets_be32 (raw : Z) : ip_octets (print_ip raw) = be32 raw.
Proof.
  assert (L : forall z, Z.land z 0xFF = u8 z)
    by (intros z; change 0xFF with (Z.ones 8); rewrite Z.land_ones by lia; reflexivity).
  assert (R : forall z, u8 (u8 z) = u8 z) by (intros z; apply u8_small, u8_range).
  unfold ip_octets, print_ip. rewrite !L, scan_ip_ip_str by apply u8_range.
  rewrite !R. reflexivity.
Qed.

Lemma apn_default_length (a : bytes) :
  Z.of_nat (length a) < 256 ->
  Z.of_nat (length (apn_or_internet a)) < 256.
Proof. destruct a; [intros _; cbn; lia|auto]. Qed.

Definition after_create (s : PgwNode) : PgwNode :=
  mkPgw (pcrf_connected_ s) (u32 (pgw_next_teid_ s + 1)) (u32 (next_ip_ s + 1))
    (u32 (u32 (pgw_next_seq_ s + 1) + 1)).

Definition wf_pgw (s : PgwNode) : Prop :=
  pcrf_connected_ s = true /\ in_u 32 (pgw_next_teid_ s) /\ in_u 32 (next_ip_ s)
  /\ in_u 32 (pgw_next_seq_ s).

Lemma after_create_wf (s : PgwNode) : wf_pgw s -> wf_pgw (after_create s).
Proof. intros (Hc & _). repeat split; first [exact Hc|apply u32_range]. Qed.

(** The S-GW's request, as the S-GW sends it. *)
Definition s5_fields (imsi : Z) (apn : bytes) (ebi qci s11 ul dl : Z) : list field :=
  [FU64 GTP_IMSI imsi; FBytes GTP_APN apn; FU8 GTP_EBI ebi; FU8 GTP_QCI qci;
   FU32 GTP_SENDER_TEID s11; FU32 GTP_AMBR_UL ul; FU32 GTP_AMBR_DL dl].

Lemma pgw_serves_create {W} `{Env W} (I : W -> Prop) `{!GxPeer W I} (s : PgwNode) (w : W)
    (seq imsi ebi qci s11 ul dl : Z) (apn : bytes) :
  I w -> wf_pgw s -> in_u 32 seq -> in_u 64 imsi -> in_u 8 ebi -> in_u 8 qci ->
  in_u 32 s11 -> in_u 32 ul -> in_u 32 dl -> Z.of_nat (length apn) < 256 ->
  exists w1, I w1 /\
  pgw_receive (enc_message GTP_CREATE_SESSION_REQ seq (s5_fields imsi apn ebi qci s11 ul dl))
    (s, w) =
  Ok (tt, (after_create s,
           env_pcap (writeGTPv2 CREATE_SESSION_RSP (pgw_next_teid_ s) IP_PGW PORT_PGW IP_SGW PORT_SGW)
             (env_send s5_socket_
                (udpPayload (message GTP_CREATE_SESSION_RSP (u32 (pgw_next_seq_ s + 1))
                  (pgw_rsp_fields (pgw_next_teid_ s) (next_ip_ s) ebi))) w1).2)).
Proof.
  intros HI (Hc & Ht & Hip & Hsq) Hs Hi He Hq H11 Hul Hdl Ha.
  unfold pgw_receive. rewrite enc_message_long, msgType_enc by exact Hs.
  rewrite Z.eqb_refl. unfold pgw_handleCreateSessionReq, s5_fields. run_m. parse_msg. run_m.
  rewrite Hc. unfold sendCCRandWaitCCA, pgw_seq. run_m.
  cbn [pr_imsi pr_apn pr_qci pr_ebi pgw_next_seq_].
  destruct (gx_answers w (pgw_next_seq_ s) imsi qci _ HI Hsq Hi Hq (apn_default_length apn Ha))
    as (seq' & fs & rule & w1 & Hex & Hs' & Hwf & Hap & HI1).
  exists w1. split; [exact HI1|].
  destruct (env_send pcrf_conn_ _ w) as [ok w0]. cbn [snd] in Hex. run_m.
  rewrite Hex. run_m. rewrite msgType_enc, Z.eqb_refl by exact Hs'. cbn [negb].
  run_m. rewrite (parse_payload_enc _ _ _ _ _ _ _ _ Hs' Hwf Hap). run_m.
  cbn [cca_result Z.eqb Pos.eqb negb]. unfold allocateIP, pgw_teid. run_m.
  cbn [next_ip_ pgw_next_teid_ pgw_next_seq_]. rewrite octets_be32.
  unfold pgw_rsp_fields. destruct (env_send s5_socket_ _ w1). run_m.
  cbn [pcrf_connected_]. unfold after_create. rewrite Hc. reflexivity.
Qed.

(** ** Properties *)

(** Whether what came back over Gx is a grant: a CCA-I whose result is 1. *)
Definition granted (r : option bytes) : bool :=
  match r with
  | None => false
  | Some p =>
      (msgType (newReader p) =? type_code DIA_GX_CCA_I)
      && match parse cca_cases (newReader p) (mkCca [] 0) with
         | Ok l => cca_result l =? 1
         | _ => false
         end
  end.

(** What came back can be read to its end. *)
Definition readable (r : option bytes) : Prop :=
  match r with
  | None => True
  | Some p => exists l, parse cca_cases (newReader p) (mkCca [] 0) = Ok l
  end.

Lemma sendCCR_result {W} `{Env W} (s : PgwNode) (w : W) (imsi qci : Z) (a : bytes) :
  let '(r, w1) := env_recv pcrf_conn_ 3000
       (env_send pcrf_conn_ (frame (message DIA_GX_CCR_I (pgw_next_seq_ s) (ccr_fields imsi a qci))) w).2 in
  readable r ->
  sendCCRandWaitCCA imsi a qci (s, w) =
  Ok (granted r, (mkPgw (pcrf_connected_ s) (pgw_next_teid_ s) (next_ip_ s) (u32 (pgw_next_seq_ s + 1)), w1)).
Proof.
  destruct (env_recv _ _ _) as [r w1] eqn:Er. intros Hr.
  unfold sendCCRandWaitCCA, pgw_seq. run_m. destruct (env_send pcrf_conn_ _ w) as [ok w0].
  cbn [snd] in Er. run_m. rewrite Er. run_m. destruct r as [p|]; [|reflexivity].
  cbn [granted]. destruct (msgType (newReader p) =? type_code DIA_GX_CCA_I); [|reflexivity].
  destruct Hr as [l Hl]. unfold parse_payload, liftM. cbn [negb]. run_m. rewrite Hl. reflexivity.
Qed.

(** C30. The PCRF decides.  A session request is answered by the next address
    and tunnel endpoint when the PCRF granted it; otherwise (refusal, another
    message, or silence) by cause 64, with no address and no endpoint spent. *)
Theorem pgw_enforces_policy {W} `{Env W} (s : PgwNode) (w : W)
    (seq imsi ebi qci s11 ul dl : Z) (apn : bytes) (Hc : pcrf_connected_ s = true)
    (Hs : in_u 32 seq) (Hi : in_u 64 imsi) (He : in_u 8 ebi) (Hq : in_u 8 qci)
    (H11 : in_u 32 s11) (Hul : in_u 32 ul) (Hdl : in_u 32 dl) (Ha : Z.of_nat (length apn) < 65536)
    (r : option bytes) (w1 : W)
    (Er : env_recv pcrf_conn_ 3000
       (env_send pcrf_conn_ (frame (message DIA_GX_CCR_I (pgw_next_seq_ s)
                                      (ccr_fields imsi (apn_or_internet apn) qci))) w).2 = (r, w1))
    (Hr : readable r) :
  let seq1 := u32 (pgw_next_seq_ s + 1) in
  let answer fs := (env_send s5_socket_ (udpPayload (message GTP_CREATE_SESSION_RSP seq1 fs)) w1).2 in
  pgw_receive (enc_message GTP_CREATE_SESSION_REQ seq (s5_fields imsi apn ebi qci s11 ul dl)) (s, w) =
  Ok (tt,
      if granted r then
        (after_create s,
         env_pcap (writeGTPv2 CREATE_SESSION_RSP (pgw_next_teid_ s) IP_PGW PORT_PGW IP_SGW PORT_SGW)
           (answer (pgw_rsp_fields (pgw_next_teid_ s) (next_ip_ s) ebi)))
      else
        (mkPgw true (pgw_next_teid_ s) (next_ip_ s) (u32 (seq1 + 1)), answer [FU8 GTP_CAUSE 64])).
Proof.
  pose proof (sendCCR_result s w imsi qci (apn_or_internet apn)) as HR.
  rewrite Er in HR. specialize (HR Hr). intros seq1 answer.
  unfold pgw_receive. rewrite enc_message_long, msgType_enc by exact Hs.
  rewrite Z.eqb_refl. unfold pgw_handleCreateSessionReq, s5_fields. run_m. parse_msg. run_m.
  rewrite Hc. run_m. cbn [pr_imsi pr_apn pr_qci pr_ebi]. rewrite HR. run_m.
  destruct (granted r); cbn [negb].
  - unfold allocateIP, pgw_teid, pgw_seq. run_m.
    cbn [next_ip_ pgw_next_teid_ pgw_next_seq_]. rewrite octets_be32.
    unfold answer, pgw_rsp_fields, after_create. destruct (env_send s5_socket_ _ w1). reflexivity.
  - unfold pgw_seq. run_m. cbn [pgw_next_seq_ pgw_next_teid_ next_ip_ pcrf_connected_].
    unfold answer. destruct (env_send s5_socket_ _ w1). rewrite Hc. reflexivity.
Qed.

(** Silence over Gx, and a refusal. *)
Lemma pgw_enforces_policy_witness :
  exists w', pgw_receive (enc_message GTP_CREATE_SESSION_REQ 1 (s5_fields 7 (str "ims") 5 9 100 1 2))
               (newPgw, quiet) = Ok (tt, (mkPgw true 2000 0x0A000001 3, w'))
  /\ sent_on s5_socket_ w' = [udpPayload (message GTP_CREATE_SESSION_RSP 2 [FU8 GTP_CAUSE 64])].
Proof.
  eexists. split.
  - assert (U : forall n, 0 <= n < 256 -> in_u 8 n /\ in_u 32 n /\ in_u 64 n) by (unfold in_u; lia).
    rewrite (pgw_enforces_policy newPgw quiet 1 7 5 9 100 1 2 (str "ims") eq_refl
      (proj1 (proj2 (U 1 ltac:(lia)))) (proj2 (proj2 (U 7 ltac:(lia)))) (proj1 (U 5 ltac:(lia)))
      (proj1 (U 9 ltac:(lia))) (proj1 (proj2 (U 100 ltac:(lia)))) (proj1 (proj2 (U 1 ltac:(lia))))
      (proj1 (proj2 (U 2 ltac:(lia)))) ltac:(cbn; lia) None _ eq_refl I).
    reflexivity.
  - reflexivity.
Defined.
