(* ===== verification/Sgw.v ===== *)
(** * The Serving Gateway

    [SgwNode] of [4g-simulator/src/sgw/sgw_node.cpp]: the S11 server that
    forwards session creation to the P-GW over S5.  The reply of [sendToAddr]
    goes to the one peer of [s11_socket_].  What the node relies on from the
    P-GW is the class [S5Peer]. *)

From S2P Require Import Prelude Tlv NodeEnv Pgw.
#[local] Open Scope Z_scope.

Record SgwNode : Type := mkSgw { sgw_next_teid_ : Z; sgw_next_seq_ : Z }.

Definition newSgw : SgwNode := mkSgw 1000 1.

(** The locals of [handleCreateSessionReq]. *)
Record SgwReq : Type := mkSgwReq {
  sr_imsi : Z; sr_apn : bytes; sr_qci : Z; sr_ebi : Z; sr_ambr_ul : Z; sr_ambr_dl : Z
}.

Definition sgw_req_cases : cases SgwReq :=
  [(GTP_IMSI, RdU64 (fun v l => mkSgwReq v (sr_apn l) (sr_qci l) (sr_ebi l) (sr_ambr_ul l) (sr_ambr_dl l)));
   (GTP_APN, RdBytes (fun v l => mkSgwReq (sr_imsi l) v (sr_qci l) (sr_ebi l) (sr_ambr_ul l) (sr_ambr_dl l)));
   (GTP_EBI, RdU8 (fun v l => mkSgwReq (sr_imsi l) (sr_apn l) (sr_qci l) v (sr_ambr_ul l) (sr_ambr_dl l)));
   (GTP_QCI, RdU8 (fun v l => mkSgwReq (sr_imsi l) (sr_apn l) v (sr_ebi l) (sr_ambr_ul l) (sr_ambr_dl l)));
   (GTP_AMBR_UL, RdU32 (fun v l => mkSgwReq (sr_imsi l) (sr_apn l) (sr_qci l) (sr_ebi l) v (sr_ambr_dl l)));
   (GTP_AMBR_DL, RdU32 (fun v l => mkSgwReq (sr_imsi l) (sr_apn l) (sr_qci l) (sr_ebi l) (sr_ambr_ul l) v))].

(** The locals of the P-GW answer's parsing. *)
Record SgwRsp : Type := mkSgwRsp { sp_cause : Z; sp_ue_ip : bytes }.

Definition sgw_rsp_cases : cases SgwRsp :=
  [(GTP_CAUSE, RdU8 (fun v l => mkSgwRsp v (sp_ue_ip l)));
   (GTP_UE_IP, RdBytes (fun v l => mkSgwRsp (sp_cause l) v))].

(** The locals of [handleModifyBearerReq]. *)
Record SgwMod : Type := mkSgwMod { sm_enb_teid : Z; sm_imsi : Z }.

Definition sgw_mod_cases : cases SgwMod :=
  [(GTP_ENB_TEID, RdU32 (fun v l => mkSgwMod v (sm_imsi l)));
   (GTP_IMSI, RdU64 (fun v l => mkSgwMod (sm_enb_teid l) v))].

Definition sgw_rsp_fields (s11 s1u imsi : Z) (ue_ip : bytes) : list field :=
  [FU8 GTP_CAUSE 16; FU32 GTP_SENDER_TEID s11; FU32 GTP_BEARER_TEID s1u; FU64 GTP_IMSI imsi;
   FBytes GTP_UE_IP (take 4 ue_ip)].

Section Sgw.
Context {W : Type} `{Env W}.

Definition sgw_seq : M (SgwNode * W) Z :=
  n ← get_state;
  modify (fun s => mkSgw (sgw_next_teid_ s) (u32 (sgw_next_seq_ s + 1)));;
  mret (sgw_next_seq_ n).

Definition sgw_teid : M (SgwNode * W) Z :=
  n ← get_state;
  modify (fun s => mkSgw (u32 (sgw_next_teid_ s + 1)) (sgw_next_seq_ s));;
  mret (sgw_next_teid_ n).

Definition sgw_handleCreateSessionReq (payload : bytes) : M (SgwNode * W) unit :=
  l ← parse_payload sgw_req_cases payload (mkSgwReq 0 [] 9 5 50000000 100000000);
  sgw_s11_teid ← sgw_teid;
  sgw_s1u_teid ← sgw_teid;
  pcap (writeGTPv2 CREATE_SESSION_REQ 0 IP_SGW PORT_SGW IP_PGW PORT_PGW);;
  seq ← sgw_seq;
  send s5_socket_ (udpPayload (message GTP_CREATE_SESSION_REQ seq
    (s5_fields (sr_imsi l) (sr_apn l) (sr_ebi l) (sr_qci l) sgw_s11_teid
       (sr_ambr_ul l) (sr_ambr_dl l))));;
  p ← recvWithTimeout s5_socket_ 5000;
  match p with
  | None => mret tt
  | Some pgw_resp =>
      r ← parse_payload sgw_rsp_cases pgw_resp (mkSgwRsp 0 []);
      if negb (sp_cause r =? 16) || (length (sp_ue_ip r) <? 4)%nat then mret tt
      else
        pcap (writeGTPv2 CREATE_SESSION_RSP sgw_s11_teid IP_SGW PORT_SGW IP_MME PORT_SGW);;
        seq ← sgw_seq;
        send s11_socket_ (udpPayload (message GTP_CREATE_SESSION_RSP seq
          (sgw_rsp_fields sgw_s11_teid sgw_s1u_teid (sr_imsi l) (sp_ue_ip r))));;
        mret tt
  end.

Definition sgw_handleModifyBearerReq (payload : bytes) : M (SgwNode * W) unit :=
  l ← parse_payload sgw_mod_cases payload (mkSgwMod 0 0);
  pcap (writeGTPv2 MODIFY_BEARER_REQ 0 IP_MME PORT_SGW IP_SGW PORT_SGW);;
  pcap (writeGTPv2 MODIFY_BEARER_RSP 0 IP_SGW PORT_SGW IP_MME PORT_SGW);;
  seq ← sgw_seq;
  send s11_socket_ (udpPayload (message GTP_MODIFY_BEARER_RSP seq [FU8 GTP_CAUSE 16]));;
  mret tt.

(** One turn of [receiveLoop] on a datagram. *)
Definition sgw_receive (payload : bytes) : M (SgwNode * W) unit :=
  if (length payload <? 8)%nat then mret tt else
  let t := msgType (newReader payload) in
  if t =? type_code GTP_CREATE_SESSION_REQ then sgw_handleCreateSessionReq payload
  else if t =? type_code GTP_MODIFY_BEARER_REQ then sgw_handleModifyBearerReq payload
  else mret tt.

End Sgw.

(** ** What the S-GW relies on

    In the worlds of [I], a Create Session Request of this node is answered
    before the timeout by an acceptance with the next address of the world's
    [pool]. *)
Class S5Peer (W : Type) `{Env W} (I : W -> Prop) (pool : W -> Z) : Prop := {
  s5_answers (w : W) (seq imsi ebi qci s11 ul dl : Z) (apn : bytes) :
    I w -> in_u 32 seq -> in_u 64 imsi -> in_u 8 ebi -> in_u 8 qci -> in_u 32 s11 ->
    in_u 32 ul -> in_u 32 dl -> Z.of_nat (length apn) < 256 ->
    exists seq' fs w',
      env_recv s5_socket_ 5000
        (env_send s5_socket_ (udpPayload (message GTP_CREATE_SESSION_REQ seq
           (s5_fields imsi apn ebi qci s11 ul dl))) w).2
      = (Some (enc_message GTP_CREATE_SESSION_RSP seq' fs), w')
      /\ in_u 32 seq' /\ Forall wf_field fs
      /\ apply_fields sgw_rsp_cases (mkSgwRsp 0 []) fs = Some (mkSgwRsp 16 (be32 (pool w)))
      /\ I w' /\ pool w' = u32 (pool w + 1);
  s5_pcap (w : W) (c : PcapCall) : I w -> I (env_pcap c w) /\ pool (env_pcap c w) = pool w
}.

(** ** Lemmas *)

Definition wf_sgw (s : SgwNode) : Prop :=
  in_u 32 (sgw_next_teid_ s) /\ in_u 32 (sgw_next_seq_ s).

Definition after_session (s : SgwNode) : SgwNode :=
  mkSgw (u32 (u32 (sgw_next_teid_ s + 1) + 1)) (u32 (u32 (sgw_next_seq_ s + 1) + 1)).

(** The MME's requests, as the MME sends them. *)
Definition s11_fields (imsi : Z) : list field :=
  [FU64 GTP_IMSI imsi; FBytes GTP_APN (str "internet"); FU8 GTP_EBI 5; FU8 GTP_QCI 9;
   FU32 GTP_AMBR_UL 50000000; FU32 GTP_AMBR_DL 100000000].

Definition modify_fields (teid imsi : Z) : list field :=
  [FU32 GTP_ENB_TEID teid; FU64 GTP_IMSI imsi].

Lemma sgw_serves_create {W} `{Env W} (I : W -> Prop) (pool : W -> Z)
    `{!S5Peer W I pool} (s : SgwNode) (w : W) (seq imsi : Z) :
  I w -> wf_sgw s -> in_u 32 seq -> in_u 64 imsi ->
  exists w1, I w1 /\ pool w1 = u32 (pool w + 1) /\
  sgw_receive (enc_message GTP_CREATE_SESSION_REQ seq (s11_fields imsi)) (s, w) =
  Ok (tt, (after_session s,
           (env_send s11_socket_ (udpPayload (message GTP_CREATE_SESSION_RSP
              (u32 (sgw_next_seq_ s + 1))
              (sgw_rsp_fields (sgw_next_teid_ s) (u32 (sgw_next_teid_ s + 1)) imsi (be32 (pool w))))) w1).2)).
Proof.
  intros HI [Ht Hsq] Hs Hi. unfold sgw_receive. rewrite enc_message_long, msgType_enc by exact Hs.
  rewrite Z.eqb_refl. unfold sgw_handleCreateSessionReq, s11_fields. run_m. parse_msg. run_m.
  unfold sgw_teid, sgw_seq. run_m.
  cbn [sr_imsi sr_apn sr_ebi sr_qci sr_ambr_ul sr_ambr_dl sgw_next_teid_ sgw_next_seq_].
  set (c1 := writeGTPv2 CREATE_SESSION_REQ 0 IP_SGW PORT_SGW IP_PGW PORT_PGW).
  destruct (s5_pcap w c1 HI) as [HI1 Hg1].
  destruct (s5_answers (env_pcap c1 w) (sgw_next_seq_ s) imsi 5 9 (sgw_next_teid_ s)
              50000000 100000000 (str "internet") HI1 Hsq Hi ltac:(unfold in_u; lia)
              ltac:(unfold in_u; lia) Ht ltac:(unfold in_u; lia) ltac:(unfold in_u; lia)
              ltac:(cbn; lia)) as (seq' & fs & w2 & Hex & Hs' & Hwf & Hap & HI2 & Hg).
  rewrite Hg1 in Hap, Hg.
  exists (env_pcap (writeGTPv2 CREATE_SESSION_RSP (sgw_next_teid_ s) IP_SGW PORT_SGW IP_MME PORT_SGW) w2).
  destruct (s5_pcap w2 (writeGTPv2 CREATE_SESSION_RSP (sgw_next_teid_ s) IP_SGW PORT_SGW IP_MME PORT_SGW) HI2)
    as [HI3 Hg3].
  split; [exact HI3|]. split; [rewrite Hg3; exact Hg|].
  destruct (env_send s5_socket_ _ _) as [ok w0]. cbn [snd] in Hex. run_m. rewrite Hex. run_m.
  rewrite (parse_payload_enc _ _ _ _ _ _ _ _ Hs' Hwf Hap). run_m.
  cbn [sp_cause sp_ue_ip]. rewrite be32_length. cbn [Z.eqb Pos.eqb negb orb Nat.ltb Nat.leb].
  run_m. destruct (env_send s11_socket_ _ _). run_m. reflexivity.
Qed.

Lemma sgw_serves_modify {W} `{Env W} (s : SgwNode) (w : W) (seq teid imsi : Z) :
  in_u 32 seq -> in_u 32 teid -> in_u 64 imsi ->
  sgw_receive (enc_message GTP_MODIFY_BEARER_REQ seq (modify_fields teid imsi)) (s, w) =
  let w1 := env_pcap (writeGTPv2 MODIFY_BEARER_RSP 0 IP_SGW PORT_SGW IP_MME PORT_SGW)
              (env_pcap (writeGTPv2 MODIFY_BEARER_REQ 0 IP_MME PORT_SGW IP_SGW PORT_SGW) w) in
  Ok (tt, (mkSgw (sgw_next_teid_ s) (u32 (sgw_next_seq_ s + 1)),
           (env_send s11_socket_ (udpPayload (message GTP_MODIFY_BEARER_RSP (sgw_next_seq_ s)
              [FU8 GTP_CAUSE 16])) w1).2)).
Proof.
  intros Hs Ht Hi. unfold sgw_receive. rewrite enc_message_long, msgType_enc by exact Hs.
  cbn [type_code Z.eqb Pos.eqb]. unfold sgw_handleModifyBearerReq, modify_fields.
  run_m. parse_msg. run_m. unfold sgw_seq. run_m. cbn [sgw_next_seq_].
  destruct (env_send _ _ _). run_m. reflexivity.
Qed.

(** ** Properties *)

(** What the P-GW's answer says, when it is an acceptance with an address. *)
Definition session_of (r : option bytes) : option bytes :=
  match r with
  | None => None
  | Some p =>
      match parse sgw_rsp_cases (newReader p) (mkSgwRsp 0 []) with
      | Ok l => if (sp_cause l =? 16) && (4 <=? length (sp_ue_ip l))%nat then Some (sp_ue_ip l) else None
      | _ => None
      end
  end.

Definition sgw_readable (r : option bytes) : Prop :=
  match r with
  | None => True
  | Some p => exists l, parse sgw_rsp_cases (newReader p) (mkSgwRsp 0 []) = Ok l
  end.

(** The S-GW forwards an acceptance and drops anything else.  When the P-GW
    accepted with an address, the MME gets it with the two endpoints allocated
    for the session; when it refused, or did not answer in time, nothing at all
    is sent to the MME and the two endpoints are spent. *)
Theorem sgw_forwards_or_drops {W} `{Env W} (s : SgwNode) (w : W) (seq imsi : Z)
    (Hs : in_u 32 seq) (Hi : in_u 64 imsi) (r : option bytes) (w1 : W)
    (Er : env_recv s5_socket_ 5000
       (env_send s5_socket_ (udpPayload (message GTP_CREATE_SESSION_REQ (sgw_next_seq_ s)
          (s5_fields imsi (str "internet") 5 9 (sgw_next_teid_ s) 50000000 100000000)))
        (env_pcap (writeGTPv2 CREATE_SESSION_REQ 0 IP_SGW PORT_SGW IP_PGW PORT_PGW) w)).2 = (r, w1))
    (Hr : sgw_readable r) :
  let t := sgw_next_teid_ s in
  sgw_receive (enc_message GTP_CREATE_SESSION_REQ seq (s11_fields imsi)) (s, w) =
  Ok (tt,
      match session_of r with
      | Some ip =>
          (after_session s,
           (env_send s11_socket_ (udpPayload (message GTP_CREATE_SESSION_RSP (u32 (sgw_next_seq_ s + 1))
              (sgw_rsp_fields t (u32 (t + 1)) imsi ip)))
             (env_pcap (writeGTPv2 CREATE_SESSION_RSP t IP_SGW PORT_SGW IP_MME PORT_SGW) w1)).2)
      | None => (mkSgw (u32 (u32 (t + 1) + 1)) (u32 (sgw_next_seq_ s + 1)), w1)
      end).
Proof.
  intros t.
  unfold sgw_receive. rewrite enc_message_long, msgType_enc by exact Hs.
  rewrite Z.eqb_refl. unfold sgw_handleCreateSessionReq, s11_fields. run_m. parse_msg. run_m.
  unfold sgw_teid, sgw_seq. run_m.
  cbn [sr_imsi sr_apn sr_ebi sr_qci sr_ambr_ul sr_ambr_dl sgw_next_teid_ sgw_next_seq_]. fold t.
  destruct (env_send s5_socket_ _ _) as [ok w0]. cbn [snd] in Er. run_m. rewrite Er. run_m.
  destruct r as [p|]; [|reflexivity]. destruct Hr as [l Hl].
  unfold session_of. rewrite Hl. unfold parse_payload, liftM. run_m. rewrite Hl. run_m.
  assert (E : negb (sp_cause l =? 16) || (length (sp_ue_ip l) <? 4)%nat
              = negb ((sp_cause l =? 16) && (4 <=? length (sp_ue_ip l))%nat)).
  { rewrite Nat.ltb_antisym. destruct (_ =? _), (_ <=? _)%nat; reflexivity. }
  rewrite E. destruct (_ && _); cbn [negb]; [|reflexivity].
  run_m. unfold after_session. destruct (env_send s11_socket_ _ _). reflexivity.
Qed.

(** The P-GW refused with cause 64. *)
Definition refusing : World :=
  mkWorld [] [Some (udpPayload (message GTP_CREATE_SESSION_RSP 1 [FU8 GTP_CAUSE 64]))] [] [] [] false [] true.

Lemma sgw_forwards_or_drops_witness :
  exists w', sgw_receive (enc_message GTP_CREATE_SESSION_REQ 1 (s11_fields 7)) (newSgw, refusing)
             = Ok (tt, (mkSgw 1002 2, w')) /\ sent_on s11_socket_ w' = [].
Proof.
  eexists. split.
  - rewrite (@sgw_forwards_or_drops World World_Env newSgw refusing 1 7 ltac:(unfold in_u; lia) ltac:(unfold in_u; lia)
      (Some (udpPayload (message GTP_CREATE_SESSION_RSP 1 [FU8 GTP_CAUSE 64]))) _
      eq_refl
      ltac:(eexists; reflexivity)).
    reflexivity.
  - reflexivity.
Defined.
