(* ===== verification/Mme.v ===== *)
(** * The Mobility Management Entity

    [MmeNode] of [4g-simulator/src/mme/mme_node.cpp]: the attach procedure
    with the HSS and the S-GW, the tracking area update and the S1 handover.
    A pointer to a UE context is its place in the heap of contexts.  The two
    threads of the node share [pending_auth_]: [hss_receive_aia] is a turn of
    the thread that receives from the HSS, and runs while the main thread is
    blocked in [pending_auth_cv_.wait]. *)

From S2P Require Import Prelude Tlv Text NodeEnv NasEps S1ap Subscriber UeStore Metrics Hss Pgw Sgw.
#[local] Open Scope Z_scope.

(** ** State *)

Record MmeNode : Type := mkMme {
  heap : Heap;
  ue_store_ : UeContextStore;
  pending_auth_ : gmap Z AuthVectors;
  mme_next_seq_ : Z;
  metrics_ : option Metrics
}.

Definition newMme (m : option Metrics) : MmeNode := mkMme [] newStore ∅ 1 m.

(** ** Locals and cases of the handlers *)

Record AiaFields : Type := mkAia { ai_imsi : Z; ai_av : AuthVectors }.

Definition keep_size (n : nat) (b old : bytes) : bytes :=
  if (length b =? n)%nat then b else old.

Definition aia_cases : cases AiaFields :=
  [(DIA_IMSI, RdU64 (fun v l => mkAia v (ai_av l)));
   (DIA_RAND, RdBytes (fun b l => let av := ai_av l in
      mkAia (ai_imsi l) (mkAuth (keep_size 16 b (av_rand av)) (av_autn av) (av_xres av) (av_kasme av))));
   (DIA_AUTN, RdBytes (fun b l => let av := ai_av l in
      mkAia (ai_imsi l) (mkAuth (av_rand av) (keep_size 16 b (av_autn av)) (av_xres av) (av_kasme av))));
   (DIA_XRES, RdBytes (fun b l => let av := ai_av l in
      mkAia (ai_imsi l) (mkAuth (av_rand av) (av_autn av) (keep_size 8 b (av_xres av)) (av_kasme av))));
   (DIA_KASME, RdBytes (fun b l => let av := ai_av l in
      mkAia (ai_imsi l) (mkAuth (av_rand av) (av_autn av) (av_xres av) (keep_size 32 b (av_kasme av)))))].

Record InitUe : Type := mkInit { iu_enb_id : Z; iu_imsi : Z; iu_mcc : Z; iu_mnc : Z; iu_tac : Z }.

Definition init_ue_cases : cases InitUe :=
  [(ENB_UE_S1AP_ID, RdU32 (fun v l => mkInit v (iu_imsi l) (iu_mcc l) (iu_mnc l) (iu_tac l)));
   (TAI_MCC, RdU16 (fun v l => mkInit (iu_enb_id l) (iu_imsi l) v (iu_mnc l) (iu_tac l)));
   (TAI_MNC, RdU16 (fun v l => mkInit (iu_enb_id l) (iu_imsi l) (iu_mcc l) v (iu_tac l)));
   (TAI_TAC, RdU16 (fun v l => mkInit (iu_enb_id l) (iu_imsi l) (iu_mcc l) (iu_mnc l) v));
   (NAS_IMSI, RdU64 (fun v l => mkInit (iu_enb_id l) v (iu_mcc l) (iu_mnc l) (iu_tac l)));
   (NAS_KSI, RdU8 (fun _ l => l))].

Record UlNas : Type := mkUl { ul_mme_id : Z; ul_enb_id : Z; ul_nas_type : Z; ul_res : bytes }.

Definition ul_nas_cases : cases UlNas :=
  [(MME_UE_S1AP_ID, RdU32 (fun v l => mkUl v (ul_enb_id l) (ul_nas_type l) (ul_res l)));
   (ENB_UE_S1AP_ID, RdU32 (fun v l => mkUl (ul_mme_id l) v (ul_nas_type l) (ul_res l)));
   (NAS_MSG_TYPE, RdU8 (fun v l => mkUl (ul_mme_id l) (ul_enb_id l) v (ul_res l)));
   (NAS_RES, RdBytes (fun v l => mkUl (ul_mme_id l) (ul_enb_id l) (ul_nas_type l) v))].

Record CsRsp : Type := mkCsRsp {
  cr_cause : Z; cr_s11 : Z; cr_s1u : Z; cr_imsi2 : Z; cr_ue_ip : bytes
}.

Definition cs_rsp_cases : cases CsRsp :=
  [(GTP_CAUSE, RdU8 (fun v l => mkCsRsp v (cr_s11 l) (cr_s1u l) (cr_imsi2 l) (cr_ue_ip l)));
   (GTP_SENDER_TEID, RdU32 (fun v l => mkCsRsp (cr_cause l) v (cr_s1u l) (cr_imsi2 l) (cr_ue_ip l)));
   (GTP_BEARER_TEID, RdU32 (fun v l => mkCsRsp (cr_cause l) (cr_s11 l) v (cr_imsi2 l) (cr_ue_ip l)));
   (GTP_IMSI, RdU64 (fun v l => mkCsRsp (cr_cause l) (cr_s11 l) (cr_s1u l) v (cr_ue_ip l)));
   (GTP_UE_IP, RdBytes (fun v l => mkCsRsp (cr_cause l) (cr_s11 l) (cr_s1u l) (cr_imsi2 l) v))].

(** Two UE identifiers and up to two more 32-bit values: the locals of the
    handlers from the context setup response on. *)
Record Ids : Type := mkIds { mme_id : Z; enb_id : Z; val1 : Z; val2 : Z }.

Definition ids_cases : cases Ids :=
  [(MME_UE_S1AP_ID, RdU32 (fun v l => mkIds v (enb_id l) (val1 l) (val2 l)));
   (ENB_UE_S1AP_ID, RdU32 (fun v l => mkIds (mme_id l) v (val1 l) (val2 l)))].

Definition val1_u32 (t : Tag) : cases Ids :=
  [(t, RdU32 (fun v l => mkIds (mme_id l) (enb_id l) v (val2 l)))].
Definition val1_u64 (t : Tag) : cases Ids :=
  [(t, RdU64 (fun v l => mkIds (mme_id l) (enb_id l) v (val2 l)))].
Definition val2_u32 (t : Tag) : cases Ids :=
  [(t, RdU32 (fun v l => mkIds (mme_id l) (enb_id l) (val1 l) v))].
Definition val2_u8 (t : Tag) : cases Ids :=
  [(t, RdU8 (fun v l => mkIds (mme_id l) (enb_id l) (val1 l) v))].

(** [handleICSetupResponse] has no case for the eNB identifier. *)
Definition icsrsp_cases : cases Ids :=
  (MME_UE_S1AP_ID, RdU32 (fun v l => mkIds v (enb_id l) (val1 l) (val2 l)))
  :: val1_u32 ICSR_ENB_TEID.

Definition tau_cases : cases Ids := ids_cases ++ val1_u64 TAU_IMSI ++ val2_u8 TAU_UPDATE_TYPE.
Definition ho_required_cases : cases Ids := ids_cases ++ val1_u64 TAU_IMSI.
Definition ho_teid_cases : cases Ids := ids_cases ++ val1_u32 HO_ENB_TEID_NEW.
Definition ho_status_cases : cases Ids :=
  ids_cases ++ val1_u32 HO_PDCP_SN_UL ++ val2_u32 HO_PDCP_SN_DL.

Definition noIds : Ids := mkIds 0 0 0 0.

(** ** The handlers *)

Section Mme.
Context {W : Type} `{Env W}.

Definition mme_seq : M (MmeNode * W) Z :=
  n ← get_state;
  modify (fun s => mkMme (heap s) (ue_store_ s) (pending_auth_ s) (u32 (mme_next_seq_ s + 1))
                     (metrics_ s));;
  mret (mme_next_seq_ n).

(** [make_shared<UeContext>()] with its fields set, and [ue_store_.insert]. *)
Definition store_insert (c : UeContext) : M (MmeNode * W) Z :=
  n ← get_state;
  let p := length (heap n) in
  let '(id, st, h) := insert_ctx (ue_store_ n) (heap n ++ [c]) p in
  modify (fun s => mkMme h st (pending_auth_ s) (mme_next_seq_ s) (metrics_ s));;
  mret id.

(** [ue_store_.find(id)]: a pointer and what it points to. *)
Definition store_find (id : Z) : M (MmeNode * W) (option (Ptr * UeContext)) :=
  n ← get_state;
  match find (ue_store_ n) id with
  | None => mret None
  | Some p => match heap n !! p with
              | Some c => mret (Some (p, c))
              | None => liftM Undefined
              end
  end.

(** Writing through a pointer. *)
Definition update (p : Ptr) (f : UeContext -> UeContext) : M (MmeNode * W) unit :=
  modify (fun s => mkMme (alter f p (heap s)) (ue_store_ s) (pending_auth_ s) (mme_next_seq_ s)
                     (metrics_ s)).

Definition set_pending (f : gmap Z AuthVectors -> gmap Z AuthVectors) : M (MmeNode * W) unit :=
  modify (fun s => mkMme (heap s) (ue_store_ s) (f (pending_auth_ s)) (mme_next_seq_ s)
                     (metrics_ s)).

Definition record_metrics (latency : Z) : M (MmeNode * W) unit :=
  modify (fun s => mkMme (heap s) (ue_store_ s) (pending_auth_ s) (mme_next_seq_ s)
                     (match metrics_ s with
                      | Some m => Some (recordAttach latency m).1
                      | None => None
                      end)).

(** One turn of [hssReceiveLoop] on a payload. *)
Definition hss_receive_aia (payload : bytes) : M (MmeNode * W) unit :=
  if (length payload <? 8)%nat then mret tt else
  if negb (msgType (newReader payload) =? type_code DIA_AIA) then mret tt else
  l ← parse_payload aia_cases payload (mkAia 0 zeroAuth);
  set_pending (fun m => <[ai_imsi l := ai_av l]> m).

Fixpoint hss_receive_all (ps : list bytes) : M (MmeNode * W) unit :=
  match ps with
  | [] => mret tt
  | p :: ps' => hss_receive_aia p;; hss_receive_all ps'
  end.

(** [pending_auth_cv_.wait(lk, pred)] and what follows under the lock:
    [None] when the node is stopping. *)
Definition wait_auth (imsi : Z) : M (MmeNode * W) (option AuthVectors) :=
  '(ps, stop) ← blocked;
  hss_receive_all ps;;
  n ← get_state;
  if stop : bool then mret None else
  match pending_auth_ n !! imsi with
  | Some av => set_pending (fun m => delete imsi m);; mret (Some av)
  | None => liftM Waiting
  end.

Definition handleInitialUEMsg (payload : bytes) : M (MmeNode * W) unit :=
  l ← parse_payload init_ue_cases payload (mkInit 0 0 0 0 0);
  t ← now;
  mme_id ← store_insert
    (mkUe (iu_imsi l) 0 (iu_enb_id l) REGISTERED_INITIATED zeroAuth []
       (iu_mcc l) (iu_mnc l) (iu_tac l) t (apn (profile_of (str "internet"))));
  seq ← mme_seq;
  send hss_conn_ (frame (message DIA_AIR seq
    [FU64 DIA_IMSI (iu_imsi l); FU32 DIA_PLMN (Z.lor (Z.shiftl (iu_mcc l) 16) (iu_mnc l))]));;
  pcap (writeDiameter AUTH_INFO S6A true IP_MME 3868 IP_HSS 3868);;
  a ← wait_auth (iu_imsi l);
  match a with
  | None => mret tt
  | Some av =>
      c ← store_find mme_id;
      match c with
      | Some (p, _) => update p (fun c => set_state AUTH_PENDING (set_auth av c))
      | None => mret tt
      end;;
      dropped ← rollDrop;
      if dropped : bool then mret tt else
      pcap (writeDiameter AUTH_INFO S6A false IP_HSS 3868 IP_MME 3868);;
      seq ← mme_seq;
      send enb_conn_ (frame (message S1AP_DL_NAS_TRANSPORT seq
        [FU32 MME_UE_S1AP_ID mme_id; FU32 ENB_UE_S1AP_ID (iu_enb_id l); FU8 NAS_MSG_TYPE 0x52;
         FBytes NAS_RAND (av_rand av); FBytes NAS_AUTN (av_autn av)]));;
      mret tt
  end.

Definition sendCreateSession (mme_id imsi : Z) : M (MmeNode * W) bool :=
  seq ← mme_seq;
  send sgw_udp_ (udpPayload (message GTP_CREATE_SESSION_REQ seq (s11_fields imsi)));;
  r ← recvWithTimeout sgw_udp_ 5000;
  match r with
  | None => mret false
  | Some resp =>
      l ← parse_payload cs_rsp_cases resp (mkCsRsp 0 0 0 0 []);
      match cr_ue_ip l with
      | b0 :: b1 :: b2 :: b3 :: _ =>
          if negb (cr_cause l =? 16) then mret false else
          let b := mkBearer 5 9 (cr_s11 l) (cr_s1u l) 0 0 (ip_str b0 b1 b2 b3) in
          c ← store_find mme_id;
          match c with
          | Some (p, _) => update p (push_bearer b)
          | None => mret tt
          end;;
          mret true
      | _ => mret false
      end
  end.

Definition icsr_fields (mme_id enb_id : Z) (b : Bearer) : list field :=
  [FU32 MME_UE_S1AP_ID mme_id; FU32 ENB_UE_S1AP_ID enb_id;
   FU32 ICSR_AMBR_UL 50000000; FU32 ICSR_AMBR_DL 100000000;
   FBytes ICSR_SGW_S1U_IP [127; 0; 0; 1]; FU32 ICSR_SGW_TEID (sgw_s1u_teid b);
   FU8 NAS_EBI (ebi b); FU8 NAS_MSG_TYPE 0x42]
  ++ match scan_ip (ue_ip b) with
     | Some (a, b2, c, d) => [FBytes NAS_UE_IP [u8 a; u8 b2; u8 c; u8 d]]
     | None => []
     end.

Definition handleAuthSuccess (mme_id : Z) : M (MmeNode * W) unit :=
  c ← store_find mme_id;
  match c with
  | None => mret tt
  | Some (p, ctx) =>
      pcap (writeGTPv2 CREATE_SESSION_REQ 0 IP_MME 2123 IP_SGW 2123);;
      ok ← sendCreateSession mme_id (imsi ctx);
      if negb ok then mret tt else
      n ← get_state;
      match heap n !! p with
      | None => liftM Undefined
      | Some ctx =>
          match defaultBearer ctx with
          | None => mret tt
          | Some bearer =>
              seq ← mme_seq;
              send enb_conn_ (frame (message S1AP_INITIAL_CONTEXT_SETUP_REQ seq
                (icsr_fields mme_id (enb_ue_s1ap_id ctx) bearer)));;
              mret tt
          end
      end
  end.

(** [res.size() >= 8 && memcmp(res.data(), ctx->auth.xres, 8) == 0]. *)
Definition res_matches (res xres : bytes) : bool :=
  (8 <=? length res)%nat && bool_decide (take 8 res = take 8 xres).

(** The Authentication Response branch of [handleULNasTransport]. *)
Definition handleAuthResponse (l : UlNas) : M (MmeNode * W) unit :=
  let mme_id := ul_mme_id l in
  c ← store_find mme_id;
  match c with
  | None => mret tt
  | Some (p, ctx) =>
      if res_matches (ul_res l) (av_xres (auth ctx)) then
        seq ← mme_seq;
        send enb_conn_ (frame (message S1AP_DL_NAS_TRANSPORT seq
          [FU32 MME_UE_S1AP_ID mme_id; FU32 ENB_UE_S1AP_ID (enb_ue_s1ap_id ctx);
           FU8 NAS_MSG_TYPE 0x5D]));;
        update p (set_state SESSION_PENDING);;
        handleAuthSuccess mme_id
      else mret tt
  end.

(** The Attach Complete branch of [handleULNasTransport]. *)
Definition handleAttachComplete (l : UlNas) : M (MmeNode * W) unit :=
  c ← store_find (ul_mme_id l);
  match c with
  | None => mret tt
  | Some (p, ctx) =>
      update p (set_state REGISTERED);;
      t ← now;
      record_metrics (t - attach_start ctx)
  end.

Definition handleULNasTransport (payload : bytes) : M (MmeNode * W) unit :=
  l ← parse_payload ul_nas_cases payload (mkUl 0 0 0 []);
  if ul_nas_type l =? 0x53 then handleAuthResponse l
  else if ul_nas_type l =? 0x5E then
    pcap (writeS1AP (str "NAS-SecurityModeComplete(UL-seen-by-MME)")
            IP_ENB PORT_S1AP IP_MME PORT_S1AP
            (buildUlNasTransport (ul_mme_id l) (ul_enb_id l) SECURITY_MODE_COMPLETE))
  else if ul_nas_type l =? 0x46 then handleAttachComplete l
  else mret tt.

Definition handleICSetupResponse (payload : bytes) : M (MmeNode * W) unit :=
  l ← parse_payload icsrsp_cases payload noIds;
  let enb_teid := val1 l in
  c ← store_find (mme_id l);
  match c with
  | Some (p, _) => update p (set_default_teid enb_teid)
  | None => mret tt
  end;;
  let imsi := match c with Some (_, ctx) => imsi ctx | None => 0 end in
  seq ← mme_seq;
  send sgw_udp_ (udpPayload (message GTP_MODIFY_BEARER_REQ seq (modify_fields enb_teid imsi)));;
  recvWithTimeout sgw_udp_ 3000;;
  mret tt.

Definition handleTauRequest (payload : bytes) : M (MmeNode * W) unit :=
  l ← parse_payload tau_cases payload noIds;
  pcap (writeS1AP (str "NAS-TauRequest(UL)") IP_ENB PORT_S1AP IP_MME PORT_S1AP
          (buildUlNasTransport (mme_id l) (enb_id l) (buildTauRequest (val1 l))));;
  seq ← mme_seq;
  send enb_conn_ (frame (message S1AP_TAU_ACCEPT seq
    [FU32 MME_UE_S1AP_ID (mme_id l); FU32 ENB_UE_S1AP_ID (enb_id l); FU8 TAU_UPDATE_TYPE 0x00]));;
  pcap (writeS1AP (str "NAS-TauAccept(DL)") IP_MME PORT_S1AP IP_ENB PORT_S1AP
          (buildDlNasTransport (mme_id l) (enb_id l) buildTauAccept)).

Definition handleHandoverRequired (payload : bytes) : M (MmeNode * W) unit :=
  l ← parse_payload ho_required_cases payload noIds;
  pcap (writeS1AP (str "S1AP-HandoverRequired") IP_ENB PORT_S1AP IP_MME PORT_S1AP
          (buildHandoverRequired (mme_id l) (enb_id l)));;
  seq ← mme_seq;
  send enb_conn_ (frame (message S1AP_HANDOVER_REQUEST seq
    [FU32 MME_UE_S1AP_ID (mme_id l); FU32 ENB_UE_S1AP_ID (enb_id l); FU8 HO_TYPE 0]));;
  pcap (writeS1AP (str "S1AP-HandoverRequest") IP_MME PORT_S1AP IP_ENB PORT_S1AP
          (buildHandoverRequest (mme_id l) (enb_id l))).

Definition handleHandoverRequestAck (payload : bytes) : M (MmeNode * W) unit :=
  l ← parse_payload ho_teid_cases payload noIds;
  pcap (writeS1AP (str "S1AP-HandoverRequestAck") IP_ENB PORT_S1AP IP_MME PORT_S1AP
          (buildHandoverRequestAck (mme_id l) (enb_id l)));;
  c ← store_find (mme_id l);
  match c with
  | Some (p, _) => update p (set_default_teid (val1 l))
  | None => mret tt
  end;;
  seq ← mme_seq;
  send enb_conn_ (frame (message S1AP_HANDOVER_COMMAND seq
    [FU32 MME_UE_S1AP_ID (mme_id l); FU32 ENB_UE_S1AP_ID (enb_id l)]));;
  pcap (writeS1AP (str "S1AP-HandoverCommand") IP_MME PORT_S1AP IP_ENB PORT_S1AP
          (buildHandoverCommand (mme_id l) (enb_id l))).

Definition handleEnbStatusTransfer (payload : bytes) : M (MmeNode * W) unit :=
  l ← parse_payload ho_status_cases payload noIds;
  pcap (writeS1AP (str "S1AP-ENBStatusTransfer") IP_ENB PORT_S1AP IP_MME PORT_S1AP
          (buildENBStatusTransfer (mme_id l) (enb_id l)));;
  seq ← mme_seq;
  send enb_conn_ (frame (message S1AP_MME_STATUS_TRANSFER seq
    [FU32 MME_UE_S1AP_ID (mme_id l); FU32 ENB_UE_S1AP_ID (enb_id l);
     FU32 HO_PDCP_SN_UL (val1 l); FU32 HO_PDCP_SN_DL (val2 l)]));;
  pcap (writeS1AP (str "S1AP-MMEStatusTransfer") IP_MME PORT_S1AP IP_ENB PORT_S1AP
          (buildMMEStatusTransfer (mme_id l) (enb_id l))).

Definition sendModifyBearer (mme_id new_enb_teid : Z) : M (MmeNode * W) bool :=
  c ← store_find mme_id;
  let imsi := match c with Some (_, ctx) => imsi ctx | None => 0 end in
  pcap (writeGTPv2 MODIFY_BEARER_REQ 0 IP_MME 2123 IP_SGW 2123);;
  seq ← mme_seq;
  send sgw_udp_ (udpPayload (message GTP_MODIFY_BEARER_REQ seq (modify_fields new_enb_teid imsi)));;
  r ← recvWithTimeout sgw_udp_ 3000;
  match r with
  | None => mret false
  | Some _ => pcap (writeGTPv2 MODIFY_BEARER_RSP 0 IP_SGW 2123 IP_MME 2123);; mret true
  end.

Definition handleHandoverNotify (payload : bytes) : M (MmeNode * W) unit :=
  l ← parse_payload ho_teid_cases payload noIds;
  pcap (writeS1AP (str "S1AP-HandoverNotify") IP_ENB PORT_S1AP IP_MME PORT_S1AP
          (buildHandoverNotify (mme_id l) (enb_id l)));;
  c ← store_find (mme_id l);
  let final_teid :=
    if negb (val1 l =? 0) then val1 l
    else match c with
         | Some (_, ctx) => match defaultBearer ctx with
                            | Some b => enb_s1u_teid b
                            | None => 200
                            end
         | None => 200
         end in
  sendModifyBearer (mme_id l) final_teid;;
  seq ← mme_seq;
  send enb_conn_ (frame (message S1AP_UE_CONTEXT_RELEASE_CMD seq
    [FU32 MME_UE_S1AP_ID (mme_id l); FU32 ENB_UE_S1AP_ID (enb_id l); FU8 HO_CAUSE 0]));;
  pcap (writeS1AP (str "S1AP-UEContextReleaseCmd") IP_MME PORT_S1AP IP_ENB PORT_S1AP
          (buildUEContextReleaseCommand (mme_id l) (enb_id l))).

Definition handleUeContextRelCmpl (payload : bytes) : M (MmeNode * W) unit :=
  l ← parse_payload ids_cases payload noIds;
  pcap (writeS1AP (str "S1AP-UEContextReleaseCmpl") IP_ENB PORT_S1AP IP_MME PORT_S1AP
          (buildUEContextReleaseComplete (mme_id l) (enb_id l))).

(** One turn of [enbReceiveLoop] on a payload. *)
Definition mme_receive (payload : bytes) : M (MmeNode * W) unit :=
  if (length payload <? 8)%nat then mret tt else
  match type_of_code (msgType (newReader payload)) with
  | Some S1AP_INITIAL_UE_MSG => handleInitialUEMsg payload
  | Some S1AP_UL_NAS_TRANSPORT => handleULNasTransport payload
  | Some S1AP_INITIAL_CONTEXT_SETUP_RSP => handleICSetupResponse payload
  | Some S1AP_TAU_REQUEST => handleTauRequest payload
  | Some S1AP_HANDOVER_REQUIRED => handleHandoverRequired payload
  | Some S1AP_HANDOVER_REQUEST_ACK => handleHandoverRequestAck payload
  | Some S1AP_ENB_STATUS_TRANSFER => handleEnbStatusTransfer payload
  | Some S1AP_HANDOVER_NOTIFY => handleHandoverNotify payload
  | Some S1AP_UE_CONTEXT_RELEASE_CMPL => handleUeContextRelCmpl payload
  | _ => mret tt
  end.

End Mme.

(** ** The structural invariant *)

(** Every identifier in the store leads to a context that carries it. *)
Definition wf_mme (s : MmeNode) : Prop :=
  wf_store (ue_store_ s)
  /\ forall id p, find (ue_store_ s) id = Some p ->
     exists c, heap s !! p = Some c /\ mme_ue_s1ap_id c = id.

(** What a context keeps for its whole life. *)
Definition same_identity (c c' : UeContext) : Prop :=
  imsi c' = imsi c /\ mme_ue_s1ap_id c' = mme_ue_s1ap_id c
  /\ enb_ue_s1ap_id c' = enb_ue_s1ap_id c /\ auth c' = auth c.

(** ** Lemmas *)

Lemma wf_newMme (m : option Metrics) : wf_mme (newMme m).
Proof.
  split; [exact wf_newStore|]. intros id p Hp. exfalso.
  rewrite find_all_ids in Hp by exact wf_newStore. vm_compute in Hp. discriminate.
Qed.

Lemma set_default_teid_id (teid : Z) (c : UeContext) :
  same_identity c (set_default_teid teid c)
  /\ emm_state (set_default_teid teid c) = emm_state c.
Proof. unfold set_default_teid. destruct (default_index _); repeat split. Qed.

Section MmeLemmas.
Context {W : Type} `{Env W}.
Implicit Types P : MmeNode -> Prop.

(** A property of the node that its sequence number, its pending vectors and
    its metrics do not enter. *)
Definition on_contexts (P : MmeNode -> Prop) : Prop :=
  forall h st pa pa' n n' m m', P (mkMme h st pa n m) -> P (mkMme h st pa' n' m').

Lemma keeps_mme_seq P : on_contexts P -> keeps P (mme_seq : M (MmeNode * W) Z).
Proof.
  intros HP. unfold mme_seq. keeps_tac. apply keeps_modify.
  intros [h st pa n' m]. cbn. apply HP.
Qed.

Lemma keeps_set_pending P f : on_contexts P -> keeps P (set_pending f : M (MmeNode * W) unit).
Proof. intros HP. apply keeps_modify. intros [h st pa n m]. cbn. apply HP. Qed.

Lemma keeps_metrics P t : on_contexts P -> keeps P (record_metrics t : M (MmeNode * W) unit).
Proof. intros HP. apply keeps_modify. intros [h st pa n m]. cbn. apply HP. Qed.

Lemma keeps_find P id : keeps P (store_find id : M (MmeNode * W) _).
Proof. unfold store_find. keeps_tac. Qed.

Lemma keeps_receive_aia P p : on_contexts P -> keeps P (hss_receive_aia p : M (MmeNode * W) unit).
Proof. intros HP. unfold hss_receive_aia. keeps_tac. apply keeps_set_pending. exact HP. Qed.

Lemma keeps_receive_all P ps : on_contexts P -> keeps P (hss_receive_all ps : M (MmeNode * W) unit).
Proof.
  intros HP. induction ps as [|p ps IH]; cbn; keeps_tac; apply keeps_receive_aia; exact HP.
Qed.

Lemma keeps_wait_auth P i : on_contexts P -> keeps P (wait_auth i : M (MmeNode * W) _).
Proof.
  intros HP. unfold wait_auth. keeps_tac;
    first [apply keeps_receive_all | apply keeps_set_pending]; exact HP.
Qed.

Lemma on_contexts_wf : on_contexts wf_mme.
Proof. intros h st pa pa' n n' m m' Hwf. exact Hwf. Qed.

Lemma keeps_update_wf p f :
  (forall c, mme_ue_s1ap_id (f c) = mme_ue_s1ap_id c) ->
  keeps wf_mme (update p f : M (MmeNode * W) unit).
Proof.
  intros Hf. apply keeps_modify. intros s [Hst Hfind]. split; [exact Hst|].
  cbn. intros id q Hq. destruct (Hfind id q Hq) as (c & Hc & Hid).
  destruct (decide (q = p)) as [->|Hne].
  - exists (f c). rewrite list_lookup_alter_eq, Hc. split; [reflexivity|]. rewrite Hf. exact Hid.
  - exists c. rewrite list_lookup_alter_ne by congruence. auto.
Qed.

Lemma keeps_insert_wf c : keeps wf_mme (store_insert c : M (MmeNode * W) Z).
Proof.
  intros s w id s' w' [Hst Hfind]. unfold store_insert. run_m.
  cbn [insert_ctx]. run_m. intros [= <- <- _]. split.
  - exact (insert_ctx_wf (ue_store_ s) (heap s ++ [c]) (length (heap s)) Hst).
  - cbn [heap ue_store_]. intros k p Hp.
    pose proof (insert_ctx_find (ue_store_ s) (heap s ++ [c]) (length (heap s)) k Hst) as Hk.
    cbn [insert_ctx fst snd] in Hk. rewrite Hk in Hp.
    destruct (decide (k = next_id_ (ue_store_ s))) as [->|Hne].
    + injection Hp as <-. exists (set_mme_id (next_id_ (ue_store_ s)) c).
      rewrite list_lookup_alter_eq, lookup_app_r, Nat.sub_diag by lia. split; reflexivity.
    + destruct (Hfind k p Hp) as (c' & Hc' & Hid). exists c'.
      pose proof (lookup_lt_Some _ _ _ Hc').
      rewrite list_lookup_alter_ne by lia. rewrite lookup_app_l by lia. auto.
Qed.

End MmeLemmas.

#[export] Hint Resolve keeps_mme_seq keeps_set_pending keeps_metrics keeps_find keeps_receive_aia
  keeps_wait_auth on_contexts_wf keeps_insert_wf : triples.

(** The handlers keep the invariant: their writes change no identifier. *)
Ltac keeps_wf := keeps_tac; apply keeps_update_wf; intros; first [reflexivity | apply set_default_teid_id].

Lemma mme_receive_wf {W} `{Env W} (payload : bytes) :
  keeps wf_mme (mme_receive payload : M (MmeNode * W) unit).
Proof.
  unfold mme_receive, handleInitialUEMsg, handleULNasTransport, handleAuthResponse,
    handleAttachComplete, handleAuthSuccess,
    sendCreateSession, handleICSetupResponse, handleTauRequest, handleHandoverRequired,
    handleHandoverRequestAck, handleEnbStatusTransfer, handleHandoverNotify, sendModifyBearer,
    handleUeContextRelCmpl.
  keeps_wf.
Qed.

(** ** What may happen to a context *)

(** The context at [q], which was [c0], is the same subscriber's and its EMM
    state satisfies [Q]. *)
Definition ctx_rel (Q : EmmState -> Prop) (q : Ptr) (c0 : UeContext) (s : MmeNode) : Prop :=
  exists c, heap s !! q = Some c /\ same_identity c0 c /\ Q (emm_state c).

Lemma res_matches_iff (res xres : bytes) :
  res_matches res xres = true <-> (8 <= length res)%nat /\ take 8 res = take 8 xres.
Proof. unfold res_matches. rewrite andb_true_iff, Nat.leb_le, bool_decide_eq_true. reflexivity. Qed.

(** The EMM states a message may leave a known context in. *)
Definition allowed (s0 : MmeNode) (payload : bytes) (q : Ptr) (c0 : UeContext) (st : EmmState) : Prop :=
  st = emm_state c0
  \/ exists l, parse ul_nas_cases (newReader payload) (mkUl 0 0 0 []) = Ok l
       /\ find (ue_store_ s0) (ul_mme_id l) = Some q
       /\ ((st = SESSION_PENDING /\ ul_nas_type l = 0x53
            /\ (8 <= length (ul_res l))%nat /\ take 8 (ul_res l) = take 8 (av_xres (auth c0)))
           \/ (st = REGISTERED /\ ul_nas_type l = 0x46)).

Section CtxLemmas.
Context {W : Type} `{Env W}.

Lemma same_identity_trans c1 c2 c3 :
  same_identity c1 c2 -> same_identity c2 c3 -> same_identity c1 c3.
Proof. unfold same_identity. intuition congruence. Qed.

Lemma on_contexts_rel Q q c0 : on_contexts (ctx_rel Q q c0).
Proof. intros h st pa pa' n n' m m' Hr. exact Hr. Qed.

(** A write that keeps the identity keeps the relation, when it is elsewhere
    or the new EMM state is allowed. *)
Lemma keeps_update_rel Q q c0 p f :
  (p = q -> forall c, same_identity c (f c)) ->
  (p = q -> forall c, Q (emm_state c) -> Q (emm_state (f c))) ->
  keeps (ctx_rel Q q c0) (update p f : M (MmeNode * W) unit).
Proof.
  intros Hf HQ. apply keeps_modify. intros s (c & Hc & Hi & Hq). unfold ctx_rel; cbn [heap].
  destruct (decide (p = q)) as [->|Hne].
  - exists (f c). rewrite list_lookup_alter_eq, Hc. split; [reflexivity|].
    split; [exact (same_identity_trans _ _ _ Hi (Hf eq_refl c))|]. apply HQ; auto.
  - exists c. rewrite list_lookup_alter_ne by congruence. auto.
Qed.

Lemma same_identity_bearer c b : same_identity c (push_bearer b c).
Proof. repeat split. Qed.

Lemma same_identity_state c st : same_identity c (set_state st c).
Proof. repeat split. Qed.

Lemma triple_find (s0 : MmeNode) id :
  triple (fun s => s = s0) (store_find id : M (MmeNode * W) _)
    (fun r s => s = s0 /\ match r with
                          | Some (p, c) => find (ue_store_ s0) id = Some p /\ heap s0 !! p = Some c
                          | None => True
                          end).
Proof.
  intros s w r s' w' -> E. unfold store_find in E. rewrite M_bind_eq in E. cbn [get_state] in E.
  destruct (find (ue_store_ s0) id) as [p|] eqn:Ef.
  - destruct (heap s0 !! p) as [c|] eqn:Eh; [|discriminate].
    injection E as <- <- _. auto.
  - injection E as <- <- _. auto.
Qed.

End CtxLemmas.

#[export] Hint Resolve on_contexts_rel : triples.

(** The writes that touch neither the identity nor the EMM state. *)
Ltac keeps_rel :=
  keeps_tac; apply keeps_update_rel; intros;
    first [apply set_default_teid_id | apply same_identity_bearer | apply same_identity_state
          | match goal with
            | |- ?Q (emm_state (set_default_teid ?t ?c)) =>
                rewrite (proj2 (set_default_teid_id t c)); assumption
            end
          | assumption].

Lemma keeps_rel_auth_success {W} `{Env W} Q q c0 id :
  keeps (ctx_rel Q q c0) (handleAuthSuccess id : M (MmeNode * W) unit).
Proof. unfold handleAuthSuccess, sendCreateSession. keeps_rel. Qed.

(** The handlers that know no EMM state. *)
Lemma keeps_rel_stateless {W} `{Env W} Q q c0 payload :
  keeps (ctx_rel Q q c0) (handleICSetupResponse payload : M (MmeNode * W) unit)
  /\ keeps (ctx_rel Q q c0) (handleTauRequest payload : M (MmeNode * W) unit)
  /\ keeps (ctx_rel Q q c0) (handleHandoverRequired payload : M (MmeNode * W) unit)
  /\ keeps (ctx_rel Q q c0) (handleHandoverRequestAck payload : M (MmeNode * W) unit)
  /\ keeps (ctx_rel Q q c0) (handleEnbStatusTransfer payload : M (MmeNode * W) unit)
  /\ keeps (ctx_rel Q q c0) (handleHandoverNotify payload : M (MmeNode * W) unit)
  /\ keeps (ctx_rel Q q c0) (handleUeContextRelCmpl payload : M (MmeNode * W) unit).
Proof.
  unfold handleICSetupResponse, handleTauRequest, handleHandoverRequired, handleHandoverRequestAck,
    handleEnbStatusTransfer, handleHandoverNotify, sendModifyBearer, handleUeContextRelCmpl.
  repeat split; keeps_rel.
Qed.

(** An attach request writes only to the context it creates. *)
Definition elsewhere (Q : EmmState -> Prop) (q : Ptr) (c0 : UeContext) (id : Z) (s : MmeNode) : Prop :=
  ctx_rel Q q c0 s /\ exists p, find (ue_store_ s) id = Some p /\ p <> q.

Lemma on_contexts_elsewhere Q q c0 id : on_contexts (elsewhere Q q c0 id).
Proof. intros h st pa pa' n n' m m' Hr. exact Hr. Qed.

#[export] Hint Resolve on_contexts_elsewhere : triples.

Lemma triple_insert_elsewhere {W} `{Env W} Q q c0 c :
  triple (fun s => ctx_rel Q q c0 s /\ wf_mme s) (store_insert c : M (MmeNode * W) Z)
    (elsewhere Q q c0).
Proof.
  intros s w id s' w' [(c1 & Hc & Hi & Hq) [Hst _]]. unfold store_insert. run_m.
  cbn [insert_ctx]. run_m. intros [= <- <- _]. pose proof (lookup_lt_Some _ _ _ Hc). split.
  - exists c1. cbn [heap]. rewrite list_lookup_alter_ne by lia.
    rewrite lookup_app_l by lia. auto.
  - exists (length (heap s)). split; [|lia]. cbn [ue_store_].
    pose proof (insert_ctx_find (ue_store_ s) (heap s ++ [c]) (length (heap s))
                  (next_id_ (ue_store_ s)) Hst) as Hk.
    rewrite decide_True in Hk by reflexivity. exact Hk.
Qed.

Lemma triple_find_elsewhere {W} `{Env W} Q q c0 id :
  triple (elsewhere Q q c0 id) (store_find id : M (MmeNode * W) _)
    (fun r s => ctx_rel Q q c0 s /\ match r with Some (p, _) => p <> q | None => True end).
Proof.
  intros s w r s' w' [Hr (p & Hp & Hne)] E. unfold store_find in E.
  rewrite M_bind_eq in E. cbn [get_state] in E. rewrite Hp in E.
  destruct (heap s !! p); [|discriminate]. injection E as <- <- _. auto.
Qed.

Lemma triple_initial_ue {W} `{Env W} (Q : EmmState -> Prop) q c0 payload :
  triple (fun s => ctx_rel Q q c0 s /\ wf_mme s)
    (handleInitialUEMsg payload : M (MmeNode * W) unit) (fun _ => ctx_rel Q q c0).
Proof.
  unfold handleInitialUEMsg. apply (triple_bind _ _ _ (fun _ s => ctx_rel Q q c0 s /\ wf_mme s));
    [apply keeps_parse|intros l].
  apply (triple_bind _ _ _ (fun _ s => ctx_rel Q q c0 s /\ wf_mme s)); [apply keeps_now|intros t].
  apply (triple_bind _ _ _ (elsewhere Q q c0)); [apply triple_insert_elsewhere|intros id].
  do 4 (apply (triple_bind _ _ _ (fun _ => elsewhere Q q c0 id));
        [apply keeps_triple; [auto with triples nocore|auto]|intros ?]).
  destruct a2 as [av|]; [|apply triple_ret; intros s [Hr _]; exact Hr].
  apply (triple_bind _ _ _ _ _ (triple_find_elsewhere Q q c0 id)). intros r.
  apply (triple_bind _ _ _ (fun _ => ctx_rel Q q c0)).
  - destruct r as [[p c]|]; [|apply triple_ret; tauto].
    intros s w u s' w' [Hr Hne] E. eapply keeps_update_rel; [| |exact Hr|exact E];
      contradiction.
  - intros _. apply keeps_triple; [keeps_tac|auto].
Qed.

(** An update to an allowed state, from the state the handler started in. *)
Lemma triple_ul_branch {W} `{Env W} (s0 : MmeNode) q c0 payload (l : UlNas) :
  heap s0 !! q = Some c0 -> parse ul_nas_cases (newReader payload) (mkUl 0 0 0 []) = Ok l ->
  let R := ctx_rel (allowed s0 payload q c0) q c0 in
  (ul_nas_type l = 0x53 ->
   triple (fun s => s = s0) (handleAuthResponse l : M (MmeNode * W) unit) (fun _ => R))
  /\ (ul_nas_type l = 0x46 ->
      triple (fun s => s = s0) (handleAttachComplete l : M (MmeNode * W) unit) (fun _ => R)).
Proof.
  intros Hq Hl R.
  assert (H0 : R s0) by (exists c0; split; [exact Hq|]; split; [repeat split|left; reflexivity]).
  split; intros Ht; [unfold handleAuthResponse|unfold handleAttachComplete];
    (eapply triple_bind; [apply triple_find|]); intros [[p c]|];
    try (apply triple_ret; intros s [-> _]; exact H0);
    intros s w u s' w' [-> [Hf Hc]] E; revert E;
    assert (Hpq : p = q -> c = c0) by (intros ->; congruence).
  - intros E. destruct (res_matches (ul_res l) (av_xres (auth c))) eqn:Er;
      [|injection E as _ <- _; exact H0].
    assert (K : keeps R (seq ← mme_seq;
        send enb_conn_ (frame (message S1AP_DL_NAS_TRANSPORT seq
          [FU32 MME_UE_S1AP_ID (ul_mme_id l); FU32 ENB_UE_S1AP_ID (enb_ue_s1ap_id c);
           FU8 NAS_MSG_TYPE 0x5D]));;
        update p (set_state SESSION_PENDING);;
        handleAuthSuccess (ul_mme_id l) : M (MmeNode * W) unit)).
    { unfold R. keeps_tac; [|apply keeps_rel_auth_success].
      apply keeps_update_rel; [intros; apply same_identity_state|].
      intros Epq c1 _. right. exists l. rewrite (Hpq Epq) in Er. subst p.
      apply res_matches_iff in Er as [? ?]. auto 10. }
    exact (K _ _ _ _ _ H0 E).
  - intros E.
    assert (K : keeps R (update p (set_state REGISTERED);;
                         t ← now; record_metrics (t - attach_start c) : M (MmeNode * W) unit)).
    { unfold R. keeps_tac. apply keeps_update_rel; [intros; apply same_identity_state|].
      intros -> c1 _. right. exists l. auto. }
    exact (K _ _ _ _ _ H0 E).
Qed.

Lemma mme_receive_ctx {W} `{Env W} (s0 : MmeNode) q c0 payload :
  wf_mme s0 -> heap s0 !! q = Some c0 ->
  triple (fun s => s = s0) (mme_receive payload : M (MmeNode * W) unit)
    (fun _ => ctx_rel (allowed s0 payload q c0) q c0).
Proof.
  intros Hwf Hq. set (R := ctx_rel (allowed s0 payload q c0) q c0).
  assert (H0 : R s0) by (exists c0; split; [exact Hq|]; split; [repeat split|left; reflexivity]).
  assert (HK : forall m : M (MmeNode * W) unit, keeps R m ->
            triple (fun s => s = s0) m (fun _ => R)).
  { intros m Hm. eapply triple_conseq; [exact Hm| |auto]. intros s ->. exact H0. }
  destruct (keeps_rel_stateless (W := W) (allowed s0 payload q c0) q c0 payload)
    as (K1 & K2 & K3 & K4 & K5 & K6 & K7).
  unfold mme_receive. destruct (_ <? _)%nat; [apply HK, keeps_ret|].
  destruct (type_of_code _) as [[]|]; try (apply HK, keeps_ret); try (apply HK; assumption).
  - eapply triple_conseq; [apply (triple_initial_ue (allowed s0 payload q c0) q c0)| |auto].
    intros s ->. split; [exact H0|exact Hwf].
  - unfold handleULNasTransport.
    eapply triple_bind; [apply triple_parse|]. intros l s w u s' w' [-> Hl] E.
    destruct (triple_ul_branch (W := W) s0 q c0 payload l Hq Hl) as [T53 T46].
    destruct (Z.eqb_spec (ul_nas_type l) 0x53) as [E53|_]; [exact (T53 E53 _ _ _ _ _ eq_refl E)|].
    destruct (ul_nas_type l =? 0x5E); [exact (keeps_pcap R _ _ _ _ _ _ H0 E)|].
    destruct (Z.eqb_spec (ul_nas_type l) 0x46) as [E46|_]; [exact (T46 E46 _ _ _ _ _ eq_refl E)|].
    exact (keeps_ret R tt _ _ _ _ _ H0 E).
Qed.

(** ** What the MME relies on

    In the worlds of [I]: the HSS answers an AIR for a subscriber with its
    [vectors] while the MME waits; the S-GW accepts sessions, giving the
    next address of the world's [pool], and modifications; chaos is off.  [out] is
    what went to the eNB. *)
Class MmePeers (W : Type) `{Env W} (I : W -> Prop) (out : W -> list bytes)
    (vectors : Z -> AuthVectors) (pool : W -> Z) : Prop := {
  mp_hss (w : W) (seq imsi plmn : Z) (c : PcapCall) :
    I w -> in_u 32 seq -> in_u 64 imsi -> in_u 32 plmn ->
    exists seq' w',
      env_blocked (env_pcap c (env_send hss_conn_
        (frame (message DIA_AIR seq [FU64 DIA_IMSI imsi; FU32 DIA_PLMN plmn])) w).2)
      = ([enc_message DIA_AIA seq' (aia_fields imsi (vectors imsi))], false, w')
      /\ in_u 32 seq' /\ I w' /\ out w' = out w /\ pool w' = pool w;
  mp_vectors (imsi : Z) :
    length (av_rand (vectors imsi)) = 16%nat /\ length (av_autn (vectors imsi)) = 16%nat
    /\ length (av_xres (vectors imsi)) = 8%nat /\ length (av_kasme (vectors imsi)) = 32%nat;
  mp_create (w : W) (seq imsi : Z) :
    I w -> in_u 32 seq -> in_u 64 imsi ->
    exists seq' s11 s1u w',
      env_recv sgw_udp_ 5000 (env_send sgw_udp_
        (udpPayload (message GTP_CREATE_SESSION_REQ seq (s11_fields imsi))) w).2
      = (Some (enc_message GTP_CREATE_SESSION_RSP seq' (sgw_rsp_fields s11 s1u imsi (be32 (pool w)))), w')
      /\ in_u 32 seq' /\ in_u 32 s11 /\ in_u 32 s1u /\ I w' /\ out w' = out w
      /\ pool w' = u32 (pool w + 1);
  mp_modify (w : W) (seq teid imsi : Z) :
    I w -> in_u 32 seq -> in_u 32 teid -> in_u 64 imsi ->
    exists p w',
      env_recv sgw_udp_ 3000 (env_send sgw_udp_
        (udpPayload (message GTP_MODIFY_BEARER_REQ seq (modify_fields teid imsi))) w).2
      = (Some p, w') /\ I w' /\ out w' = out w /\ pool w' = pool w;
  mp_pcap (w : W) (c : PcapCall) :
    I w -> I (env_pcap c w) /\ out (env_pcap c w) = out w /\ pool (env_pcap c w) = pool w;
  mp_enb (w : W) (f : bytes) :
    I w -> let w' := (env_send enb_conn_ f w).2 in
           I w' /\ out w' = out w ++ [f] /\ pool w' = pool w;
  mp_now (w : W) :
    I w -> let w' := (env_now w).2 in I w' /\ out w' = out w /\ pool w' = pool w;
  mp_chaos (w : W) : I w -> env_chaos w = false
}.

(** ** The attach, message by message *)

(** The messages of the procedure. *)
Definition init_ue_fields (enb_id imsi : Z) : list field :=
  [FU32 ENB_UE_S1AP_ID enb_id; FU8 RRC_CAUSE 3; FU16 TAI_MCC 404; FU16 TAI_MNC 10; FU16 TAI_TAC 1;
   FU32 EUTRAN_CGI 1; FU8 NAS_PROTO_DISC 0x07; FU8 NAS_SEC_HDR 0x00; FU8 NAS_MSG_TYPE 0x41;
   FU8 NAS_ATTACH_TYPE 1; FU8 NAS_KSI 7; FU8 NAS_ID_TYPE 1; FU64 NAS_IMSI imsi;
   FU8 NAS_UE_CAP 0xE0].

Definition auth_req_fields (mme_id enb_id : Z) (av : AuthVectors) : list field :=
  [FU32 MME_UE_S1AP_ID mme_id; FU32 ENB_UE_S1AP_ID enb_id; FU8 NAS_MSG_TYPE 0x52;
   FBytes NAS_RAND (av_rand av); FBytes NAS_AUTN (av_autn av)].

Definition nas_fields (mme_id enb_id nas_type : Z) : list field :=
  [FU32 MME_UE_S1AP_ID mme_id; FU32 ENB_UE_S1AP_ID enb_id; FU8 NAS_MSG_TYPE nas_type].

(** The context an attach request makes, when its vectors have come. *)
Definition attaching_ue (id enb_id imsi t : Z) (av : AuthVectors) : UeContext :=
  mkUe imsi id enb_id AUTH_PENDING av [] 404 10 1 t (str "internet").

Section Attach.
Context {W : Type} `{Env W} {I : W -> Prop} {out : W -> list bytes}
  {vectors : Z -> AuthVectors} {pool : W -> Z} `{!MmePeers W I out vectors pool}.

Lemma aia_wf (imsi : Z) : in_u 64 imsi -> Forall wf_field (aia_fields imsi (vectors imsi)).
Proof.
  intros Hi. destruct (mp_vectors (vectors := vectors) imsi) as (H1 & H2 & H3 & H4).
  unfold aia_fields. wf_fields; lia.
Qed.

(** The HSS's answer, as the receiving thread stores it. *)
Lemma receive_aia (s : MmeNode) (w : W) (seq imsi : Z) :
  in_u 32 seq -> in_u 64 imsi ->
  hss_receive_aia (enc_message DIA_AIA seq (aia_fields imsi (vectors imsi))) (s, w) =
  Ok (tt, (mkMme (heap s) (ue_store_ s) (<[imsi := vectors imsi]> (pending_auth_ s))
             (mme_next_seq_ s) (metrics_ s), w)).
Proof.
  intros Hs Hi. unfold hss_receive_aia. rewrite enc_message_long, msgType_enc by exact Hs.
  cbn [type_code Z.eqb Pos.eqb negb].
  rewrite M_bind_eq, (parse_payload_enc aia_cases DIA_AIA seq _ _ (mkAia imsi (vectors imsi)) s w Hs
            (aia_wf imsi Hi)); [reflexivity|].
  destruct (mp_vectors (vectors := vectors) imsi) as (H1 & H2 & H3 & H4).
  destruct (vectors imsi) as [r a x k]; cbn in *. unfold aia_fields; cbn.
  unfold keep_size. rewrite H1, H2, H3, H4. reflexivity.
Qed.

Lemma insert_ctx_state (s : MmeNode) (c : UeContext) :
  wf_mme s ->
  let id := next_id_ (ue_store_ s) in
  let x := insert_ctx (ue_store_ s) (heap s ++ [c]) (length (heap s)) in
  x.1.1 = id /\ x.2 = heap s ++ [set_mme_id id c]
  /\ find x.1.2 id = Some (length (heap s)).
Proof.
  intros [Hst _]. cbv zeta. split; [reflexivity|]. split.
  - cbn [insert_ctx snd]. rewrite alter_app_r_alt, Nat.sub_diag by lia. reflexivity.
  - rewrite insert_ctx_find by exact Hst. rewrite decide_True by reflexivity. reflexivity.
Qed.

(** The request: a new context with the HSS's vectors, and the challenge. *)
Lemma mme_serves_attach_request (s : MmeNode) (w : W) (seq eid imsi : Z) :
  I w -> wf_mme s -> in_u 32 (mme_next_seq_ s) ->
  in_u 32 (next_id_ (ue_store_ s)) -> in_u 32 seq -> in_u 32 eid -> in_u 64 imsi ->
  let id := next_id_ (ue_store_ s) in
  exists t s' w',
    mme_receive (enc_message S1AP_INITIAL_UE_MSG seq (init_ue_fields eid imsi)) (s, w)
      = Ok (tt, (s', w'))
    /\ I w' /\ pool w' = pool w
    /\ out w' = out w ++ [frame (message S1AP_DL_NAS_TRANSPORT (u32 (mme_next_seq_ s + 1))
                                   (auth_req_fields id eid (vectors imsi)))]
    /\ heap s' = heap s ++ [attaching_ue id eid imsi t (vectors imsi)]
    /\ ue_store_ s' = (insert_ctx (ue_store_ s) [] (length (heap s))).1.2
    /\ pending_auth_ s' = delete imsi (pending_auth_ s)
    /\ mme_next_seq_ s' = u32 (u32 (mme_next_seq_ s + 1) + 1)
    /\ metrics_ s' = metrics_ s.
Proof.
  intros HI Hwf Hsq Hid Hs He Hi id.
  unfold mme_receive. rewrite enc_message_long, msgType_enc by exact Hs.
  rewrite type_of_code_type_code. unfold handleInitialUEMsg, init_ue_fields.
  run_m. parse_msg. run_m. cbn [iu_enb_id iu_imsi iu_mcc iu_mnc iu_tac].
  destruct (mp_now w HI) as (HI1 & Ho1 & Hp1).
  destruct (env_now w) as [t w1]; cbn [snd] in HI1, Ho1, Hp1. run_m.
  unfold store_insert. run_m.
  set (c0 := mkUe imsi 0 eid REGISTERED_INITIATED zeroAuth [] 404 10 1 t (apn (profile_of (str "internet")))). 
  destruct (insert_ctx_state s c0 Hwf) as (Hx1 & Hx2 & Hx3).
  set (x := insert_ctx (ue_store_ s) (heap s ++ [c0]) (length (heap s))) in *.
  assert (Hst : x.1.2 = (insert_ctx (ue_store_ s) [] (length (heap s))).1.2) by reflexivity.
  destruct x as [[id0 st] h]. cbn [fst snd] in Hx1, Hx2, Hx3, Hst. subst id0 h. run_m.
  unfold mme_seq. run_m.
  cbn [heap ue_store_ pending_auth_ mme_next_seq_ metrics_].
  destruct (mp_hss (vectors := vectors) w1 (mme_next_seq_ s) imsi (Z.lor (Z.shiftl 404 16) 10)
              (writeDiameter AUTH_INFO S6A true IP_MME 3868 IP_HSS 3868) HI1 Hsq Hi
              ltac:(vm_compute; split; [discriminate|reflexivity])) as (seq' & w2 & Hb & Hs' & HI2 & Ho2 & Hp2).
  destruct (env_send hss_conn_ _ w1) as [ok1 w1']. cbn [snd] in Hb. run_m.
  unfold wait_auth. run_m. rewrite Hb. run_m. cbn [hss_receive_all]. run_m.
  rewrite receive_aia by assumption. run_m. cbn [pending_auth_].
  rewrite lookup_insert_eq. unfold set_pending. run_m.
  unfold store_find. run_m. cbn [heap ue_store_ pending_auth_ mme_next_seq_ metrics_].
  fold id in Hx3 |- *. rewrite Hx3, lookup_app_r, Nat.sub_diag by lia. cbn [lookup list_lookup].
  run_m. unfold update. run_m. unfold rollDrop. rewrite (mp_chaos w2 HI2). run_m.
  cbn [heap ue_store_ pending_auth_ mme_next_seq_ metrics_].
  destruct (mp_pcap w2 (writeDiameter AUTH_INFO S6A false IP_HSS 3868 IP_MME 3868) HI2)
    as (HI3 & Ho3 & Hp3).
  set (w3 := env_pcap (writeDiameter AUTH_INFO S6A false IP_HSS 3868 IP_MME 3868) w2) in *.
  set (f := frame _).
  destruct (mp_enb w3 f HI3) as (HI4 & Ho4 & Hp4).
  destruct (env_send enb_conn_ f w3) as [ok2 w4]. cbn [snd] in HI4, Ho4, Hp4. run_m.
  exists t. eexists _, _. split; [reflexivity|]. split; [exact HI4|]. split; [congruence|].
  split; [rewrite Ho4, Ho3, Ho2, Ho1; reflexivity|].
  cbn [heap ue_store_ pending_auth_ mme_next_seq_ metrics_].
  split; [rewrite alter_app_r_alt, Nat.sub_diag by lia; reflexivity|].
  split; [exact Hst|]. split; [apply delete_insert_eq|]. split; reflexivity.
Qed.

(** The dotted text of four octets. *)
Definition ip_text (l : bytes) : bytes :=
  match l with [a; b; c; d] => ip_str a b c d | _ => [] end.

Definition session_bearer (s11 s1u teid : Z) (ip : bytes) : Bearer :=
  mkBearer 5 9 s11 s1u 0 teid (ip_text ip).

(** The fields of the Initial Context Setup Request, as the eNB reads them. *)
Definition setup_fields (mme_id enb_id s1u : Z) (ip : bytes) : list field :=
  [FU32 MME_UE_S1AP_ID mme_id; FU32 ENB_UE_S1AP_ID enb_id;
   FU32 ICSR_AMBR_UL 50000000; FU32 ICSR_AMBR_DL 100000000;
   FBytes ICSR_SGW_S1U_IP [127; 0; 0; 1]; FU32 ICSR_SGW_TEID s1u;
   FU8 NAS_EBI 5; FU8 NAS_MSG_TYPE 0x42; FBytes NAS_UE_IP ip].

Lemma icsr_setup (mme_id enb_id s11 s1u teid : Z) (ip : bytes) :
  length ip = 4%nat -> is_bytes ip ->
  icsr_fields mme_id enb_id (session_bearer s11 s1u teid ip) = setup_fields mme_id enb_id s1u ip.
Proof.
  intros Hl Hb. destruct ip as [|a [|b [|c [|d [|? ?]]]]]; try discriminate.
  inversion_clear Hb as [|? ? Ha Hb']. inversion_clear Hb' as [|? ? Hb0 Hc'].
  inversion_clear Hc' as [|? ? Hc Hd']. inversion_clear Hd' as [|? ? Hd _].
  unfold icsr_fields, session_bearer, ip_text; cbn [ue_ip sgw_s1u_teid ebi].
  rewrite scan_ip_ip_str by assumption. rewrite !u8_small by assumption. reflexivity.
Qed.

(** [heap], [store] and [pending] after a handler that only wrote contexts. *)
Definition with_heap (s : MmeNode) (h : Heap) (seq : Z) : MmeNode :=
  mkMme h (ue_store_ s) (pending_auth_ s) seq (metrics_ s).

(** The session: the S-GW's grant becomes the default bearer. *)
Lemma create_session_ok (s : MmeNode) (w : W) (id i : Z) (p : Ptr) (c : UeContext) :
  I w -> in_u 32 (mme_next_seq_ s) -> in_u 64 i ->
  find (ue_store_ s) id = Some p -> heap s !! p = Some c ->
  exists s11 s1u w', in_u 32 s11 /\ in_u 32 s1u /\ I w' /\ out w' = out w
    /\ pool w' = u32 (pool w + 1)
    /\ sendCreateSession id i (s, w) =
       Ok (true, (with_heap s (alter (push_bearer (session_bearer s11 s1u 0 (be32 (pool w)))) p (heap s))
                    (u32 (mme_next_seq_ s + 1)), w')).
Proof.
  intros HI Hsq Hi Hf Hc. unfold sendCreateSession, mme_seq. run_m.
  destruct (mp_create w (mme_next_seq_ s) i HI Hsq Hi)
    as (seq' & s11 & s1u & w1 & Hex & Hs' & H11 & H1u & HI1 & Ho1 & Hp1).
  exists s11, s1u, w1. do 5 (split; [assumption|]).
  destruct (env_send sgw_udp_ _ w) as [ok w0]. cbn [snd] in Hex. run_m. rewrite Hex. run_m.
  unfold sgw_rsp_fields.
  rewrite (take_ge (be32 (pool w))) by (rewrite be32_length; lia).
  unfold be32. parse_msg. cbn [cr_ue_ip cr_cause cr_s11 cr_s1u Z.eqb Pos.eqb negb].
  unfold store_find. run_m. cbn [ue_store_ heap]. rewrite Hf, Hc. run_m. unfold update. run_m.
  reflexivity.
Qed.

Lemma defaultBearer_push (c : UeContext) (b : Bearer) :
  bearers c = [] -> ebi b = 5 -> defaultBearer (push_bearer b c) = Some b.
Proof. intros Hb He. unfold defaultBearer, push_bearer; cbn. rewrite Hb. cbn. rewrite He. reflexivity. Qed.

(** Session setup: the S-GW's grant, and the setup request to the eNB. *)
Lemma auth_success_ok (s : MmeNode) (w : W) (id : Z) (p : Ptr) (c : UeContext) :
  I w -> in_u 32 (mme_next_seq_ s) -> in_u 64 (imsi c) ->
  find (ue_store_ s) id = Some p -> heap s !! p = Some c -> bearers c = [] ->
  exists s11 s1u w',
    in_u 32 s11 /\ in_u 32 s1u
    /\ handleAuthSuccess id (s, w) =
       Ok (tt, (with_heap s (alter (push_bearer (session_bearer s11 s1u 0 (be32 (pool w)))) p (heap s))
                  (u32 (u32 (mme_next_seq_ s + 1) + 1)), w'))
    /\ I w' /\ pool w' = u32 (pool w + 1)
    /\ out w' = out w ++
       [frame (message S1AP_INITIAL_CONTEXT_SETUP_REQ (u32 (mme_next_seq_ s + 1))
                 (setup_fields id (enb_ue_s1ap_id c) s1u (be32 (pool w))))].
Proof.
  intros HI Hsq Hi Hf Hc Hb.
  set (c1 := writeGTPv2 CREATE_SESSION_REQ 0 IP_MME 2123 IP_SGW 2123).
  destruct (mp_pcap w c1 HI) as (HI2 & Ho2 & Hp2).
  destruct (create_session_ok s (env_pcap c1 w) id (imsi c) p c HI2 Hsq Hi Hf Hc)
    as (s11 & s1u & w2 & H11 & H1u & HI3 & Ho3 & Hp3 & Hcs).
  rewrite Hp2 in Hp3, Hcs.
  set (f2 := frame (message S1AP_INITIAL_CONTEXT_SETUP_REQ (u32 (mme_next_seq_ s + 1))
                 (setup_fields id (enb_ue_s1ap_id c) s1u (be32 (pool w))))).
  destruct (mp_enb w2 f2 HI3) as (HI4 & Ho4 & Hp4).
  exists s11, s1u, (env_send enb_conn_ f2 w2).2. do 2 (split; [assumption|]).
  split; [|split; [exact HI4|split; [rewrite Hp4; exact Hp3|rewrite Ho4, Ho3, Ho2; reflexivity]]].
  unfold handleAuthSuccess, store_find. run_m. rewrite Hf, Hc. run_m. fold c1.
  rewrite Hcs. cbn [negb]. run_m. unfold with_heap. cbn [heap].
  rewrite list_lookup_alter_eq, Hc. cbn [fmap option_fmap option_map].
  rewrite defaultBearer_push by first [exact Hb|reflexivity].
  rewrite icsr_setup by first [apply be32_length|apply be32_bytes]. unfold mme_seq. run_m.
  change (enb_ue_s1ap_id (push_bearer _ _)) with (enb_ue_s1ap_id c).
  cbn [heap ue_store_ pending_auth_ mme_next_seq_ metrics_]. fold f2.
  destruct (env_send enb_conn_ f2 w2) as [ok2 w3]. run_m. reflexivity.
Qed.

(** The response: RES equals XRES, security mode and session setup follow. *)
Lemma mme_serves_auth_response (s : MmeNode) (w : W) (seq id eid : Z) (p : Ptr) (c : UeContext) :
  I w -> in_u 32 (mme_next_seq_ s) -> in_u 32 seq -> in_u 32 id -> in_u 32 eid ->
  find (ue_store_ s) id = Some p -> heap s !! p = Some c -> bearers c = [] ->
  in_u 64 (imsi c) -> length (av_xres (auth c)) = 8%nat ->
  exists s11 s1u w',
    in_u 32 s11 /\ in_u 32 s1u
    /\ mme_receive (enc_message S1AP_UL_NAS_TRANSPORT seq
         (nas_fields id eid 0x53 ++ [FBytes NAS_RES (av_xres (auth c))])) (s, w)
      = Ok (tt, (with_heap s
                   (alter (fun c => push_bearer (session_bearer s11 s1u 0 (be32 (pool w)))
                                      (set_state SESSION_PENDING c)) p (heap s))
                   (u32 (u32 (u32 (mme_next_seq_ s + 1) + 1) + 1)), w'))
    /\ I w' /\ pool w' = u32 (pool w + 1)
    /\ out w' = out w ++
       [frame (message S1AP_DL_NAS_TRANSPORT (mme_next_seq_ s)
                 (nas_fields id (enb_ue_s1ap_id c) 0x5D));
        frame (message S1AP_INITIAL_CONTEXT_SETUP_REQ (u32 (u32 (mme_next_seq_ s + 1) + 1))
                 (setup_fields id (enb_ue_s1ap_id c) s1u (be32 (pool w))))].
Proof.
  intros HI Hsq Hs Hid He Hf Hc Hb Hi Hx.
  destruct (mp_enb w (frame (message S1AP_DL_NAS_TRANSPORT (mme_next_seq_ s)
              (nas_fields id (enb_ue_s1ap_id c) 0x5D))) HI) as (HI1 & Ho1 & Hp1).
  set (w1 := (env_send enb_conn_ _ w).2) in *.
  set (s1 := with_heap s (alter (set_state SESSION_PENDING) p (heap s)) (u32 (mme_next_seq_ s + 1))).
  assert (Hc1 : heap s1 !! p = Some (set_state SESSION_PENDING c))
    by (cbn; rewrite list_lookup_alter_eq, Hc; reflexivity).
  destruct (auth_success_ok s1 w1 id p (set_state SESSION_PENDING c) HI1 (u32_range _) Hi Hf Hc1 Hb)
    as (s11 & s1u & w2 & H11 & H1u & Has & HI2 & Hp2 & Ho2).
  rewrite Hp1 in Has, Hp2, Ho2.
  exists s11, s1u, w2. do 2 (split; [assumption|]).
  split; [|split; [exact HI2|split; [exact Hp2|rewrite Ho2, Ho1, <- app_assoc; reflexivity]]].
  unfold mme_receive. rewrite enc_message_long, msgType_enc by exact Hs.
  rewrite type_of_code_type_code. unfold handleULNasTransport, nas_fields. cbn [app].
  run_m. rewrite (parse_payload_enc ul_nas_cases _ _ _ _ (mkUl id eid 0x53 (av_xres (auth c))) s w Hs);
    [|wf_fields; lia|reflexivity]. cbn [ul_nas_type Z.eqb Pos.eqb].
  unfold handleAuthResponse, store_find. run_m. cbn [ul_mme_id ul_res]. rewrite Hf, Hc. run_m.
  unfold res_matches. rewrite Hx, bool_decide_true by reflexivity. cbn [Nat.leb andb].
  unfold mme_seq. run_m. unfold w1, nas_fields in *.
  destruct (env_send enb_conn_ _ w) as [ok1 w1']. cbn [snd] in *. run_m.
  unfold update. run_m. cbn [heap ue_store_ pending_auth_ mme_next_seq_ metrics_].
  unfold s1, with_heap in *. cbn [heap ue_store_ pending_auth_ mme_next_seq_ metrics_] in Has.
  rewrite Has, list_alter_alter_eq. reflexivity.
Qed.

(** The eNB's answer to the setup: its tunnel endpoint is stored and passed on. *)
Lemma mme_serves_setup_response (s : MmeNode) (w : W) (seq id eid teid : Z) (p : Ptr) (c : UeContext) :
  I w -> in_u 32 (mme_next_seq_ s) -> in_u 32 seq -> in_u 32 id -> in_u 32 eid -> in_u 32 teid ->
  find (ue_store_ s) id = Some p -> heap s !! p = Some c -> in_u 64 (imsi c) ->
  exists w',
    mme_receive (enc_message S1AP_INITIAL_CONTEXT_SETUP_RSP seq
      [FU32 MME_UE_S1AP_ID id; FU32 ENB_UE_S1AP_ID eid; FU32 ICSR_ENB_TEID teid]) (s, w)
    = Ok (tt, (with_heap s (alter (set_default_teid teid) p (heap s)) (u32 (mme_next_seq_ s + 1)), w'))
    /\ I w' /\ out w' = out w /\ pool w' = pool w.
Proof.
  intros HI Hsq Hs Hid He Ht Hf Hc Hi.
  destruct (mp_modify w (mme_next_seq_ s) teid (imsi c) HI Hsq Ht Hi) as (rp & w' & Hex & HI' & Ho' & Hp').
  exists w'. split; [|auto].
  unfold mme_receive. rewrite enc_message_long, msgType_enc by exact Hs.
  rewrite type_of_code_type_code. unfold handleICSetupResponse.
  run_m. rewrite (parse_payload_enc icsrsp_cases _ _ _ _ (mkIds id 0 teid 0) s w Hs);
    [|wf_fields|reflexivity]. cbn [val1 mme_id]. unfold store_find. run_m.
  rewrite Hf, Hc. run_m. unfold update. run_m. unfold mme_seq. run_m.
  cbn [heap ue_store_ pending_auth_ mme_next_seq_ metrics_].
  destruct (env_send sgw_udp_ _ w) as [ok w0]. cbn [snd] in Hex. run_m. rewrite Hex. run_m.
  reflexivity.
Qed.

(** Security Mode Complete changes nothing but the capture. *)
Lemma mme_serves_security_complete (s : MmeNode) (w : W) (seq id eid : Z) :
  I w -> in_u 32 seq -> in_u 32 id -> in_u 32 eid ->
  exists w', mme_receive (enc_message S1AP_UL_NAS_TRANSPORT seq (nas_fields id eid 0x5E)) (s, w)
             = Ok (tt, (s, w')) /\ I w' /\ out w' = out w /\ pool w' = pool w.
Proof.
  intros HI Hs Hid He.
  set (c1 := writeS1AP (str "NAS-SecurityModeComplete(UL-seen-by-MME)") IP_ENB PORT_S1AP IP_MME
               PORT_S1AP (buildUlNasTransport id eid SECURITY_MODE_COMPLETE)).
  destruct (mp_pcap w c1 HI) as (HI' & Ho' & Hp').
  exists (env_pcap c1 w). split; [|auto].
  unfold mme_receive. rewrite enc_message_long, msgType_enc by exact Hs.
  rewrite type_of_code_type_code. unfold handleULNasTransport, nas_fields.
  run_m. parse_msg. reflexivity.
Qed.

(** Attach Complete registers the context and records the latency. *)
Lemma mme_serves_attach_complete (s : MmeNode) (w : W) (seq id eid : Z) (p : Ptr) (c : UeContext) :
  I w -> in_u 32 seq -> in_u 32 id -> in_u 32 eid ->
  find (ue_store_ s) id = Some p -> heap s !! p = Some c ->
  exists t w',
    mme_receive (enc_message S1AP_UL_NAS_TRANSPORT seq (nas_fields id eid 0x46)) (s, w)
    = Ok (tt, (mkMme (alter (set_state REGISTERED) p (heap s)) (ue_store_ s) (pending_auth_ s)
                 (mme_next_seq_ s)
                 (match metrics_ s with
                  | Some m => Some (recordAttach (t - attach_start c) m).1 | None => None end), w'))
    /\ I w' /\ out w' = out w /\ pool w' = pool w.
Proof.
  intros HI Hs Hid He Hf Hc. destruct (mp_now w HI) as (HI' & Ho' & Hp').
  destruct (env_now w) as [t w'] eqn:En. cbn [snd] in *. exists t, w'. split; [|auto].
  unfold mme_receive. rewrite enc_message_long, msgType_enc by exact Hs.
  rewrite type_of_code_type_code. unfold handleULNasTransport, nas_fields.
  run_m. parse_msg. cbn [ul_nas_type Z.eqb Pos.eqb]. unfold handleAttachComplete, store_find.
  run_m. cbn [ul_mme_id]. rewrite Hf, Hc. run_m. unfold update, record_metrics. run_m.
  rewrite En. run_m. reflexivity.
Qed.

End Attach.

(** ** Runs of the node *)

(** The states of the node, in whatever the outside does: it starts, handles
    a payload from the eNB or, in its other thread, one from the HSS, and the
    outside moves. *)
Inductive mme_reach {W} `{Env W} : MmeNode * W -> Prop :=
| reach_start (m : option Metrics) (w : W) : mme_reach (newMme m, w)
| reach_enb (s : MmeNode) (w : W) (p : bytes) (x : MmeNode * W) :
    mme_reach (s, w) -> mme_receive p (s, w) = Ok (tt, x) -> mme_reach x
| reach_hss (s : MmeNode) (w : W) (p : bytes) (x : MmeNode * W) :
    mme_reach (s, w) -> hss_receive_aia p (s, w) = Ok (tt, x) -> mme_reach x
| reach_outside (s : MmeNode) (w w' : W) : mme_reach (s, w) -> mme_reach (s, w').

(** ** Properties *)

(** C8. In every run, whatever the messages and the other nodes do: each
    identifier of the MME's store is in its shard and leads to a context that
    carries it. *)
Theorem mme_invariant {W} `{Env W} (x : MmeNode * W) (Hr : mme_reach x) : wf_mme (fst x).
Proof.
  induction Hr as [m w|s w p [s' w'] _ IH E|s w p [s' w'] _ IH E|s w w' _ IH].
  - apply wf_newMme.
  - exact (mme_receive_wf p s w tt s' w' IH E).
  - exact (keeps_receive_aia wf_mme p on_contexts_wf s w tt s' w' IH E).
  - exact IH.
Qed.

Lemma mme_invariant_witness : wf_mme (fst (newMme None, quiet)).
Proof. apply mme_invariant. apply reach_start. Defined.

(** C7. Authentication gates session setup.  Whatever message the MME handles
    in whatever surroundings, a UE context it knew stays the context of the
    same subscriber with the same vectors, and its EMM state is unchanged,
    except that an Authentication Response naming it with at least eight octets
    of RES, the first eight those of its XRES, moves it to SESSION_PENDING, and an Attach Complete naming it moves it to
    REGISTERED. *)
Theorem mme_authentication_gate {W} `{Env W} (s : MmeNode) (w : W) (payload : bytes) (s' : MmeNode)
    (w' : W) (q : Ptr) (c : UeContext) (Hwf : wf_mme s) (Hq : heap s !! q = Some c)
    (Hrun : mme_receive payload (s, w) = Ok (tt, (s', w'))) :
  exists c', heap s' !! q = Some c' /\ same_identity c c'
             /\ allowed s payload q c (emm_state c').
Proof. exact (mme_receive_ctx s q c payload Hwf Hq s w tt s' w' eq_refl Hrun). Qed.

(** A context waiting for its authentication response. *)
Definition waiting_ue : UeContext :=
  mkUe 404100000000001 1 1 AUTH_PENDING
    (mkAuth (replicate 16 1) (replicate 16 171) (replicate 8 84) (replicate 32 0))
    [] 404 10 1 0 (str "internet").

Definition waiting_mme : MmeNode := mkMme [waiting_ue] (insert_ctx newStore [] 0).1.2 ∅ 3 None.

(** The MME told that this context's UE completed its attach. *)
Definition early_complete : bytes :=
  udpPayload (message S1AP_UL_NAS_TRANSPORT 2
    [FU32 MME_UE_S1AP_ID 1; FU32 ENB_UE_S1AP_ID 1; FU8 NAS_MSG_TYPE 0x46]).

Lemma waiting_mme_wf : wf_mme waiting_mme.
Proof.
  split; [exact (insert_ctx_wf newStore [] 0 wf_newStore)|]. intros id p Hp.
  pose proof (insert_ctx_find newStore [] 0 id wf_newStore) as Hf.
  cbn [waiting_mme ue_store_] in Hp. rewrite Hf in Hp.
  destruct (decide (id = next_id_ newStore)) as [->|Hne].
  - injection Hp as <-. exists waiting_ue. split; reflexivity.
  - exfalso. rewrite find_all_ids in Hp by exact wf_newStore. vm_compute in Hp. discriminate.
Qed.

Lemma mme_authentication_gate_witness :
  exists s' w' c', mme_receive early_complete (waiting_mme, quiet) = Ok (tt, (s', w'))
    /\ heap s' !! 0%nat = Some c' /\ emm_state c' = REGISTERED
    /\ same_identity waiting_ue c' /\ allowed waiting_mme early_complete 0 waiting_ue REGISTERED.
Proof.
  destruct (mme_receive early_complete (waiting_mme, quiet)) as [[[] [s' w']]| | |] eqn:E;
    try (vm_compute in E; discriminate E).
  destruct (mme_authentication_gate waiting_mme quiet early_complete s' w' 0 waiting_ue
              waiting_mme_wf eq_refl E) as (c' & Hc & Hi & Ha).
  exists s', w', c'.
  assert (Hst : emm_state c' = REGISTERED).
  { vm_compute in E. injection E as <- _. vm_compute in Hc. injection Hc as <-. reflexivity. }
  rewrite Hst in Ha. auto.
Defined.

(** Attach Complete is not gated by the EMM state: the message 0x46 naming
    a context registers it in whatever state it is, even one still waiting for
    its Authentication Response and without a bearer. *)
Theorem attach_complete_unguarded {W} `{Env W} (s : MmeNode) (w : W) (seq id eid : Z) (p : Ptr)
    (c : UeContext) (Hs : in_u 32 seq) (Hid : in_u 32 id) (He : in_u 32 eid)
    (Hf : find (ue_store_ s) id = Some p) (Hc : heap s !! p = Some c) :
  exists s' w',
    mme_receive (enc_message S1AP_UL_NAS_TRANSPORT seq (nas_fields id eid 0x46)) (s, w)
      = Ok (tt, (s', w'))
    /\ heap s' !! p = Some (set_state REGISTERED c).
Proof.
  unfold mme_receive. rewrite enc_message_long, msgType_enc by exact Hs.
  rewrite type_of_code_type_code. unfold handleULNasTransport, nas_fields.
  run_m. parse_msg. cbn [ul_nas_type Z.eqb Pos.eqb]. unfold handleAttachComplete, store_find.
  run_m. cbn [ul_mme_id]. rewrite Hf, Hc. run_m. unfold update, record_metrics. run_m.
  destruct (env_now w) as [t w1]. run_m. eexists _, _. split; [reflexivity|].
  cbn [heap]. rewrite list_lookup_alter_eq, Hc. reflexivity.
Qed.

Lemma attach_complete_unguarded_witness :
  emm_state waiting_ue = AUTH_PENDING /\ bearers waiting_ue = [] /\
  exists s' w',
    mme_receive (enc_message S1AP_UL_NAS_TRANSPORT 2 (nas_fields 1 1 0x46)) (waiting_mme, quiet)
      = Ok (tt, (s', w'))
    /\ heap s' !! 0%nat = Some (set_state REGISTERED waiting_ue).
Proof.
  split; [reflexivity|]. split; [reflexivity|].
  apply attach_complete_unguarded; try (unfold in_u; lia); reflexivity.
Defined.
