(* ===== verification/Enb.v ===== *)
(** * The eNodeB

    [EnbNode] of [4g-simulator/src/enb/enb_node.cpp]: the radio side of the
    attach, the tracking area update and the S1 handover, and the commands
    that start them.  The command thread and the receive thread share the
    sequence number under [mme_send_mtx_], so each send is one step; the
    pauses of the simulation are not modelled. *)

From S2P Require Import Prelude Tlv Text NodeEnv NasEps S1ap.
#[local] Open Scope Z_scope.

Definition BASE_IMSI : Z := 404100000000000.

Record EnbNode : Type := mkEnb {
  next_enb_teid_ : Z;
  next_enb_ue_id_ : Z;
  enb_next_seq_ : Z;
  mme_valid : bool;            (** [mme_conn_.valid()] *)
  cmd_queue_ : list bytes
}.

(** With the MME connected. *)
Definition newEnb : EnbNode := mkEnb 100 1 1 true [].

(** ** Locals and cases of the handlers *)

Record DlNas : Type := mkDl {
  dl_mme_id : Z; dl_enb_id : Z; dl_nas_type : Z; dl_rand : bytes; dl_autn : bytes
}.

Definition dl_nas_cases : cases DlNas :=
  [(MME_UE_S1AP_ID, RdU32 (fun v l => mkDl v (dl_enb_id l) (dl_nas_type l) (dl_rand l) (dl_autn l)));
   (ENB_UE_S1AP_ID, RdU32 (fun v l => mkDl (dl_mme_id l) v (dl_nas_type l) (dl_rand l) (dl_autn l)));
   (NAS_MSG_TYPE, RdU8 (fun v l => mkDl (dl_mme_id l) (dl_enb_id l) v (dl_rand l) (dl_autn l)));
   (NAS_RAND, RdBytes (fun v l => mkDl (dl_mme_id l) (dl_enb_id l) (dl_nas_type l) v (dl_autn l)));
   (NAS_AUTN, RdBytes (fun v l => mkDl (dl_mme_id l) (dl_enb_id l) (dl_nas_type l) (dl_rand l) v))].

Record Icsr : Type := mkIcsr {
  ic_mme_id : Z; ic_enb_id : Z; ic_sgw_teid : Z; ic_ue_ip : bytes; ic_nas_type : Z
}.

Definition icsr_cases : cases Icsr :=
  [(MME_UE_S1AP_ID, RdU32 (fun v l => mkIcsr v (ic_enb_id l) (ic_sgw_teid l) (ic_ue_ip l) (ic_nas_type l)));
   (ENB_UE_S1AP_ID, RdU32 (fun v l => mkIcsr (ic_mme_id l) v (ic_sgw_teid l) (ic_ue_ip l) (ic_nas_type l)));
   (ICSR_SGW_TEID, RdU32 (fun v l => mkIcsr (ic_mme_id l) (ic_enb_id l) v (ic_ue_ip l) (ic_nas_type l)));
   (NAS_MSG_TYPE, RdU8 (fun v l => mkIcsr (ic_mme_id l) (ic_enb_id l) (ic_sgw_teid l) (ic_ue_ip l) v));
   (NAS_UE_IP, RdBytes (fun v l => mkIcsr (ic_mme_id l) (ic_enb_id l) (ic_sgw_teid l) v (ic_nas_type l)))].

(** The two identifiers, and the two counters of the status transfer. *)
Record EnbIds : Type := mkEids { e_mme_id : Z; e_enb_id : Z; e_ul : Z; e_dl : Z }.

Definition enb_ids_cases : cases EnbIds :=
  [(MME_UE_S1AP_ID, RdU32 (fun v l => mkEids v (e_enb_id l) (e_ul l) (e_dl l)));
   (ENB_UE_S1AP_ID, RdU32 (fun v l => mkEids (e_mme_id l) v (e_ul l) (e_dl l)))].

Definition xfer_cases : cases EnbIds :=
  enb_ids_cases ++
  [(HO_PDCP_SN_UL, RdU32 (fun v l => mkEids (e_mme_id l) (e_enb_id l) v (e_dl l)));
   (HO_PDCP_SN_DL, RdU32 (fun v l => mkEids (e_mme_id l) (e_enb_id l) (e_ul l) v))].

Definition noEids : EnbIds := mkEids 0 0 0 0.

(** The response the simulated UE computes from the challenge. *)
Definition ue_res (rand_b : bytes) : bytes := map (fun b => Z.lxor b 0x55) (take 8 rand_b).

Definition kenb_of (enb_id mme_id : Z) : bytes :=
  map (fun i => u8 (Z.land (u32 (enb_id * 31 + mme_id * 17 + Z.of_nat i * 7)) 0xFF)) (seq 0 32).

(** ** The handlers *)

Section Enb.
Context {W : Type} `{Env W}.

Definition enb_seq : M (EnbNode * W) Z :=
  n ← get_state;
  modify (fun s => mkEnb (next_enb_teid_ s) (next_enb_ue_id_ s) (u32 (enb_next_seq_ s + 1))
                     (mme_valid s) (cmd_queue_ s));;
  mret (enb_next_seq_ n).

Definition enb_teid : M (EnbNode * W) Z :=
  n ← get_state;
  modify (fun s => mkEnb (u32 (next_enb_teid_ s + 1)) (next_enb_ue_id_ s) (enb_next_seq_ s)
                     (mme_valid s) (cmd_queue_ s));;
  mret (next_enb_teid_ n).

(** [MessageWriter w(type, next_seq_++); ...; mme_conn_.sendFrame(w.frame())]. *)
Definition to_mme (type : MessageType) (fs : list field) : M (EnbNode * W) unit :=
  seq ← enb_seq; send mme_conn_ (frame (message type seq fs));; mret tt.

(** A capture of an S1AP PDU, uplink or downlink. *)
Definition cap_up (name pdu : bytes) : M (EnbNode * W) unit :=
  pcap (writeS1AP name IP_ENB PORT_S1AP IP_MME PORT_S1AP pdu).
Definition cap_down (name pdu : bytes) : M (EnbNode * W) unit :=
  pcap (writeS1AP name IP_MME PORT_S1AP IP_ENB PORT_S1AP pdu).

Definition handleDLNas (payload : bytes) : M (EnbNode * W) unit :=
  l ← parse_payload dl_nas_cases payload (mkDl 0 0 0 [] []);
  let mme_id := dl_mme_id l in
  let enb_id := dl_enb_id l in
  let nas_type := dl_nas_type l in
  (if (nas_type =? 0x52) && (16 <=? length (dl_rand l))%nat && (16 <=? length (dl_autn l))%nat then
     cap_down (str "NAS-AuthRequest(DL)")
       (buildDlNasTransport mme_id enb_id (buildAuthRequest (dl_rand l) (dl_autn l)))
   else if nas_type =? 0x5D then
     cap_down (str "NAS-SecurityModeCmd(DL)")
       (buildDlNasTransport mme_id enb_id SECURITY_MODE_COMMAND)
   else mret tt);;
  if nas_type =? 0x5D then
    to_mme S1AP_UL_NAS_TRANSPORT
      [FU32 MME_UE_S1AP_ID mme_id; FU32 ENB_UE_S1AP_ID enb_id; FU8 NAS_MSG_TYPE 0x5E];;
    cap_up (str "NAS-SecurityModeComplete(UL)")
      (buildUlNasTransport mme_id enb_id SECURITY_MODE_COMPLETE)
  else if (nas_type =? 0x52) && (8 <=? length (dl_rand l))%nat then
    let res := ue_res (dl_rand l) in
    to_mme S1AP_UL_NAS_TRANSPORT
      [FU32 MME_UE_S1AP_ID mme_id; FU32 ENB_UE_S1AP_ID enb_id; FU8 NAS_MSG_TYPE 0x53;
       FBytes NAS_RES res];;
    cap_up (str "NAS-AuthResponse(UL)") (buildUlNasTransport mme_id enb_id (buildAuthResponse res))
  else mret tt.

Definition handleICSR (payload : bytes) : M (EnbNode * W) unit :=
  l ← parse_payload icsr_cases payload (mkIcsr 0 0 0 [] 0);
  let mme_id := ic_mme_id l in
  let enb_id := ic_enb_id l in
  teid ← enb_teid;
  let ue_ip4 := if (4 <=? length (ic_ue_ip l))%nat then take 4 (ic_ue_ip l) else [0; 0; 0; 0] in
  cap_down (str "S1AP-InitialContextSetupReq")
    (buildInitialContextSetupRequest mme_id enb_id (ic_sgw_teid l) ue_ip4 (kenb_of enb_id mme_id));;
  to_mme S1AP_INITIAL_CONTEXT_SETUP_RSP
    [FU32 MME_UE_S1AP_ID mme_id; FU32 ENB_UE_S1AP_ID enb_id; FU32 ICSR_ENB_TEID teid];;
  cap_up (str "S1AP-InitialContextSetupRsp")
    (buildInitialContextSetupResponse mme_id enb_id teid);;
  to_mme S1AP_UL_NAS_TRANSPORT
    [FU32 MME_UE_S1AP_ID mme_id; FU32 ENB_UE_S1AP_ID enb_id; FU8 NAS_MSG_TYPE 0x46];;
  cap_up (str "NAS-AttachComplete(UL)") (buildUlNasTransport mme_id enb_id ATTACH_COMPLETE).

Definition handleTauAccept (payload : bytes) : M (EnbNode * W) unit :=
  l ← parse_payload enb_ids_cases payload noEids;
  cap_down (str "NAS-TauAccept(DL)") (buildDlNasTransport (e_mme_id l) (e_enb_id l) buildTauAccept).

Definition handleHoRequest (payload : bytes) : M (EnbNode * W) unit :=
  l ← parse_payload enb_ids_cases payload noEids;
  cap_down (str "S1AP-HandoverRequest") (buildHandoverRequest (e_mme_id l) (e_enb_id l));;
  new_teid ← enb_teid;
  cap_up (str "S1AP-HandoverRequestAck") (buildHandoverRequestAck (e_mme_id l) (e_enb_id l));;
  to_mme S1AP_HANDOVER_REQUEST_ACK
    [FU32 MME_UE_S1AP_ID (e_mme_id l); FU32 ENB_UE_S1AP_ID (e_enb_id l);
     FU32 HO_ENB_TEID_NEW new_teid].

Definition handleHoCommand (payload : bytes) : M (EnbNode * W) unit :=
  l ← parse_payload enb_ids_cases payload noEids;
  cap_down (str "S1AP-HandoverCommand") (buildHandoverCommand (e_mme_id l) (e_enb_id l));;
  cap_up (str "S1AP-ENBStatusTransfer") (buildENBStatusTransfer (e_mme_id l) (e_enb_id l));;
  to_mme S1AP_ENB_STATUS_TRANSFER
    [FU32 MME_UE_S1AP_ID (e_mme_id l); FU32 ENB_UE_S1AP_ID (e_enb_id l);
     FU32 HO_PDCP_SN_UL 42; FU32 HO_PDCP_SN_DL 37].

Definition handleMmeStatusXfer (payload : bytes) : M (EnbNode * W) unit :=
  l ← parse_payload xfer_cases payload noEids;
  cap_down (str "S1AP-MMEStatusTransfer") (buildMMEStatusTransfer (e_mme_id l) (e_enb_id l));;
  cap_up (str "S1AP-HandoverNotify") (buildHandoverNotify (e_mme_id l) (e_enb_id l));;
  seq ← enb_seq;
  n ← get_state;
  send mme_conn_ (frame (message S1AP_HANDOVER_NOTIFY seq
    [FU32 MME_UE_S1AP_ID (e_mme_id l); FU32 ENB_UE_S1AP_ID (e_enb_id l);
     FU32 HO_ENB_TEID_NEW (u32 (next_enb_teid_ n - 1))]));;
  mret tt.

Definition handleUeCtxRelCmd (payload : bytes) : M (EnbNode * W) unit :=
  l ← parse_payload enb_ids_cases payload noEids;
  cap_down (str "S1AP-UEContextReleaseCmd")
    (buildUEContextReleaseCommand (e_mme_id l) (e_enb_id l));;
  cap_up (str "S1AP-UEContextReleaseCmpl")
    (buildUEContextReleaseComplete (e_mme_id l) (e_enb_id l));;
  to_mme S1AP_UE_CONTEXT_RELEASE_CMPL
    [FU32 MME_UE_S1AP_ID (e_mme_id l); FU32 ENB_UE_S1AP_ID (e_enb_id l)].

(** One turn of [receiveLoop] on a payload. *)
Definition enb_receive (payload : bytes) : M (EnbNode * W) unit :=
  if (length payload <? 8)%nat then mret tt else
  match type_of_code (msgType (newReader payload)) with
  | Some S1AP_DL_NAS_TRANSPORT => handleDLNas payload
  | Some S1AP_INITIAL_CONTEXT_SETUP_REQ => handleICSR payload
  | Some S1AP_TAU_ACCEPT => handleTauAccept payload
  | Some S1AP_HANDOVER_REQUEST => handleHoRequest payload
  | Some S1AP_HANDOVER_COMMAND => handleHoCommand payload
  | Some S1AP_MME_STATUS_TRANSFER => handleMmeStatusXfer payload
  | Some S1AP_UE_CONTEXT_RELEASE_CMD => handleUeCtxRelCmd payload
  | _ => mret tt
  end.

(** ** Commands *)

(** The attach request of a UE, as the eNB writes it. *)
Definition attach_request_fields (ue_index : Z) : list field :=
  [FU32 ENB_UE_S1AP_ID ue_index; FU8 RRC_CAUSE 3; FU16 TAI_MCC 404; FU16 TAI_MNC 10;
   FU16 TAI_TAC 1; FU32 EUTRAN_CGI 1; FU8 NAS_PROTO_DISC 0x07; FU8 NAS_SEC_HDR 0x00;
   FU8 NAS_MSG_TYPE 0x41; FU8 NAS_ATTACH_TYPE 1; FU8 NAS_KSI 7; FU8 NAS_ID_TYPE 1;
   FU64 NAS_IMSI (u64 (BASE_IMSI + ue_index)); FU8 NAS_UE_CAP 0xE0].

Definition sendInitialUEMessage (ue_index : Z) : M (EnbNode * W) unit :=
  n ← get_state;
  if negb (mme_valid n) then mret tt else
  to_mme S1AP_INITIAL_UE_MSG (attach_request_fields ue_index);;
  cap_up (str "S1AP-InitialUEMsg(AttachReq)")
    (buildInitialUEMessage ue_index (u64 (BASE_IMSI + ue_index))).

Definition sendTauRequest (mme_id enb_id imsi : Z) : M (EnbNode * W) unit :=
  n ← get_state;
  if negb (mme_valid n) then mret tt else
  cap_up (str "NAS-TauReq(UL)") (buildUlNasTransport mme_id enb_id (buildTauRequest imsi));;
  to_mme S1AP_TAU_REQUEST
    [FU32 MME_UE_S1AP_ID mme_id; FU32 ENB_UE_S1AP_ID enb_id; FU64 TAU_IMSI imsi;
     FU8 TAU_UPDATE_TYPE 0x00].

Definition sendHandoverRequired (mme_id enb_id : Z) : M (EnbNode * W) unit :=
  n ← get_state;
  if negb (mme_valid n) then mret tt else
  cap_up (str "S1AP-HandoverRequired") (buildHandoverRequired mme_id enb_id);;
  to_mme S1AP_HANDOVER_REQUIRED
    [FU32 MME_UE_S1AP_ID mme_id; FU32 ENB_UE_S1AP_ID enb_id; FU64 TAU_IMSI (u64 (BASE_IMSI + mme_id));
     FU8 HO_TYPE 0; FU8 HO_CAUSE 0].

(** [next_enb_ue_id_++]. *)
Definition enb_ue_id : M (EnbNode * W) Z :=
  n ← get_state;
  modify (fun s => mkEnb (next_enb_teid_ s) (u32 (next_enb_ue_id_ s + 1)) (enb_next_seq_ s)
                     (mme_valid s) (cmd_queue_ s));;
  mret (next_enb_ue_id_ n).

(** [for (i = 0; i < n && !stop_.load(); ++i) sendInitialUEMessage(...)]. *)
Fixpoint attach_loop (n : nat) : M (EnbNode * W) unit :=
  match n with
  | O => mret tt
  | S n' =>
      stop ← stop_load;
      if stop : bool then mret tt else
      id ← enb_ue_id; sendInitialUEMessage id;; attach_loop n'
  end.

(** The number a command gives after position [k], [1] when it gives none. *)
Definition cmd_arg (k : nat) (cmd : bytes) : Z :=
  if (k <? length cmd)%nat then match stoi (drop k cmd) with Some n => n | None => 1 end else 1.

Definition processCommand (cmd : bytes) : M (EnbNode * W) unit :=
  if bool_decide (take 2 cmd = str "CR") then attach_loop (Z.to_nat (cmd_arg 3 cmd))
  else if bool_decide (take 3 cmd = str "TAU") then
    let ue_id := u32 (cmd_arg 4 cmd) in
    sendTauRequest ue_id ue_id (u64 (BASE_IMSI + ue_id))
  else if bool_decide (take 2 cmd = str "HO") then
    let ue_id := u32 (cmd_arg 3 cmd) in sendHandoverRequired ue_id ue_id
  else mret tt.

Definition submitCommand (cmd : bytes) : M (EnbNode * W) unit :=
  modify (fun s => mkEnb (next_enb_teid_ s) (next_enb_ue_id_ s) (enb_next_seq_ s) (mme_valid s)
                     (cmd_queue_ s ++ [cmd])).

(** One turn of [commandLoop]: the first command of the queue, when there is
    one, is taken and processed. *)
Definition commandLoop_turn : M (EnbNode * W) unit :=
  n ← get_state;
  match cmd_queue_ n with
  | [] => mret tt
  | cmd :: rest =>
      modify (fun s => mkEnb (next_enb_teid_ s) (next_enb_ue_id_ s) (enb_next_seq_ s) (mme_valid s) rest);;
      processCommand cmd
  end.

End Enb.
