(* ===== verification/Epc.v ===== *)
(** * The core network, closed

    The nodes of the 4G core wired to each other: the P-GW's world holds the
    PCRF, the S-GW's world holds the P-GW, the MME's world holds the S-GW and
    the HSS, and the eNB faces the MME.  A request sent into a world runs the
    server's receive turn, and the client's receive takes the answer.  The
    instances of the peer classes are what each node promises its client. *)

From S2P Require Import Prelude Tlv Framing Text NodeEnv UeStore Metrics Hss Pcrf Pgw Sgw Mme Enb.
#[local] Open Scope Z_scope.

(** ** Frames across a connection *)

(** A stream that gives all it is asked for. *)
Definition list_recv (s : bytes) (r : nat) : option (bytes * bytes) :=
  match take r s with [] => None | b => Some (b, drop r s) end.

(** What [recvFrame] gives for a frame alone on its connection. *)
Definition unframe (f : bytes) : bytes :=
  match recvFrame list_recv f with Some (p, _) => p | None => [] end.

Lemma list_recv_some (s : bytes) (r : nat) (b s' : bytes) :
  list_recv s r = Some (b, s') -> (1 <= length b <= r)%nat /\ s = b ++ s'.
Proof.
  unfold list_recv. destruct (take r s) as [|x l] eqn:E; [discriminate|].
  intros [= <- <-]. rewrite <- E, take_drop. split; [|reflexivity].
  rewrite length_take. apply (f_equal length) in E. rewrite length_take in E. cbn in E. lia.
Qed.

Lemma list_recv_none (s : bytes) (r : nat) : list_recv s r = None -> (0 < r)%nat -> s = [].
Proof.
  unfold list_recv. destruct (take r s) eqn:E; [|discriminate]. intros _ Hr.
  apply (f_equal length) in E. rewrite length_take in E. apply length_zero_iff_nil. cbn in E. lia.
Qed.

Lemma unframe_frame (type : MessageType) (seq : Z) (fs : list field) :
  Forall wf_field fs -> Z.of_nat (length (enc_message type seq fs)) <= 65536 ->
  unframe (frame (message type seq fs)) = enc_message type seq fs.
Proof.
  intros Hwf Hl. unfold unframe. rewrite message_frame by first [exact Hwf|lia].
  destruct (recvFrame_at list_recv (fun s => s) list_recv_some list_recv_none
              (le32 (Z.of_nat (length (enc_message type seq fs))) ++ enc_message type seq fs)
              (enc_message type seq fs) []) as (s' & -> & _); [rewrite app_nil_r; reflexivity| | |].
  - pose proof (enc_message_long type seq fs) as H. apply Nat.ltb_ge in H. lia.
  - exact Hl.
  - reflexivity.
Qed.

(** The size of a message from the sizes of its fields. *)
Definition field_size (f : field) : nat :=
  match f with FU8 _ _ => 5 | FU16 _ _ => 6 | FU32 _ _ => 8 | FU64 _ _ => 12
             | FBytes _ b => 4 + length b end.

Lemma enc_fields_size (fs : list field) :
  length (enc_fields fs) = sum_list_with field_size fs.
Proof.
  unfold enc_fields. induction fs as [|f fs IH]; [reflexivity|].
  cbn [map concat sum_list_with]. rewrite length_app, IH. destruct f; reflexivity.
Qed.

Lemma enc_message_size (type : MessageType) (seq : Z) (fs : list field) :
  length (enc_message type seq fs) = (8 + sum_list_with field_size fs)%nat.
Proof. unfold enc_message. rewrite !length_app, enc_fields_size. reflexivity. Qed.

(** ** The P-GW's world: the PCRF *)

Record PgwWorld : Type := mkPgwW {
  g_pcrf : PcrfNode;
  g_in : list bytes;   (** payloads on their way to [pcrf_conn_] *)
  g_out : list bytes   (** datagrams sent on [s5_socket_] *)
}.

#[export] Instance PgwWorld_Env : Env PgwWorld := {
  env_send c b w :=
    if decide (c = pcrf_conn_) then
      let '(n, fs) := serve pcrf_receive (g_pcrf w) (unframe b) in
      (true, mkPgwW n (g_in w ++ map unframe fs) (g_out w))
    else (true, mkPgwW (g_pcrf w) (g_in w) (g_out w ++ [b]));
  env_recv c _ w :=
    match g_in w with
    | [] => (None, w)
    | p :: l => (Some p, mkPgwW (g_pcrf w) l (g_out w))
    end;
  env_pcap _ w := w;
  env_now w := (0, w);
  env_rand w := (0, w);
  env_chaos _ := false;
  env_stop w := (false, w);
  env_blocked w := ([], false, w)
}.

Definition I_pgw (w : PgwWorld) : Prop :=
  in_u 32 (pcrf_next_seq_ (g_pcrf w)) /\ g_in w = [] /\ g_out w = [].

(** ** The S-GW's world: the P-GW *)

Record SgwWorld : Type := mkSgwW {
  s_pgw : PgwNode;
  s_pgww : PgwWorld;   (** with the datagrams for [s5_socket_] in [g_out] *)
  s_out : list bytes   (** datagrams sent on [s11_socket_] *)
}.

#[export] Instance SgwWorld_Env : Env SgwWorld := {
  env_send c b w :=
    if decide (c = s5_socket_) then
      match pgw_receive b (s_pgw w, s_pgww w) with
      | Ok (_, (n, pw)) => (true, mkSgwW n pw (s_out w))
      | _ => (true, w)
      end
    else (true, mkSgwW (s_pgw w) (s_pgww w) (s_out w ++ [b]));
  env_recv c _ w :=
    match g_out (s_pgww w) with
    | [] => (None, w)
    | p :: l => (Some p, mkSgwW (s_pgw w) (mkPgwW (g_pcrf (s_pgww w)) (g_in (s_pgww w)) l) (s_out w))
    end;
  env_pcap _ w := w;
  env_now w := (0, w);
  env_rand w := (0, w);
  env_chaos _ := false;
  env_stop w := (false, w);
  env_blocked w := ([], false, w)
}.

Definition I_sgw (w : SgwWorld) : Prop :=
  wf_pgw (s_pgw w) /\ I_pgw (s_pgww w) /\ s_out w = [].

(** ** The MME's world: the S-GW, the HSS and the link to the eNB *)

Record CoreWorld : Type := mkCore {
  c_sgw : SgwNode;
  c_sgww : SgwWorld;      (** with the datagrams for [sgw_udp_] in [s_out] *)
  c_hss : HssNode;
  c_hss_in : list bytes;  (** payloads on their way to [hss_conn_] *)
  c_enb : list bytes;     (** frames sent on [enb_conn_] *)
  c_clock : Z
}.

#[export] Instance CoreWorld_Env : Env CoreWorld := {
  env_send c b w :=
    if decide (c = sgw_udp_) then
      match sgw_receive b (c_sgw w, c_sgww w) with
      | Ok (_, (n, sw)) => (true, mkCore n sw (c_hss w) (c_hss_in w) (c_enb w) (c_clock w))
      | _ => (true, w)
      end
    else if decide (c = hss_conn_) then
      let '(n, fs) := serve hss_receive (c_hss w) (unframe b) in
      (true, mkCore (c_sgw w) (c_sgww w) n (c_hss_in w ++ map unframe fs) (c_enb w) (c_clock w))
    else (true, mkCore (c_sgw w) (c_sgww w) (c_hss w) (c_hss_in w) (c_enb w ++ [b]) (c_clock w));
  env_recv c _ w :=
    match s_out (c_sgww w) with
    | [] => (None, w)
    | p :: l =>
        (Some p, mkCore (c_sgw w) (mkSgwW (s_pgw (c_sgww w)) (s_pgww (c_sgww w)) l)
                   (c_hss w) (c_hss_in w) (c_enb w) (c_clock w))
    end;
  env_pcap _ w := w;
  env_now w := (c_clock w, mkCore (c_sgw w) (c_sgww w) (c_hss w) (c_hss_in w) (c_enb w) (c_clock w + 1));
  env_rand w := (0, w);
  env_chaos _ := false;
  env_stop w := (false, w);
  env_blocked w :=
    (c_hss_in w, false, mkCore (c_sgw w) (c_sgww w) (c_hss w) [] (c_enb w) (c_clock w))
}.

Definition I_core (w : CoreWorld) : Prop :=
  wf_sgw (c_sgw w) /\ I_sgw (c_sgww w) /\ in_u 32 (hss_next_seq_ (c_hss w)) /\ c_hss_in w = [].

(** The address the next session of the core gets. *)
Definition core_pool (w : CoreWorld) : Z := next_ip_ (s_pgw (c_sgww w)).

Definition newCore : CoreWorld :=
  mkCore newSgw (mkSgwW newPgw (mkPgwW newPcrf [] []) []) newHss [] [] 0.

(** ** The promises kept *)

#[local] Opaque enc_message.

(** A message shorter than a frame's limit. *)
Ltac msg_size := rewrite enc_message_size; cbn [sum_list_with field_size]; lia.

(** The PCRF, asked through a world with nothing in flight. *)
#[export] Instance PgwWorld_GxPeer : GxPeer PgwWorld I_pgw.
Proof.
  split; [|auto].
  intros w seq imsi qci apn (Hsq & Hin & Hout) Hs Hi Hq Ha.
  set (p := policy_of apn). exists (pcrf_next_seq_ (g_pcrf w)), (cca_fields imsi p).
  pose proof (cca_fields_wf imsi apn Hi) as Hwf. fold p in Hwf.
  eexists _, _. split; [|split; [exact Hsq|split; [exact Hwf|split; [reflexivity|]]]].
  - cbn [env_send PgwWorld_Env]. rewrite decide_True by reflexivity.
    unfold ccr_fields. rewrite unframe_frame; [|wf_fields; lia|msg_size].
    unfold serve. rewrite pcrf_receive_ccr by (assumption || lia).
    cbn [env_pcap env_send Outbox_Env snd sent app map].
    rewrite unframe_frame; [|exact Hwf|].
    + cbn [snd env_recv PgwWorld_Env g_in]. rewrite Hin. reflexivity.
    + unfold cca_fields. rewrite enc_message_size. cbn [sum_list_with field_size]. unfold p, policy_of.
      destruct (Subscriber.profile_of_range (apn_or_internet apn)) as (_ & _ & _ & H4 & H5). lia.
  - split; [apply u32_range|]. split; [reflexivity|exact Hout].
Qed.

Definition sgw_pool (w : SgwWorld) : Z := next_ip_ (s_pgw w).

(** The P-GW, asked through a world with nothing in flight. *)
#[export] Instance SgwWorld_S5Peer : S5Peer SgwWorld I_sgw sgw_pool.
Proof.
  split; [|auto].
  intros w seq imsi ebi qci s11 ul dl apn (Hwf & HI & Hout) Hs Hi He Hq H11 Hul Hdl Ha.
  destruct (pgw_serves_create I_pgw (s_pgw w) (s_pgww w) seq imsi ebi qci s11 ul dl apn
              HI Hwf Hs Hi He Hq H11 Hul Hdl Ha) as (w1 & HI1 & Hrun).
  exists (u32 (pgw_next_seq_ (s_pgw w) + 1)),
    (pgw_rsp_fields (pgw_next_teid_ (s_pgw w)) (next_ip_ (s_pgw w)) ebi).
  assert (Hwf2 : Forall wf_field (pgw_rsp_fields (pgw_next_teid_ (s_pgw w)) (next_ip_ (s_pgw w)) ebi)).
  { unfold pgw_rsp_fields. destruct Hwf as (_ & Ht & _ & _). wf_fields. }
  eexists. split; [|split; [apply u32_range|split; [exact Hwf2|split; [reflexivity|]]]].
  - cbn [env_send SgwWorld_Env]. rewrite decide_True by reflexivity.
    rewrite message_udp by (unfold s5_fields; wf_fields; lia). rewrite Hrun.
    cbn [env_pcap env_send PgwWorld_Env snd]. rewrite decide_False by discriminate.
    destruct HI1 as (H1 & H2 & H3).
    cbn [snd env_recv SgwWorld_Env s_pgww g_out g_in g_pcrf]. rewrite H3, message_udp by exact Hwf2.
    cbn [app]. reflexivity.
  - destruct HI1 as (H1 & H2 & H3). split; [|reflexivity].
    split; [exact (after_create_wf _ Hwf)|]. split; [|exact Hout].
    split; [exact H1|]. split; [exact H2|reflexivity].
Qed.

(** The S-GW and the HSS, asked through a world with nothing in flight. *)
#[export] Instance CoreWorld_MmePeers :
  MmePeers CoreWorld I_core c_enb generateAuthVectors core_pool.
Proof.
  split.
  - intros w seq imsi plmn c (Hsg & HI & Hh & Hin) Hs Hi Hp.
    pose proof (aia_fields_wf imsi Hi) as Hwf. destruct (generate_lengths imsi) as (L1 & L2 & L3 & L4).
    exists (hss_next_seq_ (c_hss w)). eexists. split; [|split; [exact Hh|]].
    + cbn [env_send CoreWorld_Env]. rewrite decide_False by discriminate. rewrite decide_True by reflexivity.
      rewrite unframe_frame; [|wf_fields|msg_size].
      unfold serve. rewrite hss_receive_air by assumption.
      cbn [env_pcap env_send Outbox_Env snd sent app map].
      rewrite unframe_frame; [|exact Hwf|].
      * cbn [snd env_pcap env_blocked CoreWorld_Env c_hss_in]. rewrite Hin. reflexivity.
      * rewrite enc_message_size. unfold aia_fields. cbn [sum_list_with field_size]. lia.
    + split; [|split; reflexivity]. split; [exact Hsg|]. split; [exact HI|].
      split; [apply u32_range|reflexivity].
  - exact generate_lengths.
  - intros w seq imsi (Hsg & HI & Hh & Hin) Hs Hi.
    destruct (sgw_serves_create I_sgw sgw_pool (c_sgw w) (c_sgww w) seq imsi HI Hsg Hs Hi)
      as (w1 & HI1 & Hpool & Hrun).
    set (s11 := sgw_next_teid_ (c_sgw w)).
    exists (u32 (sgw_next_seq_ (c_sgw w) + 1)), s11, (u32 (s11 + 1)).
    assert (Hwf2 : Forall wf_field (sgw_rsp_fields s11 (u32 (s11 + 1)) imsi (be32 (core_pool w)))).
    { unfold sgw_rsp_fields. destruct Hsg. wf_fields. }
    eexists. split; [|split; [apply u32_range|split; [apply Hsg|split; [apply u32_range|]]]].
    + cbn [env_send CoreWorld_Env]. rewrite decide_True by reflexivity.
      rewrite message_udp by (unfold s11_fields; wf_fields). rewrite Hrun.
      cbn [env_send SgwWorld_Env snd]. rewrite decide_False by discriminate.
      destruct HI1 as (H1 & H2 & H3).
      cbn [snd env_recv CoreWorld_Env c_sgww s_out s_pgww s_pgw]. rewrite H3.
      fold s11. fold (core_pool w). rewrite message_udp by exact Hwf2. cbn [app]. reflexivity.
    + destruct HI1 as (H1 & H2 & H3). split; [|split; [reflexivity|exact Hpool]].
      split; [split; apply u32_range|]. split; [|auto]. split; [exact H1|]. split; [exact H2|reflexivity].
  - intros w seq teid imsi (Hsg & HI & Hh & Hin) Hs Ht Hi.
    eexists _, _. split; [|split].
    + cbn [env_send CoreWorld_Env]. rewrite decide_True by reflexivity.
      rewrite message_udp by (unfold modify_fields; wf_fields).
      rewrite sgw_serves_modify by assumption.
      cbn [env_pcap env_send SgwWorld_Env snd]. rewrite decide_False by discriminate.
      destruct HI as (H1 & H2 & H3).
      cbn [snd env_recv CoreWorld_Env c_sgww s_out s_pgww s_pgw]. rewrite H3. cbn [app]. reflexivity.
    + destruct HI as (H1 & H2 & H3). split; [split; [apply Hsg|apply u32_range]|].
      split; [|auto]. split; [exact H1|]. split; [exact H2|reflexivity].
    + split; reflexivity.
  - auto.
  - intros w f HI. cbn [env_send CoreWorld_Env]. rewrite !decide_False by discriminate.
    cbn [snd]. split; [exact HI|split; reflexivity].
  - intros w HI. cbn. split; [exact HI|split; reflexivity].
  - reflexivity.
Qed.

(** ** The eNB's turns *)

Definition enb_after (s : EnbNode) (teids seqs : nat) : EnbNode :=
  mkEnb (Nat.iter teids (fun t => u32 (t + 1)) (next_enb_teid_ s)) (next_enb_ue_id_ s)
    (Nat.iter seqs (fun t => u32 (t + 1)) (enb_next_seq_ s)) (mme_valid s) (cmd_queue_ s).

Lemma enb_answers_challenge (s : EnbNode) (seq id eid : Z) (av : AuthVectors) :
  in_u 32 seq -> in_u 32 id -> in_u 32 eid ->
  length (av_rand av) = 16%nat -> length (av_autn av) = 16%nat ->
  enb_receive (enc_message S1AP_DL_NAS_TRANSPORT seq (auth_req_fields id eid av)) (s, mkOut []) =
  Ok (tt, (enb_after s 0 1,
           mkOut [frame (message S1AP_UL_NAS_TRANSPORT (enb_next_seq_ s)
                     (nas_fields id eid 0x53 ++ [FBytes NAS_RES (ue_res (av_rand av))]))])).
Proof.
  intros Hs Hid He Hr Ha. unfold enb_receive. rewrite enc_message_long, msgType_enc by exact Hs.
  rewrite type_of_code_type_code. unfold handleDLNas, auth_req_fields. run_m.
  rewrite (parse_payload_enc dl_nas_cases _ _ _ _ (mkDl id eid 0x52 (av_rand av) (av_autn av)) _ _ Hs);
    [|wf_fields; lia|reflexivity].
  cbn [dl_mme_id dl_enb_id dl_nas_type dl_rand dl_autn Z.eqb Pos.eqb]. rewrite Hr, Ha.
  cbn [Nat.leb andb]. unfold cap_down, cap_up, to_mme, enb_seq. run_m. reflexivity.
Qed.

Lemma enb_answers_security_mode (s : EnbNode) (seq id eid : Z) :
  in_u 32 seq -> in_u 32 id -> in_u 32 eid ->
  enb_receive (enc_message S1AP_DL_NAS_TRANSPORT seq (nas_fields id eid 0x5D)) (s, mkOut []) =
  Ok (tt, (enb_after s 0 1,
           mkOut [frame (message S1AP_UL_NAS_TRANSPORT (enb_next_seq_ s) (nas_fields id eid 0x5E))])).
Proof.
  intros Hs Hid He. unfold enb_receive. rewrite enc_message_long, msgType_enc by exact Hs.
  rewrite type_of_code_type_code. unfold handleDLNas, nas_fields. run_m. parse_msg.
  cbn [dl_mme_id dl_enb_id dl_nas_type dl_rand dl_autn Z.eqb Pos.eqb andb].
  unfold cap_down, cap_up, to_mme, enb_seq. run_m. reflexivity.
Qed.

Lemma enb_answers_setup (s : EnbNode) (seq id eid s1u : Z) (ip : bytes) :
  in_u 32 seq -> in_u 32 id -> in_u 32 eid -> in_u 32 s1u -> length ip = 4%nat ->
  enb_receive (enc_message S1AP_INITIAL_CONTEXT_SETUP_REQ seq (setup_fields id eid s1u ip))
    (s, mkOut []) =
  Ok (tt, (enb_after s 1 2,
           mkOut [frame (message S1AP_INITIAL_CONTEXT_SETUP_RSP (enb_next_seq_ s)
                     [FU32 MME_UE_S1AP_ID id; FU32 ENB_UE_S1AP_ID eid;
                      FU32 ICSR_ENB_TEID (next_enb_teid_ s)]);
                  frame (message S1AP_UL_NAS_TRANSPORT (u32 (enb_next_seq_ s + 1))
                     (nas_fields id eid 0x46))])).
Proof.
  intros Hs Hid He H1 Hl. unfold enb_receive. rewrite enc_message_long, msgType_enc by exact Hs.
  rewrite type_of_code_type_code. unfold handleICSR, setup_fields. run_m.
  rewrite (parse_payload_enc icsr_cases _ _ _ _ (mkIcsr id eid s1u ip 0x42) _ _ Hs);
    [|wf_fields; lia|reflexivity].
  cbn [ic_mme_id ic_enb_id ic_sgw_teid ic_ue_ip ic_nas_type].
  unfold cap_down, cap_up, to_mme, enb_seq, enb_teid. run_m. reflexivity.
Qed.

(** ** The whole system *)

Record Epc : Type := mkEpc {
  p_enb : EnbNode;
  p_up : list bytes;      (** frames in flight from the eNB to the MME *)
  p_mme : MmeNode;
  p_core : CoreWorld      (** with the frames in flight to the eNB in [c_enb] *)
}.

Definition newEpc (m : option Metrics) : Epc := mkEpc newEnb [] (newMme m) newCore.

Definition set_enb_queue (w : CoreWorld) (q : list bytes) : CoreWorld :=
  mkCore (c_sgw w) (c_sgww w) (c_hss w) (c_hss_in w) q (c_clock w).

(** A turn of one of the three threads that move the system: the MME's and
    the eNB's receive loops, and the eNB's command loop. *)
Inductive epc_step : Epc -> Epc -> Prop :=
| step_mme e f up m m' w w' :
    mme_receive (unframe f) (m, w) = Ok (tt, (m', w')) ->
    epc_step (mkEpc e (f :: up) m w) (mkEpc e up m' w')
| step_enb e e' f q up o m w :
    c_enb w = f :: q -> enb_receive (unframe f) (e, mkOut []) = Ok (tt, (e', o)) ->
    epc_step (mkEpc e up m w) (mkEpc e' (up ++ sent o) m (set_enb_queue w q))
| step_cmd e e' cmd up o m w :
    processCommand cmd (e, mkOut []) = Ok (tt, (e', o)) ->
    epc_step (mkEpc e up m w) (mkEpc e' (up ++ sent o) m w).

(** Nothing in flight, every counter in range. *)
Definition idle (x : Epc) : Prop :=
  p_up x = [] /\ c_enb (p_core x) = [] /\ I_core (p_core x) /\ wf_mme (p_mme x)
  /\ in_u 32 (mme_next_seq_ (p_mme x)) /\ in_u 32 (enb_next_seq_ (p_enb x))
  /\ in_u 32 (next_enb_teid_ (p_enb x)) /\ in_u 32 (next_enb_ue_id_ (p_enb x))
  /\ mme_valid (p_enb x) = true.

(** ** The attach, end to end *)

(** The UE computes the response the HSS expects. *)
Lemma ue_res_xres (imsi : Z) :
  ue_res (av_rand (generateAuthVectors imsi)) = av_xres (generateAuthVectors imsi).
Proof. reflexivity. Qed.

#[local] Opaque generateAuthVectors.

Lemma enb_command_cr (s : EnbNode) :
  mme_valid s = true ->
  processCommand (str "CR") (s, mkOut []) =
  Ok (tt, (mkEnb (next_enb_teid_ s) (u32 (next_enb_ue_id_ s + 1)) (u32 (enb_next_seq_ s + 1))
             (mme_valid s) (cmd_queue_ s),
           mkOut [frame (message S1AP_INITIAL_UE_MSG (enb_next_seq_ s)
                     (attach_request_fields (next_enb_ue_id_ s)))])).
Proof.
  intros Hv. unfold processCommand. rewrite bool_decide_true by reflexivity.
  change (Z.to_nat (cmd_arg 3 (str "CR"))) with 1%nat. cbn [attach_loop]. run_m.
  cbn [env_stop Outbox_Env]. run_m. unfold enb_ue_id. run_m.
  unfold sendInitialUEMessage. run_m. cbn [mme_valid]. rewrite Hv. cbn [negb].
  unfold to_mme, enb_seq, cap_up. run_m. reflexivity.
Qed.

Lemma attach_fields_wf (i : Z) : in_u 32 i -> Forall wf_field (attach_request_fields i).
Proof. intros Hi. unfold attach_request_fields. wf_fields. Qed.

(** A message of the MME or of the eNB, delivered. *)
Lemma deliver_up (type : MessageType) (seq : Z) (fs : list field) e up m w m' w' :
  Forall wf_field fs -> Z.of_nat (length (enc_message type seq fs)) <= 65536 ->
  mme_receive (enc_message type seq fs) (m, w) = Ok (tt, (m', w')) ->
  rtc epc_step (mkEpc e (frame (message type seq fs) :: up) m w) (mkEpc e up m' w').
Proof.
  intros Hwf Hl E. apply rtc_once, step_mme. rewrite unframe_frame by assumption. exact E.
Qed.

Lemma deliver_down (type : MessageType) (seq : Z) (fs : list field) e up m w e' o q up' :
  up' = up ++ o -> Forall wf_field fs -> Z.of_nat (length (enc_message type seq fs)) <= 65536 ->
  c_enb w = frame (message type seq fs) :: q ->
  enb_receive (enc_message type seq fs) (e, mkOut []) = Ok (tt, (e', mkOut o)) ->
  rtc epc_step (mkEpc e up m w) (mkEpc e' up' m (set_enb_queue w q)).
Proof.
  intros -> Hwf Hl Hq E. apply rtc_once. apply (step_enb _ _ (frame (message type seq fs)) _ _ (mkOut o));
    [exact Hq|]. rewrite unframe_frame by assumption. exact E.
Qed.

(** The messages of the attach are well formed and fit in a frame. *)
Ltac msg_ok :=
  cbv [attach_request_fields auth_req_fields nas_fields setup_fields app];
  first [rewrite enc_message_size; cbn [sum_list_with field_size length]; lia | wf_fields; lia].

(** First part: the request, the vectors, the challenge and its answer. *)
Lemma attach_challenged (e : EnbNode) (m : MmeNode) (w : CoreWorld) :
  idle (mkEpc e [] m w) ->
  let ue := next_enb_ue_id_ e in
  let i := u64 (BASE_IMSI + ue) in
  let id := next_id_ (ue_store_ m) in
  exists t m' w',
    rtc epc_step
      (mkEpc (mkEnb (next_enb_teid_ e) (u32 (ue + 1)) (u32 (enb_next_seq_ e + 1)) true (cmd_queue_ e))
         [frame (message S1AP_INITIAL_UE_MSG (enb_next_seq_ e) (attach_request_fields ue))] m w)
      (mkEpc (mkEnb (next_enb_teid_ e) (u32 (ue + 1)) (u32 (u32 (enb_next_seq_ e + 1) + 1)) true (cmd_queue_ e))
         [frame (message S1AP_UL_NAS_TRANSPORT (u32 (enb_next_seq_ e + 1))
             (nas_fields id ue 0x53 ++ [FBytes NAS_RES (av_xres (generateAuthVectors i))]))] m' w')
    /\ I_core w' /\ c_enb w' = [] /\ core_pool w' = core_pool w
    /\ heap m' = heap m ++ [attaching_ue id ue i t (generateAuthVectors i)]
    /\ ue_store_ m' = (insert_ctx (ue_store_ m) [] (length (heap m))).1.2
    /\ in_u 32 (mme_next_seq_ m') /\ metrics_ m' = metrics_ m.
Proof.
  intros (_ & Hq & HI & Hwf & Hms & Hes & Het & Heu & Hv) ue i id.
  cbn [p_up p_core p_mme p_enb] in *.
  destruct (mme_serves_attach_request (vectors := generateAuthVectors) (pool := core_pool)
              m w (enb_next_seq_ e) ue i HI Hwf Hms (proj1 (proj2 (proj1 Hwf))) Hes Heu (u64_range _))
    as (t & m' & w' & Hrun & HI' & Hp & Ho & Hh & Hst & _ & Hsq & Hm).
  rewrite Hq in Ho. cbn [app] in Ho. fold id in Ho, Hh.
  destruct (generate_lengths i) as (L1 & L2 & L3 & _).
  exists t, m', (set_enb_queue w' []). split; [|repeat split; try assumption; try apply HI';
    rewrite Hsq; apply u32_range].
  pose proof (proj1 (proj2 (proj1 Hwf))) as Hid.
  etransitivity; [apply deliver_up; [apply attach_fields_wf; exact Heu|msg_ok|exact Hrun]|].
  eapply deliver_down with (o := [_]); [reflexivity| | |exact Ho|]; [msg_ok|msg_ok|].
  rewrite enb_answers_challenge, ue_res_xres by first [apply u32_range|assumption]. reflexivity.
Qed.

(** What the attach leaves of the subscriber. *)
Definition registered_ue (id eid imsi t s11 s1u teid : Z) (ip : bytes) : UeContext :=
  mkUe imsi id eid REGISTERED (generateAuthVectors imsi) [session_bearer s11 s1u teid ip]
    404 10 1 t (str "internet").

Definition recorded (l : Z) (m : option Metrics) : option Metrics :=
  match m with Some m => Some (recordAttach l m).1 | None => None end.

(** Second part: the response accepted, and the session set up. *)
Lemma attach_session (e : EnbNode) (m : MmeNode) (w : CoreWorld) (seq id eid : Z) (p : Ptr) (c : UeContext) :
  I_core w -> c_enb w = [] -> in_u 32 (mme_next_seq_ m) -> in_u 32 seq -> in_u 32 id -> in_u 32 eid ->
  find (ue_store_ m) id = Some p -> heap m !! p = Some c -> bearers c = [] ->
  in_u 64 (imsi c) -> length (av_xres (auth c)) = 8%nat -> enb_ue_s1ap_id c = eid ->
  in_u 32 (enb_next_seq_ e) -> in_u 32 (next_enb_teid_ e) ->
  exists s11 s1u m' w',
    in_u 32 s11 /\ in_u 32 s1u
    /\ rtc epc_step
      (mkEpc e [frame (message S1AP_UL_NAS_TRANSPORT seq
             (nas_fields id eid 0x53 ++ [FBytes NAS_RES (av_xres (auth c))]))] m w)
      (mkEpc (enb_after e 1 3)
         [frame (message S1AP_UL_NAS_TRANSPORT (enb_next_seq_ e) (nas_fields id eid 0x5E));
          frame (message S1AP_INITIAL_CONTEXT_SETUP_RSP (u32 (enb_next_seq_ e + 1))
                     [FU32 MME_UE_S1AP_ID id; FU32 ENB_UE_S1AP_ID eid;
                      FU32 ICSR_ENB_TEID (next_enb_teid_ e)]);
          frame (message S1AP_UL_NAS_TRANSPORT (u32 (u32 (enb_next_seq_ e + 1) + 1))
                     (nas_fields id eid 0x46))] m' w')
    /\ I_core w' /\ c_enb w' = [] /\ core_pool w' = u32 (core_pool w + 1)
    /\ m' = with_heap m (alter (fun c => push_bearer (session_bearer s11 s1u 0 (be32 (core_pool w)))
                                      (set_state SESSION_PENDING c)) p (heap m))
              (u32 (u32 (u32 (mme_next_seq_ m + 1) + 1) + 1)).
Proof.
  intros HI Hq Hms Hs Hid He Hf Hc Hb Hi Hx Heid Hes Het.
  destruct (mme_serves_auth_response (vectors := generateAuthVectors) (pool := core_pool)
              m w seq id eid p c HI Hms Hs Hid He Hf Hc Hb Hi Hx)
    as (s11 & s1u & w' & H11 & H1u & Hrun & HI' & Hp & Ho).
  rewrite Hq, Heid in Ho. cbn [app] in Ho. pose proof (be32_length (core_pool w)) as Hip.
  eexists s11, s1u, _, (set_enb_queue w' []). do 2 (split; [assumption|]).
  split; [|split; [exact HI'|]; split; [reflexivity|]; split; [exact Hp|reflexivity]].
  etransitivity; [apply deliver_up; [msg_ok|msg_ok|exact Hrun]|].
  etransitivity; [eapply deliver_down with (o := [_]); [reflexivity| | |exact Ho|]; [msg_ok|msg_ok|]|].
  { rewrite enb_answers_security_mode by first [apply u32_range|assumption]. reflexivity. }
  eapply (deliver_down _ _ _ _ _ _ (set_enb_queue w' _)) with (o := [_; _]);
    [reflexivity| | |reflexivity|]; [msg_ok|msg_ok|].
  rewrite enb_answers_setup by first [apply u32_range|assumption]. reflexivity.
Qed.

(** Third part: the security mode complete, the tunnel endpoint, the end. *)
Lemma attach_finished (e : EnbNode) (m : MmeNode) (w : CoreWorld) (q1 q2 q3 id eid teid : Z)
    (p : Ptr) (c : UeContext) :
  I_core w -> c_enb w = [] -> in_u 32 (mme_next_seq_ m) -> in_u 32 id -> in_u 32 eid ->
  in_u 32 q1 -> in_u 32 q2 -> in_u 32 q3 -> in_u 32 teid ->
  find (ue_store_ m) id = Some p -> heap m !! p = Some c -> in_u 64 (imsi c) ->
  exists t w',
    rtc epc_step
      (mkEpc e
         [frame (message S1AP_UL_NAS_TRANSPORT q1 (nas_fields id eid 0x5E));
          frame (message S1AP_INITIAL_CONTEXT_SETUP_RSP q2
                     [FU32 MME_UE_S1AP_ID id; FU32 ENB_UE_S1AP_ID eid; FU32 ICSR_ENB_TEID teid]);
          frame (message S1AP_UL_NAS_TRANSPORT q3 (nas_fields id eid 0x46))] m w)
      (mkEpc e []
         (mkMme (alter (fun c => set_state REGISTERED (set_default_teid teid c)) p (heap m))
            (ue_store_ m) (pending_auth_ m) (u32 (mme_next_seq_ m + 1))
            (recorded (t - attach_start c) (metrics_ m))) w')
    /\ I_core w' /\ c_enb w' = [] /\ core_pool w' = core_pool w.
Proof.
  intros HI Hq Hms Hid He H1 H2 H3 Ht Hf Hc Hi.
  destruct (mme_serves_security_complete (vectors := generateAuthVectors) (pool := core_pool)
              m w q1 id eid HI H1 Hid He) as (w1 & R1 & HI1 & O1 & P1).
  destruct (mme_serves_setup_response (vectors := generateAuthVectors) (pool := core_pool)
              m w1 q2 id eid teid p c HI1 Hms H2 Hid He Ht Hf Hc Hi) as (w2 & R2 & HI2 & O2 & P2).
  destruct (mme_serves_attach_complete (vectors := generateAuthVectors) (pool := core_pool)
              (with_heap m (alter (set_default_teid teid) p (heap m)) (u32 (mme_next_seq_ m + 1)))
              w2 q3 id eid p (set_default_teid teid c) HI2 H3 Hid He Hf)
    as (t & w3 & R3 & HI3 & O3 & P3).
  { cbn [heap with_heap]. rewrite list_lookup_alter_eq, Hc. reflexivity. }
  replace (attach_start (set_default_teid teid c)) with (attach_start c) in R3
    by (unfold set_default_teid; destruct (default_index _); reflexivity).
  exists t, w3. split; [|split; [exact HI3|split; congruence]].
  etransitivity; [apply deliver_up; [msg_ok|msg_ok|exact R1]|].
  etransitivity; [apply deliver_up; [msg_ok|msg_ok|exact R2]|].
  etransitivity; [apply deliver_up; [msg_ok|msg_ok|exact R3]|].
  unfold with_heap. cbn [heap ue_store_ pending_auth_ mme_next_seq_ metrics_].
  rewrite list_alter_alter_eq. reflexivity.
Qed.

(** The system after the attach of the eNB's next UE. *)
Definition attached (x y : Epc) : Prop :=
  let e := p_enb x in
  let ue := next_enb_ue_id_ e in
  let i := u64 (BASE_IMSI + ue) in
  let id := next_id_ (ue_store_ (p_mme x)) in
  exists t t' s11 s1u,
    heap (p_mme y) = heap (p_mme x) ++
      [registered_ue id ue i t s11 s1u (next_enb_teid_ e) (be32 (core_pool (p_core x)))]
    /\ find (ue_store_ (p_mme y)) id = Some (length (heap (p_mme x)))
    /\ (forall k, k <> id -> find (ue_store_ (p_mme y)) k = find (ue_store_ (p_mme x)) k)
    /\ next_id_ (ue_store_ (p_mme y)) = u32 (id + 1)
    /\ core_pool (p_core y) = u32 (core_pool (p_core x) + 1)
    /\ next_enb_ue_id_ (p_enb y) = u32 (ue + 1)
    /\ next_enb_teid_ (p_enb y) = u32 (next_enb_teid_ e + 1)
    /\ metrics_ (p_mme y) = recorded (t' - t) (metrics_ (p_mme x)).

(** The eNB processes a command. *)
Definition command (cmd : bytes) (x : Epc) : Epc :=
  let '(e, fs) := serve processCommand (p_enb x) cmd in
  mkEpc e (p_up x ++ fs) (p_mme x) (p_core x).

(** The first two parts, from an idle system. *)
Lemma attach_pending (e : EnbNode) (m : MmeNode) (w : CoreWorld) :
  idle (mkEpc e [] m w) ->
  let ue := next_enb_ue_id_ e in
  let i := u64 (BASE_IMSI + ue) in
  let id := next_id_ (ue_store_ m) in
  let e' := enb_after (mkEnb (next_enb_teid_ e) (u32 (ue + 1))
              (u32 (u32 (enb_next_seq_ e + 1) + 1)) true (cmd_queue_ e)) 1 3 in
  exists t s11 s1u q1 q2 q3 m' w',
    in_u 32 s11 /\ in_u 32 s1u /\ in_u 32 q1 /\ in_u 32 q2 /\ in_u 32 q3
    /\ rtc epc_step (command (str "CR") (mkEpc e [] m w))
      (mkEpc e'
         [frame (message S1AP_UL_NAS_TRANSPORT q1 (nas_fields id ue 0x5E));
          frame (message S1AP_INITIAL_CONTEXT_SETUP_RSP q2
                     [FU32 MME_UE_S1AP_ID id; FU32 ENB_UE_S1AP_ID ue;
                      FU32 ICSR_ENB_TEID (next_enb_teid_ e)]);
          frame (message S1AP_UL_NAS_TRANSPORT q3 (nas_fields id ue 0x46))] m' w')
    /\ I_core w' /\ c_enb w' = [] /\ core_pool w' = u32 (core_pool w + 1)
    /\ heap m' = heap m ++
         [push_bearer (session_bearer s11 s1u 0 (be32 (core_pool w)))
            (set_state SESSION_PENDING (attaching_ue id ue i t (generateAuthVectors i)))]
    /\ ue_store_ m' = (insert_ctx (ue_store_ m) [] (length (heap m))).1.2
    /\ in_u 32 (mme_next_seq_ m') /\ metrics_ m' = metrics_ m.
Proof.
  intros Hx ue i id e'. pose proof Hx as (_ & Hq & HI & Hwf & Hms & Hes & Het & Heu & Hv).
  cbn [p_up p_core p_mme p_enb] in Hq, HI, Hwf, Hms, Hes, Het, Heu, Hv.
  pose proof (proj1 (proj2 (proj1 Hwf))) as Hid. fold id in Hid.
  destruct (attach_challenged e m w Hx) as (t & m1 & w1 & R1 & HI1 & O1 & P1 & Hh & Hst & Hs1 & Hm1).
  fold ue i id in R1, Hh. set (c1 := attaching_ue id ue i t _) in *.
  assert (Hf : find (ue_store_ m1) id = Some (length (heap m))).
  { rewrite Hst, (insert_ctx_find _ _ _ _ (proj1 Hwf)), decide_True by reflexivity. reflexivity. }
  assert (Hc : heap m1 !! length (heap m) = Some c1)
    by (rewrite Hh, lookup_app_r, Nat.sub_diag by lia; reflexivity).
  destruct (attach_session (mkEnb (next_enb_teid_ e) (u32 (ue + 1))
              (u32 (u32 (enb_next_seq_ e + 1) + 1)) true (cmd_queue_ e)) m1 w1
              (u32 (enb_next_seq_ e + 1)) id ue _ c1 HI1 O1 Hs1 (u32_range _) Hid Heu
              Hf Hc eq_refl (u64_range _) (proj1 (proj2 (proj2 (generate_lengths i)))) eq_refl
              (u32_range _) Het)
    as (s11 & s1u & m2 & w2 & H11 & H1u & R2 & HI2 & O2 & P2 & ->).
  eexists t, s11, s1u, _, _, _, _, w2. do 2 (split; [assumption|]).
  do 3 (split; [apply u32_range|]). split.
  { unfold command, serve; cbn [p_enb p_up p_mme p_core].
    rewrite enb_command_cr by exact Hv. rewrite Hv. cbn [sent app].
    etransitivity; [exact R1|exact R2]. }
  rewrite P1 in P2. split; [exact HI2|]. split; [exact O2|]. split; [exact P2|].
  cbn [heap with_heap ue_store_ mme_next_seq_ metrics_].
  split; [|split; [exact Hst|split; [apply u32_range|exact Hm1]]].
  rewrite Hh, P1, alter_app_r_alt, Nat.sub_diag by lia. reflexivity.
Qed.

(** Every turn keeps the MME's invariant. *)
Lemma epc_step_wf (x y : Epc) : epc_step x y -> wf_mme (p_mme x) -> wf_mme (p_mme y).
Proof.
  intros [] Hwf; [|exact Hwf..]. exact (mme_receive_wf _ _ _ _ _ _ Hwf H).
Qed.

Lemma epc_steps_wf (x y : Epc) : rtc epc_step x y -> wf_mme (p_mme x) -> wf_mme (p_mme y).
Proof. induction 1; eauto using epc_step_wf. Qed.

Lemma command_mme (cmd : bytes) (x : Epc) :
  p_mme (command cmd x) = p_mme x /\ p_core (command cmd x) = p_core x.
Proof. unfold command. destruct (serve _ _ _). split; reflexivity. Qed.

(** From a command to rest. *)
Lemma attach_run (x : Epc) :
  idle x -> exists y, rtc epc_step (command (str "CR") x) y /\ idle y /\ attached x y.
Proof.
  destruct x as [e up m w]. intros Hx. pose proof Hx as (Hu & _ & _ & Hwf & _ & _ & Het & Heu & _).
  cbn [p_up p_mme p_enb] in *. subst up.
  destruct (attach_pending e m w Hx)
    as (t & s11 & s1u & q1 & q2 & q3 & m2 & w2 & H11 & H1u & Hq1 & Hq2 & Hq3 & R2 & HI2 & O2 & P2 & Hh & Hst & Hs2 & Hm2).
  set (ue := next_enb_ue_id_ e) in *. set (id := next_id_ (ue_store_ m)) in *.
  set (c2 := push_bearer _ _) in Hh.
  assert (Hfind : forall k, find (ue_store_ m2) k =
            if decide (k = id) then Some (length (heap m)) else find (ue_store_ m) k).
  { intros k. rewrite Hst. apply insert_ctx_find, Hwf. }
  assert (Hid : in_u 32 id) by apply Hwf.
  assert (Hc2 : heap m2 !! length (heap m) = Some c2)
    by (rewrite Hh, lookup_app_r, Nat.sub_diag by lia; reflexivity).
  destruct (attach_finished (enb_after (mkEnb (next_enb_teid_ e) (u32 (ue + 1))
              (u32 (u32 (enb_next_seq_ e + 1) + 1)) true (cmd_queue_ e)) 1 3) m2 w2 q1 q2 q3 id ue
              (next_enb_teid_ e) (length (heap m)) c2 HI2 O2 Hs2 Hid Heu Hq1 Hq2 Hq3 Het)
    as (t' & w3 & R3 & HI3 & O3 & P3);
    [rewrite Hfind, decide_True by reflexivity; reflexivity|exact Hc2|apply u64_range|].
  assert (R : rtc epc_step _ _) by (etransitivity; [exact R2|exact R3]). clear R2 R3.
  eexists. split; [exact R|]. apply epc_steps_wf in R;
    [|rewrite (proj1 (command_mme _ _)); exact Hwf]. split.
  - split; [reflexivity|]. split; [exact O3|]. split; [exact HI3|]. split; [exact R|].
    split; [apply u32_range|]. split; [apply u32_range|]. split; [apply u32_range|].
    split; [apply u32_range|reflexivity].
  - exists t, t', s11, s1u. cbn [heap ue_store_ p_mme p_core p_enb metrics_].
    split; [rewrite Hh, alter_app_r_alt, Nat.sub_diag by lia; reflexivity|].
    split; [rewrite Hfind, decide_True by reflexivity; reflexivity|].
    split; [intros k Hk; rewrite Hfind, decide_False by exact Hk; reflexivity|].
    split; [rewrite Hst; reflexivity|]. split; [rewrite P3; exact P2|].
    split; [reflexivity|]. split; [reflexivity|]. rewrite Hm2. reflexivity.
Qed.

(** Successive attaches: command, then the system comes to rest. *)
Definition cr_round (x y : Epc) : Prop := rtc epc_step (command (str "CR") x) y /\ idle y.

Lemma attached_rounds (n : nat) (x : Epc) :
  idle x ->
  exists y cs, nsteps cr_round n x y /\ idle y
    /\ heap (p_mme y) = heap (p_mme x) ++ cs
    /\ core_pool (p_core y) = u32 (core_pool (p_core x) + Z.of_nat n)
    /\ next_enb_ue_id_ (p_enb y) = u32 (next_enb_ue_id_ (p_enb x) + Z.of_nat n)
    /\ Forall2 (fun (k : nat) c => emm_state c = REGISTERED
         /\ imsi c = u64 (BASE_IMSI + u32 (next_enb_ue_id_ (p_enb x) + Z.of_nat k))
         /\ map ue_ip (bearers c) = [ip_text (be32 (u32 (core_pool (p_core x) + Z.of_nat k)))])
         (seq 0 n) cs.
Proof.
  intros Hx. induction n as [|n (y & cs & Hs & Hy & Hh & Hp & Hu & Hf)].
  - exists x, []. pose proof Hx as (_ & _ & (_ & (Hg & _) & _) & _ & _ & _ & _ & Hu & _).
    rewrite !Z.add_0_r, app_nil_r, !u32_small by (exact Hu || apply Hg).
    split; [constructor|]. split; [exact Hx|]. split; [reflexivity|]. split; [reflexivity|].
    split; [reflexivity|constructor].
  - destruct (attach_run y Hy) as (z & Hr & Hz & t & t' & s11 & s1u & Hh' & _ & _ & _ & Hp' & Hu' & _).
    rewrite Hp, Hu in *. eexists z, (cs ++ [_]). split; [eapply nsteps_r; [exact Hs|split; assumption]|].
    split; [exact Hz|]. split; [rewrite Hh', Hh, <- app_assoc; reflexivity|].
    split; [rewrite Hp'; apply u32_succ|]. split; [rewrite Hu'; apply u32_succ|].
    rewrite seq_S. apply Forall2_app; [exact Hf|]. repeat constructor.
Qed.

Lemma ip_text_inj (a b : Z) : in_u 32 a -> in_u 32 b -> ip_text (be32 a) = ip_text (be32 b) -> a = b.
Proof.
  intros Ha Hb. pose proof (be32_inj a b Ha Hb) as Hinj. unfold be32 in *. cbn [ip_text].
  intros E. apply (f_equal scan_ip) in E. rewrite !scan_ip_ip_str in E by apply u8_range.
  apply Hinj. congruence.
Qed.

Lemma idle_newEpc (m : option Metrics) : idle (newEpc m).
Proof.
  unfold idle, I_core, I_sgw, I_pgw, wf_sgw, wf_pgw.
  repeat split; try reflexivity; try (unfold in_u; cbn; lia); apply wf_newMme.
Qed.

(** ** Properties *)

(** C1. A UE attaches.  Whatever happened before, when nothing is in flight and
    the command CR is given to the eNB, the turns of the eNB, the MME, the HSS,
    the S-GW, the P-GW and the PCRF lead to a state with nothing in flight in
    which the MME knows exactly one more subscriber: registered, with the
    identity the eNB gave, the HSS's vectors, and one bearer with the next
    address of the P-GW's pool and the eNB's tunnel endpoint. *)
Theorem attach_end_to_end (x : Epc) (Hx : idle x) :
  exists y, rtc epc_step (command (str "CR") x) y /\ idle y /\ attached x y.
Proof. exact (attach_run x Hx). Qed.

Lemma attach_end_to_end_witness :
  exists y, rtc epc_step (command (str "CR") (newEpc None)) y /\ idle y /\ attached (newEpc None) y.
Proof. exact (attach_end_to_end (newEpc None) (idle_newEpc None)). Defined.

(** C29. [n] attaches one after the other register [n] subscribers, with
    distinct addresses as long as the pool's counter does not wrap around. *)
Theorem attaches_distinct_addresses (n : nat) (x : Epc) (Hx : idle x) (Hn : Z.of_nat n <= 2 ^ 32) :
  exists y cs, nsteps cr_round n x y /\ heap (p_mme y) = heap (p_mme x) ++ cs
    /\ length cs = n /\ Forall (fun c => emm_state c = REGISTERED) cs
    /\ NoDup (map (fun c => map ue_ip (bearers c)) cs).
Proof.
  destruct (attached_rounds n x Hx) as (y & cs & Hs & _ & Hh & _ & _ & Hf).
  exists y, cs. split; [exact Hs|]. split; [exact Hh|].
  split; [apply Forall2_length in Hf; rewrite length_seq in Hf; auto|].
  split; [apply Forall_lookup; intros k c Hk; destruct (Forall2_lookup_r _ _ _ _ _ Hf Hk) as (j & _ & ? & _); assumption|].
  apply NoDup_alt. intros j k l Hj Hk. rewrite list_lookup_fmap in Hj, Hk.
  destruct (cs !! j) as [c1|] eqn:E1; [|discriminate]. destruct (cs !! k) as [c2|] eqn:E2; [|discriminate].
  injection Hj as <-. injection Hk as Hk.
  destruct (Forall2_lookup_r _ _ _ _ _ Hf E1) as (j' & L1 & _ & _ & B1).
  destruct (Forall2_lookup_r _ _ _ _ _ Hf E2) as (k' & L2 & _ & _ & B2).
  apply lookup_seq in L1 as [-> ?]. apply lookup_seq in L2 as [-> ?].
  rewrite B1, B2 in Hk. injection Hk as Hk. apply ip_text_inj in Hk; [|apply u32_range..].
  apply u32_offset_inj in Hk; lia.
Qed.

Lemma attaches_distinct_addresses_witness :
  exists y cs, nsteps cr_round 3 (newEpc None) y /\ heap (p_mme y) = [] ++ cs
    /\ length cs = 3%nat /\ Forall (fun c => emm_state c = REGISTERED) cs
    /\ NoDup (map (fun c => map ue_ip (bearers c)) cs).
Proof. apply (attaches_distinct_addresses 3 (newEpc None) (idle_newEpc None)). lia. Defined.

(** C28. Authentication agrees end to end.  The HSS answers a request of the MME
    by one message, in which the MME reads the subscriber's vectors; the
    responses the MME accepts are those that begin with the eight octets the UE
    computes from that challenge. *)
Theorem aka_agreement (s : HssNode) (seq imsi plmn : Z) (Hs : in_u 32 seq) (Hi : in_u 64 imsi)
    (Hp : in_u 32 plmn) (Hn : in_u 32 (hss_next_seq_ s)) :
  exists f l,
    serve hss_receive s (enc_message DIA_AIR seq [FU64 DIA_IMSI imsi; FU32 DIA_PLMN plmn])
      = (mkHss (u32 (hss_next_seq_ s + 1)), [f])
    /\ parse aia_cases (newReader (unframe f)) (mkAia 0 zeroAuth) = Ok l
    /\ ai_imsi l = imsi /\ ai_av l = generateAuthVectors imsi
    /\ forall res, res_matches res (av_xres (ai_av l)) = true <->
         (8 <= length res)%nat /\ take 8 res = ue_res (av_rand (ai_av l)).
Proof.
  pose proof (aia_fields_wf imsi Hi) as Hwf.
  destruct (generate_lengths imsi) as (L1 & L2 & L3 & L4).
  eexists _, (mkAia imsi (generateAuthVectors imsi)). split; [|split].
  - unfold serve. rewrite hss_receive_air by assumption. reflexivity.
  - rewrite unframe_frame; [|exact Hwf|unfold aia_fields; msg_size].
    apply parse_enc; [exact Hn|exact Hwf|]. unfold aia_fields.
    set (av := generateAuthVectors imsi) in *. clearbody av. destruct av as [r a x k]; cbn in *.
    unfold keep_size. rewrite L1, L2, L3, L4. reflexivity.
  - split; [reflexivity|]. split; [reflexivity|]. cbn [ai_av]. rewrite ue_res_xres.
    intros res. rewrite res_matches_iff, (take_ge (av_xres _)) by (rewrite L3; reflexivity).
    reflexivity.
Qed.

Lemma aka_agreement_witness :
  exists f l,
    serve hss_receive newHss (enc_message DIA_AIR 1 [FU64 DIA_IMSI 404100000000001; FU32 DIA_PLMN 1])
      = (mkHss 2, [f])
    /\ parse aia_cases (newReader (unframe f)) (mkAia 0 zeroAuth) = Ok l
    /\ ai_imsi l = 404100000000001 /\ ai_av l = generateAuthVectors 404100000000001
    /\ forall res, res_matches res (av_xres (ai_av l)) = true <->
         (8 <= length res)%nat /\ take 8 res = ue_res (av_rand (ai_av l)).
Proof. apply (aka_agreement newHss 1 404100000000001 1); unfold in_u; cbn; lia. Defined.

(** Policy control agrees end to end.  The PCRF answers a request of the
    P-GW by one message, in which the P-GW reads the grant and the charging
    rule of the profile of the access point, "internet" when it is empty. *)
Theorem gx_agreement (s : PcrfNode) (seq imsi q : Z) (a : bytes) (Hs : in_u 32 seq) (Hi : in_u 64 imsi)
    (Hq : in_u 8 q) (Ha : Z.of_nat (length a) < 65536) (Hn : in_u 32 (pcrf_next_seq_ s)) :
  exists f,
    serve pcrf_receive s (enc_message DIA_GX_CCR_I seq (ccr_fields imsi a q))
      = (mkPcrf (u32 (pcrf_next_seq_ s + 1)), [f])
    /\ parse cca_cases (newReader (unframe f)) (mkCca [] 0)
       = Ok (mkCca (Subscriber.charging_rule (policy_of a)) 1)
    /\ granted (Some (unframe f)) = true.
Proof.
  pose proof (cca_fields_wf imsi a Hi) as Hwf.
  destruct (Subscriber.profile_of_range (apn_or_internet a)) as (_ & _ & _ & H4 & H5).
  eexists. split; [|].
  - unfold serve, ccr_fields. rewrite pcrf_receive_ccr by assumption. reflexivity.
  - rewrite unframe_frame; [|exact Hwf|unfold cca_fields; rewrite enc_message_size;
      cbn [sum_list_with field_size]; unfold policy_of; lia].
    assert (E : parse cca_cases (newReader (enc_message DIA_GX_CCA_I (pcrf_next_seq_ s)
                  (cca_fields imsi (policy_of a)))) (mkCca [] 0)
                = Ok (mkCca (Subscriber.charging_rule (policy_of a)) 1))
      by (apply parse_enc; [exact Hn|exact Hwf|reflexivity]).
    split; [exact E|]. unfold granted. rewrite msgType_enc, E by exact Hn. reflexivity.
Qed.

Lemma gx_agreement_witness :
  exists f,
    serve pcrf_receive newPcrf (enc_message DIA_GX_CCR_I 1 (ccr_fields 7 [] 9)) = (mkPcrf 2, [f])
    /\ parse cca_cases (newReader (unframe f)) (mkCca [] 0)
       = Ok (mkCca (Subscriber.charging_rule (policy_of [])) 1)
    /\ granted (Some (unframe f)) = true.
Proof. apply (gx_agreement newPcrf 1 7 9 []); unfold in_u; cbn; lia. Defined.
