(* ===== verification/Mobility.v ===== *)
(** * Tracking area update and S1 handover, end to end

    The procedures the eNB's commands TAU and HO start, across the eNB, the
    MME and the S-GW ([enb_node.cpp], [mme_node.cpp], [sgw_node.cpp]). *)

From S2P Require Import Prelude Tlv Framing Text NodeEnv NasEps S1ap UeStore Metrics Hss Pcrf Pgw Sgw Mme Enb Epc.
#[local] Open Scope Z_scope.

#[local] Opaque generateAuthVectors enc_message.

(** ** The messages *)

Definition ids_fields (id eid : Z) : list field := [FU32 MME_UE_S1AP_ID id; FU32 ENB_UE_S1AP_ID eid].
Definition tau_fields (id eid imsi : Z) : list field :=
  ids_fields id eid ++ [FU64 TAU_IMSI imsi; FU8 TAU_UPDATE_TYPE 0].
Definition tau_accept_fields (id eid : Z) : list field := ids_fields id eid ++ [FU8 TAU_UPDATE_TYPE 0].
Definition ho_required_fields (id eid imsi : Z) : list field :=
  ids_fields id eid ++ [FU64 TAU_IMSI imsi; FU8 HO_TYPE 0; FU8 HO_CAUSE 0].
Definition ho_request_fields (id eid : Z) : list field := ids_fields id eid ++ [FU8 HO_TYPE 0].
Definition ho_teid_fields (id eid teid : Z) : list field :=
  ids_fields id eid ++ [FU32 HO_ENB_TEID_NEW teid].
Definition ho_status_fields (id eid ul dl : Z) : list field :=
  ids_fields id eid ++ [FU32 HO_PDCP_SN_UL ul; FU32 HO_PDCP_SN_DL dl].
Definition release_fields (id eid : Z) : list field := ids_fields id eid ++ [FU8 HO_CAUSE 0].

Ltac mob_fields :=
  unfold tau_fields, tau_accept_fields, ho_required_fields, ho_request_fields, ho_teid_fields,
    ho_status_fields, release_fields, ids_fields; cbn [app].

(** Well formed, and in a frame. *)
Ltac mob_ok :=
  mob_fields;
  first [rewrite enc_message_size; cbn [sum_list_with field_size length]; lia | wf_fields; lia].

(** ** The MME's turns *)

Section MmeTurns.
Context {W : Type} `{Env W} {I : W -> Prop} {out : W -> list bytes}
  {vectors : Z -> AuthVectors} {pool : W -> Z} `{!MmePeers W I out vectors pool}.

(** A turn that leaves the world as good, with [fs] more for the eNB. *)
Definition turn (payload : bytes) (s : MmeNode) (w : W) (s' : MmeNode) (fs : list bytes) : Prop :=
  exists w', mme_receive payload (s, w) = Ok (tt, (s', w')) /\ I w' /\ pool w' = pool w
             /\ out w' = out w ++ fs.

(** One message to the eNB, and a capture. *)
Lemma reply_run (s : MmeNode) (w : W) (c : PcapCall) (type : MessageType) (fs : list field) :
  I w ->
  exists w',
    (seq ← mme_seq; send enb_conn_ (frame (message type seq fs));; pcap c) (s, w) =
    Ok (tt, (with_heap s (heap s) (u32 (mme_next_seq_ s + 1)), w'))
    /\ I w' /\ pool w' = pool w /\ out w' = out w ++ [frame (message type (mme_next_seq_ s) fs)].
Proof.
  intros HI.
  destruct (mp_enb _ (frame (message type (mme_next_seq_ s) fs)) HI) as (H2 & O2 & P2).
  destruct (mp_pcap _ c H2) as (H3 & O3 & P3).
  eexists. split; [|split; [exact H3|split; [congruence|rewrite O3, O2; reflexivity]]].
  unfold mme_seq. run_m. destruct (env_send _ _ _). run_m. reflexivity.
Qed.

(** The same after a capture. *)
Lemma relay_run (s : MmeNode) (w : W) (c1 c2 : PcapCall) (type : MessageType) (fs : list field) :
  I w ->
  exists w',
    (pcap c1;; seq ← mme_seq; send enb_conn_ (frame (message type seq fs));; pcap c2) (s, w) =
    Ok (tt, (with_heap s (heap s) (u32 (mme_next_seq_ s + 1)), w'))
    /\ I w' /\ pool w' = pool w /\ out w' = out w ++ [frame (message type (mme_next_seq_ s) fs)].
Proof.
  intros HI. destruct (mp_pcap w c1 HI) as (H1 & O1 & P1).
  destruct (reply_run s _ c2 type fs H1) as (w' & E & H2 & P2 & O2).
  exists w'. split; [exact E|]. split; [exact H2|]. split; congruence.
Qed.

Ltac start_turn h :=
  unfold turn, mme_receive; rewrite enc_message_long, msgType_enc by assumption;
  rewrite type_of_code_type_code; unfold h; mob_fields; rewrite M_bind_eq; parse_msg;
  cbn [mme_id enb_id val1 val2].

Lemma mme_tau (s : MmeNode) (w : W) (seq id eid imsi : Z) :
  I w -> in_u 32 seq -> in_u 32 id -> in_u 32 eid -> in_u 64 imsi ->
  turn (enc_message S1AP_TAU_REQUEST seq (tau_fields id eid imsi)) s w
    (with_heap s (heap s) (u32 (mme_next_seq_ s + 1)))
    [frame (message S1AP_TAU_ACCEPT (mme_next_seq_ s) (tau_accept_fields id eid))].
Proof. intros HI Hs Hid He Hi. start_turn @handleTauRequest. apply relay_run. exact HI. Qed.

Lemma mme_ho_required (s : MmeNode) (w : W) (seq id eid imsi : Z) :
  I w -> in_u 32 seq -> in_u 32 id -> in_u 32 eid -> in_u 64 imsi ->
  turn (enc_message S1AP_HANDOVER_REQUIRED seq (ho_required_fields id eid imsi)) s w
    (with_heap s (heap s) (u32 (mme_next_seq_ s + 1)))
    [frame (message S1AP_HANDOVER_REQUEST (mme_next_seq_ s) (ho_request_fields id eid))].
Proof. intros HI Hs Hid He Hi. start_turn @handleHandoverRequired. apply relay_run. exact HI. Qed.

Lemma mme_ho_status (s : MmeNode) (w : W) (seq id eid ul dl : Z) :
  I w -> in_u 32 seq -> in_u 32 id -> in_u 32 eid -> in_u 32 ul -> in_u 32 dl ->
  turn (enc_message S1AP_ENB_STATUS_TRANSFER seq (ho_status_fields id eid ul dl)) s w
    (with_heap s (heap s) (u32 (mme_next_seq_ s + 1)))
    [frame (message S1AP_MME_STATUS_TRANSFER (mme_next_seq_ s) (ho_status_fields id eid ul dl))].
Proof. intros HI Hs Hid He Hu Hd. start_turn @handleEnbStatusTransfer. apply relay_run. exact HI. Qed.

Lemma mme_ho_released (s : MmeNode) (w : W) (seq id eid : Z) :
  I w -> in_u 32 seq -> in_u 32 id -> in_u 32 eid ->
  turn (enc_message S1AP_UE_CONTEXT_RELEASE_CMPL seq (ids_fields id eid)) s w s [].
Proof.
  intros HI Hs Hid He. start_turn @handleUeContextRelCmpl. eexists. split; [reflexivity|].
  rewrite app_nil_r. destruct (mp_pcap w (writeS1AP (str "S1AP-UEContextReleaseCmpl") IP_ENB PORT_S1AP
    IP_MME PORT_S1AP (buildUEContextReleaseComplete id eid)) HI) as (? & ? & ?). auto.
Qed.

(** The bearer's endpoint of a known UE. *)
Definition moved (s : MmeNode) (id teid : Z) : Heap :=
  match find (ue_store_ s) id with
  | Some p => alter (set_default_teid teid) p (heap s)
  | None => heap s
  end.

Lemma mme_ho_ack (s : MmeNode) (w : W) (seq id eid teid : Z) :
  I w -> wf_mme s -> in_u 32 seq -> in_u 32 id -> in_u 32 eid -> in_u 32 teid ->
  turn (enc_message S1AP_HANDOVER_REQUEST_ACK seq (ho_teid_fields id eid teid)) s w
    (with_heap s (moved s id teid) (u32 (mme_next_seq_ s + 1)))
    [frame (message S1AP_HANDOVER_COMMAND (mme_next_seq_ s) (ids_fields id eid))].
Proof.
  intros HI [_ Hwf] Hs Hid He Ht. start_turn @handleHandoverRequestAck.
  destruct (relay_run (with_heap s (moved s id teid) (mme_next_seq_ s)) w
              (writeS1AP (str "S1AP-HandoverRequestAck") IP_ENB PORT_S1AP IP_MME PORT_S1AP
                 (buildHandoverRequestAck id eid))
              (writeS1AP (str "S1AP-HandoverCommand") IP_MME PORT_S1AP IP_ENB PORT_S1AP
                 (buildHandoverCommand id eid))
              S1AP_HANDOVER_COMMAND (ids_fields id eid) HI) as (w' & E & R).
  exists w'. split; [|exact R]. etransitivity; [|exact E]. clear E. unfold store_find, moved. run_m.
  destruct (find (ue_store_ s) id) as [p|] eqn:Ef.
  - destruct (Hwf id p Ef) as (c & Hc & _). rewrite Hc. reflexivity.
  - destruct s; reflexivity.
Qed.

(** The context of a known UE carries a 64-bit IMSI. *)
Definition imsi_ok (s : MmeNode) (id : Z) : Prop :=
  forall p c, find (ue_store_ s) id = Some p -> heap s !! p = Some c -> in_u 64 (imsi c).

(** The S-GW is told the endpoint before the eNB is told to release. *)
Lemma modify_bearer_ok (s : MmeNode) (w : W) (id teid : Z) :
  I w -> wf_mme s -> imsi_ok s id -> in_u 32 (mme_next_seq_ s) -> in_u 32 teid ->
  exists w', sendModifyBearer id teid (s, w)
             = Ok (true, (with_heap s (heap s) (u32 (mme_next_seq_ s + 1)), w'))
             /\ I w' /\ pool w' = pool w /\ out w' = out w.
Proof.
  intros HI [_ Hwf] Hi Hs Ht. unfold sendModifyBearer, store_find. run_m.
  set (c1 := writeGTPv2 MODIFY_BEARER_REQ 0 IP_MME 2123 IP_SGW 2123).
  set (c2 := writeGTPv2 MODIFY_BEARER_RSP 0 IP_SGW 2123 IP_MME 2123).
  destruct (mp_pcap w c1 HI) as (H1 & O1 & P1).
  assert (G : forall i, in_u 64 i -> exists w', (seq ← mme_seq;
      send sgw_udp_ (udpPayload (message GTP_MODIFY_BEARER_REQ seq (modify_fields teid i)));;
      r ← recvWithTimeout sgw_udp_ 3000;
      match r with None => mret false | Some _ => pcap c2;; mret true end) (s, env_pcap c1 w)
      = Ok (true, (with_heap s (heap s) (u32 (mme_next_seq_ s + 1)), w'))
      /\ I w' /\ pool w' = pool w /\ out w' = out w).
  { intros i Hir. unfold mme_seq. run_m.
    destruct (mp_modify _ (mme_next_seq_ s) teid i H1 Hs Ht Hir) as (r & w' & E & H2 & O2 & P2).
    destruct (env_send sgw_udp_ _ _) as [ok w1]. cbn [snd] in E. run_m. rewrite E. run_m.
    destruct (mp_pcap _ c2 H2) as (H3 & O3 & P3).
    eexists. split; [reflexivity|]. split; [exact H3|]. split; congruence. }
  destruct (find (ue_store_ s) id) as [p|] eqn:Ef.
  - destruct (Hwf id p Ef) as (c & Hc & _). rewrite Hc. run_m. apply G. eapply Hi; eauto.
  - run_m. apply G. unfold in_u; lia.
Qed.

Lemma mme_ho_notify (s : MmeNode) (w : W) (seq id eid teid : Z) :
  I w -> wf_mme s -> imsi_ok s id -> in_u 32 (mme_next_seq_ s) -> in_u 32 seq -> in_u 32 id ->
  in_u 32 eid -> in_u 32 teid -> teid <> 0 ->
  turn (enc_message S1AP_HANDOVER_NOTIFY seq (ho_teid_fields id eid teid)) s w
    (with_heap s (heap s) (u32 (u32 (mme_next_seq_ s + 1) + 1)))
    [frame (message S1AP_UE_CONTEXT_RELEASE_CMD (u32 (mme_next_seq_ s + 1)) (release_fields id eid))].
Proof.
  intros HI Hwf Hi Hms Hs Hid He Ht Hnz. start_turn @handleHandoverNotify.
  set (c0 := writeS1AP (str "S1AP-HandoverNotify") IP_ENB PORT_S1AP IP_MME PORT_S1AP
               (buildHandoverNotify id eid)). destruct (mp_pcap w c0 HI) as (H1 & O1 & P1).
  rewrite (proj2 (Z.eqb_neq _ _) Hnz). cbn [negb]. rewrite M_bind_eq. cbn [pcap].
  destruct (modify_bearer_ok s _ id teid H1 Hwf Hi Hms Ht) as (w2 & E & H2 & P2 & O2).
  destruct (reply_run (with_heap s (heap s) (u32 (mme_next_seq_ s + 1))) w2
              (writeS1AP (str "S1AP-UEContextReleaseCmd") IP_MME PORT_S1AP IP_ENB PORT_S1AP
                 (buildUEContextReleaseCommand id eid))
              S1AP_UE_CONTEXT_RELEASE_CMD (release_fields id eid) H2) as (w' & E' & H3 & P3 & O3).
  exists w'. split; [|split; [exact H3|split; [congruence|rewrite O3, O2, O1; reflexivity]]].
  etransitivity; [|exact E']. rewrite M_bind_eq. unfold store_find at 1. run_m.
  destruct (find (ue_store_ s) id) as [p|] eqn:Ef.
  - destruct (proj2 Hwf id p Ef) as (c & Hc & _). rewrite Hc. run_m. rewrite E. reflexivity.
  - run_m. rewrite E. reflexivity.
Qed.

End MmeTurns.

(** ** The eNB's turns *)

Ltac enb_turn h :=
  unfold enb_receive; rewrite enc_message_long, msgType_enc by assumption;
  rewrite type_of_code_type_code; unfold h; mob_fields; run_m; parse_msg;
  unfold cap_down, cap_up, to_mme, enb_seq, enb_teid; run_m; reflexivity.

Lemma enb_tau_accept (s : EnbNode) (seq id eid : Z) :
  in_u 32 seq -> in_u 32 id -> in_u 32 eid ->
  enb_receive (enc_message S1AP_TAU_ACCEPT seq (tau_accept_fields id eid)) (s, mkOut []) =
  Ok (tt, (s, mkOut [])).
Proof. intros. enb_turn @handleTauAccept. Qed.

Lemma enb_ho_request (s : EnbNode) (seq id eid : Z) :
  in_u 32 seq -> in_u 32 id -> in_u 32 eid ->
  enb_receive (enc_message S1AP_HANDOVER_REQUEST seq (ho_request_fields id eid)) (s, mkOut []) =
  Ok (tt, (enb_after s 1 1,
           mkOut [frame (message S1AP_HANDOVER_REQUEST_ACK (enb_next_seq_ s)
                     (ho_teid_fields id eid (next_enb_teid_ s)))])).
Proof. intros. enb_turn @handleHoRequest. Qed.

Lemma enb_ho_command (s : EnbNode) (seq id eid : Z) :
  in_u 32 seq -> in_u 32 id -> in_u 32 eid ->
  enb_receive (enc_message S1AP_HANDOVER_COMMAND seq (ids_fields id eid)) (s, mkOut []) =
  Ok (tt, (enb_after s 0 1,
           mkOut [frame (message S1AP_ENB_STATUS_TRANSFER (enb_next_seq_ s)
                     (ho_status_fields id eid 42 37))])).
Proof. intros. enb_turn @handleHoCommand. Qed.

(** The notified endpoint is the one before the next: the counter is not the
    handover's own record. *)
Lemma enb_ho_status (s : EnbNode) (seq id eid ul dl : Z) :
  in_u 32 seq -> in_u 32 id -> in_u 32 eid -> in_u 32 ul -> in_u 32 dl ->
  enb_receive (enc_message S1AP_MME_STATUS_TRANSFER seq (ho_status_fields id eid ul dl)) (s, mkOut []) =
  Ok (tt, (enb_after s 0 1,
           mkOut [frame (message S1AP_HANDOVER_NOTIFY (enb_next_seq_ s)
                     (ho_teid_fields id eid (u32 (next_enb_teid_ s - 1))))])).
Proof. intros. enb_turn @handleMmeStatusXfer. Qed.

Lemma enb_ho_release (s : EnbNode) (seq id eid : Z) :
  in_u 32 seq -> in_u 32 id -> in_u 32 eid ->
  enb_receive (enc_message S1AP_UE_CONTEXT_RELEASE_CMD seq (release_fields id eid)) (s, mkOut []) =
  Ok (tt, (enb_after s 0 1,
           mkOut [frame (message S1AP_UE_CONTEXT_RELEASE_CMPL (enb_next_seq_ s) (ids_fields id eid))])).
Proof. intros. enb_turn @handleUeCtxRelCmd. Qed.

(** ** The commands *)

Lemma cmd_arg_number (k : nat) (cmd : bytes) (n : Z) :
  length cmd = k -> 0 <= n < 2 ^ 31 -> cmd_arg k (cmd ++ to_string n) = n.
Proof.
  intros <- Hn. unfold cmd_arg. rewrite length_app, drop_app_length, stoi_to_string by exact Hn.
  destruct (to_string_spec n (proj1 Hn)) as (_ & Hne & _).
  destruct (to_string n); [contradiction|]. cbn [length].
  replace (_ <? _)%nat with true by (symmetry; apply Nat.ltb_lt; lia). reflexivity.
Qed.

(** The lines an operator types. *)
Definition tau_command (n : Z) : bytes := str "TAU " ++ to_string n.
Definition ho_command (n : Z) : bytes := str "HO " ++ to_string n.

Lemma enb_command_tau (s : EnbNode) (n : Z) :
  mme_valid s = true -> 0 <= n < 2 ^ 31 ->
  processCommand (tau_command n) (s, mkOut []) =
  Ok (tt, (enb_after s 0 1,
           mkOut [frame (message S1AP_TAU_REQUEST (enb_next_seq_ s)
                     (tau_fields n n (u64 (BASE_IMSI + n))))])).
Proof.
  intros Hv Hn. unfold processCommand, tau_command. rewrite bool_decide_false by discriminate.
  rewrite bool_decide_true by reflexivity. rewrite cmd_arg_number by auto.
  rewrite u32_small by (unfold in_u; lia).
  unfold sendTauRequest. run_m. rewrite Hv. cbn [negb].
  unfold to_mme, enb_seq, cap_up. run_m. reflexivity.
Qed.

Lemma enb_command_ho (s : EnbNode) (n : Z) :
  mme_valid s = true -> 0 <= n < 2 ^ 31 ->
  processCommand (ho_command n) (s, mkOut []) =
  Ok (tt, (enb_after s 0 1,
           mkOut [frame (message S1AP_HANDOVER_REQUIRED (enb_next_seq_ s)
                     (ho_required_fields n n (u64 (BASE_IMSI + n))))])).
Proof.
  intros Hv Hn. unfold processCommand, ho_command. rewrite !bool_decide_false by discriminate.
  rewrite bool_decide_true by reflexivity. rewrite cmd_arg_number by auto.
  rewrite u32_small by (unfold in_u; lia).
  unfold sendHandoverRequired. run_m. rewrite Hv. cbn [negb].
  unfold to_mme, enb_seq, cap_up. run_m. reflexivity.
Qed.

(** ** End to end *)

(** A message up and its answer down, with nothing else in flight. *)
Lemma exchange (e e' : EnbNode) (m m' : MmeNode) (w : CoreWorld) (ty ty' : MessageType) (sq sq' : Z)
    (fs fs' : list field) (o : list bytes) :
  I_core w -> c_enb w = [] ->
  turn (I := I_core) (out := c_enb) (pool := core_pool) (enc_message ty sq fs) m w m'
    [frame (message ty' sq' fs')] ->
  enb_receive (enc_message ty' sq' fs') (e, mkOut []) = Ok (tt, (e', mkOut o)) ->
  Forall wf_field fs -> Z.of_nat (length (enc_message ty sq fs)) <= 65536 ->
  Forall wf_field fs' -> Z.of_nat (length (enc_message ty' sq' fs')) <= 65536 ->
  exists w', rtc epc_step (mkEpc e [frame (message ty sq fs)] m w) (mkEpc e' o m' w')
             /\ I_core w' /\ c_enb w' = [] /\ core_pool w' = core_pool w.
Proof.
  intros HI Hq (w' & E & HI' & Hp & Ho) E' H1 H2 H3 H4. rewrite Hq in Ho. cbn [app] in Ho.
  exists (set_enb_queue w' []). split; [|split; [exact HI'|split; [reflexivity|exact Hp]]].
  etransitivity; [apply deliver_up; [exact H1|exact H2|exact E]|].
  eapply deliver_down with (o := o); [reflexivity|exact H3|exact H4|exact Ho|exact E'].
Qed.

Lemma imsi_ok_moved (s : MmeNode) (id teid q : Z) :
  imsi_ok s id -> imsi_ok (with_heap s (moved s id teid) q) id.
Proof.
  unfold imsi_ok, moved. cbn [with_heap ue_store_ heap]. intros Hi p c Hp Hc. rewrite Hp in Hc.
  rewrite list_lookup_alter_eq in Hc. destruct (heap s !! p) as [c0|] eqn:E; [|discriminate].
  injection Hc as <-. rewrite (proj1 (proj1 (set_default_teid_id teid c0))). eapply Hi; eauto.
Qed.

Lemma u32_next_prev (t : Z) : in_u 32 t -> u32 (u32 (t + 1) - 1) = t.
Proof.
  intros Ht. unfold u32, wrap. rewrite Zminus_mod_idemp_l, Z.add_simpl_r. apply Z.mod_small. exact Ht.
Qed.

(** The handover up to the notification. *)
Lemma ho_switched (e : EnbNode) (m : MmeNode) (w : CoreWorld) (q n i : Z) :
  I_core w -> c_enb w = [] -> wf_mme m -> in_u 32 q -> 0 <= n < 2 ^ 31 -> in_u 64 i ->
  in_u 32 (mme_next_seq_ m) -> in_u 32 (enb_next_seq_ e) -> in_u 32 (next_enb_teid_ e) ->
  let teid := next_enb_teid_ e in
  exists ms es w',
    in_u 32 ms /\ in_u 32 es
    /\ rtc epc_step (mkEpc e [frame (message S1AP_HANDOVER_REQUIRED q (ho_required_fields n n i))] m w)
         (mkEpc (enb_after e 1 3) [frame (message S1AP_HANDOVER_NOTIFY es (ho_teid_fields n n teid))]
            (with_heap m (moved m n teid) ms) w')
    /\ I_core w' /\ c_enb w' = [] /\ core_pool w' = core_pool w.
Proof.
  intros HI Hq Hwf Hs Hn Hi Hms Hes Het teid. assert (Hn32 : in_u 32 n) by (unfold in_u; lia).
  destruct (exchange _ _ _ _ _ _ _ _ _ _ _ _ HI Hq
              (mme_ho_required (vectors := generateAuthVectors) m w q n n i HI Hs Hn32 Hn32 Hi)
              (enb_ho_request e _ n n Hms Hn32 Hn32)
              ltac:(mob_ok) ltac:(mob_ok) ltac:(mob_ok) ltac:(mob_ok)) as (w1 & R1 & HI1 & Q1 & P1).
  destruct (exchange _ _ _ _ _ _ _ _ _ _ _ _ HI1 Q1
              (mme_ho_ack (vectors := generateAuthVectors) (with_heap m (heap m) (u32 (mme_next_seq_ m + 1)))
                 w1 _ n n teid HI1 Hwf Hes Hn32 Hn32 Het)
              (enb_ho_command (enb_after e 1 1) _ n n (u32_range _) Hn32 Hn32)
              ltac:(mob_ok) ltac:(mob_ok) ltac:(mob_ok) ltac:(mob_ok)) as (w2 & R2 & HI2 & Q2 & P2).
  assert (H42 : in_u 32 42) by (unfold in_u; lia). assert (H37 : in_u 32 37) by (unfold in_u; lia).
  destruct (exchange _ _ _ _ _ _ _ _ _ _ _ _ HI2 Q2
              (mme_ho_status (vectors := generateAuthVectors)
                 (with_heap m (moved m n teid) (u32 (u32 (mme_next_seq_ m + 1) + 1))) w2 _ n n 42 37 HI2
                 (u32_range (enb_next_seq_ e + 1)) Hn32 Hn32 H42 H37)
              (enb_ho_status (enb_after e 1 2) _ n n 42 37 (u32_range _) Hn32 Hn32 H42 H37)
              ltac:(mob_ok) ltac:(mob_ok) ltac:(mob_ok) ltac:(mob_ok)) as (w3 & R3 & HI3 & Q3 & P3).
  cbn [next_enb_teid_ enb_after Nat.iter nat_rect] in R3. rewrite u32_next_prev in R3 by exact Het.
  eexists _, _, w3. split; [|split]; [| |split; [etransitivity; [exact R1|etransitivity; [exact R2|exact R3]]|]];
    [apply u32_range..|]. split; [exact HI3|]. split; [exact Q3|]. congruence.
Qed.

(** A command that makes the eNB send one message. *)
Lemma command_sends (cmd : bytes) (e e' : EnbNode) (m : MmeNode) (w : CoreWorld) (f : bytes) :
  processCommand cmd (e, mkOut []) = Ok (tt, (e', mkOut [f])) ->
  command cmd (mkEpc e [] m w) = mkEpc e' [f] m w.
Proof. intros E. unfold command, serve. cbn [p_enb]. rewrite E. reflexivity. Qed.

(** ** Properties *)

(** A tracking area update changes no context.  From a system at rest the
    command TAU n leads back to rest: the MME has accepted, and its store, its
    contexts and the address pool are what they were, whether or not the MME
    knows the UE. *)
Theorem tau_end_to_end (x : Epc) (n : Z) (Hx : idle x) (Hn : 0 <= n < 2 ^ 31) :
  exists y, rtc epc_step (command (tau_command n) x) y /\ idle y
    /\ heap (p_mme y) = heap (p_mme x) /\ ue_store_ (p_mme y) = ue_store_ (p_mme x)
    /\ core_pool (p_core y) = core_pool (p_core x)
    /\ mme_next_seq_ (p_mme y) = u32 (mme_next_seq_ (p_mme x) + 1).
Proof.
  destruct x as [e up m w]. pose proof Hx as (Hu & Hq & HI & Hwf & Hms & Hes & Het & Heu & Hv).
  cbn [p_up p_core p_mme p_enb] in *. subst up.
  rewrite (command_sends _ _ _ _ _ _ (enb_command_tau e n Hv Hn)).
  assert (Hn32 : in_u 32 n) by (unfold in_u; lia).
  destruct (exchange _ _ _ _ _ _ _ _ _ _ _ _ HI Hq
              (mme_tau (vectors := generateAuthVectors) m w _ n n _ HI Hes Hn32 Hn32
                 (u64_range (BASE_IMSI + n)))
              (enb_tau_accept (enb_after e 0 1) _ n n Hms Hn32 Hn32)
              ltac:(mob_ok) ltac:(mob_ok) ltac:(mob_ok) ltac:(mob_ok)) as (w1 & R1 & HI1 & Q1 & P1).
  eexists. split; [exact R1|]. split; [|split; [reflexivity|split; [reflexivity|split; [exact P1|reflexivity]]]].
  split; [reflexivity|]. split; [exact Q1|]. split; [exact HI1|]. split; [exact Hwf|].
  split; [apply u32_range|]. split; [apply u32_range|]. auto.
Qed.

Lemma tau_end_to_end_witness :
  exists y, rtc epc_step (command (tau_command 7) (newEpc None)) y /\ idle y
    /\ heap (p_mme y) = [] /\ ue_store_ (p_mme y) = newStore
    /\ core_pool (p_core y) = core_pool newCore
    /\ mme_next_seq_ (p_mme y) = 2.
Proof. apply (tau_end_to_end (newEpc None) 7 (idle_newEpc None)). lia. Defined.

(** C5. An S1 handover switches the path.  From a system at rest the command
    HO n leads, through preparation, status transfer, notification and the
    S-GW's bearer modification, back to rest: the default bearer of the UE
    whose MME identifier is [n] has the eNB's new tunnel endpoint, every
    other context is unchanged, and with no such UE nothing changes. *)
Theorem handover_end_to_end (x : Epc) (n : Z) (Hx : idle x) (Hn : 0 <= n < 2 ^ 31)
    (Hi : imsi_ok (p_mme x) n) (Ht : next_enb_teid_ (p_enb x) <> 0) :
  exists y, rtc epc_step (command (ho_command n) x) y /\ idle y
    /\ heap (p_mme y) = moved (p_mme x) n (next_enb_teid_ (p_enb x))
    /\ ue_store_ (p_mme y) = ue_store_ (p_mme x)
    /\ next_enb_teid_ (p_enb y) = u32 (next_enb_teid_ (p_enb x) + 1)
    /\ core_pool (p_core y) = core_pool (p_core x).
Proof.
  destruct x as [e up m w]. pose proof Hx as (Hu & Hq & HI & Hwf & Hms & Hes & Het & Heu & Hv).
  cbn [p_up p_core p_mme p_enb] in *. subst up. set (teid := next_enb_teid_ e) in *.
  assert (Hn32 : in_u 32 n) by (unfold in_u; lia).
  destruct (ho_switched (enb_after e 0 1) m w (enb_next_seq_ e) n (u64 (BASE_IMSI + n)) HI Hq Hwf Hes Hn
              (u64_range _) Hms (u32_range _) Het) as (ms & es & w1 & Hms1 & Hes1 & R1 & HI1 & Q1 & P1).
  rewrite <- (command_sends _ _ _ _ _ _ (enb_command_ho e n Hv Hn)) in R1.
  assert (Hwf1 : wf_mme (with_heap m (moved m n teid) ms))
    by (apply epc_steps_wf in R1; [exact R1|rewrite (proj1 (command_mme _ _)); exact Hwf]).
  destruct (exchange _ _ _ _ _ _ _ _ _ _ _ _ HI1 Q1
              (mme_ho_notify (vectors := generateAuthVectors) _ w1 es n n teid HI1 Hwf1
                 (imsi_ok_moved m n teid ms Hi) Hms1 Hes1 Hn32 Hn32 Het Ht)
              (enb_ho_release (enb_after (enb_after e 0 1) 1 3) _ n n (u32_range _) Hn32 Hn32)
              ltac:(mob_ok) ltac:(mob_ok) ltac:(mob_ok) ltac:(mob_ok)) as (w2 & R2 & HI2 & Q2 & P2).
  destruct (mme_ho_released (vectors := generateAuthVectors)
              (with_heap m (moved m n teid) (u32 (u32 (ms + 1) + 1))) w2
              (u32 (u32 (u32 (u32 (enb_next_seq_ e + 1) + 1) + 1) + 1)) n n HI2 (u32_range _) Hn32 Hn32)
    as (w3 & E3 & HI3 & P3 & O3).
  rewrite app_nil_r, Q2 in O3.
  assert (R : rtc epc_step (command (ho_command n) (mkEpc e [] m w))
                (mkEpc (enb_after e 1 5) [] (with_heap m (moved m n teid) (u32 (u32 (ms + 1) + 1))) w3)).
  { etransitivity; [exact R1|]. etransitivity; [exact R2|].
    apply deliver_up; [mob_ok|mob_ok|exact E3]. }
  eexists. split; [exact R|]. apply epc_steps_wf in R; [|rewrite (proj1 (command_mme _ _)); exact Hwf].
  split; [|split; [reflexivity|split; [reflexivity|split; [reflexivity|cbn [p_core]; congruence]]]].
  split; [reflexivity|]. split; [exact O3|]. split; [exact HI3|]. split; [exact R|].
  repeat (split; [apply u32_range|]). auto.
Qed.

Lemma handover_end_to_end_witness :
  exists y z c, cr_round (newEpc None) y /\ rtc epc_step (command (ho_command 1) y) z
    /\ idle z /\ heap (p_mme z) = [c] /\ emm_state c = REGISTERED
    /\ map enb_s1u_teid (bearers c) = [101].
Proof.
  destruct (attach_run (newEpc None) (idle_newEpc None))
    as (y & Hr & Hy & t & t' & s11 & s1u & Hh & Hf & _ & _ & _ & _ & Ht & _).
  change (next_id_ (ue_store_ (p_mme (newEpc None)))) with 1 in *.
  change (heap (p_mme (newEpc None))) with (@nil UeContext) in *. cbn [app length] in Hh, Hf.
  change (next_enb_teid_ (p_enb y) = 101) in Ht.
  destruct (handover_end_to_end y 1 Hy) as (z & R & Hz & Hh' & _);
    [lia| |rewrite Ht; discriminate|].
  - intros p c Hp Hc. rewrite Hf in Hp. injection Hp as <-. rewrite Hh in Hc. injection Hc as <-.
    apply u64_range.
  - exists y, z. eexists. split; [split; [exact Hr|exact Hy]|]. split; [exact R|]. split; [exact Hz|].
    rewrite Hh'. unfold moved. rewrite Hf, Hh, Ht. split; [reflexivity|]. split; reflexivity.
Defined.

(** Two handovers at once are confused.  When the eNB prepares UE [b]
    between the preparation and the status transfer of UE [a], it notifies for
    [a] the tunnel endpoint it allocated to [b], not the one it acknowledged. *)
Theorem interleaved_handovers_confused (s : EnbNode) (q1 q2 q3 a b : Z) (H1 : in_u 32 q1)
    (H2 : in_u 32 q2) (H3 : in_u 32 q3) (Ha : in_u 32 a) (Hb : in_u 32 b)
    (Ht : in_u 32 (next_enb_teid_ s)) :
  let t := next_enb_teid_ s in
  let '(s1, o1) := serve enb_receive s (enc_message S1AP_HANDOVER_REQUEST q1 (ho_request_fields a a)) in
  let '(s2, o2) := serve enb_receive s1 (enc_message S1AP_HANDOVER_REQUEST q2 (ho_request_fields b b)) in
  let '(s3, o3) := serve enb_receive s2
                     (enc_message S1AP_MME_STATUS_TRANSFER q3 (ho_status_fields a a 42 37)) in
  o1 = [frame (message S1AP_HANDOVER_REQUEST_ACK (enb_next_seq_ s) (ho_teid_fields a a t))]
  /\ o3 = [frame (message S1AP_HANDOVER_NOTIFY (u32 (u32 (enb_next_seq_ s + 1) + 1))
                    (ho_teid_fields a a (u32 (t + 1))))]
  /\ u32 (t + 1) <> t.
Proof.
  intros t. unfold serve. rewrite (enb_ho_request s) by assumption. cbn [sent].
  rewrite enb_ho_request by assumption. cbn [sent].
  rewrite enb_ho_status by (unfold in_u in *; lia). cbn [sent next_enb_teid_ enb_after Nat.iter nat_rect].
  rewrite u32_next_prev by apply u32_range. split; [reflexivity|]. split; [reflexivity|].
  fold t in Ht |- *. intros E. destruct (decide (t + 1 = 2 ^ 32)) as [E1|E1].
  - rewrite E1 in E. change (u32 (2 ^ 32)) with 0 in E. lia.
  - rewrite u32_small in E; unfold in_u in *; lia.
Qed.

Lemma interleaved_handovers_confused_witness :
  let '(s1, o1) := serve enb_receive newEnb (enc_message S1AP_HANDOVER_REQUEST 1 (ho_request_fields 1 1)) in
  let '(s2, o2) := serve enb_receive s1 (enc_message S1AP_HANDOVER_REQUEST 2 (ho_request_fields 2 2)) in
  let '(s3, o3) := serve enb_receive s2
                     (enc_message S1AP_MME_STATUS_TRANSFER 3 (ho_status_fields 1 1 42 37)) in
  o1 = [frame (message S1AP_HANDOVER_REQUEST_ACK 1 (ho_teid_fields 1 1 100))]
  /\ o3 = [frame (message S1AP_HANDOVER_NOTIFY 3 (ho_teid_fields 1 1 101))]
  /\ 101 <> 100.
Proof. apply (interleaved_handovers_confused newEnb 1 2 3 1 2); unfold in_u; cbn; lia. Defined.
