(* ===== verification/PcapFile.v ===== *)
(** * The capture file

    [PcapWriter] of [4g-simulator/src/common/pcap_writer.h] and
    [pcap_writer.cpp]: the frames it builds for Diameter, GTPv2, SIP and S1AP,
    the TCP and SCTP sequence numbers it keeps per connection, and the file.
    Each write holds the writer's lock, so it is one step.  The file is the
    sequence of octets written; the system clock is the variable [now_us], the
    microseconds at each packet written. *)

From stdpp Require Import sorting.
From S2P Require Import Prelude Text NodeEnv.
#[local] Open Scope Z_scope.

(** ** State *)

Record ConnSeq : Type := mkConn { client_seq : Z; server_seq : Z }.
Record SctpSeq : Type := mkSctp { tsn : Z; ssn : Z }.

(** [ConnSeq{}] and [SctpSeq{}], as [operator[]] of the maps makes them. *)
Definition newConnSeq : ConnSeq := mkConn 1000 2000.
Definition newSctpSeq : SctpSeq := mkSctp 0 0.

Record PcapWriter : Type := mkPcap {
  file_ : bytes;
  pkt_id_ : Z;
  conn_seq_ : gmap Z ConnSeq;
  sctp_seq_ : gmap Z SctpSeq;
  tcp_started_ : gset Z;
  open_ : bool;
  packets : nat        (** packets written so far: the index of the clock *)
}.

Definition newPcapWriter : PcapWriter := mkPcap [] 1 ∅ ∅ ∅ false 0.

(** ** Pure helpers *)

Definition PCAP_MAGIC : Z := 0xa1b2c3d4.
Definition PCAP_SNAPLEN : Z := 65535.

Definition global_header : bytes :=
  le32 PCAP_MAGIC ++ [2; 0] ++ [4; 0] ++ le32 0 ++ le32 0 ++ le32 PCAP_SNAPLEN ++ le32 1.

Definition endpoint (ip port : Z) : Z := Z.lor (Z.shiftl ip 16) port.

Definition connKey (a_ip a_port b_ip b_port : Z) : Z :=
  let a := endpoint a_ip a_port in
  let b := endpoint b_ip b_port in
  if a <? b then Z.lor (u64 (Z.shiftl a 32)) b else Z.lor (u64 (Z.shiftl b 32)) a.

Definition isClient (src_ip src_port dst_ip dst_port : Z) : bool :=
  endpoint src_ip src_port <=? endpoint dst_ip dst_port.

(** The 16-bit words of a header, added up. *)
Fixpoint word_sum (buf : bytes) : Z :=
  match buf with
  | h :: l :: rest => Z.lor (Z.shiftl h 8) l + word_sum rest
  | _ => 0
  end.

(** [while (sum >> 16) sum = (sum & 0xFFFF) + (sum >> 16)]. *)
Fixpoint fold_carry (fuel : nat) (sum : Z) : Z :=
  match fuel with
  | O => sum
  | S fuel' =>
      if Z.shiftr sum 16 =? 0 then sum
      else fold_carry fuel' (Z.land sum 0xFFFF + Z.shiftr sum 16)
  end.

(** Of a header of at most 64 words: two turns fold its sum. *)
Definition ipChecksum (buf : bytes) : Z :=
  u16 (Z.lnot (fold_carry 3 (u32 (word_sum buf)))).

Definition buildEthernet : bytes := replicate 6 0x02 ++ replicate 6 0x01 ++ [0x08; 0x00].

(** The IPv4 header, with its checksum put in place. *)
Definition ip_zero (total id proto src_ip dst_ip : Z) : bytes :=
  [0x45; 0x00] ++ be16 total ++ be16 id ++ be16 0x4000 ++ [64; proto] ++ be16 0
  ++ be32 src_ip ++ be32 dst_ip.

Definition put_checksum (ip : bytes) : bytes :=
  let ck := ipChecksum ip in
  <[11%nat := Z.land ck 0xFF]> (<[10%nat := Z.land (Z.shiftr ck 8) 0xFF]> ip).

Definition ip_header (total id proto src_ip dst_ip : Z) : bytes :=
  put_checksum (ip_zero total id proto src_ip dst_ip).

(** ** Diameter identities and AVPs *)

Definition diamIdentity (ip : Z) : bytes :=
  if ip =? IP_MME then str "mme.epc.mnc001.mcc001.3gppnetwork.org"
  else if ip =? IP_HSS then str "hss.epc.mnc001.mcc001.3gppnetwork.org"
  else if ip =? IP_SGW then str "sgw.epc.mnc001.mcc001.3gppnetwork.org"
  else if ip =? IP_PGW then str "pgw.epc.mnc001.mcc001.3gppnetwork.org"
  else if ip =? IP_PCRF then str "pcrf.epc.mnc001.mcc001.3gppnetwork.org"
  else if ip =? IP_PCSCF then str "pcscf.ims.mnc001.mcc001.3gppnetwork.org"
  else if ip =? IP_SCSCF then str "scscf.ims.mnc001.mcc001.3gppnetwork.org"
  else if ip =? IP_MTAS then str "mtas.ims.mnc001.mcc001.3gppnetwork.org"
  else str "node.epc.mnc001.mcc001.3gppnetwork.org".

Definition diamRealm (ip : Z) : bytes :=
  if (ip =? IP_PCSCF) || (ip =? IP_SCSCF) || (ip =? IP_MTAS)
  then str "ims.mnc001.mcc001.3gppnetwork.org"
  else str "epc.mnc001.mcc001.3gppnetwork.org".

(** [while (v.size() % 4) v.push_back(0)]: at most three turns. *)
Definition pad4 (v : bytes) : bytes :=
  v ++ replicate ((4 - length v mod 4) mod 4)%nat 0.

Definition addAvpStr (v : bytes) (code : Z) (s : bytes) : bytes :=
  let len := u32 (8 + Z.of_nat (length s)) in
  pad4 (v ++ be32 code ++ [0x40]
          ++ [u8 (Z.land (Z.shiftr len 16) 0xFF); u8 (Z.land (Z.shiftr len 8) 0xFF); u8 (Z.land len 0xFF)]
          ++ s).

(** The AVPs made when the caller gives none; [sid] is the session's number. *)
Definition default_avps (src_ip dst_ip sid : Z) : bytes :=
  let v := addAvpStr [] 263 (diamIdentity src_ip ++ [59] ++ to_string sid) in
  let v := addAvpStr v 264 (diamIdentity src_ip) in
  let v := addAvpStr v 296 (diamRealm src_ip) in
  addAvpStr v 283 (diamRealm dst_ip).

Definition be24 (v : Z) : bytes :=
  [u8 (Z.land (Z.shiftr v 16) 0xFF); u8 (Z.land (Z.shiftr v 8) 0xFF); u8 (Z.land v 0xFF)].

Definition diameter_frame (cmd : DiameterCmd) (app : DiameterApp) (is_request : bool) (id : Z)
    (avps : bytes) : bytes :=
  [0x01] ++ be24 (u32 (20 + Z.of_nat (length avps))) ++ [if is_request then 0xC0 else 0x40]
  ++ be24 (DiameterCmd_code cmd) ++ be32 (DiameterApp_code app) ++ be32 id ++ be32 id ++ avps.

(** ** The writer *)

Section Writer.

(** The clock, in microseconds, at the [n]-th packet. *)
Variable now_us : nat -> Z.

(** The operations thread the writer's state. *)
Definition St (A : Type) : Type := PcapWriter -> A * PcapWriter.

Definition st_write (b : bytes) (w : PcapWriter) : PcapWriter :=
  mkPcap (file_ w ++ b) (pkt_id_ w) (conn_seq_ w) (sctp_seq_ w) (tcp_started_ w) (open_ w) (packets w).

(** [pkt_id_.fetch_add(1)]. *)
Definition next_id : St Z := fun w =>
  (pkt_id_ w, mkPcap (file_ w) (u32 (pkt_id_ w + 1)) (conn_seq_ w) (sctp_seq_ w) (tcp_started_ w)
                (open_ w) (packets w)).

Definition set_conn (m : gmap Z ConnSeq) (w : PcapWriter) : PcapWriter :=
  mkPcap (file_ w) (pkt_id_ w) m (sctp_seq_ w) (tcp_started_ w) (open_ w) (packets w).

(** [open], when the file can be opened: it is truncated. *)
Definition pcap_open (w : PcapWriter) : PcapWriter :=
  mkPcap global_header (pkt_id_ w) ∅ ∅ ∅ true (packets w).

Definition pcap_close (w : PcapWriter) : PcapWriter :=
  mkPcap (file_ w) (pkt_id_ w) (conn_seq_ w) (sctp_seq_ w) (tcp_started_ w) false (packets w).

Definition record_header (us len : Z) : bytes :=
  le32 (u32 (us / 1000000)) ++ le32 (u32 (us mod 1000000)) ++ le32 len ++ le32 len.

Definition writePacket (frame : bytes) (w : PcapWriter) : PcapWriter :=
  if negb (open_ w) then w else
  let len := u32 (Z.of_nat (length frame)) in
  mkPcap (file_ w ++ record_header (now_us (packets w)) len ++ frame) (pkt_id_ w) (conn_seq_ w)
    (sctp_seq_ w) (tcp_started_ w) (open_ w) (S (packets w)).

Definition buildIPTCP (src_ip src_port dst_ip dst_port : Z) (payload : bytes)
    (tcp_flags seq_num ack_num : Z) : St bytes := fun w =>
  let ip_total := u16 (20 + 20 + Z.of_nat (length payload)) in
  let '(id, w) := next_id w in
  let ip := ip_header ip_total (u16 id) 6 src_ip dst_ip in
  let has_ack := negb (tcp_flags =? 0x02) in
  let tcp := be16 src_port ++ be16 dst_port ++ be32 seq_num
             ++ be32 (if has_ack then ack_num else 0) ++ [0x50; tcp_flags] ++ be16 65535
             ++ be16 0 ++ be16 0 in
  (buildEthernet ++ ip ++ tcp ++ payload, w).

Definition buildIPUDP (src_ip src_port dst_ip dst_port : Z) (payload : bytes) : St bytes := fun w =>
  let udp_len := u16 (8 + Z.of_nat (length payload)) in
  let ip_total := u16 (20 + udp_len) in
  let '(id, w) := next_id w in
  let ip := ip_header ip_total (u16 id) 17 src_ip dst_ip in
  let udp := be16 src_port ++ be16 dst_port ++ be16 udp_len ++ be16 0 in
  (buildEthernet ++ ip ++ udp ++ payload, w).

Definition buildIPSCTP (src_ip src_port dst_ip dst_port : Z) (payload : bytes) (ppid : Z) : St bytes :=
  fun w =>
  let n := Z.of_nat (length payload) in
  let chunk_pad := ((4 - (16 + length payload) mod 4) mod 4)%nat in
  let ip_total := u16 (20 + 12 + 16 + n + Z.of_nat chunk_pad) in
  let '(id, w) := next_id w in
  let ip := ip_header ip_total (u16 id) 132 src_ip dst_ip in
  let sctp := be16 src_port ++ be16 dst_port ++ be32 0x12345678 ++ be32 0 in
  let key := connKey src_ip src_port dst_ip dst_port in
  let ss := default newSctpSeq (sctp_seq_ w !! key) in
  let w := mkPcap (file_ w) (pkt_id_ w) (conn_seq_ w)
             (<[key := mkSctp (u32 (tsn ss + 1)) (u16 (ssn ss + 1))]> (sctp_seq_ w))
             (tcp_started_ w) (open_ w) (packets w) in
  let chunk := [0x00; 0x03] ++ be16 (u16 (16 + n)) ++ be32 (tsn ss) ++ be16 0 ++ be16 (ssn ss)
               ++ be32 ppid in
  (buildEthernet ++ ip ++ sctp ++ chunk ++ payload ++ replicate chunk_pad 0, w).

Definition conn_of (key : Z) (w : PcapWriter) : ConnSeq := default newConnSeq (conn_seq_ w !! key).

Definition nextSeq (src_ip src_port dst_ip dst_port : Z) : St Z := fun w =>
  let key := connKey src_ip src_port dst_ip dst_port in
  let cs := conn_of key w in
  (if isClient src_ip src_port dst_ip dst_port then client_seq cs else server_seq cs,
   set_conn (<[key := cs]> (conn_seq_ w)) w).

Definition peerSeq (src_ip src_port dst_ip dst_port : Z) : St Z := fun w =>
  let key := connKey src_ip src_port dst_ip dst_port in
  let cs := conn_of key w in
  (if isClient src_ip src_port dst_ip dst_port then server_seq cs else client_seq cs,
   set_conn (<[key := cs]> (conn_seq_ w)) w).

Definition advanceSeq (src_ip src_port dst_ip dst_port n : Z) (w : PcapWriter) : PcapWriter :=
  let key := connKey src_ip src_port dst_ip dst_port in
  let cs := conn_of key w in
  let cs' := if isClient src_ip src_port dst_ip dst_port
             then mkConn (u32 (client_seq cs + n)) (server_seq cs)
             else mkConn (client_seq cs) (u32 (server_seq cs + n)) in
  set_conn (<[key := cs']> (conn_seq_ w)) w.

Definition ensureTcpHandshake (src_ip src_port dst_ip dst_port : Z) (w : PcapWriter) : PcapWriter :=
  let key := connKey src_ip src_port dst_ip dst_port in
  if bool_decide (key ∈ tcp_started_ w) then w else
  let w := mkPcap (file_ w) (pkt_id_ w) (<[key := mkConn 1000 2000]> (conn_seq_ w)) (sctp_seq_ w)
             ({[key]} ∪ tcp_started_ w) (open_ w) (packets w) in
  let '(syn, w) := buildIPTCP src_ip src_port dst_ip dst_port [] 0x02 1000 0 w in
  let w := writePacket syn w in
  let '(synack, w) := buildIPTCP dst_ip dst_port src_ip src_port [] 0x12 2000 1001 w in
  let w := writePacket synack w in
  let '(ack, w) := buildIPTCP src_ip src_port dst_ip dst_port [] 0x10 1001 2001 w in
  let w := writePacket ack w in
  set_conn (<[key := mkConn 1001 2001]> (conn_seq_ w)) w.

(** The data segment of a message: the common end of [writeDiameter] and
    [writeSIP]. *)
Definition write_segment (src_ip src_port dst_ip dst_port : Z) (payload : bytes) (w : PcapWriter)
    : PcapWriter :=
  let '(seq, w) := nextSeq src_ip src_port dst_ip dst_port w in
  let '(ack, w) := peerSeq src_ip src_port dst_ip dst_port w in
  let '(f, w) := buildIPTCP src_ip src_port dst_ip dst_port payload 0x18 seq ack w in
  let w := writePacket f w in
  advanceSeq src_ip src_port dst_ip dst_port (u32 (Z.of_nat (length payload))) w.

(** The Diameter message a call writes. *)
Definition make_diameter (cmd : DiameterCmd) (app : DiameterApp) (is_request : bool)
    (src_ip dst_ip : Z) (avp_data : bytes) : St bytes := fun w =>
  let '(avps, w) :=
    match avp_data with
    | [] => let '(sid, w) := next_id w in (default_avps src_ip dst_ip sid, w)
    | _ => (avp_data, w)
    end in
  let '(id, w) := next_id w in
  (diameter_frame cmd app is_request id avps, w).

Definition do_writeDiameter (cmd : DiameterCmd) (app : DiameterApp) (is_request : bool)
    (src_ip src_port dst_ip dst_port : Z) (avp_data : bytes) (w : PcapWriter) : PcapWriter :=
  let '(frame, w) := make_diameter cmd app is_request src_ip dst_ip avp_data w in
  let w := ensureTcpHandshake src_ip src_port dst_ip dst_port w in
  write_segment src_ip src_port dst_ip dst_port frame w.

Definition gtp_frame (msg_type : GtpMsgType) (teid s : Z) (ie_data : bytes) : bytes :=
  [0x48; GtpMsgType_code msg_type] ++ be16 (u16 (8 + Z.of_nat (length ie_data))) ++ be32 teid
  ++ be24 s ++ [0x00] ++ ie_data.

Definition do_writeGTPv2 (msg_type : GtpMsgType) (teid src_ip src_port dst_ip dst_port : Z)
    (ie_data : bytes) (w : PcapWriter) : PcapWriter :=
  let '(s, w) := next_id w in
  let '(f, w) := buildIPUDP src_ip PORT_SGW dst_ip PORT_SGW (gtp_frame msg_type teid s ie_data) w in
  writePacket f w.

Definition do_writeSIP (sip_text : bytes) (src_ip src_port dst_ip dst_port : Z) (w : PcapWriter)
    : PcapWriter :=
  let w := ensureTcpHandshake src_ip PORT_SIP dst_ip PORT_SIP w in
  write_segment src_ip src_port dst_ip dst_port sip_text w.

Definition do_writeS1AP (msg_name : bytes) (src_ip src_port dst_ip dst_port : Z) (payload : bytes)
    (w : PcapWriter) : PcapWriter :=
  let '(f, w) := buildIPSCTP src_ip PORT_S1AP dst_ip PORT_S1AP payload 18 w in
  writePacket f w.

(** What a node's call does to the writer. *)
Definition do_call (c : PcapCall) (w : PcapWriter) : PcapWriter :=
  match c with
  | writeS1AP n si sp di dp p => do_writeS1AP n si sp di dp p w
  | writeDiameter cmd app rq si sp di dp => do_writeDiameter cmd app rq si sp di dp [] w
  | writeGTPv2 t teid si sp di dp => do_writeGTPv2 t teid si sp di dp [] w
  end.

End Writer.

(** ** The IPv4 checksum *)

Lemma word_add (h l : Z) : in_u 8 l -> Z.lor (Z.shiftl h 8) l = 256 * h + l.
Proof. intros Hl. rewrite Z.lor_comm, lor_shiftl_add by (exact Hl || lia). lia. Qed.

(** One turn of the folding loop. *)
Lemma fold_turn (s : Z) :
  0 <= s < 2 ^ 32 ->
  let t := Z.land s 0xFFFF + Z.shiftr s 16 in
  0 <= t <= 131070 /\ t mod 65535 = s mod 65535 /\ (0 < s -> 0 < t)
  /\ (s <= 131070 -> t < 65536) /\ (Z.shiftr s 16 = 0 -> s < 65536).
Proof.
  intros Hs. change (2 ^ 32) with 4294967296 in Hs. change 0xFFFF with (Z.ones 16).
  rewrite Z.land_ones, Z.shiftr_div_pow2 by lia. change (2 ^ 16) with 65536. cbv zeta.
  assert (E : s mod 65536 + s / 65536 = s - (s / 65536) * 65535) by div_eqs.
  split; [div_eqs|]. split; [|div_eqs].
  rewrite E, Zminus_mod, Z_mod_mult, Z.sub_0_r, Zmod_mod. reflexivity.
Qed.

(** Folding keeps the sum modulo 2^16 - 1, and ends for any 32-bit sum. *)
Lemma fold_carry_spec (s : Z) :
  0 <= s < 2 ^ 32 ->
  let f := fold_carry 3 s in
  0 <= f < 65536 /\ f mod 65535 = s mod 65535 /\ (0 < s -> 0 < f).
Proof.
  intros Hs. destruct (fold_turn s Hs) as (R1 & M1 & P1 & _ & Z1).
  assert (Hs1 : 0 <= Z.land s 0xFFFF + Z.shiftr s 16 < 2 ^ 32) by (change (2 ^ 32) with 4294967296; lia).
  destruct (fold_turn _ Hs1) as (R2 & M2 & P2 & B2 & Z2).
  unfold fold_carry. destruct (Z.eqb_spec (Z.shiftr s 16) 0) as [E|E]; [lia|].
  set (t := Z.land s 0xFFFF + Z.shiftr s 16) in *.
  destruct (Z.eqb_spec (Z.shiftr t 16) 0) as [E2|E2]; [lia|].
  set (u := Z.land t 0xFFFF + Z.shiftr t 16) in *.
  assert (Hu : Z.shiftr u 16 = 0) by (rewrite Z.shiftr_div_pow2 by lia; apply Z.div_small; lia).
  rewrite Hu. cbn [Z.eqb]. lia.
Qed.

Lemma word_sum_range (buf : bytes) :
  is_bytes buf -> 0 <= word_sum buf <= 65536 * Z.of_nat (length buf).
Proof.
  enough (G : forall n buf, (length buf <= n)%nat -> is_bytes buf ->
                0 <= word_sum buf <= 65536 * Z.of_nat (length buf)) by (apply (G (length buf)); reflexivity).
  intros n. induction n as [|n IH]; intros [|h [|l rest]] Hn Hb; cbn [word_sum length] in *; try lia.
  inversion_clear Hb as [|? ? Hh Hb']. inversion_clear Hb' as [|? ? Hl Hr].
  rewrite word_add by exact Hl. specialize (IH rest ltac:(lia) Hr). unfold in_u in *. lia.
Qed.

(** A header with its checksum in place verifies. *)
Lemma put_checksum_verifies (a b c d e f g h i j k l m n o p q r : Z) :
  let ip := [a; b; c; d; e; f; g; h; i; j; 0; 0; k; l; m; n; o; p; q; r] in
  is_bytes ip -> 0 < a -> ipChecksum (put_checksum ip) = 0.
Proof.
  intros ip Hip Ha. pose proof (word_sum_range ip Hip) as Hr.
  change (Z.of_nat (length ip)) with 20 in Hr. unfold is_bytes, ip in Hip.
  rewrite !Forall_cons_iff in Hip. destruct_and?.
  assert (Hw : forall x y, word_sum [a; b; c; d; e; f; g; h; i; j; x; y; k; l; m; n; o; p; q; r]
                = word_sum ip + Z.lor (Z.shiftl x 8) y)
    by (intros x y; unfold ip; cbn [word_sum]; rewrite !(word_add 0 0) by (unfold in_u; lia); lia).
  assert (Hs : 0 < word_sum ip).
  { unfold ip. cbn [word_sum]. rewrite !word_add by (assumption || (unfold in_u; lia)).
    unfold in_u in *. lia. }
  set (s := word_sum ip) in *. assert (H32 : 0 <= s < 2 ^ 32) by (change (2 ^ 32) with 4294967296; lia).
  destruct (fold_carry_spec s H32) as (F1 & F2 & F3). specialize (F3 Hs).
  assert (Eck : ipChecksum ip = 65535 - fold_carry 3 s).
  { unfold ipChecksum, u32. rewrite (wrap_small 32) by exact H32. fold s.
    set (t := fold_carry 3 s) in *. unfold u16, wrap, Z.lnot. change (2 ^ 16) with 65536.
    rewrite <- (Z.mod_add _ 1) by lia. rewrite Z.mod_small; lia. }
  set (t := fold_carry 3 s) in *.
  unfold put_checksum. rewrite Eck.
  change (ipChecksum [a; b; c; d; e; f; g; h; i; j; Z.land (Z.shiftr (65535 - t) 8) 0xFF; Z.land (65535 - t) 0xFF;
            k; l; m; n; o; p; q; r] = 0).
  change 0xFF with (Z.ones 8). rewrite !Z.land_ones, Z.shiftr_div_pow2 by lia.
  change (2 ^ 8) with 256. unfold ipChecksum, u32.
  rewrite Hw, word_add by (apply (u8_range (65535 - t))).
  replace (256 * ((65535 - t) / 256 mod 256) + (65535 - t) mod 256) with (65535 - t) by div_eqs.
  assert (H32' : 0 <= s + (65535 - t) < 2 ^ 32) by (change (2 ^ 32) with 4294967296; lia).
  rewrite (wrap_small 32) by exact H32'.
  destruct (fold_carry_spec _ H32') as (G1 & G2 & G3).
  set (v := fold_carry 3 (s + (65535 - t))) in *.
  assert (v = 65535) as ->; [|reflexivity].
  assert ((s + (65535 - t)) mod 65535 = 0) as E.
  { replace (s + (65535 - t)) with (s - t + 1 * 65535) by lia.
    rewrite Z.mod_add, Zminus_mod, <- F2, Zminus_diag by lia. reflexivity. }
  rewrite E in G2. assert (0 < v) by lia. div_eqs.
Qed.

Lemma u16_value (z : Z) : in_u 16 z -> 256 * u8 (Z.shiftr z 8) + u8 z = z.
Proof.
  intros Hz. unfold_u. rewrite Z.shiftr_div_pow2 by lia. change (2 ^ 8) with 256 in *.
  change (2 ^ 16) with 65536 in Hz. div_eqs.
Qed.

(** A frame whose IPv4 header verifies and states its length. *)
Definition ip_ok (f : bytes) : Prop :=
  let ip := drop 14 f in
  ipChecksum (take 20 ip) = 0 /\ 256 * nth 2 ip 0 + nth 3 ip 0 = Z.of_nat (length ip).

Lemma ip_header_shape (total id proto src_ip dst_ip : Z) :
  exists x y, ip_header total id proto src_ip dst_ip =
    [0x45; 0x00] ++ be16 total ++ be16 id ++ be16 0x4000 ++ [64; proto] ++ [x; y]
    ++ be32 src_ip ++ be32 dst_ip.
Proof. eexists _, _. reflexivity. Qed.

Lemma ip_header_verifies (total id proto src_ip dst_ip : Z) :
  in_u 8 proto -> ipChecksum (ip_header total id proto src_ip dst_ip) = 0.
Proof.
  intros Hp. unfold ip_header, ip_zero. apply put_checksum_verifies; [|lia].
  repeat apply List.Forall_cons; try apply List.Forall_nil;
    first [apply u8_range|exact Hp|unfold in_u; lia].
Qed.

Lemma ip_frame_ok (total id proto src_ip dst_ip : Z) (rest : bytes) :
  in_u 8 proto -> total = Z.of_nat (20 + length rest) -> in_u 16 total ->
  ip_ok (buildEthernet ++ ip_header total id proto src_ip dst_ip ++ rest).
Proof.
  intros Hp Hl Ht. unfold ip_ok. change (drop 14 (buildEthernet ++ ?x)) with x.
  pose proof (ip_header_verifies total id proto src_ip dst_ip Hp) as Hv.
  destruct (ip_header_shape total id proto src_ip dst_ip) as (x & y & E). rewrite E in *.
  split; [exact Hv|].
  change (256 * u8 (Z.shiftr total 8) + u8 total = Z.of_nat (20 + length rest)).
  rewrite u16_value by exact Ht. exact Hl.
Qed.

Definition small (payload : bytes) : Prop := Z.of_nat (length payload) <= 65000.

Ltac frame_ok :=
  rewrite <- ?app_assoc; apply ip_frame_ok;
  [ unfold in_u; lia
  | rewrite u16_small by (unfold in_u, small in *; change (2 ^ 16) with 65536; lia);
    unfold be16, be32; rewrite ?length_app, ?length_replicate; cbn [length]; lia
  | apply u16_range ].

Lemma buildIPTCP_ok si sp di dp payload flags sq ak w :
  small payload -> ip_ok (buildIPTCP si sp di dp payload flags sq ak w).1.
Proof. intros Hs. unfold buildIPTCP, next_id. cbn [fst]. frame_ok. Qed.

Lemma buildIPUDP_ok si sp di dp payload w :
  small payload -> ip_ok (buildIPUDP si sp di dp payload w).1.
Proof.
  intros Hs. unfold buildIPUDP, next_id. cbn [fst].
  assert (E : u16 (8 + Z.of_nat (length payload)) = 8 + Z.of_nat (length payload))
    by (apply u16_small; unfold in_u, small in *; change (2 ^ 16) with 65536; lia).
  rewrite E. frame_ok.
Qed.

(** The padded chunk is a whole number of 32-bit words. *)
Lemma chunk_pad_words (n : nat) : ((n + (4 - n mod 4) mod 4) mod 4 = 0 /\ (4 - n mod 4) mod 4 < 4)%nat.
Proof.
  pose proof (Nat.mod_upper_bound n 4 ltac:(lia)) as H.
  split; [|apply Nat.mod_upper_bound; lia].
  rewrite (Nat.div_mod_eq n 4) at 1. set (r := (n mod 4)%nat) in *. set (q := (n / 4)%nat).
  destruct r as [|[|[|[|r]]]]; try lia; cbn [Nat.sub]; 
    match goal with |- context [(?a mod 4)%nat] => idtac end;
    rewrite <- ?Nat.add_assoc, Nat.mul_comm; rewrite Nat.add_comm, Nat.Div0.mod_add; reflexivity.
Qed.

Lemma buildIPSCTP_ok si sp di dp payload ppid w :
  small payload -> ip_ok (buildIPSCTP si sp di dp payload ppid w).1.
Proof.
  intros Hs. unfold buildIPSCTP, next_id. cbn [fst].
  destruct (chunk_pad_words (16 + length payload)) as [_ Hp].
  set (pad := ((4 - (16 + length payload) mod 4) mod 4)%nat) in *. frame_ok.
Qed.

(** ** Reading the file back *)

(** The records of a capture: the frames, or [None] when it is cut. *)
Fixpoint read_records (fuel : nat) (b : bytes) : option (list bytes) :=
  match fuel with
  | O => None
  | S fuel' =>
      match b with
      | [] => Some []
      | _ :: _ :: _ :: _ :: _ :: _ :: _ :: _ :: l0 :: l1 :: l2 :: l3 :: _ :: _ :: _ :: _ :: rest =>
          let len := Z.to_nat (from_le32 l0 l1 l2 l3) in
          if (length rest <? len)%nat then None
          else (take len rest ::.) <$> read_records fuel' (drop len rest)
      | _ => None
      end
  end.

Definition read_pcap (b : bytes) : option (list bytes) :=
  if decide (take 24 b = global_header) then read_records (S (length b)) (drop 24 b) else None.

(** What the writer has written: times and frames. *)
Definition records (l : list (Z * bytes)) : bytes :=
  concat (map (fun '(us, f) => record_header us (u32 (Z.of_nat (length f))) ++ f) l).

Lemma records_app (l1 l2 : list (Z * bytes)) : records (l1 ++ l2) = records l1 ++ records l2.
Proof. unfold records. rewrite map_app, concat_app. reflexivity. Qed.

Lemma read_records_spec (l : list (Z * bytes)) (fuel : nat) :
  Forall (fun '(_, f) => Z.of_nat (length f) < 2 ^ 32) l -> (length (records l) < fuel)%nat ->
  read_records fuel (records l) = Some (map snd l).
Proof.
  intros Hl. revert fuel. induction Hl as [|[us f] l Hf Hl IH]; intros fuel Hfuel.
  - destruct fuel; [lia|reflexivity].
  - unfold records in *. cbn [map concat] in *.
    rewrite u32_small by (unfold in_u; lia). rewrite <- app_assoc.
    set (tail := concat _) in *. unfold record_header, le32 in *. cbn [app] in *.
    destruct fuel as [|fuel]; [cbn in Hfuel; lia|]. cbn [read_records].
    change (from_le32 _ _ _ _) with (from_le32 (u8 (Z.of_nat (length f)))
      (u8 (Z.shiftr (Z.of_nat (length f)) 8)) (u8 (Z.shiftr (Z.of_nat (length f)) 16))
      (u8 (Z.shiftr (Z.of_nat (length f)) 24))).
    rewrite le32_roundtrip by (unfold in_u; lia). rewrite Nat2Z.id.
    replace (_ <? _)%nat with false by (symmetry; apply Nat.ltb_ge; rewrite length_app; lia).
    rewrite take_app_length, drop_app_length, IH; [reflexivity|].
    cbn [length] in Hfuel. rewrite !length_app in Hfuel. lia.
Qed.

(** ** What each operation adds to the file *)

Definition good (f : bytes) : Prop := ip_ok f /\ Z.of_nat (length f) < 2 ^ 32.

(** An open writer with sound counters. *)
Definition ready (w : PcapWriter) : Prop := open_ w = true /\ in_u 32 (pkt_id_ w).

(** The protocol of a frame's packet, and the transmission number of an SCTP
    data chunk. *)
Definition frame_proto (f : bytes) : Z := nth 23 f 0.
Definition frame_tsn (f : bytes) : Z :=
  from_le32 (nth 53 f 0) (nth 52 f 0) (nth 51 f 0) (nth 50 f 0).

(** From a ready writer to one, the file grown by at least [n] good frames;
    when [sctp] is false, none of them is SCTP and no counter of SCTP moved. *)
Definition grows (sctp : bool) (n : nat) (w w' : PcapWriter) : Prop :=
  ready w -> ready w' /\ (sctp = false -> sctp_seq_ w' = sctp_seq_ w)
             /\ exists l, file_ w' = file_ w ++ records l
               /\ Forall good (map snd l) /\ (n <= length l)%nat
               /\ (sctp = false -> Forall (fun f => frame_proto f <> 132) (map snd l)).

Lemma grows_trans (b : bool) (n m : nat) (w1 w2 w3 : PcapWriter) :
  grows b n w1 w2 -> grows b m w2 w3 -> grows b (n + m) w1 w3.
Proof.
  intros H1 H2 Hw. destruct (H1 Hw) as (Hw2 & S1 & l1 & E1 & G1 & N1 & P1).
  destruct (H2 Hw2) as (Hw3 & S2 & l2 & E2 & G2 & N2 & P2). split; [exact Hw3|].
  split; [intros Hb; rewrite S2, S1; auto|].
  exists (l1 ++ l2). rewrite E2, E1, <- app_assoc, records_app.
  split; [reflexivity|]. rewrite map_app, length_app. split; [apply Forall_app; auto|].
  split; [lia|]. intros Hb. apply Forall_app; auto.
Qed.

(** An operation that leaves the file, the flag and the SCTP counters alone. *)
Lemma grows_quiet (b : bool) (w w' : PcapWriter) :
  file_ w' = file_ w -> open_ w' = open_ w -> sctp_seq_ w' = sctp_seq_ w ->
  (in_u 32 (pkt_id_ w) -> in_u 32 (pkt_id_ w')) -> grows b 0 w w'.
Proof.
  intros Ef Eo Es Hi [Ho Hp]. split; [split; [congruence|auto]|]. split; [auto|]. exists []. rewrite Ef.
  split; [symmetry; apply app_nil_r|]. split; [constructor|]. split; [reflexivity|constructor].
Qed.

Lemma grows_write (b : bool) (now_us : nat -> Z) (f : bytes) (w : PcapWriter) :
  good f -> (b = false -> frame_proto f <> 132) -> grows b 1 w (writePacket now_us f w).
Proof.
  intros Hf Hb [Ho Hp]. unfold writePacket. rewrite Ho. cbn [negb].
  split; [split; [reflexivity|exact Hp]|]. split; [reflexivity|].
  exists [(now_us (packets w), f)]. cbn [file_]. unfold records; cbn [map concat]. rewrite app_nil_r.
  split; [reflexivity|]. split; [repeat constructor; apply Hf|]. split; [reflexivity|].
  intros E. repeat constructor. auto.
Qed.

Lemma ip_header_length total id proto src_ip dst_ip :
  length (ip_header total id proto src_ip dst_ip) = 20%nat.
Proof. destruct (ip_header_shape total id proto src_ip dst_ip) as (x & y & ->). reflexivity. Qed.

(** The frames are not much longer than their payloads. *)
Ltac frame_length :=
  cbn [fst]; rewrite !length_app, ip_header_length, ?length_replicate; unfold be16, be32;
  cbn [length buildEthernet replicate app]; lia.

Lemma buildIPTCP_length si sp di dp payload flags sq ak w :
  length (buildIPTCP si sp di dp payload flags sq ak w).1 = (54 + length payload)%nat.
Proof. unfold buildIPTCP, next_id. frame_length. Qed.

Lemma buildIPUDP_length si sp di dp payload w :
  length (buildIPUDP si sp di dp payload w).1 = (42 + length payload)%nat.
Proof. unfold buildIPUDP, next_id. frame_length. Qed.

Lemma buildIPSCTP_length si sp di dp payload ppid w :
  (length (buildIPSCTP si sp di dp payload ppid w).1 < 70 + length payload)%nat.
Proof.
  unfold buildIPSCTP, next_id. destruct (chunk_pad_words (16 + length payload)) as [_ Hp]. frame_length.
Qed.

Lemma good_frame (f payload : bytes) :
  small payload -> ip_ok f -> (length f <= 100 + length payload)%nat -> good f.
Proof. unfold small. intros Hs Hok Hl. split; [exact Hok|]. change (2 ^ 32) with 4294967296. lia. Qed.

Lemma frame_proto_header total id proto si di rest :
  frame_proto (buildEthernet ++ ip_header total id proto si di ++ rest) = proto.
Proof. destruct (ip_header_shape total id proto si di) as (x & y & ->). reflexivity. Qed.

Definition bump (w : PcapWriter) : PcapWriter := (next_id w).2.

Lemma grows_bump (b : bool) (w : PcapWriter) : grows b 0 w (bump w).
Proof. apply grows_quiet; [reflexivity..|]. intros _. apply u32_range. Qed.

(** A frame built and written. *)
Lemma grows_built (b : bool) (now_us : nat -> Z) (w w2 : PcapWriter) (f : bytes) :
  good f -> (b = false -> frame_proto f <> 132) -> file_ w2 = file_ w -> open_ w2 = open_ w ->
  (b = false -> sctp_seq_ w2 = sctp_seq_ w) -> pkt_id_ w2 = u32 (pkt_id_ w + 1) ->
  grows b 1 w (writePacket now_us f w2).
Proof.
  intros Hf Hb Ef Eo Es Ei Hw.
  assert (Hw2 : ready w2) by (split; [rewrite Eo; apply Hw|rewrite Ei; apply u32_range]).
  destruct (grows_write b now_us f w2 Hf Hb Hw2) as (H1 & H2 & l & H3 & H4).
  split; [exact H1|]. split; [intros E; rewrite H2 by exact E; auto|].
  exists l. rewrite H3, Ef. auto.
Qed.

Lemma grows_tcp (b : bool) (now_us : nat -> Z) si sp di dp payload flags sq ak (w : PcapWriter) :
  small payload ->
  grows b 1 w (let '(f, w2) := buildIPTCP si sp di dp payload flags sq ak w in writePacket now_us f w2).
Proof.
  intros Hs. apply (grows_built b now_us w (bump w)); [|intros _|reflexivity..].
  - exact (good_frame _ payload Hs (buildIPTCP_ok si sp di dp payload flags sq ak w Hs)
             ltac:(rewrite buildIPTCP_length; lia)).
  - rewrite frame_proto_header. discriminate.
Qed.

Lemma grows_udp (b : bool) (now_us : nat -> Z) si sp di dp payload (w : PcapWriter) :
  small payload ->
  grows b 1 w (let '(f, w2) := buildIPUDP si sp di dp payload w in writePacket now_us f w2).
Proof.
  intros Hs. apply (grows_built b now_us w (bump w)); [|intros _|reflexivity..].
  - exact (good_frame _ payload Hs (buildIPUDP_ok si sp di dp payload w Hs)
             ltac:(rewrite buildIPUDP_length; lia)).
  - rewrite frame_proto_header. discriminate.
Qed.

Lemma good_sctp si sp di dp payload ppid (w : PcapWriter) :
  small payload -> good (buildIPSCTP si sp di dp payload ppid w).1.
Proof.
  intros Hs. apply (good_frame _ payload Hs (buildIPSCTP_ok si sp di dp payload ppid w Hs)).
  pose proof (buildIPSCTP_length si sp di dp payload ppid w). lia.
Qed.

Lemma grows_sctp (now_us : nat -> Z) si sp di dp payload ppid (w : PcapWriter) :
  small payload ->
  grows true 1 w (let '(f, w2) := buildIPSCTP si sp di dp payload ppid w in writePacket now_us f w2).
Proof.
  intros Hs. pose proof (good_sctp si sp di dp payload ppid w Hs) as Hg.
  destruct (buildIPSCTP si sp di dp payload ppid w) as [f w2] eqn:E.
  apply grows_built; [exact Hg|discriminate|injection E as _ <-; reflexivity..| |];
    [discriminate|injection E as _ <-; reflexivity].
Qed.

Lemma small_nil : small [].
Proof. unfold small. cbn. lia. Qed.

Lemma grows_le (b : bool) (n m : nat) (w w' : PcapWriter) : grows b n w w' -> (m <= n)%nat -> grows b m w w'.
Proof.
  intros H Hm Hw. destruct (H Hw) as (Hw' & S & l & E & G & N & P).
  split; [exact Hw'|]. split; [exact S|]. exists l. split; [exact E|]. split; [exact G|]. split; [lia|exact P].
Qed.

Lemma grows_handshake (b : bool) (now_us : nat -> Z) si sp di dp (w : PcapWriter) :
  grows b 0 w (ensureTcpHandshake now_us si sp di dp w).
Proof.
  unfold ensureTcpHandshake. destruct (bool_decide _); [apply grows_quiet; auto|].
  set (w0 := mkPcap _ _ (<[_ := mkConn 1000 2000]> _) _ _ _ _).
  pose proof (grows_tcp b now_us si sp di dp [] 0x02 1000 0 w0 small_nil) as G1.
  destruct (buildIPTCP si sp di dp [] 0x02 1000 0 w0) as [f1 w1]. set (v1 := writePacket now_us f1 w1) in *.
  pose proof (grows_tcp b now_us di dp si sp [] 0x12 2000 1001 v1 small_nil) as G2.
  destruct (buildIPTCP di dp si sp [] 0x12 2000 1001 v1) as [f2 w2]. set (v2 := writePacket now_us f2 w2) in *.
  pose proof (grows_tcp b now_us si sp di dp [] 0x10 1001 2001 v2 small_nil) as G3.
  destruct (buildIPTCP si sp di dp [] 0x10 1001 2001 v2) as [f3 w3]. set (v3 := writePacket now_us f3 w3) in *.
  apply (grows_le b 3); [|lia]. apply (grows_trans b 0 3 w w0); [apply grows_quiet; auto|].
  apply (grows_trans b 1 2 w0 v1); [exact G1|]. apply (grows_trans b 1 1 v1 v2); [exact G2|].
  apply (grows_trans b 1 0 v2 v3); [exact G3|]. apply grows_quiet; auto.
Qed.

Lemma grows_segment (b : bool) (now_us : nat -> Z) si sp di dp payload (w : PcapWriter) :
  small payload -> grows b 1 w (write_segment now_us si sp di dp payload w).
Proof.
  intros Hs. unfold write_segment, nextSeq, peerSeq.
  set (w1 := set_conn _ w). set (w2 := set_conn _ w1).
  set (sq := if isClient si sp di dp then _ else _). set (ak := if isClient si sp di dp then _ else _).
  pose proof (grows_tcp b now_us si sp di dp payload 0x18 sq ak w2 Hs) as G.
  destruct (buildIPTCP si sp di dp payload 0x18 sq ak w2) as [f w3]. set (v := writePacket now_us f w3) in *.
  apply (grows_trans b 0 1 w w2); [apply grows_quiet; auto|].
  apply (grows_trans b 1 0 w2 v); [exact G|]. apply grows_quiet; auto.
Qed.

(** ** Diameter messages *)

Lemma identity_length (ip : Z) : (length (diamIdentity ip) <= 41)%nat /\ (length (diamRealm ip) <= 41)%nat.
Proof.
  unfold diamIdentity, diamRealm.
  split; repeat match goal with |- context [if ?b then _ else _] => destruct b end; cbn; lia.
Qed.

Lemma dec_loop_length (fuel : nat) (n : Z) (acc : bytes) :
  (length (dec_loop fuel n acc) <= fuel + length acc)%nat.
Proof.
  revert n acc. induction fuel as [|fuel IH]; intros n acc; cbn [dec_loop]; [lia|].
  destruct (n / 10 =? 0); [cbn [length]; lia|]. etransitivity; [apply IH|]. cbn [length]. lia.
Qed.

Lemma to_string_short (n : Z) : in_u 32 n -> (length (to_string n) <= 33)%nat.
Proof.
  intros Hn. unfold to_string. etransitivity; [apply dec_loop_length|]. cbn [length].
  assert (Z.log2 n < 32); [|lia].
  destruct (Z.eq_dec n 0) as [->|H0]; [cbn; lia|]. apply Z.log2_lt_pow2; unfold in_u in Hn; lia.
Qed.

Lemma addAvpStr_length (v : bytes) (code : Z) (s : bytes) :
  (length (addAvpStr v code s) <= length v + length s + 11)%nat.
Proof.
  unfold addAvpStr, pad4. set (l := v ++ _).
  assert (length l = length v + length s + 8)%nat
    by (unfold l, be32; rewrite !length_app; cbn [length]; lia).
  rewrite length_app, length_replicate. destruct (chunk_pad_words (length l)) as [_ H4]. lia.
Qed.

Lemma default_avps_length (si di sid : Z) : in_u 32 sid -> (length (default_avps si di sid) <= 300)%nat.
Proof.
  intros Hs. unfold default_avps. pose proof (to_string_short sid Hs).
  destruct (identity_length si) as [I1 R1]. destruct (identity_length di) as [_ R2].
  set (v1 := addAvpStr [] _ _). pose proof (addAvpStr_length [] 263 (diamIdentity si ++ [59] ++ to_string sid)) as H1.
  fold v1 in H1. rewrite !length_app in H1. cbn [length] in H1.
  set (v2 := addAvpStr v1 264 (diamIdentity si)).
  pose proof (addAvpStr_length v1 264 (diamIdentity si)) as H2. fold v2 in H2.
  set (v3 := addAvpStr v2 296 (diamRealm si)).
  pose proof (addAvpStr_length v2 296 (diamRealm si)) as H3. fold v3 in H3.
  pose proof (addAvpStr_length v3 283 (diamRealm di)). lia.
Qed.

Lemma diameter_frame_length cmd app rq id avps :
  length (diameter_frame cmd app rq id avps) = (20 + length avps)%nat.
Proof. unfold diameter_frame, be24, be32. rewrite !length_app. cbn [length]. lia. Qed.

(** The message of a call without AVPs of its own takes two identifiers. *)
Lemma make_diameter_default cmd app rq si di (w : PcapWriter) :
  make_diameter cmd app rq si di [] w =
  (diameter_frame cmd app rq (u32 (pkt_id_ w + 1)) (default_avps si di (pkt_id_ w)), bump (bump w)).
Proof. reflexivity. Qed.

Definition dia_message cmd app rq si di (w : PcapWriter) : bytes :=
  diameter_frame cmd app rq (u32 (pkt_id_ w + 1)) (default_avps si di (pkt_id_ w)).

Lemma write_diameter_eq now_us cmd app rq si sp di dp (w : PcapWriter) :
  do_writeDiameter now_us cmd app rq si sp di dp [] w =
  write_segment now_us si sp di dp (dia_message cmd app rq si di w)
    (ensureTcpHandshake now_us si sp di dp (bump (bump w))).
Proof. unfold do_writeDiameter. rewrite make_diameter_default. reflexivity. Qed.

Lemma dia_message_small cmd app rq si di (w : PcapWriter) :
  in_u 32 (pkt_id_ w) -> small (dia_message cmd app rq si di w).
Proof.
  intros Hw. unfold small, dia_message. rewrite diameter_frame_length.
  pose proof (default_avps_length si di (pkt_id_ w) Hw). lia.
Qed.

Lemma grows_diameter (b : bool) (now_us : nat -> Z) cmd app rq si sp di dp (w : PcapWriter) :
  grows b 1 w (do_writeDiameter now_us cmd app rq si sp di dp [] w).
Proof.
  intros Hw. rewrite write_diameter_eq. pose proof (dia_message_small cmd app rq si di w (proj2 Hw)) as Hs.
  apply (grows_trans b 0 1 _ _ _ (grows_bump b w)); [|exact Hw].
  apply (grows_trans b 0 1 _ _ _ (grows_bump b _)).
  apply (grows_trans b 0 1 _ _ _ (grows_handshake b now_us si sp di dp _)). apply grows_segment. exact Hs.
Qed.

Lemma grows_gtp (b : bool) (now_us : nat -> Z) t teid si sp di dp (w : PcapWriter) :
  grows b 1 w (do_writeGTPv2 now_us t teid si sp di dp [] w).
Proof.
  unfold do_writeGTPv2. change (next_id w) with (pkt_id_ w, bump w). cbv iota.
  apply (grows_trans b 0 1 _ _ _ (grows_bump b w)). apply grows_udp. unfold small, gtp_frame. cbn. lia.
Qed.

Definition small_call (c : PcapCall) : Prop :=
  match c with writeS1AP _ _ _ _ _ p => small p | _ => True end.

Lemma grows_call (now_us : nat -> Z) (c : PcapCall) (w : PcapWriter) :
  small_call c -> grows true 1 w (do_call now_us c w).
Proof.
  destruct c; cbn [small_call do_call]; intros Hs;
    [apply grows_sctp; exact Hs|apply grows_diameter|apply grows_gtp].
Qed.

(** A run of the writer. *)
Definition do_calls (now_us : nat -> Z) (cs : list PcapCall) (w : PcapWriter) : PcapWriter :=
  foldl (fun w c => do_call now_us c w) w cs.

Lemma grows_calls (now_us : nat -> Z) (cs : list PcapCall) (w : PcapWriter) :
  Forall small_call cs -> grows true (length cs) w (do_calls now_us cs w).
Proof.
  intros Hcs. revert w. induction Hcs as [|c cs Hc Hcs IH]; intros w; [apply grows_quiet; auto|].
  apply (grows_trans true 1 (length cs) w (do_call now_us c w)); [apply grows_call; exact Hc|apply IH].
Qed.

(** ** The SCTP association of S1AP *)

Definition s1_key : Z := connKey IP_ENB PORT_S1AP IP_MME PORT_S1AP.
Definition tsn_of (w : PcapWriter) : Z := tsn (default newSctpSeq (sctp_seq_ w !! s1_key)).

(** The S1AP calls go between the eNB and the MME. *)
Definition s1_call (c : PcapCall) : Prop :=
  match c with
  | writeS1AP _ si _ di _ p =>
      small p /\ ((si = IP_ENB /\ di = IP_MME) \/ (si = IP_MME /\ di = IP_ENB))
  | _ => True
  end.

Definition is_s1ap (c : PcapCall) : bool := match c with writeS1AP _ _ _ _ _ _ => true | _ => false end.
Definition is_sctp (f : bytes) : bool := frame_proto f =? 132.
Definition s1ap_count (cs : list PcapCall) : nat := length (List.filter is_s1ap cs).

Lemma be32_value (v : Z) : in_u 32 v ->
  from_le32 (u8 v) (u8 (Z.shiftr v 8)) (u8 (Z.shiftr v 16)) (u8 (Z.shiftr v 24)) = v.
Proof. apply le32_roundtrip. Qed.

Lemma sctp_frame_fields si sp di dp payload ppid (w : PcapWriter) :
  let key := connKey si sp di dp in
  let t := tsn (default newSctpSeq (sctp_seq_ w !! key)) in
  in_u 32 t ->
  frame_proto (buildIPSCTP si sp di dp payload ppid w).1 = 132
  /\ frame_tsn (buildIPSCTP si sp di dp payload ppid w).1 = t.
Proof.
  intros key t Ht. unfold buildIPSCTP, next_id. cbn [fst]. split; [apply frame_proto_header|].
  match goal with |- context [ip_header ?a ?b ?c ?d ?e] => destruct (ip_header_shape a b c d e) as (x & y & ->) end.
  fold key. unfold frame_tsn, be16, be32. cbn [nth app buildEthernet replicate].
  exact (be32_value t Ht).
Qed.

(** One call: at most one SCTP frame, numbered with the association's counter. *)
Definition numbered (c : PcapCall) (w w' : PcapWriter) : Prop :=
  exists l, file_ w' = file_ w ++ records l /\ Forall good (map snd l)
    /\ map frame_tsn (List.filter is_sctp (map snd l)) = (if is_s1ap c then [tsn_of w] else [])
    /\ tsn_of w' = if is_s1ap c then u32 (tsn_of w + 1) else tsn_of w.

Lemma no_sctp (fs : list bytes) :
  Forall (fun f => frame_proto f <> 132) fs -> List.filter is_sctp fs = [].
Proof.
  intros H. induction H as [|f fs Hf _ IH]; [reflexivity|]. cbn [List.filter].
  unfold is_sctp at 1. rewrite (proj2 (Z.eqb_neq _ _) Hf). exact IH.
Qed.

Lemma numbered_call (now_us : nat -> Z) (c : PcapCall) (w : PcapWriter) :
  s1_call c -> ready w -> in_u 32 (tsn_of w) -> ready (do_call now_us c w) /\ numbered c w (do_call now_us c w).
Proof.
  intros Hc Hw Ht.
  assert (K : forall w', grows false 1 w w' -> is_s1ap c = false -> ready w' /\ numbered c w w').
  { intros w' G E. destruct (G Hw) as (Hw' & Hs & l & Ef & Hg & _ & Hp). split; [exact Hw'|].
    exists l. rewrite E, (no_sctp _ (Hp eq_refl)). unfold tsn_of. rewrite (Hs eq_refl). auto. }
  destruct c as [nm si sp di dp p|cmd app rq si sp di dp|ty teid si sp di dp]; cbn [do_call];
    [|apply K; [apply grows_diameter|reflexivity]|apply K; [apply grows_gtp|reflexivity]].
  destruct Hc as [Hs Hends].
  assert (Hk : connKey si PORT_S1AP di PORT_S1AP = s1_key) by (destruct Hends as [[-> ->]|[-> ->]]; reflexivity).
  destruct (grows_sctp now_us si PORT_S1AP di PORT_S1AP p 18 w Hs Hw) as (Hw' & _).
  split; [exact Hw'|]. clear Hw'.
  pose proof (good_sctp si PORT_S1AP di PORT_S1AP p 18 w Hs) as Hg.
  pose proof (sctp_frame_fields si PORT_S1AP di PORT_S1AP p 18 w) as Hf. rewrite Hk in Hf.
  destruct (Hf Ht) as [Hp Hn]. unfold do_writeS1AP, numbered, writePacket.
  destruct (buildIPSCTP si PORT_S1AP di PORT_S1AP p 18 w) as [f w2] eqn:E. cbn [fst] in *.
  injection E as _ E. rewrite Hk in E. rewrite <- E. cbn [open_]. rewrite (proj1 Hw). cbn [negb file_].
  exists [(now_us (packets w), f)]. unfold records. cbn [map snd concat List.filter].
  unfold is_sctp. rewrite Hp, Z.eqb_refl. cbn [map is_s1ap]. rewrite app_nil_r, Hn.
  split; [reflexivity|]. split; [repeat constructor; apply Hg|]. split; [reflexivity|].
  unfold tsn_of at 1. cbn [sctp_seq_]. rewrite lookup_insert_eq. reflexivity.
Qed.

Lemma numbered_calls (now_us : nat -> Z) (cs : list PcapCall) (w : PcapWriter) :
  Forall s1_call cs -> ready w -> in_u 32 (tsn_of w) ->
  exists l, file_ (do_calls now_us cs w) = file_ w ++ records l /\ Forall good (map snd l)
    /\ map frame_tsn (List.filter is_sctp (map snd l))
       = map (fun i => u32 (tsn_of w + Z.of_nat i)) (seq 0 (s1ap_count cs)).
Proof.
  intros Hcs. revert w. induction Hcs as [|c cs Hc Hcs IH]; intros w Hw Ht.
  - exists []. split; [symmetry; apply app_nil_r|]. split; [constructor|reflexivity].
  - destruct (numbered_call now_us c w Hc Hw Ht) as (Hw' & l1 & E1 & G1 & N1 & T1).
    assert (Ht' : in_u 32 (tsn_of (do_call now_us c w)))
      by (rewrite T1; destruct (is_s1ap c); [apply u32_range|exact Ht]).
    destruct (IH _ Hw' Ht') as (l2 & E2 & G2 & N2).
    exists (l1 ++ l2). unfold do_calls in *. cbn [foldl]. rewrite E2, E1, <- app_assoc, records_app. split; [reflexivity|].
    rewrite map_app. split; [apply Forall_app; auto|].
    rewrite List.filter_app, map_app, N1, N2, T1. unfold s1ap_count. cbn [List.filter].
    destruct (is_s1ap c); [|reflexivity]. cbn [length seq map app].
    rewrite Z.add_0_r, (u32_small (tsn_of w)) by exact Ht. f_equal. rewrite <- seq_shift, map_map.
    apply map_ext. intros i. rewrite <- u32_succ. unfold u32, wrap.
    rewrite !Zplus_mod_idemp_l. f_equal. lia.
Qed.

(** ** Reading Diameter attributes back *)

(** The attributes of a message: code and value, each padded to a word. *)
Fixpoint read_avps (fuel : nat) (b : bytes) : option (list (Z * bytes)) :=
  match fuel with
  | O => None
  | S fuel' =>
      match b with
      | [] => Some []
      | c3 :: c2 :: c1 :: c0 :: _ :: l2 :: l1 :: l0 :: rest =>
          let n := Z.to_nat (l2 * 65536 + l1 * 256 + l0 - 8) in
          if (length rest <? n)%nat then None
          else ((from_le32 c0 c1 c2 c3, take n rest) ::.)
                 <$> read_avps fuel' (drop (n + (4 - (8 + n) mod 4) mod 4)%nat rest)
      | _ => None
      end
  end.

(** One attribute, with its padding. *)
Definition avp (code : Z) (s : bytes) : bytes := addAvpStr [] code s.

Lemma avp_words (code : Z) (s : bytes) : (length (avp code s) mod 4 = 0)%nat.
Proof.
  unfold avp, addAvpStr, pad4. rewrite length_app, length_replicate. apply chunk_pad_words.
Qed.

Lemma addAvpStr_app (v : bytes) (code : Z) (s : bytes) :
  (length v mod 4 = 0)%nat -> addAvpStr v code s = v ++ avp code s.
Proof.
  intros Hv. unfold avp, addAvpStr, pad4. cbn [app]. set (l := be32 code ++ _).
  rewrite length_app, <- app_assoc. do 3 f_equal.
  rewrite <- Nat.Div0.add_mod_idemp_l, Hv. reflexivity.
Qed.

Lemma len24 (z : Z) : 0 <= z < 2 ^ 24 ->
  u8 (Z.land (Z.shiftr (u32 z) 16) 0xFF) * 65536 + u8 (Z.land (Z.shiftr (u32 z) 8) 0xFF) * 256
  + u8 (Z.land (u32 z) 0xFF) = z.
Proof.
  intros Hz. change 0xFF with (Z.ones 8). rewrite !Z.land_ones, !Z.shiftr_div_pow2 by lia.
  unfold_u. change (2 ^ 8) with 256. change (2 ^ 16) with 65536. change (2 ^ 32) with 4294967296.
  change (2 ^ 24) with 16777216 in Hz. div_eqs.
Qed.

Lemma read_avp (code : Z) (s tail : bytes) (fuel : nat) :
  in_u 32 code -> Z.of_nat (length s) < 65536 ->
  read_avps (S fuel) (avp code s ++ tail) = ((code, s) ::.) <$> read_avps fuel tail.
Proof.
  intros Hc Hs. set (n := length s).
  assert (E : avp code s = be32 code ++ [0x40] ++ be24 (u32 (8 + Z.of_nat n)) ++ s
              ++ replicate ((4 - (8 + n) mod 4) mod 4)%nat 0).
  { unfold avp, addAvpStr, pad4, be24. cbn [app]. rewrite length_app.
    change (length (be32 code)) with 4%nat. rewrite <- !app_assoc. reflexivity. }
  rewrite E. unfold be32, be24. cbn [app]. rewrite <- !app_assoc. cbn [read_avps].
  rewrite len24 by (change (2 ^ 24) with 16777216; lia).
  replace (Z.to_nat (8 + Z.of_nat n - 8)) with n by lia.
  replace (_ <? n)%nat with false by (symmetry; apply Nat.ltb_ge; rewrite !length_app; fold n; lia).
  rewrite be32_value by exact Hc. rewrite take_app_length' by reflexivity.
  do 2 f_equal. rewrite app_assoc, drop_app_length'; [reflexivity|].
  rewrite length_app, length_replicate. reflexivity.
Qed.

Lemma tsn_open : tsn_of (pcap_open newPcapWriter) = 0.
Proof. unfold tsn_of. cbn [sctp_seq_ pcap_open]. rewrite lookup_empty. reflexivity. Qed.

(** An opened file to which records were added reads back to their frames. *)
Lemma read_captured (w : PcapWriter) (l : list (Z * bytes)) :
  file_ w = file_ (pcap_open newPcapWriter) ++ records l -> Forall good (map snd l) ->
  read_pcap (file_ w) = Some (map snd l).
Proof.
  intros E G. rewrite E. unfold read_pcap. cbn [file_ pcap_open].
  change (take 24 (global_header ++ records l)) with global_header. rewrite decide_True by reflexivity.
  change (drop 24 (global_header ++ records l)) with (records l).
  apply read_records_spec; [|rewrite length_app; lia].
  rewrite Forall_map in G. eapply Forall_impl; [|exact G]. intros [us f] Hf. apply Hf.
Qed.

(** ** The TCP stream of a connection *)

Definition be32_at (k : nat) (f : bytes) : Z :=
  from_le32 (nth (k + 3) f 0) (nth (k + 2) f 0) (nth (k + 1) f 0) (nth k f 0).
Definition frame_src (f : bytes) : Z := be32_at 26 f.
Definition frame_seq (f : bytes) : Z := be32_at 38 f.
Definition frame_ack (f : bytes) : Z := be32_at 42 f.
Definition frame_flags (f : bytes) : Z := nth 47 f 0.
Definition segment_length (f : bytes) : Z := Z.of_nat (length f) - 54.

Lemma tcp_frame_fields si sp di dp payload flags sq ak (w : PcapWriter) :
  in_u 32 si -> in_u 32 sq -> in_u 32 ak ->
  let f := (buildIPTCP si sp di dp payload flags sq ak w).1 in
  frame_src f = si /\ frame_seq f = sq /\ frame_flags f = flags
  /\ frame_ack f = (if flags =? 0x02 then 0 else ak)
  /\ segment_length f = Z.of_nat (length payload).
Proof.
  intros Hi Hs Ha f. unfold segment_length, f. rewrite buildIPTCP_length.
  unfold buildIPTCP, next_id. cbn [fst].
  match goal with |- context [ip_header ?a ?b ?c ?d ?e] => destruct (ip_header_shape a b c d e) as (x & y & ->) end.
  unfold frame_src, frame_seq, frame_ack, frame_flags, be32_at, be16, be32.
  cbn [nth app buildEthernet replicate Nat.add].
  split; [exact (be32_value si Hi)|]. split; [exact (be32_value sq Hs)|]. split; [reflexivity|].
  split; [|lia]. destruct (flags =? 2); [reflexivity|exact (be32_value ak Ha)].
Qed.

(** A frame written by an open writer. *)
Lemma write_bump (now_us : nat -> Z) (f : bytes) (w : PcapWriter) :
  open_ w = true ->
  writePacket now_us f (bump w) =
  mkPcap (file_ w ++ records [(now_us (packets w), f)]) (u32 (pkt_id_ w + 1)) (conn_seq_ w)
    (sctp_seq_ w) (tcp_started_ w) true (S (packets w)).
Proof.
  intros Ho. unfold writePacket. change (open_ (bump w)) with (open_ w). rewrite Ho.
  unfold records. cbn [map concat]. rewrite app_nil_r. reflexivity.
Qed.

Lemma write_bump_fields (now_us : nat -> Z) (f : bytes) (w : PcapWriter) :
  open_ w = true ->
  file_ (writePacket now_us f (bump w)) = file_ w ++ records [(now_us (packets w), f)]
  /\ tcp_started_ (writePacket now_us f (bump w)) = tcp_started_ w.
Proof. intros Ho. rewrite write_bump by exact Ho. split; reflexivity. Qed.

Lemma good_tcp si sp di dp payload flags sq ak (w : PcapWriter) :
  small payload -> good (buildIPTCP si sp di dp payload flags sq ak w).1.
Proof.
  intros Hs. apply (good_frame _ payload Hs (buildIPTCP_ok si sp di dp payload flags sq ak w Hs)).
  rewrite buildIPTCP_length. lia.
Qed.

(** A TCP frame from one endpoint to another. *)
Definition tcp_of (si sp di dp : Z) (payload f : bytes) : Prop :=
  exists flags sq ak w, f = (buildIPTCP si sp di dp payload flags sq ak w).1.

(** A data segment on a connection whose counters are [cs]. *)
Lemma segment_written (now_us : nat -> Z) si sp di dp payload (w : PcapWriter) (cs : ConnSeq) :
  let key := connKey si sp di dp in
  let b := isClient si sp di dp in
  let n := u32 (Z.of_nat (length payload)) in
  let w' := write_segment now_us si sp di dp payload w in
  ready w -> small payload -> in_u 32 si -> in_u 32 (client_seq cs) -> in_u 32 (server_seq cs) ->
  conn_seq_ w !! key = Some cs ->
  (exists us f, file_ w' = file_ w ++ records [(us, f)] /\ good f /\ frame_src f = si
    /\ frame_seq f = (if b then client_seq cs else server_seq cs)
    /\ frame_ack f = (if b then server_seq cs else client_seq cs)
    /\ segment_length f = Z.of_nat (length payload) /\ tcp_of si sp di dp payload f)
  /\ ready w' /\ tcp_started_ w' = tcp_started_ w
  /\ conn_seq_ w' !! key = Some (if b then mkConn (u32 (client_seq cs + n)) (server_seq cs)
                                 else mkConn (client_seq cs) (u32 (server_seq cs + n))).
Proof.
  intros key b n w' (Ho & Hp) Hs Hi Hcl Hsv Hc.
  set (w1 := set_conn (<[key := cs]> (<[key := cs]> (conn_seq_ w))) w).
  set (sq := if b then client_seq cs else server_seq cs).
  set (ak := if b then server_seq cs else client_seq cs).
  set (f := (buildIPTCP si sp di dp payload 0x18 sq ak w1).1).
  assert (E : w' = advanceSeq si sp di dp n (writePacket now_us f (bump w1))).
  { unfold w', write_segment, nextSeq, peerSeq, conn_of. fold key b. cbn [conn_seq_ set_conn].
    rewrite Hc. cbn [default]. rewrite lookup_insert_eq. cbn [default]. reflexivity. }
  destruct (tcp_frame_fields si sp di dp payload 0x18 sq ak w1 Hi) as (F1 & F2 & _ & F3 & F4);
    [unfold sq; destruct b; assumption|unfold ak; destruct b; assumption|]. fold f in F1, F2, F3, F4.
  pose proof (good_tcp si sp di dp payload 0x18 sq ak w1 Hs : good f) as Hg.
  rewrite write_bump in E by exact Ho. rewrite E. unfold advanceSeq, conn_of. fold key b.
  cbn [conn_seq_ set_conn w1 file_ packets tcp_started_].
  rewrite lookup_insert_eq. cbn [default].
  split; [|split; [split; [reflexivity|apply u32_range]|split; [reflexivity|]]].
  - exists (now_us (packets w)), f. split; [reflexivity|]. split; [exact Hg|].
    do 4 (split; [assumption|]). eexists _, _, _, _. reflexivity.
  - cbn [conn_seq_ set_conn]. rewrite lookup_insert_eq. reflexivity.
Qed.

(** Segments that continue each other in both directions: the endpoint [lo]
    has sent up to [c], the other up to [s]. *)
Fixpoint stream_ok (lo c s : Z) (fs : list bytes) : Prop :=
  match fs with
  | [] => True
  | f :: fs' =>
      if frame_src f =? lo
      then frame_seq f = u32 c /\ frame_ack f = u32 s /\ stream_ok lo (c + segment_length f) s fs'
      else frame_seq f = u32 s /\ frame_ack f = u32 c /\ stream_ok lo c (s + segment_length f) fs'
  end.

(** The messages of one Diameter connection; [from_lo]: from [lo] to [hi]. *)
Record DiaMsg : Type := mkDia { from_lo : bool; d_cmd : DiameterCmd; d_app : DiameterApp; d_req : bool }.

Section Stream.
Variables (now_us : nat -> Z) (lo lo_p hi hi_p : Z).
Hypothesis Hlo : in_u 32 lo.
Hypothesis Hhi : in_u 32 hi.
Hypothesis Hne : hi <> lo.
Hypothesis Hlt : endpoint lo lo_p < endpoint hi hi_p.

Let key : Z := connKey lo lo_p hi hi_p.

Definition dia_call (m : DiaMsg) : PcapCall :=
  if from_lo m then writeDiameter (d_cmd m) (d_app m) (d_req m) lo lo_p hi hi_p
  else writeDiameter (d_cmd m) (d_app m) (d_req m) hi hi_p lo lo_p.

(** The key of the connection does not depend on the direction. *)
Lemma key_reversed : connKey hi hi_p lo lo_p = key.
Proof.
  unfold key, connKey. rewrite (proj2 (Z.ltb_lt _ _) Hlt).
  replace (endpoint hi hi_p <? endpoint lo lo_p) with false by (symmetry; apply Z.ltb_ge; lia).
  reflexivity.
Qed.

Lemma lo_isClient : isClient lo lo_p hi hi_p = true /\ isClient hi hi_p lo lo_p = false.
Proof. unfold isClient. split; [apply Z.leb_le|apply Z.leb_gt]; lia. Qed.

(** A connection under way: what each side has sent. *)
Definition flowing (c s : Z) (w : PcapWriter) : Prop :=
  ready w /\ key ∈ tcp_started_ w /\ conn_seq_ w !! key = Some (mkConn (u32 c) (u32 s)).

Lemma segment_step (m : bool) (payload : bytes) (c s : Z) (w : PcapWriter) :
  flowing c s w -> small payload ->
  let w' := if m then write_segment now_us lo lo_p hi hi_p payload w
            else write_segment now_us hi hi_p lo lo_p payload w in
  let n := Z.of_nat (length payload) in
  exists us f, file_ w' = file_ w ++ records [(us, f)] /\ good f
    /\ frame_src f = (if m then lo else hi)
    /\ frame_seq f = u32 (if m then c else s) /\ frame_ack f = u32 (if m then s else c)
    /\ segment_length f = n
    /\ (if m then tcp_of lo lo_p hi hi_p payload f else tcp_of hi hi_p lo lo_p payload f)
    /\ flowing (if m then c + n else c) (if m then s else s + n) w'.
Proof.
  intros (Hw & Hst & Hc) Hs w' n. destruct lo_isClient as [I1 I2]. pose proof key_reversed as Hrev.
  assert (Hadd : forall a, u32 (u32 a + u32 n) = u32 (a + n))
    by (intros a; unfold u32, wrap; rewrite <- Zplus_mod; reflexivity).
  destruct m; subst w'.
  - destruct (segment_written now_us lo lo_p hi hi_p payload w (mkConn (u32 c) (u32 s)) Hw Hs Hlo (u32_range c) (u32_range s) Hc)
      as ((us & f & F) & Hw' & Hst' & Hc'). rewrite I1 in F, Hc'. cbn [client_seq server_seq] in F, Hc'.
    fold n in F, Hc'. rewrite Hadd in Hc'. exists us, f. destruct F as (F1 & F2 & F3 & F4 & F5 & F6 & F7).
    do 7 (split; [assumption|]). split; [exact Hw'|]. split; [rewrite Hst'; exact Hst|exact Hc'].
  - destruct (segment_written now_us hi hi_p lo lo_p payload w (mkConn (u32 c) (u32 s)) Hw Hs Hhi
                (u32_range c) (u32_range s)) as ((us & f & F) & Hw' & Hst' & Hc'); [rewrite Hrev; exact Hc|].
    rewrite I2 in F, Hc'. rewrite Hrev in Hc'. cbn [client_seq server_seq] in F, Hc'.
    fold n in F, Hc'. rewrite Hadd in Hc'. exists us, f. destruct F as (F1 & F2 & F3 & F4 & F5 & F6 & F7).
    do 7 (split; [assumption|]). split; [exact Hw'|]. split; [rewrite Hst'; exact Hst|exact Hc'].
Qed.

Definition sender (m : DiaMsg) : Z := if from_lo m then lo else hi.

(** A message on a connection under way. *)
Lemma dia_step (m : DiaMsg) (c s : Z) (w : PcapWriter) :
  flowing c s w ->
  exists us f, file_ (do_call now_us (dia_call m) w) = file_ w ++ records [(us, f)] /\ good f
    /\ frame_src f = (if from_lo m then lo else hi)
    /\ frame_seq f = u32 (if from_lo m then c else s)
    /\ frame_ack f = u32 (if from_lo m then s else c)
    /\ flowing (if from_lo m then c + segment_length f else c)
               (if from_lo m then s else s + segment_length f) (do_call now_us (dia_call m) w).
Proof.
  intros (Hw & Hst & Hc).
  assert (G : forall si sp di dp, connKey si sp di dp = key ->
            exists fr, small fr /\ do_writeDiameter now_us (d_cmd m) (d_app m) (d_req m) si sp di dp [] w
                       = write_segment now_us si sp di dp fr (bump (bump w))).
  { intros si sp di dp Hk. eexists. split; [apply dia_message_small, Hw|]. rewrite write_diameter_eq.
    unfold ensureTcpHandshake. rewrite Hk, bool_decide_true by exact Hst. reflexivity. }
  assert (Hfl : flowing c s (bump (bump w)))
    by (split; [split; [apply Hw|apply u32_range]|split; [exact Hst|exact Hc]]).
  unfold dia_call. destruct (from_lo m) eqn:Em; cbn [do_call].
  - destruct (G lo lo_p hi hi_p eq_refl) as (fr & Hs & ->).
    destruct (segment_step true fr c s _ Hfl Hs) as (us & f & F1 & F2 & F3 & F4 & F5 & F6 & _ & F7).
    exists us, f. rewrite F6. auto 10.
  - destruct (G hi hi_p lo lo_p key_reversed) as (fr & Hs & ->).
    destruct (segment_step false fr c s _ Hfl Hs) as (us & f & F1 & F2 & F3 & F4 & F5 & F6 & _ & F7).
    exists us, f. rewrite F6. auto 10.
Qed.

Lemma dia_stream (ms : list DiaMsg) (c s : Z) (w : PcapWriter) :
  flowing c s w ->
  exists l, file_ (do_calls now_us (map dia_call ms) w) = file_ w ++ records l
    /\ Forall good (map snd l) /\ map frame_src (map snd l) = map sender ms
    /\ stream_ok lo c s (map snd l).
Proof.
  revert c s w. induction ms as [|m ms IH]; intros c s w Hw.
  - exists []. split; [symmetry; apply app_nil_r|]. split; [constructor|]. split; [reflexivity|exact I].
  - destruct (dia_step m c s w Hw) as (us & f & F1 & F2 & F3 & F4 & F5 & F6).
    destruct (IH _ _ _ F6) as (l & E & G & N & K). unfold do_calls in *. cbn [map foldl].
    exists ([(us, f)] ++ l). rewrite E, F1, <- app_assoc, records_app. split; [reflexivity|].
    cbn [map app snd stream_ok]. split; [constructor; assumption|].
    split; [rewrite F3, N; reflexivity|]. rewrite F3. destruct (from_lo m); [rewrite Z.eqb_refl|rewrite (proj2 (Z.eqb_neq _ _) Hne)]; auto.
Qed.

Definition summary (f : bytes) : Z * Z * Z * Z := (frame_src f, frame_flags f, frame_seq f, frame_ack f).

(** The three frames of the handshake from [a] to [b], and the counters after. *)
Lemma handshake_start (a pa b pb : Z) (w : PcapWriter) :
  in_u 32 a -> in_u 32 b -> connKey a pa b pb = key -> key ∉ tcp_started_ w -> ready w ->
  exists l, file_ (ensureTcpHandshake now_us a pa b pb w) = file_ w ++ records l
    /\ Forall good (map snd l)
    /\ map summary (map snd l) = [(a, 0x02, 1000, 0); (b, 0x12, 2000, 1001); (a, 0x10, 1001, 2001)]
    /\ Forall (fun f => tcp_of a pa b pb [] f \/ tcp_of b pb a pa [] f) (map snd l)
    /\ flowing 1001 2001 (ensureTcpHandshake now_us a pa b pb w).
Proof.
  intros Ha Hb Hk Hst Hw. unfold ensureTcpHandshake. rewrite Hk, bool_decide_false by exact Hst.
  set (w0 := mkPcap _ _ (<[key := mkConn 1000 2000]> _) _ _ _ _).
  set (f1 := (buildIPTCP a pa b pb [] 0x02 1000 0 w0).1).
  set (v1 := writePacket now_us f1 (bump w0)).
  set (f2 := (buildIPTCP b pb a pa [] 0x12 2000 1001 v1).1).
  set (v2 := writePacket now_us f2 (bump v1)).
  set (f3 := (buildIPTCP a pa b pb [] 0x10 1001 2001 v2).1).
  change (let '(syn, w) := buildIPTCP a pa b pb [] 2 1000 0 w0 in _)
    with (set_conn (<[key := mkConn 1001 2001]> (conn_seq_ (writePacket now_us f3 (bump v2))))
            (writePacket now_us f3 (bump v2))).
  destruct (tcp_frame_fields a pa b pb [] 0x02 1000 0 w0 Ha) as (S1 & Q1 & L1 & A1 & _); [unfold in_u; lia..|].
  destruct (tcp_frame_fields b pb a pa [] 0x12 2000 1001 v1 Hb) as (S2 & Q2 & L2 & A2 & _); [unfold in_u; lia..|].
  destruct (tcp_frame_fields a pa b pb [] 0x10 1001 2001 v2 Ha) as (S3 & Q3 & L3 & A3 & _); [unfold in_u; lia..|].
  fold f1 in S1, Q1, L1, A1. fold f2 in S2, Q2, L2, A2. fold f3 in S3, Q3, L3, A3.
  pose proof (good_tcp a pa b pb [] 0x02 1000 0 w0 small_nil : good f1) as G1.
  pose proof (good_tcp b pb a pa [] 0x12 2000 1001 v1 small_nil : good f2) as G2.
  pose proof (good_tcp a pa b pb [] 0x10 1001 2001 v2 small_nil : good f3) as G3.
  assert (E1 : open_ v1 = true) by (unfold v1; rewrite write_bump by apply Hw; reflexivity).
  assert (E2 : open_ v2 = true) by (unfold v2; rewrite write_bump by exact E1; reflexivity).
  rewrite (write_bump now_us f3 v2 E2).
  exists [(now_us (packets w0), f1); (now_us (packets v1), f2); (now_us (packets v2), f3)].
  cbn [map snd]. unfold summary. rewrite S1, Q1, L1, A1, S2, Q2, L2, A2, S3, Q3, L3, A3.
  assert (F : file_ v2 = file_ w ++ records [(now_us (packets w0), f1); (now_us (packets v1), f2)]
              /\ tcp_started_ v2 = {[key]} ∪ tcp_started_ w).
  { destruct (write_bump_fields now_us f2 v1 E1) as [A B]. fold v2 in A, B.
    destruct (write_bump_fields now_us f1 w0 (proj1 Hw)) as [A' B']. fold v1 in A', B'.
    split; [|rewrite B, B'; reflexivity].
    rewrite A, A'. change (file_ w0) with (file_ w). rewrite <- app_assoc, <- records_app. reflexivity. }
  destruct F as [F1 F2]. split; [|split; [repeat constructor; first [apply G1|apply G2|apply G3]|split; [reflexivity|split]]].
  - cbn [file_ set_conn]. rewrite F1, <- app_assoc, <- records_app. reflexivity.
  - repeat apply List.Forall_cons; try apply List.Forall_nil;
      [left|right|left]; eexists _, _, _, _; reflexivity.
  - split; [split; [reflexivity|apply u32_range]|]. cbn [tcp_started_ conn_seq_ set_conn].
    rewrite F2, lookup_insert_eq. split; [apply elem_of_union_l, elem_of_singleton; reflexivity|].
    rewrite !u32_small by (unfold in_u; lia). reflexivity.
Qed.


(** A connection from its first message: who sent it, and the stream after. *)
Lemma dia_conversation (m : DiaMsg) (ms : list DiaMsg) :
  let a := if from_lo m then lo else hi in
  let b := if from_lo m then hi else lo in
  exists hs frames,
    read_pcap (file_ (do_calls now_us (map dia_call (m :: ms)) (pcap_open newPcapWriter)))
      = Some (hs ++ frames)
    /\ map summary hs = [(a, 0x02, 1000, 0); (b, 0x12, 2000, 1001); (a, 0x10, 1001, 2001)]
    /\ map frame_src frames = map sender (m :: ms) /\ stream_ok lo 1001 2001 frames.
Proof.
  intros a b. set (w0 := pcap_open newPcapWriter).
  assert (Hw : ready (bump (bump w0))) by (split; [reflexivity|apply u32_range]).
  assert (Hst : key ∉ tcp_started_ (bump (bump w0))) by apply not_elem_of_empty.
  set (wh := ensureTcpHandshake now_us (if from_lo m then lo else hi) (if from_lo m then lo_p else hi_p)
               (if from_lo m then hi else lo) (if from_lo m then hi_p else lo_p) (bump (bump w0))).
  assert (exists l, file_ wh = file_ w0 ++ records l /\ Forall good (map snd l)
            /\ map summary (map snd l) = [(a, 0x02, 1000, 0); (b, 0x12, 2000, 1001); (a, 0x10, 1001, 2001)]
            /\ Forall (fun f => tcp_of a (if from_lo m then lo_p else hi_p) b (if from_lo m then hi_p else lo_p) [] f
                 \/ tcp_of b (if from_lo m then hi_p else lo_p) a (if from_lo m then lo_p else hi_p) [] f) (map snd l)
            /\ flowing 1001 2001 wh) as (l & El & Gl & Sl & _ & Fl).
  { change (file_ w0) with (file_ (bump (bump w0))). unfold wh, a, b. destruct (from_lo m);
      [exact (handshake_start lo lo_p hi hi_p (bump (bump w0)) Hlo Hhi eq_refl Hst Hw)
      |exact (handshake_start hi hi_p lo lo_p (bump (bump w0)) Hhi Hlo key_reversed Hst Hw)]. }
  assert (exists fr, small fr /\ do_call now_us (dia_call m) w0 =
            (if from_lo m then write_segment now_us lo lo_p hi hi_p fr wh
             else write_segment now_us hi hi_p lo lo_p fr wh)) as (fr & Hs & E0).
  { unfold wh, dia_call. assert (Hi : in_u 32 (pkt_id_ w0)) by (unfold in_u; cbn; lia).
    destruct (from_lo m); cbn [do_call]; rewrite write_diameter_eq;
      eexists; (split; [|reflexivity]); apply dia_message_small; exact Hi. }
  destruct (segment_step (from_lo m) fr 1001 2001 wh Fl Hs) as (us & f & F1 & F2 & F3 & F4 & F5 & F6 & _ & F7).
  rewrite <- E0 in F1, F7.
  destruct (dia_stream ms _ _ _ F7) as (l2 & E2 & G2 & N2 & K2).
  exists (map snd l), (map snd ((us, f) :: l2)).
  split; [|split; [exact Sl|split; [cbn [map snd]; rewrite F3, N2; reflexivity|]]].
  - rewrite <- map_app. apply read_captured.
    + unfold do_calls in *. cbn [map foldl]. rewrite E2, F1, El, <- !app_assoc, <- !records_app. reflexivity.
    + rewrite map_app. apply Forall_app. split; [exact Gl|]. cbn [map snd]. constructor; assumption.
  - cbn [map snd stream_ok]. rewrite F3, F4, F5, F6.
    destruct (from_lo m); [rewrite Z.eqb_refl|rewrite (proj2 (Z.eqb_neq _ _) Hne)]; auto.
Qed.

End Stream.

(** ** Properties *)

(** The capture is a capture.  Whatever calls the nodes make on an opened
    writer, and whatever the clock, the file reads back, header and records, to
    a list of frames, one or more per call, each with an IPv4 header whose
    checksum verifies and whose total length is that of the packet. *)
Theorem capture_readable (now_us : nat -> Z) (cs : list PcapCall) (Hcs : Forall small_call cs) :
  exists frames,
    read_pcap (file_ (do_calls now_us cs (pcap_open newPcapWriter))) = Some frames
    /\ Forall ip_ok frames /\ (length cs <= length frames)%nat.
Proof.
  destruct (grows_calls now_us cs (pcap_open newPcapWriter) Hcs) as (_ & _ & l & E & G & N & _);
    [split; [reflexivity|unfold in_u; cbn; lia]|].
  exists (map snd l). split; [exact (read_captured _ l E G)|].
  split; [eapply Forall_impl; [|exact G]; intros f Hf; apply Hf|rewrite length_map; exact N].
Qed.

Lemma capture_readable_witness :
  exists frames,
    read_pcap (file_ (do_calls (fun _ => 0)
      [writeDiameter AUTH_INFO S6A true IP_MME 3868 IP_HSS 3868;
       writeGTPv2 CREATE_SESSION_REQ 0 IP_MME 2123 IP_SGW 2123;
       writeS1AP [] IP_ENB 36412 IP_MME 36412 [1; 2; 3]] (pcap_open newPcapWriter))) = Some frames
    /\ Forall ip_ok frames /\ (3 <= length frames)%nat.
Proof.
  apply (capture_readable (fun _ => 0)
      [writeDiameter AUTH_INFO S6A true IP_MME 3868 IP_HSS 3868;
       writeGTPv2 CREATE_SESSION_REQ 0 IP_MME 2123 IP_SGW 2123;
       writeS1AP [] IP_ENB 36412 IP_MME 36412 [1; 2; 3]]).
  repeat constructor; unfold small_call, small; cbn; lia.
Defined.

(** S1AP transmission numbers never repeat.  In a capture with any calls in
    which the S1AP messages go between the eNB and the MME, in either
    direction, the SCTP frames carry the numbers 0, 1, 2, ... in order, so no
    two of the first 2^32 are equal. *)
Theorem s1ap_tsn_sequence (now_us : nat -> Z) (cs : list PcapCall) (Hcs : Forall s1_call cs) :
  exists frames,
    read_pcap (file_ (do_calls now_us cs (pcap_open newPcapWriter))) = Some frames
    /\ map frame_tsn (List.filter is_sctp frames)
       = map (fun i => u32 (Z.of_nat i)) (seq 0 (s1ap_count cs)).
Proof.
  destruct (numbered_calls now_us cs (pcap_open newPcapWriter) Hcs) as (l & E & G & N);
    [split; [reflexivity|unfold in_u; cbn; lia]|rewrite tsn_open; unfold in_u; lia|].
  rewrite tsn_open in N. exists (map snd l). split; [|exact N]. exact (read_captured _ l E G).
Qed.

Lemma s1ap_tsn_sequence_witness :
  exists frames,
    read_pcap (file_ (do_calls (fun _ => 0)
      [writeS1AP [] IP_ENB 36412 IP_MME 36412 [1; 2; 3];
       writeGTPv2 CREATE_SESSION_REQ 0 IP_MME 2123 IP_SGW 2123;
       writeS1AP [] IP_MME 36412 IP_ENB 36412 [4]] (pcap_open newPcapWriter))) = Some frames
    /\ map frame_tsn (List.filter is_sctp frames) = [0; 1].
Proof.
  apply (s1ap_tsn_sequence (fun _ => 0)
      [writeS1AP [] IP_ENB 36412 IP_MME 36412 [1; 2; 3];
       writeGTPv2 CREATE_SESSION_REQ 0 IP_MME 2123 IP_SGW 2123;
       writeS1AP [] IP_MME 36412 IP_ENB 36412 [4]]).
  repeat constructor; unfold small; cbn; auto; lia.
Defined.

(** TCP streams continue.  On a Diameter connection the capture starts with
    a handshake whose SYN comes from the first sender with number 1000, and in
    the segments after it the endpoint with the lower address counts on from
    1001 and the other from 2001, each acknowledging what the other has sent,
    whatever the number, the order and the sizes of the messages. *)
Theorem diameter_stream (now_us : nat -> Z) (lo lo_p hi hi_p : Z) (Hlo : in_u 32 lo) (Hhi : in_u 32 hi)
    (Hne : hi <> lo) (Hlt : endpoint lo lo_p < endpoint hi hi_p) (m : DiaMsg) (ms : list DiaMsg) :
  let a := if from_lo m then lo else hi in
  let b := if from_lo m then hi else lo in
  exists hs frames,
    read_pcap (file_ (do_calls now_us (map (dia_call lo lo_p hi hi_p) (m :: ms)) (pcap_open newPcapWriter)))
      = Some (hs ++ frames)
    /\ map summary hs = [(a, 0x02, 1000, 0); (b, 0x12, 2000, 1001); (a, 0x10, 1001, 2001)]
    /\ map frame_src frames = map (sender lo hi) (m :: ms) /\ stream_ok lo 1001 2001 frames.
Proof. exact (dia_conversation now_us lo lo_p hi hi_p Hlo Hhi Hne Hlt m ms). Qed.

Lemma diameter_stream_witness :
  exists hs frames,
    read_pcap (file_ (do_calls (fun _ => 0)
      (map (dia_call IP_MME PORT_DIA IP_HSS PORT_DIA)
         [mkDia true AUTH_INFO S6A true; mkDia false AUTH_INFO S6A false]) (pcap_open newPcapWriter)))
      = Some (hs ++ frames)
    /\ map summary hs = [(IP_MME, 0x02, 1000, 0); (IP_HSS, 0x12, 2000, 1001); (IP_MME, 0x10, 1001, 2001)]
    /\ map frame_src frames = [IP_MME; IP_HSS] /\ stream_ok IP_MME 1001 2001 frames.
Proof.
  apply (diameter_stream (fun _ => 0) IP_MME PORT_DIA IP_HSS PORT_DIA) with
    (m := mkDia true AUTH_INFO S6A true) (ms := [mkDia false AUTH_INFO S6A false]);
    [unfold in_u, IP_MME; lia|unfold in_u, IP_HSS; lia|discriminate|reflexivity].
Defined.

(** The handshake follows the first sender, the counters the addresses.
    When the endpoint with the higher address sends first, as the S-CSCF does
    to the HSS, its SYN has number 1000 and its first segment number 2001, not
    1001. *)
Theorem higher_sender_skips (now_us : nat -> Z) (lo lo_p hi hi_p : Z) (Hlo : in_u 32 lo) (Hhi : in_u 32 hi)
    (Hne : hi <> lo) (Hlt : endpoint lo lo_p < endpoint hi hi_p) (m : DiaMsg) (ms : list DiaMsg)
    (Hm : from_lo m = false) :
  exists syn hs f frames,
    read_pcap (file_ (do_calls now_us (map (dia_call lo lo_p hi hi_p) (m :: ms)) (pcap_open newPcapWriter)))
      = Some (syn :: hs ++ f :: frames)
    /\ frame_src syn = hi /\ frame_flags syn = 0x02 /\ frame_seq syn = 1000
    /\ length hs = 2%nat /\ frame_src f = hi /\ frame_seq f = 2001.
Proof.
  destruct (dia_conversation now_us lo lo_p hi hi_p Hlo Hhi Hne Hlt m ms) as (hs & frames & E & S & N & K).
  rewrite Hm in S. destruct hs as [|syn [|h2 [|h3 [|? ?]]]]; try discriminate.
  destruct frames as [|f frames]; [discriminate|]. unfold summary in S. cbn [map] in S, N.
  injection S as S1 S2 S3 _ _ _ _ _ _ _ _ _. unfold sender in N at 1. rewrite Hm in N.
  injection N as N _. cbn [stream_ok] in K. rewrite N, (proj2 (Z.eqb_neq _ _) Hne) in K.
  exists syn, [h2; h3], f, frames. cbn [app length] in *.
  repeat (split; [assumption || reflexivity|]). destruct K as [K _]. rewrite K. reflexivity.
Qed.

Lemma higher_sender_skips_witness :
  exists syn hs f frames,
    read_pcap (file_ (do_calls (fun _ => 0)
      [writeDiameter SERVER_ASSIGNMENT CX true IP_SCSCF PORT_DIA IP_HSS PORT_DIA] (pcap_open newPcapWriter)))
      = Some (syn :: hs ++ f :: frames)
    /\ frame_src syn = IP_SCSCF /\ frame_flags syn = 0x02 /\ frame_seq syn = 1000
    /\ length hs = 2%nat /\ frame_src f = IP_SCSCF /\ frame_seq f = 2001.
Proof.
  apply (higher_sender_skips (fun _ => 0) IP_HSS PORT_DIA IP_SCSCF PORT_DIA) with
    (m := mkDia false SERVER_ASSIGNMENT CX true) (ms := []);
    [unfold in_u, IP_HSS; lia|unfold in_u, IP_SCSCF; lia|discriminate|reflexivity|reflexivity].
Defined.

(** The endpoints of the simulators: each node at each port. *)
Definition node_endpoints : list (Z * Z) :=
  list_prod [IP_UE; IP_ENB; IP_MME; IP_HSS; IP_SGW; IP_PGW; IP_PCRF; IP_PCSCF; IP_SCSCF; IP_MTAS]
    [PORT_S1AP; PORT_DIA; PORT_GX; PORT_SGW; PORT_PGW; PORT_SIP].

Fixpoint pairs {A} (l : list A) : list (A * A) :=
  match l with [] => [] | x :: l' => map (pair x) l' ++ pairs l' end.

(** Distinct numbers, checked on the sorted list. *)
Fixpoint increasing (l : list Z) : bool :=
  match l with x :: (y :: _) as t => (x <? y) && increasing t | _ => true end.

Lemma increasing_above (l : list Z) (x : Z) : increasing (x :: l) = true -> Forall (Z.lt x) l.
Proof.
  revert x. induction l as [|y l IH]; intros x H; [constructor|]. cbn in H. apply andb_true_iff in H as [Hx H].
  apply Z.ltb_lt in Hx. constructor; [exact Hx|]. eapply List.Forall_impl; [|exact (IH y H)]. cbn. lia.
Qed.

Lemma increasing_distinct (l : list Z) : increasing l = true -> NoDup l.
Proof.
  induction l as [|x l IH]; intros H; [constructor|]. pose proof (increasing_above l x H) as A. constructor.
  - intros Hin. rewrite List.Forall_forall in A. specialize (A x (proj1 (list_elem_of_In _ _) Hin)). lia.
  - apply IH. destruct l; [reflexivity|]. cbn in H. apply andb_true_iff in H as [_ H]. exact H.
Qed.

Lemma distinct_sorted (l : list Z) : increasing (merge_sort Z.le l) = true -> NoDup l.
Proof. intros H. rewrite <- (merge_sort_Permutation Z.le l). exact (increasing_distinct _ H). Qed.

(** The 64-bit connection key is not the address pair: the upper half of
    the lower address is lost, so two connections share a key; but among the
    simulators' nodes and ports all unordered pairs have different keys. *)
Theorem connKey_collisions :
  (exists a b, a <> b /\ endpoint a PORT_DIA < endpoint IP_HSS PORT_DIA
     /\ endpoint b PORT_DIA < endpoint IP_HSS PORT_DIA
     /\ connKey a PORT_DIA IP_HSS PORT_DIA = connKey b PORT_DIA IP_HSS PORT_DIA)
  /\ NoDup (map (fun '((ip1, p1), (ip2, p2)) => connKey ip1 p1 ip2 p2) (pairs node_endpoints)).
Proof.
  split.
  - exists IP_MME, 0x09000003. split; [discriminate|]. repeat split.
  - apply distinct_sorted. vm_compute. reflexivity.
Qed.

(** A Diameter message the capture makes up is one.  Its length field is its
    length, and its attributes read back as Session-Id, Origin-Host,
    Origin-Realm and Destination-Realm with the identities of its two nodes. *)
Theorem diameter_readable (cmd : DiameterCmd) (app : DiameterApp) (rq : bool) (si di : Z) (w : PcapWriter)
    (Hw : in_u 32 (pkt_id_ w)) :
  let f := (make_diameter cmd app rq si di [] w).1 in
  nth 1 f 0 * 65536 + nth 2 f 0 * 256 + nth 3 f 0 = Z.of_nat (length f)
  /\ nth 4 f 0 = (if rq then 0xC0 else 0x40)
  /\ nth 5 f 0 * 65536 + nth 6 f 0 * 256 + nth 7 f 0 = DiameterCmd_code cmd
  /\ read_avps 5 (drop 20 f)
     = Some [(263, diamIdentity si ++ [59] ++ to_string (pkt_id_ w)); (264, diamIdentity si);
             (296, diamRealm si); (283, diamRealm di)].
Proof.
  rewrite make_diameter_default. cbv zeta. cbn [fst]. set (f := diameter_frame _ _ _ _ _).
  pose proof (default_avps_length si di (pkt_id_ w) Hw) as Hl.
  pose proof (to_string_short (pkt_id_ w) Hw) as Ht.
  destruct (identity_length si) as [I1 R1]. destruct (identity_length di) as [_ R2].
  split; [|split; [reflexivity|split; [destruct cmd; reflexivity|]]].
  - unfold f. rewrite diameter_frame_length, Nat2Z.inj_add. apply len24.
    change (2 ^ 24) with 16777216. lia.
  - change (drop 20 f) with (default_avps si di (pkt_id_ w)). unfold default_avps.
    assert (W : forall a b : bytes, (length a mod 4 = 0 -> length b mod 4 = 0 -> length (a ++ b) mod 4 = 0)%nat)
      by (intros a b Ha Hb; rewrite length_app, <- Nat.Div0.add_mod_idemp_l, Ha; exact Hb).
    fold (avp 263 (diamIdentity si ++ [59] ++ to_string (pkt_id_ w))).
    rewrite (addAvpStr_app _ 264) by apply avp_words.
    rewrite (addAvpStr_app _ 296) by (apply W; apply avp_words).
    rewrite (addAvpStr_app _ 283) by (apply W; [apply W|]; apply avp_words).
    rewrite <- !app_assoc.
    rewrite !read_avp by first [unfold in_u; lia|rewrite ?length_app; cbn [length]; lia].
    rewrite <- (app_nil_r (avp 283 _)), read_avp by first [unfold in_u; lia|lia]. reflexivity.
Qed.

Lemma diameter_readable_witness :
  let f := (make_diameter AUTH_INFO S6A true IP_MME IP_HSS [] (pcap_open newPcapWriter)).1 in
  nth 1 f 0 * 65536 + nth 2 f 0 * 256 + nth 3 f 0 = Z.of_nat (length f)
  /\ nth 4 f 0 = 0xC0 /\ nth 5 f 0 * 65536 + nth 6 f 0 * 256 + nth 7 f 0 = 318
  /\ read_avps 5 (drop 20 f)
     = Some [(263, str "mme.epc.mnc001.mcc001.3gppnetwork.org;1");
             (264, str "mme.epc.mnc001.mcc001.3gppnetwork.org");
             (296, str "epc.mnc001.mcc001.3gppnetwork.org"); (283, str "epc.mnc001.mcc001.3gppnetwork.org")].
Proof. apply (diameter_readable AUTH_INFO S6A true IP_MME IP_HSS (pcap_open newPcapWriter)). unfold in_u; cbn; lia. Defined.
