(* ===== verification/PcapText.v ===== *)
(** * The captures of the 5G core and of the IMS

    [PcapWriter] of [5g-simulator/src/common/pcap_writer.h] and
    [pcap_writer.cpp] is the writer of [PcapFile] without its Diameter, GTP and
    SCTP parts, and with one operation for a text on a TCP connection and one
    for a UDP datagram; its state is that of [PcapFile], of which it leaves the
    SCTP counters alone.  The writer of [ims-simulator] differs from the one of
    [PcapFile] in [writeSIP] only. *)

From S2P Require Import Prelude NodeEnv PcapFile.
#[local] Open Scope Z_scope.

Definition PORT_N2 : Z := 38412.
Definition PORT_SBI : Z := 80.
Definition PORT_PFCP5 : Z := 8805.
Definition IP5_GNB : Z := 0x0A010001.
Definition IP5_AMF : Z := 0x0A010002.
Definition IP5_SMF : Z := 0x0A010003.
Definition IP5_UPF : Z := 0x0A010004.
Definition IP5_UDM : Z := 0x0A010005.

Section Operations.
Variable now_us : nat -> Z.

(** [open]; [opened]: the file could be opened, and is truncated. *)
Definition open5 (opened : bool) (w : PcapWriter) : PcapWriter :=
  if opened then mkPcap global_header (pkt_id_ w) ∅ (sctp_seq_ w) ∅ true (packets w) else w.

Definition close5 (w : PcapWriter) : PcapWriter :=
  if open_ w then mkPcap (file_ w) (pkt_id_ w) (conn_seq_ w) (sctp_seq_ w) (tcp_started_ w) false (packets w)
  else w.

Definition writeAppText (text : bytes) (src_ip src_port dst_ip dst_port : Z) (w : PcapWriter) : PcapWriter :=
  let payload := text in
  let w := ensureTcpHandshake now_us src_ip src_port dst_ip dst_port w in
  let '(seq, w) := nextSeq src_ip src_port dst_ip dst_port w in
  let '(ack, w) := peerSeq src_ip src_port dst_ip dst_port w in
  let '(f, w) := buildIPTCP src_ip src_port dst_ip dst_port payload 0x18 seq ack w in
  let w := writePacket now_us f w in
  advanceSeq src_ip src_port dst_ip dst_port (u32 (Z.of_nat (length payload))) w.

Definition writeUdp (payload : bytes) (src_ip src_port dst_ip dst_port : Z) (w : PcapWriter) : PcapWriter :=
  if negb (open_ w) then w else
  let udp_len := u16 (8 + Z.of_nat (length payload)) in
  let ip_total := u16 (20 + udp_len) in
  let '(id, w) := next_id w in
  let ip := ip_header ip_total (u16 id) 17 src_ip dst_ip in
  let udp := be16 src_port ++ be16 dst_port ++ be16 udp_len ++ be16 0 in
  writePacket now_us (buildEthernet ++ ip ++ udp ++ payload) w.

(** [writeSIP] of the IMS: the ports of the call are not used. *)
Definition ims_writeSIP (sip_text : bytes) (src_ip src_port dst_ip dst_port : Z) (w : PcapWriter) : PcapWriter :=
  let payload := sip_text in
  let w := ensureTcpHandshake now_us src_ip PORT_SIP dst_ip PORT_SIP w in
  let '(seq, w) := nextSeq src_ip PORT_SIP dst_ip PORT_SIP w in
  let '(ack, w) := peerSeq src_ip PORT_SIP dst_ip PORT_SIP w in
  let '(f, w) := buildIPTCP src_ip PORT_SIP dst_ip PORT_SIP payload 0x18 seq ack w in
  let w := writePacket now_us f w in
  advanceSeq src_ip PORT_SIP dst_ip PORT_SIP (u32 (Z.of_nat (length payload))) w.

(** The calls of the nodes on a writer. *)
Inductive TextCall : Type :=
  | AppText (text : bytes) (src_ip src_port dst_ip dst_port : Z)
  | Udp (payload : bytes) (src_ip src_port dst_ip dst_port : Z)
  | Sip (text : bytes) (src_ip src_port dst_ip dst_port : Z).

Definition do_text (w : PcapWriter) (c : TextCall) : PcapWriter :=
  match c with
  | AppText t si sp di dp => writeAppText t si sp di dp w
  | Udp p si sp di dp => writeUdp p si sp di dp w
  | Sip t si sp di dp => ims_writeSIP t si sp di dp w
  end.

Definition do_texts (cs : list TextCall) (w : PcapWriter) : PcapWriter := foldl do_text w cs.

End Operations.

(** ** What a frame says *)

Definition be16_at (k : nat) (f : bytes) : Z := 256 * nth k f 0 + nth (k + 1) f 0.

(** Source and destination, address and port. *)
Definition frame_ends (f : bytes) : (Z * Z) * (Z * Z) :=
  ((be32_at 26 f, be16_at 34 f), (be32_at 30 f, be16_at 36 f)).

Definition ends_ok (si sp di dp : Z) : Prop := in_u 32 si /\ in_u 16 sp /\ in_u 32 di /\ in_u 16 dp.

Lemma tcp_of_reads si sp di dp payload f :
  ends_ok si sp di dp -> tcp_of si sp di dp payload f ->
  frame_proto f = 6 /\ frame_ends f = ((si, sp), (di, dp)) /\ drop 54 f = payload.
Proof.
  intros (Hsi & Hsp & Hdi & Hdp) (flags & sq & ak & w & ->). unfold buildIPTCP, next_id. cbn [fst].
  match goal with |- context [ip_header ?a ?b ?c ?d ?e] => destruct (ip_header_shape a b c d e) as (x & y & ->) end.
  split; [reflexivity|]. split; [|reflexivity].
  unfold frame_ends, be32_at, be16_at, be16, be32. cbn [nth app buildEthernet replicate Nat.add].
  f_equal; f_equal; first [exact (be32_value _ Hsi)|exact (be32_value _ Hdi)|exact (u16_value _ Hsp)|exact (u16_value _ Hdp)].
Qed.

Definition udp_of (si sp di dp : Z) (payload f : bytes) : Prop :=
  exists w, f = (buildIPUDP si sp di dp payload w).1.

Lemma udp_of_reads si sp di dp payload f :
  ends_ok si sp di dp -> udp_of si sp di dp payload f ->
  frame_proto f = 17 /\ frame_ends f = ((si, sp), (di, dp)) /\ drop 42 f = payload.
Proof.
  intros (Hsi & Hsp & Hdi & Hdp) (w & ->). unfold buildIPUDP, next_id. cbn [fst].
  match goal with |- context [ip_header ?a ?b ?c ?d ?e] => destruct (ip_header_shape a b c d e) as (x & y & ->) end.
  split; [reflexivity|]. split; [|reflexivity].
  unfold frame_ends, be32_at, be16_at, be16, be32. cbn [nth app buildEthernet replicate Nat.add].
  f_equal; f_equal; first [exact (be32_value _ Hsi)|exact (be32_value _ Hdi)|exact (u16_value _ Hsp)|exact (u16_value _ Hdp)].
Qed.

Definition is_udp (f : bytes) : bool := frame_proto f =? 17.

(** ** One connection among others *)

(** The text of a call and the endpoints it is sent between. *)
Definition text_call (c : TextCall) : option (bytes * ((Z * Z) * (Z * Z))) :=
  match c with
  | AppText t si sp di dp => Some (t, ((si, sp), (di, dp)))
  | Sip t si _ di _ => Some (t, ((si, PORT_SIP), (di, PORT_SIP)))
  | Udp _ _ _ _ _ => None
  end.

Definition udp_call (c : TextCall) : option bytes :=
  match c with Udp p _ _ _ _ => Some p | _ => None end.

(** Addresses, ports and sizes a call may have. *)
Definition call_ok (c : TextCall) : Prop :=
  match c with
  | AppText t si sp di dp | Udp t si sp di dp | Sip t si sp di dp => ends_ok si sp di dp /\ small t
  end.

Lemma do_text_segment (now_us : nat -> Z) (c : TextCall) (w : PcapWriter) t si sp di dp :
  text_call c = Some (t, ((si, sp), (di, dp))) ->
  do_text now_us w c = write_segment now_us si sp di dp t (ensureTcpHandshake now_us si sp di dp w).
Proof. destruct c; intros E; try discriminate E; injection E as <- <- <- <- <-; reflexivity. Qed.

Lemma text_call_ok (c : TextCall) t si sp di dp :
  call_ok c -> text_call c = Some (t, ((si, sp), (di, dp))) -> ends_ok si sp di dp /\ small t.
Proof.
  destruct c; cbn; intros H E; try discriminate E; injection E as <- <- <- <- <-; [exact H|].
  destruct H as [(H1 & _ & H2 & _) H3]. split; [|exact H3].
  repeat split; first [apply H1|apply H2|unfold PORT_SIP; lia].
Qed.

Section Connection.
Variables (now_us : nat -> Z) (lo lo_p hi hi_p : Z).
Hypothesis Hends : ends_ok lo lo_p hi hi_p.
Hypothesis Hne : hi <> lo.
Hypothesis Hlt : endpoint lo lo_p < endpoint hi hi_p.

Let key : Z := connKey lo lo_p hi hi_p.

(** The call is a text of the connection: from [lo]? and the text. *)
Definition ours (c : TextCall) : option (bool * bytes) :=
  match text_call c with
  | Some (t, e) =>
      if bool_decide (e = ((lo, lo_p), (hi, hi_p))) then Some (true, t)
      else if bool_decide (e = ((hi, hi_p), (lo, lo_p))) then Some (false, t) else None
  | None => None
  end.

(** A text of another connection, under another key. *)
Definition apart (c : TextCall) : Prop :=
  match text_call c with
  | Some (_, ((si, sp), (di, dp))) => ours c = None -> connKey si sp di dp <> key
  | None => True
  end.

Definition on_conn (f : bytes) : bool :=
  (frame_proto f =? 6)
  && (bool_decide (frame_ends f = ((lo, lo_p), (hi, hi_p))) || bool_decide (frame_ends f = ((hi, hi_p), (lo, lo_p)))).

(** The frames of the connection, and the datagrams. *)
Definition conn_frames (fs : list bytes) : list bytes := List.filter on_conn fs.
Definition datagrams (fs : list bytes) : list bytes := map (drop 42) (List.filter is_udp fs).

(** An operation of another connection: it adds records of other connections
    and leaves the entry of this one as it is. *)
Definition other (w w' : PcapWriter) : Prop :=
  ready w -> ready w' /\ (key ∈ tcp_started_ w' <-> key ∈ tcp_started_ w) /\ conn_seq_ w' !! key = conn_seq_ w !! key
  /\ exists l, file_ w' = file_ w ++ records l /\ Forall good (map snd l)
       /\ conn_frames (map snd l) = [] /\ datagrams (map snd l) = [].

Lemma other_trans (w1 w2 w3 : PcapWriter) : other w1 w2 -> other w2 w3 -> other w1 w3.
Proof.
  intros H1 H2 Hw. destruct (H1 Hw) as (R1 & S1 & C1 & l1 & E1 & G1 & O1 & D1).
  destruct (H2 R1) as (R2 & S2 & C2 & l2 & E2 & G2 & O2 & D2).
  split; [exact R2|]. split; [tauto|]. split; [congruence|]. exists (l1 ++ l2).
  rewrite E2, E1, <- app_assoc, records_app, map_app. unfold conn_frames, datagrams in *.
  rewrite !filter_app, map_app, O1, O2, D1, D2. split; [reflexivity|]. split; [apply Forall_app; auto|]. auto.
Qed.

Lemma other_quiet (w w' : PcapWriter) :
  file_ w' = file_ w -> open_ w' = open_ w -> pkt_id_ w' = pkt_id_ w ->
  (key ∈ tcp_started_ w' <-> key ∈ tcp_started_ w) -> conn_seq_ w' !! key = conn_seq_ w !! key -> other w w'.
Proof.
  intros Ef Eo Ei Es Ec [Ho Hi]. split; [split; congruence|]. split; [exact Es|]. split; [exact Ec|]. exists [].
  rewrite Ef. split; [symmetry; apply app_nil_r|]. split; [constructor|]. split; reflexivity.
Qed.

Lemma other_tcp si sp di dp payload flags sq ak (w : PcapWriter) :
  small payload -> ends_ok si sp di dp -> ((si, sp), (di, dp)) <> ((lo, lo_p), (hi, hi_p)) ->
  ((si, sp), (di, dp)) <> ((hi, hi_p), (lo, lo_p)) ->
  other w (let '(f, w2) := buildIPTCP si sp di dp payload flags sq ak w in writePacket now_us f w2).
Proof.
  intros Hs He N1 N2 [Ho Hi]. set (f := (buildIPTCP si sp di dp payload flags sq ak w).1).
  change (let '(f, w2) := _ in _) with (writePacket now_us f (bump w)). rewrite write_bump by exact Ho.
  destruct (tcp_of_reads si sp di dp payload f He) as (P & E & _); [eexists _, _, _, _; reflexivity|].
  split; [split; [reflexivity|apply u32_range]|]. split; [reflexivity|]. split; [reflexivity|].
  exists [(now_us (packets w), f)]. split; [reflexivity|].
  split; [repeat constructor; apply (good_tcp si sp di dp payload flags sq ak w Hs)|].
  unfold conn_frames, datagrams, on_conn, is_udp. cbn [map snd List.filter]. rewrite P, E.
  rewrite !bool_decide_false by assumption. split; reflexivity.
Qed.

Section Other.
Variables (si sp di dp : Z).
Hypothesis He : ends_ok si sp di dp.
Hypothesis Hk : connKey si sp di dp <> key.
Hypothesis N1 : ((si, sp), (di, dp)) <> ((lo, lo_p), (hi, hi_p)).
Hypothesis N2 : ((si, sp), (di, dp)) <> ((hi, hi_p), (lo, lo_p)).

Lemma other_handshake (w : PcapWriter) : other w (ensureTcpHandshake now_us si sp di dp w).
Proof.
  unfold ensureTcpHandshake. destruct (bool_decide _); [apply other_quiet; reflexivity|].
  set (w0 := mkPcap _ _ (<[_ := mkConn 1000 2000]> _) _ _ _ _).
  assert (He' : ends_ok di dp si sp) by (unfold ends_ok in *; tauto).
  assert (N1' : ((di, dp), (si, sp)) <> ((lo, lo_p), (hi, hi_p))) by congruence.
  assert (N2' : ((di, dp), (si, sp)) <> ((hi, hi_p), (lo, lo_p))) by congruence.
  pose proof (other_tcp si sp di dp [] 0x02 1000 0 w0 small_nil He N1 N2) as G1.
  destruct (buildIPTCP si sp di dp [] 0x02 1000 0 w0) as [f1 w1]. set (v1 := writePacket now_us f1 w1) in *.
  pose proof (other_tcp di dp si sp [] 0x12 2000 1001 v1 small_nil He' N1' N2') as G2.
  destruct (buildIPTCP di dp si sp [] 0x12 2000 1001 v1) as [f2 w2]. set (v2 := writePacket now_us f2 w2) in *.
  pose proof (other_tcp si sp di dp [] 0x10 1001 2001 v2 small_nil He N1 N2) as G3.
  destruct (buildIPTCP si sp di dp [] 0x10 1001 2001 v2) as [f3 w3]. set (v3 := writePacket now_us f3 w3) in *.
  apply (other_trans w w0).
  { apply other_quiet; try reflexivity; cbn [w0 tcp_started_ conn_seq_]; [rewrite elem_of_union, elem_of_singleton; split; [intros [Q|Q]; [symmetry in Q; contradiction|exact Q]|auto]|].
    apply lookup_insert_ne, Hk. }
  apply (other_trans w0 v1); [exact G1|]. apply (other_trans v1 v2); [exact G2|].
  apply (other_trans v2 v3); [exact G3|]. apply other_quiet; try reflexivity. apply lookup_insert_ne, Hk.
Qed.

Lemma other_segment (payload : bytes) (w : PcapWriter) :
  small payload -> other w (write_segment now_us si sp di dp payload w).
Proof.
  intros Hs. unfold write_segment, nextSeq, peerSeq.
  set (w1 := set_conn _ w). set (w2 := set_conn _ w1).
  set (sq := if isClient si sp di dp then _ else _). set (ak := if isClient si sp di dp then _ else _).
  pose proof (other_tcp si sp di dp payload 0x18 sq ak w2 Hs He N1 N2) as G.
  destruct (buildIPTCP si sp di dp payload 0x18 sq ak w2) as [f w3]. set (v := writePacket now_us f w3) in *.
  apply (other_trans w w2).
  { apply other_quiet; try reflexivity. cbn. rewrite !lookup_insert_ne by exact Hk. reflexivity. }
  apply (other_trans w2 v); [exact G|]. apply other_quiet; try reflexivity. apply lookup_insert_ne, Hk.
Qed.

End Other.

Lemma other_text (c : TextCall) (w : PcapWriter) t e :
  call_ok c -> apart c -> text_call c = Some (t, e) -> ours c = None -> other w (do_text now_us w c).
Proof.
  destruct e as [[si sp] [di dp]]. intros Hc Ha E Ho. destruct (text_call_ok c t si sp di dp Hc E) as [He Hs].
  rewrite (do_text_segment now_us c w t si sp di dp E). unfold apart in Ha. rewrite E in Ha.
  unfold ours in *. rewrite E in *. specialize (Ha Ho).
  do 2 (match type of Ho with context [bool_decide ?P] => destruct (bool_decide_reflect P); [discriminate|] end).
  eapply other_trans; [apply other_handshake|apply other_segment]; assumption.
Qed.

(** A datagram. *)
Lemma udp_step p si sp di dp (w : PcapWriter) :
  ready w -> small p -> ends_ok si sp di dp ->
  let w' := do_text now_us w (Udp p si sp di dp) in
  ready w' /\ tcp_started_ w' = tcp_started_ w /\ conn_seq_ w' = conn_seq_ w
  /\ exists us f, file_ w' = file_ w ++ records [(us, f)] /\ good f
       /\ conn_frames [f] = [] /\ datagrams [f] = [p].
Proof.
  intros [Ho Hi] Hs He w'. set (f := (buildIPUDP si sp di dp p w).1).
  assert (E : w' = writePacket now_us f (bump w)) by (unfold w'; cbn [do_text]; unfold writeUdp; rewrite Ho; reflexivity).
  rewrite write_bump in E by exact Ho. rewrite E.
  destruct (udp_of_reads si sp di dp p f He) as (P & _ & D); [eexists; reflexivity|].
  split; [split; [reflexivity|apply u32_range]|]. split; [reflexivity|]. split; [reflexivity|].
  exists (now_us (packets w)), f. split; [reflexivity|].
  split; [exact (good_frame f p Hs (buildIPUDP_ok si sp di dp p w Hs) ltac:(unfold f; rewrite buildIPUDP_length; lia))|].
  unfold conn_frames, datagrams, on_conn, is_udp. cbn [List.filter]. rewrite P.
  cbn [Z.eqb Pos.eqb andb map]. rewrite D. split; reflexivity.
Qed.

(** The frames of the connection itself. *)
Lemma conn_tcp (m : bool) (t f : bytes) :
  (if m then tcp_of lo lo_p hi hi_p t f else tcp_of hi hi_p lo lo_p t f) ->
  on_conn f = true /\ is_udp f = false /\ drop 54 f = t.
Proof.
  assert (Hrev : ends_ok hi hi_p lo lo_p) by (unfold ends_ok in *; tauto).
  intros H. unfold on_conn, is_udp. destruct m;
    [destruct (tcp_of_reads lo lo_p hi hi_p t f Hends H) as (P & E & D)
    |destruct (tcp_of_reads hi hi_p lo lo_p t f Hrev H) as (P & E & D)];
    rewrite P, E; (split; [|split; [reflexivity|exact D]]); apply orb_true_iff; [left|right];
    apply bool_decide_eq_true_2; reflexivity.
Qed.

(** A data segment of the connection: [b] and [a] octets were sent before. *)
Definition our_frame (m : bool) (t : bytes) (b a : Z) (f : bytes) : Prop :=
  good f /\ on_conn f = true /\ is_udp f = false /\ frame_src f = (if m then lo else hi) /\ drop 54 f = t
  /\ frame_seq f = u32 (if m then b else a) /\ frame_ack f = u32 (if m then a else b).

Lemma our_segment (m : bool) (t : bytes) (b a : Z) (w : PcapWriter) :
  small t -> flowing lo lo_p hi hi_p b a w ->
  let w' := if m then write_segment now_us lo lo_p hi hi_p t w else write_segment now_us hi hi_p lo lo_p t w in
  exists us f, file_ w' = file_ w ++ records [(us, f)] /\ our_frame m t b a f
    /\ flowing lo lo_p hi hi_p (if m then b + segment_length f else b) (if m then a else a + segment_length f) w'.
Proof.
  intros Hs Hw w'. destruct Hends as (Hlo & _ & Hhi & _).
  destruct (segment_step now_us lo lo_p hi hi_p Hlo Hhi Hlt m t b a w Hw Hs)
    as (us & f & F1 & F2 & F3 & F4 & F5 & F6 & F7 & F8).
  exists us, f. split; [exact F1|]. destruct (conn_tcp m t f F7) as (C1 & C2 & C3). rewrite F6.
  split; [|exact F8]. unfold our_frame. auto 10.
Qed.

(** Where a text of the connection goes. *)
Lemma our_direction (c : TextCall) (m : bool) (t : bytes) :
  call_ok c -> ours c = Some (m, t) ->
  small t /\ text_call c = Some (t, if m then ((lo, lo_p), (hi, hi_p)) else ((hi, hi_p), (lo, lo_p))).
Proof.
  unfold ours. intros Hc H. destruct (text_call c) as [[t' [[si sp] [di dp]]]|] eqn:E; [|discriminate].
  destruct (text_call_ok c t' si sp di dp Hc E) as [_ Hs].
  destruct (bool_decide_reflect (((si, sp), (di, dp)) = ((lo, lo_p), (hi, hi_p)))) as [Q|_];
    [injection H as <- <-; rewrite Q; auto|].
  destruct (bool_decide_reflect (((si, sp), (di, dp)) = ((hi, hi_p), (lo, lo_p)))) as [Q|_]; [|discriminate].
  injection H as <- <-. rewrite Q. auto.
Qed.

Lemma our_text (c : TextCall) (m : bool) (t : bytes) (b a : Z) (w : PcapWriter) :
  call_ok c -> ours c = Some (m, t) -> flowing lo lo_p hi hi_p b a w ->
  exists us f, file_ (do_text now_us w c) = file_ w ++ records [(us, f)] /\ our_frame m t b a f
    /\ flowing lo lo_p hi hi_p (if m then b + segment_length f else b) (if m then a else a + segment_length f)
         (do_text now_us w c).
Proof.
  intros Hc Ho Hw. destruct (our_direction c m t Hc Ho) as [Hs E]. pose proof Hw as (_ & Hst & _).
  assert (S : forall si sp di dp, connKey si sp di dp = key -> text_call c = Some (t, ((si, sp), (di, dp))) ->
            do_text now_us w c = write_segment now_us si sp di dp t w).
  { intros si sp di dp Hk E'. rewrite (do_text_segment now_us c w t si sp di dp E').
    unfold ensureTcpHandshake. rewrite Hk, bool_decide_true by exact Hst. reflexivity. }
  pose proof (our_segment m t b a w Hs Hw) as H. cbv zeta in H.
  destruct m; [rewrite (S _ _ _ _ eq_refl E)|rewrite (S _ _ _ _ (key_reversed lo lo_p hi hi_p Hlt) E)]; exact H.
Qed.

(** What the frames of a capture say of the connection and of the datagrams. *)
Definition sent (mt : bool * bytes) : Z * bytes := (if mt.1 then lo else hi, mt.2).

Definition tells (cs : list TextCall) (fs ds : list bytes) : Prop :=
  map (fun f => (frame_src f, drop 54 f)) ds = map sent (omap ours cs) /\ datagrams fs = omap udp_call cs.

Lemma frames_cons (f : bytes) (fs : list bytes) :
  conn_frames (f :: fs) = conn_frames [f] ++ conn_frames fs /\ datagrams (f :: fs) = datagrams [f] ++ datagrams fs.
Proof.
  unfold conn_frames, datagrams. cbn [List.filter]. destruct (on_conn f), (is_udp f); split; reflexivity.
Qed.

Lemma frames_app (fs gs : list bytes) :
  conn_frames (fs ++ gs) = conn_frames fs ++ conn_frames gs /\ datagrams (fs ++ gs) = datagrams fs ++ datagrams gs.
Proof. unfold conn_frames, datagrams. rewrite !filter_app, map_app. split; reflexivity. Qed.

(** A call that is not a text of the connection. *)
Lemma other_call (c : TextCall) (w : PcapWriter) :
  call_ok c -> apart c -> ours c = None -> ready w ->
  let w' := do_text now_us w c in
  ready w' /\ (key ∈ tcp_started_ w' <-> key ∈ tcp_started_ w) /\ conn_seq_ w' !! key = conn_seq_ w !! key
  /\ exists l, file_ w' = file_ w ++ records l /\ Forall good (map snd l)
       /\ conn_frames (map snd l) = [] /\ datagrams (map snd l) = omap udp_call [c].
Proof.
  intros Hc Ha Ho Hw w'. destruct (text_call c) as [[t e]|] eqn:E.
  - destruct (other_text c w t e Hc Ha E Ho Hw) as (R & S & C & L). do 3 (split; [assumption|]).
    replace (omap udp_call [c]) with (@nil bytes) by (destruct c; (discriminate E || reflexivity)). exact L.
  - destruct c as [|p si sp di dp|]; try discriminate E. destruct Hc as [He Hs].
    destruct (udp_step p si sp di dp w Hw Hs He) as (R & S & C & us & f & F & G & O & D).
    split; [exact R|]. split; [unfold w'; rewrite S; reflexivity|]. split; [unfold w'; rewrite C; reflexivity|].
    exists [(us, f)]. split; [exact F|]. split; [repeat constructor; apply G|]. split; [exact O|exact D].
Qed.

(** Where the capture of the connection stands after the calls [cs]. *)
Lemma run_flowing (cs : list TextCall) (b a : Z) (w : PcapWriter) :
  Forall call_ok cs -> Forall apart cs -> flowing lo lo_p hi hi_p b a w ->
  exists l, file_ (do_texts now_us cs w) = file_ w ++ records l /\ Forall good (map snd l)
    /\ tells cs (map snd l) (conn_frames (map snd l)) /\ stream_ok lo b a (conn_frames (map snd l)).
Proof.
  intros H. revert b a w. induction H as [|c cs Hc _ IH]; intros b a w Ha Hw.
  - exists []. split; [symmetry; apply app_nil_r|]. repeat split. constructor.
  - inversion_clear Ha as [|? ? Ac Acs]. destruct (ours c) as [[m t]|] eqn:Ho.
    + destruct (our_text c m t b a w Hc Ho Hw) as (us & f & F & (G & O & U & S & D & Q & K) & Fl).
      destruct (IH _ _ _ Acs Fl) as (l & E & Gl & [T1 T2] & St). exists ((us, f) :: l).
      change (do_texts now_us (c :: cs) w) with (do_texts now_us cs (do_text now_us w c)).
      rewrite E, F, <- app_assoc. change ((us, f) :: l) with ([(us, f)] ++ l). rewrite records_app.
      split; [reflexivity|]. cbn [map app snd]. split; [constructor; assumption|].
      destruct (frames_cons f (map snd l)) as [C1 C2]. unfold tells. rewrite C1, C2. unfold conn_frames at 1 3.
      unfold datagrams at 1. cbn [List.filter]. rewrite O, U. cbn [map app omap list_omap stream_ok]. rewrite Ho.
      assert (N : udp_call c = None) by (unfold ours in Ho; destruct c; [reflexivity|discriminate Ho|reflexivity]).
      rewrite N. split; [split; [|exact T2]|].
      * cbn [map]. rewrite T1, S, D. reflexivity.
      * rewrite S. destruct m; [rewrite Z.eqb_refl|rewrite (proj2 (Z.eqb_neq _ _) Hne)]; auto.
    + destruct (other_call c w Hc Ac Ho (proj1 Hw)) as (R & S & C & l1 & F & G1 & O & D).
      assert (Fl : flowing lo lo_p hi hi_p b a (do_text now_us w c)).
      { destruct Hw as (_ & Hst & Hcs). split; [exact R|]. split; [apply S, Hst|exact (eq_trans C Hcs)]. }
      destruct (IH _ _ _ Acs Fl) as (l & E & Gl & [T1 T2] & St). exists (l1 ++ l).
      change (do_texts now_us (c :: cs) w) with (do_texts now_us cs (do_text now_us w c)).
      rewrite E, F, <- app_assoc, records_app. split; [reflexivity|].
      rewrite map_app. split; [apply Forall_app; auto|].
      destruct (frames_app (map snd l1) (map snd l)) as [C1 C2]. unfold tells. rewrite C1, C2, O, D.
      cbn [app omap list_omap]. rewrite Ho. split; [split; [exact T1|]|exact St].
      rewrite T2. change (c :: cs) with ([c] ++ cs). symmetry. apply (omap_app udp_call [c] cs).
Qed.

(** The frames that open a connection: who sends, flags, numbers. *)
Definition opening (m : bool) : list (Z * Z * Z * Z) :=
  let x := if m then lo else hi in
  let y := if m then hi else lo in
  [(x, 0x02, 1000, 0); (y, 0x12, 2000, 1001); (x, 0x10, 1001, 2001)].

Lemma opening_frames (m : bool) (l : list bytes) :
  Forall (fun f => (if m then tcp_of lo lo_p hi hi_p [] f else tcp_of hi hi_p lo lo_p [] f)
            \/ (if m then tcp_of hi hi_p lo lo_p [] f else tcp_of lo lo_p hi hi_p [] f)) l ->
  conn_frames l = l /\ datagrams l = [].
Proof.
  intros H. induction H as [|f l Hf _ [IH1 IH2]]; [split; reflexivity|].
  assert (K : on_conn f = true /\ is_udp f = false).
  { destruct Hf as [Hf|Hf]; [destruct (conn_tcp m [] f Hf) as (A & B & _)|]; [auto|].
    destruct (conn_tcp (negb m) [] f) as (A & B & _); [destruct m; exact Hf|auto]. }
  destruct K as [A B]. unfold conn_frames, datagrams in *. cbn [List.filter]. rewrite A, B, IH1. auto.
Qed.

(** The first text: the handshake from its sender, then its segment. *)
Lemma first_text (c : TextCall) (m : bool) (t : bytes) (w : PcapWriter) :
  call_ok c -> ours c = Some (m, t) -> ready w -> key ∉ tcp_started_ w ->
  exists l us f, file_ (do_text now_us w c) = file_ w ++ records (l ++ [(us, f)]) /\ Forall good (map snd l)
    /\ map summary (map snd l) = opening m /\ conn_frames (map snd l) = map snd l /\ datagrams (map snd l) = []
    /\ our_frame m t 1001 2001 f
    /\ flowing lo lo_p hi hi_p (if m then 1001 + segment_length f else 1001)
         (if m then 2001 else 2001 + segment_length f) (do_text now_us w c).
Proof.
  intros Hc Ho Hw Hst. destruct (our_direction c m t Hc Ho) as [Hs E]. destruct Hends as (Hlo & _ & Hhi & _).
  assert (H : exists wh, do_text now_us w c = (if m then write_segment now_us lo lo_p hi hi_p t wh
                                              else write_segment now_us hi hi_p lo lo_p t wh)
    /\ exists l, file_ wh = file_ w ++ records l /\ Forall good (map snd l) /\ map summary (map snd l) = opening m
       /\ (conn_frames (map snd l) = map snd l /\ datagrams (map snd l) = []) /\ flowing lo lo_p hi hi_p 1001 2001 wh).
  { destruct m; eexists; (split; [exact (do_text_segment now_us c w _ _ _ _ _ E)|]).
    - destruct (handshake_start now_us lo lo_p hi hi_p lo lo_p hi hi_p w Hlo Hhi eq_refl Hst Hw) as (l & L1 & L2 & L3 & L4 & L5).
      exists l. do 3 (split; [assumption|]). split; [exact (opening_frames true _ L4)|exact L5].
    - destruct (handshake_start now_us lo lo_p hi hi_p hi hi_p lo lo_p w Hhi Hlo (key_reversed lo lo_p hi hi_p Hlt) Hst Hw)
        as (l & L1 & L2 & L3 & L4 & L5).
      exists l. do 3 (split; [assumption|]). split; [exact (opening_frames false _ L4)|exact L5]. }
  destruct H as (wh & Ew & l & L1 & L2 & L3 & [L4 L5] & L6).
  pose proof (our_segment m t 1001 2001 wh Hs L6) as K. cbv zeta in K. rewrite <- Ew in K.
  destruct K as (us & f & F1 & F2 & F3). exists l, us, f. rewrite F1, L1, <- app_assoc, <- records_app. auto 10.
Qed.

Lemma run_fresh (cs : list TextCall) (w : PcapWriter) (m : bool) (t : bytes) (rest : list (bool * bytes)) :
  Forall call_ok cs -> Forall apart cs -> ready w -> key ∉ tcp_started_ w -> omap ours cs = (m, t) :: rest ->
  exists l hs ds, file_ (do_texts now_us cs w) = file_ w ++ records l /\ Forall good (map snd l)
    /\ conn_frames (map snd l) = hs ++ ds /\ map summary hs = opening m
    /\ tells cs (map snd l) ds /\ stream_ok lo 1001 2001 ds.
Proof.
  intros H. revert w. induction H as [|c cs Hc Hcs IH]; intros w Ha Hw Hst Hf; [discriminate|].
  inversion_clear Ha as [|? ? Ac Acs]. cbn [omap list_omap] in Hf.
  change (do_texts now_us (c :: cs) w) with (do_texts now_us cs (do_text now_us w c)).
  assert (U : omap udp_call (c :: cs) = omap udp_call [c] ++ omap udp_call cs)
    by (change (c :: cs) with ([c] ++ cs); apply omap_app).
  destruct (ours c) as [[m' t']|] eqn:Ho.
  - injection Hf as -> -> Hr.
    destruct (first_text c m t w Hc Ho Hw Hst) as (l1 & us & f & F & G1 & S1 & O1 & D1 & (G & O & V & S & D & Q & K) & Fl).
    destruct (run_flowing cs _ _ _ Hcs Acs Fl) as (l & E & Gl & [T1 T2] & St).
    exists ((l1 ++ [(us, f)]) ++ l), (map snd l1), (f :: conn_frames (map snd l)).
    rewrite E, F, <- app_assoc, <- records_app. split; [reflexivity|].
    destruct (frames_app (map snd (l1 ++ [(us, f)])) (map snd l)) as [C1 C2].
    destruct (frames_app (map snd l1) [f]) as [C3 C4]. rewrite !map_app in *. cbn [map snd] in *.
    assert (B : conn_frames [f] = [f] /\ datagrams [f] = [])
      by (unfold conn_frames, datagrams; cbn [List.filter]; rewrite O, V; auto).
    destruct B as [B1 B2]. unfold tells. rewrite C1, C2, C3, C4, O1, D1, B1, B2, <- app_assoc.
    split; [apply Forall_app; split; [exact G1|constructor; [exact G|exact Gl]]|].
    split; [rewrite <- app_assoc; reflexivity|]. split; [exact S1|]. split; [split|].
    + cbn [map omap list_omap]. rewrite Ho. cbn [map]. rewrite T1, S, D. reflexivity.
    + assert (N : omap udp_call [c] = []) by (unfold ours in Ho; destruct c; [reflexivity|discriminate Ho|reflexivity]).
      rewrite U, N. exact T2.
    + cbn [stream_ok]. rewrite S. destruct m; [rewrite Z.eqb_refl|rewrite (proj2 (Z.eqb_neq _ _) Hne)]; auto.
  - destruct (other_call c w Hc Ac Ho Hw) as (R & S & C & l1 & F & G1 & O & D).
    destruct (IH _ Acs R) as (l & hs & ds & E & Gl & Hl & Sm & [T1 T2] & St); [rewrite S; exact Hst|exact Hf|].
    exists (l1 ++ l), hs, ds. rewrite E, F, <- app_assoc, records_app. split; [reflexivity|].
    destruct (frames_app (map snd l1) (map snd l)) as [C1 C2]. rewrite map_app. unfold tells. rewrite C1, C2, O, D, Hl, U.
    cbn [omap list_omap]. rewrite Ho.
    split; [apply Forall_app; auto|]. split; [reflexivity|]. split; [exact Sm|].
    split; [split; [exact T1|rewrite T2; reflexivity]|exact St].
Qed.

End Connection.

(** The number the handshake leaves to the one that sent it, and to the other. *)
Definition after_opening (opener : bool) : Z := if opener then 1001 else 2001.

Lemma continues_opening (lo hi : Z) (m : bool) (t : bytes) (rest : list (bool * bytes)) (ds : list bytes) :
  hi <> lo -> map (fun f => (frame_src f, drop 54 f)) ds = map (sent lo hi) ((m, t) :: rest) ->
  stream_ok lo 1001 2001 ds ->
  (stream_ok lo (after_opening m) (after_opening (negb m)) ds <-> m = true).
Proof.
  intros Hne E St. destruct m; [tauto|]. split; [|discriminate]. cbn [after_opening negb]. intros St'. exfalso.
  destruct ds as [|f ds]; [discriminate E|]. cbn in E. injection E as Es _ _. cbn [stream_ok] in St, St'.
  rewrite Es, (proj2 (Z.eqb_neq _ _) Hne) in St, St'. destruct St as [Q _], St' as [Q' _]. rewrite Q in Q'. vm_compute in Q'. discriminate Q'.
Qed.

(** ** Properties *)

(** C33. Every conversation that shares its key with no other is in the
    capture, whatever else is.  Let texts and datagrams be written in any order,
    over connections of which none has the key of the connection between two
    addresses [lo] and [hi] but that connection itself; the nodes of the
    programs have no other ([conversations_apart]).  The file reads back to
    frames with verifying headers, of which those between [lo] and [hi] are a
    handshake from the sender of the first text and one segment per text, in
    order, from its sender and with the text as its octets; the segments of
    [lo] are numbered on from 1001 and those of [hi] on from 2001, each
    acknowledging the other's, which continues the handshake's numbers when
    [lo] sent the first text and only then; and the datagrams are there, in
    order.  The 5G writer may have been used, and left in any state, before it
    is opened. *)
Theorem texts_captured (now_us : nat -> Z) (lo lo_p hi hi_p : Z) (cs : list TextCall) (w : PcapWriter)
    (m : bool) (t : bytes) (rest : list (bool * bytes))
    (Hends : ends_ok lo lo_p hi hi_p) (Hne : hi <> lo) (Hlt : endpoint lo lo_p < endpoint hi hi_p)
    (Hok : Forall call_ok cs) (Hapart : Forall (apart lo lo_p hi hi_p) cs) (Hid : in_u 32 (pkt_id_ w))
    (Hours : omap (ours lo lo_p hi hi_p) cs = (m, t) :: rest) :
  exists fs hs ds,
    read_pcap (file_ (do_texts now_us cs (open5 true w))) = Some fs /\ Forall ip_ok fs
    /\ conn_frames lo lo_p hi hi_p fs = hs ++ ds /\ map summary hs = opening lo hi m
    /\ map (fun f => (frame_src f, drop 54 f)) ds = map (sent lo hi) ((m, t) :: rest)
    /\ stream_ok lo 1001 2001 ds
    /\ (stream_ok lo (after_opening m) (after_opening (negb m)) ds <-> m = true)
    /\ datagrams fs = omap udp_call cs.
Proof.
  destruct (run_fresh now_us lo lo_p hi hi_p Hends Hne Hlt cs (open5 true w) m t rest Hok Hapart)
    as (l & hs & ds & F & G & C & S & [T1 T2] & St); [split; [reflexivity|exact Hid]|apply not_elem_of_empty|exact Hours|].
  exists (map snd l), hs, ds. split; [exact (read_captured _ l F G)|].
  split; [eapply List.Forall_impl; [|exact G]; intros f Hf; apply Hf|]. rewrite Hours in T1.
  do 4 (split; [assumption|]). split; [exact (continues_opening lo hi m t rest ds Hne T1 St)|exact T2].
Qed.

(** The calls around a registration: N2, SBI and N4. *)
Definition sample_calls : list TextCall :=
  [AppText (str "{registrationRequest}") IP5_GNB PORT_N2 IP5_AMF PORT_N2;
   AppText (str "POST /nudm-ueau") IP5_AMF PORT_SBI IP5_UDM PORT_SBI;
   Udp [0x20; 50; 0] IP5_SMF PORT_PFCP5 IP5_UPF PORT_PFCP5;
   AppText (str "HTTP/1.1 200 OK") IP5_UDM PORT_SBI IP5_AMF PORT_SBI;
   AppText (str "{authenticationRequest}") IP5_AMF PORT_N2 IP5_GNB PORT_N2].

Lemma texts_captured_witness :
  exists fs hs ds,
    read_pcap (file_ (do_texts (fun _ => 0) sample_calls (open5 true newPcapWriter))) = Some fs /\ Forall ip_ok fs
    /\ conn_frames IP5_AMF PORT_SBI IP5_UDM PORT_SBI fs = hs ++ ds /\ map summary hs = opening IP5_AMF IP5_UDM true
    /\ map (fun f => (frame_src f, drop 54 f)) ds
       = [(IP5_AMF, str "POST /nudm-ueau"); (IP5_UDM, str "HTTP/1.1 200 OK")]
    /\ stream_ok IP5_AMF 1001 2001 ds /\ (stream_ok IP5_AMF 1001 2001 ds <-> true = true)
    /\ datagrams fs = [[0x20; 50; 0]].
Proof.
  apply (texts_captured (fun _ => 0) IP5_AMF PORT_SBI IP5_UDM PORT_SBI sample_calls newPcapWriter true
           (str "POST /nudm-ueau") [(false, str "HTTP/1.1 200 OK")]);
    try reflexivity; try discriminate.
  - repeat split; vm_compute; (reflexivity || discriminate).
  - repeat constructor; vm_compute; (reflexivity || discriminate).
  - repeat constructor; cbn; vm_compute; congruence.
  - split; vm_compute; (reflexivity || discriminate).
Defined.

(** The endpoints the programs write texts between: the 5G functions with
    their N2 and SBI ports, and the IMS nodes and phones at the SIP port. *)
Definition ends_5g : list (Z * Z) :=
  [(IP5_GNB, PORT_N2); (IP5_AMF, PORT_N2); (IP5_AMF, PORT_SBI); (IP5_SMF, PORT_SBI); (IP5_UDM, PORT_SBI)].
Definition ends_ims : list (Z * Z) :=
  map (fun ip => (ip, PORT_SIP)) [IP_UE; 0x0A000002; 0x0A000003; IP_PCSCF; IP_SCSCF; IP_MTAS; 0x0A00000B].

(** The keys of two connections between endpoints of a list differ, unless the
    connections are the same. *)
Definition keys_apart (ends : list (Z * Z)) : bool :=
  forallb (fun a => forallb (fun b => forallb (fun c => forallb (fun d =>
    negb (connKey a.1 a.2 b.1 b.2 =? connKey c.1 c.2 d.1 d.2)
    || bool_decide ((a, b) = (c, d)) || bool_decide ((a, b) = (d, c))) ends) ends) ends) ends.

Lemma keys_apart_spec (ends : list (Z * Z)) (a b c d : Z * Z) :
  keys_apart ends = true -> In a ends -> In b ends -> In c ends -> In d ends ->
  connKey a.1 a.2 b.1 b.2 = connKey c.1 c.2 d.1 d.2 -> (a, b) = (c, d) \/ (a, b) = (d, c).
Proof.
  intros H Ha Hb Hc Hd E. unfold keys_apart in H.
  rewrite forallb_forall in H. specialize (H a Ha). rewrite forallb_forall in H. specialize (H b Hb).
  rewrite forallb_forall in H. specialize (H c Hc). rewrite forallb_forall in H. specialize (H d Hd).
  rewrite E, Z.eqb_refl in H. cbn [negb orb] in H. apply orb_prop in H.
  destruct H as [H|H]; apply bool_decide_eq_true in H; auto.
Qed.

(** No connection of the programs hides another.  The 64-bit key does not
    hold two endpoints, but between the nodes of the 5G core, and between those
    of the IMS, two connections have the same key only when they are the same:
    the texts between any of them are apart from those of any connection of
    the same core, so that every conversation is captured. *)
Theorem conversations_apart (ends : list (Z * Z)) (lo hi : Z * Z) (c : TextCall) (t : bytes) (si di : Z * Z) :
  ends = ends_5g \/ ends = ends_ims -> In lo ends -> In hi ends -> text_call c = Some (t, (si, di)) ->
  In si ends -> In di ends -> apart lo.1 lo.2 hi.1 hi.2 c.
Proof.
  intros He Hlo Hhi Hc Hsi Hdi. assert (K : keys_apart ends = true) by (destruct He; subst; vm_compute; reflexivity).
  unfold apart, ours. rewrite Hc. destruct si as [si sp], di as [di dp], lo as [lo lp], hi as [hi hp]. cbn [fst snd].
  intros Ho E. destruct (keys_apart_spec ends (si, sp) (di, dp) (lo, lp) (hi, hp) K Hsi Hdi Hlo Hhi E) as [Q|Q];
    rewrite Q in Ho; [rewrite bool_decide_eq_true_2 in Ho by reflexivity; discriminate|].
  destruct (bool_decide _); [discriminate|]. rewrite bool_decide_eq_true_2 in Ho by reflexivity. discriminate.
Qed.

Lemma conversations_apart_witness :
  apart IP_UE PORT_SIP IP_PCSCF PORT_SIP (Sip (str "BYE") IP_PCSCF 1 IP_SCSCF 2).
Proof.
  apply (conversations_apart ends_ims (IP_UE, PORT_SIP) (IP_PCSCF, PORT_SIP)
           (Sip (str "BYE") IP_PCSCF 1 IP_SCSCF 2) (str "BYE") (IP_PCSCF, PORT_SIP) (IP_SCSCF, PORT_SIP));
    [right; reflexivity| | |reflexivity| |]; repeat (try (left; reflexivity); right).
Defined.
