(* ===== verification/Strings.v ===== *)
(** * Character strings

    What the 5G, CBRS and IMS programs use of [std::string] and of the string
    streams: searching, cutting, splitting into words and lines, and the
    conversions [to_string], [stoul] and [setw].  A character is its code;
    [std::string::npos] is [None]. *)

From S2P Require Import Prelude Text.
#[local] Open Scope Z_scope.

(** ** Searching *)

Fixpoint prefixb (p s : bytes) : bool :=
  match p, s with
  | [], _ => true
  | _, [] => false
  | x :: p', y :: s' => (x =? y) && prefixb p' s'
  end.

(** [s.find(needle)]. *)
Fixpoint find_sub (needle s : bytes) : option nat :=
  if prefixb needle s then Some O
  else match s with
       | [] => None
       | _ :: s' => S <$> find_sub needle s'
       end.

(** [s.find(needle) != npos]. *)
Definition contains (needle s : bytes) : bool :=
  match find_sub needle s with Some _ => true | None => false end.

(** The first position whose character satisfies a test:
    [s.find(c)], [s.find_first_of("...")]. *)
Fixpoint find_if (p : Z -> bool) (s : bytes) : option nat :=
  match s with
  | [] => None
  | c :: s' => if p c then Some O else S <$> find_if p s'
  end.

(** The same from a position: [s.find(c, pos)]. *)
Definition find_if_from (p : Z -> bool) (s : bytes) (pos : nat) : option nat :=
  (fun i => (pos + i)%nat) <$> find_if p (drop pos s).

(** [s.rfind(c)]. *)
Fixpoint rfind (c : Z) (s : bytes) : option nat :=
  match s with
  | [] => None
  | x :: s' =>
      match rfind c s' with
      | Some i => Some (S i)
      | None => if x =? c then Some O else None
      end
  end.

(** [s.substr(pos, end - pos)], for a [pos] within the string: up to [end],
    or to the end of the string when [end] is [npos]. *)
Definition substr (s : bytes) (pos : nat) (e : option nat) : bytes :=
  match e with
  | Some e => take (e - pos) (drop pos s)
  | None => drop pos s
  end.

(** What follows the first occurrence of [needle]. *)
Definition after (needle s : bytes) : option bytes :=
  (fun i => drop (i + length needle) s) <$> find_sub needle s.

(** ** Words and lines *)

(** [ss >> word]: leading white space is skipped; the word, and the rest. *)
Fixpoint take_word (s : bytes) : bytes * bytes :=
  match s with
  | [] => ([], [])
  | c :: s' => if is_space c then ([], s) else let '(w, r) := take_word s' in (c :: w, r)
  end.
Definition read_word (s : bytes) : bytes * bytes := take_word (skip_spaces s).

(** [std::getline(s, line)]: the line without its [\n], and the rest. *)
Fixpoint cut_line (s : bytes) : bytes * bytes :=
  match s with
  | [] => ([], [])
  | c :: s' => if c =? 10 then ([], s') else let '(l, r) := cut_line s' in (c :: l, r)
  end.

(** [if (!line.empty() && line.back() == '\r') line.pop_back()]. *)
Definition chomp (l : bytes) : bytes :=
  match rev l with
  | c :: r => if c =? 13 then rev r else l
  | [] => l
  end.

(** A string stream: what is left of it, [None] once an extraction failed. *)
Abbreviation istream := (option bytes).

(** [iss >> word]; a failed extraction leaves the word empty. *)
Definition extract_word (iss : istream) : bytes * istream :=
  match iss with
  | None => ([], None)
  | Some r => match skip_spaces r with [] => ([], None) | r' => let '(w, l) := take_word r' in (w, Some l) end
  end.

(** [std::toupper] and [std::tolower]; the cast before them is undefined for
    characters outside of ASCII. *)
Definition to_upper (c : Z) : Z := if (97 <=? c) && (c <=? 122) then c - 32 else c.
Definition to_lower (c : Z) : Z := if (65 <=? c) && (c <=? 90) then c + 32 else c.

Definition change_case (f : Z -> Z) (w : bytes) : res bytes :=
  if forallb (fun c => (0 <=? c) && (c <? 128)) w then Ok (map f w) else Undefined.

(** ** Numbers *)

(** [std::to_string] of a signed value. *)
Definition to_stringZ (n : Z) : bytes :=
  if n <? 0 then 45 :: to_string (- n) else to_string n.

(** [iss >> n], for an [int n] that holds [old]: nothing is stored when there
    is nothing to read, 0 when what is there is no number, the nearest [int]
    when it is too large. *)
Definition extract_int (old : Z) (iss : istream) : Z * istream :=
  match iss with
  | None => (old, None)
  | Some r =>
      match skip_spaces r with
      | [] => (old, None)
      | r' =>
          let '(neg, l1) := scan_sign r' in
          let '(v, n, l2) := scan_digits l1 0 0 in
          match n with
          | O => (0, None)
          | S _ =>
              let v := if neg then - v else v in
              if v <? - 2 ^ 31 then (- 2 ^ 31, None)
              else if 2 ^ 31 <=? v then (2 ^ 31 - 1, None) else (v, Some l2)
          end
      end
  end.

(** [std::stoul]: [None] when it throws; a minus sign negates modulo 2^64. *)
Definition stoul (s : bytes) : option Z :=
  let '(neg, l1) := scan_sign (skip_spaces s) in
  let '(v, n, l2) := scan_digits l1 0 0 in
  match n with
  | O => None
  | S _ => if 2 ^ 64 <=? v then None else Some (if neg then u64 (- v) else v)
  end.

(** [ss << std::setw(w) << std::setfill('0') << n]: the number, with fill
    characters in front. *)
Definition setw (w : nat) (s : bytes) : bytes := repeat 48 (w - length s) ++ s.

(** ** Lemmas: searching *)

Lemma prefixb_app (p s : bytes) : prefixb p (p ++ s) = true.
Proof. induction p as [|x p IH]; [reflexivity|]. cbn. rewrite Z.eqb_refl. exact IH. Qed.

Lemma find_sub_app (p s : bytes) : find_sub p (p ++ s) = Some O.
Proof. destruct (p ++ s) eqn:E; cbn; rewrite <- E, prefixb_app; reflexivity. Qed.

Lemma after_hit (p s : bytes) : after p (p ++ s) = Some s.
Proof. unfold after. rewrite find_sub_app. cbn. rewrite drop_app_length. reflexivity. Qed.

Lemma after_skip (p s : bytes) (c : Z) :
  prefixb p (c :: s) = false -> after p (c :: s) = after p s.
Proof.
  intros H. unfold after. cbn [find_sub]. rewrite H.
  destruct (find_sub p s); reflexivity.
Qed.

Lemma after_nil (c : Z) (p : bytes) : after (c :: p) [] = None.
Proof. reflexivity. Qed.

(** Characters other than the first of the needle are passed over. *)
Lemma after_skip_app (c : Z) (p l s : bytes) :
  Forall (fun x => x <> c) l -> after (c :: p) (l ++ s) = after (c :: p) s.
Proof.
  induction 1 as [|x l Hx _ IH]; [reflexivity|]. cbn [app].
  rewrite after_skip; [exact IH|]. cbn. replace (c =? x) with false by lia. reflexivity.
Qed.

Lemma find_if_app (p : Z -> bool) (l s : bytes) :
  Forall (fun c => p c = false) l -> find_if p (l ++ s) = (fun i => (length l + i)%nat) <$> find_if p s.
Proof.
  induction 1 as [|c l Hc _ IH]; cbn [app find_if length Nat.add].
  - destruct (find_if p s); reflexivity.
  - rewrite Hc, IH. destruct (find_if p s); reflexivity.
Qed.

(** The first position of a character that a prefix does not have. *)
Lemma find_if_at (p : Z -> bool) (l s : bytes) (c : Z) :
  Forall (fun x => p x = false) l -> p c = true -> find_if p (l ++ c :: s) = Some (length l).
Proof.
  intros Hl Hc. rewrite find_if_app by exact Hl. cbn. rewrite Hc. cbn. f_equal. lia.
Qed.

Lemma find_if_none (p : Z -> bool) (l : bytes) :
  Forall (fun x => p x = false) l -> find_if p l = None.
Proof. intros H. rewrite <- (app_nil_r l), find_if_app by exact H. reflexivity. Qed.

Lemma rfind_app (c : Z) (l s : bytes) :
  Forall (fun x => x <> c) s -> rfind c (l ++ c :: s) = Some (length l).
Proof.
  intros Hs. induction l as [|x l IH]; cbn [app rfind length].
  - assert (H : rfind c s = None).
    { clear - Hs. induction Hs as [|x s Hx _ IH]; [reflexivity|]. cbn. rewrite IH.
      replace (x =? c) with false by lia. reflexivity. }
    rewrite H, Z.eqb_refl. reflexivity.
  - rewrite IH. reflexivity.
Qed.

(** ** Lemmas: words and lines *)

Lemma take_word_app (w s : bytes) (c : Z) :
  Forall (fun x => is_space x = false) w -> is_space c = true ->
  take_word (w ++ c :: s) = (w, c :: s).
Proof.
  intros Hw Hc. induction Hw as [|x w Hx _ IH]; cbn.
  - rewrite Hc. reflexivity.
  - rewrite Hx, IH. reflexivity.
Qed.

Lemma read_word_app (w s : bytes) (c : Z) :
  w <> [] -> Forall (fun x => is_space x = false) w -> is_space c = true ->
  read_word (w ++ c :: s) = (w, c :: s).
Proof.
  intros Hne Hw Hc. unfold read_word. destruct w as [|x w]; [contradiction|].
  inversion_clear Hw as [|? ? Hx Hw']. cbn [app skip_spaces]. rewrite Hx.
  apply (take_word_app (x :: w)); [constructor; assumption|exact Hc].
Qed.

Lemma read_word_space (s : bytes) : read_word (32 :: s) = read_word s.
Proof. reflexivity. Qed.

Lemma skip_spaces_cons (l : bytes) (c : Z) (r : bytes) :
  skip_spaces l = c :: r -> is_space c = false /\ (length r < length l)%nat.
Proof.
  induction l as [|x l IH]; [discriminate|]. cbn. destruct (is_space x) eqn:Ex.
  - intros E. apply IH in E as [Hc Hl]. split; [exact Hc|cbn; lia].
  - intros [= <- <-]. split; [exact Ex|cbn; lia].
Qed.

Lemma take_word_length (s w r : bytes) : take_word s = (w, r) -> (length r <= length s)%nat.
Proof.
  revert w. induction s as [|c s IH]; cbn; [intros w [= <- <-]; cbn; lia|]. intros w.
  destruct (is_space c); [intros [= <- <-]; cbn; lia|]. destruct (take_word s) as [w' r'].
  intros [= <- <-]. specialize (IH w' eq_refl). cbn. lia.
Qed.

(** A word taken from a stream makes it shorter. *)
Lemma extract_word_shorter (s w r : bytes) :
  extract_word (Some s) = (w, Some r) -> (length r < length s)%nat.
Proof.
  unfold extract_word. destruct (skip_spaces s) as [|c l] eqn:Es; [discriminate|].
  apply skip_spaces_cons in Es as [Hc Hl]. cbn [take_word]. rewrite Hc.
  destruct (take_word l) as [w' l'] eqn:E. intros [= <- <-]. apply take_word_length in E.
  cbn [length] in Hl. lia.
Qed.

Lemma cut_line_app (l s : bytes) :
  Forall (fun x => x <> 10) l -> cut_line (l ++ 10 :: s) = (l, s).
Proof.
  induction 1 as [|x l Hx _ IH]; [reflexivity|]. cbn.
  replace (x =? 10) with false by lia. rewrite IH. reflexivity.
Qed.

Lemma cut_line_end (l : bytes) : Forall (fun x => x <> 10) l -> cut_line l = (l, []).
Proof.
  induction 1 as [|x l Hx _ IH]; [reflexivity|]. cbn.
  replace (x =? 10) with false by lia. rewrite IH. reflexivity.
Qed.

Lemma chomp_cr (l : bytes) : chomp (l ++ [13]) = l.
Proof. unfold chomp. rewrite rev_app_distr. cbn. apply rev_involutive. Qed.

Lemma chomp_id (l : bytes) : Forall (fun x => x <> 13) l -> chomp l = l.
Proof.
  intros H. unfold chomp. destruct (rev l) as [|c r] eqn:E; [reflexivity|].
  assert (Hc : c <> 13).
  { rewrite List.Forall_forall in H. apply H, in_rev. rewrite E. left. reflexivity. }
  replace (c =? 13) with false by lia. reflexivity.
Qed.

(** ** Lemmas: numbers *)

Lemma to_string_digits (n : Z) : 0 <= n -> all_digits (to_string n).
Proof. intros Hn. apply (to_string_spec n Hn). Qed.

Lemma to_string_nonempty (n : Z) : 0 <= n -> to_string n <> [].
Proof. intros Hn. apply (to_string_spec n Hn). Qed.

Lemma to_string_inj (a b : Z) : 0 <= a -> 0 <= b -> to_string a = to_string b -> a = b.
Proof.
  intros Ha Hb E. destruct (to_string_spec a Ha) as (_ & _ & <-).
  destruct (to_string_spec b Hb) as (_ & _ & <-). rewrite E. reflexivity.
Qed.

(** Reading printed digits, with fill zeros in front or not. *)
Lemma scan_printed (l : bytes) (c : Z) (ds : bytes) :
  all_digits l -> l = c :: ds ->
  scan_sign (skip_spaces l) = (false, l)
  /\ scan_digits l 0 0 = (fold_left (fun v c => v * 10 + (c - 48)) l 0, length l, []).
Proof.
  intros Hd E. assert (Hc : is_digit c = true) by (subst; inversion Hd; auto).
  pose proof (scan_digits_app l [] 0 0 Hd) as Hs. rewrite app_nil_r in Hs.
  split.
  - subst l. cbn [skip_spaces]. rewrite digit_not_space by exact Hc. cbn [scan_sign].
    unfold is_digit in Hc. replace (c =? 45) with false by lia.
    replace (c =? 43) with false by lia. reflexivity.
  - rewrite Hs. cbn. f_equal. f_equal. lia.
Qed.

(** What may follow a word or a number: nothing, or white space. *)
Definition ends_word (r : bytes) : Prop :=
  match r with [] => True | c :: _ => is_space c = true end.

Lemma space_not_digit (c : Z) : is_space c = true -> is_digit c = false.
Proof. destruct (is_digit c) eqn:E; [|reflexivity]. rewrite (digit_not_space c E). discriminate. Qed.

Lemma scan_digits_end (r : bytes) (v : Z) (n : nat) : ends_word r -> scan_digits r v n = (v, n, r).
Proof. destruct r as [|c r]; [reflexivity|]. intros Hc. cbn. rewrite (space_not_digit c Hc). reflexivity. Qed.

Lemma extract_int_before (d n : Z) (r : bytes) :
  0 <= n < 2 ^ 31 -> ends_word r -> extract_int d (Some (32 :: to_string n ++ r)) = (n, Some r).
Proof.
  intros Hn Hr. unfold extract_int.
  change (skip_spaces (32 :: to_string n ++ r)) with (skip_spaces (to_string n ++ r)).
  destruct (to_string_spec n) as (Hd & Hne & Hv); [lia|].
  pose proof (scan_digits_app (to_string n) r 0 0 Hd) as Hs. rewrite (scan_digits_end r) in Hs by exact Hr. rewrite Hv in Hs.
  destruct (to_string n) as [|c ds] eqn:E; [contradiction|].
  destruct (scan_printed (c :: ds) c ds Hd eq_refl) as [H1 _].
  assert (Hc : is_digit c = true) by (inversion Hd; assumption).
  cbn [app skip_spaces] in *. rewrite (digit_not_space c Hc) in *.
  assert (Hsign : scan_sign (c :: ds ++ r) = (false, c :: ds ++ r)).
  { unfold is_digit in Hc. cbn [scan_sign]. replace (c =? 45) with false by lia.
    replace (c =? 43) with false by lia. reflexivity. }
  rewrite Hsign, Hs. cbn [length Nat.add].
  replace (n <? - 2 ^ 31) with false by lia. replace (2 ^ 31 <=? n) with false by lia. reflexivity.
Qed.

Lemma extract_int_printed (d n : Z) :
  0 <= n < 2 ^ 31 -> extract_int d (Some (32 :: to_string n)) = (n, Some []).
Proof. intros Hn. rewrite <- (app_nil_r (to_string n)) at 1. apply extract_int_before; [exact Hn|exact I]. Qed.

Lemma extract_int_range (d : Z) (iss : istream) :
  - 2 ^ 31 <= d < 2 ^ 31 -> - 2 ^ 31 <= (extract_int d iss).1 < 2 ^ 31.
Proof.
  intros Hd. unfold extract_int. destruct iss as [r|]; [|exact Hd].
  destruct (skip_spaces r) as [|c r']; [exact Hd|]. destruct (scan_sign (c :: r')) as [neg l1].
  destruct (scan_digits l1 0 0) as [[v [|k]] l2]; [cbn; lia|]. cbv zeta.
  set (u := if neg then - v else v). destruct (Z.ltb_spec u (- 2 ^ 31)); [cbn; lia|].
  destruct (Z.leb_spec (2 ^ 31) u); cbn; lia.
Qed.

(** A spelling of a keyword. *)
Definition spells (w k : bytes) : Prop :=
  w <> [] /\ Forall (fun c => is_space c = false /\ 0 <= c < 128) w /\ map to_upper w = k.

(** A word of a line. *)
Definition solid (w : bytes) : Prop := w <> [] /\ Forall (fun c => is_space c = false) w.

Lemma take_word_before (w r : bytes) :
  Forall (fun c => is_space c = false) w -> ends_word r -> take_word (w ++ r) = (w, r).
Proof.
  intros Hw Hr. destruct r as [|c r]; [|apply take_word_app; assumption].
  rewrite app_nil_r. induction Hw as [|x w Hx _ IH]; [reflexivity|]. cbn. rewrite Hx, IH. reflexivity.
Qed.

Lemma extract_word_before (w r : bytes) :
  solid w -> ends_word r ->
  extract_word (Some (w ++ r)) = (w, Some r) /\ extract_word (Some (32 :: w ++ r)) = (w, Some r).
Proof.
  intros [Hne Hw] Hr. unfold extract_word. change (skip_spaces (32 :: w ++ r)) with (skip_spaces (w ++ r)).
  destruct w as [|c w]; [contradiction|]. inversion_clear Hw as [|? ? Hc Hw'].
  cbn [app skip_spaces]. rewrite Hc. change (c :: w ++ r) with ((c :: w) ++ r).
  rewrite take_word_before by (try constructor; assumption). split; reflexivity.
Qed.

Lemma ascii_case (f : Z -> Z) (w : bytes) : Forall (fun c => 0 <= c < 128) w -> change_case f w = Ok (map f w).
Proof.
  intros Hw. unfold change_case. replace (forallb _ w) with true; [reflexivity|]. symmetry.
  apply forallb_forall. intros c Hc. rewrite List.Forall_forall in Hw. apply Hw in Hc. lia.
Qed.

Lemma spelled_word (w k r : bytes) :
  spells w k -> ends_word r -> extract_word (Some (w ++ r)) = (w, Some r) /\ change_case to_upper w = Ok k.
Proof.
  intros (Hne & Hw & <-) Hr. split.
  - apply extract_word_before; [|exact Hr]. split; [exact Hne|].
    eapply List.Forall_impl; [|exact Hw]. intros x []; assumption.
  - apply ascii_case. eapply List.Forall_impl; [|exact Hw]. intros x []; assumption.
Qed.

Lemma stoul_to_string (n : Z) : 0 <= n < 2 ^ 64 -> stoul (to_string n) = Some n.
Proof.
  intros Hn. destruct (to_string_spec n) as (Hd & Hne & Hv); [apply Hn|].
  destruct (to_string n) as [|c ds] eqn:E; [contradiction|].
  destruct (scan_printed (c :: ds) c ds Hd eq_refl) as [H1 H2].
  unfold stoul. rewrite H1, H2. cbn [length]. rewrite Hv.
  replace (2 ^ 64 <=? n) with false by lia. reflexivity.
Qed.

Lemma stoi_to_stringZ (n : Z) : - 2 ^ 31 <= n < 2 ^ 31 -> stoi (to_stringZ n) = Some n.
Proof.
  intros Hn. unfold to_stringZ. destruct (Z.ltb_spec n 0) as [H|H].
  2: { apply stoi_to_string. lia. }
  destruct (to_string_spec (- n)) as (Hd & Hne & Hv); [lia|].
  pose proof (scan_digits_app (to_string (- n)) [] 0 0 Hd) as Hs. rewrite app_nil_r, Hv in Hs.
  unfold stoi. cbn [skip_spaces is_space]. change (is_space 45) with false. cbn [scan_sign].
  change (45 =? 45) with true. cbv iota. rewrite Hs. cbn [scan_digits].
  destruct (to_string (- n)) as [|c ds]; [contradiction|]. cbn [length Nat.add].
  replace (- - n) with n by lia. rewrite andb_true_intro by lia. reflexivity.
Qed.

(** The characters of a printed number. *)
Lemma to_stringZ_chars (n : Z) : Forall (fun c => c = 45 \/ is_digit c = true) (to_stringZ n).
Proof.
  unfold to_stringZ. destruct (Z.ltb_spec n 0); [constructor; [auto|]|];
    (eapply List.Forall_impl; [|apply to_string_digits; lia]); auto.
Qed.

Lemma to_stringZ_nonempty (n : Z) : to_stringZ n <> [].
Proof. unfold to_stringZ. destruct (Z.ltb_spec n 0); [discriminate|]. apply to_string_nonempty. lia. Qed.

Lemma setw_digits (w : nat) (s : bytes) : all_digits s -> all_digits (setw w s).
Proof.
  intros H. apply Forall_app. split; [|exact H].
  apply List.Forall_forall. intros x Hx. apply repeat_spec in Hx. subst x. reflexivity.
Qed.

Lemma setw_length (w : nat) (s : bytes) : length (setw w s) = Nat.max w (length s).
Proof. unfold setw. rewrite length_app, repeat_length. lia. Qed.

(** Fill characters do not hide the number. *)
Lemma setw_inj (w : nat) (a b : Z) :
  0 <= a -> 0 <= b -> setw w (to_string a) = setw w (to_string b) -> a = b.
Proof.
  intros Ha Hb E.
  assert (Hval : forall n, 0 <= n ->
            fold_left (fun v c => v * 10 + (c - 48)) (setw w (to_string n)) 0 = n).
  { intros n Hn. unfold setw. rewrite fold_left_app.
    assert (H0 : forall k, fold_left (fun v c => v * 10 + (c - 48)) (repeat 48 k) 0 = 0)
      by (induction k; cbn; auto).
    rewrite H0. apply (to_string_spec n Hn). }
  rewrite <- (Hval a Ha), <- (Hval b Hb), E. reflexivity.
Qed.

(** How many digits a number has at most. *)
Lemma to_string_length_le (n : Z) (k : nat) :
  0 <= n < 10 ^ Z.of_nat (S k) -> (length (to_string n) <= S k)%nat.
Proof.
  revert n. induction k as [|k IH]; intros n Hn.
  - destruct (Z.eq_dec n 0) as [->|H0]; [vm_compute; lia|].
    rewrite (to_string_length n 0); [lia|]. cbn in *. lia.
  - destruct (Z.ltb_spec n (10 ^ Z.of_nat (S k))); [specialize (IH n); lia|].
    rewrite (to_string_length n (S k)); [lia|]. lia.
Qed.

(** ** Lemmas: containment *)

Lemma contains_cons (p s : bytes) (c : Z) :
  contains p (c :: s) = prefixb p (c :: s) || contains p s.
Proof.
  unfold contains. cbn [find_sub]. destruct (prefixb p (c :: s)); [reflexivity|].
  destruct (find_sub p s); reflexivity.
Qed.

Lemma contains_app (p l s : bytes) : contains p s = true -> contains p (l ++ s) = true.
Proof.
  intros H. induction l as [|c l IH]; [exact H|]. cbn [app].
  rewrite contains_cons, IH. apply orb_true_r.
Qed.

Lemma contains_prefix (p s : bytes) : contains p (p ++ s) = true.
Proof. unfold contains. rewrite find_sub_app. reflexivity. Qed.

(** Text without the first character of the needle does not contain it. *)
Lemma contains_skip_app (c : Z) (p l s : bytes) :
  Forall (fun x => x <> c) l -> contains (c :: p) (l ++ s) = contains (c :: p) s.
Proof.
  induction 1 as [|x l Hx _ IH]; [reflexivity|]. cbn [app]. rewrite contains_cons, IH.
  cbn [prefixb]. replace (c =? x) with false by lia. reflexivity.
Qed.

#[global] Arguments str : simpl never.
#[global] Arguments to_string : simpl never.
#[global] Arguments to_stringZ : simpl never.
#[global] Arguments setw : simpl never.
#[global] Arguments find_sub : simpl never.
#[global] Arguments contains : simpl never.
