(* ===== verification/Log.v ===== *)
(** * The loggers

    [common/logger.h] of the four simulators (the 4G and IMS ones, the 5G and the
    CBRS one differ in what they show and how), and [common/visual_logger.h]: the
    console, the session file and the boxes of the step-by-step output.  Times,
    thread names and whether the file can be opened are arguments. *)

From S2P Require Import Prelude Text Strings.
#[local] Open Scope Z_scope.

(** ** Levels and colours *)

Inductive Level : Type := BEGINNER | ENGINEER | INTERVIEW_C | INTERVIEW_T | SYSTEM.
#[global] Instance Level_eq_dec : EqDecision Level.
Proof. solve_decision. Defined.

(** An ANSI sequence: escape, [[], the parameters, [m]. *)
Definition ansi (params : bytes) : bytes := [27; 91] ++ params ++ [109].

Definition CLR_ENB : bytes := ansi (str "1;32").
Definition CLR_MME : bytes := ansi (str "1;34").
Definition CLR_HSS : bytes := ansi (str "1;33").
Definition CLR_PCRF : bytes := ansi (str "1;36").
Definition CLR_SGW : bytes := ansi (str "1;35").
Definition CLR_PGW : bytes := ansi (str "38;5;208").
Definition CLR_PCSCF : bytes := ansi (str "1;96").
Definition CLR_SCSCF : bytes := ansi (str "1;94").
Definition CLR_MTAS : bytes := ansi (str "1;93").
Definition CLR_SYS : bytes := ansi (str "35").
Definition CLR_WARN : bytes := ansi (str "1;31").
Definition CLR_IE : bytes := ansi (str "37").
Definition CLR_STEP : bytes := ansi (str "1;37").
Definition CLR_RESET : bytes := ansi (str "0").

(** The colour and the tag of each node's function. *)
Inductive Node : Type := eNB | MME | HSS | PCRF | SGW | PGW | PCSCF | SCSCF | MTAS | SYS.
Definition node_colour (n : Node) : bytes :=
  match n with
  | eNB => CLR_ENB | MME => CLR_MME | HSS => CLR_HSS | PCRF => CLR_PCRF | SGW => CLR_SGW
  | PGW => CLR_PGW | PCSCF => CLR_PCSCF | SCSCF => CLR_SCSCF | MTAS => CLR_MTAS | SYS => CLR_SYS
  end.
Definition node_tag (n : Node) : bytes :=
  match n with
  | eNB => str " eNB  " | MME => str " MME  " | HSS => str " HSS  " | PCRF => str " PCRF " | SGW => str " S-GW "
  | PGW => str " P-GW " | PCSCF => str "P-CSCF" | SCSCF => str "S-CSCF" | MTAS => str " MTAS " | SYS => str " SYS  "
  end.

(** ** What differs between the simulators *)

Record Settings : Type := mkSettings { global_level : Level; show_all : bool }.

Class Flavour : Type := {
  shows : Settings -> Level -> bool;
  ie_shows : Settings -> bool;
  print_line : Level -> bytes -> bytes -> bytes -> bytes -> bytes;   (** level, tag, thread, message, time *)
  ie_line : bytes -> bytes;
  warn_tag : bytes -> bytes;
  one_time : bool;                                (** the time is read once for both outputs *)
  level_of_env : option bytes -> Settings -> Settings
}.

Definition is_level (a b : Level) : bool := bool_decide (a = b).

(** The prefix by level; [t] is that of the telecom level. *)
Definition prefix_of (e t : bytes) (l : Level) : bytes :=
  match l with
  | BEGINNER => str "[STORY] " | INTERVIEW_C => str "[C++ DESIGN] " | INTERVIEW_T => t | ENGINEER => e | SYSTEM => []
  end.
Definition tagged (prefix : bytes) (tag msg time : bytes) : bytes :=
  [91] ++ time ++ str "][" ++ tag ++ str "] " ++ prefix ++ msg.
Definition bar_line (msg : bytes) : bytes := str "         │  " ++ msg.

Definition set_global (l : Level) (s : Settings) : Settings := mkSettings l (show_all s).
Definition set_all (s : Settings) : Settings := mkSettings (global_level s) true.
Definition is_env (v : option bytes) (name : bytes) : bool := bool_decide (default (str "ENGINEER") v = name).

(** The level of the IMS and, with [ALL], of the 5G core. *)
Definition level_ims (v : option bytes) (s : Settings) : Settings :=
  if is_env v (str "BEGINNER") then set_global BEGINNER s
  else if is_env v (str "INTERVIEW_C") then set_global INTERVIEW_C s
  else if is_env v (str "INTERVIEW_T") then set_global INTERVIEW_T s
  else set_global ENGINEER s.
Definition level_5g (v : option bytes) (s : Settings) : Settings :=
  if is_env v (str "ALL") then set_global ENGINEER (set_all s)
  else if is_env v (str "INTERVIEW_C") then set_global INTERVIEW_C s
  else if is_env v (str "INTERVIEW_T") then set_global INTERVIEW_T s
  else set_global ENGINEER s.
Definition level_cbrs (v : option bytes) (s : Settings) : Settings :=
  if is_env v (str "ALL") then set_all s else level_ims v s.

Definition shows_exactly (s : Settings) (l : Level) : bool := is_level l SYSTEM || is_level l (global_level s).
Definition shows_story (s : Settings) (l : Level) : bool :=
  is_level l SYSTEM || is_level l BEGINNER || show_all s || is_level l (global_level s).

(** [tnPad.resize(12, ' ')] of a name shorter than that. *)
Definition pad12 (name : bytes) : bytes := name ++ repeat 32 (12 - length name).

Definition log_4g : Flavour := {|
  shows := shows_exactly; ie_shows _ := true;
  print_line l tag _ msg time := tagged (prefix_of (str "[3GPP] ") (str "[3GPP LOGIC] ") l) tag msg time;
  ie_line := bar_line; warn_tag tag := tag; one_time := false; level_of_env _ s := s |}.
Definition log_ims : Flavour := {|
  shows := shows_exactly; ie_shows s := negb (is_level (global_level s) BEGINNER);
  print_line l tag _ msg time := tagged (prefix_of (str "[3GPP] ") (str "[3GPP LOGIC] ") l) tag msg time;
  ie_line := bar_line; warn_tag tag := tag; one_time := false; level_of_env := level_ims |}.
Definition log_5g : Flavour := {|
  shows := shows_story; ie_shows _ := true;
  print_line l tag _ msg time := tagged (prefix_of (str "[5GC] ") (str "[5G SBA] ") l) tag msg time;
  ie_line := bar_line; warn_tag tag := tag; one_time := false; level_of_env := level_5g |}.
Definition log_cbrs : Flavour := {|
  shows := shows_story; ie_shows _ := true;
  print_line _ tag thread msg time :=
    [91] ++ time ++ str "][" ++ tag ++ str "][" ++ pad12 thread ++ str "] " ++ msg;
  ie_line msg := repeat 32 34 ++ str "│  " ++ msg; warn_tag tag := [32] ++ tag ++ [32]; one_time := true; level_of_env := level_cbrs |}.

(** ** The log *)

(** [disk]: what the session file holds; [is_open]: whether the stream is open. *)
Record Log : Type := mkLog { settings : Settings; console : bytes; is_open : bool; disk : bytes }.

Section Logger.
Context `{Flavour} (openable : bool).

(** [getLogFile] opens the file, emptied, whenever the stream is not open. *)
Definition getLogFile (g : Log) : Log :=
  if is_open g then g else if openable then mkLog (settings g) (console g) true [] else g.

Definition to_console (text : bytes) (g : Log) : Log :=
  mkLog (settings g) (console g ++ text) (is_open g) (disk g).
Definition to_file (text : bytes) (g : Log) : Log :=
  let g := getLogFile g in
  if is_open g then mkLog (settings g) (console g) true (disk g ++ text) else g.

(** [print]: the times are those read for the console and for the file. *)
Definition print (l : Level) (colour tag thread msg time time2 : bytes) (g : Log) : Log :=
  if shows (settings g) l then
    let file_time := if one_time then time else time2 in
    to_file (print_line l tag thread msg file_time ++ [10])
      (to_console (colour ++ print_line l tag thread msg time ++ CLR_RESET ++ [10]) g)
  else g.

Definition ie_field (msg : bytes) (g : Log) : Log :=
  if ie_shows (settings g)
  then to_file (ie_line msg ++ [10]) (to_console (CLR_IE ++ ie_line msg ++ CLR_RESET ++ [10]) g)
  else g.

Definition step (msg : bytes) (g : Log) : Log :=
  to_console (CLR_STEP ++ [10] ++ str "  ══ " ++ msg ++ str " ══" ++ [10] ++ CLR_RESET) g.

Definition setLevel (l : Level) (g : Log) : Log :=
  mkLog (set_global l (settings g)) (console g) (is_open g) (disk g).
Definition setLevelFromEnv (v : option bytes) (g : Log) : Log :=
  mkLog (level_of_env v (settings g)) (console g) (is_open g) (disk g).

(** [shutdown]: [note] is the text about where the log is. *)
Definition shutdown (note : bytes) (g : Log) : Log :=
  let g := getLogFile g in
  if is_open g
  then to_console (CLR_SYS ++ [10] ++ note ++ CLR_RESET ++ [10]) (mkLog (settings g) (console g) false (disk g))
  else g.

Inductive Entry : Type :=
| Line (l : Level) (n : Node) (thread msg time time2 : bytes)
| Warn (tag msg time time2 : bytes)
| IeField (msg : bytes)
| SetLevel (l : Level).

Definition log_entry (g : Log) (e : Entry) : Log :=
  match e with
  | Line l n thread msg time time2 => print l (node_colour n) (node_tag n) thread msg time time2 g
  | Warn tag msg time time2 => print SYSTEM CLR_WARN (warn_tag tag) [] (str "ERROR: " ++ msg) time time2 g
  | IeField msg => ie_field msg g
  | SetLevel l => setLevel l g
  end.

Definition log_all (es : list Entry) (g : Log) : Log := fold_left log_entry es g.

End Logger.

Definition newLog : Log := mkLog (mkSettings ENGINEER false) [] false [].

(** ** Reading without colours *)

(** The text outside the sequences; [esc] inside one. *)
Fixpoint uncolour (esc : bool) (b : bytes) : bytes :=
  match b with
  | [] => []
  | c :: b =>
      if esc then uncolour (negb (c =? 109)) b
      else if c =? 27 then uncolour true b else c :: uncolour false b
  end.

Definition plain (b : bytes) : Prop := Forall (fun c => c <> 27) b.

Lemma uncolour_plain (b r : bytes) : plain b -> uncolour false (b ++ r) = b ++ uncolour false r.
Proof.
  induction 1 as [|c b Hc _ IH]; [reflexivity|]. cbn. replace (c =? 27) with false by lia. rewrite IH. reflexivity.
Qed.

Lemma uncolour_inside (b r : bytes) : Forall (fun c => c <> 109) b -> uncolour true (b ++ 109 :: r) = uncolour false r.
Proof.
  induction 1 as [|c b Hc _ IH]; [reflexivity|]. cbn. replace (c =? 109) with false by lia. exact IH.
Qed.

Lemma uncolour_ansi (params r : bytes) :
  forallb (fun c => negb (c =? 109)) params = true -> uncolour false (ansi params ++ r) = uncolour false r.
Proof.
  intros H. unfold ansi. rewrite <- !app_assoc. cbn [app uncolour Z.eqb Pos.eqb negb].
  apply uncolour_inside. apply List.Forall_forall. intros x Hx.
  rewrite forallb_forall in H. specialize (H x Hx). lia.
Qed.

(** ** Properties *)

(** The texts of an entry hold no escape, and its two times are the same. *)
Definition quiet (e : Entry) : Prop :=
  match e with
  | Line _ _ thread msg time time2 => plain thread /\ plain msg /\ plain time /\ time2 = time
  | Warn tag msg time time2 => plain tag /\ plain msg /\ plain time /\ time2 = time
  | IeField msg => plain msg
  | SetLevel _ => True
  end.

Lemma plain_app (a b : bytes) : plain a -> plain b -> plain (a ++ b).
Proof. intros. apply Forall_app. auto. Qed.
Lemma plain_lit (b : bytes) : forallb (fun c => negb (c =? 27)) b = true -> plain b.
Proof.
  intros H. apply List.Forall_forall. intros x Hx. rewrite forallb_forall in H. specialize (H x Hx). lia.
Qed.
Lemma plain_blanks (n : nat) : plain (repeat 32 n).
Proof. induction n; constructor; [lia|assumption]. Qed.

Create HintDb quiet.
#[local] Hint Resolve plain_app plain_blanks : quiet.
#[local] Hint Extern 1 (plain _) => apply plain_lit; reflexivity : quiet.

(** What the theorem asks of a logger: its lines add nothing to what they are
    given that a terminal would read as a colour. *)
Class Plain `{Flavour} : Prop := {
  print_plain l tag thread msg time :
    plain tag -> plain thread -> plain msg -> plain time -> plain (print_line l tag thread msg time);
  ie_plain msg : plain msg -> plain (ie_line msg);
  warn_plain tag : plain tag -> plain (warn_tag tag) }.

Lemma tagged_plain (prefix tag msg time : bytes) :
  plain prefix -> plain tag -> plain msg -> plain time -> plain (tagged prefix tag msg time).
Proof. intros. unfold tagged. auto 12 with quiet. Qed.
#[local] Hint Resolve tagged_plain : quiet.

Lemma prefix_plain (e t : bytes) (l : Level) : plain e -> plain t -> plain (prefix_of e t l).
Proof. destruct l; cbn; auto with quiet. Qed.
#[local] Hint Resolve prefix_plain : quiet.

#[export] Instance log_4g_plain : @Plain log_4g.
Proof. split; intros; cbn [print_line ie_line warn_tag log_4g]; unfold bar_line; auto 8 with quiet. Qed.
#[export] Instance log_ims_plain : @Plain log_ims.
Proof. split; intros; cbn [print_line ie_line warn_tag log_ims]; unfold bar_line; auto 8 with quiet. Qed.
#[export] Instance log_5g_plain : @Plain log_5g.
Proof. split; intros; cbn [print_line ie_line warn_tag log_5g]; unfold bar_line; auto 8 with quiet. Qed.
#[export] Instance log_cbrs_plain : @Plain log_cbrs.
Proof. split; intros; cbn [print_line ie_line warn_tag log_cbrs]; unfold pad12; auto 16 with quiet. Qed.

Section Mirror.
Context `{Plain}.

(** The file is open or was never opened, and holds what the console shows. *)
Definition mirrored (g : Log) : Prop :=
  uncolour false (console g) = disk g /\ (forall r, uncolour false (console g ++ r) = disk g ++ uncolour false r)
  /\ (is_open g = false -> disk g = []).

Lemma mirrored_line (g : Log) (colour line : bytes) :
  (forall r, uncolour false (colour ++ r) = uncolour false r) -> plain line -> mirrored g ->
  mirrored (to_file true (line ++ [10]) (to_console (colour ++ line ++ CLR_RESET ++ [10]) g)).
Proof.
  intros Hc Hl (Hm & Hr & Hd).
  assert (E : forall r, uncolour false ((console g ++ colour ++ line ++ CLR_RESET ++ [10]) ++ r)
                        = disk g ++ line ++ [10] ++ uncolour false r).
  { intros r. rewrite <- !app_assoc, Hr, Hc, uncolour_plain by exact Hl.
    unfold CLR_RESET. rewrite uncolour_ansi by reflexivity. reflexivity. }
  unfold to_file, getLogFile, to_console, mirrored. cbn [is_open settings console disk].
  destruct (is_open g) eqn:Eo; cbn [is_open console disk settings].
  - split; [rewrite <- (app_nil_r (console g ++ _)), E; reflexivity|]. split; [|discriminate].
    intros r. rewrite E, <- !app_assoc. reflexivity.
  - rewrite (Hd eq_refl) in E. split; [rewrite <- (app_nil_r (console g ++ _)), E; reflexivity|].
    split; [|discriminate]. intros r. rewrite E, <- !app_assoc. reflexivity.
Qed.

Lemma print_mirrored (g : Log) (l : Level) (colour tag thread msg time : bytes) :
  (forall r, uncolour false (colour ++ r) = uncolour false r) ->
  plain tag -> plain thread -> plain msg -> plain time -> mirrored g ->
  mirrored (print true l colour tag thread msg time time g).
Proof.
  intros Hc Ht Hh Hm Hi Hg. unfold print. destruct (shows _ l); [|exact Hg].
  replace (if one_time then time else time) with time by (destruct one_time; reflexivity).
  apply mirrored_line; [exact Hc|apply print_plain; assumption|exact Hg].
Qed.

Lemma node_uncolour (n : Node) (r : bytes) : uncolour false (node_colour n ++ r) = uncolour false r.
Proof. destruct n; apply uncolour_ansi; reflexivity. Qed.
Lemma node_plain (n : Node) : plain (node_tag n).
Proof. destruct n; apply plain_lit; reflexivity. Qed.

Lemma entry_mirrored (g : Log) (e : Entry) : quiet e -> mirrored g -> mirrored (log_entry true g e).
Proof.
  intros Hq Hg. destruct e as [l n thread msg time time2|tag msg time time2|msg|l]; cbn [log_entry] in *.
  - destruct Hq as (Hh & Hm & Ht & ->). apply print_mirrored; try assumption; [apply node_uncolour|apply node_plain].
  - destruct Hq as (Hh & Hm & Ht & ->).
    apply print_mirrored; try assumption; [intros r; apply uncolour_ansi; reflexivity|apply warn_plain; exact Hh|constructor|auto with quiet].
  - unfold ie_field. destruct (ie_shows _); [|exact Hg].
    apply mirrored_line; [intros r; apply uncolour_ansi; reflexivity|apply ie_plain; exact Hq|exact Hg].
  - destruct Hg as (Hm & Hr & Hd). split; [exact Hm|]. split; [exact Hr|exact Hd].
Qed.

(** The session file holds what the console showed.  For each of the loggers and
    whatever is logged at whatever level, the file is the text of the console
    without its colours: what is filtered out is in neither. *)
Theorem log_mirrors_console (es : list Entry) :
  Forall quiet es -> let g := log_all true es newLog in uncolour false (console g) = disk g.
Proof.
  intros Hes. assert (Hg : mirrored newLog) by (split; [reflexivity|split; reflexivity]).
  cbv zeta. enough (mirrored (log_all true es newLog)) as (Hm & _) by exact Hm. revert Hg. generalize newLog.
  induction Hes as [|e es He _ IH]; intros g Hg; [exact Hg|]. apply IH, entry_mirrored; assumption.
Qed.

End Mirror.

Lemma log_mirrors_console_witness :
  let es := [Line ENGINEER MME [] (str "attach") (str "10:00:00.000") (str "10:00:00.000"); IeField (str "IMSI")] in
  let g := @log_all log_4g true es newLog in
  uncolour false (console g) = disk g /\ length (disk g) <> O.
Proof.
  intros es g. split; [|vm_compute; discriminate].
  apply (@log_mirrors_console log_4g log_4g_plain es).
  repeat constructor; discriminate.
Defined.

Lemma shutdown_closed (note : bytes) (g : Log) :
  is_open (shutdown true note g) = false /\ settings (shutdown true note g) = settings g.
Proof. unfold shutdown, getLogFile. destruct (is_open g) eqn:E; [rewrite E|]; split; reflexivity. Qed.

(** A stream that is not open is opened with an empty file. *)
Lemma closed_to_file (text : bytes) (g : Log) : is_open g = false -> disk (to_file true text g) = text.
Proof. intros E. unfold to_file, getLogFile. rewrite E. reflexivity. Qed.

Lemma closed_shutdown (note : bytes) (g : Log) : is_open g = false -> disk (shutdown true note g) = [].
Proof. intros E. unfold shutdown, getLogFile. rewrite E. reflexivity. Qed.

(** A line printed after [shutdown] erases the session log: the file is opened
    again, emptied, and holds that line alone; a second [shutdown] leaves it
    empty. *)
Theorem shutdown_then_print_erases `{Flavour} (g : Log) (note note2 : bytes) (l : Level)
    (colour tag thread msg time time2 : bytes) :
  shows (settings g) l = true ->
  disk (print true l colour tag thread msg time time2 (shutdown true note g))
  = print_line l tag thread msg (if one_time then time else time2) ++ [10]
  /\ disk (shutdown true note2 (shutdown true note g)) = [].
Proof.
  intros Hs. destruct (shutdown_closed note g) as [Ho Hset]. split; [|apply closed_shutdown; exact Ho].
  unfold print. rewrite Hset, Hs. apply closed_to_file. exact Ho.
Qed.

Lemma shutdown_then_print_erases_witness :
  let g := @log_all log_4g true [Line SYSTEM SYS [] (str "Done.") [] []] newLog in
  disk (@print log_4g true SYSTEM CLR_SYS (node_tag SYS) [] (str "late") [] [] (shutdown true [] g))
  = str "[][ SYS  ] late" ++ [10].
Proof.
  intros g.
  destruct (@shutdown_then_print_erases log_4g g [] [] SYSTEM CLR_SYS (node_tag SYS) [] (str "late") [] [] eq_refl)
    as [E _]. rewrite E. reflexivity.
Defined.

(** ** Boxes *)

Definition WIDTH : nat := 62.
Definition BOLD : bytes := CLR_STEP.
Definition DIM : bytes := CLR_IE.
Definition GREEN : bytes := CLR_ENB.
Definition RST : bytes := CLR_RESET.

(** [pad]: to [w] octets, cut when longer. *)
Definition pad (s : bytes) (w : nat) : bytes := take w s ++ repeat 32 (w - length s).
Definition rep (s : bytes) (n : nat) : bytes := concat (repeat s n).

Record StepBlock : Type := mkBlock { buf : bytes; flushed : bool; flushed_next : bool }.

Definition write (text : bytes) (k : StepBlock) : StepBlock := mkBlock (buf k ++ text) (flushed k) (flushed_next k).

Definition block_header (step total : Z) (msg_name t_id : bytes) : bytes :=
  let hdr := str " STEP " ++ to_stringZ step ++ [47] ++ to_stringZ total ++ str "  " ++ msg_name in
  let t_id := str "  [" ++ t_id ++ str "] " in
  [10] ++ BOLD ++ str "  ╔" ++ rep (str "=") WIDTH ++ str "╗" ++ [10]
  ++ str "  ║" ++ pad hdr (WIDTH - length t_id) ++ t_id ++ str "║" ++ [10].

(** The arrow takes what the names leave, and four columns at least. *)
Definition block_arrow (from from_clr to to_clr : bytes) : bytes :=
  let space := Nat.max 4 (WIDTH - 2 - length from - length to) in
  RST ++ str "  ║ " ++ from_clr ++ from ++ RST ++ DIM ++ repeat 45 (space - 1) ++ str "►" ++ RST
  ++ to_clr ++ to ++ RST ++ BOLD ++ str " ║" ++ [10].

Definition divider : bytes := BOLD ++ str "  ╠" ++ rep (str "-") WIDTH ++ str "╣" ++ [10] ++ RST.
Definition bottom : bytes := BOLD ++ str "  ╚" ++ rep (str "=") WIDTH ++ str "╝" ++ [10] ++ RST.
Definition row (colour line : bytes) : bytes :=
  colour ++ str "  ║ " ++ pad line (WIDTH - 1) ++ str "║" ++ [10] ++ RST.

(** The constructor. *)
Definition new_block (step total : Z) (msg_name t_id from from_clr to to_clr : bytes) : StepBlock :=
  mkBlock (block_header step total msg_name t_id ++ block_arrow from from_clr to to_clr ++ divider) false false.

Definition ie (key val : bytes) (k : StepBlock) : StepBlock :=
  write (row DIM (str "  " ++ key ++ str ": " ++ val)) k.
Definition state (node trans : bytes) (k : StepBlock) : StepBlock :=
  write (row GREEN (str "  [" ++ node ++ str ": " ++ trans ++ str "]")) k.
Definition next (hint : bytes) (k : StepBlock) : StepBlock :=
  let k := write (divider ++ row DIM (str "  ▶ Next: " ++ hint) ++ bottom) k in
  mkBlock (buf k) (flushed k) true.

(** [flush]: the block, and what it writes in one piece. *)
Definition flush (k : StepBlock) : StepBlock * bytes :=
  let k := if flushed_next k then k else write bottom k in
  (mkBlock (buf k) true (flushed_next k), buf k).

(** The destructor. *)
Definition finish (k : StepBlock) : bytes := if flushed k then [] else (flush k).2.

(** *** Threads that build boxes *)

Inductive Call : Type :=
| Begin (k : StepBlock) | Ie (key val : bytes) | StateT (node trans : bytes) | Next (hint : bytes) | Finish.

(** A thread's turn on its own box; what [Finish] gives is written under the lock. *)
Definition call (k : option StepBlock) (c : Call) : option StepBlock * list bytes :=
  match c, k with
  | Begin k', _ => (Some k', [])
  | Ie key val, Some k => (Some (ie key val k), [])
  | StateT node trans, Some k => (Some (state node trans k), [])
  | Next hint, Some k => (Some (next hint k), [])
  | Finish, Some k => (None, [finish k])
  | _, None => (None, [])
  end.

(** The boxes a thread writes when it runs alone. *)
Fixpoint alone (k : option StepBlock) (cs : list Call) : list bytes :=
  match cs with [] => [] | c :: cs => (call k c).2 ++ alone (call k c).1 cs end.

(** The program: the box each thread is building, and what was written, by
    whom. *)
Definition Building : Type := nat -> option StepBlock.
Definition turn (st : Building * list (nat * bytes)) (x : nat * Call) : Building * list (nat * bytes) :=
  let '(b, out) := st in
  let '(t, c) := x in
  let '(k, texts) := call (b t) c in
  (fun u => if Nat.eq_dec u t then k else b u, out ++ map (pair t) texts).
Definition threads (xs : list (nat * Call)) (st : Building * list (nat * bytes)) : Building * list (nat * bytes) :=
  fold_left turn xs st.

Definition calls_of (t : nat) (xs : list (nat * Call)) : list Call :=
  map snd (List.filter (fun x => Nat.eqb (fst x) t) xs).
Definition texts_of (t : nat) (out : list (nat * bytes)) : list bytes :=
  map snd (List.filter (fun x => Nat.eqb (fst x) t) out).

Lemma texts_app (t : nat) (a b : list (nat * bytes)) : texts_of t (a ++ b) = texts_of t a ++ texts_of t b.
Proof. unfold texts_of. rewrite List.filter_app, map_app. reflexivity. Qed.

Lemma texts_own (t u : nat) (texts : list bytes) :
  texts_of t (map (pair u) texts) = if Nat.eqb u t then texts else [].
Proof.
  unfold texts_of. induction texts as [|x texts IH]; [destruct (Nat.eqb u t); reflexivity|].
  cbn [map List.filter fst]. destruct (Nat.eqb u t); [cbn; rewrite IH; reflexivity|exact IH].
Qed.

Lemma threads_texts (t : nat) (xs : list (nat * Call)) (b : Building) (out : list (nat * bytes)) :
  texts_of t (threads xs (b, out)).2 = texts_of t out ++ alone (b t) (calls_of t xs).
Proof.
  revert b out. induction xs as [|[u c] xs IH]; intros b out; [cbn; rewrite app_nil_r; reflexivity|].
  change (threads ((u, c) :: xs) (b, out)) with (threads xs (turn (b, out) (u, c))). cbn [turn].
  destruct (call (b u) c) as [k texts] eqn:E. rewrite IH, texts_app, texts_own.
  unfold calls_of. cbn [List.filter fst]. destruct (Nat.eqb_spec u t) as [->|Hne].
  - destruct (Nat.eq_dec t t); [|contradiction]. cbn [map snd alone]. rewrite E. cbn [fst snd].
    rewrite <- app_assoc. reflexivity.
  - destruct (Nat.eq_dec t u); [congruence|]. rewrite app_nil_r. reflexivity.
Qed.

(** Boxes are never torn.  However the threads that build boxes interleave, the
    console is a sequence of whole boxes, and those of each thread are the ones
    it writes when it runs alone, in its order. *)
Theorem boxes_whole (xs : list (nat * Call)) (t : nat) :
  texts_of t (threads xs (fun _ => None, [])).2 = alone None (calls_of t xs).
Proof. exact (threads_texts t xs (fun _ => None) []). Qed.

(** The columns of a line: octets that do not continue a character, colours
    apart. *)
Definition columns (line : bytes) : nat :=
  length (List.filter (fun c => negb ((128 <=? c) && (c <? 192))) (uncolour false line)).
Definition ascii_text (b : bytes) : Prop := Forall (fun c => 32 <= c < 127) b.

Lemma ascii_lit (b : bytes) : forallb (fun c => (32 <=? c) && (c <? 127)) b = true -> ascii_text b.
Proof.
  intros Hb. apply List.Forall_forall. intros x Hx. rewrite forallb_forall in Hb. specialize (Hb x Hx). lia.
Qed.

Lemma columns_ascii (b : bytes) : ascii_text b -> List.filter (fun c => negb ((128 <=? c) && (c <? 192))) b = b.
Proof.
  induction 1 as [|c b Hc _ IH]; [reflexivity|]. cbn. replace (128 <=? c) with false by lia. cbn. rewrite IH. reflexivity.
Qed.

Lemma pad_length (s : bytes) (w : nat) : length (pad s w) = w.
Proof. unfold pad. rewrite length_app, length_take, repeat_length. lia. Qed.

Lemma pad_ascii (s : bytes) (w : nat) : ascii_text s -> ascii_text (pad s w).
Proof.
  intros H. apply Forall_app. split; [apply Forall_take; exact H|]. apply List.Forall_forall. intros x Hx.
  apply repeat_spec in Hx. lia.
Qed.

Lemma ascii_plain (b : bytes) : ascii_text b -> plain b.
Proof. apply List.Forall_impl. intros. lia. Qed.

(** The line of a row, between its colour and the line feed. *)
Definition row_text (line : bytes) : bytes := str "  ║ " ++ pad line (WIDTH - 1) ++ str "║".

Lemma row_columns_plain (line : bytes) : ascii_text line -> columns (row_text line) = 66%nat.
Proof.
  intros H. unfold columns, row_text.
  rewrite <- (app_nil_r (str "  ║ " ++ _)), uncolour_plain.
  - cbn [uncolour]. rewrite app_nil_r, !List.filter_app, !length_app, (columns_ascii (pad line _))
      by (apply pad_ascii; exact H). rewrite pad_length. reflexivity.
  - apply plain_app; [apply plain_lit; reflexivity|]. apply plain_app; [|apply plain_lit; reflexivity].
    apply ascii_plain, pad_ascii. exact H.
Qed.

(** Every row of a box is 66 columns wide, as its borders are, whatever the length
    of its text, except the row of the next step: its arrow takes three octets
    for one column, so it is two columns short. *)
Theorem rows_aligned (key val node trans hint : bytes) :
  ascii_text key -> ascii_text val -> ascii_text node -> ascii_text trans -> ascii_text hint ->
  columns (row_text (str "  " ++ key ++ str ": " ++ val)) = 66%nat
  /\ columns (row_text (str "  [" ++ node ++ str ": " ++ trans ++ str "]")) = 66%nat
  /\ columns (str "  ╔" ++ rep (str "=") WIDTH ++ str "╗") = 66%nat
  /\ columns (row_text (str "  ▶ Next: " ++ hint)) = 64%nat.
Proof.
  intros Hk Hv Hn Ht Hh.
  split; [apply row_columns_plain; repeat apply Forall_app_2; try assumption; apply ascii_lit; reflexivity|].
  split; [apply row_columns_plain; repeat apply Forall_app_2; try assumption; apply ascii_lit; reflexivity|].
  split; [reflexivity|]. unfold row_text.
  assert (E : pad (str "  ▶ Next: " ++ hint) (WIDTH - 1) = str "  ▶ Next: " ++ pad hint 49).
  { unfold pad. change (WIDTH - 1)%nat with (length (str "  ▶ Next: ") + 49)%nat.
    rewrite take_app_add, length_app, <- app_assoc. reflexivity. }
  rewrite E. unfold columns. rewrite <- (app_nil_r (str "  ║ " ++ _)), uncolour_plain.
  - cbn [uncolour]. rewrite app_nil_r, !List.filter_app, !length_app, (columns_ascii (pad hint _))
      by (apply pad_ascii; exact Hh). rewrite pad_length. reflexivity.
  - apply plain_app; [apply plain_lit; reflexivity|]. apply plain_app; [|apply plain_lit; reflexivity].
    apply plain_app; [apply plain_lit; reflexivity|]. apply ascii_plain, pad_ascii. exact Hh.
Qed.

Lemma rows_aligned_witness : columns (row_text (str "  ▶ Next: " ++ str "HSS")) = 64%nat.
Proof. apply (rows_aligned [] [] [] [] (str "HSS")); apply ascii_lit; reflexivity. Defined.
