(* ===== verification/Scenario.v ===== *)
(** * The scenario runner of the 4G simulator

    [4g-simulator/src/scenario_runner.cpp]: a reader for a flat subset of YAML,
    and the program that writes a scenario's commands to the simulator's
    input.  What the program prints on the error stream is not modelled; its
    output and its pauses are a list of events. *)

From S2P Require Import Prelude Text Strings.
#[local] Open Scope Z_scope.

(** ** Data *)

Record Step : Type := mkStep { s_cmd : bytes; s_expect : bytes; s_delay_ms : Z }.
Definition newStep : Step := mkStep [] [] 0.

Record Scenario : Type := mkScenario { sc_name : bytes; sc_mode : bytes; sc_steps : list Step }.
Definition newScenario : Scenario := mkScenario [] (str "ENGINEER") [].

(** ** Text *)

(** The characters of the set [trim] passes over. *)
Definition blank (c : Z) : bool := (c =? 32) || (c =? 9) || (c =? 13) || (c =? 10).

Definition find_first_not_blank (s : bytes) : option nat := find_if (fun c => negb (blank c)) s.
Definition find_last_not_blank (s : bytes) : option nat :=
  (fun i => length s - 1 - i)%nat <$> find_if (fun c => negb (blank c)) (rev s).

Definition trim (s : bytes) : bytes :=
  match find_first_not_blank s, find_last_not_blank s with
  | Some a, Some b => take (b - a + 1) (drop a s)
  | _, _ => []
  end.

Definition quoted_by (q : Z) (s : bytes) : bool :=
  match s, rev s with c :: _, d :: _ => (c =? q) && (d =? q) | _, _ => false end.

Definition stripQuotes (s : bytes) : bytes :=
  if (2 <=? length s)%nat && (quoted_by 34 s || quoted_by 39 s) then take (length s - 2) (drop 1 s)
  else s.

(** The lines [std::getline] gives until it fails. *)
Fixpoint lines_loop (fuel : nat) (s : bytes) : list bytes :=
  match fuel, s with
  | S fuel', _ :: _ => let '(l, r) := cut_line s in l :: lines_loop fuel' r
  | _, _ => []
  end.
Definition get_lines (s : bytes) : list bytes := lines_loop (length s) s.

(** ** The reader *)

Record Parse : Type := mkParse {
  p_sc : Scenario; p_step : Step; p_in_steps : bool; p_open : bool
}.

Definition push_step (st : Step) (sc : Scenario) : Scenario :=
  mkScenario (sc_name sc) (sc_mode sc) (sc_steps sc ++ [st]).

(** [if (step_open) sc.steps.push_back(cur_step)]. *)
Definition close_step (p : Parse) : Scenario :=
  if p_open p then push_step (p_step p) (p_sc p) else p_sc p.

Definition set_header (key val : bytes) (p : Parse) : Parse :=
  let sc := p_sc p in
  if bool_decide (key = str "name") then
    mkParse (mkScenario val (sc_mode sc) (sc_steps sc)) (p_step p) (p_in_steps p) (p_open p)
  else if bool_decide (key = str "mode") then
    mkParse (mkScenario (sc_name sc) val (sc_steps sc)) (p_step p) (p_in_steps p) (p_open p)
  else if bool_decide (key = str "steps") then mkParse sc (p_step p) true (p_open p)
  else p.

Definition set_step_field (key val : bytes) (st : Step) : Step :=
  if bool_decide (key = str "cmd") then mkStep val (s_expect st) (s_delay_ms st)
  else if bool_decide (key = str "expect") then mkStep (s_cmd st) val (s_delay_ms st)
  else if bool_decide (key = str "delay_ms") then
    match stoi val with Some n => mkStep (s_cmd st) (s_expect st) n | None => st end
  else st.

(** [key: value], when there is a colon. *)
Definition key_value (t : bytes) (p : Parse) : Parse :=
  match find_if (fun c => c =? 58) t with
  | None => p
  | Some colon =>
      let key := trim (take colon t) in
      let val := stripQuotes (trim (drop (colon + 1) t)) in
      if p_in_steps p then
        mkParse (p_sc p) (set_step_field key val (p_step p)) (p_in_steps p) (p_open p)
      else set_header key val p
  end.

(** One line of the file. *)
Definition parse_line (p : Parse) (line : bytes) : Parse :=
  let line := match find_if (fun c => c =? 35) line with Some cmt => take cmt line | None => line end in
  match trim line with
  | [] => p
  | c :: t =>
      if c =? 45 then
        if p_in_steps p then key_value (trim t) (mkParse (close_step p) newStep true true) else p
      else key_value (c :: t) p
  end.

(** [file]: the content of the file, when it can be opened. *)
Definition parseYaml (file : option bytes) : option Scenario :=
  f ← file;
  Some (close_step (fold_left parse_line (get_lines f) (mkParse newScenario newStep false false))).

(** ** The runner *)

Inductive Event : Type := Out (text : bytes) | Pause (ms : Z).

Definition run_step (s : Step) : list Event :=
  (if 0 <? s_delay_ms s then [Pause (s_delay_ms s)] else [])
  ++ [Out (s_cmd s ++ [10])]
  ++ (match s_expect s with [] => [] | _ => [Pause 200] end).

Definition run (sc : Scenario) : list Event :=
  Out (str "MODE " ++ sc_mode sc ++ [10]) :: concat (map run_step (sc_steps sc)).

(** The exit code and the events, for the file named on the command line. *)
Definition scenario_main (argument : option (option bytes)) : Z * list Event :=
  match argument with
  | None => (1, [])
  | Some file => match parseYaml file with None => (1, []) | Some sc => (0, run sc) end
  end.

(** What arrives at the other end of the pipe. *)
Definition piped (es : list Event) : bytes :=
  concat (map (fun e => match e with Out t => t | Pause _ => [] end) es).

(** ** The files the program documents

    [name], [mode] and [steps], and for a step [- cmd], [expect] and
    [delay_ms], as [key: value] lines.  A value stands as it is or in either
    kind of quotes; blanks may surround everything, a comment may end a line,
    and empty lines and comments may stand between the lines. *)

Inductive Quote : Set := Bare | Double | Single.

Definition written (q : Quote) (v : bytes) : bytes :=
  match q with Bare => v | Double => 34 :: v ++ [34] | Single => 39 :: v ++ [39] end.

(** What stands around the text of a line: blanks before, between the colon
    and the value and after, and a comment. *)
Record Margin : Type := mkMargin {
  m_indent : bytes; m_gap : bytes; m_trail : bytes; m_comment : option bytes
}.

Definition comment_text (c : option bytes) : bytes := match c with Some t => 35 :: t | None => [] end.

Definition line_text (m : Margin) (body : bytes) : bytes :=
  m_indent m ++ body ++ m_trail m ++ comment_text (m_comment m).

Definition pair_text (m : Margin) (key : bytes) (q : Quote) (v : bytes) : bytes :=
  line_text m (key ++ 58 :: m_gap m ++ written q v).

Inductive HeadLine : Type :=
| H_name (m : Margin) (q : Quote) (v : bytes)
| H_mode (m : Margin) (q : Quote) (v : bytes)
| H_blank (m : Margin).

Inductive FieldLine : Type :=
| F_expect (m : Margin) (q : Quote) (v : bytes)
| F_delay (m : Margin) (q : Quote) (ms : Z)
| F_blank (m : Margin).

(** [- cmd: ...] and the lines under it; [ds_dash] stands after the dash. *)
Record DocStep : Type := mkDocStep {
  ds_margin : Margin; ds_dash : bytes; ds_quote : Quote; ds_cmd : bytes; ds_fields : list FieldLine
}.

Record Doc : Type := mkDoc {
  d_head : list HeadLine; d_margin : Margin; d_blanks : list Margin; d_steps : list DocStep
}.

Definition head_line (h : HeadLine) : bytes :=
  match h with
  | H_name m q v => pair_text m (str "name") q v
  | H_mode m q v => pair_text m (str "mode") q v
  | H_blank m => line_text m []
  end.

Definition field_line (f : FieldLine) : bytes :=
  match f with
  | F_expect m q v => pair_text m (str "expect") q v
  | F_delay m q n => pair_text m (str "delay_ms") q (to_stringZ n)
  | F_blank m => line_text m []
  end.

Definition cmd_line (s : DocStep) : bytes :=
  line_text (ds_margin s) (45 :: ds_dash s ++ str "cmd" ++ 58 :: m_gap (ds_margin s) ++ written (ds_quote s) (ds_cmd s)).

Definition step_lines (s : DocStep) : list bytes := cmd_line s :: map field_line (ds_fields s).

Definition doc_lines (d : Doc) : list bytes :=
  map head_line (d_head d) ++ line_text (d_margin d) (str "steps:")
  :: map (fun m => line_text m []) (d_blanks d) ++ concat (map step_lines (d_steps d)).

Definition file_of (lines : list bytes) : bytes := concat (map (fun l => l ++ [10]) lines).

Definition doc_text (d : Doc) : bytes := file_of (doc_lines d).

(** What a document tells: of each entry the last, or what it is by default. *)
Definition last_or {A : Type} (x : A) (l : list A) : A := List.last l x.

Definition names_of (h : HeadLine) : option bytes := match h with H_name _ _ v => Some v | _ => None end.
Definition modes_of (h : HeadLine) : option bytes := match h with H_mode _ _ v => Some v | _ => None end.
Definition expects_of (f : FieldLine) : option bytes := match f with F_expect _ _ v => Some v | _ => None end.
Definition delays_of (f : FieldLine) : option Z := match f with F_delay _ _ n => Some n | _ => None end.

Definition step_told (s : DocStep) : Step :=
  mkStep (ds_cmd s) (last_or [] (omap expects_of (ds_fields s))) (last_or 0 (omap delays_of (ds_fields s))).

Definition told (d : Doc) : Scenario :=
  mkScenario (last_or [] (omap names_of (d_head d))) (last_or (str "ENGINEER") (omap modes_of (d_head d)))
    (map step_told (d_steps d)).

(** Values the format can carry: on one line and without the sign of a comment;
    without quotes also without blanks or a pair of quotes at its ends. *)
Definition free_of (c : Z) (l : bytes) : Prop := Forall (fun x => x <> c) l.

Definition plain (q : Quote) (v : bytes) : Prop :=
  free_of 35 v /\ free_of 10 v /\ match q with Bare => trim v = v /\ stripQuotes v = v | _ => True end.

Definition blanks (l : bytes) : Prop := Forall (fun c => blank c = true /\ c <> 10) l.

Definition wf_margin (m : Margin) : Prop :=
  blanks (m_indent m) /\ blanks (m_gap m) /\ blanks (m_trail m) /\ free_of 10 (comment_text (m_comment m)).

Definition wf_head (h : HeadLine) : Prop :=
  match h with H_name m q v | H_mode m q v => wf_margin m /\ plain q v | H_blank m => wf_margin m end.

Definition wf_field (f : FieldLine) : Prop :=
  match f with
  | F_expect m q v => wf_margin m /\ plain q v
  | F_delay m _ n => wf_margin m /\ - 2 ^ 31 <= n < 2 ^ 31
  | F_blank m => wf_margin m
  end.

Definition wf_step (s : DocStep) : Prop :=
  wf_margin (ds_margin s) /\ blanks (ds_dash s) /\ plain (ds_quote s) (ds_cmd s) /\ Forall wf_field (ds_fields s).

Definition wf_doc (d : Doc) : Prop :=
  Forall wf_head (d_head d) /\ wf_margin (d_margin d) /\ Forall wf_margin (d_blanks d) /\ Forall wf_step (d_steps d).

#[global] Instance plain_dec (q : Quote) (v : bytes) : Decision (plain q v).
Proof. unfold plain, free_of. destruct q; apply _. Defined.
#[global] Instance wf_margin_dec (m : Margin) : Decision (wf_margin m).
Proof. unfold wf_margin, blanks, free_of. apply _. Defined.
#[global] Instance wf_head_dec (h : HeadLine) : Decision (wf_head h).
Proof. destruct h; apply _. Defined.
#[global] Instance wf_field_dec (f : FieldLine) : Decision (wf_field f).
Proof. destruct f; apply _. Defined.
#[global] Instance wf_step_dec (s : DocStep) : Decision (wf_step s).
Proof. unfold wf_step, blanks. apply _. Defined.
#[global] Instance wf_doc_dec (d : Doc) : Decision (wf_doc d).
Proof. unfold wf_doc. apply _. Defined.

(** ** Lemmas: lines *)

Lemma cut_line_shorter (s l r : bytes) : s <> [] -> cut_line s = (l, r) -> (length r < length s)%nat.
Proof.
  revert l r. induction s as [|c s IH]; intros l r Hne E; [contradiction|]. cbn in E.
  destruct (c =? 10); [injection E as <- <-; cbn; lia|].
  destruct (cut_line s) as [l' r'] eqn:Ec. injection E as <- <-.
  destruct s as [|d s]; [injection Ec as <- <-; cbn; lia|].
  specialize (IH l' r' ltac:(discriminate) eq_refl). cbn in *. lia.
Qed.

Lemma lines_loop_enough (n m : nat) (s : bytes) :
  (length s <= n)%nat -> (length s <= m)%nat -> lines_loop n s = lines_loop m s.
Proof.
  revert m s. induction n as [|n IH]; intros m s Hn Hm.
  - destruct s; [destruct m; reflexivity|cbn in Hn; lia].
  - destruct s as [|c s]; [destruct m; reflexivity|]. destruct m as [|m]; [cbn in Hm; lia|].
    cbn [lines_loop]. destruct (cut_line (c :: s)) as [l r] eqn:E.
    apply cut_line_shorter in E; [|discriminate]. f_equal. apply IH; cbn in *; lia.
Qed.

Lemma get_lines_cons (l s : bytes) :
  Forall (fun c => c <> 10) l -> get_lines (l ++ 10 :: s) = l :: get_lines s.
Proof.
  intros Hl. unfold get_lines. rewrite length_app. cbn [length]. rewrite Nat.add_succ_r. cbn [lines_loop].
  destruct (l ++ 10 :: s) as [|c r] eqn:E; [destruct l; discriminate|]. rewrite <- E.
  rewrite cut_line_app by exact Hl. f_equal. apply lines_loop_enough; lia.
Qed.

(** Lines written with their ends are the lines read. *)
Lemma get_lines_concat (ls : list bytes) :
  Forall (Forall (fun c => c <> 10)) ls -> get_lines (concat (map (fun l => l ++ [10]) ls)) = ls.
Proof.
  induction 1 as [|l ls Hl _ IH]; [reflexivity|]. cbn [map concat]. rewrite <- app_assoc.
  cbn [app]. rewrite get_lines_cons by exact Hl. rewrite IH. reflexivity.
Qed.

(** ** Lemmas: trim *)

Lemma find_if_bound (p : Z -> bool) (s : bytes) (i : nat) : find_if p s = Some i -> (i < length s)%nat.
Proof.
  revert i. induction s as [|c s IH]; intros i E; [discriminate|]. cbn in *.
  destruct (p c); [injection E as <-; lia|]. destruct (find_if p s) as [j|]; [|discriminate].
  injection E as <-. specialize (IH j eq_refl). lia.
Qed.

Lemma find_if_snoc (p : Z -> bool) (s : bytes) (c : Z) :
  p c = false -> find_if p (s ++ [c]) = find_if p s.
Proof.
  intros Hc. induction s as [|x s IH]; cbn; [rewrite Hc; reflexivity|]. rewrite IH. reflexivity.
Qed.

Lemma trim_blank_l (c : Z) (s : bytes) : blank c = true -> trim (c :: s) = trim s.
Proof.
  intros Hc. unfold trim, find_first_not_blank, find_last_not_blank. cbn [find_if rev length].
  rewrite Hc. cbn [negb]. rewrite find_if_snoc by (rewrite Hc; reflexivity).
  destruct (find_if _ s) as [a|] eqn:Ea; cbn [option_map fmap option_fmap];
    [|destruct (find_if (fun x => negb (blank x)) (rev s)); reflexivity].
  destruct (find_if _ (rev s)) as [i|] eqn:Ei; cbn [fmap option_fmap option_map]; [|reflexivity].
  apply find_if_bound in Ei. rewrite length_rev in Ei. cbn [drop]. f_equal. lia.
Qed.

Lemma trim_blank_r (c : Z) (s : bytes) : blank c = true -> trim (s ++ [c]) = trim s.
Proof.
  intros Hc. unfold trim, find_first_not_blank, find_last_not_blank.
  rewrite rev_app_distr. cbn [find_if rev app]. rewrite Hc. cbn [negb].
  rewrite find_if_snoc by (rewrite Hc; reflexivity). rewrite length_app. cbn [length].
  destruct (find_if _ s) as [a|] eqn:Ea; [|reflexivity].
  destruct (find_if _ (rev s)) as [i|] eqn:Ei; cbn [fmap option_fmap option_map]; [|reflexivity].
  apply find_if_bound in Ea. apply find_if_bound in Ei. rewrite length_rev in Ei.
  replace (length s + 1 - 1 - S i)%nat with (length s - 1 - i)%nat by lia.
  rewrite drop_app_le by lia. rewrite take_app_le; [reflexivity|]. rewrite length_drop. lia.
Qed.

Lemma trim_blanks_l (l s : bytes) : blanks l -> trim (l ++ s) = trim s.
Proof. induction 1 as [|c l [Hc _] _ IH]; [reflexivity|]. cbn [app]. rewrite trim_blank_l by exact Hc. exact IH. Qed.

Lemma trim_blanks_r (l s : bytes) : blanks l -> trim (s ++ l) = trim s.
Proof.
  intros H. induction l as [|c l IH] using rev_ind; [rewrite app_nil_r; reflexivity|].
  apply Forall_app in H as [Hl Hc]. inversion_clear Hc as [|? ? [Hb _] _].
  rewrite app_assoc, trim_blank_r by exact Hb. exact (IH Hl).
Qed.

Lemma trim_length (s : bytes) : (length (trim s) <= length s)%nat.
Proof.
  unfold trim. destruct (find_first_not_blank s); [|cbn; lia]. destruct (find_last_not_blank s); [|cbn; lia].
  rewrite length_take, length_drop. lia.
Qed.

(** Text that starts and ends with something else is left alone. *)
Lemma trim_id (c d : Z) (s : bytes) :
  blank c = false -> blank d = false -> trim (c :: s ++ [d]) = c :: s ++ [d].
Proof.
  intros Hc Hd. unfold trim, find_first_not_blank, find_last_not_blank.
  change (c :: s ++ [d]) with ((c :: s) ++ [d]). rewrite rev_app_distr. cbn [find_if rev app].
  rewrite Hc, Hd. cbn [negb fmap option_fmap option_map drop]. rewrite take_ge; [reflexivity|].
  cbn. rewrite length_app. cbn. lia.
Qed.

Lemma trim_single (c : Z) : blank c = false -> trim [c] = [c].
Proof. intros Hc. unfold trim, find_first_not_blank, find_last_not_blank. cbn. rewrite Hc. reflexivity. Qed.

Lemma trim_fixed_last (v : bytes) (d : Z) : trim (v ++ [d]) = v ++ [d] -> blank d = false.
Proof.
  intros E. destruct (blank d) eqn:Hd; [|reflexivity]. exfalso.
  rewrite trim_blank_r in E by exact Hd. pose proof (trim_length v) as H. rewrite E, length_app in H. cbn in H. lia.
Qed.

(** Text with nothing to trim at either end. *)
Definition solid (s : bytes) : Prop := trim s = s.

Lemma solid_app (c : Z) (s v : bytes) : blank c = false -> solid v -> v <> [] -> solid (c :: s ++ v).
Proof.
  intros Hc Hv Hne. destruct v as [|d v _] using rev_ind; [contradiction|]. apply trim_fixed_last in Hv.
  rewrite app_assoc. apply trim_id; assumption.
Qed.

(** ** Lemmas: values *)

Lemma strip_quoted (q : Z) (v : bytes) : q = 34 \/ q = 39 -> stripQuotes (q :: v ++ [q]) = v.
Proof.
  intros Hq. unfold stripQuotes, quoted_by.
  replace (rev (q :: v ++ [q])) with (q :: rev v ++ [q]) by (cbn [rev]; rewrite rev_app_distr; reflexivity).
  replace (2 <=? length (q :: v ++ [q]))%nat with true
    by (symmetry; apply Nat.leb_le; cbn [length]; rewrite length_app; cbn; lia).
  replace (_ || _) with true by (destruct Hq as [-> | ->]; reflexivity). cbn [andb length drop].
  rewrite length_app. replace (S (length v + length [q]) - 2)%nat with (length v) by (cbn; lia). apply take_app_length.
Qed.

Lemma written_read (q : Quote) (v : bytes) : plain q v -> solid (written q v) /\ stripQuotes (written q v) = v.
Proof.
  intros (_ & _ & H). destruct q; cbn [written]; [exact H| |]; (split; [apply trim_id; reflexivity|]);
    apply strip_quoted; auto.
Qed.

Lemma written_free (c : Z) (q : Quote) (v : bytes) : c <> 34 -> c <> 39 -> free_of c v -> free_of c (written q v).
Proof.
  intros H1 H2 Hv. destruct q; cbn [written]; [exact Hv| |];
    (constructor; [auto|]; apply Forall_app; split; [exact Hv|]; constructor; [auto|constructor]).
Qed.

Lemma stringZ_plain (q : Quote) (n : Z) : plain q (to_stringZ n).
Proof.
  pose proof (to_stringZ_chars n) as H. pose proof (to_stringZ_nonempty n) as Hne.
  assert (B : Forall (fun c => blank c = false /\ c <> 34 /\ c <> 39) (to_stringZ n)).
  { eapply List.Forall_impl; [|exact H]. cbn. unfold is_digit, blank. intros c [-> | D]; lia. }
  split; [|split]; [(eapply List.Forall_impl; [|exact H]); cbn; unfold is_digit; intros c [-> | D]; lia..|].
  destruct q; [|exact I..]. split.
  - destruct (to_stringZ n) as [|c l]; [reflexivity|]. inversion_clear B as [|? ? [Bc _] Bl].
    destruct l as [|d l' _] using rev_ind; [apply trim_single, Bc|].
    apply Forall_app in Bl as [_ Bd]. inversion_clear Bd as [|? ? [Bd' _] _]. apply trim_id; assumption.
  - unfold stripQuotes, quoted_by. destruct (to_stringZ n) as [|c l]; [reflexivity|].
    inversion_clear B as [|? ? [_ Bq] _]. replace (c =? 34) with false by lia.
    replace (c =? 39) with false by lia. destruct (rev (c :: l)); rewrite andb_false_r; reflexivity.
Qed.

(** ** Lemmas: lines of a file *)

(** Keys as the format has them. *)
Definition key_char (c : Z) : bool :=
  negb (blank c) && negb (c =? 58) && negb (c =? 35) && negb (c =? 45).

Definition key_ok (key : bytes) : Prop := key <> [] /\ forallb key_char key = true.

Lemma key_free (c : Z) (key : bytes) : key_char c = false -> key_ok key -> free_of c key.
Proof.
  intros Hc [_ H]. rewrite forallb_forall in H. apply List.Forall_forall. intros x Hx E. subst x.
  rewrite (H c Hx) in Hc. discriminate.
Qed.

Lemma key_solid (key : bytes) : key_ok key -> exists c k, key = c :: k /\ blank c = false /\ c <> 45 /\ solid key.
Proof.
  intros [Hne Hk]. rewrite forallb_forall in Hk.
  assert (B : forall c, In c key -> blank c = false /\ c <> 45).
  { intros c Hc. apply Hk in Hc. unfold key_char in Hc. destruct (blank c); [discriminate|]. split; [reflexivity|lia]. }
  destruct key as [|c key]; [contradiction|]. exists c, key. split; [reflexivity|].
  destruct (B c (or_introl eq_refl)) as [Bc N]. split; [exact Bc|]. split; [exact N|].
  destruct key as [|d key' _] using rev_ind; [apply trim_single, Bc|].
  apply trim_id; [exact Bc|]. apply B. right. apply in_or_app. right. left. reflexivity.
Qed.

(** What the trimmed text of a pair looks like: nothing stays of the blanks
    before an empty value. *)
Definition pair_body (key gap w : bytes) : bytes := key ++ 58 :: match w with [] => [] | _ => gap ++ w end.

Lemma trim_pair (key gap w : bytes) :
  key_ok key -> blanks gap -> solid w -> trim (key ++ 58 :: gap ++ w) = pair_body key gap w.
Proof.
  intros Hk Hg Hw. destruct (key_solid key Hk) as (c & k & -> & Hc & _ & _). unfold pair_body.
  destruct w as [|x w].
  - rewrite app_nil_r. change (58 :: gap) with ([58] ++ gap). rewrite app_assoc, trim_blanks_r by exact Hg.
    cbn [app]. apply trim_id; [exact Hc|reflexivity].
  - change (58 :: gap ++ x :: w) with ((58 :: gap) ++ x :: w). rewrite app_assoc. cbn [app].
    apply solid_app; [exact Hc|exact Hw|discriminate].
Qed.

Lemma key_value_pair (key gap : bytes) (q : Quote) (v : bytes) (p : Parse) :
  key_ok key -> blanks gap -> plain q v ->
  key_value (pair_body key gap (written q v)) p =
  if p_in_steps p then mkParse (p_sc p) (set_step_field key v (p_step p)) true (p_open p)
  else set_header key v p.
Proof.
  intros Hk Hg Hv. destruct (written_read q v Hv) as [Ht Hq]. destruct (key_solid key Hk) as (_ & _ & _ & _ & _ & Hs).
  unfold key_value, pair_body. rewrite find_if_at;
    [|apply (List.Forall_impl _ (P := fun x => x <> 58)); [intros; lia|exact (key_free 58 key eq_refl Hk)]|reflexivity].
  rewrite take_app_length, Hs. replace (length key + 1)%nat with (S (length key)) by lia.
  rewrite drop_app_ge by lia. replace (S (length key) - length key)%nat with 1%nat by lia. cbn [drop].
  replace (trim _) with (written q v).
  2: { destruct (written q v) as [|x w]; [reflexivity|]. change (drop 0 ?l) with l. rewrite trim_blanks_l by exact Hg. symmetry. exact Ht. }
  rewrite Hq. destruct (p_in_steps p); reflexivity.
Qed.

(** A line is read as its text without the blanks and the comment. *)
Definition parse_body (p : Parse) (t : bytes) : Parse :=
  match t with
  | [] => p
  | c :: t =>
      if c =? 45 then
        if p_in_steps p then key_value (trim t) (mkParse (close_step p) newStep true true) else p
      else key_value (c :: t) p
  end.

Lemma parse_line_text (m : Margin) (body : bytes) (p : Parse) :
  wf_margin m -> free_of 35 body -> parse_line p (line_text m body) = parse_body p (trim body).
Proof.
  intros (Hi & _ & Ht & _) Hb.
  assert (Hf : free_of 35 (m_indent m ++ body ++ m_trail m)).
  { assert (F : forall l, blanks l -> free_of 35 l)
      by (intros l; apply List.Forall_impl; intros c [Hc _] ->; discriminate).
    apply Forall_app. split; [exact (F _ Hi)|]. apply Forall_app. split; [exact Hb|exact (F _ Ht)]. }
  unfold parse_line, line_text. rewrite (app_assoc body), (app_assoc (m_indent m)).
  assert (E : match find_if (fun c => c =? 35) ((m_indent m ++ body ++ m_trail m) ++ comment_text (m_comment m)) with
              | Some cmt => take cmt ((m_indent m ++ body ++ m_trail m) ++ comment_text (m_comment m))
              | None => (m_indent m ++ body ++ m_trail m) ++ comment_text (m_comment m)
              end = m_indent m ++ body ++ m_trail m).
  { assert (Hf' : Forall (fun c => (c =? 35) = false) (m_indent m ++ body ++ m_trail m))
      by (eapply List.Forall_impl; [|exact Hf]; cbn; intros; lia).
    destruct (m_comment m) as [c|]; cbn [comment_text].
    - rewrite find_if_at by (exact Hf' || reflexivity). apply take_app_length.
    - rewrite app_nil_r, find_if_none by exact Hf'. reflexivity. }
  rewrite E, trim_blanks_l, trim_blanks_r by assumption. reflexivity.
Qed.

Lemma blanks_free (c : Z) (l : bytes) : blank c = false \/ c = 10 -> blanks l -> free_of c l.
Proof. intros Hc. apply List.Forall_impl. intros x [Hx Hn] ->. destruct Hc; congruence. Qed.

Lemma pair_free (c : Z) (key gap : bytes) (q : Quote) (v : bytes) :
  c = 35 \/ c = 10 -> key_ok key -> blanks gap -> plain q v -> free_of c (key ++ 58 :: gap ++ written q v).
Proof.
  intros Hc Hk Hg (H1 & H2 & _). apply Forall_app. split; [apply key_free; [destruct Hc; subst; reflexivity|exact Hk]|].
  constructor; [lia|]. apply Forall_app. split; [apply blanks_free; [destruct Hc; subst; auto|exact Hg]|].
  apply written_free; [lia|lia|destruct Hc; subst; assumption].
Qed.

Lemma parse_pair (m : Margin) (key : bytes) (q : Quote) (v : bytes) (p : Parse) :
  wf_margin m -> key_ok key -> plain q v ->
  parse_line p (pair_text m key q v) =
  if p_in_steps p then mkParse (p_sc p) (set_step_field key v (p_step p)) true (p_open p)
  else set_header key v p.
Proof.
  intros Hm Hk Hv. pose proof Hm as (_ & Hg & _). destruct (written_read q v Hv) as [Hs _].
  unfold pair_text. rewrite parse_line_text by (assumption || apply pair_free; auto).
  rewrite trim_pair, <- (key_value_pair key (m_gap m) q v p Hk Hg Hv) by assumption.
  destruct (key_solid key Hk) as (c & k & -> & _ & Hc & _). unfold pair_body. cbn [app parse_body].
  replace (c =? 45) with false by lia. reflexivity.
Qed.

Lemma cmd_key : key_ok (str "cmd").
Proof. split; [discriminate|reflexivity]. Qed.

Lemma parse_cmd (s : DocStep) (p : Parse) :
  wf_step s -> p_in_steps p = true ->
  parse_line p (cmd_line s) = mkParse (close_step p) (mkStep (ds_cmd s) [] 0) true true.
Proof.
  intros (Hm & Hd & Hv & _) Hp. pose proof Hm as (_ & Hg & _). destruct (written_read _ _ Hv) as [Hs _].
  pose proof (trim_pair (str "cmd") (m_gap (ds_margin s)) _ cmd_key Hg Hs) as T.
  set (t := str "cmd" ++ 58 :: m_gap (ds_margin s) ++ written (ds_quote s) (ds_cmd s)) in *.
  unfold cmd_line. fold t. rewrite parse_line_text; [|exact Hm|].
  2: { constructor; [lia|]. apply Forall_app. split; [apply blanks_free; auto|]. apply pair_free; auto using cmd_key. }
  assert (E : exists r, trim (45 :: ds_dash s ++ t) = 45 :: r /\ trim r = pair_body (str "cmd") (m_gap (ds_margin s)) (written (ds_quote s) (ds_cmd s))).
  { unfold t in T |- *. unfold pair_body in *. destruct (written (ds_quote s) (ds_cmd s)) as [|x w] eqn:Ew.
    - exists (ds_dash s ++ str "cmd:"). split.
      + rewrite app_nil_r. replace (45 :: ds_dash s ++ str "cmd" ++ 58 :: m_gap (ds_margin s))
          with ((45 :: ds_dash s ++ str "cmd:") ++ m_gap (ds_margin s)) by (cbn; rewrite <- app_assoc; reflexivity).
        rewrite trim_blanks_r by exact Hg. rewrite (app_assoc _ (str "cmd") (str ":")). apply trim_id; reflexivity.
      + rewrite trim_blanks_l by exact Hd. reflexivity.
    - exists (ds_dash s ++ str "cmd" ++ 58 :: m_gap (ds_margin s) ++ x :: w). split.
      + replace (ds_dash s ++ str "cmd" ++ 58 :: m_gap (ds_margin s) ++ x :: w)
          with ((ds_dash s ++ str "cmd:" ++ m_gap (ds_margin s)) ++ x :: w) by (rewrite <- !app_assoc; reflexivity).
        apply solid_app; [reflexivity|exact Hs|discriminate].
      + rewrite trim_blanks_l by exact Hd. exact T. }
  destruct E as (r & -> & Er). unfold parse_body. change (45 =? 45) with true. cbv iota. rewrite Hp, Er.
  rewrite key_value_pair by (exact cmd_key || assumption). reflexivity.
Qed.

Lemma parse_blank (m : Margin) (p : Parse) : wf_margin m -> parse_line p (line_text m []) = p.
Proof. intros Hm. rewrite parse_line_text by (assumption || constructor). reflexivity. Qed.

(** ** Lemmas: the parts of a document *)

Lemma last_or_cons {A : Type} (x y : A) (l : list A) : last_or x (y :: l) = last_or y l.
Proof.
  unfold last_or. revert x y. induction l as [|z l IH]; intros x y; [reflexivity|].
  change (List.last (y :: z :: l) x) with (List.last (z :: l) x). rewrite !IH. reflexivity.
Qed.

Lemma parse_head (hs : list HeadLine) (n m : bytes) (st : Step) :
  Forall wf_head hs ->
  fold_left parse_line (map head_line hs) (mkParse (mkScenario n m []) st false false) =
  mkParse (mkScenario (last_or n (omap names_of hs)) (last_or m (omap modes_of hs)) []) st false false.
Proof.
  intros H. revert n m. induction H as [|h hs Hh _ IH]; intros n m; [reflexivity|].
  cbn [map fold_left omap list_omap]. destruct h as [mg q v|mg q v|mg]; cbn [head_line names_of modes_of wf_head] in *.
  1-2: destruct Hh as [Hm Hv]; rewrite parse_pair by (exact Hm || exact Hv || (split; [discriminate|reflexivity]));
       cbn [p_in_steps]; rewrite last_or_cons; apply IH.
  rewrite parse_blank by exact Hh. apply IH.
Qed.

Lemma parse_blanks (ms : list Margin) (p : Parse) :
  Forall wf_margin ms -> fold_left parse_line (map (fun m => line_text m []) ms) p = p.
Proof. induction 1 as [|m ms Hm _ IH]; [reflexivity|]. cbn [map fold_left]. rewrite parse_blank by exact Hm. exact IH. Qed.

Lemma parse_fields (fs : list FieldLine) (sc : Scenario) (c e : bytes) (d : Z) :
  Forall wf_field fs ->
  fold_left parse_line (map field_line fs) (mkParse sc (mkStep c e d) true true) =
  mkParse sc (mkStep c (last_or e (omap expects_of fs)) (last_or d (omap delays_of fs))) true true.
Proof.
  intros H. revert e d. induction H as [|f fs Hf _ IH]; intros e d; [reflexivity|].
  cbn [map fold_left omap list_omap]. destruct f as [mg q v|mg q n|mg]; cbn [field_line expects_of delays_of wf_field] in *.
  - destruct Hf as [Hm Hv]. rewrite parse_pair by (exact Hm || exact Hv || (split; [discriminate|reflexivity])).
    cbn [p_in_steps]. rewrite last_or_cons. apply IH.
  - destruct Hf as [Hm Hn].
    rewrite parse_pair by (exact Hm || apply stringZ_plain || (split; [discriminate|reflexivity])).
    cbn [p_in_steps p_sc p_step p_open]. unfold set_step_field. rewrite stoi_to_stringZ by exact Hn.
    cbn [s_cmd s_expect]. rewrite last_or_cons. apply IH.
  - rewrite parse_blank by exact Hf. apply IH.
Qed.

Lemma parse_steps (ss : list DocStep) (p : Parse) :
  Forall wf_step ss -> p_in_steps p = true ->
  close_step (fold_left parse_line (concat (map step_lines ss)) p) =
  mkScenario (sc_name (p_sc p)) (sc_mode (p_sc p)) (sc_steps (close_step p) ++ map step_told ss).
Proof.
  intros Hs. revert p. induction Hs as [|s ss Hs _ IH]; intros p Hp; cbn [map concat].
  - cbn [fold_left]. rewrite app_nil_r. destruct p as [[n m l] st a []]; reflexivity.
  - rewrite fold_left_app. unfold step_lines at 2. cbn [fold_left]. rewrite parse_cmd by assumption.
    rewrite parse_fields by apply Hs. rewrite IH by reflexivity.
    destruct p as [[n m l] st a []]; cbn; rewrite <- app_assoc; reflexivity.
Qed.

Lemma line_free (m : Margin) (body : bytes) : wf_margin m -> free_of 10 body -> free_of 10 (line_text m body).
Proof.
  intros (Hi & _ & Ht & Hc) Hb. unfold line_text.
  repeat (apply Forall_app; split); [apply blanks_free; auto|exact Hb|apply blanks_free; auto|exact Hc].
Qed.

Lemma pair_line_free (m : Margin) (key : bytes) (q : Quote) (v : bytes) :
  wf_margin m -> key_ok key -> plain q v -> free_of 10 (pair_text m key q v).
Proof. intros Hm Hk Hv. apply line_free; [exact Hm|]. apply pair_free; auto. apply Hm. Qed.

Ltac written_line := apply pair_line_free; [assumption|split; [discriminate|reflexivity]|first [assumption|apply stringZ_plain]].

Lemma lines_free (d : Doc) : wf_doc d -> Forall (free_of 10) (doc_lines d).
Proof.
  intros (Hh & Hm & Hb & Hs). unfold doc_lines. apply Forall_app. split.
  - apply Forall_map. eapply List.Forall_impl; [|exact Hh]. intros [m q v|m q v|m]; cbn; [intros []; written_line..|].
    intros H. apply line_free; [exact H|constructor].
  - constructor; [apply line_free; [exact Hm|repeat constructor; discriminate]|]. apply Forall_app. split.
    + apply Forall_map. eapply List.Forall_impl; [|exact Hb]. intros m H. apply line_free; [exact H|constructor].
    + apply Forall_concat, Forall_map. eapply List.Forall_impl; [|exact Hs]. intros s (Hsm & Hd & Hv & Hf).
      constructor.
      * apply line_free; [exact Hsm|]. constructor; [discriminate|]. apply Forall_app.
        split; [apply blanks_free; auto|]. apply pair_free; auto using cmd_key. apply Hsm.
      * apply Forall_map. eapply List.Forall_impl; [|exact Hf].
        intros [m q v|m q n|m]; cbn; [intros []; written_line..|]. intros H. apply line_free; [exact H|constructor].
Qed.

Lemma parse_written (d : Doc) : wf_doc d -> parseYaml (Some (doc_text d)) = Some (told d).
Proof.
  intros Hwf. pose proof Hwf as (Hh & Hm & Hb & Hs). unfold parseYaml. cbn [mbind option_bind].
  unfold doc_text, file_of. rewrite get_lines_concat by exact (lines_free d Hwf).
  unfold doc_lines, newScenario. rewrite fold_left_app, parse_head by exact Hh. cbn [fold_left].
  rewrite parse_line_text by (exact Hm || (repeat constructor; discriminate)).
  rewrite fold_left_app, parse_blanks by exact Hb. rewrite parse_steps by (exact Hs || reflexivity). reflexivity.
Qed.

(** The commands in the pipe. *)
Definition commands (sc : Scenario) : list bytes := (str "MODE " ++ sc_mode sc) :: map s_cmd (sc_steps sc).

Abbreviation ended := (map (fun l : bytes => l ++ [10])).

Lemma piped_run (sc : Scenario) : piped (run sc) = concat (ended (commands sc)).
Proof.
  assert (E : forall ss, piped (concat (map run_step ss)) = concat (ended (map s_cmd ss))).
  { unfold piped. induction ss as [|s ss IH]; [reflexivity|]. cbn [map concat]. rewrite map_app, concat_app, IH.
    f_equal. unfold run_step. destruct (0 <? s_delay_ms s), (s_expect s); cbn; rewrite ?app_nil_r; reflexivity. }
  transitivity ((str "MODE " ++ sc_mode sc ++ [10]) ++ piped (concat (map run_step (sc_steps sc)))); [reflexivity|].
  unfold commands. cbn [map concat]. rewrite E, <- !app_assoc. reflexivity.
Qed.

Lemma piped_lines (d : Doc) : wf_doc d -> get_lines (piped (run (told d))) = commands (told d).
Proof.
  intros (Hh & _ & _ & Hs). rewrite piped_run. apply get_lines_concat. constructor.
  - apply Forall_app. split; [repeat constructor; discriminate|]. cbn [told sc_mode].
    assert (D : free_of 10 (str "ENGINEER")) by (repeat constructor; discriminate). revert D.
    generalize (str "ENGINEER"). induction Hh as [|h hs H _ IH]; intros m D; [exact D|].
    cbn [omap list_omap]. destruct h as [mg q v|mg q v|mg]; cbn [modes_of]; auto.
    rewrite last_or_cons. apply IH, H.
  - apply Forall_map, Forall_map. eapply List.Forall_impl; [|exact Hs]. intros s (_ & _ & Hv & _). apply Hv.
Qed.

(** ** Properties *)

(** C36. A scenario file in the documented form is read as what it says: its
    name, its mode and every step with its command, keyword and delay, each
    written as it is or in double or single quotes, indented in any way, with
    comments and empty lines among them; and what the program pipes into the
    simulator is read there, line by line, as the mode command and then the
    commands of the steps, in order. *)
Theorem scenario_roundtrip (d : Doc) (Hwf : wf_doc d) :
  parseYaml (Some (doc_text d)) = Some (told d)
  /\ scenario_main (Some (Some (doc_text d))) = (0, run (told d))
  /\ get_lines (piped (run (told d))) = commands (told d).
Proof.
  pose proof (parse_written d Hwf) as P. split; [exact P|].
  split; [unfold scenario_main; rewrite P; reflexivity|exact (piped_lines d Hwf)].
Qed.

Lemma doc_check (d : Doc) : bool_decide (wf_doc d) = true -> wf_doc d.
Proof. intros H. exact (bool_decide_eq_true_1 _ H). Qed.

Definition indented (n : nat) : Margin := mkMargin (repeat 32 n) [32] [] None.

(** The shipped scenarios, as they are in [4g-simulator/scenarios]. *)
Definition basic_attach_doc : Doc :=
  mkDoc [H_name (indented 0) Double (str "Basic Attach Flow"); H_mode (indented 0) Bare (str "BEGINNER")] (indented 0) []
    [mkDocStep (indented 2) [32] Bare (str "CR 1") [F_expect (indented 4) Bare (str "REGISTERED"); F_delay (indented 4) Bare 100];
     mkDocStep (indented 2) [32] Bare (str "STATUS") []; mkDocStep (indented 2) [32] Bare (str "QUIT") []].

Definition basic_attach_lines : list bytes :=
  [str "name: " ++ [34] ++ str "Basic Attach Flow" ++ [34]; str "mode: BEGINNER"; str "steps:";
   str "  - cmd: CR 1"; str "    expect: REGISTERED"; str "    delay_ms: 100";
   str "  - cmd: STATUS"; str "  - cmd: QUIT"].

Definition basic_attach : Scenario :=
  mkScenario (str "Basic Attach Flow") (str "BEGINNER")
    [mkStep (str "CR 1") (str "REGISTERED") 100; mkStep (str "STATUS") [] 0; mkStep (str "QUIT") [] 0].

Definition bulk_load_doc : Doc :=
  mkDoc [H_name (indented 0) Double (str "Bulk Load Test - 20 UEs"); H_mode (indented 0) Bare (str "ENGINEER")] (indented 0) []
    [mkDocStep (indented 2) [32] Bare (str "BULK 20") [F_expect (indented 4) Bare (str "all 20 UEs registered"); F_delay (indented 4) Bare 0];
     mkDocStep (indented 2) [32] Bare (str "STATUS") []; mkDocStep (indented 2) [32] Bare (str "QUIT") []].

Definition bulk_load_lines : list bytes :=
  [str "name: " ++ [34] ++ str "Bulk Load Test - 20 UEs" ++ [34]; str "mode: ENGINEER"; str "steps:";
   str "  - cmd: BULK 20"; str "    expect: all 20 UEs registered"; str "    delay_ms: 0";
   str "  - cmd: STATUS"; str "  - cmd: QUIT"].

Definition mobility_doc : Doc :=
  mkDoc [H_name (indented 0) Double (str "Attach + TAU + S1 Handover"); H_mode (indented 0) Bare (str "ENGINEER")] (indented 0) []
    [mkDocStep (indented 2) [32] Bare (str "CR 1") [F_expect (indented 4) Bare (str "REGISTERED"); F_delay (indented 4) Bare 200];
     mkDocStep (indented 2) [32] Bare (str "TAU 1") [F_expect (indented 4) Bare (str "TAU COMPLETE"); F_delay (indented 4) Bare 300];
     mkDocStep (indented 2) [32] Bare (str "HO 1") [F_expect (indented 4) Bare (str "HANDOVER COMPLETE"); F_delay (indented 4) Bare 500];
     mkDocStep (indented 2) [32] Bare (str "STATUS") []; mkDocStep (indented 2) [32] Bare (str "QUIT") []].

Definition mobility_lines : list bytes :=
  [str "name: " ++ [34] ++ str "Attach + TAU + S1 Handover" ++ [34]; str "mode: ENGINEER"; str "steps:";
   str "  - cmd: CR 1"; str "    expect: REGISTERED"; str "    delay_ms: 200";
   str "  - cmd: TAU 1"; str "    expect: TAU COMPLETE"; str "    delay_ms: 300";
   str "  - cmd: HO 1"; str "    expect: HANDOVER COMPLETE"; str "    delay_ms: 500";
   str "  - cmd: STATUS"; str "  - cmd: QUIT"].

(** One with comments, an empty line, single quotes and lines ended as on
    another system. *)
Definition commented_doc : Doc :=
  mkDoc [H_blank (mkMargin [] [] [] (Some (str " smoke test"))); H_name (mkMargin [] [32] [13] None) Single (str " it: 'x' ")]
    (mkMargin [] [] [32] (Some (str " one"))) [mkMargin [13] [] [] None]
    [mkDocStep (mkMargin [9] [] [] None) [] Double (str "CR 1") [F_delay (mkMargin [9; 9] [32] [13] None) Single (-5)]].

Lemma scenario_roundtrip_witness :
  parseYaml (Some (file_of basic_attach_lines)) = Some basic_attach
  /\ get_lines (piped (run basic_attach)) = [str "MODE BEGINNER"; str "CR 1"; str "STATUS"; str "QUIT"]
  /\ scenario_main (Some (Some (file_of bulk_load_lines))) = (0, run (told bulk_load_doc))
  /\ parseYaml (Some (file_of mobility_lines)) = Some (told mobility_doc)
  /\ parseYaml (Some (doc_text commented_doc)) =
       Some (mkScenario (str " it: 'x' ") (str "ENGINEER") [mkStep (str "CR 1") [] (-5)]).
Proof.
  assert (W1 : wf_doc basic_attach_doc) by (apply doc_check; vm_compute; reflexivity).
  assert (W2 : wf_doc bulk_load_doc) by (apply doc_check; vm_compute; reflexivity).
  assert (W3 : wf_doc commented_doc) by (apply doc_check; vm_compute; reflexivity).
  assert (W4 : wf_doc mobility_doc) by (apply doc_check; vm_compute; reflexivity).
  destruct (scenario_roundtrip basic_attach_doc W1) as (P & _ & L).
  destruct (scenario_roundtrip bulk_load_doc W2) as (_ & M & _).
  destruct (scenario_roundtrip commented_doc W3) as (Q & _).
  destruct (scenario_roundtrip mobility_doc W4) as (R & _).
  split; [exact P|]. split; [exact L|]. split; [exact M|]. split; [exact R|exact Q].
Defined.
