(* ===== verification/Console.v ===== *)
(** * The console of the 4G simulator

    The command loop of [4g-simulator/src/main.cpp]: what a line makes the main
    thread call, and the main thread with its shutdown, the bulk thread pool
    and the eNB's command thread closed into one system.  The text the loop
    prints is not modelled, nor is a signal, which ends the loop at another
    line.  A run of the performance scenarios is an opaque call. *)

From Stdlib Require Import Lia.
From stdpp Require Import relations sorting.
From S2P Require Import Prelude Text Strings NodeEnv Metrics ThreadPool Enb Scenario.
#[local] Open Scope Z_scope.

(** ** Reading a line *)

(** [int n = d; if (!(iss >> n) || n < 1) n = d]. *)
Definition number_or (d : Z) (iss : istream) : Z :=
  match extract_int d iss with (n, Some _) => if n <? 1 then d else n | (_, None) => d end.

(** ** The calls of the main thread *)

Inductive LogLevel : Set := BEGINNER | ENGINEER | INTERVIEW_T.

Inductive Call : Type :=
| PrintStatus
| SubmitCommand (cmd : bytes)       (** [enb.submitCommand] *)
| StartBulk (n : Z)
| PoolSubmit (cmd : bytes)          (** [pool.submit] of a task that submits the command *)
| WaitForAll (timeout_ms : Z)
| PrintReport
| SetLevel (l : LogLevel)
| PerfRun (s : Z) (buggy : bool) (n : Z)
| SetChaos (b : bool).

Definition cap (n : Z) : Z := if 100 <? n then 100 else n.

Definition bulk_calls (n : Z) : list Call :=
  StartBulk n :: repeat (PoolSubmit (str "CR 1")) (Z.to_nat n) ++ [WaitForAll 30000; PrintReport].

Definition mode_calls (iss : istream) : res (option (list Call)) :=
  let '(mode, _) := extract_word iss in
  mode ← change_case to_upper mode;
  mret (Some (if bool_decide (mode = str "BEGINNER") then [SetLevel BEGINNER]
              else if bool_decide (mode = str "ENGINEER") then [SetLevel ENGINEER]
              else if bool_decide (mode = str "INTERVIEW") then [SetLevel INTERVIEW_T] else [])).

Definition perf_calls (iss : istream) : res (option (list Call)) :=
  let '(s, iss) := extract_int 1 iss in
  let '(mode, iss) := extract_word iss in
  let '(n, _) := extract_int 0 iss in
  mode ← change_case to_lower mode;
  mret (Some [PerfRun s (negb (bool_decide (mode = str "fixed"))) n]).

Definition chaos_calls (iss : istream) : res (option (list Call)) :=
  let '(arg, _) := extract_word iss in
  arg ← change_case to_upper arg;
  mret (Some [SetChaos (bool_decide (arg = str "ON"))]).

(** The calls a line leads to; [None]: the loop ends. *)
Definition main_line (line : bytes) : res (option (list Call)) :=
  match line with
  | [] => mret (Some [])
  | _ =>
      let '(cmd, iss) := extract_word (Some line) in
      cmd ← change_case to_upper cmd;
      if bool_decide (cmd = str "QUIT") || bool_decide (cmd = str "EXIT") then mret None
      else if bool_decide (cmd = str "STATUS") then mret (Some [PrintStatus])
      else if bool_decide (cmd = str "CR") then
        mret (Some [SubmitCommand (str "CR " ++ to_string (cap (number_or 1 iss)))])
      else if bool_decide (cmd = str "BULK") then mret (Some (bulk_calls (cap (number_or 5 iss))))
      else if bool_decide (cmd = str "TAU") then
        mret (Some [SubmitCommand (str "TAU " ++ to_string (number_or 1 iss))])
      else if bool_decide (cmd = str "HO") then
        mret (Some [SubmitCommand (str "HO " ++ to_string (number_or 1 iss))])
      else if bool_decide (cmd = str "MODE") then mode_calls iss
      else if bool_decide (cmd = str "PERF") then perf_calls iss
      else if bool_decide (cmd = str "CHAOS") then chaos_calls iss
      else mret (Some [])
  end.

(** ** The program

    The main thread with the calls it still has to make for its line, the
    workers of the pool, the eNB's command thread and the MME's recording of
    attaches.  A task of the pool is the command it submits.  [getline] ends
    the loop as a QUIT does; the main thread then stores [stop] and calls
    [requestStop], which notifies without the command thread's mutex.  The
    destructor of the pool, which comes last, is not part of this system. *)

Inductive MainPc : Set :=
| InLoop
| LoopLeft          (** the command loop has ended *)
| StopStored        (** [stop.store(true)] done *)
| StopNotified.     (** [requestStop] done: joining the threads *)

(** Where the eNB's [commandLoop] is. *)
Inductive EnbPc : Set :=
| E_Test            (** at [while (!stop_)] *)
| E_Pred            (** to take the mutex and evaluate the predicate *)
| E_AboutToWait     (** the predicate was false: not asleep yet, the mutex held *)
| E_Asleep          (** in [cmd_cv_.wait] *)
| E_Drain           (** at [while (!cmd_queue_.empty())] *)
| E_Sending (k : nat)   (** in [processCommand], attaches left to begin *)
| E_Exited.

Record CmdThread : Type := mkCmd {
  c_at : EnbPc;
  c_queue : list bytes;          (** [cmd_queue_] *)
  c_taken : list bytes;          (** the commands it has taken *)
  c_begun : nat                  (** the attaches it has begun *)
}.

Record MmeSim : Type := mkSim {
  x_input : list bytes;          (** the lines not read yet *)
  x_main : MainPc;
  x_todo : list Call;
  x_pool : @ThreadPool bytes;
  x_enb : CmdThread;
  x_recorded : nat;              (** attaches completed and recorded *)
  x_metrics : Metrics;
  x_level : LogLevel;
  x_chaos : bool;
  x_reports : list bool          (** what each [waitForAll] said *)
}.

Definition start_sim (lines : list bytes) : MmeSim :=
  mkSim lines InLoop [] (newThreadPool 8) (mkCmd E_Test [] [] 0) 0 newMetrics ENGINEER false [].

Definition with_line (rest : list bytes) (m : MainPc) (cs : list Call) (x : MmeSim) : MmeSim :=
  mkSim rest m cs (x_pool x) (x_enb x) (x_recorded x) (x_metrics x) (x_level x) (x_chaos x) (x_reports x).
Definition with_main (m : MainPc) (x : MmeSim) : MmeSim := with_line (x_input x) m (x_todo x) x.
Definition with_todo (cs : list Call) (x : MmeSim) : MmeSim := with_line (x_input x) (x_main x) cs x.
Definition with_pool (p : ThreadPool) (x : MmeSim) : MmeSim :=
  mkSim (x_input x) (x_main x) (x_todo x) p (x_enb x) (x_recorded x) (x_metrics x)
    (x_level x) (x_chaos x) (x_reports x).
Definition with_enb (c : CmdThread) (x : MmeSim) : MmeSim :=
  mkSim (x_input x) (x_main x) (x_todo x) (x_pool x) c (x_recorded x) (x_metrics x)
    (x_level x) (x_chaos x) (x_reports x).
Definition with_metrics (m : Metrics) (x : MmeSim) : MmeSim :=
  mkSim (x_input x) (x_main x) (x_todo x) (x_pool x) (x_enb x) (x_recorded x) m
    (x_level x) (x_chaos x) (x_reports x).
Definition record_attach (ms : Z) (x : MmeSim) : MmeSim :=
  mkSim (x_input x) (x_main x) (x_todo x) (x_pool x) (x_enb x) (S (x_recorded x))
    (recordAttach ms (x_metrics x)).1 (x_level x) (x_chaos x) (x_reports x).
Definition set_level (l : LogLevel) (x : MmeSim) : MmeSim :=
  mkSim (x_input x) (x_main x) (x_todo x) (x_pool x) (x_enb x) (x_recorded x) (x_metrics x)
    l (x_chaos x) (x_reports x).
Definition set_chaos (b : bool) (x : MmeSim) : MmeSim :=
  mkSim (x_input x) (x_main x) (x_todo x) (x_pool x) (x_enb x) (x_recorded x) (x_metrics x)
    (x_level x) b (x_reports x).
Definition report (b : bool) (x : MmeSim) : MmeSim :=
  mkSim (x_input x) (x_main x) (x_todo x) (x_pool x) (x_enb x) (x_recorded x) (x_metrics x)
    (x_level x) (x_chaos x) (x_reports x ++ [b]).

(** [stop], the flag all threads share. *)
Definition stopped (x : MmeSim) : bool :=
  match x_main x with InLoop | LoopLeft => false | StopStored | StopNotified => true end.

(** A notified thread evaluates its predicate again. *)
Definition awakened (a : EnbPc) : EnbPc := match a with E_Asleep => E_Pred | _ => a end.

Definition enb_at (a : EnbPc) (c : CmdThread) : CmdThread := mkCmd a (c_queue c) (c_taken c) (c_begun c).

(** [submitCommand]: the mutex, the push and [notify_one]. *)
Definition submit_cmd (cmd : bytes) (c : CmdThread) : option CmdThread :=
  match c_at c with
  | E_AboutToWait => None
  | a => Some (mkCmd (awakened a) (c_queue c ++ [cmd]) (c_taken c) (c_begun c))
  end.

Definition enb_submit (cmd : bytes) (x : MmeSim) : option MmeSim :=
  c ← submit_cmd cmd (x_enb x); Some (with_enb c x).

(** The attaches a command asks for. *)
Definition attaches (cmd : bytes) : nat :=
  if bool_decide (take 2 cmd = str "CR") then Z.to_nat (cmd_arg 3 cmd) else 0.

(** One action of [commandLoop] and of [processCommand] in it. *)
Definition enb_turn (stop : bool) (c : CmdThread) : option CmdThread :=
  match c_at c with
  | E_Test => Some (enb_at (if stop then E_Exited else E_Pred) c)
  | E_Pred => Some (enb_at (if negb (bool_decide (c_queue c = [])) || stop then E_Drain else E_AboutToWait) c)
  | E_AboutToWait => Some (enb_at E_Asleep c)
  | E_Drain =>
      match c_queue c with
      | cmd :: rest => Some (mkCmd (E_Sending (attaches cmd)) rest (c_taken c ++ [cmd]) (c_begun c))
      | [] => Some (enb_at E_Test c)
      end
  | E_Sending k =>
      match k with
      | S k' => if stop then Some (enb_at E_Drain c)
                else Some (mkCmd (E_Sending k') (c_queue c) (c_taken c) (S (c_begun c)))
      | O => Some (enb_at E_Drain c)
      end
  | E_Asleep | E_Exited => None
  end.

(** One call; [waitForAll] returns when the batch is complete, or timed out. *)
Definition make_call (timed_out : bool) (c : Call) (x : MmeSim) : option MmeSim :=
  match c with
  | SubmitCommand cmd => enb_submit cmd x
  | StartBulk n => Some (with_metrics (startBulk n (x_metrics x)) x)
  | PoolSubmit cmd => p ← pool_step (Submit cmd) (x_pool x); Some (with_pool p x)
  | WaitForAll _ =>
      if all_done (x_metrics x) then Some (report true x)
      else if timed_out then Some (report false x) else None
  | SetLevel l => Some (set_level l x)
  | SetChaos b => Some (set_chaos b x)
  | PrintStatus | PrintReport | PerfRun _ _ _ => Some x
  end.

(** What happens in the pool while it lives. *)
Definition pool_label (lb : @Label bytes) : bool :=
  match lb with Submit _ | Stop | NotifyAll | Join => false | _ => true end.

(** The command a finishing worker submits. *)
Definition executed (lb : @Label bytes) (p : @ThreadPool bytes) : option bytes :=
  match lb with Finish i => workers_ p !! i ≫= task_of | _ => None end.

Inductive SimLabel : Type :=
| ReadLine
| EndOfInput                 (** [getline] fails *)
| StoreStop                  (** [stop.store(true)] *)
| NotifyEnb                  (** [enb.requestStop] *)
| NextCall (timed_out : bool)
| InPool (lb : @Label bytes)
| EnbTurn
| EnbSpurious                (** a wake-up nobody asked for *)
| Attached (latency_ms : Z).

Definition sim_step (lb : SimLabel) (x : MmeSim) : option MmeSim :=
  match lb with
  | ReadLine =>
      match x_main x, x_todo x, x_input x with
      | InLoop, [], line :: rest =>
          match main_line line with
          | Ok (Some cs) => Some (with_line rest InLoop cs x)
          | Ok None => Some (with_line rest LoopLeft [] x)
          | _ => None
          end
      | _, _, _ => None
      end
  | EndOfInput =>
      match x_main x, x_todo x, x_input x with
      | InLoop, [], [] => Some (with_main LoopLeft x)
      | _, _, _ => None
      end
  | StoreStop => match x_main x with LoopLeft => Some (with_main StopStored x) | _ => None end
  | NotifyEnb =>
      match x_main x with
      | StopStored => Some (with_main StopNotified (with_enb (enb_at (awakened (c_at (x_enb x))) (x_enb x)) x))
      | _ => None
      end
  | NextCall timed_out =>
      match x_todo x with
      | c :: cs => make_call timed_out c (with_todo cs x)
      | [] => None
      end
  | InPool lb =>
      if pool_label lb then
        p ← pool_step lb (x_pool x);
        let x' := with_pool p x in
        match executed lb (x_pool x) with Some cmd => enb_submit cmd x' | None => Some x' end
      else None
  | EnbTurn => c ← enb_turn (stopped x) (x_enb x); Some (with_enb c x)
  | EnbSpurious =>
      match c_at (x_enb x) with E_Asleep => Some (with_enb (enb_at E_Pred (x_enb x)) x) | _ => None end
  | Attached ms => if (x_recorded x <? c_begun (x_enb x))%nat then Some (record_attach ms x) else None
  end.

Fixpoint run_sim (ls : list SimLabel) (x : MmeSim) : option MmeSim :=
  match ls with
  | [] => Some x
  | lb :: ls' => match sim_step lb x with Some x' => run_sim ls' x' | None => None end
  end.

Definition sim_any (x x' : MmeSim) : Prop := exists lb, sim_step lb x = Some x'.

(** Steps the program takes by itself, the input that was given ending
    included: all but attaches completing and spurious wake-ups. *)
Definition own_label (lb : SimLabel) : bool :=
  match lb with Attached _ | InPool (Wake _) | EnbSpurious => false | _ => true end.
Definition sim_own (x x' : MmeSim) : Prop := exists lb, own_label lb = true /\ sim_step lb x = Some x'.

(** ** What the lines ask for *)

Definition call_commands (c : Call) : list bytes :=
  match c with SubmitCommand cmd | PoolSubmit cmd => [cmd] | _ => [] end.

Definition calls_commands (cs : list Call) : list bytes := concat (map call_commands cs).

(** The commands of the lines up to the one that ends the loop. *)
Fixpoint asked (lines : list bytes) : list bytes :=
  match lines with
  | [] => []
  | l :: ls => match main_line l with Ok (Some cs) => calls_commands cs ++ asked ls | _ => [] end
  end.

(** The commands of the lines the main thread is still going to read. *)
Definition unread (x : MmeSim) : list bytes :=
  match x_main x with InLoop => asked (x_input x) | _ => [] end.

(** The model's queue is the eNB's. *)
Lemma enb_submit_queue {W : Type} (cmd : bytes) (e : EnbNode) (w : W) (c c' : CmdThread) :
  cmd_queue_ e = c_queue c -> submit_cmd cmd c = Some c' ->
  exists e', submitCommand cmd (e, w) = Ok (tt, (e', w)) /\ cmd_queue_ e' = c_queue c'.
Proof.
  intros E Hs. eexists. split; [reflexivity|]. unfold submit_cmd in Hs.
  destruct (c_at c); try discriminate; injection Hs as <-; cbn; rewrite E; reflexivity.
Qed.

(** ** Lemmas: lines *)

Ltac res_cases E :=
  repeat match type of E with
  | context [if ?b then _ else _] => destruct b
  | context [let '(_, _) := ?t in _] => destruct t
  | context [change_case ?f ?w] => destruct (change_case f w); cbn in E
  end; try discriminate E.

Lemma main_line_short (line : bytes) (cs : list Call) :
  main_line line = Ok (Some cs) -> (length cs <= 103)%nat.
Proof.
  intros E. unfold main_line in E. destruct line; [injection E as <-; cbn; lia|].
  destruct (extract_word _) as [cmd iss]. unfold mode_calls, perf_calls, chaos_calls in E.
  destruct (change_case to_upper cmd); try discriminate. cbn in E.
  res_cases E; injection E as <-; try (cbn; lia).
  - unfold bulk_calls. cbn. rewrite length_app, repeat_length. cbn.
    unfold cap. destruct (100 <? number_or 5 iss) eqn:Ec; [cbn; lia|].
    assert (number_or 5 iss <= 100) by lia. lia.
Qed.

(** ** Lemmas: the pool inside *)

#[local] Arguments running : simpl never.

Abbreviation pending p := (running (workers_ p) ++ queue_ p).

(** What a finishing worker submits is what stops being pending. *)
Lemma pool_step_pending (lb : @Label bytes) (p p' : @ThreadPool bytes) :
  pool_label lb = true -> pool_step lb p = Some p' ->
  option_list (executed lb p) ++ pending p' ≡ₚ pending p.
Proof.
  intros Hl E. destruct lb as [t|[i|]|i|i|i|i|i|i| | |]; try discriminate Hl; cbn [pool_step] in E.
  - destruct (notifying p); [discriminate|]. destruct (workers_ p !! i) as [[]|] eqn:Ei; try discriminate.
    injection E as <-. cbn. rewrite (running_same _ i Sleeping Looping Ei) by reflexivity. reflexivity.
  - destruct (_ && _); [|discriminate]. injection E as <-. reflexivity.
  - destruct (workers_ p !! i) as [[]|] eqn:Ei; try discriminate.
    destruct (queue_ p) as [|t q] eqn:Eq; [discriminate|]. destruct (unlocked p); [|discriminate].
    injection E as <-. cbn. pose proof (running_insert _ i _ (Running t) Ei) as R. cbn in R. rewrite R.
    cbn. apply Permutation_middle.
  - destruct (workers_ p !! i) as [[]|] eqn:Ei; try discriminate.
    destruct (queue_ p) eqn:Eq; [|discriminate]. destruct (_ && _); [|discriminate]. injection E as <-.
    cbn. rewrite (running_same _ i Looping Deciding Ei), Eq by reflexivity. reflexivity.
  - destruct (workers_ p !! i) as [[]|] eqn:Ei; try discriminate. injection E as <-.
    cbn. rewrite (running_same _ i Deciding Sleeping Ei) by reflexivity. reflexivity.
  - destruct (workers_ p !! i) as [[]|] eqn:Ei; try discriminate.
    destruct (queue_ p) eqn:Eq; [|discriminate]. destruct (_ && _); [|discriminate]. injection E as <-.
    cbn. rewrite (running_same _ i Looping Exited Ei), Eq by reflexivity. reflexivity.
  - unfold executed. destruct (workers_ p !! i) as [[]|] eqn:Ei; try discriminate. injection E as <-.
    cbn. pose proof (running_insert _ i _ Looping Ei) as R. cbn in R. rewrite <- R. reflexivity.
  - destruct (workers_ p !! i) as [[]|] eqn:Ei; try discriminate. injection E as <-.
    cbn. rewrite (running_same _ i Sleeping Looping Ei) by reflexivity. reflexivity.
Qed.

Lemma pool_step_alive (lb : @Label bytes) (p p' : @ThreadPool bytes) :
  pool_label lb = true -> pool_step lb p = Some p' -> phase p' = phase p.
Proof.
  intros Hl E. destruct lb as [t|[i|]|i|i|i|i|i|i| | |]; try discriminate Hl; cbn [pool_step] in E;
    repeat match type of E with
    | match ?x with _ => _ end = _ => destruct x; try discriminate E
    | (if ?x then _ else _) = _ => destruct x; try discriminate E
    end; injection E as <-; reflexivity.
Qed.

(** ** Lemmas: numbers and words of a line *)

Lemma number_or_printed (d n : Z) : 1 <= n < 2 ^ 31 -> number_or d (Some (32 :: to_string n)) = n.
Proof.
  intros Hn. unfold number_or. rewrite extract_int_printed by lia. replace (n <? 1) with false by lia. reflexivity.
Qed.

Lemma number_or_range (d : Z) (iss : istream) : 1 <= d < 2 ^ 31 -> 1 <= number_or d iss < 2 ^ 31.
Proof.
  intros Hd. unfold number_or. pose proof (extract_int_range d iss ltac:(lia)) as R.
  destruct (extract_int d iss) as [n [r|]]; [|exact Hd]. cbn in R. destruct (Z.ltb_spec n 1); lia.
Qed.

Lemma cap_min (n : Z) : cap n = Z.min n 100.
Proof. unfold cap. destruct (Z.ltb_spec 100 n); lia. Qed.

(** The number of a command, as the eNB reads it. *)
Lemma cmd_arg_printed (k : nat) (w : bytes) (n : Z) :
  length w = k -> 0 <= n < 2 ^ 31 -> cmd_arg k (w ++ to_string n) = n.
Proof.
  intros <- Hn. unfold cmd_arg. pose proof (to_string_nonempty n ltac:(lia)) as Hne.
  replace (_ <? _)%nat with true.
  2: { symmetry. apply Nat.ltb_lt. rewrite length_app. destruct (to_string n); [contradiction|cbn; lia]. }
  rewrite drop_app_length, stoi_to_string by exact Hn. reflexivity.
Qed.

(** What the eNB may be asked. *)
Definition sound_command (c : bytes) : Prop :=
  exists n, 1 <= n < 2 ^ 31
    /\ (c = str "CR " ++ to_string n /\ n <= 100 /\ attaches c = Z.to_nat n
        \/ c = str "TAU " ++ to_string n /\ cmd_arg 4 c = n
        \/ c = str "HO " ++ to_string n /\ cmd_arg 3 c = n).

Lemma attaches_cr (n : Z) : 0 <= n < 2 ^ 31 -> attaches (str "CR " ++ to_string n) = Z.to_nat n.
Proof. intros Hn. unfold attaches. cbn [take app]. rewrite (cmd_arg_printed 3) by (reflexivity || exact Hn). reflexivity. Qed.

Lemma attaches_none (c : bytes) : take 2 c <> str "CR" -> attaches c = 0%nat.
Proof. intros H. unfold attaches. rewrite bool_decide_false by exact H. reflexivity. Qed.

Lemma sound_cr (n : Z) : 1 <= n <= 100 -> sound_command (str "CR " ++ to_string n).
Proof. intros Hn. exists n. split; [lia|]. left. rewrite attaches_cr by lia. auto with lia. Qed.

Lemma bulk_commands (n : Z) : calls_commands (bulk_calls n) = repeat (str "CR 1") (Z.to_nat n).
Proof.
  unfold bulk_calls, calls_commands. cbn [map concat call_commands app]. rewrite map_app, concat_app. cbn.
  rewrite app_nil_r. induction (Z.to_nat n) as [|k IH]; [reflexivity|]. cbn. rewrite IH. reflexivity.
Qed.

Lemma ok_some (a b : list Call) : Ok (Some a) = Ok (Some b) -> b = a.
Proof. congruence. Qed.

Lemma main_line_sound (line : bytes) (cs : list Call) :
  main_line line = Ok (Some cs) ->
  Forall sound_command (calls_commands cs)
  /\ (list_sum (map attaches (calls_commands cs)) <= 100)%nat.
Proof.
  intros E. unfold main_line in E.
  assert (Triv : forall c, call_commands c = [] -> Forall sound_command (calls_commands [c])
                   /\ (list_sum (map attaches (calls_commands [c])) <= 100)%nat)
    by (intros c Hc; unfold calls_commands; cbn; rewrite Hc; split; [constructor|cbn; lia]).
  assert (Nil : Forall sound_command (calls_commands []) /\ (list_sum (map attaches (calls_commands [])) <= 100)%nat)
    by (split; [constructor|cbn; lia]).
  destruct line; [apply ok_some in E as ->; exact Nil|]. destruct (extract_word _) as [cmd iss].
  destruct (change_case to_upper cmd); try discriminate. cbn [mbind res_bind mret res_ret] in E.
  assert (N1 := number_or_range 1 iss ltac:(lia)). assert (N5 := number_or_range 5 iss ltac:(lia)).
  destruct (bool_decide _ || bool_decide _); [discriminate|].
  destruct (bool_decide _); [apply ok_some in E as ->; apply Triv; reflexivity|].
  destruct (bool_decide _).
  { apply ok_some in E as ->. rewrite cap_min.
    change (calls_commands [SubmitCommand ?c]) with [c].
    split; [constructor; [apply sound_cr; lia|constructor]|]. cbn [map list_sum fold_right]. rewrite attaches_cr by lia. lia. }
  destruct (bool_decide _).
  { apply ok_some in E as ->. rewrite bulk_commands, cap_min. split.
    - apply List.Forall_forall. intros c Hc. apply repeat_spec in Hc. subst c. apply (sound_cr 1). lia.
    - replace (list_sum _) with (Z.to_nat (Z.min (number_or 5 iss) 100)); [lia|].
      induction (Z.to_nat _) as [|k IH]; [reflexivity|]. cbn [repeat map list_sum fold_right]. f_equal. exact IH. }
  destruct (bool_decide _).
  { apply ok_some in E as ->. change (calls_commands [SubmitCommand ?c]) with [c]. cbn [map list_sum fold_right].
    rewrite attaches_none by discriminate. split; [|lia]. constructor; [|constructor].
    exists (number_or 1 iss). split; [lia|].
    right. left. split; [reflexivity|]. apply cmd_arg_printed; [reflexivity|lia]. }
  destruct (bool_decide _).
  { apply ok_some in E as ->. change (calls_commands [SubmitCommand ?c]) with [c]. cbn [map list_sum fold_right].
    rewrite attaches_none by discriminate. split; [|lia]. constructor; [|constructor].
    exists (number_or 1 iss). split; [lia|].
    right. right. split; [reflexivity|]. apply cmd_arg_printed; [reflexivity|lia]. }
  unfold mode_calls, perf_calls, chaos_calls in E.
  res_cases E; apply ok_some in E as ->; first [exact Nil|apply Triv; reflexivity].
Qed.

(** ** The invariant *)

Definition left_to_send (a : EnbPc) : nat := match a with E_Sending k => k | _ => 0 end.

(** The command thread: it only waits with nothing queued; it lives and has
    begun what it took as long as [stop] is not stored. *)
Record enb_ok (stop : bool) (c : CmdThread) : Prop := {
  ok_waiting : c_at c = E_AboutToWait \/ c_at c = E_Asleep -> c_queue c = [];
  ok_living : stop = false -> c_at c <> E_Exited;
  ok_begun : stop = false -> (c_begun c + left_to_send (c_at c) = list_sum (map attaches (c_taken c)))%nat
}.

(** What was asked is, once each, taken by the eNB, in its queue, in the pool,
    still to be called, or still to be read. *)
Record sim_ok (lines : list bytes) (x : MmeSim) : Prop := {
  ok_pool : reachable 8 (x_pool x);
  ok_alive : phase (x_pool x) = Alive;
  ok_enb : enb_ok (stopped x) (x_enb x);
  ok_called : x_main x <> InLoop -> x_todo x = [];
  ok_asked : asked lines ≡ₚ c_taken (x_enb x) ++ c_queue (x_enb x) ++ pending (x_pool x)
                            ++ calls_commands (x_todo x) ++ unread x
}.

Lemma list_sum_perm (l l' : list nat) : l ≡ₚ l' -> list_sum l = list_sum l'.
Proof. unfold list_sum. induction 1; cbn [map fold_right] in *; lia. Qed.

Lemma submit_enb_ok (stop : bool) (cmd : bytes) (c c' : CmdThread) :
  enb_ok stop c -> submit_cmd cmd c = Some c' ->
  enb_ok stop c' /\ c_taken c' = c_taken c /\ c_queue c' = c_queue c ++ [cmd].
Proof.
  intros [Hw Hl Hb] E. unfold submit_cmd in E.
  destruct (c_at c) eqn:Ea; try discriminate; injection E as <-;
    (split; [constructor; cbn in *; [intros [|]; discriminate|discriminate || exact Hl|exact Hb]|split; reflexivity]).
Qed.

Lemma turn_enb_ok (stop : bool) (c c' : CmdThread) :
  enb_ok stop c -> enb_turn stop c = Some c' ->
  enb_ok stop c' /\ c_taken c' ++ c_queue c' = c_taken c ++ c_queue c.
Proof.
  intros [Hw Hl Hb] E. unfold enb_turn in E. destruct (c_at c) as [| | | | |[|k]|] eqn:Ea; try discriminate.
  - injection E as <-. split; [|reflexivity].
    destruct stop; constructor; cbn; try discriminate; try (intros [|]; discriminate); exact Hb.
  - injection E as <-. split; [|reflexivity].
    case_bool_decide as Hq; destruct stop; constructor; cbn; try discriminate;
      try (intros [|]; discriminate); solve [exact Hb|intros _; exact Hq].
  - injection E as <-. split; [|reflexivity].
    constructor; cbn; [intros _; apply Hw; left; reflexivity|discriminate|exact Hb].
  - destruct (c_queue c) as [|cmd rest] eqn:Eq; injection E as <-.
    + split; [|cbn; rewrite Eq; reflexivity]. constructor; cbn; [intros [|]; discriminate|discriminate|exact Hb].
    + split; [|cbn; rewrite <- app_assoc; reflexivity].
      constructor; cbn [c_at c_queue c_begun c_taken left_to_send]; [intros [|]; discriminate|discriminate|].
      intros Hs. specialize (Hb Hs). cbn [left_to_send] in Hb. rewrite map_app, list_sum_app.
      change (list_sum (map attaches [cmd])) with (attaches cmd + 0)%nat. lia.
  - injection E as <-. split; [|reflexivity]. constructor; cbn; [intros [|]; discriminate|discriminate|exact Hb].
  - destruct stop; injection E as <-; (split; [|reflexivity]); constructor; cbn in *;
      try discriminate; try (intros [|]; discriminate). intros Hs. specialize (Hb Hs).
      unfold list_sum in *. lia.
Qed.

Lemma wake_enb_ok (stop : bool) (c : CmdThread) : enb_ok stop c -> enb_ok stop (enb_at (awakened (c_at c)) c).
Proof.
  intros [Hw Hl Hb]. constructor; cbn; destruct (c_at c); cbn in *; auto; try discriminate; intros [|]; discriminate.
Qed.

Lemma stop_enb_ok (c : CmdThread) : enb_ok false c -> enb_ok true c.
Proof. intros [Hw Hl Hb]. constructor; [exact Hw|discriminate|discriminate]. Qed.

Lemma start_ok (lines : list bytes) : sim_ok lines (start_sim lines).
Proof.
  constructor; [apply rtc_refl|reflexivity| |cbn; congruence|].
  - constructor; cbn; [reflexivity|discriminate|reflexivity].
  - cbn [start_sim x_enb c_taken c_queue x_pool x_todo].
    replace (running _) with (@nil bytes) by reflexivity. reflexivity.
Qed.

Lemma pool_reach (lb : @Label bytes) (p p' : @ThreadPool bytes) :
  reachable 8 p -> pool_step lb p = Some p' -> reachable 8 p'.
Proof. intros R E. eapply rtc_r; [exact R|]. exists lb. exact E. Qed.

(** A command handed to the eNB moves from wherever it was into its queue. *)
Lemma enb_submit_ok (lines : list bytes) (cmd : bytes) (x x' : MmeSim) :
  reachable 8 (x_pool x) -> phase (x_pool x) = Alive -> enb_ok (stopped x) (x_enb x) ->
  (x_main x <> InLoop -> x_todo x = []) ->
  asked lines ≡ₚ c_taken (x_enb x) ++ c_queue (x_enb x) ++ [cmd] ++ pending (x_pool x)
                 ++ calls_commands (x_todo x) ++ unread x ->
  enb_submit cmd x = Some x' -> sim_ok lines x'.
Proof.
  intros Hp Ha He Hc Hk E. unfold enb_submit in E.
  destruct (submit_cmd cmd (x_enb x)) as [c|] eqn:Es; [|discriminate]. injection E as <-.
  destruct (submit_enb_ok _ _ _ _ He Es) as (He' & Et & Eq).
  constructor; [exact Hp|exact Ha|exact He'|exact Hc|]. rewrite Hk. cbn [with_enb x_enb x_pool x_todo].
  rewrite Et, Eq, <- !app_assoc. reflexivity.
Qed.

Lemma called_in_loop (lines : list bytes) (x : MmeSim) (c : Call) (cs : list Call) :
  sim_ok lines x -> x_todo x = c :: cs -> x_main x <> InLoop -> False.
Proof. intros [_ _ _ Hc _] Et Hm. rewrite (Hc Hm) in Et. discriminate. Qed.

Lemma call_ok (lines : list bytes) (b : bool) (c : Call) (cs : list Call) (x x' : MmeSim) :
  sim_ok lines x -> x_todo x = c :: cs -> make_call b c (with_todo cs x) = Some x' -> sim_ok lines x'.
Proof.
  intros H Et E. assert (Hn := called_in_loop lines x c cs H Et). destruct H as [Hp Ha He _ Hk].
  rewrite Et in Hk. unfold calls_commands in Hk. cbn [map concat] in Hk.
  assert (Keep : call_commands c = [] -> sim_ok lines (with_todo cs x)).
  { intros Ec. rewrite Ec in Hk. constructor; [exact Hp|exact Ha|exact He|intros Hm; destruct (Hn Hm)|exact Hk]. }
  destruct c; cbn [make_call] in E.
  2: { refine (enb_submit_ok lines cmd (with_todo cs x) _ Hp Ha He (fun Hm => False_ind _ (Hn Hm)) _ E).
       cbn [with_todo with_line x_enb x_pool x_todo]. rewrite Hk. unfold calls_commands.
       cbn [call_commands]. solve_Permutation. }
  3: { destruct (pool_step (Submit cmd) _) as [p|] eqn:Ep; [|discriminate]. injection E as <-.
       constructor; [exact (pool_reach _ _ _ Hp Ep)|..]; cbn [x_pool x_enb x_todo with_pool with_todo with_line] in *;
         cbn in Ep; rewrite Ha in Ep; destruct (unlocked _); try discriminate; injection Ep as <-;
         [exact Ha|exact He|intros Hm; destruct (Hn Hm)|].
       rewrite Hk. unfold calls_commands. cbn. solve_Permutation. }
  3: { destruct (all_done _); [|destruct b; [|discriminate]]; injection E as <-; destruct (Keep eq_refl);
         constructor; assumption. }
  all: injection E as <-; destruct (Keep eq_refl); constructor; assumption.
Qed.

Lemma sim_step_ok (lines : list bytes) (lb : SimLabel) (x x' : MmeSim) :
  sim_ok lines x -> sim_step lb x = Some x' -> sim_ok lines x'.
Proof.
  intros H E. destruct lb as [| | | |b|lb| | |ms]; cbn [sim_step] in E.
  5: { destruct (x_todo x) as [|c cs] eqn:Et; [discriminate|]. exact (call_ok lines b c cs x x' H Et E). }
  all: destruct H as [Hp Ha He Hc Hk].
  1-4: unfold unread in Hk; destruct (x_main x) eqn:Em; try discriminate.
  - destruct (x_todo x) eqn:Et; [|discriminate]. destruct (x_input x) as [|line rest] eqn:Ei; [discriminate|].
    unfold stopped in He. rewrite Em in He.
    cbn [asked] in Hk. destruct (main_line line) as [[cs|]| | |]; try discriminate; injection E as <-;
      (constructor; [exact Hp|exact Ha|exact He|cbn; congruence|]; cbn in *; rewrite Hk; reflexivity).
  - destruct (x_todo x) eqn:Et; [|discriminate]. destruct (x_input x) as [|line rest] eqn:Ei; [|discriminate].
    unfold stopped in He. rewrite Em in He. injection E as <-.
    constructor; [exact Hp|exact Ha|exact He|intros _; exact Et|]. cbn in *. rewrite Et. exact Hk.
  - unfold stopped in He. rewrite Em in He. injection E as <-.
    constructor; [exact Hp|exact Ha|exact (stop_enb_ok _ He)|intros _; apply Hc; discriminate|]. exact Hk.
  - unfold stopped in He. rewrite Em in He. injection E as <-.
    constructor; [exact Hp|exact Ha|exact (wake_enb_ok _ _ He)|intros _; apply Hc; discriminate|]. exact Hk.
  - destruct (pool_label lb) eqn:Hl; [|discriminate].
    destruct (pool_step lb (x_pool x)) as [p|] eqn:Ep; [|discriminate]. cbn in E.
    pose proof (pool_step_pending lb _ p Hl Ep) as R. pose proof (pool_step_alive lb _ p Hl Ep) as A.
    pose proof (pool_reach lb _ p Hp Ep) as Hp'. rewrite Ha in A. rewrite <- R in Hk.
    destruct (executed lb (x_pool x)) as [cmd|]; cbn [option_list] in Hk;
      [|injection E as <-; constructor; assumption].
    refine (enb_submit_ok lines cmd (with_pool p x) x' Hp' A He Hc _ E). rewrite Hk, <- !app_assoc. reflexivity.
  - destruct (enb_turn _ _) as [c|] eqn:Et; [|discriminate]. injection E as <-.
    destruct (turn_enb_ok _ _ _ He Et) as [He' Eq]. constructor; [exact Hp|exact Ha|exact He'|exact Hc|].
    rewrite Hk, !app_assoc. cbn [with_enb x_enb]. rewrite Eq. reflexivity.
  - destruct (c_at (x_enb x)) eqn:Eat; try discriminate. injection E as <-.
    pose proof (wake_enb_ok _ _ He) as W. rewrite Eat in W. constructor; assumption.
  - destruct (_ <? _)%nat; [|discriminate]. injection E as <-. constructor; assumption.
Qed.

Lemma sim_reach (lines : list bytes) (x : MmeSim) : rtc sim_any (start_sim lines) x -> sim_ok lines x.
Proof.
  apply (rtc_ind_r (sim_ok lines)); [apply start_ok|].
  intros a b _ [lb E] H. exact (sim_step_ok lines lb a b H E).
Qed.

Lemma own_any (x y : MmeSim) : rtc sim_own x y -> rtc sim_any x y.
Proof. apply rtc_subrel. intros a b (lb & _ & E). exists lb. exact E. Qed.

(** ** Lemmas: the program comes to rest *)

(** The turns a command may cost the eNB from its submission on. *)
Definition command_weight (cmd : bytes) : nat := attaches cmd + 7.
Definition commands_weight (cmds : list bytes) : nat := list_sum (map command_weight cmds).

(** The turns left to the command thread, the queued commands apart. *)
Definition enb_rank (stop : bool) (c : CmdThread) : nat :=
  match c_at c with
  | E_Exited | E_Asleep => 0
  | E_AboutToWait => 1
  | E_Test => if stop then 1 else if bool_decide (c_queue c = []) then 3 else 6
  | E_Pred => if negb (bool_decide (c_queue c = [])) || stop then 5 else 2
  | E_Drain => 4
  | E_Sending k => 5 + k
  end.

Definition queue_weight (cmds : list bytes) : nat := list_sum (map (fun c => attaches c + 2)%nat cmds).

Definition main_weight (m : MainPc) : nat :=
  match m with InLoop => 12 | LoopLeft => 11 | StopStored => 6 | StopNotified => 0 end.

Definition sim_measure (x : MmeSim) : nat :=
  (2000 * length (x_input x) + main_weight (x_main x) + 6 * length (x_todo x) + commands_weight (calls_commands (x_todo x))
   + measure (x_pool x) + commands_weight (pending (x_pool x))
   + queue_weight (c_queue (x_enb x)) + enb_rank (stopped x) (x_enb x))%nat.

Lemma commands_weight_app (l k : list bytes) : commands_weight (l ++ k) = (commands_weight l + commands_weight k)%nat.
Proof. unfold commands_weight. rewrite map_app, list_sum_app. reflexivity. Qed.

Lemma commands_weight_perm (l k : list bytes) : l ≡ₚ k -> commands_weight l = commands_weight k.
Proof. intros H. unfold commands_weight. apply list_sum_perm. rewrite H. reflexivity. Qed.

Lemma commands_weight_sum (l : list bytes) :
  commands_weight l = (list_sum (map attaches l) + 7 * length l)%nat.
Proof. unfold commands_weight, command_weight. induction l as [|c l IH]; [reflexivity|].
  unfold list_sum in *. cbn [map fold_right length]. lia. Qed.

Lemma calls_commands_length (cs : list Call) : (length (calls_commands cs) <= length cs)%nat.
Proof.
  induction cs as [|c cs IH]; [reflexivity|]. unfold calls_commands in *. cbn [map concat]. rewrite length_app.
  cbn [length]. assert (length (call_commands c) <= 1)%nat by (destruct c; cbn; lia). lia.
Qed.

Lemma line_weight (line : bytes) (cs : list Call) :
  main_line line = Ok (Some cs) -> (6 * length cs + commands_weight (calls_commands cs) < 2000)%nat.
Proof.
  intros E. pose proof (main_line_short line cs E). destruct (main_line_sound line cs E) as [_ A].
  pose proof (calls_commands_length cs). rewrite commands_weight_sum. lia.
Qed.

Lemma submit_measure (t : bytes) (p p' : @ThreadPool bytes) :
  pool_step (Submit t) p = Some p' ->
  measure p' = (measure p + 5)%nat /\ commands_weight (pending p') = (commands_weight (pending p) + command_weight t)%nat.
Proof.
  cbn. destruct (phase p) eqn:Hph; try discriminate. destruct (unlocked p); [|discriminate]. intros [= <-]. split.
  - unfold measure, phase_weight. cbn [push_task queue_ workers_ notifying phase]. rewrite Hph, length_app.
    cbn [length]. lia.
  - cbn [push_task queue_ workers_]. rewrite app_assoc, commands_weight_app. unfold commands_weight at 2. cbn. lia.
Qed.

Lemma queue_weight_app (l k : list bytes) : queue_weight (l ++ k) = (queue_weight l + queue_weight k)%nat.
Proof. unfold queue_weight. rewrite map_app, list_sum_app. reflexivity. Qed.

Lemma queue_weight_cons (c : bytes) (l : list bytes) : queue_weight (c :: l) = (attaches c + 2 + queue_weight l)%nat.
Proof. reflexivity. Qed.

#[local] Arguments measure : simpl never.
#[local] Arguments commands_weight : simpl never.
#[local] Arguments queue_weight : simpl never.

Ltac rank_cases :=
  cbn [c_at c_queue enb_at awakened]; rewrite ?queue_weight_app, ?queue_weight_cons;
  change (queue_weight []) with 0%nat; repeat case_bool_decide; cbn [negb orb]; try congruence; try lia.

(** Submitting costs what the command weighs. *)
Lemma submit_rank (stop : bool) (cmd : bytes) (c c' : CmdThread) :
  submit_cmd cmd c = Some c' ->
  (queue_weight (c_queue c') + enb_rank stop c' <= queue_weight (c_queue c) + enb_rank stop c + command_weight cmd)%nat.
Proof.
  unfold submit_cmd, command_weight. destruct (c_at c) eqn:Ea; try discriminate; intros [= <-];
    unfold enb_rank; rewrite Ea; destruct stop; rank_cases.
Qed.

Lemma turn_rank (stop : bool) (c c' : CmdThread) :
  enb_turn stop c = Some c' ->
  (queue_weight (c_queue c') + enb_rank stop c' < queue_weight (c_queue c) + enb_rank stop c)%nat.
Proof.
  unfold enb_turn. destruct (c_at c) as [| | | | |[|k]|] eqn:Ea; try discriminate.
  4: destruct (c_queue c) eqn:Eq.
  all: destruct stop; intros [= <-]; unfold enb_rank; rewrite Ea; cbn [c_at c_queue enb_at]; rewrite ?Eq; rank_cases.
Qed.

Lemma wake_rank (c : CmdThread) : (enb_rank true (enb_at (awakened (c_at c)) c) <= enb_rank true c + 5)%nat.
Proof. unfold enb_rank. destruct (c_at c); cbn [c_at awakened enb_at c_queue]; rewrite ?orb_true_r; lia. Qed.

Lemma stop_rank (c : CmdThread) : (enb_rank true c <= enb_rank false c + 3)%nat.
Proof. unfold enb_rank. destruct (c_at c); repeat case_bool_decide; cbn [negb orb]; lia. Qed.

#[local] Arguments enb_rank : simpl never.
#[local] Arguments calls_commands : simpl never.
#[local] Arguments Nat.mul : simpl never.

Lemma enb_submit_decreases (cmd : bytes) (x x' : MmeSim) :
  enb_submit cmd x = Some x' -> (sim_measure x' <= sim_measure x + command_weight cmd)%nat.
Proof.
  unfold enb_submit. destruct (submit_cmd cmd (x_enb x)) as [c|] eqn:Es; [|discriminate]. intros [= <-].
  pose proof (submit_rank (stopped x) _ _ _ Es). unfold sim_measure, stopped in *. cbn in *. lia.
Qed.

Lemma call_decreases (b : bool) (c : Call) (cs : list Call) (x x' : MmeSim) :
  x_todo x = c :: cs -> make_call b c (with_todo cs x) = Some x' -> (sim_measure x' < sim_measure x)%nat.
Proof.
  intros Et E.
  assert (W : (sim_measure (with_todo cs x) + 6 + commands_weight (call_commands c) = sim_measure x)%nat).
  { unfold sim_measure, calls_commands, stopped. rewrite Et. cbn [map concat length with_todo with_line x_todo x_input x_main x_pool x_enb].
    rewrite (commands_weight_app (call_commands c)). lia. }
  assert (W1 : forall cmd, commands_weight [cmd] = command_weight cmd) by (intros cmd; unfold commands_weight; cbn; lia).
  destruct c; cbn [make_call call_commands] in *; rewrite ?W1 in W.
  2: { apply enb_submit_decreases in E. lia. }
  3: { destruct (pool_step _ _) as [p|] eqn:Ep; [|discriminate]. injection E as <-.
       apply submit_measure in Ep as [M1 M2]. unfold sim_measure, stopped in *. cbn in *. lia. }
  3: { destruct (all_done _); [|destruct b; [|discriminate]]; injection E as <-; unfold sim_measure, stopped in *; cbn in *; lia. }
  all: injection E as <-; unfold sim_measure, stopped in *; cbn in *; lia.
Qed.

Lemma own_decreases (x x' : MmeSim) : sim_own x x' -> (sim_measure x' < sim_measure x)%nat.
Proof.
  intros (lb & Hl & E). destruct lb as [| | | |b|lb| | |ms]; try discriminate Hl; cbn [sim_step] in E.
  5: { destruct (x_todo x) as [|c cs] eqn:Et; [discriminate|]. exact (call_decreases b c cs x x' Et E). }
  1-4: destruct (x_main x) eqn:Em; try discriminate.
  - destruct (x_todo x) eqn:Et; [|discriminate]. destruct (x_input x) as [|line rest] eqn:Ei; [discriminate|].
    destruct (main_line line) as [[cs|]| | |] eqn:El; try discriminate; injection E as <-;
      [apply line_weight in El|]; unfold sim_measure, stopped; rewrite Em, Et, Ei; cbn; lia.
  - destruct (x_todo x) eqn:Et; [|discriminate]. destruct (x_input x) as [|line rest] eqn:Ei; [|discriminate].
    injection E as <-. unfold sim_measure, stopped. cbn. rewrite Em, Et, Ei. cbn. lia.
  - injection E as <-. pose proof (stop_rank (x_enb x)). unfold sim_measure, stopped. cbn. rewrite Em. cbn. lia.
  - injection E as <-. pose proof (wake_rank (x_enb x)). unfold sim_measure, stopped. cbn in *. rewrite Em. cbn. lia.
  - assert (Hw : working lb = true /\ pool_label lb = true).
    { destruct (pool_label lb) eqn:Hp; [|discriminate E]. split; [|reflexivity].
      destruct lb; try discriminate Hp; try reflexivity; discriminate Hl. }
    destruct Hw as [Hw Hp]. rewrite Hp in E.
    destruct (pool_step lb (x_pool x)) as [p|] eqn:Ep; [|discriminate]. cbn in E.
    pose proof (work_step_decreases (x_pool x) p (ex_intro _ lb (conj Hw Ep))) as D.
    pose proof (commands_weight_perm _ _ (pool_step_pending lb _ p Hp Ep)) as P. rewrite commands_weight_app in P.
    assert (W : (sim_measure (with_pool p x) + commands_weight (option_list (executed lb (x_pool x))) < sim_measure x)%nat)
      by (unfold sim_measure, stopped; cbn; lia).
    destruct (executed lb _) as [cmd|]; [|injection E as <-; unfold commands_weight in W; cbn in W; lia].
    apply enb_submit_decreases in E. unfold commands_weight in W. cbn in W. lia.
  - destruct (enb_turn _ _) as [c|] eqn:Et; [|discriminate]. injection E as <-.
    pose proof (turn_rank _ _ _ Et). unfold sim_measure, stopped in *. cbn in *. lia.
Qed.

Lemma sim_sn (x : MmeSim) : sn sim_own x.
Proof.
  remember (sim_measure x) as k eqn:Ek. revert x Ek.
  induction (lt_wf k) as [k _ IH]. intros x ->. constructor. intros x' E.
  exact (IH _ (own_decreases x x' E) x' eq_refl).
Qed.

(** Where nothing is possible any more but, perhaps, leaving the loop. *)
Definition settled (x : MmeSim) : Prop :=
  forall y, sim_own x y -> x_main x = InLoop /\ x_main y <> InLoop.

Section Rest.
Context (lines : list bytes) (x : MmeSim) (Hok : sim_ok lines x) (Hset : settled x).

(** No step that stays on the same side of the loop's end. *)
Lemma no_own (lb : SimLabel) (y : MmeSim) :
  own_label lb = true -> (x_main x = InLoop -> x_main y = InLoop) -> sim_step lb x <> Some y.
Proof. intros Hl Hm E. destruct (Hset y (ex_intro _ lb (conj Hl E))) as [H1 H2]. exact (H2 (Hm H1)). Qed.

Lemma rest_enb : c_at (x_enb x) = E_Asleep /\ c_queue (x_enb x) = [] \/ c_at (x_enb x) = E_Exited /\ stopped x = true.
Proof.
  assert (N : enb_turn (stopped x) (x_enb x) = None).
  { destruct (enb_turn _ _) as [c|] eqn:Et; [|reflexivity]. exfalso.
    apply (no_own EnbTurn (with_enb c x) eq_refl); [exact id|]. cbn. rewrite Et. reflexivity. }
  unfold enb_turn in N. destruct (ok_enb _ _ Hok) as [Hw Hl _].
  destruct (c_at (x_enb x)) as [| | | | |[]|]; try discriminate N.
  - left. auto.
  - destruct (c_queue (x_enb x)); discriminate.
  - destruct (stopped x); discriminate.
  - right. destruct (stopped x); [auto|]. exfalso. apply Hl; reflexivity.
Qed.

Lemma rest_accepts (cmd : bytes) : exists c, submit_cmd cmd (x_enb x) = Some c.
Proof. unfold submit_cmd. destruct rest_enb as [[-> _]|[-> _]]; eauto. Qed.

Lemma rest_pool : nf work_step (x_pool x).
Proof.
  intros (p' & lb & Hw & E). pose proof (ok_alive _ _ Hok) as Ha.
  assert (Hp : pool_label lb = true /\ own_label (InPool lb) = true).
  { destruct lb; try discriminate Hw; auto; exfalso; cbn in E; rewrite Ha in E; discriminate. }
  assert (St : exists y, sim_step (InPool lb) x = Some y /\ x_main y = x_main x).
  { cbn [sim_step]. rewrite (proj1 Hp), E. cbn [mbind option_bind].
    destruct (executed lb (x_pool x)) as [cmd|]; [|eauto].
    destruct (rest_accepts cmd) as [c Ec]. unfold enb_submit. cbn [with_pool x_enb]. rewrite Ec. cbn. eauto. }
  destruct St as (y & Ey & Em). apply (no_own (InPool lb) y (proj2 Hp)); [congruence|exact Ey].
Qed.

Lemma rest_todo : x_todo x = [].
Proof.
  destruct (x_todo x) as [|c cs] eqn:Et; [reflexivity|]. exfalso.
  assert (St : exists y, make_call true c (with_todo cs x) = Some y /\ x_main y = x_main x).
  { destruct c; cbn [make_call]; eauto.
    - destruct (rest_accepts cmd) as [c' Ec]. unfold enb_submit. cbn [with_todo with_line x_enb]. rewrite Ec. cbn. eauto.
    - cbn. rewrite (ok_alive _ _ Hok), (end_unlocked _ rest_pool). cbn. eauto.
    - destruct (all_done _); eauto. }
  destruct St as (y & Ey & Em). apply (no_own (NextCall true) y eq_refl); [congruence|].
  cbn [sim_step]. rewrite Et. exact Ey.
Qed.

Lemma rest_unread : unread x = [].
Proof.
  unfold unread. destruct (x_main x) eqn:Em; try reflexivity.
  destruct (x_input x) as [|l ls] eqn:Ei; [reflexivity|]. cbn [asked].
  destruct (main_line l) as [[cs|]| | |] eqn:El; try reflexivity. exfalso.
  apply (no_own ReadLine (with_line ls InLoop cs x) eq_refl); [reflexivity|].
  cbn [sim_step]. rewrite Em, rest_todo, Ei, El. reflexivity.
Qed.

Lemma rest_asked : asked lines ≡ₚ c_taken (x_enb x) ++ c_queue (x_enb x).
Proof.
  rewrite (ok_asked _ _ Hok), rest_todo, rest_unread.
  destruct (rest_drained _ rest_pool 8 (ok_reachable 8 _ ltac:(lia) (ok_pool _ _ Hok)) (ok_alive _ _ Hok)) as (Eq & _ & _).
  rewrite Eq, (end_idle _ rest_pool). cbn. rewrite !app_nil_r. reflexivity.
Qed.

(** Before [stop] is stored, everything asked for has been done. *)
Lemma rest_done :
  stopped x = false ->
  c_taken (x_enb x) ≡ₚ asked lines /\ c_begun (x_enb x) = list_sum (map attaches (asked lines)).
Proof.
  intros Hs. pose proof rest_asked as Ea. destruct rest_enb as [[Eat Eq]|[_ E]]; [|congruence].
  rewrite Eq, app_nil_r in Ea. split; [symmetry; exact Ea|].
  pose proof (ok_begun _ _ (ok_enb _ _ Hok) Hs) as Hb. rewrite Eat in Hb. cbn in Hb.
  rewrite (list_sum_perm _ _ (Permutation_map attaches Ea)). lia.
Qed.

End Rest.

(** ** Properties *)

(** C37. CR, BULK, TAU and HO, in any spelling and with a number, make the main
    thread submit exactly what was typed: CR and BULK are capped at 100, BULK
    by so many single attaches through the pool, and the eNB reads the number
    back.  Whatever else is typed, with words for numbers, numbers out of range
    or nothing at all, the eNB gets well-formed commands only, for at most 100
    attaches a line. *)
Theorem console_reads (w : bytes) (n : Z) (Hn : 1 <= n < 2 ^ 31) :
  (spells w (str "CR") -> main_line (w ++ 32 :: to_string n) =
     Ok (Some [SubmitCommand (str "CR " ++ to_string (Z.min n 100))]))
  /\ (spells w (str "BULK") -> exists cs, main_line (w ++ 32 :: to_string n) = Ok (Some cs)
        /\ calls_commands cs = repeat (str "CR 1") (Z.to_nat (Z.min n 100)))
  /\ (spells w (str "TAU") -> main_line (w ++ 32 :: to_string n) =
        Ok (Some [SubmitCommand (str "TAU " ++ to_string n)]) /\ cmd_arg 4 (str "TAU " ++ to_string n) = n)
  /\ (spells w (str "HO") -> main_line (w ++ 32 :: to_string n) =
        Ok (Some [SubmitCommand (str "HO " ++ to_string n)]) /\ cmd_arg 3 (str "HO " ++ to_string n) = n)
  /\ (forall line cs, main_line line = Ok (Some cs) ->
        Forall sound_command (calls_commands cs) /\ (list_sum (map attaches (calls_commands cs)) <= 100)%nat).
Proof.
  assert (K : forall k, spells w k -> exists x y, w ++ 32 :: to_string n = x :: y
              /\ extract_word (Some (x :: y)) = (w, Some (32 :: to_string n)) /\ change_case to_upper w = Ok k).
  { intros k Hk. destruct (spelled_word w k (32 :: to_string n) Hk eq_refl) as [E1 E2].
    destruct (w ++ 32 :: to_string n) as [|x y] eqn:E; [destruct w; discriminate|]. eauto. }
  split; [|split; [|split; [|split]]].
  1-4: intros Hk; destruct (K _ Hk) as (x & y & -> & E1 & E2); unfold main_line; rewrite E1, E2;
       cbn [mbind res_bind mret res_ret]; rewrite !number_or_printed by exact Hn.
  - rewrite <- cap_min. reflexivity.
  - eexists. split; [reflexivity|]. rewrite bulk_commands, cap_min. reflexivity.
  - split; [reflexivity|]. apply cmd_arg_printed; [reflexivity|lia].
  - split; [reflexivity|]. apply cmd_arg_printed; [reflexivity|lia].
  - intros line cs. apply main_line_sound.
Qed.

Lemma console_reads_witness :
  main_line (str "cr 250") = Ok (Some [SubmitCommand (str "CR 100")])
  /\ main_line (str "Tau 7") = Ok (Some [SubmitCommand (str "TAU 7")]).
Proof.
  assert (S : forall w k, w <> [] -> forallb (fun c => negb (is_space c) && (0 <=? c) && (c <? 128)) w = true ->
              map to_upper w = k -> spells w k).
  { intros w k Hne H E. split; [exact Hne|]. split; [|exact E]. rewrite forallb_forall in H.
    apply List.Forall_forall. intros c Hc. apply H in Hc. destruct (is_space c); [discriminate|]. lia. }
  split.
  - exact (proj1 (console_reads (str "cr") 250 ltac:(lia)) (S (str "cr") (str "CR") ltac:(discriminate) eq_refl eq_refl)).
  - destruct (console_reads (str "Tau") 7 ltac:(lia)) as (_ & _ & T & _).
    exact (proj1 (T (S (str "Tau") (str "TAU") ltac:(discriminate) eq_refl eq_refl))).
Defined.

(** C21. Whatever is typed or piped in, with the main thread, the pool's
    workers and the eNB's command thread interleaved in any way, the end of the
    input and the shutdown included: every command the lines ask for is at every
    moment in one place exactly once, and the program by itself always comes to
    rest (at a line whose octets [toupper] does not take, on which the code is
    undefined, nothing more is read).  As long as the command loop has not
    ended, where no step is left but leaving it, the eNB has taken every command
    asked for and no other, and has begun exactly their attaches.  Once everything is at rest, what the eNB has
    not taken is in its queue, and only if its thread has already ended: after
    QUIT or the end of the input, a command may be left over, and none is
    anywhere else. *)
Theorem console_completes (lines : list bytes) (x : MmeSim) (Hx : rtc sim_any (start_sim lines) x) :
  asked lines ≡ₚ c_taken (x_enb x) ++ c_queue (x_enb x)
                 ++ (running (workers_ (x_pool x)) ++ queue_ (x_pool x)) ++ calls_commands (x_todo x) ++ unread x
  /\ sn sim_own x
  /\ (settled x -> x_main x = InLoop ->
        c_taken (x_enb x) ≡ₚ asked lines /\ c_begun (x_enb x) = list_sum (map attaches (asked lines)))
  /\ (forall y, rtc sim_own x y -> nf sim_own y ->
        asked lines ≡ₚ c_taken (x_enb y) ++ c_queue (x_enb y)
        /\ (c_queue (x_enb y) = [] \/ c_at (x_enb y) = E_Exited /\ x_main y = StopNotified)).
Proof.
  pose proof (sim_reach lines x Hx) as Hok. split; [exact (ok_asked _ _ Hok)|]. split; [apply sim_sn|]. split.
  - intros Hs Hm. apply rest_done; [exact Hok|exact Hs|]. unfold stopped. rewrite Hm. reflexivity.
  - intros y R Hnf. assert (Hy : sim_ok lines y) by (apply sim_reach; etransitivity; [exact Hx|exact (own_any x y R)]).
    assert (Hs : settled y) by (intros z E; destruct (Hnf (ex_intro _ z E))).
    split; [exact (rest_asked lines y Hy Hs)|].
    destruct (rest_enb lines y Hy Hs) as [[_ E]|[Ea Es]]; [left; exact E|right; split; [exact Ea|]].
    unfold stopped in Es. destruct (x_main y) eqn:Em; try discriminate; [|reflexivity].
    exfalso. apply Hnf. eexists. exists NotifyEnb. split; [reflexivity|]. cbn [sim_step]. rewrite Em. reflexivity.
Qed.

Lemma run_sim_steps (ls : list SimLabel) (x x' : MmeSim) : run_sim ls x = Some x' -> rtc sim_any x x'.
Proof.
  revert x. induction ls as [|lb ls IH]; intros x E; cbn in E; [injection E as ->; apply rtc_refl|].
  destruct (sim_step lb x) as [y|] eqn:Ey; [|discriminate]. eapply rtc_l; [exists lb; exact Ey|exact (IH y E)].
Qed.

(** The shipped attach scenario piped in, up to its QUIT: the eNB takes the
    command and begins its attach before the loop ends. *)
Lemma console_completes_witness :
  let lines := get_lines (piped (Scenario.run basic_attach)) in
  asked lines = [str "CR 1"]
  /\ exists x, run_sim [ReadLine; NextCall false; ReadLine; NextCall false; EnbTurn; EnbTurn; EnbTurn; EnbTurn;
                        ReadLine; NextCall false; ReadLine] (start_sim lines) = Some x
  /\ x_main x = LoopLeft
  /\ (forall y, rtc sim_own x y -> nf sim_own y ->
        [str "CR 1"] ≡ₚ c_taken (x_enb y) ++ c_queue (x_enb y)
        /\ (c_queue (x_enb y) = [] \/ c_at (x_enb y) = E_Exited /\ x_main y = StopNotified)).
Proof.
  cbv zeta. split; [vm_compute; reflexivity|].
  destruct (run_sim _ _) as [x|] eqn:E; [|vm_compute in E; discriminate]. exists x. split; [reflexivity|].
  destruct (console_completes _ x (run_sim_steps _ _ _ E)) as (_ & _ & _ & R).
  split; [vm_compute in E; injection E as <-; reflexivity|exact R].
Defined.

(** A command thread that has ended takes nothing more. *)
Lemma exited_step (x y : MmeSim) :
  sim_any x y -> c_at (x_enb x) = E_Exited ->
  c_at (x_enb y) = E_Exited /\ c_taken (x_enb y) = c_taken (x_enb x).
Proof.
  intros [lb E] Ha.
  assert (Sub : forall cmd z, enb_submit cmd z = Some y -> x_enb z = x_enb x ->
                  c_at (x_enb y) = E_Exited /\ c_taken (x_enb y) = c_taken (x_enb x)).
  { intros cmd z Ez Eq. unfold enb_submit, submit_cmd in Ez. rewrite Eq, Ha in Ez. injection Ez as <-. auto. }
  destruct lb as [| | | |b|lb| | |ms]; cbn [sim_step] in E.
  6: { destruct (pool_label lb); [|discriminate]. destruct (pool_step _ _) as [p|]; [|discriminate]. cbn in E.
       destruct (executed lb _) as [cmd|]; [exact (Sub cmd _ E eq_refl)|injection E as <-; auto]. }
  5: { destruct (x_todo x) as [|c cs]; [discriminate|]. destruct c; cbn [make_call] in E;
         try (injection E as <-; auto; fail); [exact (Sub _ _ E eq_refl)| |].
       - destruct (pool_step _ _) as [p|]; [|discriminate]. injection E as <-. auto.
       - destruct (all_done _); [|destruct b; [|discriminate]]; injection E as <-; auto. }
  - destruct (x_main x), (x_todo x), (x_input x); try discriminate.
    destruct (main_line _) as [[]| | |]; try discriminate; injection E as <-; auto.
  - destruct (x_main x), (x_todo x), (x_input x); try discriminate. injection E as <-. auto.
  - destruct (x_main x); try discriminate. injection E as <-. auto.
  - destruct (x_main x); try discriminate. injection E as <-. cbn. rewrite Ha. auto.
  - unfold enb_turn in E. rewrite Ha in E. discriminate.
  - rewrite Ha in E. discriminate.
  - destruct (_ <? _)%nat; [|discriminate]. injection E as <-. auto.
Qed.

Lemma exited_forever (x y : MmeSim) :
  rtc sim_any x y -> c_at (x_enb x) = E_Exited -> c_taken (x_enb y) = c_taken (x_enb x).
Proof.
  induction 1 as [|a b c E _ IH]; intros Ha; [reflexivity|].
  destruct (exited_step a b E Ha) as [Hb Ht]. rewrite (IH Hb). exact Ht.
Qed.

(** The last command of piped input can be lost: [stop] is stored as soon as
    the input ends, and the eNB's thread, which has not taken the command yet,
    ends its loop without looking at the queue. *)
Theorem piped_command_lost :
  exists x, run_sim [ReadLine; NextCall false; EndOfInput; StoreStop; NotifyEnb; EnbTurn] (start_sim [str "CR 1"]) = Some x
    /\ asked [str "CR 1"] = [str "CR 1"] /\ c_queue (x_enb x) = [str "CR 1"]
    /\ (forall y, rtc sim_any x y -> c_taken (x_enb y) = []).
Proof.
  destruct (run_sim _ _) as [x|] eqn:E; [|vm_compute in E; discriminate]. exists x. split; [reflexivity|].
  vm_compute in E. injection E as <-. split; [vm_compute; reflexivity|]. split; [reflexivity|].
  intros y R. apply (exited_forever _ y R eq_refl).
Qed.

(** [requestStop] notifies without the mutex: the command thread has found its
    predicate false and is not asleep yet, the notification is lost, and once
    it sleeps only a spurious wake-up can end it.  The main thread, which
    joins it, then never returns. *)
Theorem exit_can_hang :
  exists x, run_sim ([EnbTurn; EnbTurn; EndOfInput; StoreStop; NotifyEnb; EnbTurn]
                     ++ flat_map (fun i => [InPool (Check i); InPool (Sleep i)]) (seq 0 8)) (start_sim []) = Some x
    /\ x_main x = StopNotified /\ c_at (x_enb x) = E_Asleep /\ nf sim_own x.
Proof.
  destruct (run_sim _ _) as [x|] eqn:E; [|vm_compute in E; discriminate]. exists x. split; [reflexivity|].
  vm_compute in E. injection E as <-. split; [reflexivity|]. split; [reflexivity|].
  intros (y & lb & Hl & Ey). destruct lb as [| | | |b|lb| | |ms]; try discriminate Hl; try discriminate Ey.
  destruct lb as [t|[i|]|i|i|i|i|i|i| | |]; try discriminate Hl; try discriminate Ey;
    do 8 (destruct i as [|i]; [discriminate Ey|]); discriminate Ey.
Qed.

(** An attach in progress when the batch starts. *)
Definition stray_schedule : list SimLabel :=
  [ReadLine; NextCall false; EnbTurn; EnbTurn; EnbTurn; EnbTurn;
   ReadLine; NextCall false; NextCall false;
   Attached 40; NextCall false; NextCall false].

(** The metrics count whatever attach is recorded: typing CR 1 and then
    BULK 1, the attach of the first command completes the batch, and the
    program reports it complete while its own attach has not even reached the
    eNB. *)
Theorem batch_counts_strangers :
  exists x, run_sim stray_schedule (start_sim [str "CR 1"; str "BULK 1"]) = Some x
    /\ x_reports x = [true] /\ x_todo x = []
    /\ c_taken (x_enb x) = [str "CR 1"] /\ c_queue (x_enb x) = [] /\ queue_ (x_pool x) = [str "CR 1"]
    /\ finished (x_pool x) = [].
Proof. eexists. split; [vm_compute; reflexivity|]. repeat split. Qed.
