(* ===== verification/PerfTables.v ===== *)
(** * The performance scenarios of the IMS: data

    The scenarios of [ims-simulator/src/perf_scenarios.cpp] and
    [perf_scenarios.h] that compare two ways of keeping data, each with a
    deliberate fault and a repair: the session table behind one lock or in
    shards, dialogs freed by hand or by their owner, the session list searched
    or indexed; with the counters of the load generator and the table of
    results.  Elapsed times are arguments; CPU percentages, which are
    floating-point, and the printed text are not modelled. *)

From Stdlib Require Import ZArith Lia.
From stdpp Require Import list gmap strings.
From S2P Require Import Prelude Text Strings.
#[local] Open Scope Z_scope.

Record CallSession : Type := mkSession {
  call_id : bytes; caller : bytes; callee : bytes; cs_state : bytes; start_time_us : Z
}.

(** ** The counters *)

Module Counters.

Record Metrics : Type := mkMetrics {
  calls_started_ : Z; calls_completed_ : Z; total_duration_us_ : Z; max_duration_us_ : Z;
  mem_samples_ : list Z
}.

Definition newMetrics : Metrics := mkMetrics 0 0 0 0 [].
Definition reset (m : Metrics) : Metrics := newMetrics.

Definition recordCallStart (m : Metrics) : Metrics :=
  mkMetrics (u64 (calls_started_ m + 1)) (calls_completed_ m) (total_duration_us_ m) (max_duration_us_ m)
    (mem_samples_ m).

Definition recordCallEnd (d : Z) (m : Metrics) : Metrics :=
  mkMetrics (calls_started_ m) (u64 (calls_completed_ m + 1)) (u64 (total_duration_us_ m + d))
    (if max_duration_us_ m <? d then d else max_duration_us_ m) (mem_samples_ m).

Definition recordMemoryMB (mb : Z) (m : Metrics) : Metrics :=
  mkMetrics (calls_started_ m) (calls_completed_ m) (total_duration_us_ m) (max_duration_us_ m)
    (mem_samples_ m ++ [mb]).

Record Stats : Type := mkStats {
  calls_started : Z; calls_completed : Z; avg_duration_us : Z; max_duration_us : Z;
  avg_mem_mb : Z; max_mem_mb : Z
}.

Definition mem_sum (l : list Z) : Z := fold_left (fun s m => u64 (s + m)) l 0.
Definition mem_max (l : list Z) : Z := fold_left (fun x m => if x <? m then m else x) l 0.

Definition getStats (m : Metrics) : Stats :=
  mkStats (calls_started_ m) (calls_completed_ m)
    (if 0 <? calls_completed_ m then total_duration_us_ m / calls_completed_ m else 0)
    (max_duration_us_ m)
    (match mem_samples_ m with [] => 0 | l => mem_sum l / Z.of_nat (length l) end)
    (match mem_samples_ m with [] => 0 | l => mem_max l end).

(** One call of the load generator: [recordCallEnd(call_duration_ms_ * 1000)]. *)
Definition generate_call (duration_ms : Z) (m : Metrics) : Metrics :=
  recordCallEnd (u64 (duration_ms * 1000)) (recordCallStart m).

End Counters.

(** ** The session table: one lock, or shards *)

Module Shards.

Definition NUM_SHARDS : Z := 16.

Record Contention : Type := mkContention {
  buggy_ : bool;
  buggy_table_ : gmap bytes CallSession;
  shards_ : list (gmap bytes CallSession);
  calls_processed_ : Z;
  contentions_ : Z;
  avg_latency_us_ : Z
}.

Definition newContention (buggy : bool) : Contention :=
  mkContention buggy ∅ (if buggy then [] else replicate (Z.to_nat NUM_SHARDS) ∅) 0 0 0.

(** Where a thread is in [processCall]. *)
Inductive Pc : Set := Begin | Inserted | Loaded (prev : Z) | Stored.

Record Thread : Set := mkThread { t_i : Z; t_pc : Pc }.

Definition thread_call_id (w : nat) (i : Z) : bytes :=
  str "call-w" ++ to_string (Z.of_nat w) ++ str "-i" ++ to_string i.

Section Table.
Context (hash : bytes -> Z).      (** [std::hash<std::string>] *)

Definition shard_idx (id : bytes) : nat := Z.to_nat (hash id mod NUM_SHARDS).

(** The part of [processCall] under a lock. *)
Definition store_session (cs : CallSession) (s : Contention) : Contention :=
  if buggy_ s then
    mkContention true (<[call_id cs := cs]> (buggy_table_ s)) (shards_ s) (calls_processed_ s)
      (u64 (contentions_ s + 1)) (avg_latency_us_ s)
  else
    mkContention false (buggy_table_ s) (alter (insert (call_id cs) cs) (shard_idx (call_id cs)) (shards_ s))
      (calls_processed_ s) (contentions_ s) (avg_latency_us_ s).

Definition set_latency (n : Z) (s : Contention) : Contention :=
  mkContention (buggy_ s) (buggy_table_ s) (shards_ s) (calls_processed_ s) (contentions_ s) n.
Definition count_call (s : Contention) : Contention :=
  mkContention (buggy_ s) (buggy_table_ s) (shards_ s) (u64 (calls_processed_ s + 1)) (contentions_ s)
    (avg_latency_us_ s).

Definition new_session (id : bytes) (now : Z) : CallSession := mkSession id [] [] (str "active") now.

(** The next action of a thread on what the threads share; [now] is the time
    at which it stores, or what it then measures as elapsed. *)
Definition thread_step (w : nat) (now : Z) (t : Thread) (s : Contention) : Thread * Contention :=
  match t_pc t with
  | Begin => (mkThread (t_i t) Inserted, store_session (new_session (thread_call_id w (t_i t)) now) s)
  | Inserted => (mkThread (t_i t) (Loaded (avg_latency_us_ s)), s)
  | Loaded prev => (mkThread (t_i t) Stored, set_latency (u64 (prev + now) / 2) s)
  | Stored => (mkThread (t_i t + 1) Begin, count_call s)
  end.

Record Run : Type := mkRun { r_threads : list Thread; r_table : Contention }.

(** A thread with calls left does its next action: [None] when it has none. *)
Definition run_step (per_worker : Z) (wn : nat * Z) (r : Run) : option Run :=
  t ← r_threads r !! wn.1;
  if t_i t <? per_worker then
    let '(t', s') := thread_step wn.1 wn.2 t (r_table r) in
    Some (mkRun (<[wn.1 := t']> (r_threads r)) s')
  else None.

Fixpoint run_schedule (per_worker : Z) (sched : list (nat * Z)) (r : Run) : option Run :=
  match sched with
  | [] => Some r
  | x :: sched' => r' ← run_step per_worker x r; run_schedule per_worker sched' r'
  end.

Definition calls_per_worker (num_calls num_workers : Z) : Z := num_calls ÷ num_workers.

Definition start (buggy : bool) (num_workers : nat) : Run :=
  mkRun (repeat (mkThread 0 Begin) num_workers) (newContention buggy).

(** What the table holds for an identifier. *)
Definition session_of (s : Contention) (id : bytes) : option CallSession :=
  if buggy_ s then buggy_table_ s !! id else shards_ s !! shard_idx id ≫= (fun m => m !! id).

(** Every thread has left its loop: what [run] waits for. *)
Definition done (per_worker : Z) (r : Run) : Prop := Forall (eq (mkThread per_worker Begin)) (r_threads r).

End Table.

End Shards.

(** ** Dialogs: freed by hand, or by their owner *)

Module Leak.

Inductive Block : Set := Context_ | Body.

Record Dialog : Type := mkDialog { d_call_id : bytes; d_ctx : nat; d_body : nat }.

(** The heap: the blocks that are allocated; [memory_kb_] is a counter. *)
Record MemoryLeak : Type := mkLeak {
  l_buggy : bool;
  l_heap : gmap nat Block;
  l_next : nat;
  l_dialogs : list Dialog;
  l_memory_kb : Z
}.

Definition newLeak (buggy : bool) : MemoryLeak := mkLeak buggy ∅ 0 [] 0.

Abbreviation P := (M MemoryLeak).

Definition set_heap (h : gmap nat Block) (n : nat) (s : MemoryLeak) : MemoryLeak :=
  mkLeak (l_buggy s) h n (l_dialogs s) (l_memory_kb s).
Definition set_dialogs (ds : list Dialog) (s : MemoryLeak) : MemoryLeak :=
  mkLeak (l_buggy s) (l_heap s) (l_next s) ds (l_memory_kb s).
Definition add_memory (s : MemoryLeak) : MemoryLeak :=
  mkLeak (l_buggy s) (l_heap s) (l_next s) (l_dialogs s) (u64 (l_memory_kb s + 1)).

(** [new], and [delete] of a block that must be allocated. *)
Definition alloc (b : Block) : P nat := fun s =>
  Ok (l_next s, set_heap (<[l_next s := b]> (l_heap s)) (S (l_next s)) s).
Definition free (a : nat) : P unit := fun s =>
  match l_heap s !! a with
  | Some _ => Ok (tt, set_heap (delete a (l_heap s)) (l_next s) s)
  | None => Undefined
  end.
Definition get : P MemoryLeak := fun s => Ok (s, s).
Definition upd (f : MemoryLeak -> MemoryLeak) : P unit := fun s => Ok (tt, f s).

Definition createDialog (id : bytes) : P unit :=
  ctx ← alloc Context_;
  body ← alloc Body;
  upd (fun s => set_dialogs (l_dialogs s ++ [mkDialog id ctx body]) s);;
  upd add_memory.

(** [delete ctx] frees the dialog, and its body only when an owner does. *)
Definition simulateError (id : bytes) : P unit :=
  s ← get;
  match list_find (fun d => d_call_id d = id) (l_dialogs s) with
  | None => mret tt
  | Some (i, d) =>
      (if l_buggy s then mret tt else free (d_body d));;
      free (d_ctx d);;
      upd (set_dialogs (delete i (l_dialogs s)))
  end.

Fixpoint free_dialogs (ds : list Dialog) : P unit :=
  match ds with
  | [] => mret tt
  | d :: ds' => free (d_body d);; free (d_ctx d);; free_dialogs ds'
  end.

(** The destructor. *)
Definition destroy : P unit := s ← get; free_dialogs (l_dialogs s);; upd (set_dialogs []).

Inductive Op : Type := Create (id : bytes) | Error (id : bytes).

Definition do_op (o : Op) : P unit :=
  match o with Create id => createDialog id | Error id => simulateError id end.

Fixpoint do_ops (os : list Op) : P unit :=
  match os with [] => mret tt | o :: os' => do_op o;; do_ops os' end.

(** The operations of [run]: every second dialog fails. *)
Definition run_ops (num_operations : nat) : list Op :=
  flat_map (fun i => let id := str "call-" ++ to_string (Z.of_nat i) in
                     Create id :: if (i mod 2 =? 0)%nat then [Error id] else []) (seq 0 num_operations).

End Leak.

(** ** The session list: searched, or indexed *)

Module DataPath.

Record SipMessage : Type := mkMsg { m_call_id : bytes; m_from : bytes; m_to : bytes; m_body : bytes }.

Record Path : Type := mkPath {
  p_buggy : bool;
  p_list : list CallSession;            (** [SessionListBuggy] *)
  p_map : gmap bytes CallSession;       (** [SessionMapFixed] *)
  messages_processed_ : Z;
  p_latency : Z;
  allocations_ : Z
}.

Definition newPath (buggy : bool) : Path := mkPath buggy [] ∅ 0 0 0.

Definition find_list (id : bytes) (l : list CallSession) : option CallSession :=
  snd <$> list_find (fun s => call_id s = id) l.

Definition find (id : bytes) (p : Path) : option CallSession :=
  if p_buggy p then find_list id (p_list p) else p_map p !! id.

Definition add_session (s : CallSession) (p : Path) : Path :=
  if p_buggy p then mkPath true (p_list p ++ [s]) (p_map p) (messages_processed_ p) (p_latency p) (allocations_ p)
  else mkPath false (p_list p) (<[call_id s := s]> (p_map p)) (messages_processed_ p) (p_latency p) (allocations_ p).

Definition session_for (m : SipMessage) : CallSession :=
  mkSession (m_call_id m) (m_from m) (m_to m) (str "active") 0.

Definition processMessage (m : SipMessage) (elapsed_us : Z) (p : Path) : Path :=
  let p := match find (m_call_id m) p with Some _ => p | None => add_session (session_for m) p end in
  mkPath (p_buggy p) (p_list p) (p_map p) (u64 (messages_processed_ p + 1))
    (u64 (p_latency p + elapsed_us) / 2) (u64 (allocations_ p + 1)).

Definition numbered (i : nat) : bytes := str "call-" ++ to_string (Z.of_nat i).
Definition known_session (i : nat) : CallSession := mkSession (numbered i) (str "ue-a") (str "ue-b") (str "active") 0.
Definition body : bytes :=
  str "v=0" ++ [13; 10] ++ str "o=- 0 0 IN IP4 127.0.0.1" ++ [13; 10] ++ str "m=audio 50000 RTP/AVP 98" ++ [13; 10].
Definition known_message (i : nat) : SipMessage := mkMsg (numbered (i mod 100)) (str "ue-a") (str "ue-b") body.

Definition reset_counts (p : Path) : Path := mkPath (p_buggy p) (p_list p) (p_map p) 0 0 0.

(** [run], when message [i] takes [elapsed i]. *)
Definition run (num_messages : nat) (elapsed : nat -> Z) (p : Path) : Path :=
  let p := fold_left (fun p i => add_session (known_session i) p) (seq 0 100) (reset_counts p) in
  fold_left (fun p i => processMessage (known_message i) (elapsed i) p) (seq 0 num_messages) p.

End DataPath.

(** ** The table of results *)

Module Results.
Section Results.
Context {V : Type} (zero : V).      (** the values of the measurements *)

Record Result : Type := mkResult { r_name : bytes; r_metric : bytes; r_buggy : V; r_fixed : V; r_unit : bytes }.

(** [if (run_buggy_) results_.push_back(...)]. *)
Definition push_buggy (name metric u : bytes) (v : V) (rs : list Result) : list Result :=
  rs ++ [mkResult name metric v zero u].

(** [if (run_fixed_)]: the last row is completed when it is of this scenario. *)
Definition push_fixed (name metric u : bytes) (v : V) (rs : list Result) : list Result :=
  match rev rs with
  | r :: before =>
      if bool_decide (r_name r = name) then
        rev before ++ [mkResult (r_name r) (r_metric r) (r_buggy r) v (r_unit r)]
      else rs ++ [mkResult name metric v v u]
  | [] => rs ++ [mkResult name metric v v u]
  end.

(** The recording of one scenario, with what its two runs measured. *)
Definition record (run_buggy run_fixed : bool) (name metric u : bytes) (b f : V) (rs : list Result) : list Result :=
  let rs := if run_buggy then push_buggy name metric u b rs else rs in
  if run_fixed then push_fixed name metric u f rs else rs.

Definition scenario_rows : list (bytes * bytes * bytes) :=
  [(str "Scenario 1: CPU 100%", str "CPU %", str "%");
   (str "Scenario 2: Lock Contention", str "Avg Latency", str "us");
   (str "Scenario 3: Memory Leak", str "Memory KB", str "KB");
   (str "Scenario 4: Thread Starvation", str "Avg Latency", str "us");
   (str "Scenario 5: Data Path", str "Avg Latency", str "us")].

(** [runAll], with the measurements of each scenario. *)
Definition runAll (run_buggy run_fixed : bool) (measured : list (V * V)) (rs : list Result) : list Result :=
  fold_left (fun rs x => record run_buggy run_fixed x.1.1.1 x.1.1.2 x.1.2 x.2.1 x.2.2 rs)
    (combine scenario_rows measured) rs.

End Results.
End Results.

(** ** Lemmas and properties: the counters *)

Module CountersFacts.
Import Counters.

Definition started_and_ended (ds : list Z) : Metrics :=
  fold_left (fun m d => recordCallEnd d (recordCallStart m)) ds newMetrics.

Record counted (ds : list Z) (m : Metrics) : Prop := {
  c_started : calls_started_ m = Z.of_nat (length ds);
  c_completed : calls_completed_ m = Z.of_nat (length ds);
  c_total : total_duration_us_ m = fold_right Z.add 0 ds;
  c_max : Forall (fun d => d <= max_duration_us_ m) ds /\ 0 <= max_duration_us_ m;
  c_reached : ds <> [] -> max_duration_us_ m <> 0 -> max_duration_us_ m ∈ ds
}.

Lemma sum_nonneg (ds : list Z) : Forall (fun d => 0 <= d) ds -> 0 <= fold_right Z.add 0 ds.
Proof. induction 1; cbn; lia. Qed.

Lemma counted_all (ds : list Z) :
  Forall (fun d => 0 <= d) ds -> fold_right Z.add 0 ds < 2 ^ 64 -> Z.of_nat (length ds) < 2 ^ 64 ->
  counted ds (started_and_ended ds).
Proof.
  induction ds as [|d ds IH] using rev_ind; intros Hd Hs Hl; [constructor; cbn; auto with lia; contradiction|].
  apply Forall_app in Hd as [Hd Hx]. inversion_clear Hx as [|? ? Hx0 _].
  rewrite fold_right_app in Hs. cbn in Hs.
  assert (Hsum : forall a l, fold_right Z.add a l = fold_right Z.add 0 l + a)
    by (intros a l; induction l as [|x l IHl]; cbn; lia).
  rewrite Hsum in Hs. rewrite length_app in Hl. cbn in Hl. pose proof (sum_nonneg ds Hd).
  destruct IH as [A B C [D D'] E]; [exact Hd|lia|lia|]. unfold started_and_ended. rewrite fold_left_app. cbn [fold_left].
  fold (started_and_ended ds). constructor; cbn; rewrite ?length_app; cbn.
  - rewrite A. unfold u64. rewrite wrap_small by (unfold in_u; lia). lia.
  - rewrite B. unfold u64. rewrite wrap_small by (unfold in_u; lia). lia.
  - rewrite C, fold_right_app. cbn. rewrite (Hsum (d + 0)). unfold u64. rewrite wrap_small by (unfold in_u; lia). lia.
  - destruct (Z.ltb_spec (max_duration_us_ (started_and_ended ds)) d); (split; [apply Forall_app; split|lia]).
    + eapply List.Forall_impl; [|exact D]. cbn. intros. lia.
    + constructor; [lia|constructor].
    + exact D.
    + constructor; [lia|constructor].
  - intros _. destruct (Z.ltb_spec (max_duration_us_ (started_and_ended ds)) d) as [L|L]; intros Hne.
    + apply elem_of_app. right. constructor.
    + apply elem_of_app. left. apply E; [|exact Hne]. intros ->. cbn in *. lia.
Qed.

Lemma sum_below (ds : list Z) (x : Z) :
  Forall (fun d => d <= x) ds -> fold_right Z.add 0 ds <= x * Z.of_nat (length ds).
Proof. induction 1; cbn [fold_right length]; lia. Qed.

(** The statistics of the calls that ended, when nothing overflows: all were
    counted, the longest is among them and the mean is not longer. *)
Lemma stats_ok (ds : list Z) :
  ds <> [] -> Forall (fun d => 0 < d) ds -> fold_right Z.add 0 ds < 2 ^ 64 -> Z.of_nat (length ds) < 2 ^ 64 ->
  let st := getStats (started_and_ended ds) in
  calls_started st = Z.of_nat (length ds) /\ calls_completed st = Z.of_nat (length ds) /\
  max_duration_us st ∈ ds /\ avg_duration_us st = fold_right Z.add 0 ds / Z.of_nat (length ds) /\
  avg_duration_us st <= max_duration_us st.
Proof.
  intros Hne Hp Hs Hl st.
  assert (H0 : Forall (fun d => 0 <= d) ds) by (eapply List.Forall_impl; [|exact Hp]; cbn; lia).
  destruct (counted_all ds H0 Hs Hl) as [A B C [D _] E]. unfold st, getStats. cbn.
  assert (L : 0 < Z.of_nat (length ds)) by (destruct ds; [contradiction|cbn; lia]).
  rewrite A, B, C. replace (0 <? Z.of_nat (length ds)) with true by lia. split; [reflexivity|]. split; [reflexivity|].
  split; [|split; [reflexivity|]].
  - apply E; [exact Hne|]. destruct ds; [contradiction|]. inversion Hp. inversion D. lia.
  - apply Z.div_le_upper_bound; [exact L|]. pose proof (sum_below ds _ D). lia.
Qed.

End CountersFacts.

(** ** Lemmas and properties: the session table *)

Module ShardsFacts.
Import Shards.

Section Facts.
Context (hash : bytes -> Z) (per_worker : Z).

Lemma shard_lt (id : bytes) : (shard_idx hash id < 16)%nat.
Proof. unfold shard_idx, NUM_SHARDS. pose proof (Z.mod_pos_bound (hash id) 16 ltac:(lia)). lia. Qed.

Record table_ok (b : bool) (s : Contention) : Prop := {
  ok_mode : buggy_ s = b;
  ok_shards : b = false -> length (shards_ s) = 16%nat
}.

Lemma new_table_ok (b : bool) : table_ok b (newContention b).
Proof. constructor; [reflexivity|]. intros ->. reflexivity. Qed.

Lemma new_session_of (b : bool) (id : bytes) : session_of hash (newContention b) id = None.
Proof.
  unfold session_of. destruct b; cbn [newContention buggy_ buggy_table_ shards_]; [apply lookup_empty|].
  rewrite lookup_replicate_2 by apply shard_lt. apply lookup_empty.
Qed.

(** Storing a session is storing it under its identifier, in either form. *)
Lemma store_session_of (b : bool) (cs : CallSession) (s : Contention) (id : bytes) :
  table_ok b s ->
  session_of hash (store_session hash cs s) id =
  (if decide (id = call_id cs) then Some cs else session_of hash s id).
Proof.
  intros [Hm Hs]. unfold session_of, store_session. destruct b.
  - rewrite Hm. cbn. destruct (decide (id = call_id cs)) as [-> | Hne].
    + apply lookup_insert_eq.
    + apply lookup_insert_ne. congruence.
  - rewrite Hm. cbn.
    assert (Hi : forall x, is_Some (shards_ s !! shard_idx hash x))
      by (intros x; apply lookup_lt_is_Some_2; rewrite Hs by reflexivity; apply shard_lt).
    destruct (decide (shard_idx hash id = shard_idx hash (call_id cs))) as [E|E].
    + rewrite E, list_lookup_alter_eq. destruct (Hi (call_id cs)) as [m Em]. rewrite Em. cbn.
      destruct (decide (id = call_id cs)) as [-> | Hne].
      * apply lookup_insert_eq.
      * apply lookup_insert_ne. congruence.
    + rewrite list_lookup_alter_ne by congruence. destruct (decide (id = call_id cs)); [congruence|reflexivity].
Qed.

Lemma store_ok (b : bool) (cs : CallSession) (s : Contention) :
  table_ok b s -> table_ok b (store_session hash cs s).
Proof.
  intros [Hm Hs]. unfold store_session. rewrite Hm. destruct b; constructor; cbn; try reflexivity; try discriminate.
  rewrite length_alter. exact Hs.
Qed.

Lemma thread_step_ok (b : bool) (w : nat) (now : Z) (t t' : Thread) (s s' : Contention) :
  table_ok b s -> thread_step hash w now t s = (t', s') -> table_ok b s'.
Proof.
  intros H E. unfold thread_step in E. destruct (t_pc t); injection E as <- <-; [apply store_ok; exact H|..];
    destruct H; constructor; assumption.
Qed.

(** What both forms of the table have in common. *)
Record same (s f : Contention) : Prop := {
  same_sessions : forall id, session_of hash s id = session_of hash f id;
  same_processed : calls_processed_ s = calls_processed_ f;
  same_latency : avg_latency_us_ s = avg_latency_us_ f
}.

Lemma thread_step_same (w : nat) (now : Z) (t : Thread) (s f : Contention) :
  table_ok true s -> table_ok false f -> same s f ->
  exists t' s' f', thread_step hash w now t s = (t', s') /\ thread_step hash w now t f = (t', f') /\ same s' f'.
Proof.
  intros Hs Hf [H1 H2 H3]. unfold thread_step. destruct (t_pc t).
  - do 3 eexists. split; [reflexivity|]. split; [reflexivity|]. constructor.
    + intros id. rewrite (store_session_of true), (store_session_of false) by assumption.
      destruct (decide _); [reflexivity|apply H1].
    + unfold store_session. destruct (buggy_ s), (buggy_ f); exact H2.
    + unfold store_session. destruct (buggy_ s), (buggy_ f); exact H3.
  - exists (mkThread (t_i t) (Loaded (avg_latency_us_ s))), s, f. rewrite H3. split; [reflexivity|].
    split; [reflexivity|]. constructor; assumption.
  - do 3 eexists. split; [reflexivity|]. split; [reflexivity|]. constructor; [exact H1|exact H2|reflexivity].
  - do 3 eexists. split; [reflexivity|]. split; [reflexivity|]. constructor; cbn; [exact H1|congruence|exact H3].
Qed.

(** The same schedule on both. *)
Lemma schedule_same (sched : list (nat * Z)) (r g : Run) :
  table_ok true (r_table r) -> table_ok false (r_table g) -> same (r_table r) (r_table g) ->
  r_threads r = r_threads g ->
  match run_schedule hash per_worker sched r, run_schedule hash per_worker sched g with
  | Some r', Some g' => r_threads r' = r_threads g' /\ same (r_table r') (r_table g')
  | None, None => True
  | _, _ => False
  end.
Proof.
  revert r g. induction sched as [|[w now] sched IH]; intros r g Hr Hg S T; cbn [run_schedule]; [auto|].
  unfold run_step. cbn [fst snd]. rewrite <- T. destruct (r_threads r !! w) as [t|]; [|exact I]. cbn.
  destruct (t_i t <? per_worker); [|exact I].
  destruct (thread_step_same w now t _ _ Hr Hg S) as (t' & s' & f' & E1 & E2 & S').
  rewrite E1, E2. cbn. apply IH; cbn.
  - exact (thread_step_ok true w now t t' _ _ Hr E1).
  - exact (thread_step_ok false w now t t' _ _ Hg E2).
  - exact S'.
  - reflexivity.
Qed.

(** *** What a run leaves behind *)

(** How many sessions a thread has stored. *)
Definition stored (t : Thread) : Z := match t_pc t with Begin => t_i t | _ => t_i t + 1 end.

Definition owned (ts : list Thread) (id : bytes) : Prop :=
  exists w t i, ts !! w = Some t /\ 0 <= i < stored t /\ id = thread_call_id w i.

Definition finished_calls (ts : list Thread) : Z := fold_right Z.add 0 (map t_i ts).

Record run_ok (b : bool) (r : Run) : Prop := {
  rk_table : table_ok b (r_table r);
  rk_pos : Forall (fun t => 0 <= t_i t) (r_threads r);
  rk_sessions : forall id, is_Some (session_of hash (r_table r) id) <-> owned (r_threads r) id;
  rk_count : calls_processed_ (r_table r) = u64 (finished_calls (r_threads r))
}.

Lemma owned_insert (ts : list Thread) (w : nat) (t t' : Thread) (id : bytes) :
  ts !! w = Some t -> stored t <= stored t' <= stored t + 1 ->
  owned (<[w := t']> ts) id <->
  owned ts id \/ (stored t < stored t' /\ 0 <= stored t /\ id = thread_call_id w (stored t)).
Proof.
  intros E Hs. split.
  - intros (v & x & i & Ev & Hi & ->). destruct (decide (v = w)) as [-> | Hne].
    + rewrite list_lookup_insert_eq in Ev by (apply lookup_lt_Some in E; exact E). injection Ev as <-.
      destruct (decide (i < stored t)) as [L|L]; [left; exists w, t, i; auto with lia|].
      right. replace i with (stored t) by lia. repeat split; lia.
    + rewrite list_lookup_insert_ne in Ev by congruence. left. exists v, x, i. auto.
  - intros [(v & x & i & Ev & Hi & ->) | (H1 & H2 & ->)].
    + destruct (decide (v = w)) as [-> | Hne].
      * exists w, t', i. rewrite list_lookup_insert_eq by (apply lookup_lt_Some in E; exact E).
        rewrite E in Ev. injection Ev as <-. split; [reflexivity|]. split; [lia|reflexivity].
      * exists v, x, i. rewrite list_lookup_insert_ne by congruence. auto.
    + exists w, t', (stored t). rewrite list_lookup_insert_eq by (apply lookup_lt_Some in E; exact E).
      split; [reflexivity|]. split; [lia|reflexivity].
Qed.

Lemma finished_insert (ts : list Thread) (w : nat) (t t' : Thread) :
  ts !! w = Some t -> finished_calls (<[w := t']> ts) = finished_calls ts + t_i t' - t_i t.
Proof.
  revert w. induction ts as [|x ts IH]; intros [|w] E; try discriminate.
  - injection E as ->. unfold finished_calls. cbn. lia.
  - specialize (IH w E). change (t_i x + finished_calls (<[w := t']> ts) = t_i x + finished_calls ts + t_i t' - t_i t).
    lia.
Qed.

Lemma run_start_ok (b : bool) (n : nat) : run_ok b (start b n).
Proof.
  constructor; cbn.
  - apply new_table_ok.
  - apply List.Forall_forall. intros t Ht. apply repeat_spec in Ht. subst. cbn. lia.
  - intros id. rewrite new_session_of. split; [intros [x Hx]; discriminate|].
    intros (w & t & i & E & Hi & _). apply list_elem_of_lookup_2, list_elem_of_In, repeat_spec in E. subst. cbn in Hi. lia.
  - unfold finished_calls. replace (fold_right Z.add 0 (map t_i (repeat (mkThread 0 Begin) n))) with 0;
      [reflexivity|]. induction n; cbn; lia.
Qed.

Lemma run_step_ok (b : bool) (x : nat * Z) (r r' : Run) :
  run_ok b r -> run_step hash per_worker x r = Some r' -> run_ok b r'.
Proof.
  intros [Ht Hp Hs Hc] E. destruct x as [w now]. unfold run_step in E. cbn [fst snd] in E.
  destruct (r_threads r !! w) as [t|] eqn:Et; [|discriminate]. cbn in E.
  destruct (Z.ltb_spec (t_i t) per_worker); [|discriminate].
  destruct (thread_step hash w now t (r_table r)) as [t' s'] eqn:Es. injection E as <-.
  pose proof (thread_step_ok b w now t t' _ _ Ht Es) as Ht'.
  assert (H0 : 0 <= t_i t) by (rewrite List.Forall_forall in Hp; apply Hp, list_elem_of_In; eapply list_elem_of_lookup_2; exact Et).
  assert (P : Forall (fun t => 0 <= t_i t) (<[w:=t']> (r_threads r))).
  { apply Forall_insert; [exact Hp|]. unfold thread_step in Es. destruct (t_pc t); injection Es as <- <-; cbn; lia. }
  constructor; cbn [r_threads r_table]; [exact Ht'|exact P| |].
  - intros id. rewrite (owned_insert (r_threads r) w t t' id Et), <- Hs;
      [|unfold thread_step in Es; destruct t as [i pc]; destruct pc; injection Es as <- <-; unfold stored; cbn; lia].
    unfold thread_step in Es. destruct t as [i pc]. unfold stored. cbn in *.
    destruct pc; injection Es as <- <-; cbn; [|intuition lia..].
    rewrite (store_session_of b) by exact Ht. cbn. destruct (decide (id = thread_call_id w i)) as [-> | Hne].
    + split; [|eauto]. intros _. right. auto with lia.
    + intuition.
  - rewrite (finished_insert _ w t t' Et). unfold thread_step in Es. destruct t as [i pc]. cbn in *.
    destruct pc; injection Es as <- <-; cbn; [| | |].
    + unfold store_session. destruct (buggy_ _); cbn; rewrite Hc; f_equal; lia.
    + rewrite Hc. f_equal. lia.
    + rewrite Hc. f_equal. lia.
    + rewrite Hc. unfold u64, wrap. rewrite Z.add_mod_idemp_l by discriminate. f_equal. lia.
Qed.

Lemma schedule_ok (b : bool) (sched : list (nat * Z)) (r r' : Run) :
  run_ok b r -> run_schedule hash per_worker sched r = Some r' -> run_ok b r'.
Proof.
  revert r. induction sched as [|x sched IH]; intros r H E; cbn in E; [injection E as <-; exact H|].
  destruct (run_step hash per_worker x r) as [q|] eqn:Eq; [|discriminate]. cbn in E.
  exact (IH q (run_step_ok b x r q H Eq) E).
Qed.

Lemma step_threads (x : nat * Z) (r r' : Run) :
  run_step hash per_worker x r = Some r' -> length (r_threads r') = length (r_threads r).
Proof.
  destruct x as [w now]. unfold run_step. destruct (r_threads r !! _) as [t|]; [|discriminate]. cbn.
  destruct (t_i t <? per_worker); [|discriminate]. destruct (thread_step _ _ _ _ _). intros [= <-].
  apply length_insert.
Qed.

Lemma schedule_threads (sched : list (nat * Z)) (r r' : Run) :
  run_schedule hash per_worker sched r = Some r' -> length (r_threads r') = length (r_threads r).
Proof.
  revert r. induction sched as [|x sched IH]; intros r E; cbn in E; [injection E as <-; reflexivity|].
  destruct (run_step hash per_worker x r) as [q|] eqn:Eq; [|discriminate]. cbn in E.
  rewrite (IH q E). exact (step_threads x r q Eq).
Qed.

Lemma done_calls (ts : list Thread) :
  Forall (eq (mkThread per_worker Begin)) ts -> finished_calls ts = Z.of_nat (length ts) * per_worker.
Proof.
  induction 1 as [|t ts <- _ IH]; [reflexivity|].
  change (finished_calls (mkThread per_worker Begin :: ts)) with (per_worker + finished_calls ts).
  rewrite IH. cbn [length]. lia.
Qed.

Lemma done_owned (ts : list Thread) (id : bytes) :
  Forall (eq (mkThread per_worker Begin)) ts ->
  owned ts id <-> exists w i, (w < length ts)%nat /\ 0 <= i < per_worker /\ id = thread_call_id w i.
Proof.
  intros H. split.
  - intros (w & t & i & E & Hi & ->). exists w, i. split; [apply lookup_lt_Some in E; exact E|].
    rewrite Forall_lookup in H. rewrite <- (H w t E) in Hi. auto.
  - intros (w & i & Hw & Hi & ->). apply lookup_lt_is_Some_2 in Hw as [t E].
    rewrite Forall_lookup in H. pose proof (H w t E) as <-. exists w, (mkThread per_worker Begin), i. auto.
Qed.

End Facts.

(** C38. Locking one shard is equivalent to locking the whole table, for any
    hash function, number of threads and order of their steps: the two runs
    do the same steps, find the same session under every identifier, count the
    same calls and compute the same latency; and when every thread has left
    its loop, exactly the calls of every thread are there and were counted. *)
Theorem shards_equal_table (hash : bytes -> Z) (n : nat) (per_worker : Z) (sched : list (nat * Z)) (g : Run)
  (E : run_schedule hash per_worker sched (start false n) = Some g) (D : done per_worker g) :
  exists r, run_schedule hash per_worker sched (start true n) = Some r /\
    (forall id, session_of hash (r_table r) id = session_of hash (r_table g) id) /\
    avg_latency_us_ (r_table r) = avg_latency_us_ (r_table g) /\
    calls_processed_ (r_table r) = u64 (Z.of_nat n * per_worker) /\
    calls_processed_ (r_table g) = u64 (Z.of_nat n * per_worker) /\
    forall id, is_Some (session_of hash (r_table g) id) <->
      exists w i, (w < n)%nat /\ 0 <= i < per_worker /\ id = thread_call_id w i.
Proof.
  pose proof (run_start_ok hash true n) as St. pose proof (run_start_ok hash false n) as Sf.
  assert (S0 : same hash (r_table (start true n)) (r_table (start false n)))
    by (constructor; try reflexivity; intros id; cbn [start r_table]; rewrite !new_session_of; reflexivity).
  pose proof (schedule_same hash per_worker sched _ _ (rk_table _ _ _ St) (rk_table _ _ _ Sf) S0 eq_refl) as H.
  rewrite E in H. destruct (run_schedule hash per_worker sched (start true n)) as [r|]; [|contradiction].
  destruct H as (_ & [Hs Hp Ha]). exists r. split; [reflexivity|]. split; [exact Hs|]. split; [exact Ha|].
  destruct (schedule_ok hash per_worker false sched _ _ Sf E) as [_ _ Go Gc].
  pose proof (schedule_threads hash per_worker sched _ _ E) as L. cbn in L. rewrite repeat_length in L.
  rewrite Hp, Gc, (done_calls per_worker _ D), L. split; [reflexivity|]. split; [reflexivity|].
  intros id. rewrite Go, (done_owned per_worker _ id D), L. reflexivity.
Qed.

(** Two threads, one call each, their steps interleaved. *)
Lemma shards_equal_table_witness :
  exists g r, let sched := [(0%nat, 5); (1%nat, 6); (0%nat, 7); (1%nat, 7); (1%nat, 8); (0%nat, 9); (1%nat, 9); (0%nat, 9)] in
    run_schedule (fun id => Z.of_nat (length id)) 1 sched (start false 2) = Some g /\ done 1 g /\
    run_schedule (fun id => Z.of_nat (length id)) 1 sched (start true 2) = Some r /\
    calls_processed_ (r_table r) = 2.
Proof.
  destruct (run_schedule (fun id => Z.of_nat (length id)) 1
    [(0%nat, 5); (1%nat, 6); (0%nat, 7); (1%nat, 7); (1%nat, 8); (0%nat, 9); (1%nat, 9); (0%nat, 9)] (start false 2))
    as [g|] eqn:E; [|exfalso; revert E; vm_compute; discriminate].
  assert (D : done 1 g) by (revert E; vm_compute; intros [= <-]; repeat constructor).
  destruct (shards_equal_table _ _ _ _ g E D) as (r & Er & _ & _ & Hc & _).
  exists g, r. cbv zeta. split; [exact E|]. split; [exact D|]. split; [exact Er|]. rewrite Hc. reflexivity.
Defined.

End ShardsFacts.

(** ** Lemmas and properties: the dialogs *)

Module LeakFacts.
Import Leak.

(** The blocks of a list of dialogs, and bodies that nothing points to. *)
Definition dialog_blocks (d : Dialog) : list (nat * Block) := [(d_body d, Body); (d_ctx d, Context_)].
Definition blocks (ds : list Dialog) : list (nat * Block) := flat_map dialog_blocks ds.
Definition bodies (l : list nat) : list (nat * Block) := map (fun a => (a, Body)) l.

(** Every allocated block is a dialog's or one of [lost]. *)
Record accounted (lost : list nat) (s : MemoryLeak) : Prop := {
  ac_heap : map_to_list (l_heap s) ≡ₚ blocks (l_dialogs s) ++ bodies lost;
  ac_next : forall a, is_Some (l_heap s !! a) -> (a < l_next s)%nat
}.

Lemma blocks_app (a b : list Dialog) : blocks (a ++ b) = blocks a ++ blocks b.
Proof. apply flat_map_app. Qed.

Lemma free_ok (a : nat) (b : Block) (rest : list (nat * Block)) (s : MemoryLeak) :
  map_to_list (l_heap s) ≡ₚ (a, b) :: rest ->
  free a s = Ok (tt, set_heap (delete a (l_heap s)) (l_next s) s) /\
  map_to_list (delete a (l_heap s)) ≡ₚ rest.
Proof.
  intros H. assert (E : l_heap s !! a = Some b) by (apply elem_of_map_to_list; rewrite H; constructor).
  unfold free. rewrite E. split; [reflexivity|].
  apply (Permutation_cons_inv (a := (a, b))). rewrite map_to_list_delete by exact E. exact H.
Qed.

Lemma below_delete (a n : nat) (h : gmap nat Block) :
  (forall x, is_Some (h !! x) -> (x < n)%nat) -> forall x, is_Some (delete a h !! x) -> (x < n)%nat.
Proof. intros H x [b Hb]. apply lookup_delete_Some in Hb as [_ Hb]. eauto. Qed.

Lemma below_insert (b : Block) (n : nat) (h : gmap nat Block) :
  (forall x, is_Some (h !! x) -> (x < n)%nat) -> forall x, is_Some (<[n := b]> h !! x) -> (x < S n)%nat.
Proof. intros H x [c Hc]. apply lookup_insert_Some in Hc as [[<- _] | [_ Hc]]; [lia|].
  assert (x < n)%nat by eauto. lia.
Qed.

Lemma fresh_insert (b : Block) (n : nat) (h : gmap nat Block) :
  (forall x, is_Some (h !! x) -> (x < n)%nat) -> map_to_list (<[n := b]> h) ≡ₚ (n, b) :: map_to_list h.
Proof.
  intros H. apply map_to_list_insert. destruct (h !! n) eqn:E; [|reflexivity].
  specialize (H n ltac:(eauto)). lia.
Qed.

Lemma create_ok (id : bytes) (lost : list nat) (s : MemoryLeak) :
  accounted lost s ->
  exists s', createDialog id s = Ok (tt, s') /\ accounted lost s' /\ l_buggy s' = l_buggy s /\
    map d_call_id (l_dialogs s') = map d_call_id (l_dialogs s) ++ [id] /\
    l_memory_kb s' = u64 (l_memory_kb s + 1).
Proof.
  intros [Hh Hn]. eexists. split; [reflexivity|]. cbn. split; [constructor; cbn|].
  - rewrite fresh_insert by (apply below_insert; exact Hn). rewrite fresh_insert by exact Hn.
    rewrite Hh, blocks_app. cbn. solve_Permutation.
  - apply (below_insert Body (S (l_next s))). apply below_insert. exact Hn.
  - rewrite map_app. auto.
Qed.

(** A dialog that fails: its body is lost when it is freed by hand. *)
Lemma error_ok (id : bytes) (lost : list nat) (s : MemoryLeak) (i : nat) (d : Dialog) :
  accounted lost s -> list_find (fun d => d_call_id d = id) (l_dialogs s) = Some (i, d) ->
  exists s', simulateError id s = Ok (tt, s') /\
    accounted (if l_buggy s then d_body d :: lost else lost) s' /\ l_buggy s' = l_buggy s /\
    l_dialogs s' = delete i (l_dialogs s) /\ l_memory_kb s' = l_memory_kb s.
Proof.
  intros [Hh Hn] E. unfold simulateError, get. rewrite (M_bind_Ok _ _ s s s eq_refl), E.
  apply list_find_Some in E as (Ei & _ & _). pose proof (delete_Permutation _ _ _ Ei) as Hp.
  assert (Hb : blocks (l_dialogs s) ≡ₚ dialog_blocks d ++ blocks (delete i (l_dialogs s)))
    by (unfold blocks; rewrite Hp at 1; reflexivity).
  rewrite Hb in Hh. cbn in Hh. destruct (l_buggy s) eqn:B.
  - destruct (free_ok (d_ctx d) Context_ (blocks (delete i (l_dialogs s)) ++ bodies (d_body d :: lost)) s) as [F1 F2].
    { rewrite Hh. cbn. solve_Permutation. }
    eexists. split; [rewrite (M_bind_Ok _ _ s s tt eq_refl), (M_bind_Ok _ _ _ _ _ F1); reflexivity|].
    cbn. split; [constructor; cbn; [exact F2|apply below_delete; exact Hn]|auto].
  - destruct (free_ok _ _ _ s Hh) as [F1 F2].
    destruct (free_ok (d_ctx d) Context_ (blocks (delete i (l_dialogs s)) ++ bodies lost)
      (set_heap (delete (d_body d) (l_heap s)) (l_next s) s) F2) as [G1 G2].
    eexists. split; [rewrite (M_bind_Ok _ _ _ _ _ F1), (M_bind_Ok _ _ _ _ _ G1); reflexivity|].
    cbn. split; [constructor; cbn; [exact G2|apply below_delete, below_delete; exact Hn]|auto].
Qed.

(** The destructor frees every dialog, each block once. *)
Lemma free_dialogs_ok (ds : list Dialog) (lost : list nat) (s : MemoryLeak) :
  map_to_list (l_heap s) ≡ₚ blocks ds ++ bodies lost ->
  exists h, free_dialogs ds s = Ok (tt, set_heap h (l_next s) s) /\ map_to_list h ≡ₚ bodies lost.
Proof.
  revert s. induction ds as [|d ds IH]; intros s H; cbn [free_dialogs blocks flat_map] in *.
  - exists (l_heap s). split; [destruct s; reflexivity|exact H].
  - destruct (free_ok _ _ _ s H) as [F1 F2].
    destruct (free_ok (d_ctx d) Context_ (blocks ds ++ bodies lost)
      (set_heap (delete (d_body d) (l_heap s)) (l_next s) s) F2) as [G1 G2].
    destruct (IH (set_heap (delete (d_ctx d) (delete (d_body d) (l_heap s))) (l_next s) s) G2) as (h & E & Hh). exists h.
    rewrite (M_bind_Ok _ _ _ _ _ F1), (M_bind_Ok _ _ _ _ _ G1). split; [exact E|exact Hh].
Qed.

Lemma destroy_ok (lost : list nat) (s : MemoryLeak) :
  accounted lost s ->
  exists s', destroy s = Ok (tt, s') /\ map_to_list (l_heap s') ≡ₚ bodies lost /\ l_dialogs s' = [] /\
    l_memory_kb s' = l_memory_kb s.
Proof.
  intros [Hh _]. destruct (free_dialogs_ok _ _ _ Hh) as (h & E & H).
  unfold destroy, get. rewrite (M_bind_Ok _ _ s s s eq_refl), (M_bind_Ok _ _ _ _ _ E). eexists. split; [reflexivity|].
  auto.
Qed.

(** *** The run: half of the dialogs fail *)

Definition failing (n : nat) : nat := ((n + 1) / 2)%nat.

Lemma halves (n : nat) :
  if (n mod 2 =? 0)%nat
  then failing (S n) = S (failing n) /\ (S n / 2 = n / 2)%nat
  else failing (S n) = failing n /\ (S n / 2 = S (n / 2))%nat.
Proof.
  assert (D : forall m, (m = 2 * (m / 2) + m mod 2 /\ m mod 2 < 2)%nat)
    by (intros m; split; [apply Nat.div_mod_eq|apply Nat.mod_upper_bound; lia]).
  pose proof (D n). pose proof (D (S n)). pose proof (D (n + 1)%nat). pose proof (D (S n + 1)%nat). unfold failing.
  destruct (Nat.eqb_spec (n mod 2) 0); lia.
Qed.

Lemma do_ops_app (a b : list Op) (s s' : MemoryLeak) :
  do_ops a s = Ok (tt, s') -> do_ops (a ++ b) s = do_ops b s'.
Proof.
  revert s. induction a as [|o a IH]; intros s E; cbn in *; [injection E as <-; reflexivity|].
  apply M_bind_inv in E as ([] & s1 & E1 & E2). rewrite (M_bind_Ok _ _ _ _ _ E1). exact (IH _ E2).
Qed.

(** After [n] rounds. *)
Record rounds (b : bool) (n : nat) (s : MemoryLeak) : Prop := {
  rd_lost : exists lost, accounted lost s /\ length lost = if b then failing n else 0%nat;
  rd_mode : l_buggy s = b;
  rd_live : length (l_dialogs s) = (n / 2)%nat;
  rd_memory : l_memory_kb s = u64 (Z.of_nat n)
}.

Lemma found_at (id : bytes) (ds : list Dialog) :
  id ∈ map d_call_id ds -> exists x, list_find (fun d => d_call_id d = id) ds = Some x.
Proof.
  intros (d & Hd & Hin)%list_elem_of_fmap. destruct (list_find_elem_of (fun d => d_call_id d = id) ds d Hin) as [x Hx];
    [congruence|]. eauto.
Qed.

Lemma run_rounds (b : bool) (n : nat) : exists s, do_ops (run_ops n) (newLeak b) = Ok (tt, s) /\ rounds b n s.
Proof.
  induction n as [|n (s & E & [[lost [Ha Hl]] Hm Hd Hk])].
  - eexists. split; [reflexivity|]. split; cbn; try reflexivity. exists []. split; [|destruct b; reflexivity].
    constructor; [reflexivity|]. intros a [x Hx]. inversion Hx.
  - unfold run_ops in *. rewrite seq_S, flat_map_app, (do_ops_app _ _ _ _ E). cbn [flat_map].
    rewrite Nat.add_0_l, app_nil_r. set (id := str "call-" ++ to_string (Z.of_nat n)). cbn [do_ops do_op].
    destruct (create_ok id lost s Ha) as (s1 & E1 & A1 & M1 & D1 & K1). rewrite (M_bind_Ok _ _ _ _ _ E1).
    assert (L1 : length (l_dialogs s1) = S (n / 2)).
    { rewrite <- (length_map d_call_id), D1, length_app, length_map, Hd. cbn. lia. }
    assert (K2 : l_memory_kb s1 = u64 (Z.of_nat (S n))).
    { rewrite K1, Hk. unfold u64, wrap. rewrite Z.add_mod_idemp_l by discriminate. f_equal. lia. }
    pose proof (halves n) as Q.
    destruct (n mod 2 =? 0)%nat; destruct Q as [Q1 Q2]; cbn [do_ops do_op].
    + destruct (found_at id (l_dialogs s1)) as [[i d] F]; [rewrite D1; set_solver|].
      destruct (error_ok id lost s1 i d A1 F) as (s2 & E2 & A2 & M2 & D2 & K3).
      rewrite (M_bind_Ok _ _ _ _ _ E2). eexists. split; [reflexivity|]. rewrite M1, Hm in *. split.
      * eexists. split; [exact A2|]. destruct b; cbn [length]; lia.
      * congruence.
      * apply list_find_Some in F as (F & _). rewrite D2, length_delete by eauto. lia.
      * congruence.
    + eexists. split; [reflexivity|]. split.
      * eexists. split; [exact A1|]. destruct b; lia.
      * congruence.
      * lia.
      * exact K2.
Qed.

(** The leak scenario, for every number of operations: the run and the
    destructor never free a block twice; freed by hand, the bodies of the
    dialogs that failed, half of them, stay allocated and nothing else does;
    with an owner nothing is left; and [getMemoryUsageKB], which only counts
    creations, reports the same number either way. *)
Theorem leak_left (buggy : bool) (n : nat) :
  exists s s', do_ops (run_ops n) (newLeak buggy) = Ok (tt, s) /\
    length (l_dialogs s) = (n / 2)%nat /\ l_memory_kb s = u64 (Z.of_nat n) /\
    destroy s = Ok (tt, s') /\
    (forall a b, l_heap s' !! a = Some b -> b = Body) /\
    size (l_heap s') = (if buggy then (n + 1) / 2 else 0)%nat.
Proof.
  destruct (run_rounds buggy n) as (s & E & [[lost [Ha Hl]] Hm Hd Hk]).
  destruct (destroy_ok lost s Ha) as (s' & E' & Hh & _ & _). exists s, s'. do 4 (split; [assumption|]). split.
  - intros a b Hb. apply elem_of_map_to_list in Hb. rewrite Hh in Hb.
    apply list_elem_of_fmap in Hb as (x & [= _ ->] & _). reflexivity.
  - rewrite <- length_map_to_list, Hh. unfold bodies. rewrite length_map, Hl. reflexivity.
Qed.

End LeakFacts.

(** ** Lemmas and properties: the session list *)

Module DataPathFacts.
Import DataPath.

#[local] Arguments find_list : simpl never.

(** A list and a map that hold the same sessions, none twice. *)
Record agree (l m : Path) : Prop := {
  ag_modes : p_buggy l = true /\ p_buggy m = false;
  ag_find : forall id, find_list id (p_list l) = p_map m !! id;
  ag_once : NoDup (map call_id (p_list l));
  ag_dom : list_to_set (map call_id (p_list l)) = (dom (p_map m) : gset bytes);
  ag_counts : messages_processed_ l = messages_processed_ m /\ p_latency l = p_latency m /\
              allocations_ l = allocations_ m
}.

Lemma find_list_app (id : bytes) (l : list CallSession) (s : CallSession) :
  find_list id (l ++ [s]) =
  match find_list id l with Some x => Some x | None => if decide (call_id s = id) then Some s else None end.
Proof.
  unfold find_list. induction l as [|x l IH]; cbn; [destruct (decide _); reflexivity|].
  destruct (decide (call_id x = id)); [reflexivity|].
  destruct (list_find _ (l ++ [s])) as [[? ?]|]; destruct (list_find _ l) as [[? ?]|]; cbn in *; exact IH.
Qed.

Lemma find_agree (id : bytes) (l m : Path) : agree l m -> find id l = find id m.
Proof. intros [[Hl Hm] Hf _ _ _]. unfold find. rewrite Hl, Hm. apply Hf. Qed.

(** A session that is not there yet is added to both. *)
Lemma add_agree (s : CallSession) (l m : Path) :
  agree l m -> find (call_id s) m = None -> agree (add_session s l) (add_session s m).
Proof.
  intros [[Hl Hm] Hf Ho Hd Hc] Hn. unfold find in Hn. rewrite Hm in Hn. unfold add_session. rewrite Hl, Hm.
  constructor; cbn; [auto| | | |exact Hc].
  - intros id. rewrite find_list_app, Hf. destruct (decide (call_id s = id)) as [<- | Hne].
    + rewrite Hn, lookup_insert_eq. reflexivity.
    + rewrite lookup_insert_ne by exact Hne. destruct (p_map m !! id); reflexivity.
  - rewrite map_app. apply list.NoDup_app. split; [exact Ho|]. split; [|apply NoDup_singleton].
    intros x Hx Hx'. apply list_elem_of_singleton in Hx' as ->.
    apply (not_elem_of_dom (D := gset bytes)) in Hn. apply Hn. rewrite <- Hd. apply elem_of_list_to_set. exact Hx.
  - rewrite map_app, list_to_set_app_L, dom_insert_L, Hd. cbn. rewrite (right_id_L ∅ (∪)), (comm_L (∪)). reflexivity.
Qed.

Lemma message_agree (msg : SipMessage) (t : Z) (l m : Path) :
  agree l m -> agree (processMessage msg t l) (processMessage msg t m).
Proof.
  intros H. unfold processMessage. rewrite (find_agree _ _ _ H).
  assert (H' : agree (match find (m_call_id msg) m with Some _ => l | None => add_session (session_for msg) l end)
                     (match find (m_call_id msg) m with Some _ => m | None => add_session (session_for msg) m end))
    by (destruct (find (m_call_id msg) m) eqn:E; [exact H|apply add_agree; [exact H|exact E]]).
  destruct H' as [Hm Hf Ho Hd (C1 & C2 & C3)]. constructor; cbn; [exact Hm|exact Hf|exact Ho|exact Hd|].
  rewrite C1, C2, C3. auto.
Qed.

(** *** The messages of a run *)

Definition process_all (msgs : list (SipMessage * Z)) (p : Path) : Path :=
  fold_left (fun p x => processMessage x.1 x.2 p) msgs p.

Lemma process_agree (msgs : list (SipMessage * Z)) (l m : Path) :
  agree l m -> agree (process_all msgs l) (process_all msgs m).
Proof.
  revert l m. induction msgs as [|x msgs IH]; intros l m H; [exact H|]. cbn. apply IH, message_agree, H.
Qed.

Definition prefill (n : nat) (p : Path) : Path :=
  fold_left (fun p i => add_session (known_session i) p) (seq 0 n) (reset_counts p).

Lemma numbered_inj (i j : nat) : numbered i = numbered j -> i = j.
Proof. unfold numbered. intros E. apply app_inv_head in E. apply to_string_inj in E; lia. Qed.

Lemma empty_agree : agree (newPath true) (newPath false).
Proof. constructor; cbn; [auto|reflexivity|constructor|set_solver|auto]. Qed.

(** The sessions that are there before the first message. *)
Lemma prefill_agree (n : nat) :
  agree (prefill n (newPath true)) (prefill n (newPath false)) /\
  map call_id (p_list (prefill n (newPath true))) = map numbered (seq 0 n).
Proof.
  induction n as [|n [IH D]]; [split; [exact empty_agree|reflexivity]|].
  unfold prefill in *. rewrite seq_S, !fold_left_app. cbn [fold_left].
  split.
  - apply add_agree; [exact IH|]. rewrite <- (find_agree _ _ _ IH). destruct IH as [[Hl Hm] Hf _ Hd _].
    unfold find. rewrite Hl, Hf. apply (not_elem_of_dom (D := gset bytes)). rewrite <- Hd, D, elem_of_list_to_set.
    intros (i & Hi & Hin)%list_elem_of_fmap. apply numbered_inj in Hi. apply elem_of_seq in Hin. cbn in Hi. lia.
  - unfold add_session at 1. destruct IH as [[-> _] _ _ _ _]. cbn [p_list]. rewrite !map_app, D. reflexivity.
Qed.

Lemma numbered_mod (n : nat) (i : nat) :
  (0 < n)%nat -> numbered (i mod n) ∈ map numbered (seq 0 n).
Proof.
  intros Hn. apply list_elem_of_fmap. exists (i mod n)%nat. split; [reflexivity|].
  apply elem_of_seq. pose proof (Nat.mod_upper_bound i n). lia.
Qed.

Lemma process_known (msgs : list (SipMessage * Z)) (p : Path) (k : Z) :
  p_buggy p = true -> Forall (fun x => m_call_id x.1 ∈ map call_id (p_list p)) msgs ->
  messages_processed_ p = u64 k ->
  p_list (process_all msgs p) = p_list p /\
  messages_processed_ (process_all msgs p) = u64 (k + Z.of_nat (length msgs)).
Proof.
  revert p k. induction msgs as [|x msgs IH]; intros p k Hb H Hk; [rewrite Z.add_0_r; auto|].
  inversion_clear H as [|? ? Hx Hr]. apply list_elem_of_fmap in Hx as (s & Hs & Hin).
  assert (F : find (m_call_id x.1) p <> None).
  { unfold find, find_list. rewrite Hb.
    destruct (list_find_elem_of (fun s => call_id s = m_call_id x.1) _ s Hin) as [[] ->]; [congruence|discriminate]. }
  assert (E : exists q, processMessage x.1 x.2 p = q /\ p_buggy q = true /\ p_list q = p_list p /\
              messages_processed_ q = u64 (messages_processed_ p + 1))
    by (unfold processMessage; destruct (find (m_call_id x.1) p); [eauto 6|contradiction]).
  destruct E as (q & E & Q1 & Q2 & Q3). rewrite <- Q2 in Hr.
  destruct (IH q (k + 1) Q1 Hr) as [I1 I2].
  { rewrite Q3, Hk. unfold u64, wrap. apply Z.add_mod_idemp_l. discriminate. }
  cbn [process_all fold_left length]. rewrite E. fold (process_all msgs q). rewrite I1, I2, Q2.
  split; [reflexivity|]. f_equal. lia.
Qed.

(** Searching the list of sessions and looking them up in the map are
    equivalent: after the run's hundred sessions and any further messages,
    every identifier finds the same session in both, the counters agree and
    the two hold the same number of sessions; and the run's own messages, as
    many as there are, leave the hundred sessions and are all counted. *)
Theorem list_equals_map (n : nat) (elapsed : nat -> Z) (more : list (SipMessage * Z)) :
  let l := run n elapsed (newPath true) in
  let m := run n elapsed (newPath false) in
  (forall id, find id (process_all more l) = find id (process_all more m)) /\
  length (p_list (process_all more l)) = size (p_map (process_all more m)) /\
  p_latency (process_all more l) = p_latency (process_all more m) /\
  size (p_map m) = 100%nat /\ messages_processed_ m = u64 (Z.of_nat n).
Proof.
  intros l m. destruct (prefill_agree 100) as [A D].
  set (msgs := map (fun i => (known_message i, elapsed i)) (seq 0 n)).
  assert (R : forall b, run n elapsed (newPath b) = process_all msgs (prefill 100 (newPath b))).
  { intros b. unfold run, process_all, msgs, prefill. generalize (seq 0 n). intros ks.
    generalize (fold_left (fun p i => add_session (known_session i) p) (seq 0 100) (reset_counts (newPath b))).
    induction ks as [|i ks IH]; intros p; [reflexivity|]. apply IH. }
  assert (B : agree l m) by (unfold l, m; rewrite !R; apply process_agree, A).
  assert (S0 : forall a b, agree a b -> length (p_list a) = size (p_map b)).
  { intros a b [_ _ Ho Hd _]. rewrite <- size_dom, <- Hd, size_list_to_set, length_map by exact Ho. reflexivity. }
  pose proof (process_agree more l m B) as C. split; [intros id; exact (find_agree id _ _ C)|].
  split; [exact (S0 _ _ C)|]. split; [apply C|].
  destruct (process_known msgs (prefill 100 (newPath true)) 0) as [K1 K2].
  - destruct A as [[A _] _ _ _ _]. exact A.
  - rewrite D. unfold msgs. apply Forall_map, List.Forall_forall. intros i _. apply numbered_mod. lia.
  - reflexivity.
  - rewrite <- R in K1, K2. fold l in K1, K2. rewrite <- (S0 _ _ B), K1, <- (length_map call_id), D.
    split; [reflexivity|]. destruct B as [_ _ _ _ (<- & _)]. rewrite K2. unfold msgs. rewrite length_map, length_seq.
    reflexivity.
Qed.

End DataPathFacts.

(** ** Lemmas: the table of results *)

Module ResultsFacts.
Import Results.

Section Facts.
Context {V : Type} (zero : V).

(** The row of a scenario that was measured. *)
Definition row (run_buggy run_fixed : bool) (x : bytes * bytes * bytes * (V * V)) : list Result :=
  let '(name, metric, u, (b, f)) := x in
  match run_buggy, run_fixed with
  | true, true => [mkResult name metric b f u]
  | true, false => [mkResult name metric b zero u]
  | false, true => [mkResult name metric f f u]
  | false, false => []
  end.

(** Recording appends that row when the last row is of another scenario. *)
Lemma record_row (rb rf : bool) (name metric u : bytes) (b f : V) (rs : list Result) :
  (forall r before, rs = before ++ [r] -> r_name r <> name) ->
  record zero rb rf name metric u b f rs = rs ++ row rb rf (name, metric, u, (b, f)).
Proof.
  intros H. unfold record, push_buggy. destruct rb, rf; cbn; try (rewrite ?app_nil_r; reflexivity).
  - unfold push_fixed. rewrite rev_app_distr. cbn. rewrite bool_decide_eq_true_2 by reflexivity.
    rewrite rev_involutive. reflexivity.
  - unfold push_fixed. destruct (rev rs) as [|r before] eqn:E; [reflexivity|].
    rewrite bool_decide_eq_false_2; [reflexivity|]. apply (H r (rev before)).
    rewrite <- (rev_involutive rs), E. reflexivity.
Qed.

Definition name_of (x : bytes * bytes * bytes * (V * V)) : bytes := x.1.1.1.

Lemma record_rows (rb rf : bool) (xs : list (bytes * bytes * bytes * (V * V))) (rs : list Result) :
  NoDup (map name_of xs) -> (forall r before, rs = before ++ [r] -> r_name r ∉ map name_of xs) ->
  fold_left (fun rs x => record zero rb rf x.1.1.1 x.1.1.2 x.1.2 x.2.1 x.2.2 rs) xs rs =
  rs ++ flat_map (row rb rf) xs.
Proof.
  revert rs. induction xs as [|[[[n mt] u] [b f]] xs IH]; intros rs Hd Hr; [rewrite app_nil_r; reflexivity|].
  cbn [fold_left fst snd flat_map]. inversion_clear Hd as [|? ? Hn Hd'].
  rewrite record_row, app_assoc by (intros r before E <-; apply (Hr r before E); constructor).
  apply IH; [exact Hd'|]. intros r before E. destruct rb, rf; cbn in E.
  1-3: apply app_inj_tail in E as [_ <-]; exact Hn.
  rewrite app_nil_r in E. intros Hin. apply (Hr r before E). constructor. exact Hin.
Qed.

(** A whole run, one row for each scenario. *)
Lemma runAll_rows (rb rf : bool) (measured : list (V * V)) :
  runAll zero rb rf measured [] = flat_map (row rb rf) (combine scenario_rows measured).
Proof.
  unfold runAll. rewrite record_rows; [reflexivity| |intros r [|? ?] E; discriminate].
  assert (D : NoDup (map (fun x : bytes * bytes * bytes => x.1.1) scenario_rows)) by (apply (bool_decide_unpack _); vm_compute; exact I).
  revert D. generalize scenario_rows. intros rows. revert measured.
  induction rows as [|x rows IH]; intros [|y ys] D; try constructor; cbn in D; inversion_clear D as [|? ? Hn Hd].
  - intros (z & Hz & Hin)%list_elem_of_fmap. apply Hn. apply list_elem_of_In in Hin. destruct z as [z1 z2].
    apply in_combine_l, list_elem_of_In in Hin. apply list_elem_of_fmap. exists z1. split; [exact Hz|exact Hin].
  - exact (IH ys Hd).
Qed.

End Facts.
End ResultsFacts.
