(* ===== verification/PerfThreads.v ===== *)
(** * The performance scenarios of the IMS: threads

    The first and the fourth scenario of [ims-simulator/src/perf_scenarios.cpp]:
    workers that take items off a queue while a flag [running_] is set.  Both
    are one transition system, in which the main thread follows a list of
    actions and the workers take steps in between.  A critical section of the
    queue's mutex is one step.  The workers wait with [wait_for] and a time
    limit, so a waiting worker can always go on; the main thread of the fourth
    scenario waits for the tasks at most thirty seconds, which here may pass at
    any time. *)

From Stdlib Require Import ZArith Lia.
From stdpp Require Import list.
From S2P Require Import Prelude.
#[local] Open Scope nat_scope.

(** ** State *)

(** Where a worker is in its loop. *)
Inductive Worker : Set := Check | Look | Waiting | Work (m : nat) | Exited.

(** The actions of the main thread. *)
Inductive Act : Set :=
| SetRunning (b : bool)
| Spawn (k : nat)          (** the constructor's or [run]'s threads *)
| Enqueue (m : nat)
| Await (n : nat)          (** wait until [n] tasks are complete, or no longer *)
| JoinAll.

(** How an idle worker goes on: it spins, or waits; and whether a worker that
    waited takes an item at once. *)
Record Mode : Type := mkMode { spins : bool; takes_after_wait : bool }.

Record Machine : Type := mkMachine {
  todo : list Act;
  queue_ : list nat;
  running_ : bool;
  workers_ : list Worker;
  completed : list nat;      (** the code counts them *)
  timeouts_ : nat
}.

Definition machine (p : list Act) : Machine := mkMachine p [] false [] [] 0.

(** ** Steps *)

Definition is_exited (w : Worker) : bool := match w with Exited => true | _ => false end.

Definition act (a : Act) (rest : list Act) (s : Machine) : option Machine :=
  match a with
  | SetRunning b => Some (mkMachine rest (queue_ s) b (workers_ s) (completed s) (timeouts_ s))
  | Spawn k => Some (mkMachine rest (queue_ s) (running_ s) (workers_ s ++ replicate k Check) (completed s) (timeouts_ s))
  | Enqueue m => Some (mkMachine rest (queue_ s ++ [m]) (running_ s) (workers_ s) (completed s) (timeouts_ s))
  | Await n => Some (mkMachine rest (queue_ s) (running_ s) (workers_ s) (completed s) (n - length (completed s)))
  | JoinAll =>
      if forallb is_exited (workers_ s)
      then Some (mkMachine rest (queue_ s) (running_ s) (workers_ s) (completed s) (timeouts_ s)) else None
  end.

(** A worker's next step, with the queue and what is complete. *)
Definition work (md : Mode) (running : bool) (w : Worker) (q : list nat) (c : list nat) : Worker * list nat * list nat :=
  let take_or (idle : Worker) := match q with m :: r => (Work m, r, c) | [] => (idle, [], c) end in
  match w with
  | Check => (if running then Look else Exited, q, c)
  | Look => take_or (if spins md then Check else Waiting)
  | Waiting => if takes_after_wait md then take_or Check else (Check, q, c)
  | Work m => (Check, q, c ++ [m])
  | Exited => (Exited, q, c)
  end.

Inductive Label : Set := Main | Step (w : nat).

Definition step (md : Mode) (l : Label) (s : Machine) : option Machine :=
  match l with
  | Main => match todo s with a :: rest => act a rest s | [] => None end
  | Step i =>
      w ← workers_ s !! i;
      let '(w', q, c) := work md (running_ s) w (queue_ s) (completed s) in
      Some (mkMachine (todo s) q (running_ s) (<[i := w']> (workers_ s)) c (timeouts_ s))
  end.

Fixpoint run (md : Mode) (ls : list Label) (s : Machine) : option Machine :=
  match ls with [] => Some s | l :: ls' => s' ← step md l s; run md ls' s' end.

(** ** The scenarios *)

(** [runScenario1]: [run], which stops and joins the worker, then the
    messages. *)
Definition mode1 (buggy : bool) : Mode := mkMode buggy false.
Definition scenario1 : list Act :=
  [SetRunning true; Spawn 1; SetRunning false; JoinAll] ++ map Enqueue (seq 0 100).

(** The constructor's threads, then [run]: the tasks, the wait, [stop]. *)
Definition mode4 : Mode := mkMode false true.
Definition num_workers (buggy : bool) (hardware_concurrency : nat) : nat :=
  let n := if buggy then 2 else hardware_concurrency in if n <? 1 then 4 else n.
Definition scenario4 (workers num_tasks : nat) : list Act :=
  [Spawn workers; SetRunning true] ++ map Enqueue (seq 0 num_tasks) ++ [Await num_tasks; SetRunning false; JoinAll].

(** ** The first scenario *)

(** What is left to do decides what can be in the queue. *)
Definition idle (w : Worker) : Prop := match w with Work _ => False | _ => True end.

Record before_messages (s : Machine) : Prop := {
  b_queue : queue_ s = []; b_done : completed s = []; b_idle : Forall idle (workers_ s)
}.

Record after_join (k : nat) (s : Machine) : Prop := {
  a_todo : todo s = map Enqueue (seq k (100 - k)); a_le : k <= 100;
  a_queue : queue_ s = seq 0 k; a_done : completed s = []; a_gone : Forall (eq Exited) (workers_ s)
}.

Definition prologue : list Act := [SetRunning true; Spawn 1; SetRunning false; JoinAll].
Definition scenario1_ok (s : Machine) : Prop :=
  (before_messages s /\ exists p, p <> [] /\ p `suffix_of` prologue /\ todo s = p ++ map Enqueue (seq 0 100)) \/
  exists k, after_join k s.

Lemma idle_work (md : Mode) (r : bool) (w w' : Worker) (q c : list nat) :
  idle w -> work md r w [] [] = (w', q, c) -> idle w' /\ q = [] /\ c = [].
Proof.
  unfold work. destruct w; cbn; intros I E; try contradiction; destruct r, (spins md), (takes_after_wait md);
    injection E as <- <- <-; cbn; auto.
Qed.

Lemma forallb_gone (ws : list Worker) : forallb is_exited ws = true -> Forall (eq Exited) ws.
Proof.
  intros H. apply List.Forall_forall. intros w Hw. rewrite forallb_forall in H. specialize (H w Hw).
  destruct w; [discriminate H..|reflexivity].
Qed.

Lemma step_before (md : Mode) (i : nat) (s s' : Machine) :
  before_messages s -> step md (Step i) s = Some s' -> before_messages s' /\ todo s' = todo s.
Proof.
  intros [Q D I] E. cbn in E. destruct (workers_ s !! i) as [w|] eqn:Ew; [|discriminate]. cbn in E.
  destruct (work md (running_ s) w (queue_ s) (completed s)) as [[w' q] c] eqn:Es. injection E as <-.
  rewrite Q, D in Es. destruct (idle_work _ _ _ _ _ _ (proj1 (Forall_lookup _ _) I i w Ew) Es) as (J & -> & ->).
  split; [|reflexivity]. constructor; cbn; auto. apply Forall_insert; assumption.
Qed.

Lemma step_after (md : Mode) (i k : nat) (s s' : Machine) :
  after_join k s -> step md (Step i) s = Some s' -> after_join k s'.
Proof.
  intros [T L Q D G] E. cbn in E. destruct (workers_ s !! i) as [w|] eqn:Ew; [|discriminate].
  rewrite <- (proj1 (Forall_lookup _ _) G i w Ew) in *. cbn in E. injection E as <-. constructor; cbn; auto.
  apply Forall_insert; auto.
Qed.

Lemma suffix_cons {A} (x : A) (p l : list A) : x :: p `suffix_of` l -> p `suffix_of` l.
Proof. intros [k ->]. exists (k ++ [x]). rewrite <- app_assoc. reflexivity. Qed.

Lemma step_scenario1 (md : Mode) (l : Label) (s s' : Machine) :
  scenario1_ok s -> step md l s = Some s' -> scenario1_ok s'.
Proof.
  intros [[B (p & Hne & Hs & T)] | [k A]] E; destruct l as [|i].
  - destruct p as [|a p]; [contradiction|]. cbn [app] in T. cbn [step] in E. rewrite T in E.
    destruct B as [Q D I]. destruct Hs as [h Hh]. destruct p as [|b p].
    + right. exists 0.
      assert (a = JoinAll) as ->.
      { unfold prologue in Hh. change [SetRunning true; Spawn 1; SetRunning false; JoinAll]
          with ([SetRunning true; Spawn 1; SetRunning false] ++ [JoinAll]) in Hh. apply app_inj_tail in Hh as [_ <-].
        reflexivity. }
      cbn in E. destruct (forallb is_exited (workers_ s)) eqn:G; [|discriminate]. injection E as <-.
      constructor; cbn; auto; [lia|]. apply forallb_gone. exact G.
    + left. split; [|exists (b :: p); split; [discriminate|split]].
      * destruct a; cbn in E; [..|]; try (injection E as <-; constructor; cbn; auto).
        -- apply Forall_app. split; [exact I|]. apply Forall_replicate. exact Logic.I.
        -- exfalso. unfold prologue in Hh. do 5 (destruct h as [|? h]; try discriminate Hh).
        -- destruct (forallb _ _); [|discriminate]. injection E as <-. constructor; auto.
      * apply (suffix_cons a). exists h. exact Hh.
      * destruct a; cbn in E; try (injection E as <-; reflexivity).
        destruct (forallb _ _); [|discriminate]. injection E as <-. reflexivity.
  - left. destruct (step_before md i s s' B E) as [B' T']. split; [exact B'|]. exists p. rewrite T'. auto.
  - right. destruct A as [T L Q D G]. cbn [step] in E. rewrite T in E. destruct (100 - k) as [|n] eqn:Ek; [discriminate|].
    cbn in E. injection E as <-. exists (S k). constructor; cbn -[seq Nat.sub]; auto; [|lia|].
    + replace (100 - S k) with n by lia. reflexivity.
    + rewrite Q, seq_S. reflexivity.
  - right. exists k. exact (step_after md i k s s' A E).
Qed.

Lemma run_scenario1 (md : Mode) (ls : list Label) (s s' : Machine) :
  scenario1_ok s -> run md ls s = Some s' -> scenario1_ok s'.
Proof.
  revert s. induction ls as [|l ls IH]; intros s H E; cbn in E; [injection E as <-; exact H|].
  destruct (step md l s) as [t|] eqn:Et; [|discriminate]. exact (IH t (step_scenario1 md l s t H Et) E).
Qed.

(** A run of the first scenario to its end. *)
Definition whole1 : list Label := [Main; Main; Step 0; Main; Step 0; Step 0; Step 0; Main] ++ replicate 100 Main.

(** The first scenario measures nothing: [run] joins the worker before the
    messages are put in the queue, so whatever way the threads are interleaved,
    in the variant that spins and in the one that waits, no message is ever
    processed; at the end all hundred are still in the queue. *)
Theorem scenario1_processes_nothing (buggy : bool) :
  (forall ls s, run (mode1 buggy) ls (machine scenario1) = Some s -> completed s = []) /\
  (exists ls s, run (mode1 buggy) ls (machine scenario1) = Some s /\ todo s = []) /\
  (forall ls s, run (mode1 buggy) ls (machine scenario1) = Some s -> todo s = [] -> queue_ s = seq 0 100).
Proof.
  assert (S0 : scenario1_ok (machine scenario1)).
  { left. split; [constructor; cbn; auto|]. exists prologue. split; [discriminate|]. split; [reflexivity|]. reflexivity. }
  split; [|split].
  - intros ls s E. destruct (run_scenario1 _ ls _ s S0 E) as [[[_ D _] _] | [k [_ _ _ D _]]]; exact D.
  - exists whole1. destruct buggy; (eexists; split; [vm_compute; reflexivity|reflexivity]).
  - intros ls s E T. destruct (run_scenario1 _ ls _ s S0 E) as [[_ (p & Hp & _ & T')] | [k [T' L Q _ _]]].
    + rewrite T in T'. destruct p; [contradiction|discriminate].
    + rewrite T in T'. symmetry in T'. apply map_eq_nil in T'. rewrite Q. f_equal.
      assert (Hn : length (seq k (100 - k)) = 0) by (rewrite T'; reflexivity). rewrite length_seq in Hn. lia.
Qed.

(** ** The fourth scenario *)

(** Every worker looks at [running_] before [run] sets it. *)
Definition early (workers num_tasks : nat) : list Label :=
  Main :: map Step (seq 0 workers) ++ replicate (num_tasks + 4) Main.

Lemma run_app (md : Mode) (a b : list Label) (s : Machine) :
  run md (a ++ b) s = (s' ← run md a s; run md b s').
Proof. revert s. induction a as [|l a IH]; intros s; cbn; [reflexivity|]. destruct (step md l s); cbn; auto. Qed.

(** Workers [i .. i+k) leave. *)
Lemma all_leave (md : Mode) (t : list Act) (k i : nat) :
  run md (map Step (seq i k)) (mkMachine t [] false (replicate i Exited ++ replicate k Check) [] 0) =
  Some (mkMachine t [] false (replicate (i + k) Exited) [] 0).
Proof.
  revert i. induction k as [|k IH]; intros i; cbn [seq map run]; [rewrite app_nil_r, Nat.add_0_r; reflexivity|].
  unfold step. cbn [workers_]. rewrite lookup_app_r, length_replicate, Nat.sub_diag by (rewrite length_replicate; lia).
  cbn [replicate lookup list_lookup mbind option_bind work running_ queue_ completed todo timeouts_].
  rewrite insert_app_r_alt, length_replicate, Nat.sub_diag by (rewrite length_replicate; lia). cbn [insert list_insert].
  replace (replicate i Exited ++ Exited :: replicate k Check) with (replicate (S i) Exited ++ replicate k Check)
    by (rewrite replicate_S_end, <- app_assoc; reflexivity).
  rewrite IH. do 2 f_equal. f_equal. lia.
Qed.

Lemma all_enqueued (md : Mode) (rest : list Act) (ws : list Worker) (n i : nat) (q : list nat) :
  run md (replicate n Main) (mkMachine (map Enqueue (seq i n) ++ rest) q true ws [] 0) =
  Some (mkMachine rest (q ++ seq i n) true ws [] 0).
Proof.
  revert i q. induction n as [|n IH]; intros i q; cbn; [rewrite app_nil_r; reflexivity|].
  rewrite IH, <- app_assoc. reflexivity.
Qed.

Lemma exited_gone (k : nat) : forallb is_exited (replicate k Exited) = true.
Proof. induction k; [reflexivity|exact IHk]. Qed.

(** A worker that starts late: it serves every task. *)
Definition late (num_tasks : nat) : list Label :=
  [Main; Main] ++ replicate num_tasks Main ++ concat (replicate num_tasks [Step 0; Step 0; Step 0]).

Lemma served (t : list Act) (k i : nat) (q c : list nat) :
  run mode4 (concat (replicate k [Step 0; Step 0; Step 0])) (mkMachine t (seq i k ++ q) true [Check] c 0) =
  Some (mkMachine t q true [Check] (c ++ seq i k) 0).
Proof.
  revert i c. induction k as [|k IH]; intros i c; cbn [replicate concat seq]; [rewrite app_nil_r; reflexivity|].
  cbn. rewrite IH, <- app_assoc. reflexivity.
Qed.

(** The fourth scenario can run without serving a task: the constructor
    starts the workers while [running_] is still false, and a worker that looks
    before [run] sets it leaves for good.  When all do, for any number of
    workers and tasks, [run] waits its thirty seconds and reports every task as
    timed out; when a worker looks late enough all tasks are complete before
    the wait. *)
Theorem scenario4_can_starve (workers n : nat) :
  (exists s, run mode4 (early workers n) (machine (scenario4 workers n)) = Some s /\
     todo s = [] /\ completed s = [] /\ timeouts_ s = n /\ queue_ s = seq 0 n) /\
  (exists s, run mode4 (late n) (machine (scenario4 1 n)) = Some s /\
     todo s = [Await n; SetRunning false; JoinAll] /\ completed s = seq 0 n).
Proof.
  split.
  - unfold early, scenario4, machine. cbn [app run step todo act workers_ queue_ running_ completed timeouts_ mbind option_bind].
    rewrite run_app. pose proof (all_leave mode4 (SetRunning true :: map Enqueue (seq 0 n) ++ [Await n; SetRunning false; JoinAll])
      workers 0) as A. cbn [replicate app Nat.add] in A. rewrite A. cbn [mbind option_bind].
    replace (n + 4) with (1 + (n + 3)) by lia. cbn [replicate Nat.add run step todo act workers_ queue_ running_ completed
      timeouts_ mbind option_bind]. rewrite replicate_add, run_app, all_enqueued. cbn. rewrite exited_gone. cbn.
    rewrite Nat.sub_0_r. eauto 6.
  - unfold late, scenario4, machine. cbn [app run step todo act workers_ queue_ running_ completed timeouts_ mbind option_bind
      replicate]. rewrite run_app, all_enqueued. cbn [mbind option_bind app]. 
    pose proof (served [Await n; SetRunning false; JoinAll] n 0 [] []) as V. rewrite app_nil_r in V. rewrite V. eauto.
Qed.
