(* ===== verification/Perf4g.v ===== *)
(** * The performance scenarios of the 4G simulator

    [4g-simulator/src/perf/perf_scenarios.h]: five experiments, each with a
    slow variant and its repair.  The first, third and fourth are one shape, a
    producer that pushes [n] items on a queue and consumers that take them
    off, woken through a condition variable; they are instances of one
    transition system, in which [qmtx] is held across steps only by a consumer
    between its look at the predicate and its going to sleep ([Deciding]).
    The second counts under a lock or per thread, the fifth looks a Call-ID up
    by scanning texts or in an index.  Times and printed text are left out. *)

From Stdlib Require Import ZArith Lia.
From stdpp Require Import list gmap strings.
From S2P Require Import Prelude Text Strings.
#[local] Open Scope nat_scope.

(** ** Producer and consumers *)

Module Queue.

(** [n] items; the bound of the queue, if it has one; whether an idle consumer
    spins; how many consumers there are. *)
Record Config : Type := mkConfig { n_items : nat; max_q : option nat; spins : bool; pool_size : nat }.

Definition scenario1 (buggy : bool) (n : nat) : Config := mkConfig n None buggy 1.
Definition scenario3 (buggy : bool) (n : nat) : Config := mkConfig n (if buggy then None else Some 10) false 2.
Definition scenario4 (buggy : bool) (n : nat) : Config := mkConfig n None false (if buggy then 4 else 16).

Inductive Consumer : Set := Ready | Deciding | Asleep | Busy (v : nat) | Gone.

(** The producer: in its loop, waiting for room, between a push and
    [notify_one], waiting for [done] to reach [n], and closing down. *)
Inductive Producer : Set := Pushing | Blocked | Notifying | Draining | Stopped | Notified | Joined.

Record Scene : Type := mkScene {
  q : list nat;
  pushed : nat;
  producer : Producer;
  consumers : list Consumer;
  done : list nat;         (** the items done; the code counts them *)
  peak_depth : nat;
  wasted : nat
}.

Inductive Label : Set :=
| Push | Block | NotifyOne (c : option nat)
| Pop (c : nat) | Park (c : nat) | Sleep (c : nat) | Spin (c : nat) | Finish (c : nat) | Leave (c : nat) | Wake (c : nat)
| Stop | NotifyAll | Join.

Section Steps.
Context (cfg : Config).

(** The producer at the top of its loop. *)
Definition next_item (i : nat) : Producer := if i <? n_items cfg then Pushing else Draining.

Definition start : Scene := mkScene [] 0 (next_item 0) (replicate (pool_size cfg) Ready) [] 0 0.

Definition is_deciding (c : Consumer) : bool := match c with Deciding => true | _ => false end.
Definition is_asleep (c : Consumer) : bool := match c with Asleep => true | _ => false end.
Definition is_gone (c : Consumer) : bool := match c with Gone => true | _ => false end.
Definition unlocked (s : Scene) : bool := forallb (fun c => negb (is_deciding c)) (consumers s).
Definition stop (s : Scene) : bool := match producer s with Stopped | Notified | Joined => true | _ => false end.
Definition has_room (s : Scene) : bool := match max_q cfg with Some k => length (q s) <? k | None => true end.

Definition set_producer (p : Producer) (s : Scene) : Scene :=
  mkScene (q s) (pushed s) p (consumers s) (done s) (peak_depth s) (wasted s).
Definition set_consumer (c : nat) (k : Consumer) (s : Scene) : Scene :=
  mkScene (q s) (pushed s) (producer s) (<[c := k]> (consumers s)) (done s) (peak_depth s) (wasted s).

Definition push_item (s : Scene) : Scene :=
  mkScene (q s ++ [pushed s]) (S (pushed s)) Notifying (consumers s) (done s)
    (max (peak_depth s) (length (q s ++ [pushed s]))) (wasted s).

(** [q.pop()], and [not_full_cv.notify_one()]. *)
Definition pop_item (c v : nat) (r : list nat) (s : Scene) : Scene :=
  mkScene r (pushed s) (match producer s with Blocked => Pushing | p => p end) (<[c := Busy v]> (consumers s))
    (done s) (peak_depth s) (wasted s).

Definition finish_item (c v : nat) (s : Scene) : Scene :=
  mkScene (q s) (pushed s) (producer s) (<[c := Ready]> (consumers s)) (done s ++ [v]) (peak_depth s) (wasted s).
Definition spin (s : Scene) : Scene :=
  mkScene (q s) (pushed s) (producer s) (consumers s) (done s) (peak_depth s) (S (wasted s)).

Definition awaken (c : Consumer) : Consumer := match c with Asleep => Ready | _ => c end.
Definition wake_all (s : Scene) : Scene :=
  mkScene (q s) (pushed s) Notified (map awaken (consumers s)) (done s) (peak_depth s) (wasted s).

Definition guard (b : bool) (s : Scene) : option Scene := if b then Some s else None.

Definition step (l : Label) (s : Scene) : option Scene :=
  match l with
  | Push => match producer s with Pushing => guard (unlocked s && has_room s) (push_item s) | _ => None end
  | Block => match producer s with Pushing => guard (unlocked s && negb (has_room s)) (set_producer Blocked s) | _ => None end
  | NotifyOne None =>
      match producer s with
      | Notifying => guard (forallb (fun c => negb (is_asleep c)) (consumers s)) (set_producer (next_item (pushed s)) s)
      | _ => None
      end
  | NotifyOne (Some c) =>
      match producer s, consumers s !! c with
      | Notifying, Some Asleep => Some (set_consumer c Ready (set_producer (next_item (pushed s)) s))
      | _, _ => None
      end
  | Pop c =>
      match consumers s !! c, q s with
      | Some Ready, v :: r => guard (unlocked s) (pop_item c v r s)
      | _, _ => None
      end
  | Park c =>
      match consumers s !! c, q s with
      | Some Ready, [] => guard (unlocked s && negb (spins cfg) && negb (stop s)) (set_consumer c Deciding s)
      | _, _ => None
      end
  | Sleep c => match consumers s !! c with Some Deciding => Some (set_consumer c Asleep s) | _ => None end
  | Spin c =>
      match consumers s !! c, q s with
      | Some Ready, [] => guard (unlocked s && spins cfg && negb (stop s)) (spin s)
      | _, _ => None
      end
  | Finish c => match consumers s !! c with Some (Busy v) => Some (finish_item c v s) | _ => None end
  | Leave c =>
      match consumers s !! c, q s with
      | Some Ready, [] => guard (unlocked s && stop s) (set_consumer c Gone s)
      | _, _ => None
      end
  | Wake c => match consumers s !! c with Some Asleep => Some (set_consumer c Ready s) | _ => None end
  | Stop =>
      match producer s with
      | Draining => guard (n_items cfg <=? length (done s)) (set_producer Stopped s)
      | _ => None
      end
  | NotifyAll => match producer s with Stopped => Some (wake_all s) | _ => None end
  | Join => match producer s with Notified => guard (forallb is_gone (consumers s)) (set_producer Joined s) | _ => None end
  end.

Fixpoint run (ls : list Label) (s : Scene) : option Scene :=
  match ls with
  | [] => Some s
  | l :: ls' => match step l s with Some s' => run ls' s' | None => None end
  end.

End Steps.
End Queue.

(** ** Counting under a lock, or per thread *)

Module Counting.
#[local] Open Scope Z_scope.

Definition WORKERS : Z := 8.
Definition PER_WORKER (n : Z) : Z := n ÷ WORKERS.

Record Counters : Type := mkCounters { shared_counter : Z; local_counters : list Z }.

Definition counters0 : Counters := mkCounters 0 (repeat 0 (Z.to_nat WORKERS)).

(** One turn of a worker's loop; the lock makes it one step. *)
Definition turn (buggy : bool) (c : Counters) (w : nat) : Counters :=
  if buggy then mkCounters (shared_counter c + 1) (local_counters c)
  else mkCounters (shared_counter c) (alter (Z.add 1) w (local_counters c)).

(** The turns of all workers in some order, then the merge. *)
Definition scenario2 (buggy : bool) (turns : list nat) : Z :=
  let c := fold_left (turn buggy) turns counters0 in
  if buggy then shared_counter c else fold_left Z.add (local_counters c) (shared_counter c).

(** An order in which every worker does its turns. *)
Definition all_turns (n : Z) (turns : list nat) : Prop :=
  Forall (fun w => Z.of_nat w < WORKERS) turns /\
  forall w, Z.of_nat w < WORKERS -> Z.of_nat (count_occ Nat.eq_dec turns w) = PER_WORKER n.

End Counting.

(** ** Looking a Call-ID up: scanning texts, or in an index *)

Module Lookup.
#[local] Open Scope Z_scope.

Definition TABLE_SIZE : nat := 500.

Record Dialog : Type := mkDialog { call_id : bytes; state : Z }.

Definition dialog_id (i : nat) : bytes := str "call-" ++ to_string (Z.of_nat i) ++ str "@ims.local".
Definition table0 : list Dialog := map (fun i => mkDialog (dialog_id i) 0) (seq 0 TABLE_SIZE).

Definition index_of (table : list Dialog) : gmap bytes nat :=
  fold_left (fun m i => match table !! i with Some d => <[call_id d := i]> m | None => m end)
    (seq 0 (length table)) ∅.

Definition body_of (m : nat) : bytes :=
  str "INVITE sip:bob@ims.local SIP/2.0" ++ [13; 10] ++ str "Call-ID: call-"
  ++ to_string (Z.of_nat (m mod TABLE_SIZE)) ++ str "@ims.local" ++ [13; 10].
Definition body_buf (m : nat) : bytes :=
  str "call-" ++ to_string (Z.of_nat (m mod TABLE_SIZE)) ++ str "@ims.local".

Record Table : Type := mkTable { dialogs : list Dialog; hits : Z }.

Definition bump (d : Dialog) : Dialog := mkDialog (call_id d) (state d + 1).
Definition hit (i : nat) (t : Table) : Table := mkTable (alter bump i (dialogs t)) (hits t + 1).

(** The first dialog whose Call-ID occurs in the text. *)
Fixpoint scan (body : bytes) (ds : list Dialog) : option nat :=
  match ds with
  | [] => None
  | d :: ds' => if contains (call_id d) body then Some 0%nat else S <$> scan body ds'
  end.

Definition scan_message (t : Table) (m : nat) : Table :=
  match scan (body_of m) (dialogs t) with Some i => hit i t | None => t end.
Definition find_message (index : gmap bytes nat) (t : Table) (m : nat) : Table :=
  match index !! body_buf m with Some i => hit i t | None => t end.

Definition scenario5 (buggy : bool) (n : nat) : Table :=
  let t := mkTable table0 0 in
  if buggy then fold_left scan_message (seq 0 n) t
  else fold_left (find_message (index_of table0)) (seq 0 n) t.

End Lookup.

(** ** The dispatcher *)

Module Dispatch.
#[local] Open Scope Z_scope.

(** The scenario that [run] starts, and with which size. *)
Definition perf_run (scenario n : Z) : option (Z * Z) :=
  let size d := if 0 <? n then n else d in
  match scenario with
  | 1 => Some (1, size 3000)
  | 2 => Some (2, size 8000)
  | 3 => Some (3, size 60)
  | 4 => Some (4, size 24)
  | 5 => Some (5, size 100000)
  | _ => None
  end.

End Dispatch.

(** ** Lemmas and properties: producer and consumers *)

Module QueueFacts.
Import Queue.

Definition item_of (c : Consumer) : option nat := match c with Busy v => Some v | _ => None end.
Definition busy (cs : list Consumer) : list nat := omap item_of cs.
Definition attentive (c : Consumer) : bool := match c with Ready | Busy _ => true | _ => false end.

#[local] Arguments busy : simpl never.

Section Facts.
Context (cfg : Config) (Hroom : max_q cfg <> Some 0).

Record scene_ok (s : Scene) : Prop := {
  ok_size : length (consumers s) = pool_size cfg;
  ok_items : done s ++ busy (consumers s) ++ q s ≡ₚ seq 0 (pushed s);
  ok_count : match producer s with
             | Pushing | Blocked => pushed s < n_items cfg
             | Notifying => pushed s <= n_items cfg
             | _ => pushed s = n_items cfg
             end;
  ok_deciding : unlocked s = false -> q s = [];
  ok_awake : q s <> [] -> producer s = Notifying \/ existsb attentive (consumers s) = true;
  ok_gone : existsb is_gone (consumers s) = true -> stop s = true;
  ok_blocked : producer s = Blocked -> q s <> [];
  ok_cap : forall k, max_q cfg = Some k -> length (q s) <= k /\ peak_depth s <= k;
  ok_stop : stop s = true -> n_items cfg <= length (done s)
}.

Lemma existsb_replicate {A} (f : A -> bool) (n : nat) (x : A) : f x = false -> existsb f (replicate n x) = false.
Proof. intros H. induction n; cbn; [reflexivity|]. rewrite H. exact IHn. Qed.

Lemma busy_ready (n : nat) : busy (replicate n Ready) = [].
Proof. unfold busy. induction n; [reflexivity|exact IHn]. Qed.

Lemma next_item_count (i : nat) :
  i <= n_items cfg ->
  match next_item cfg i with
  | Pushing | Blocked => i < n_items cfg
  | Notifying => i <= n_items cfg
  | _ => i = n_items cfg
  end.
Proof. unfold next_item. destruct (Nat.ltb_spec i (n_items cfg)); lia. Qed.

Lemma next_item_open (i : nat) (s : Scene) : stop (set_producer (next_item cfg i) s) = false.
Proof. unfold next_item. destruct (i <? n_items cfg); reflexivity. Qed.

Lemma scene_start_ok : scene_ok (start cfg).
Proof.
  pose proof (next_item_open 0 (start cfg)) as Hs. constructor; cbn.
  - apply length_replicate.
  - rewrite busy_ready. reflexivity.
  - apply next_item_count. lia.
  - reflexivity.
  - contradiction.
  - rewrite existsb_replicate by reflexivity. discriminate.
  - unfold next_item. destruct (0 <? n_items cfg); discriminate.
  - intros k _. lia.
  - unfold stop in *. cbn in *. rewrite Hs. discriminate.
Qed.

(** *** One consumer moves, holding nothing before and after *)

Lemma busy_move (cs : list Consumer) (c : nat) (k k' : Consumer) :
  cs !! c = Some k -> item_of k = None -> item_of k' = None -> busy (<[c := k']> cs) ≡ₚ busy cs.
Proof. intros E H H'. pose proof (omap_insert item_of cs c k k' E) as R. rewrite H, H' in R. exact R. Qed.

Lemma scene_deciding_locks (c : nat) (s : Scene) : consumers s !! c = Some Deciding -> unlocked s = false.
Proof.
  intros E. destruct (unlocked s) eqn:U; [|reflexivity].
  pose proof (forallb_lookup _ _ _ _ U E). discriminate.
Qed.

Lemma unlocked_move (c : nat) (k : Consumer) (s : Scene) (p : Producer) :
  is_deciding k = false -> unlocked (set_consumer c k (set_producer p s)) = false -> unlocked s = false.
Proof.
  intros Hk H. destruct (unlocked s) eqn:U; [|reflexivity]. unfold unlocked in *. cbn in H.
  rewrite forallb_insert in H; [discriminate| |exact U]. rewrite Hk. reflexivity.
Qed.

Lemma scene_ok_move (s : Scene) (c : nat) (k k' : Consumer) :
  scene_ok s -> consumers s !! c = Some k -> item_of k = None -> item_of k' = None ->
  (is_deciding k' = true -> q s = []) -> (q s <> [] -> attentive k = true -> attentive k' = true) ->
  (is_gone k' = true -> stop s = true) ->
  scene_ok (set_consumer c k' s).
Proof.
  intros [H1 H2 H3 H4 H5 H6 H7 H8 H9] E I I' D A G. constructor; cbn; try assumption.
  - rewrite length_insert. exact H1.
  - rewrite (busy_move _ _ _ _ E I I'). exact H2.
  - intros U. destruct (is_deciding k') eqn:K; [exact (D eq_refl)|]. exact (H4 (unlocked_move c k' s (producer s) K U)).
  - intros Hq. destruct (H5 Hq) as [P|P]; [left; exact P|right].
    destruct (attentive k) eqn:K; [apply (existsb_moved _ _ _ k); auto|apply (existsb_keep _ _ _ k); assumption].
  - intros X. destruct (is_gone k') eqn:K; [exact (G eq_refl)|]. exact (H6 (existsb_insert _ _ _ _ K X)).
Qed.

(** *** The steps *)

Lemma ok_push (s : Scene) : scene_ok s -> producer s = Pushing -> unlocked s = true -> has_room cfg s = true -> scene_ok (push_item s).
Proof.
  intros [H1 H2 H3 H4 H5 H6 H7 H8 H9] P U R. rewrite P in H3. constructor; cbn -[seq]; try assumption.
  - rewrite !app_assoc, <- (app_assoc (done s)), H2, seq_S. reflexivity.
  - unfold unlocked in *. cbn. congruence.
  - auto.
  - intros X. specialize (H6 X). unfold stop in H6. rewrite P in H6. discriminate.
  - discriminate.
  - intros k Hk. specialize (H8 k Hk). unfold has_room in R. rewrite Hk in R. apply Nat.ltb_lt in R.
    rewrite length_app. cbn. lia.
  - discriminate.
Qed.

Lemma ok_producer (s : Scene) (p : Producer) :
  scene_ok s ->
  match p with Pushing | Blocked => pushed s < n_items cfg | Notifying => pushed s <= n_items cfg | _ => pushed s = n_items cfg end ->
  (q s <> [] -> p = Notifying \/ existsb attentive (consumers s) = true) ->
  (p = Blocked -> q s <> []) -> (stop s = true -> stop (set_producer p s) = true) ->
  (stop (set_producer p s) = true -> n_items cfg <= length (done s)) ->
  scene_ok (set_producer p s).
Proof. intros [H1 H2 H3 H4 H5 H6 H7 H8 H9] A B C D F. constructor; cbn; auto. Qed.

(** When nobody sleeps or has left, somebody will look at the queue. *)
Lemma scene_awake_attentive (cs : list Consumer) :
  cs <> [] -> forallb (fun c => negb (is_asleep c)) cs = true -> existsb is_gone cs = false ->
  forallb (fun c => negb (is_deciding c)) cs = true -> existsb attentive cs = true.
Proof. destruct cs as [|[] cs]; cbn; intros; auto; discriminate. Qed.

Lemma ok_pop (s : Scene) (c v : nat) (r : list nat) :
  scene_ok s -> consumers s !! c = Some Ready -> q s = v :: r -> scene_ok (pop_item c v r s).
Proof.
  intros [H1 H2 H3 H4 H5 H6 H7 H8 H9] E Q. pose proof (omap_insert item_of _ c _ (Busy v) E) as B. cbn in B.
  constructor; cbn.
  - rewrite length_insert. exact H1.
  - unfold busy. rewrite B, <- H2, Q. unfold busy. solve_Permutation.
  - destruct (producer s); exact H3.
  - intros U. assert (q s = []); [|congruence]. apply H4.
    exact (unlocked_move c (Busy v) s (producer s) eq_refl U).
  - intros _. right. apply (existsb_moved _ _ _ Ready); auto.
  - intros X. apply existsb_insert in X; [|reflexivity]. specialize (H6 X). unfold stop in *. cbn.
    destruct (producer s); auto.
  - destruct (producer s); discriminate.
  - intros k Hk. specialize (H8 k Hk). rewrite Q in H8. cbn in H8. lia.
  - intros X. apply H9. unfold stop in *. cbn in X. destruct (producer s); auto.
Qed.

Lemma scene_ok_finish (s : Scene) (c v : nat) :
  scene_ok s -> consumers s !! c = Some (Busy v) -> scene_ok (finish_item c v s).
Proof.
  intros [H1 H2 H3 H4 H5 H6 H7 H8 H9] E. pose proof (omap_insert item_of _ c _ Ready E) as B. cbn in B.
  constructor; cbn; try assumption.
  - rewrite length_insert. exact H1.
  - rewrite <- H2, <- app_assoc. cbn. apply Permutation_app_head. change (v :: busy (<[c:=Ready]> (consumers s)) ++ q s)
      with ((v :: busy (<[c:=Ready]> (consumers s))) ++ q s). rewrite B. reflexivity.
  - intros U. apply H4. exact (unlocked_move c Ready s (producer s) eq_refl U).
  - intros _. right. apply (existsb_moved _ _ _ (Busy v)); auto.
  - intros X. apply H6. exact (existsb_insert _ _ _ _ eq_refl X).
  - intros X. specialize (H9 X). rewrite length_app. lia.
Qed.

Lemma awaken_busy (cs : list Consumer) : busy (map awaken cs) = busy cs.
Proof. unfold busy. induction cs as [|[] cs IH]; cbn; rewrite ?IH; reflexivity. Qed.

Lemma awaken_tests (cs : list Consumer) :
  existsb is_deciding (map awaken cs) = existsb is_deciding cs /\ existsb is_gone (map awaken cs) = existsb is_gone cs /\
  (existsb attentive cs = true -> existsb attentive (map awaken cs) = true).
Proof. induction cs as [|[] cs (A & B & C)]; cbn; rewrite ?A, ?B; auto. Qed.

Lemma unlocked_exists (s : Scene) : unlocked s = negb (existsb is_deciding (consumers s)).
Proof. unfold unlocked. induction (consumers s) as [|[] cs IH]; cbn; rewrite ?IH; reflexivity. Qed.

Lemma ok_wake_all (s : Scene) : scene_ok s -> producer s = Stopped -> scene_ok (wake_all s).
Proof.
  intros [H1 H2 H3 H4 H5 H6 H7 H8 H9] P. destruct (awaken_tests (consumers s)) as (A & B & C).
  assert (S0 : stop s = true) by (unfold stop; rewrite P; reflexivity).
  constructor; cbn; try assumption.
  - rewrite length_map. exact H1.
  - rewrite awaken_busy. exact H2.
  - rewrite P in H3. exact H3.
  - change (unlocked (wake_all s) = false -> q s = []). rewrite unlocked_exists. cbn [consumers wake_all]. rewrite A, <- (unlocked_exists s). exact H4.
  - intros Hq. right. destruct (H5 Hq) as [X|X]; [congruence|exact (C X)].
  - reflexivity.
  - discriminate.
  - intros _. exact (H9 S0).
Qed.

(** After [notify_one] found nobody to wake. *)
Lemma scene_ok_notify_none (s : Scene) :
  0 < pool_size cfg -> scene_ok s -> producer s = Notifying ->
  forallb (fun c => negb (is_asleep c)) (consumers s) = true ->
  scene_ok (set_producer (next_item cfg (pushed s)) s).
Proof.
  intros Hp H P N. pose proof H as [H1 _ H3 H4 _ H6 _ _ _]. rewrite P in H3.
  apply ok_producer; [exact H|exact (next_item_count _ H3)| | | |].
  - intros Hq. right. apply scene_awake_attentive; [|exact N| |].
    + intros E. rewrite E in H1. cbn in H1. lia.
    + destruct (existsb is_gone (consumers s)); [|reflexivity]. specialize (H6 eq_refl).
      unfold stop in H6. rewrite P in H6. discriminate.
    + destruct (unlocked s) eqn:U; [exact U|]. contradiction (Hq (H4 eq_refl)).
  - unfold next_item. destruct (_ <? _); discriminate.
  - unfold stop at 1. rewrite P. discriminate.
  - rewrite next_item_open. discriminate.
Qed.

(** After [notify_one] woke a consumer. *)
Lemma ok_notify_some (s : Scene) (c : nat) :
  scene_ok s -> producer s = Notifying -> consumers s !! c = Some Asleep ->
  scene_ok (set_consumer c Ready (set_producer (next_item cfg (pushed s)) s)).
Proof.
  intros H P E.
  assert (W : scene_ok (set_consumer c Ready s)) by (apply (scene_ok_move s c Asleep); cbn; auto; discriminate).
  pose proof H as [_ _ H3 _ _ _ _ _ _]. rewrite P in H3.
  change (scene_ok (set_producer (next_item cfg (pushed s)) (set_consumer c Ready s))).
  apply ok_producer; [exact W|exact (next_item_count _ H3)| | | |].
  - intros _. right. apply (existsb_moved _ _ _ Asleep); auto.
  - unfold next_item. destruct (_ <? _); discriminate.
  - unfold stop at 1. cbn. rewrite P. discriminate.
  - change (stop (set_producer (next_item cfg (pushed s)) s) = true -> n_items cfg <= length (done s)).
    rewrite next_item_open. discriminate.
Qed.

Lemma guard_Some (b : bool) (s s' : Scene) : guard b s = Some s' -> b = true /\ s' = s.
Proof. destruct b; [|discriminate]. intros [= <-]. auto. Qed.

#[local] Ltac moved s c k := apply (scene_ok_move s c k); cbn; auto; intros; try discriminate; congruence.

Lemma scene_ok_step (l : Label) (s s' : Scene) :
  0 < pool_size cfg -> scene_ok s -> step cfg l s = Some s' -> scene_ok s'.
Proof.
  intros Hp H E. destruct l as [| |[c|]|c|c|c|c|c|c|c| | |]; cbn [step] in E.
  - destruct (producer s) eqn:P; try discriminate. apply guard_Some in E as [[U R]%andb_true_iff ->].
    exact (ok_push s H P U R).
  - destruct (producer s) eqn:P; try discriminate. apply guard_Some in E as [[U R]%andb_true_iff ->].
    apply negb_true_iff in R. pose proof H as [_ _ H3 _ H5 _ _ _ _]. rewrite P in H3.
    assert (Q : q s <> []).
    { unfold has_room in R. destruct (max_q cfg) as [k|] eqn:K; [|discriminate]. apply Nat.ltb_ge in R.
      intros Q. rewrite Q in R. destruct k; [contradiction|cbn in R; lia]. }
    apply ok_producer; [exact H|exact H3| |auto|unfold stop at 1; rewrite P; discriminate|discriminate].
    intros _. destruct (H5 Q) as [X|X]; [congruence|auto].
  - destruct (producer s) eqn:P; try discriminate. destruct (consumers s !! c) as [[]|] eqn:Ec; try discriminate.
    injection E as <-. exact (ok_notify_some s c H P Ec).
  - destruct (producer s) eqn:P; try discriminate. apply guard_Some in E as [N ->]. exact (scene_ok_notify_none s Hp H P N).
  - destruct (consumers s !! c) as [[]|] eqn:Ec; try discriminate. destruct (q s) as [|v r] eqn:Q; [discriminate|].
    apply guard_Some in E as [_ ->]. exact (ok_pop s c v r H Ec Q).
  - destruct (consumers s !! c) as [[]|] eqn:Ec; try discriminate. destruct (q s) eqn:Q; [|discriminate].
    apply guard_Some in E as [_ ->]. moved s c Ready.
  - destruct (consumers s !! c) as [[]|] eqn:Ec; try discriminate. injection E as <-.
    moved s c Deciding.
  - destruct (consumers s !! c) as [[]|] eqn:Ec; try discriminate. destruct (q s) eqn:Q; [|discriminate].
    apply guard_Some in E as [_ ->]. destruct H; constructor; assumption.
  - destruct (consumers s !! c) as [[]|] eqn:Ec; try discriminate. injection E as <-. exact (scene_ok_finish s c v H Ec).
  - destruct (consumers s !! c) as [[]|] eqn:Ec; try discriminate. destruct (q s) eqn:Q; [|discriminate].
    apply guard_Some in E as [[_ S0]%andb_true_iff ->]. moved s c Ready.
  - destruct (consumers s !! c) as [[]|] eqn:Ec; try discriminate. injection E as <-.
    moved s c Asleep.
  - destruct (producer s) eqn:P; try discriminate. apply guard_Some in E as [L%Nat.leb_le ->].
    pose proof H as [_ _ H3 _ H5 _ _ _ _]. rewrite P in H3.
    apply ok_producer; [exact H|exact H3| |discriminate|auto|auto]. intros Q. destruct (H5 Q) as [X|X]; [congruence|auto].
  - destruct (producer s) eqn:P; try discriminate. injection E as <-. exact (ok_wake_all s H P).
  - destruct (producer s) eqn:P; try discriminate. apply guard_Some in E as [_ ->].
    pose proof H as [_ _ H3 _ H5 _ _ _ H9]. rewrite P in H3. unfold stop in H9. rewrite P in H9.
    apply ok_producer; [exact H|exact H3| |discriminate|auto|auto]. intros Q. destruct (H5 Q) as [X|X]; [congruence|auto].
Qed.

Lemma ok_run (ls : list Label) (s s' : Scene) :
  0 < pool_size cfg -> scene_ok s -> run cfg ls s = Some s' -> scene_ok s'.
Proof.
  intros Hp. revert s. induction ls as [|l ls IH]; intros s H E; cbn in E; [injection E as <-; exact H|].
  destruct (step cfg l s) as [t|] eqn:Et; [|discriminate]. exact (IH t (scene_ok_step l s t Hp H Et) E).
Qed.

(** *** Something can always be done *)

(** Steps that are not an idle turn or a spurious wake-up. *)
Definition working (l : Label) : bool := match l with Spin _ | Wake _ => false | _ => true end.
Definition can_work (s : Scene) : Prop := exists l s', working l = true /\ step cfg l s = Some s'.

Lemma existsb_found (f : Consumer -> bool) (cs : list Consumer) :
  existsb f cs = true -> exists c k, cs !! c = Some k /\ f k = true.
Proof.
  intros H. apply existsb_exists in H as (k & Hin & Hf). apply list_elem_of_In, list_elem_of_lookup in Hin as [c E].
  eauto.
Qed.

Lemma attentive_works (s : Scene) (c : nat) (k : Consumer) :
  unlocked s = true -> consumers s !! c = Some k -> attentive k = true -> q s <> [] \/ stop s = true -> can_work s.
Proof.
  intros U E A H. destruct k; try discriminate A.
  - destruct (q s) as [|v r] eqn:Q.
    + destruct H as [H|H]; [contradiction|]. exists (Leave c). cbn. rewrite E, Q, U, H. cbn. eauto.
    + exists (Pop c). cbn. rewrite E, Q, U. cbn. eauto.
  - exists (Finish c). cbn. rewrite E. eauto.
Qed.

Lemma busy_works (s : Scene) : busy (consumers s) <> [] -> can_work s.
Proof.
  intros H. destruct (busy (consumers s)) as [|v r] eqn:B; [contradiction|].
  assert (Hv : v ∈ busy (consumers s)) by (rewrite B; constructor).
  apply list_elem_of_omap in Hv as (k & Hin & Hk). apply list_elem_of_lookup in Hin as [c Ec].
  destruct k; try discriminate. exists (Finish c). cbn. rewrite Ec. eauto.
Qed.

(** The queue is not empty, and no wake-up is on its way. *)
Lemma waiting_works (s : Scene) :
  scene_ok s -> unlocked s = true -> q s <> [] -> producer s <> Notifying -> can_work s.
Proof.
  intros H U Q P. destruct (ok_awake _ H Q) as [X|X]; [contradiction|].
  apply existsb_found in X as (c & k & E & A). exact (attentive_works s c k U E A (or_introl Q)).
Qed.

Lemma works_or_ends (s : Scene) :
  scene_ok s ->
  can_work s \/ producer s = Joined \/ (producer s = Notified /\ existsb is_asleep (consumers s) = true).
Proof.
  intros H. destruct (unlocked s) eqn:U.
  2:{ left. rewrite unlocked_exists in U. apply negb_false_iff, existsb_found in U as (c & [] & E & K); try discriminate.
      exists (Sleep c). cbn. rewrite E. eauto. }
  destruct (producer s) eqn:P; [| | | | | |auto].
  - left. destruct (has_room cfg s) eqn:R; [exists Push|exists Block]; cbn; rewrite P, U, R; cbn; eauto.
  - left. apply waiting_works; [exact H|exact U|exact (ok_blocked _ H P)|congruence].
  - left. destruct (existsb is_asleep (consumers s)) eqn:A.
    + apply existsb_found in A as (c & [] & E & K); try discriminate. exists (NotifyOne (Some c)). cbn. rewrite P, E. eauto.
    + exists (NotifyOne None). cbn. rewrite P.
      replace (forallb _ (consumers s)) with true; [cbn; eauto|].
      symmetry. revert A. induction (consumers s) as [|[] cs IH]; cbn; auto.
  - left. destruct (n_items cfg <=? length (done s)) eqn:L; [exists Stop; cbn; rewrite P, L; cbn; eauto|].
    apply Nat.leb_gt in L. pose proof (ok_count _ H) as C. rewrite P in C.
    destruct (decide (busy (consumers s) = [])) as [B|B]; [|exact (busy_works s B)].
    apply waiting_works; [exact H|exact U| |congruence]. intros Q.
    pose proof (Permutation_length (ok_items _ H)) as K. rewrite B, Q, !length_app, length_seq in K. cbn in K. lia.
  - left. exists NotifyAll. cbn. rewrite P. eauto.
  - destruct (existsb is_asleep (consumers s)) eqn:A; [auto|]. left.
    destruct (forallb is_gone (consumers s)) eqn:G; [exists Join; cbn; rewrite P, G; cbn; eauto|].
    assert (X : existsb attentive (consumers s) = true).
    { rewrite unlocked_exists in U. apply negb_true_iff in U. revert A G U.
      induction (consumers s) as [|[] cs IH]; cbn; auto; discriminate. }
    apply existsb_found in X as (c & k & E & K). apply (attentive_works s c k U E K). right. unfold stop. rewrite P.
    reflexivity.
Qed.

(** *** Runs end *)

Definition weight (c : Consumer) : nat := match c with Busy _ => 3 | Ready => 2 | Deciding => 1 | Asleep | Gone => 0 end.
Definition weights (cs : list Consumer) : nat := sum_list (map weight cs).
#[local] Arguments weights : simpl never.

Definition producer_weight (p : Producer) : nat :=
  let d := 2 * pool_size cfg + 3 in
  match p with
  | Pushing => d + 1 | Blocked => d | Notifying => d + 4 | Draining => d | Stopped => d - 1 | Notified => 1 | Joined => 0
  end.

Definition measure (s : Scene) : nat :=
  7 * (n_items cfg - pushed s) + 3 * length (q s) + weights (consumers s) + producer_weight (producer s).

Lemma scene_weights_insert (cs : list Consumer) (c : nat) (k k' : Consumer) :
  cs !! c = Some k -> weights (<[c := k']> cs) + weight k = weights cs + weight k'.
Proof. exact (sum_insert weight cs c k k'). Qed.

Lemma scene_weights_awaken (cs : list Consumer) : weights (map awaken cs) <= weights cs + 2 * length cs.
Proof. unfold weights. induction cs as [|[] cs IH]; cbn in *; lia. Qed.

Definition bonus (l : Label) : nat := match l with Wake _ => 2 | _ => 0 end.
Definition cost (l : Label) : nat := if working l then 1 else 0.

Lemma step_measure (l : Label) (s s' : Scene) :
  scene_ok s -> step cfg l s = Some s' -> measure s' + cost l <= measure s + bonus l.
Proof.
  intros H E. pose proof (ok_count _ H) as C. pose proof (ok_size _ H) as Z. unfold measure, producer_weight.
  assert (Nx : forall i, next_item cfg i = Pushing \/ next_item cfg i = Draining)
    by (intros i; unfold next_item; destruct (i <? n_items cfg); auto).
  destruct l as [| |[c|]|c|c|c|c|c|c|c| | |]; cbn [step] in E.
  5-11: destruct (consumers s !! c) as [[]|] eqn:Ec; try discriminate.
  3: destruct (producer s) eqn:P; try discriminate; destruct (consumers s !! c) as [[]|] eqn:Ec; try discriminate.
  1,2,4,12,13,14: destruct (producer s) eqn:P; try discriminate.
  all: try (destruct (q s) eqn:Q; try discriminate).
  all: try (apply guard_Some in E as [Eg ->]).
  all: try (injection E as <-).
  all: cbn [measure producer pushed q consumers set_consumer set_producer push_item pop_item finish_item spin wake_all
            cost bonus working weight length] in *; rewrite ?length_app, ?P, ?Q; cbn [length].
  all: try (match goal with |- context [<[?c := ?k]> (consumers _)] => pose proof (scene_weights_insert _ c _ k Ec) as W end); cbn [weight] in *.
  all: pose proof (scene_weights_awaken (consumers s)).
  all: try (destruct (Nx (pushed s)) as [-> | ->]); try (destruct (producer s); lia); lia.
Qed.

Definition total (f : Label -> nat) (ls : list Label) : nat := sum_list (map f ls).

Lemma run_measure (ls : list Label) (s s' : Scene) :
  0 < pool_size cfg -> scene_ok s -> run cfg ls s = Some s' ->
  measure s' + total cost ls <= measure s + total bonus ls.
Proof.
  intros Hp. revert s. induction ls as [|l ls IH]; intros s H E; cbn in E; [injection E as <-; rewrite !Nat.add_0_r; reflexivity|].
  destruct (step cfg l s) as [t|] eqn:Et; [|discriminate].
  pose proof (step_measure l s t H Et). specialize (IH t (scene_ok_step l s t Hp H Et) E).
  change (measure s' + (cost l + total cost ls) <= measure s + (bonus l + total bonus ls)). lia.
Qed.

Lemma start_measure : measure (start cfg) <= 7 * n_items cfg + 4 * pool_size cfg + 4.
Proof.
  unfold measure, start. cbn. unfold next_item, producer_weight, weights.
  replace (sum_list (map weight (replicate (pool_size cfg) Ready))) with (2 * pool_size cfg)
    by (induction (pool_size cfg); cbn in *; lia).
  destruct (0 <? n_items cfg); lia.
Qed.

End Facts.

(** Whatever way the threads of scenarios 1, 3 and 4 are interleaved, every
    item is in one place at any time and the queue never exceeds its bound;
    the number of steps that are neither idle turns nor spurious wake-ups is
    bounded; and where no such step is possible all [n] items are done and
    the threads are joined, unless a consumer sleeps through the shutdown. *)
Theorem scenes_complete (cfg : Config) (ls : list Label) (s : Scene)
  (Hroom : max_q cfg <> Some 0) (Hp : 0 < pool_size cfg) (E : run cfg ls (start cfg) = Some s) :
  done s ++ busy (consumers s) ++ q s ≡ₚ seq 0 (pushed s) /\
  (forall k, max_q cfg = Some k -> peak_depth s <= k) /\
  total cost ls <= 7 * n_items cfg + 4 * pool_size cfg + 4 + total bonus ls /\
  ((forall l, working l = true -> step cfg l s = None) ->
   done s ≡ₚ seq 0 (n_items cfg) /\
   (producer s = Joined \/ (producer s = Notified /\ existsb is_asleep (consumers s) = true))).
Proof.
  pose proof (ok_run cfg Hroom ls _ s Hp (scene_start_ok cfg) E) as H. split; [exact (ok_items _ _ H)|].
  split; [intros k Hk; apply (ok_cap _ _ H k Hk)|]. split.
  - pose proof (run_measure cfg Hroom ls _ s Hp (scene_start_ok cfg) E). pose proof (start_measure cfg). lia.
  - intros N. destruct (works_or_ends cfg s H) as [(l & s' & W & X) | D]; [rewrite N in X by exact W; discriminate|].
    split; [|exact D]. assert (S0 : stop s = true) by (unfold stop; destruct D as [-> | [-> _]]; reflexivity).
    pose proof (ok_stop _ _ H S0) as L. pose proof (ok_items _ _ H) as I. pose proof (ok_count _ _ H) as C.
    assert (K : pushed s = n_items cfg) by (destruct D as [D|[D _]]; rewrite D in C; exact C). rewrite K in I.
    pose proof (Permutation_length I) as Q. rewrite !length_app, length_seq in Q.
    destruct (busy (consumers s)); [|cbn in Q; lia]. destruct (q s); [|cbn in Q; lia]. rewrite !app_nil_r in I. exact I.
Qed.

(** The steps of a pool of two that do one item each and leave. *)
Definition two_items : list Label :=
  [Push; NotifyOne None; Pop 0; Park 1; Sleep 1; Push; NotifyOne (Some 1); Pop 1; Finish 0; Finish 1;
   Stop; NotifyAll; Leave 0; Leave 1; Join].

Lemma scenes_complete_witness :
  exists s, run (scenario3 false 2) two_items (start (scenario3 false 2)) = Some s /\ peak_depth s <= 10 /\
    done s ≡ₚ [0; 1] /\ producer s = Joined.
Proof.
  destruct (run (scenario3 false 2) two_items (start (scenario3 false 2))) as [s|] eqn:E;
    [|exfalso; revert E; vm_compute; discriminate].
  assert (J : producer s = Joined /\ consumers s = [Gone; Gone]) by (revert E; vm_compute; intros [= <-]; auto).
  destruct J as [J G].
  destruct (scenes_complete (scenario3 false 2) two_items s ltac:(cbn; discriminate) ltac:(cbn; lia) E) as (_ & P & _ & D).
  exists s. split; [reflexivity|]. split; [exact (P 10 eq_refl)|]. split; [|exact J].
  apply D. intros l. destruct l as [| |[[|[|c]]|]|c|c|c|c|c|c|c| | |]; cbn [step working]; rewrite ?J, ?G; try reflexivity.
  all: try (destruct c as [|[|c]]; reflexivity). all: discriminate.
Defined.

(** A consumer that found the queue empty goes to sleep after the only
    [notify_all]. *)
Definition unlucky : list Label :=
  [Push; NotifyOne None; Pop 0; Finish 0; Park 0; Stop; NotifyAll; Sleep 0].

(** The shutdown can hang: [stop] is set and [notify_all] called without
    the mutex, so a consumer between its look at the predicate and its going
    to sleep misses both; all items are done, no thread can do anything more
    and [join] does not return. *)
Theorem perf_can_hang :
  exists s, run (scenario1 false 1) unlucky (start (scenario1 false 1)) = Some s /\
    done s = [0] /\ producer s = Notified /\ forall l, working l = true -> step (scenario1 false 1) l s = None.
Proof.
  destruct (run (scenario1 false 1) unlucky (start (scenario1 false 1))) as [s|] eqn:E;
    [|exfalso; revert E; vm_compute; discriminate].
  vm_compute in E. injection E as <-. eexists. split; [reflexivity|]. split; [reflexivity|]. split; [reflexivity|].
  intros l W. destruct l as [| |[[|c]|]|[|c]|[|c]|[|c]|[|c]|[|c]|[|c]|[|c]| | |]; try reflexivity; discriminate W.
Qed.

(** *** Without a bound the queue takes everything *)

Lemma pushes (n i : nat) (s : Scene) :
  producer s = next_item (mkConfig n None false 2) (pushed s) -> consumers s = [Ready; Ready] -> pushed s + i <= n ->
  length (q s) = pushed s ->
  exists s', run (mkConfig n None false 2) (concat (replicate i [Push; NotifyOne None])) s = Some s' /\
    consumers s' = [Ready; Ready] /\ pushed s' = pushed s + i /\
    (0 < i -> peak_depth s' = max (peak_depth s) (pushed s + i)).
Proof.
  revert s. induction i as [|i IH]; intros s P C L Q; [exists s; rewrite Nat.add_0_r; repeat split; auto; lia|].
  assert (P' : producer s = Pushing).
  { assert (T : (pushed s <? n) = true) by (apply Nat.ltb_lt; lia). rewrite P. unfold next_item. cbn [n_items].
    rewrite T. reflexivity. }
  cbn [replicate concat app run step]. rewrite P'. unfold unlocked. rewrite C. cbn [forallb guard has_room max_q is_deciding negb andb].
  cbn [producer push_item consumers]. rewrite C. cbn [forallb guard is_asleep negb andb pushed push_item].
  destruct (IH (set_producer (next_item (mkConfig n None false 2) (S (pushed s))) (push_item s))) as (s' & E & C' & K & D);
    cbn [producer set_producer pushed push_item consumers q]; auto; [lia|rewrite length_app; cbn; lia|].
  exists s'. split; [exact E|]. split; [exact C'|]. cbn in K, D. split; [lia|]. intros _.
  rewrite length_app in D. cbn in D. destruct i as [|i]; [|specialize (D ltac:(lia)); lia].
  injection E as <-. cbn. rewrite length_app. cbn. lia.
Qed.

(** Scenario 3 without its bound: the queue can hold all [n] items. *)
Lemma unbounded_grows (n : nat) :
  0 < n -> exists ls s, run (scenario3 true n) ls (start (scenario3 true n)) = Some s /\ peak_depth s = n.
Proof.
  intros Hn. destruct (pushes n n (start (scenario3 true n)) eq_refl eq_refl (le_n n) eq_refl) as (s & E & _ & _ & D).
  eexists _, s. split; [exact E|]. rewrite D by exact Hn. cbn. lia.
Qed.

End QueueFacts.

(** ** Lemmas and properties: counting *)

Module CountingFacts.
Import Counting.
#[local] Open Scope Z_scope.

Lemma shared_turns (turns : list nat) (c : Counters) :
  shared_counter (fold_left (turn true) turns c) = shared_counter c + Z.of_nat (length turns) /\
  shared_counter (fold_left (turn false) turns c) = shared_counter c.
Proof.
  revert c. induction turns as [|w turns IH]; intros c; cbn [fold_left length]; [lia|].
  destruct (IH (turn true c w)) as [A _]. destruct (IH (turn false c w)) as [_ B]. rewrite A, B. cbn. lia.
Qed.

Lemma local_turns (turns : list nat) (c : Counters) :
  length (local_counters (fold_left (turn false) turns c)) = length (local_counters c) /\
  forall w x, local_counters c !! w = Some x ->
    local_counters (fold_left (turn false) turns c) !! w = Some (x + Z.of_nat (count_occ Nat.eq_dec turns w)).
Proof.
  revert c. induction turns as [|v turns IH]; intros c; cbn [fold_left count_occ];
    [split; [reflexivity|intros w x ->; f_equal; lia]|].
  destruct (IH (turn false c v)) as [L N]. cbn in L. rewrite length_alter in L. split; [exact L|].
  intros w x E. destruct (Nat.eq_dec v w) as [-> | Hne].
  - rewrite (N w (1 + x)); [f_equal; lia|]. cbn. rewrite list_lookup_alter_eq, E. reflexivity.
  - apply N. cbn. rewrite list_lookup_alter_ne by congruence. exact E.
Qed.

Lemma sum_const (l : list Z) (x s : Z) :
  (forall i, (i < length l)%nat -> l !! i = Some x) -> fold_left Z.add l s = s + Z.of_nat (length l) * x.
Proof.
  revert s. induction l as [|y l IH]; intros s H; cbn [fold_left length]; [lia|].
  pose proof (H 0%nat ltac:(cbn; lia)) as [= ->]. rewrite IH; [lia|]. intros i Hi. apply (H (S i)). cbn. lia.
Qed.

(** Each worker's turns, counted. *)
Lemma local_total (n : Z) (turns : list nat) :
  all_turns n turns -> scenario2 false turns = WORKERS * PER_WORKER n.
Proof.
  intros [_ H]. unfold scenario2. destruct (shared_turns turns counters0) as [_ ->].
  destruct (local_turns turns counters0) as [L N]. change (length (local_counters counters0)) with 8%nat in L.
  rewrite (sum_const _ (PER_WORKER n)); [rewrite L; reflexivity|]. rewrite L. intros i Hi.
  rewrite (N i 0); [rewrite H by (unfold WORKERS; lia); reflexivity|].
  do 8 (destruct i as [|i]; [reflexivity|]). lia.
Qed.

Lemma sum_alter (l : list Z) (w : nat) :
  (w < length l)%nat -> fold_left Z.add (alter (Z.add 1) w l) 0 = 1 + fold_left Z.add l 0.
Proof.
  assert (S : forall l s, fold_left Z.add l s = s + fold_left Z.add l 0).
  { clear. induction l as [|x l IH]; intros s; cbn [fold_left]; [lia|].
    rewrite (IH (s + x)), (IH (0 + x)). lia. }
  revert w. induction l as [|x l IH]; intros [|w] H; cbn in H; [lia..| |].
  - change (alter (Z.add 1) 0%nat (x :: l)) with (1 + x :: l). cbn [fold_left]. rewrite S, (S l (0 + x)).
    lia.
  - change (alter (Z.add 1) (Datatypes.S w) (x :: l)) with (x :: alter (Z.add 1) w l). cbn [fold_left].
    rewrite S, IH, (S l (0 + x)) by lia. lia.
Qed.

(** Any turns of the eight workers are all counted per thread. *)
Lemma local_sum (turns : list nat) (c : Counters) :
  Forall (fun w => (w < length (local_counters c))%nat) turns ->
  fold_left Z.add (local_counters (fold_left (turn false) turns c)) 0 =
  fold_left Z.add (local_counters c) 0 + Z.of_nat (length turns).
Proof.
  revert c. induction turns as [|w turns IH]; intros c H; cbn [fold_left length]; [lia|].
  inversion_clear H as [|? ? Hw Hr]. rewrite IH; cbn [turn local_counters].
  - rewrite sum_alter by exact Hw. lia.
  - rewrite length_alter. exact Hr.
Qed.

(** Counting under the lock and counting per thread give the same total,
    for any order in which the eight workers take their turns: every turn is
    counted, [8 * (n / 8)] of them, so that up to seven of the [n] operations
    asked for are never done. *)
Theorem counts_agree (n : Z) (turns : list nat) (H : all_turns n turns) :
  scenario2 true turns = scenario2 false turns /\ scenario2 true turns = WORKERS * PER_WORKER n /\
  (0 <= n -> n - 7 <= scenario2 true turns <= n).
Proof.
  pose proof (local_total n turns H) as L. destruct H as [H _].
  assert (E : scenario2 true turns = scenario2 false turns).
  { unfold scenario2. destruct (shared_turns turns counters0) as [-> ->]. rewrite local_sum; [reflexivity|].
    eapply List.Forall_impl; [|exact H].
    intros w Hw. change (w < 8)%nat. unfold WORKERS in Hw. lia. }
  split; [exact E|]. split; [congruence|]. intros Hn. rewrite E, L. unfold PER_WORKER, WORKERS.
  rewrite Z.quot_div_nonneg by lia. pose proof (Z.div_mod n 8). pose proof (Z.mod_pos_bound n 8). lia.
Qed.

Lemma counts_agree_witness :
  all_turns 11 [3; 1; 0; 2; 7; 6; 5; 4]%nat /\ scenario2 true [3; 1; 0; 2; 7; 6; 5; 4]%nat = 8.
Proof.
  assert (H : all_turns 11 [3; 1; 0; 2; 7; 6; 5; 4]%nat).
  { split; [repeat constructor|]. intros w Hw. unfold WORKERS in Hw.
    do 8 (destruct w as [|w]; [reflexivity|]). lia. }
  split; [exact H|]. apply (counts_agree 11 _ H).
Defined.

End CountingFacts.

(** ** Lemmas and properties: looking up *)

Module LookupFacts.
Import Lookup.
#[local] Open Scope Z_scope.

Definition ids (ds : list Dialog) : list bytes := map call_id ds.

Lemma ids_bump (i : nat) (ds : list Dialog) : ids (alter bump i ds) = ids ds.
Proof.
  unfold ids. revert i. induction ds as [|d ds IH]; intros [|i]; cbn; try reflexivity. f_equal. apply IH.
Qed.

Lemma scan_ids (body : bytes) (ds es : list Dialog) : ids ds = ids es -> scan body ds = scan body es.
Proof.
  revert es. induction ds as [|d ds IH]; intros [|e es] H; try discriminate; [reflexivity|].
  injection H as Hd Hs. cbn. rewrite Hd, (IH es Hs). reflexivity.
Qed.

(** *** The scan *)

(** A number and what follows it begin a text with another number only when
    they are the same. *)
Lemma digits_prefix (ds es r t : bytes) :
  all_digits ds -> all_digits es -> prefixb (ds ++ 64 :: r) (es ++ 64 :: t) = true -> ds = es.
Proof.
  intros Hd. revert es. induction Hd as [|d ds Hd _ IH]; intros es He H; destruct es as [|e es]; [reflexivity|..].
  - inversion_clear He as [|? ? Hx _]. cbn [prefixb app] in H. destruct (Z.eqb_spec 64 e) as [<-|]; [discriminate Hx|discriminate H].
  - cbn [prefixb app] in H. destruct (Z.eqb_spec d 64) as [-> |]; [discriminate Hd|discriminate H].
  - inversion_clear He as [|? ? Hx He']. cbn [prefixb app] in H. destruct (Z.eqb_spec d e) as [-> |]; [|discriminate H].
    f_equal. exact (IH es He' H).
Qed.

(** No place in a number begins with a letter. *)
Lemma skip_digits (ds r t : bytes) :
  all_digits ds -> contains (99 :: r) (ds ++ t) = contains (99 :: r) t.
Proof.
  intros H. apply contains_skip_app. eapply List.Forall_impl; [|exact H]. cbn. intros x Hx ->. discriminate Hx.
Qed.

Lemma numbers_differ (i k : nat) : to_string (Z.of_nat i) = to_string (Z.of_nat k) -> i = k.
Proof. intros H. apply to_string_inj in H; lia. Qed.

(** In a text without a second [call-] the needle is found at the first. *)
Definition before_id : bytes := str "INVITE sip:bob@ims.local SIP/2.0" ++ [13; 10] ++ str "Call-ID: ".
Definition after_id : bytes := str "@ims.local" ++ [13; 10].

Lemma body_parts (m : nat) :
  body_of m = before_id ++ 99 :: str "all-" ++ to_string (Z.of_nat (m mod TABLE_SIZE)) ++ after_id.
Proof. reflexivity. Qed.

Lemma skip_before (r t : bytes) : contains (99 :: 97 :: 108 :: 108 :: r) (before_id ++ t) = contains (99 :: 97 :: 108 :: 108 :: r) t.
Proof.
  change before_id with (take 21 before_id ++ 99 :: drop 22 before_id). rewrite <- app_assoc. cbn [app].
  rewrite contains_skip_app by (repeat constructor; discriminate). rewrite contains_cons, contains_skip_app
    by (repeat constructor; discriminate). reflexivity.
Qed.

Lemma none_after (r : bytes) : contains (99 :: 97 :: 108 :: 108 :: r) after_id = false.
Proof.
  change after_id with (take 7 after_id ++ 99 :: drop 8 after_id ++ []).
  rewrite contains_skip_app by (repeat constructor; discriminate). rewrite contains_cons, contains_skip_app
    by (repeat constructor; discriminate). reflexivity.
Qed.

(** A Call-ID occurs in a message exactly when it is the message's. *)
Lemma contains_id (i m : nat) : contains (dialog_id i) (body_of m) = bool_decide (i = (m mod TABLE_SIZE)%nat).
Proof.
  unfold dialog_id. rewrite body_parts. set (k := (m mod TABLE_SIZE)%nat).
  change (str "call-") with [99; 97; 108; 108; 45]. cbn [app].
  pose proof (to_string_digits (Z.of_nat i) ltac:(lia)) as Di. pose proof (to_string_digits (Z.of_nat k) ltac:(lia)) as Dk.
  rewrite skip_before, contains_cons. change (str "all-") with [97; 108; 108; 45].
  rewrite (contains_skip_app 99 _ [97; 108; 108; 45]) by (repeat constructor; discriminate).
  rewrite (skip_digits _ _ _ Dk), none_after, orb_false_r. cbn [app prefixb Z.eqb Pos.eqb andb].
  apply Bool.eq_iff_eq_true. rewrite bool_decide_eq_true. split.
  - intros H. apply numbers_differ. exact (digits_prefix _ _ _ _ Di Dk H).
  - intros ->. unfold after_id. rewrite app_assoc. apply prefixb_app.
Qed.

(** Scanning the table of the first dialogs from [a] on. *)
Lemma scan_from (m a len : nat) :
  (a <= m mod TABLE_SIZE < a + len)%nat ->
  scan (body_of m) (map (fun i => mkDialog (dialog_id i) 0) (seq a len)) = Some (m mod TABLE_SIZE - a)%nat.
Proof.
  revert a. induction len as [|len IH]; intros a H; [lia|]. cbn [seq map scan]. cbn [call_id]. rewrite contains_id.
  case_bool_decide as E; [rewrite E, Nat.sub_diag; reflexivity|]. rewrite IH by lia. cbn [fmap option_fmap option_map]. f_equal. lia.
Qed.

Lemma scan_table0 (m : nat) : scan (body_of m) table0 = Some (m mod TABLE_SIZE)%nat.
Proof.
  unfold table0. rewrite scan_from; [rewrite Nat.sub_0_r; reflexivity|].
  pose proof (Nat.mod_upper_bound m TABLE_SIZE ltac:(discriminate)). lia.
Qed.

(** *** The index *)

Lemma index_table0 (m : nat) : index_of table0 !! body_buf m = Some (m mod TABLE_SIZE)%nat.
Proof.
  assert (L : forall i, (i < TABLE_SIZE)%nat -> table0 !! i = Some (mkDialog (dialog_id i) 0)).
  { intros i Hi. unfold table0. rewrite list_lookup_fmap, lookup_seq_lt by exact Hi. reflexivity. }
  assert (K : forall n, (n <= TABLE_SIZE)%nat -> forall k, (k < n)%nat ->
    fold_left (fun m i => match table0 !! i with Some d => <[call_id d := i]> m | None => m end) (seq 0 n)
      (∅ : gmap bytes nat) !! dialog_id k = Some k).
  { induction n as [|n IH]; intros Hn k Hk; [lia|]. rewrite seq_S, fold_left_app. cbn [fold_left].
    rewrite Nat.add_0_l, (L n) by lia. cbn [call_id]. destruct (decide (k = n)) as [-> | Hne]; [apply lookup_insert_eq|].
    rewrite lookup_insert_ne; [apply IH; lia|]. unfold dialog_id. intros E. apply app_inv_head, app_inv_tail in E.
    apply numbers_differ in E. congruence. }
  apply (K (length table0)).
  - unfold table0. rewrite length_map, length_seq. reflexivity.
  - unfold table0. rewrite length_map, length_seq. apply Nat.mod_upper_bound. discriminate.
Qed.

(** *** Both variants *)

Definition expected (n : nat) : Table := fold_left (fun t m => hit (m mod TABLE_SIZE)%nat t) (seq 0 n) (mkTable table0 0).

Lemma expected_ids (n : nat) : ids (dialogs (expected n)) = ids table0 /\ hits (expected n) = Z.of_nat n.
Proof.
  induction n as [|n [I J]]; [split; reflexivity|]. unfold expected in *. rewrite seq_S, fold_left_app. cbn [fold_left].
  cbn [hit dialogs hits]. rewrite ids_bump, J. split; [exact I|lia].
Qed.

(** The hits of each dialog: the messages with its number. *)
Definition messages_for (i n : nat) : nat := length (filter (fun m => (m mod TABLE_SIZE)%nat = i) (seq 0 n)).

Lemma expected_states (n i : nat) :
  (i < TABLE_SIZE)%nat -> dialogs (expected n) !! i = Some (mkDialog (dialog_id i) (Z.of_nat (messages_for i n))).
Proof.
  intros Hi. induction n as [|n IH].
  - unfold expected, messages_for. cbn [seq fold_left dialogs filter]. unfold table0.
    rewrite list_lookup_fmap, lookup_seq_lt by exact Hi. reflexivity.
  - unfold expected, messages_for in *. rewrite seq_S, fold_left_app, list.filter_app, length_app. cbn [fold_left hit dialogs].
    rewrite Nat.add_0_l, list.filter_cons. destruct (decide (n mod TABLE_SIZE = i)%nat) as [E|E].
    + rewrite E, list_lookup_alter_eq, IH. cbn. f_equal. unfold bump. cbn. f_equal. lia.
    + rewrite list_lookup_alter_ne by exact E. rewrite IH. cbn. do 2 f_equal. lia.
Qed.

(** Scanning the texts and looking up in the index do the same, for any
    number of messages: every message is a hit, and the state of a dialog is
    the number of messages with its Call-ID. *)
Theorem scan_equals_index (n : nat) :
  scenario5 true n = scenario5 false n /\ hits (scenario5 true n) = Z.of_nat n /\
  forall i, (i < TABLE_SIZE)%nat ->
    dialogs (scenario5 true n) !! i = Some (mkDialog (dialog_id i) (Z.of_nat (messages_for i n))).
Proof.
  assert (A : scenario5 true n = expected n).
  { unfold scenario5. induction n as [|n IH]; [reflexivity|]. unfold expected in *. rewrite seq_S, !fold_left_app, IH.
    cbn [fold_left]. unfold scan_message at 1. rewrite (scan_ids _ _ table0), scan_table0; [reflexivity|].
    apply expected_ids. }
  assert (B : scenario5 false n = expected n).
  { unfold scenario5. clear A. induction n as [|n IH]; [reflexivity|]. unfold expected in *.
    rewrite seq_S, !fold_left_app, IH. cbn [fold_left]. unfold find_message at 1. rewrite index_table0. reflexivity. }
  rewrite A, B. split; [reflexivity|]. split; [apply expected_ids|]. intros i Hi. exact (expected_states n i Hi).
Qed.

End LookupFacts.
