(* ===== verification/DpdkReal.v ===== *)
(** * The fast path on the real DPDK library

    [5g-simulator/src/upf_fastpath/dpdk_compat.h] and [upf_dpdk_real.cpp] as
    they are built with [ENABLE_DPDK]: the loop of the core that polls the
    network card, the hash table, the set-up of the card and the program's
    start.  The library itself is a parameter: what [rte_eth_rx_burst] hands
    out is an argument of the loop, the hash table is a class with the
    documented behaviour of [rte_hash] as its laws, and the start is given what
    each call returns.  The rules and the counters are those of [Fastpath].
    A packet buffer is an address and its bytes; a buffer the program holds may
    be freed once. *)

From Stdlib Require Import ZArith Lia.
From stdpp Require Import list gmap strings.
From S2P Require Import Prelude Text Strings Ring Fastpath.
#[local] Open Scope Z_scope.

(** ** The polling loop *)

Record Lcore : Type := mkLcore { l_mbufs : gmap nat bytes; l_stats : PathStats }.

Abbreviation L := (M Lcore).

Definition BURST : nat := 32.
Definition TEID_OFFSET : nat := 46.

(** [rte_pktmbuf_free]. *)
Definition pktmbuf_free (m : nat) : L unit := fun s =>
  match l_mbufs s !! m with
  | Some _ => Ok (tt, mkLcore (delete m (l_mbufs s)) (l_stats s))
  | None => Undefined
  end.

(** The bytes of a buffer: [rte_pktmbuf_mtod] and [rte_pktmbuf_data_len]. *)
Definition mtod (m : nat) : L bytes := fun s =>
  match l_mbufs s !! m with Some d => Ok (d, s) | None => Undefined end.
Definition data_len (d : bytes) : Z := u16 (Z.of_nat (length d)).

Definition stat (f : PathStats -> PathStats) : L unit := fun s => Ok (tt, mkLcore (l_mbufs s) (f (l_stats s))).

(** One byte of the frame; [None] reads past its end. *)
Definition byte_at (d : bytes) (i : nat) : L Z := fun s =>
  match d !! i with Some b => Ok (b, s) | None => Undefined end.

Definition read_teid (d : bytes) : L Z :=
  b0 ← byte_at d TEID_OFFSET;
  b1 ← byte_at d (TEID_OFFSET + 1);
  b2 ← byte_at d (TEID_OFFSET + 2);
  b3 ← byte_at d (TEID_OFFSET + 3);
  mret (Z.lor (Z.lor (Z.lor (Z.shiftl b0 24) (Z.shiftl b1 16)) (Z.shiftl b2 8)) b3).

Definition uplink (teid now : Z) : Packet :=
  {| p_teid := teid; p_ue_ip := 0; p_dscp := 0; p_payload_len := 0; p_arrival_ns := now; p_qfi := 0;
     p_pdr_id := 0; p_far_id := 0; p_classified := false; p_dropped := false; p_seq := 0; p_dir := UL |}.

(** The body of the loop of [real_lcore_fn]; [later] is the clock when the
    latency is recorded. *)
Definition lcore_mbuf (rules : RuleTable) (now later : Z) (m : nat) : L unit :=
  d ← mtod m;
  if data_len d <? Z.of_nat (TEID_OFFSET + 4) then
    pktmbuf_free m;;
    stat (count count_dropped)
  else
    teid ← read_teid d;
    match match_pdr rules (uplink teid now) with
    | None => stat (count count_no_pdr);; stat (count count_dropped);; pktmbuf_free m
    | Some pdr =>
        match option_map far_action (get_far rules (pdr_far_id pdr)) with
        | None | Some DROP => stat (count count_dropped);; pktmbuf_free m
        | Some _ =>
            stat (count count_forwarded);;
            stat (record_latency now later);;
            pktmbuf_free m
        end
    end.

(** One turn of the loop: whether [running] was still set, what the card
    handed out, and the clock. *)
Record Turn : Type := mkTurn { t_running : bool; t_burst : list (nat * bytes); t_now : Z; t_later : nat -> Z }.

(** [rte_eth_rx_burst]: the buffers are the program's from now on. *)
Definition rx_burst (b : list (nat * bytes)) : L (list nat) := fun s =>
  Ok (map fst b, mkLcore (list_to_map b ∪ l_mbufs s) (l_stats s)).

Fixpoint lcore_mbufs (rules : RuleTable) (now : Z) (later : nat -> Z) (ms : list nat) : L unit :=
  match ms with
  | [] => mret tt
  | m :: ms' => lcore_mbuf rules now (later (length ms')) m;; lcore_mbufs rules now later ms'
  end.

Fixpoint real_lcore_fn (rules : RuleTable) (turns : list Turn) : L unit :=
  match turns with
  | [] => fun _ => Waiting
  | t :: turns' =>
      if t_running t then
        ms ← rx_burst (t_burst t);
        lcore_mbufs rules (t_now t) (t_later t) ms;;
        real_lcore_fn rules turns'
      else mret tt
  end.

(** ** The hash table *)

Class RteHash (T : Type) : Type := {
  hash_add_key_data : Z -> Z -> T -> Z * T;
  hash_lookup_data : Z -> T -> Z * Z;       (** what it returns, and [*data] *)
  hash_del_key : Z -> T -> Z * T
}.

Section HashTable.
Context {T : Type} `{RteHash T}.

Definition table_add (key value : Z) (ht : T) : T := (hash_add_key_data key value ht).2.
Definition table_del (key : Z) (ht : T) : T := (hash_del_key key ht).2.

Definition i32 (v : Z) : Z := let w := u32 v in if w <? 2 ^ 31 then w else w - 2 ^ 32.

Definition table_lookup (key : Z) (ht : T) : Z :=
  let '(ret, val) := hash_lookup_data key ht in if 0 <=? ret then i32 val else - 1.

End HashTable.

(** ** The program *)

Record AppArgs : Type := mkArgs { num_ues : Z; duration : Z; port_id : Z; lcore_id : Z }.
Definition default_args : AppArgs := mkArgs 100 10 0 1.

(** [atoi]: the value of a number that is too large is undefined. *)
Definition atoi (s : bytes) : res Z :=
  let '(neg, l1) := scan_sign (skip_spaces s) in
  let '(v, _, _) := scan_digits l1 0 0 in
  let v := if neg then - v else v in
  if (- 2 ^ 31 <=? v) && (v <? 2 ^ 31) then Ok v else Undefined.

Definition set_arg (name : bytes) (v : Z) (a : AppArgs) : option AppArgs :=
  if bool_decide (name = str "--ues") then Some (mkArgs (u32 v) (duration a) (port_id a) (lcore_id a))
  else if bool_decide (name = str "--duration") then Some (mkArgs (num_ues a) v (port_id a) (lcore_id a))
  else if bool_decide (name = str "--port") then Some (mkArgs (num_ues a) (duration a) (u16 v) (lcore_id a))
  else if bool_decide (name = str "--lcore") then Some (mkArgs (num_ues a) (duration a) (port_id a) (u32 v))
  else None.

Definition known_arg (name : bytes) : bool :=
  bool_decide (name ∈ [str "--ues"; str "--duration"; str "--port"; str "--lcore"]).

(** The loop from an argument on. *)
Fixpoint parse_from (fuel : nat) (argv : list bytes) (a : AppArgs) : res AppArgs :=
  match fuel, argv with
  | S fuel, name :: value :: rest =>
      if known_arg name then
        v ← atoi value;
        parse_from fuel rest (default a (set_arg name v a))
      else parse_from fuel (value :: rest) a
  | _, _ => Ok a
  end.

Definition parse_app_args (argv : list bytes) : res AppArgs :=
  parse_from (length argv) (tail argv) default_args.

(** What the library is asked to do, and what it answers. *)
Inductive Call : Type :=
| EalInit | PoolCreate | DevConfigure (port : Z) | RxQueue (port : Z) | TxQueue (port : Z) | DevStart (port : Z)
| Promiscuous (port : Z) | BuildRules (n : Z) | RemoteLaunch (lcore : Z) | WaitLcores | DevStop (port : Z)
| DevClose (port : Z) | EalCleanup.

Record Env : Type := mkEnv {
  eal_init : Z;                 (** arguments consumed, or negative *)
  pool_created : bool;
  dev_configure : Z; rx_queue_setup : Z; tx_queue_setup : Z; dev_start : Z;
  lcore_is_enabled : Z -> bool;
  remote_launch : Z
}.

(** The calls made, and the exit status when the program stops early. *)
Definition P (A : Type) : Type := list Call * (A + Z).
Definition p_ret {A} (a : A) : P A := ([], inl a).
Definition p_bind {A B} (m : P A) (k : A -> P B) : P B :=
  match m with
  | (cs, inl a) => let (ds, r) := k a in (cs ++ ds, r)
  | (cs, inr e) => (cs, inr e)
  end.
Definition call (c : Call) : P unit := ([c], inl tt).
Definition exit_unless (ok : bool) : P unit := if ok then p_ret tt else ([], inr 1).

Definition then_ {A} (m : P unit) (k : P A) : P A := p_bind m (fun _ => k).

Definition steps (l : list (Call * bool)) : P unit :=
  fold_right (fun x k => then_ (call x.1) (then_ (exit_unless x.2) k)) (p_ret tt) l.

(** [RealNicConfig::configure]. *)
Definition configure (e : Env) (port : Z) : P unit :=
  steps [(DevConfigure port, 0 <=? dev_configure e); (RxQueue port, 0 <=? rx_queue_setup e);
         (TxQueue port, 0 <=? tx_queue_setup e); (DevStart port, 0 <=? dev_start e); (Promiscuous port, true)].

Definition launch_real_lcore (e : Env) (lcore : Z) : P unit :=
  then_ (exit_unless (lcore_is_enabled e lcore)) (steps [(RemoteLaunch lcore, remote_launch e =? 0)]).

(** [main], once the arguments are read. *)
Definition dpdk_main (e : Env) (a : AppArgs) : P unit :=
  then_ (steps [(EalInit, 0 <=? eal_init e); (PoolCreate, pool_created e)])
 (then_ (configure e (port_id a))
 (then_ (call (BuildRules (num_ues a)))
 (then_ (launch_real_lcore e (lcore_id a))
        (steps [(WaitLcores, true); (DevStop (port_id a), true); (DevClose (port_id a), true); (EalCleanup, true)])))).

Definition exit_status (m : P unit) : Z := match m.2 with inl _ => 0 | inr e => e end.

(** ** Lemmas and properties: the polling loop *)

(** The TEID in a frame, and what the loop counts for the frame. *)
Definition teid_of (d : bytes) : Z :=
  from_le32 (nth 49 d 0) (nth 48 d 0) (nth 47 d 0) (nth 46 d 0).
Definition long_enough (d : bytes) : bool := Z.of_nat (TEID_OFFSET + 4) <=? data_len d.
Definition frame_tally (rules : RuleTable) (c : Counters) (d : bytes) : Counters :=
  if long_enough d then tally_one rules c (uplink (teid_of d) 0) else count_dropped c.

Lemma byte_at_nth (d : bytes) (i : nat) (s : Lcore) :
  (i < length d)%nat -> byte_at d i s = Ok (nth i d 0, s).
Proof.
  intros H. unfold byte_at. destruct (nth_lookup_or_length d i 0) as [-> | L]; [reflexivity|lia].
Qed.

Lemma long_length (d : bytes) : long_enough d = true -> (50 <= length d)%nat.
Proof.
  unfold long_enough, data_len, TEID_OFFSET. intros H%Z.leb_le. unfold u16, wrap in H.
  pose proof (Z.mod_le (Z.of_nat (length d)) (2 ^ 16)). lia.
Qed.

Lemma read_teid_ok (d : bytes) (s : Lcore) : long_enough d = true -> read_teid d s = Ok (teid_of d, s).
Proof.
  intros H%long_length. unfold read_teid, TEID_OFFSET.
  rewrite (M_bind_Ok _ _ _ _ _ (byte_at_nth d 46 s ltac:(lia))), (M_bind_Ok _ _ _ _ _ (byte_at_nth d 47 s ltac:(lia))),
    (M_bind_Ok _ _ _ _ _ (byte_at_nth d 48 s ltac:(lia))), (M_bind_Ok _ _ _ _ _ (byte_at_nth d 49 s ltac:(lia))).
  unfold teid_of, from_le32.
  rewrite M_ret_eq. do 2 f_equal. rewrite Z.lor_comm. rewrite <- !Z.lor_assoc. f_equal.
  rewrite !Z.lor_assoc, (Z.lor_comm (Z.lor _ _) (Z.shiftl _ 8)), <- !Z.lor_assoc. f_equal. apply Z.lor_comm.
Qed.

Section Loop.
Context (rules : RuleTable).

Definition frees (m : nat) (d : bytes) (s s' : Lcore) : Prop :=
  l_mbufs s' = delete m (l_mbufs s) /\ counters (l_stats s') = frame_tally rules (counters (l_stats s)) d.

Lemma record_counters (a n : Z) (st : PathStats) : counters (record_latency a n st) = counters st.
Proof. unfold record_latency. destruct (n <=? a); reflexivity. Qed.

Lemma stat_bind {A} (f : PathStats -> PathStats) (k : L A) (s : Lcore) :
  (stat f;; k) s = k (mkLcore (l_mbufs s) (f (l_stats s))).
Proof. reflexivity. Qed.

Lemma mbuf_freed (m : nat) (d : bytes) (s : Lcore) :
  l_mbufs s !! m = Some d -> pktmbuf_free m s = Ok (tt, mkLcore (delete m (l_mbufs s)) (l_stats s)).
Proof. intros E. unfold pktmbuf_free. rewrite E. reflexivity. Qed.

(** Each buffer is freed once, and its frame counted. *)
Lemma lcore_mbuf_ok (now later : Z) (m : nat) (d : bytes) (s : Lcore) :
  l_mbufs s !! m = Some d -> exists s', lcore_mbuf rules now later m s = Ok (tt, s') /\ frees m d s s'.
Proof.
  intros E. unfold lcore_mbuf, frees, frame_tally.
  rewrite (M_bind_Ok _ _ s s d) by (unfold mtod; rewrite E; reflexivity).
  destruct (long_enough d) eqn:G; unfold long_enough in G.
  - apply Z.leb_le in G. rewrite (proj2 (Z.ltb_ge _ _) G).
    rewrite (M_bind_Ok _ _ _ _ _ (read_teid_ok d s (proj2 (Z.leb_le _ _) G))).
    unfold tally_one. change (match_pdr rules (uplink (teid_of d) now)) with (match_pdr rules (uplink (teid_of d) 0)).
    destruct (match_pdr rules _) as [pdr|]; [destruct (option_map far_action _) as [[]|]|];
      rewrite !stat_bind, (mbuf_freed m d) by exact E; (eexists; split; [reflexivity|]);
      cbn; rewrite ?record_counters; auto.
  - apply Z.leb_gt in G. rewrite (proj2 (Z.ltb_lt _ _) G), (M_bind_Ok _ _ _ _ _ (mbuf_freed m d s E)).
    eexists. split; [reflexivity|]. auto.
Qed.

Lemma lcore_mbufs_ok (now : Z) (later : nat -> Z) (b : list (nat * bytes)) (s : Lcore) (rest : gmap nat bytes) :
  NoDup (map fst b) -> l_mbufs s = list_to_map b ∪ rest -> (forall m, m ∈ map fst b -> rest !! m = None) ->
  exists s', lcore_mbufs rules now later (map fst b) s = Ok (tt, s') /\ l_mbufs s' = rest /\
    counters (l_stats s') = fold_left (frame_tally rules) (map snd b) (counters (l_stats s)).
Proof.
  revert s. induction b as [|[m d] b IH]; intros s Hd Hm Hr; cbn [map lcore_mbufs fold_left fst snd] in *.
  - exists s. rewrite Hm. cbn. rewrite (left_id_L ∅ (∪)). auto.
  - inversion_clear Hd as [|? ? Hn Hd'].
    destruct (lcore_mbuf_ok now (later (length (map fst b))) m d s) as (s1 & E1 & F1 & C1).
    { rewrite Hm. apply lookup_union_Some_l. cbn. apply lookup_insert_eq. }
    destruct (IH s1 Hd') as (s2 & E2 & F2 & C2).
    { rewrite F1, Hm. cbn. rewrite delete_union, delete_insert_id, (delete_id rest); [reflexivity| |].
      - apply Hr. constructor.
      - apply not_elem_of_list_to_map_1. exact Hn. }
    { intros x Hx. apply Hr. constructor. exact Hx. }
    exists s2. rewrite (M_bind_Ok _ _ _ _ _ E1), E2, C2, C1. auto.
Qed.

(** The buffers of a turn are the card's until then. *)
Definition fresh_turn (held : gmap nat bytes) (t : Turn) : Prop :=
  NoDup (map fst (t_burst t)) /\ forall m, m ∈ map fst (t_burst t) -> held !! m = None.

Definition frames (ts : list Turn) : list bytes := flat_map (fun t => map snd (t_burst t)) ts.

Lemma lcore_runs (ts : list Turn) (last : Turn) (rest : list Turn) (s : Lcore) :
  Forall (fun t => t_running t = true /\ fresh_turn (l_mbufs s) t) ts -> t_running last = false ->
  exists s', real_lcore_fn rules (ts ++ last :: rest) s = Ok (tt, s') /\ l_mbufs s' = l_mbufs s /\
    counters (l_stats s') = fold_left (frame_tally rules) (frames ts) (counters (l_stats s)).
Proof.
  intros H Hl. revert s H. induction ts as [|t ts IH]; intros s H; cbn [app real_lcore_fn frames flat_map].
  - rewrite Hl. exists s. auto.
  - inversion_clear H as [|? ? [Ht [Hd Hf]] Hr]. rewrite Ht. unfold rx_burst.
    rewrite (M_bind_Ok _ _ s _ _ eq_refl).
    destruct (lcore_mbufs_ok (t_now t) (t_later t) (t_burst t) (mkLcore (list_to_map (t_burst t) ∪ l_mbufs s) (l_stats s))
                (l_mbufs s) Hd eq_refl Hf) as (s1 & E1 & F1 & C1).
    rewrite (M_bind_Ok _ _ _ _ _ E1). destruct (IH s1) as (s2 & E2 & F2 & C2); [rewrite F1; exact Hr|].
    exists s2. rewrite E2, F2, F1, C2, C1, fold_left_app. auto.
Qed.

End Loop.

(** *** Counting *)

Lemma tally_no_rx (rules : RuleTable) (ds : list bytes) (c : Counters) :
  pkts_rx (fold_left (frame_tally rules) ds c) = pkts_rx c.
Proof.
  revert c. induction ds as [|d ds IH]; intros c; [reflexivity|]. cbn. rewrite IH. unfold frame_tally, tally_one.
  destruct (long_enough d); [|reflexivity]. destruct (match_pdr _ _); [|reflexivity].
  destruct (option_map _ _) as [[]|]; reflexivity.
Qed.

Lemma tally_sum (rules : RuleTable) (ds : list bytes) (c : Counters) :
  let c' := fold_left (frame_tally rules) ds c in
  u64 (pkts_forwarded c' + pkts_dropped c') = u64 (pkts_forwarded c + pkts_dropped c + Z.of_nat (length ds)).
Proof.
  revert c. induction ds as [|d ds IH]; intros c c'; [subst c'; cbn; f_equal; lia|]. subst c'. cbn [fold_left length].
  rewrite IH. assert (E : u64 (pkts_forwarded (frame_tally rules c d) + pkts_dropped (frame_tally rules c d)) =
                          u64 (pkts_forwarded c + pkts_dropped c + 1)).
  { assert (A : forall x y, u64 (u64 (x + 1) + y) = u64 (x + y + 1))
      by (intros; unfold u64, wrap; rewrite Z.add_mod_idemp_l by discriminate; f_equal; lia).
    assert (B : forall x y, u64 (x + u64 (y + 1)) = u64 (x + y + 1))
      by (intros; unfold u64, wrap; rewrite Z.add_mod_idemp_r by discriminate; f_equal; lia).
    unfold frame_tally, tally_one. destruct (long_enough d); [|apply B]. destruct (match_pdr _ _); [|apply B].
    destruct (option_map _ _) as [[]|]; cbn; [apply A|apply B|apply A|apply B]. }
  unfold u64, wrap in *. rewrite <- (Z.add_mod_idemp_l _ (Z.of_nat (length ds))), E, Z.add_mod_idemp_l by discriminate.
  f_equal. lia.
Qed.

(** A frame is a GTP-U frame, of the outer headers and the eight octets before
    the TEID's, the TEID, and the inner packet; or it is too short to hold a
    TEID. *)
Definition gtpu_frame (before : bytes) (teid : Z) (inner : bytes) : bytes := before ++ be32 teid ++ inner.

Inductive Frame : Type := Gtpu (before : bytes) (teid : Z) (inner : bytes) | Short (d : bytes).

Definition octets_of (f : Frame) : bytes :=
  match f with Gtpu before teid inner => gtpu_frame before teid inner | Short d => d end.

Definition wf_frame (f : Frame) : Prop :=
  match f with
  | Gtpu before teid inner => length before = TEID_OFFSET /\ in_u 32 teid /\ Z.of_nat (length inner) <= 65485
  | Short d => Z.of_nat (length d) < 50
  end.

(** What the simulated path counts for the packet of a frame; a frame without a
    TEID is dropped. *)
Definition count_frame (rules : RuleTable) (c : Counters) (f : Frame) : Counters :=
  match f with Gtpu _ teid _ => tally_one rules c (uplink teid 0) | Short _ => count_dropped c end.

Lemma gtpu_teid (before inner : bytes) (teid : Z) :
  length before = TEID_OFFSET -> in_u 32 teid -> Z.of_nat (length inner) <= 65485 ->
  long_enough (gtpu_frame before teid inner) = true /\ teid_of (gtpu_frame before teid inner) = teid.
Proof.
  intros Hb Ht Hi. unfold gtpu_frame. split.
  - unfold long_enough, data_len. rewrite !length_app, Hb. apply Z.leb_le. unfold TEID_OFFSET, u16 in *.
    rewrite wrap_small; [cbn; lia|]. unfold in_u. cbn. lia.
  - unfold teid_of. unfold TEID_OFFSET in Hb. rewrite (app_nth2 before _ 0 (n := 49)), (app_nth2 before _ 0 (n := 48)), (app_nth2 before _ 0 (n := 47)),
      (app_nth2 before _ 0 (n := 46)) by lia. rewrite Hb. cbn [Nat.sub be32 app nth].
    apply le32_roundtrip. exact Ht.
Qed.

Lemma frame_counted (rules : RuleTable) (c : Counters) (f : Frame) :
  wf_frame f -> frame_tally rules c (octets_of f) = count_frame rules c f.
Proof.
  destruct f as [before teid inner|d]; cbn [wf_frame octets_of count_frame]; unfold frame_tally.
  - intros (Hb & Ht & Hi). destruct (gtpu_teid before inner teid Hb Ht Hi) as [-> ->]. reflexivity.
  - intros Hd. replace (long_enough d) with false; [reflexivity|]. symmetry. apply Z.leb_gt.
    unfold data_len, u16, TEID_OFFSET. rewrite wrap_small; [cbn; lia|]. unfold in_u. change (2 ^ 16) with 65536. lia.
Qed.

Lemma be32_of_octets (a b c e : Z) :
  in_u 8 a -> in_u 8 b -> in_u 8 c -> in_u 8 e ->
  let t := e + 256 * c + 65536 * b + 16777216 * a in in_u 32 t /\ be32 t = [a; b; c; e].
Proof.
  intros Ha Hb Hc He t. unfold t, be32. rewrite !Z.shiftr_div_pow2 by lia. unfold_u.
  change (2 ^ 8) with 256 in *. change (2 ^ 16) with 65536. change (2 ^ 24) with 16777216. change (2 ^ 32) with 4294967296.
  split; [lia|]. repeat (f_equal; [div_eqs|]). f_equal. div_eqs.
Qed.

(** Any octets a buffer holds are a frame of one of the kinds. *)
Lemma any_frame (d : bytes) : is_bytes d -> Z.of_nat (length d) <= 65535 -> exists f, wf_frame f /\ octets_of f = d.
Proof.
  intros Hd Hl. destruct (Z.lt_ge_cases (Z.of_nat (length d)) 50) as [H|H]; [exists (Short d); auto|].
  pose proof (length_drop d TEID_OFFSET) as Ld. unfold TEID_OFFSET in *.
  assert (Hb : is_bytes (drop 46 d)) by (apply Forall_drop; exact Hd).
  destruct (drop 46 d) as [|a [|b [|c [|e inner]]]] eqn:E; cbn in Ld; try lia.
  inversion_clear Hb as [|? ? Ha Hb1]. inversion_clear Hb1 as [|? ? Hb Hb2].
  inversion_clear Hb2 as [|? ? Hc Hb3]. inversion_clear Hb3 as [|? ? He _].
  destruct (be32_of_octets a b c e Ha Hb Hc He) as [Ht E4].
  eexists (Gtpu (take 46 d) _ inner). split; [split; [|split; [exact Ht|lia]]|].
  - rewrite length_take. unfold TEID_OFFSET. lia.
  - cbn [octets_of]. unfold gtpu_frame. rewrite E4. change ([a; b; c; e] ++ inner) with (a :: b :: c :: e :: inner).
    rewrite <- E. apply take_drop.
Qed.

Lemma any_frames (ds : list bytes) :
  Forall (fun d => is_bytes d /\ Z.of_nat (length d) <= 65535) ds ->
  exists fs, Forall wf_frame fs /\ map octets_of fs = ds.
Proof.
  intros H. induction H as [|d ds [Hd Hl] _ (fs & Hf & <-)]; [exists []; auto|].
  destruct (any_frame d Hd Hl) as (f & Hw & <-). exists (f :: fs). split; [constructor; assumption|reflexivity].
Qed.

(** C20. The core that polls the card, until [running] is cleared, on frames of
    any octets up to the 65535 a buffer can hold: every buffer the card handed
    out is freed exactly once and none is kept; every frame is read as a GTP-U
    frame, counted as the simulated path counts its packet, or is too short for
    one, counted as dropped; so every frame is counted forwarded or dropped.
    [pkts_rx], which the program prints as the packets received, stays zero. *)
Theorem lcore_agrees (rules : RuleTable) (ts : list Turn) (last : Turn) (rest : list Turn)
  (Ht : Forall (fun t => t_running t = true /\ fresh_turn ∅ t) ts) (Hl : t_running last = false)
  (Hf : Forall (fun d => is_bytes d /\ Z.of_nat (length d) <= 65535) (frames ts)) :
  exists s fs, real_lcore_fn rules (ts ++ last :: rest) (mkLcore ∅ newStats) = Ok (tt, s) /\ l_mbufs s = ∅ /\
    Forall wf_frame fs /\ frames ts = map octets_of fs /\
    let c := counters (l_stats s) in
    c = fold_left (count_frame rules) fs noCounters /\
    u64 (pkts_forwarded c + pkts_dropped c) = u64 (Z.of_nat (length fs)) /\ pkts_rx c = 0.
Proof.
  destruct (lcore_runs rules ts last rest (mkLcore ∅ newStats) Ht Hl) as (s & E & F & C).
  destruct (any_frames _ Hf) as (fs & Hw & Ef).
  exists s, fs. split; [exact E|]. split; [exact F|]. split; [exact Hw|]. split; [symmetry; exact Ef|].
  cbn zeta. pose proof (tally_sum rules (frames ts) noCounters) as Sm.
  pose proof (tally_no_rx rules (frames ts) noCounters) as Rx. cbn zeta in Sm. cbn [l_stats counters newStats] in C.
  rewrite <- C in Sm, Rx. split; [|split; [rewrite Sm, <- Ef, length_map; reflexivity|exact Rx]].
  rewrite C, <- Ef. clear -Hw. generalize noCounters. induction Hw as [|f fs Hf _ IH]; intros c; [reflexivity|].
  cbn [map fold_left]. rewrite frame_counted by exact Hf. apply IH.
Qed.

Definition sample_rules : RuleTable :=
  add_far {| far_far_id := 7; far_action := FORWARD; far_dst_ip := 0; far_dst_port := 2152; far_encap_gtpu := false |}
    (add_pdr {| pdr_pdr_id := 1; pdr_teid := 1000; pdr_ue_ip := 0; pdr_dir := UL; pdr_far_id := 7; pdr_qer_id := 1;
                pdr_precedence := 10 |} newRules).

(** Two frames of a known tunnel, one of an unknown one, and one of two octets. *)
Lemma lcore_agrees_witness :
  exists s, let f t := gtpu_frame (repeat 0 46) t [69; 0] in
    real_lcore_fn sample_rules
      [mkTurn true [(3%nat, f 1000); (5%nat, f 2000)] 10 (fun _ => 12); mkTurn true [(4%nat, [1; 2])] 20 (fun _ => 22);
       mkTurn true [(3%nat, f 1000)] 30 (fun _ => 33); mkTurn false [] 0 (fun _ => 0)] (mkLcore ∅ newStats) = Ok (tt, s) /\
    l_mbufs s = ∅ /\ u64 (pkts_forwarded (counters (l_stats s)) + pkts_dropped (counters (l_stats s))) = 4 /\
    pkts_rx (counters (l_stats s)) = 0.
Proof.
  set (f t := gtpu_frame (repeat 0 46) t [69; 0]).
  destruct (lcore_agrees sample_rules
    [mkTurn true [(3%nat, f 1000); (5%nat, f 2000)] 10 (fun _ => 12); mkTurn true [(4%nat, [1; 2])] 20 (fun _ => 22);
     mkTurn true [(3%nat, f 1000)] 30 (fun _ => 33)] (mkTurn false [] 0 (fun _ => 0)) [])
    as (s & fs & E & F & _ & L & _ & Sm & R).
  - repeat (apply List.Forall_cons; [split; [reflexivity|split; [apply (bool_decide_unpack _); reflexivity|reflexivity]]|]).
    apply List.Forall_nil.
  - reflexivity.
  - apply (bool_decide_unpack _). vm_compute. reflexivity.
  - exists s. cbv zeta. split; [exact E|]. split; [exact F|]. split; [|exact R].
    apply (f_equal length) in L. rewrite length_map in L. rewrite Sm, <- L. reflexivity.
Defined.

(** ** Properties: the hash table *)

(** What the library documents: a key that was added is found with its data,
    the other keys as before; a deleted key is not found. *)
Class RteHashLaws (T : Type) `{RteHash T} : Prop := {
  lookup_added : forall k v t, 0 <= (hash_add_key_data k v t).1 ->
    let '(ret, val) := hash_lookup_data k (hash_add_key_data k v t).2 in 0 <= ret /\ val = v;
  lookup_other : forall k j v t, k <> j -> hash_lookup_data j (hash_add_key_data k v t).2 = hash_lookup_data j t;
  lookup_deleted : forall k t, (hash_lookup_data k (hash_del_key k t).2).1 < 0;
  lookup_kept : forall k j t, k <> j -> hash_lookup_data j (hash_del_key k t).2 = hash_lookup_data j t
}.

Section HashFacts.
Context {T : Type} `{RteHashLaws T}.

(** The identifier that was added comes back as a signed number: from [2^31]
    on it is negative, and [2^32 - 1] reads as a miss. *)
Lemma table_added (k v : Z) (t : T) :
  0 <= (hash_add_key_data k v t).1 -> in_u 32 v ->
  table_lookup k (table_add k v t) = (if v <? 2 ^ 31 then v else v - 2 ^ 32).
Proof.
  intros Hr Hv. unfold table_lookup, table_add. pose proof (lookup_added k v t Hr) as A.
  destruct (hash_lookup_data k _) as [ret val]. destruct A as [A ->].
  rewrite (proj2 (Z.leb_le _ _) A). unfold i32. rewrite u32_small by exact Hv. reflexivity.
Qed.

Lemma table_other (k j v : Z) (t : T) : k <> j -> table_lookup j (table_add k v t) = table_lookup j t.
Proof. intros Hkj. unfold table_lookup, table_add. rewrite lookup_other by exact Hkj. reflexivity. Qed.

Lemma table_deleted (k j : Z) (t : T) :
  table_lookup j (table_del k t) = if decide (k = j) then - 1 else table_lookup j t.
Proof.
  unfold table_lookup, table_del. destruct (decide (k = j)) as [<- | Hkj].
  - pose proof (lookup_deleted k t) as D. destruct (hash_lookup_data k _) as [ret val]. cbn in D.
    destruct (Z.leb_spec 0 ret); [lia|reflexivity].
  - rewrite lookup_kept by exact Hkj. reflexivity.
Qed.

End HashFacts.

(** A table with the documented behaviour. *)
#[export] Instance gmap_hash : RteHash (gmap Z Z) := {
  hash_add_key_data := fun k v t => (0, <[k := v]> t);
  hash_lookup_data := fun k t => match t !! k with Some v => (0, v) | None => (- 2, 0) end;
  hash_del_key := fun k t => (match t !! k with Some _ => 0 | None => - 2 end, delete k t)
}.

#[export] Instance gmap_hash_laws : RteHashLaws (gmap Z Z).
Proof.
  split; intros; cbn.
  - rewrite lookup_insert_eq. lia.
  - rewrite lookup_insert_ne by assumption. reflexivity.
  - rewrite lookup_delete_eq. cbn. lia.
  - rewrite lookup_delete_ne by assumption. reflexivity.
Qed.

(** ** Properties: the arguments *)

Definition in_i (v : Z) : Prop := - 2 ^ 31 <= v < 2 ^ 31.

Lemma atoi_printed (v : Z) : in_i v -> atoi (to_stringZ v) = Ok v.
Proof.
  intros H. pose proof (stoi_to_stringZ v H) as S. unfold atoi, stoi in *.
  destruct (scan_sign (skip_spaces (to_stringZ v))) as [neg l1]. destruct (scan_digits l1 0 0) as [[x n] l2].
  destruct n; [discriminate|]. destruct (_ && _); [|discriminate]. injection S as ->. reflexivity.
Qed.

(** The command line that asks for given arguments. *)
Definition argv_of (name : bytes) (a : AppArgs) : list bytes :=
  [name; str "--ues"; to_stringZ (num_ues a); str "--duration"; to_stringZ (duration a);
   str "--port"; to_stringZ (port_id a); str "--lcore"; to_stringZ (lcore_id a)].

Definition args_ok (a : AppArgs) : Prop :=
  (0 <= num_ues a < 2 ^ 31) /\ in_i (duration a) /\ in_u 16 (port_id a) /\ (0 <= lcore_id a < 2 ^ 31).

Lemma parse_one (fuel : nat) (name value : bytes) (rest : list bytes) (v : Z) (a b : AppArgs) :
  atoi value = Ok v -> known_arg name = true -> set_arg name v a = Some b ->
  parse_from (S fuel) (name :: value :: rest) a = parse_from fuel rest b.
Proof. intros E K S. cbn [parse_from]. rewrite K, E, res_bind_Ok, S. reflexivity. Qed.

(** The arguments written on the command line are the ones read; an
    argument without a value and an unknown one change nothing. *)
Theorem app_args_roundtrip (name : bytes) (a : AppArgs) (H : args_ok a) :
  parse_app_args (argv_of name a) = Ok a /\
  parse_app_args (argv_of name a ++ [str "--ues"]) = Ok a /\
  parse_app_args (name :: str "--fast" :: tail (argv_of name a)) = Ok a.
Proof.
  destruct a as [u d p l]. destruct H as (Hu & Hd & Hp & Hl). cbn [num_ues duration port_id lcore_id] in *.
  assert (Au : atoi (to_stringZ u) = Ok u) by (apply atoi_printed; unfold in_i; lia).
  assert (Ad : atoi (to_stringZ d) = Ok d) by (apply atoi_printed; exact Hd).
  assert (Ap : atoi (to_stringZ p) = Ok p) by (apply atoi_printed; unfold in_i, in_u in *; lia).
  assert (Al : atoi (to_stringZ l) = Ok l) by (apply atoi_printed; unfold in_i; lia).
  assert (R : forall fuel rest, parse_from (S (S (S (S fuel)))) (tail (argv_of name (mkArgs u d p l)) ++ rest) default_args
              = parse_from fuel rest (mkArgs u d p l)).
  { intros fuel rest. cbn [argv_of tail app num_ues duration port_id lcore_id].
    rewrite (parse_one _ (str "--ues") _ _ u default_args (mkArgs (u32 u) 10 0 1) Au eq_refl eq_refl),
      (parse_one _ (str "--duration") _ _ d (mkArgs (u32 u) 10 0 1) (mkArgs (u32 u) d 0 1) Ad eq_refl eq_refl),
      (parse_one _ (str "--port") _ _ p (mkArgs (u32 u) d 0 1) (mkArgs (u32 u) d (u16 p) 1) Ap eq_refl eq_refl),
      (parse_one _ (str "--lcore") _ _ l (mkArgs (u32 u) d (u16 p) 1) (mkArgs (u32 u) d (u16 p) (u32 l)) Al eq_refl eq_refl).
    rewrite (u32_small u), (u16_small p), (u32_small l) by (exact Hp || (unfold in_u; lia)). reflexivity. }
  split; [|split].
  - unfold parse_app_args. rewrite <- (app_nil_r (tail _)). apply (R 5%nat []).
  - exact (R 6%nat [str "--ues"]).
  - unfold parse_app_args. cbn [length tail argv_of].
    change (parse_from 9 (tail (argv_of name (mkArgs u d p l))) default_args = Ok (mkArgs u d p l)).
    rewrite <- (app_nil_r (tail _)). apply (R 5%nat []).
Qed.

Lemma app_args_roundtrip_witness :
  parse_app_args [str "upf_real"; str "--ues"; str "1000"; str "--duration"; str "-1"; str "--port"; str "3";
                  str "--lcore"; str "2"] = Ok (mkArgs 1000 (-1) 3 2).
Proof. apply (app_args_roundtrip (str "upf_real") (mkArgs 1000 (-1) 3 2)). unfold args_ok, in_i, in_u. cbn. lia. Defined.

(** ** Properties: the start *)

(** The calls of a run in which all goes well, and what each needs. *)
Definition startup (e : Env) (a : AppArgs) : list (list Call * bool) :=
  [([EalInit], 0 <=? eal_init e); ([PoolCreate], pool_created e);
   ([DevConfigure (port_id a)], 0 <=? dev_configure e); ([RxQueue (port_id a)], 0 <=? rx_queue_setup e);
   ([TxQueue (port_id a)], 0 <=? tx_queue_setup e); ([DevStart (port_id a)], 0 <=? dev_start e);
   ([Promiscuous (port_id a); BuildRules (num_ues a)], lcore_is_enabled e (lcore_id a));
   ([RemoteLaunch (lcore_id a)], remote_launch e =? 0);
   ([WaitLcores; DevStop (port_id a); DevClose (port_id a); EalCleanup], true)].

(** The calls up to the first that fails. *)
Fixpoint until_failure (l : list (list Call * bool)) : list Call * Z :=
  match l with
  | [] => ([], 0)
  | (cs, ok) :: l' => if ok then let (ds, r) := until_failure l' in (cs ++ ds, r) else (cs, 1)
  end.

(** The program makes its calls in the order of the set-up and stops with
    status 1 at the first that fails, before the card is started unless its
    queues are set up and before the core is launched unless the card is
    started; with none failing it ends with the core joined, the card stopped
    and closed and the memory released. *)
Theorem startup_order (e : Env) (a : AppArgs) :
  ((dpdk_main e a).1, exit_status (dpdk_main e a)) = until_failure (startup e a).
Proof.
  unfold dpdk_main, configure, launch_real_lcore, startup, exit_status, then_.
  destruct (0 <=? eal_init e); [|reflexivity]. destruct (pool_created e); [|reflexivity].
  destruct (0 <=? dev_configure e); [|reflexivity]. destruct (0 <=? rx_queue_setup e); [|reflexivity].
  destruct (0 <=? tx_queue_setup e); [|reflexivity]. destruct (0 <=? dev_start e); [|reflexivity].
  cbn. destruct (lcore_is_enabled e (lcore_id a)); [|reflexivity]. destruct (remote_launch e =? 0); reflexivity.
Qed.
