(* ===== verification/Bench.v ===== *)
(** * The programs that drive the fast path

    [5g-simulator/src/upf_fastpath/benchmark.cpp] and [upf_fastpath_demo.cpp]
    over the two paths of [Fastpath]: the packets they make, the producer that
    offers each packet until the path takes it, the wait for the end, and the
    counters that are reported.  The schedule of the threads is a list of
    actions; the numbers drawn and the clock are arguments.  The producer and
    the wait are written once, over the class [Path] of what a path offers;
    what they rely on is the class [Counting], which both paths discharge. *)

From S2P Require Import Prelude Text Strings Ring Fastpath DpdkReal.
#[local] Open Scope Z_scope.

(** ** Packets *)

(** [x % 3 == 0 ? a : x % 3 == 1 ? b : c]. *)
Definition by_third (x a b c : Z) : Z :=
  if x mod 3 =? 0 then a else if x mod 3 =? 1 then b else c.

(** [(i % 2 == 0) ? Direction::UL : Direction::DL]. *)
Definition direction (i : Z) : Direction := if i mod 2 =? 0 then UL else DL.

(** A turn of the loop of [generate_packets]: the UE it draws and the time it
    reads are those of the turn. *)
Definition generated (draw now : nat -> Z) (i : nat) : Packet :=
  let ue_idx := draw i in
  let dir := direction (Z.of_nat i) in
  {| p_teid := u32 (base_teid + ue_idx); p_ue_ip := u32 (base_ue_ip + ue_idx);
     p_dscp := by_third ue_idx 46 34 0; p_payload_len := match dir with UL => 200 | DL => 1400 end;
     p_arrival_ns := now i; p_qfi := by_third ue_idx 1 2 9;
     p_pdr_id := 0; p_far_id := 0; p_classified := false; p_dropped := false;
     p_seq := u32 (Z.of_nat i + 1); p_dir := dir |}.

Definition generate_packets (draw now : nat -> Z) (total : nat) : list Packet :=
  map (generated draw now) (seq 0 total).

Definition make_demo_packet (ue_idx : Z) (dir : Direction) (seq now : Z) : Packet :=
  {| p_teid := u32 (1000 + ue_idx); p_ue_ip := u32 (ip4 10 45 0 1 + ue_idx);
     p_dscp := by_third ue_idx 46 34 0; p_payload_len := match dir with UL => 60 | DL => 1400 end;
     p_arrival_ns := now; p_qfi := by_third ue_idx 1 2 9;
     p_pdr_id := 0; p_far_id := 0; p_classified := false; p_dropped := false;
     p_seq := u32 (seq + 1); p_dir := dir |}.

(** The packet of a turn of the demonstration's loops; [i % num_ues] has no value
    when there are no UEs. *)
Definition demo_packet (num_ues i now : Z) : res Packet :=
  if num_ues =? 0 then Undefined
  else Ok (make_demo_packet (i mod num_ues) (direction i) i now).

(** What the demonstration shows of a packet: the packet and its PDR, FAR and
    QER. *)
Definition demo_trace (rt : RuleTable) (pkt : Packet) : Packet * option PDR * option FAR * option QER :=
  let pdr := match_pdr rt pkt in
  (pkt, pdr, pdr ≫= (fun pdr => get_far rt (pdr_far_id pdr)), pdr ≫= (fun pdr => get_qer rt (pdr_qer_id pdr))).

Definition far_action_str (a : FarAction) : bytes :=
  match a with FORWARD => str "FORWARD" | DROP => str "DROP" | BUFFER => str "BUFFER" end.
Definition qfi_name (qfi : Z) : bytes :=
  if qfi =? 1 then str "voice" else if qfi =? 2 then str "video"
  else if qfi =? 9 then str "data BE" else str "unknown".
Definition dir_str (d : Direction) : bytes := match d with UL => str "UL " | DL => str "DL " end.

(** ** What drives a path *)

(** A path with its threads.  A step is [None] where no thread can take it. *)
Class Path (S : Type) : Type := {
  PMove : Type;                               (** the steps besides the offers *)
  offer : Packet -> S -> option (S * bool);   (** [enqueue], [rx_enqueue] *)
  move : PMove -> S -> option S;
  of_stop : PMove -> bool;                    (** the move is one of [stop] *)
  stopped : S -> bool;                        (** [stop] has returned *)
  stats : S -> PathStats
}.

Definition socket_of_stop (m : Move) : bool :=
  match m with StopStore | StopNotify | Join => true | Notify | WorkerTurn _ | Spurious => false end.

Definition socket_path : Path SocketRun := {|
  PMove := Move; offer := socket_offer; move := socket_move; of_stop := socket_of_stop;
  stopped x := bool_decide (client x = Joined);
  stats x := s_stats_ (sp x) |}.
#[export] Existing Instance socket_path.

(** A turn of [lcore_poll_loop]; [stop], which returns when the loop that
    empties the ring is through. *)
Inductive DpdkMove := Poll (now : Z) | StopDpdk (fuel : nat) (clock : nat -> Z).

Definition dpdk_move (m : DpdkMove) (d : DpdkPath) : option DpdkPath :=
  if negb (d_running_ d) then None
  else match m with
       | Poll now => Some (lcore_poll now d).1
       | StopDpdk fuel clock => d_stop fuel clock d
       end.

Definition dpdk_of_stop (m : DpdkMove) : bool := match m with Poll _ => false | StopDpdk _ _ => true end.

Definition dpdk_path : Path DpdkPath := {|
  PMove := DpdkMove; offer p d := if d_running_ d then Some (rx_enqueue p d) else None; move := dpdk_move;
  of_stop := dpdk_of_stop;
  stopped d := negb (d_running_ d);
  stats := d_stats_ |}.
#[export] Existing Instance dpdk_path.

Fixpoint moves {S : Type} `{Path S} (ms : list PMove) (s : S) : option S :=
  match ms with [] => Some s | m :: ms => move m s ≫= moves ms end.

(** A packet is offered, and then the moves are made. *)
Definition offer_then {S : Type} `{Path S} (p : Packet) (ms : list PMove) (s : S) : option S :=
  match offer p s with Some (s, _) => moves ms s | None => None end.

(** [p.arrival_ns = Packet::now_ns()]. *)
Definition stamp (now : Z) (p : Packet) : Packet :=
  {| p_teid := p_teid p; p_ue_ip := p_ue_ip p; p_dscp := p_dscp p; p_payload_len := p_payload_len p;
     p_arrival_ns := now; p_qfi := p_qfi p; p_pdr_id := p_pdr_id p; p_far_id := p_far_id p;
     p_classified := p_classified p; p_dropped := p_dropped p; p_seq := p_seq p; p_dir := p_dir p |}.

(** What [wait_until_done] compares with its target. *)
Definition done (c : Counters) : Z := u64 (pkts_forwarded c + pkts_dropped c).

(** A step of a run: the producer offers its packet, which was stamped at the
    time given; a thread of the path, or the rest of a call of it, goes on; the
    main thread looks at the counters, before or after its deadline. *)
Inductive Act (M : Type) := Try (now : Z) | Own (m : M) | Look (late : bool).
#[global] Arguments Try {M} _.
#[global] Arguments Own {M} _.
#[global] Arguments Look {M} _.

(** The path, the packets the producer still has, and what
    [wait_until_done] has returned. *)
Record Run (S : Type) : Type := mkRun { path : S; unsent : list Packet; waited : option bool }.
#[global] Arguments mkRun {S} _ _ _.
#[global] Arguments path {S} _.
#[global] Arguments unsent {S} _.
#[global] Arguments waited {S} _.

Section Driver.
Context {S : Type} `{Path S}.

(** A step that the thread cannot take leaves the run as it is. *)
Definition try_once (now : Z) (r : Run S) : Run S :=
  match unsent r with
  | [] => r
  | p :: ps =>
      match offer (stamp now p) (path r) with
      | Some (s, ok) => mkRun s (if ok then ps else p :: ps) (waited r)
      | None => r
      end
  end.

(** [stop] is called when the wait is over. *)
Definition own_move (m : PMove) (r : Run S) : Run S :=
  if of_stop m && bool_decide (waited r = None) then r
  else match move m (path r) with Some s => mkRun s (unsent r) (waited r) | None => r end.

(** The main thread looks once the producer is joined. *)
Definition look (target : Z) (late : bool) (r : Run S) : Run S :=
  match unsent r, waited r with
  | [], None =>
      if late then mkRun (path r) [] (Some false)
      else if target <=? done (counters (stats (path r))) then mkRun (path r) [] (Some true) else r
  | _, _ => r
  end.

Definition act (target : Z) (r : Run S) (a : Act PMove) : Run S :=
  match a with
  | Try now => try_once now r
  | Own m => own_move m r
  | Look late => look target late r
  end.

Definition acts (target : Z) (es : list (Act PMove)) (r : Run S) : Run S := fold_left (act target) es r.

Definition start_run (s : S) (pkts : list Packet) : Run S := mkRun s pkts None.

(** [run_socket_bench], [run_dpdk_bench]: whether the wait saw the end, and the
    counters copied after [stop]; [None] when the schedule is not over. *)
Definition run_bench (s : S) (pkts : list Packet) (es : list (Act PMove)) : option (bool * Counters) :=
  let r := acts (Z.of_nat (length pkts)) es (start_run s pkts) in
  match unsent r, waited r with
  | [], Some ok => if stopped (path r) then Some (ok, counters (stats (path r))) else None
  | _, _ => None
  end.

End Driver.

Definition run_socket_bench (rt : RuleTable) := run_bench (launched rt).
Definition run_dpdk_bench (rt : RuleTable) := run_bench (d_start (newDpdk rt)).

(** ** The demonstration

    One thread makes the packets, offers them and stops the path; while it
    sleeps the path's threads go on.  The path is [None] when the schedule is
    not one the threads can follow. *)

Section Demo.
Context {S : Type} `{Path S}.

(** A turn of the loop of [run_socket_demo]: the packet is shown, offered, and
    the path's threads go on while the loop sleeps. *)
Definition socket_demo_turn (rt : RuleTable) (num_ues now : Z) (ms : list PMove) (s : option S) (i : Z)
    : res (option S * (Packet * option PDR * option FAR * option QER)) :=
  pkt ← demo_packet num_ues i now;
  Ok (s ≫= offer_then pkt ms, demo_trace rt pkt).

Fixpoint socket_demo (rt : RuleTable) (num_ues : Z) (now : Z -> Z) (sched : Z -> list PMove) (is_ : list Z) (s : option S)
    : res (option S * list (Packet * option PDR * option FAR * option QER)) :=
  match is_ with
  | [] => Ok (s, [])
  | i :: is_ =>
      r ← socket_demo_turn rt num_ues (now i) (sched i) s i;
      rest ← socket_demo rt num_ues now sched is_ r.1;
      Ok (rest.1, r.2 :: rest.2)
  end.

(** The counters of the summary are those after [stop]. *)
Definition demo_end (ms : list PMove) (s : option S) : option Counters :=
  (s ≫= moves ms) ≫= (fun s => if stopped s then Some (counters (stats s)) else None).

End Demo.

(** The packets of a burst of [run_dpdk_demo]: from [b * burst_size] up to the
    end. *)
Definition burst_size : Z := 5.
Definition num_bursts (num_packets : Z) : Z := u32 (num_packets + burst_size - 1) / burst_size.
Definition burst_range (num_packets b : Z) : list Z :=
  let start := u32 (b * burst_size) in
  let end_ := Z.min (u32 (start + burst_size)) num_packets in
  map (fun k => start + Z.of_nat k) (seq 0 (Z.to_nat (end_ - start))).

Section BurstDemo.
Context {S : Type} `{Path S}.

(** Every packet of the burst is made and offered, with the moves that happen
    before the next. *)
Fixpoint offer_burst (num_ues : Z) (now : Z -> Z) (sched : Z -> list PMove) (is_ : list Z) (s : option S)
    : res (option S * list Packet) :=
  match is_ with
  | [] => Ok (s, [])
  | i :: is_ =>
      pkt ← demo_packet num_ues i (now i);
      rest ← offer_burst num_ues now sched is_ (s ≫= offer_then pkt (sched i));
      Ok (rest.1, pkt :: rest.2)
  end.

(** A turn of the loop over the bursts: the packets are offered, the threads go
    on while the loop sleeps, and the first burst is shown. *)
Definition burst_turn (rt : RuleTable) (num_packets num_ues : Z) (now : Z -> Z) (sched sleep : Z -> list PMove)
    (s : option S) (b : Z) : res (option S * list (Packet * option PDR * option FAR * option QER)) :=
  r ← offer_burst num_ues now sched (burst_range num_packets b) s;
  Ok (r.1 ≫= moves (sleep b), if b =? 0 then map (demo_trace rt) r.2 else []).

Fixpoint dpdk_demo (rt : RuleTable) (num_packets num_ues : Z) (now : Z -> Z) (sched sleep : Z -> list PMove)
    (bs : list Z) (s : option S) : res (option S * list (Packet * option PDR * option FAR * option QER)) :=
  match bs with
  | [] => Ok (s, [])
  | b :: bs =>
      r ← burst_turn rt num_packets num_ues now sched sleep s b;
      rest ← dpdk_demo rt num_packets num_ues now sched sleep bs r.1;
      Ok (rest.1, r.2 ++ rest.2)
  end.

End BurstDemo.

Definition range (n : Z) : list Z := map Z.of_nat (seq 0 (Z.to_nat n)).

Definition run_socket_demo (rt : RuleTable) (num_packets num_ues : Z) (now : Z -> Z) (sched : Z -> list Move)
    (ms : list Move) :=
  r ← socket_demo (S := SocketRun) rt num_ues now sched (range num_packets) (Some (launched rt));
  Ok (demo_end (S := SocketRun) ms r.1, r.2).

Definition run_dpdk_demo (rt : RuleTable) (num_packets num_ues : Z) (now : Z -> Z) (sched sleep : Z -> list DpdkMove)
    (ms : list DpdkMove) :=
  r ← dpdk_demo (S := DpdkPath) rt num_packets num_ues now sched sleep (range (num_bursts num_packets)) (Some (d_start (newDpdk rt)));
  Ok (demo_end (S := DpdkPath) ms r.1, r.2).

(** ** The command lines *)

Record BenchArgs : Type := mkBench { b_duration : Z; b_ues : Z; b_batch : Z; b_workers : Z }.
Definition bench_default : BenchArgs := mkBench 5 100 32 1.

(** An option that needs a value and has one behind it. *)
Definition set_bench (name : bytes) (v : Z) (a : BenchArgs) : option BenchArgs :=
  if bool_decide (name = str "--duration") then Some (mkBench v (b_ues a) (b_batch a) (b_workers a))
  else if bool_decide (name = str "--ues") then Some (mkBench (b_duration a) (u32 v) (b_batch a) (b_workers a))
  else if bool_decide (name = str "--batch-size") then Some (mkBench (b_duration a) (b_ues a) v (b_workers a))
  else if bool_decide (name = str "--workers") then Some (mkBench (b_duration a) (b_ues a) (b_batch a) v)
  else None.

Fixpoint parse_bench (argv : list bytes) (a : BenchArgs) : res BenchArgs :=
  match argv with
  | name :: ((value :: rest) as tl) =>
      match set_bench name 0 a with
      | Some _ => v ← atoi value; parse_bench rest (default a (set_bench name v a))
      | None => parse_bench tl a
      end
  | _ => Ok a
  end.

Record DemoArgs : Type := mkDemo { run_socket : bool; run_dpdk : bool; num_packets : Z; demo_ues : Z }.
Definition demo_default : DemoArgs := mkDemo false false 20 5.

Fixpoint parse_demo (argv : list bytes) (a : DemoArgs) : res DemoArgs :=
  match argv with
  | [] => Ok a
  | name :: tl =>
      if bool_decide (name = str "--socket") then parse_demo tl (mkDemo true (run_dpdk a) (num_packets a) (demo_ues a))
      else if bool_decide (name = str "--dpdk") then parse_demo tl (mkDemo (run_socket a) true (num_packets a) (demo_ues a))
      else match tl with
           | value :: rest =>
               if bool_decide (name = str "--packets") then
                 v ← atoi value; parse_demo rest (mkDemo (run_socket a) (run_dpdk a) (u32 v) (demo_ues a))
               else if bool_decide (name = str "--ues") then
                 v ← atoi value; parse_demo rest (mkDemo (run_socket a) (run_dpdk a) (num_packets a) (u32 v))
               else parse_demo tl a
           | [] => Ok a
           end
  end.

(** With neither mode asked for, both are run. *)
Definition demo_modes (a : DemoArgs) : DemoArgs :=
  if negb (run_socket a) && negb (run_dpdk a) then mkDemo true true (num_packets a) (demo_ues a) else a.

Definition total_pkts : nat := Z.to_nat 2000000.

(** [main] of the benchmark: the schedules of its two runs are arguments. *)
Definition benchmark_main (argv : list bytes) (draw : Z -> nat -> Z) (now : nat -> Z)
    (es_s : list (Act Move)) (es_d : list (Act DpdkMove))
    : res (option (bool * Counters) * option (bool * Counters)) :=
  a ← parse_bench (tail argv) bench_default;
  let rt := build_demo_rules (b_ues a) in
  let pkts := generate_packets (draw (b_ues a)) now total_pkts in
  Ok (run_socket_bench rt pkts es_s, run_dpdk_bench rt pkts es_d).

(** [main] of the demonstration. *)
Definition demo_main (argv : list bytes) (now : Z -> Z) (sched_s : Z -> list Move) (end_s : list Move)
    (sched_d sleep_d : Z -> list DpdkMove) (end_d : list DpdkMove)
    : res (option (option Counters * list (Packet * option PDR * option FAR * option QER))
           * option (option Counters * list (Packet * option PDR * option FAR * option QER))) :=
  a ← parse_demo (tail argv) demo_default;
  let a := demo_modes a in
  let rt := build_demo_rules (demo_ues a) in
  s ← (if run_socket a then r ← run_socket_demo rt (num_packets a) (demo_ues a) now sched_s end_s; Ok (Some r)
       else Ok None);
  d ← (if run_dpdk a then r ← run_dpdk_demo rt (num_packets a) (demo_ues a) now sched_d sleep_d end_d; Ok (Some r)
       else Ok None);
  Ok (s, d).

(** ** What the programs rely on *)

(** The rules forward the packet. *)
Definition forwards (rules : RuleTable) (p : Packet) : Prop :=
  exists pdr, match_pdr rules p = Some pdr
              /\ option_map far_action (get_far rules (pdr_far_id pdr)) = Some FORWARD.

Lemma forwards_tally (rules : RuleTable) (p : Packet) (c : Counters) :
  forwards rules p -> tally_one rules c p = count_forwarded c.
Proof. intros (pdr & Hm & Hf). unfold tally_one. rewrite Hm, Hf. reflexivity. Qed.

Lemma forwards_key (rules : RuleTable) (p q : Packet) : key p = key q -> forwards rules p -> forwards rules q.
Proof.
  intros [= D Ht Hu] (pdr & Hm & Hf). exists pdr. split; [|exact Hf].
  unfold match_pdr in *. rewrite <- D, <- Ht, <- Hu. exact Hm.
Qed.

Lemma forwards_all (rules : RuleTable) (ps : list Packet) (c : Counters) :
  Forall (forwards rules) ps -> fold_left (tally_one rules) ps c = Nat.iter (length ps) count_forwarded c.
Proof.
  intros Hf. revert c. induction Hf as [|p ps Hp _ IH]; intros c; [reflexivity|].
  cbn [fold_left length]. rewrite IH, (forwards_tally _ _ _ Hp), Nat.iter_succ_r. reflexivity.
Qed.

(** A path that takes packets as long as fewer than [cap] are queued and
    forwards what it has taken: [holding s n] when [n] packets, all of which
    the rules forward, are not yet processed, [inflight s] of them no longer
    queued.  The laws from [get_ready] on say that a path that is not being
    stopped can go on: it can come to accept offers, each followed by the moves
    [rest], to process up to [burst] packets, and to return from [stop]. *)
Class Counting (T : Type) `{Path T} (rules : RuleTable) (cap : Z) (burst : nat) (holding : T -> nat -> Prop)
    (inflight : T -> nat) (stopping : T -> bool) (ready : T -> Prop) (rest : list PMove) : Prop := {
  cap_positive : 0 < cap;
  offer_counts s n p s' ok :
    holding s n -> forwards rules p -> offer p s = Some (s', ok) ->
    ok = (Z.of_nat (n - inflight s) <? cap)
    /\ holding s' (if ok then S n else n) /\ stopping s' = stopping s
    /\ counters (stats s')
       = if ok then count_rx (counters (stats s)) else count_dropped (count_rx (counters (stats s)));
  move_counts s n m s' :
    holding s n -> move m s = Some s' ->
    (of_stop m = false -> stopping s' = stopping s)
    /\ exists k, (k <= n)%nat /\ holding s' (n - k)%nat
       /\ counters (stats s') = Nat.iter k count_forwarded (counters (stats s));
  stopped_empty s n : holding s n -> stopped s = true -> n = 0%nat;
  ready_running s : ready s -> stopping s = false;
  get_ready s n :
    holding s n -> stopping s = false ->
    exists ms s', moves ms s = Some s' /\ Forall (fun m => of_stop m = false) ms /\ ready s';
  ready_offer s n p :
    holding s n -> ready s -> forwards rules p ->
    exists s' ok s'', offer p s = Some (s', ok) /\ moves (if ok then rest else []) s' = Some s''
      /\ ready s'' /\ holding s'' (if ok then S n else n) /\ inflight s'' = inflight s
      /\ counters (stats s'') = counters (stats s');
  rest_goes_on : Forall (fun m => of_stop m = false) rest;
  ready_work s n :
    holding s n -> ready s -> (0 < n)%nat ->
    exists ms s' k, moves ms s = Some s' /\ Forall (fun m => of_stop m = false) ms
      /\ (0 < k <= n)%nat /\ (k <= burst)%nat /\ ready s' /\ inflight s' = 0%nat /\ holding s' (n - k)%nat
      /\ counters (stats s') = Nat.iter k count_forwarded (counters (stats s));
  ready_stop s :
    holding s 0%nat -> ready s -> exists ms s', moves ms s = Some s' /\ stopped s' = true
}.

(** *** The blocking path *)

Lemma moves_two {S : Type} `{Path S} (m m' : PMove) (s s1 s2 : S) :
  move m s = Some s1 -> move m' s1 = Some s2 -> moves [m; m'] s = Some s2.
Proof. intros E E'. cbn. rewrite E. cbn. rewrite E'. reflexivity. Qed.

Record socket_holding (rules : RuleTable) (x : SocketRun) (n : nat) : Prop := {
  sh_rules : s_rules_ (sp x) = rules;
  sh_shaped : shaped x;
  sh_pending : length (pending x) = n;
  sh_forwards : Forall (forwards rules) (pending x) }.

Definition socket_inflight (x : SocketRun) : nat := length (in_hand (worker x)).
Definition socket_stopping (x : SocketRun) : bool :=
  match client x with Ready | Pushed => false | _ => true end.
Definition socket_ready (x : SocketRun) : Prop := client x = Ready /\ worker x <> AboutToWait.

Lemma socket_offer_counts (rules : RuleTable) (x : SocketRun) (n : nat) (p : Packet) (x' : SocketRun) (ok : bool) :
  socket_holding rules x n -> forwards rules p -> socket_offer p x = Some (x', ok) ->
  ok = (Z.of_nat (n - socket_inflight x) <? MAX_QUEUE_DEPTH)
  /\ socket_holding rules x' (if ok then S n else n) /\ socket_stopping x' = socket_stopping x
  /\ counters (s_stats_ (sp x'))
     = if ok then count_rx (counters (s_stats_ (sp x))) else count_dropped (count_rx (counters (s_stats_ (sp x)))).
Proof.
  intros [R W L F] Hp E. destruct (offer_pending p x x' ok E) as (Eo & Er & Ew & Ep & Ec).
  assert (El : length (queue_ (sp x)) = (n - socket_inflight x)%nat)
    by (rewrite <- L; unfold pending, socket_inflight; rewrite length_app; lia).
  split; [rewrite Eo, El; reflexivity|]. split; [|split; [|exact Ec]].
  - split; [congruence|exact (offer_shaped p x x' ok W E)| |]; rewrite Ep.
    + rewrite length_app, L. destruct ok; cbn; lia.
    + apply Forall_app. split; [exact F|]. destruct ok; repeat constructor. exact Hp.
  - clear -E. unfold socket_offer in E. destruct x as [s w c], c; try discriminate. cbn in E.
    destruct (enqueue p s) as [s' ok'], w; try discriminate; injection E as <- <-; destruct ok'; reflexivity.
Qed.

Lemma socket_move_counts (rules : RuleTable) (x : SocketRun) (n : nat) (m : Move) (x' : SocketRun) :
  socket_holding rules x n -> socket_move m x = Some x' ->
  (socket_of_stop m = false -> socket_stopping x' = socket_stopping x)
  /\ exists k, (k <= n)%nat /\ socket_holding rules x' (n - k)%nat
     /\ counters (s_stats_ (sp x')) = Nat.iter k count_forwarded (counters (s_stats_ (sp x))).
Proof.
  intros [R W L F] E. split.
  - clear -E. intros Hm. destruct x as [s w c]. destruct m as [| | | |now|]; try discriminate;
      destruct c; try discriminate; destruct w; try discriminate; cbn in E;
      try (destruct (queue_ s) in E); injection E as <-; reflexivity.
  - destruct (move_goes m x x' E) as (Er & k & Hk & Ep & Ec). exists k. rewrite L in Hk.
    split; [exact Hk|]. split.
    + split; [congruence|exact (move_shaped m x x' W E)| |]; rewrite Ep; [rewrite length_drop; lia|].
      apply Forall_drop. exact F.
    + rewrite Ec, R, forwards_all by (apply Forall_take; exact F). rewrite length_take, L. f_equal. lia.
Qed.

Lemma socket_get_ready (rules : RuleTable) (x : SocketRun) (n : nat) :
  socket_holding rules x n -> socket_stopping x = false ->
  exists ms x', moves ms x = Some x' /\ Forall (fun m => socket_of_stop m = false) ms /\ socket_ready x'.
Proof.
  intros _ Hs. destruct x as [s w c].
  assert (Hr : exists ms x', moves ms {| sp := s; worker := w; client := Ready |} = Some x'
                 /\ Forall (fun m => socket_of_stop m = false) ms /\ socket_ready x').
  { destruct w; [exists []|exists [WorkerTurn 0]|exists []..]; eexists; (split; [reflexivity|]);
      (split; [repeat constructor|split; [reflexivity|discriminate]]). }
  destruct c; try discriminate; [exact Hr|].
  assert (Hr' : exists ms x', moves ms {| sp := s; worker := wake w; client := Ready |} = Some x'
                 /\ Forall (fun m => socket_of_stop m = false) ms /\ socket_ready x').
  { destruct w; try exact Hr. exists []. eexists. split; [reflexivity|].
    split; [constructor|split; [reflexivity|discriminate]]. }
  destruct Hr' as (ms & x' & E & Hm & Hx). exists (Notify :: ms), x'.
  split; [destruct w; exact E|]. split; [constructor; [reflexivity|exact Hm]|exact Hx].
Qed.

Lemma socket_ready_offer (rules : RuleTable) (x : SocketRun) (n : nat) (p : Packet) :
  socket_holding rules x n -> socket_ready x -> forwards rules p ->
  exists x' ok x'', socket_offer p x = Some (x', ok)
    /\ moves (S := SocketRun) (if ok then [Notify] else []) x' = Some x''
    /\ socket_ready x'' /\ socket_holding rules x'' (if ok then S n else n)
    /\ socket_inflight x'' = socket_inflight x
    /\ counters (s_stats_ (sp x'')) = counters (s_stats_ (sp x')).
Proof.
  intros Hx [Hc Hw] Hp. pose proof (socket_offer_counts rules x n p) as HO.
  assert (E : socket_offer p x
              = Some ({| sp := (enqueue p (sp x)).1; worker := worker x;
                         client := if (enqueue p (sp x)).2 then Pushed else Ready |}, (enqueue p (sp x)).2)).
  { unfold socket_offer. rewrite Hc. destruct (enqueue p (sp x)) as [s ok]. destruct (worker x); try contradiction; reflexivity. }
  destruct (enqueue p (sp x)) as [s ok] eqn:Ee. cbn [fst snd] in E.
  destruct (HO _ _ Hx Hp E) as (_ & Hh & _ & _). destruct ok.
  - eexists _, true. set (y := {| sp := s; worker := wake (worker x); client := Ready |}).
    assert (En : socket_move Notify {| sp := s; worker := worker x; client := Pushed |} = Some y) by reflexivity.
    destruct (socket_move_counts rules _ _ Notify y Hh En) as (_ & k & Hk & Hy & _).
    exists y. split; [exact E|]. split; [reflexivity|].
    split; [split; [reflexivity|destruct (worker x); try discriminate; contradiction]|].
    split; [|split; [unfold socket_inflight; cbn; rewrite in_hand_wake; reflexivity|reflexivity]].
    destruct Hy as [Hr Hs _ Hf]. destruct Hh as [_ _ Hl _]. split; try assumption.
    rewrite <- Hl. unfold pending. cbn. rewrite in_hand_wake. reflexivity.
  - eexists _, false, _. split; [exact E|]. split; [reflexivity|]. split; [split; [reflexivity|exact Hw]|].
    split; [exact Hh|]. split; reflexivity.
Qed.

Lemma socket_ready_work (rules : RuleTable) (x : SocketRun) (n : nat) :
  socket_holding rules x n -> socket_ready x -> (0 < n)%nat ->
  exists ms x' k, moves ms x = Some x' /\ Forall (fun m => socket_of_stop m = false) ms
    /\ (0 < k <= n)%nat /\ (k <= 1)%nat /\ socket_ready x' /\ socket_inflight x' = 0%nat
    /\ socket_holding rules x' (n - k)%nat
    /\ counters (s_stats_ (sp x')) = Nat.iter k count_forwarded (counters (s_stats_ (sp x))).
Proof.
  intros Hx [Hc Hw] Hn. destruct x as [s w c]. cbn in Hc, Hw. subst c.
  assert (Hone : forall p (x' : SocketRun), socket_holding rules x' n -> worker x' = Processing p -> client x' = Ready ->
            exists y, socket_move (WorkerTurn 0) x' = Some y /\ socket_ready y /\ socket_inflight y = 0%nat
              /\ socket_holding rules y (n - 1)%nat
              /\ counters (s_stats_ (sp y)) = Nat.iter 1 count_forwarded (counters (s_stats_ (sp x')))).
  { intros p [s0 w0 c0] Hy Ew Ec. cbn in Ew, Ec. subst w0 c0.
    eexists. split; [reflexivity|]. split; [split; [reflexivity|discriminate]|]. split; [reflexivity|].
    destruct Hy as [R W L F]. unfold pending in *. cbn in R, L, F.
    destruct (process_one_spec 0 p s0) as (Er & Eq & _ & Ec).
    split; [split|].
    - cbn. congruence.
    - exact (move_shaped (WorkerTurn 0) _ _ W eq_refl).
    - unfold pending. cbn. rewrite Eq. lia.
    - unfold pending. cbn. rewrite Eq. inversion F; assumption.
    - cbn. rewrite Ec. apply forwards_tally. cbn in R. rewrite R. inversion F; assumption. }
  pose proof Hx as [R W L F]. unfold pending in L, F.
  destruct w as [| | |p| |p|]; try contradiction; cbn in L, F, R.
  - destruct (queue_ s) as [|p q] eqn:Q; [cbn in L; lia|].
    destruct (Hone p {| sp := s_set_queue q s; worker := Processing p; client := Ready |}) as (y & Ey & Hr & Hi & Hh & Hk);
      [|reflexivity|reflexivity|].
    { apply Build_socket_holding; [exact R| | |].
      - eapply (move_shaped (WorkerTurn 0)); [exact W|]. cbn. rewrite Q. reflexivity.
      - exact L.
      - exact F. }
    exists [WorkerTurn 0; WorkerTurn 0], y, 1%nat.
    split; [|split; [repeat apply List.Forall_cons; reflexivity || constructor|auto 10 with lia]].
    refine (moves_two (S := SocketRun) (WorkerTurn 0) (WorkerTurn 0) _ {| sp := s_set_queue q s; worker := Processing p; client := Ready |} y _ Ey).
    cbn. rewrite Q. reflexivity.
  - destruct W as [_ [W|W] _]; [|discriminate]. cbn in W. rewrite W in L. cbn in L. lia.
  - destruct (Hone p _ Hx eq_refl eq_refl) as (y & Ey & Hr & Hi & Hh & Hk).
    exists [WorkerTurn 0], y, 1%nat. split; [exact Ey|]. split; [repeat constructor|]. auto 10 with lia.
  - destruct W as [W1 W2 _]. cbn in W1, W2. congruence.
  - destruct W as [W1 W2 _]. cbn in W1, W2. congruence.
  - destruct W as [W1 [W2 _] _]. cbn in W1, W2. congruence.
Qed.

Lemma socket_ready_stop (rules : RuleTable) (x : SocketRun) :
  socket_holding rules x 0%nat -> socket_ready x -> exists ms x', moves ms x = Some x' /\ stopped x' = true.
Proof.
  intros [R W L F] [Hc Hw]. destruct x as [s w c]. cbn in Hc, Hw. subst c.
  unfold pending in L. cbn in L. rewrite length_app in L. destruct W as [W1 W2 _]. cbn in W1, W2.
  assert (Q : queue_ s = []) by (destruct (queue_ s); [reflexivity|cbn in L; lia]).
  assert (Hend : exists x', moves (S := SocketRun) [WorkerTurn 0; WorkerTurn 0; Join]
                   {| sp := s_set_running false s; worker := Checking; client := Notified |} = Some x' /\ stopped x' = true).
  { eexists. split; [cbn; rewrite Q; cbn; rewrite Q; reflexivity|reflexivity]. }
  destruct Hend as (x' & E & Hx'). exists [StopStore; StopNotify; WorkerTurn 0; WorkerTurn 0; Join], x'. split; [|exact Hx'].
  destruct w; try contradiction; try exact E; try (cbn in L; lia); try congruence; destruct W2; congruence.
Qed.

#[export] Instance socket_counting (rules : RuleTable) :
  Counting SocketRun rules MAX_QUEUE_DEPTH 1 (socket_holding rules) socket_inflight socket_stopping socket_ready [Notify].
Proof.
  split.
  - reflexivity.
  - exact (socket_offer_counts rules).
  - exact (socket_move_counts rules).
  - intros x n [_ [_ W J] L _] E. apply bool_decide_eq_true in E. specialize (J E). rewrite J in W.
    unfold pending in L. rewrite J in L. destruct W as [_ W]. rewrite W in L. symmetry. exact L.
  - intros x [E _]. unfold socket_stopping. rewrite E. reflexivity.
  - exact (socket_get_ready rules).
  - exact (socket_ready_offer rules).
  - repeat constructor.
  - exact (socket_ready_work rules).
  - exact (socket_ready_stop rules).
Qed.

(** *** The polling path

    The pool wraps during a long run, and then hands out a buffer that still
    waits in the ring; but whatever the buffers hold was offered, so the rules
    forward it and the counts are not affected. *)

Record dpdk_holding (rules : RuleTable) (d : DpdkPath) (n : nat) : Prop := {
  dh_rules : d_rules_ d = rules;
  dh_size : pool_size (mbuf_pool_ d) = POOL_SIZE;
  dh_next : 0 <= next_ (mbuf_pool_ d) <= POOL_SIZE;
  dh_stopped : d_running_ d = false -> n = 0%nat;
  dh_ring : exists ms, holds RING_BITS (rx_ring_ d) ms /\ length ms = n
            /\ Forall (fun m => forwards rules (packet_at d m)) ms }.

Lemma ring_capacity : RING_CAPACITY = 4095.
Proof. reflexivity. Qed.

(** The buffer that [alloc] hands out, wrapped or not. *)
Lemma alloc_some (mp : MbufPool) :
  pool_size mp = POOL_SIZE -> 0 <= next_ mp <= POOL_SIZE ->
  exists m next, alloc mp = ({| pool_ := alter (set_in_use true) m (pool_ mp); next_ := next |}, m)
                 /\ (m < length (pool_ mp))%nat /\ 0 <= next <= POOL_SIZE.
Proof.
  intros Hs Hn. unfold pool_size in Hs. destruct (Z.eq_dec (next_ mp) POOL_SIZE) as [E|E].
  - exists 0%nat, 0. rewrite alloc_wraps by (unfold pool_size; lia). unfold POOL_SIZE in *. split; [reflexivity|lia].
  - exists (Z.to_nat (next_ mp)), (Z.of_nat (S (Z.to_nat (next_ mp)))).
    rewrite (alloc_fresh mp (Z.to_nat (next_ mp))) by (unfold pool_size; lia). split; [reflexivity|lia].
Qed.

(** The new packet may overwrite one that waits, with one that is forwarded too. *)
Lemma filled_forwards (rules : RuleTable) (m j : nat) (p : Packet) (next : Z) (d : DpdkPath) :
  (m < length (pool_ (mbuf_pool_ d)))%nat -> forwards rules p -> forwards rules (packet_at d j) ->
  forwards rules (packet_at (filled m p next d) j).
Proof.
  intros Hm Hp Hj. destruct (decide (j = m)) as [->|Hn].
  - rewrite filled_this by exact Hm. exact Hp.
  - rewrite filled_other by exact Hn. exact Hj.
Qed.

Lemma same_queue_forwards (rules : RuleTable) (d d' : DpdkPath) (ms : list nat) :
  same_queue d d' -> Forall (fun m => forwards rules (packet_at d m)) ms ->
  Forall (fun m => forwards rules (packet_at d' m)) ms.
Proof.
  intros Q. apply List.Forall_impl. intros m. apply forwards_key. symmetry. apply (sq_keys _ _ Q).
Qed.

Lemma process_mbuf_running (now : Z) (d : DpdkPath) (m : nat) : d_running_ (process_mbuf now d m) = d_running_ d.
Proof.
  unfold process_mbuf. destruct (match_pdr _ _); [|reflexivity]. destruct (option_map _ _) as [[]|]; reflexivity.
Qed.

Lemma poll_running (now : Z) (d : DpdkPath) : d_running_ (lcore_poll now d).1 = d_running_ d.
Proof.
  assert (Hb : forall ms d, d_running_ (process_burst now ms d) = d_running_ d).
  { intros ms. induction ms as [|m ms IH]; intros d0; [reflexivity|].
    change (process_burst now (m :: ms) d0) with (process_burst now ms (process_mbuf now d0 m)).
    rewrite IH. apply process_mbuf_running. }
  unfold lcore_poll. destruct (pop_burst _ _ _) as [r [|m ms]]; [reflexivity|]. cbn [fst]. rewrite Hb. reflexivity.
Qed.

Lemma enqueue_running (p : Packet) (d : DpdkPath) : d_running_ (rx_enqueue p d).1 = d_running_ d.
Proof.
  unfold rx_enqueue. destruct (alloc _) as [mp m]. destruct (push _ _ _) as [r []]; reflexivity.
Qed.

Lemma dpdk_offer (rules : RuleTable) (d : DpdkPath) (n : nat) (p : Packet) :
  dpdk_holding rules d n -> d_running_ d = true -> forwards rules p ->
  (rx_enqueue p d).2 = (Z.of_nat n <? RING_CAPACITY)
  /\ dpdk_holding rules (rx_enqueue p d).1 (if Z.of_nat n <? RING_CAPACITY then S n else n)
  /\ counters (d_stats_ (rx_enqueue p d).1)
     = if Z.of_nat n <? RING_CAPACITY then count_rx (counters (d_stats_ d))
       else count_dropped (count_rx (counters (d_stats_ d))).
Proof.
  intros [R Sz Nx C (ms & H & L & F)] Hrun Hp. pose proof (enqueue_running p d) as Hr'.
  destruct (alloc_some _ Sz Nx) as (m & next & Ea & Hm & Hx). rewrite (rx_enqueue_filled p d m next Ea) in *.
  pose proof (push_spec RING_BITS ring_bits_range m (rx_ring_ d) ms H) as [E P].
  destruct (push RING_BITS m (rx_ring_ d)) as [r ok]. cbv zeta in *. cbn [fst snd] in E, P. rewrite L in E. subst ok.
  assert (F' : Forall (fun j => forwards rules (packet_at (filled m p next d) j)) ms)
    by (eapply List.Forall_impl; [|exact F]; intros j Hj; apply filled_forwards; assumption).
  assert (Hsz : pool_size (mbuf_pool_ (filled m p next d)) = POOL_SIZE)
    by (unfold filled, pool_size in *; cbn; rewrite !length_alter; exact Sz).
  unfold RING_CAPACITY in *. rewrite L in P.
  destruct (Z.ltb_spec (Z.of_nat n) (capacity RING_BITS)); cbn [fst snd] in *.
  - split; [reflexivity|]. split; [split; [exact R|exact Hsz|exact Hx|intros E; congruence|]|reflexivity].
    exists (ms ++ [m]). split; [exact P|]. split; [rewrite length_app, L; cbn; lia|].
    apply Forall_app. split; [exact F'|]. repeat constructor.
    change (forwards rules (packet_at (filled m p next d) m)). rewrite filled_this by exact Hm. exact Hp.
  - split; [reflexivity|]. split; [split; [exact R| |exact Hx|intros E; congruence|]|reflexivity].
    + unfold free_mbuf, pool_size. cbn. rewrite length_alter. exact Hsz.
    + exists ms. split; [exact H|]. split; [exact L|].
      exact (same_queue_forwards _ _ _ _ (then_stat _ _ _ (then_free m _ _ (same_queue_refl _))) F').
Qed.

Lemma dpdk_poll (rules : RuleTable) (d : DpdkPath) (n : nat) (now : Z) :
  dpdk_holding rules d n ->
  dpdk_holding rules (lcore_poll now d).1 (n - BURST_SIZE)%nat
  /\ counters (d_stats_ (lcore_poll now d).1) = Nat.iter (n `min` BURST_SIZE)%nat count_forwarded (counters (d_stats_ d))
  /\ (lcore_poll now d).2 = negb (n =? 0)%nat.
Proof.
  intros [R Sz Nx C (ms & H & L & F)]. destruct (lcore_poll_spec now d ms H) as (r & P & E0). rewrite E0. cbn [fst snd].
  assert (F0 : Forall (fun m => forwards rules (packet_at (d_set_ring r d) m)) ms) by exact F.
  destruct (process_burst_spec now (take BURST_SIZE ms) (map (packet_at d) (take BURST_SIZE ms)) (d_set_ring r d))
    as [Q E].
  { apply Forall2_fmap_r, Forall_Forall2_diag, List.Forall_forall. intros. reflexivity. }
  split; [split|split].
  - rewrite (sq_rules _ _ Q). exact R.
  - unfold pool_size in *. rewrite (sq_size _ _ Q). exact Sz.
  - rewrite (sq_next _ _ Q). exact Nx.
  - intros Hrun. pose proof (poll_running now d) as Hr'. rewrite E0 in Hr'. cbn [fst] in Hr'.
    rewrite Hr' in Hrun. rewrite (C Hrun). reflexivity.
  - exists (drop BURST_SIZE ms). rewrite (sq_ring _ _ Q). split; [exact P|]. split; [rewrite length_drop, L; lia|].
    apply Forall_drop. exact (same_queue_forwards _ _ _ _ Q F0).
  - rewrite E. cbn [d_rules_ d_set_ring d_stats_]. rewrite R, forwards_all.
    + rewrite length_map, length_take, L, Nat.min_comm. reflexivity.
    + apply List.Forall_map, Forall_take. exact F.
  - subst n. destruct ms; reflexivity.
Qed.

(** The loop that empties the ring, with [running_] cleared. *)
Record dpdk_draining (rules : RuleTable) (d : DpdkPath) (n : nat) : Prop := {
  dd_holding : dpdk_holding rules (d_set_running true d) n; dd_running : d_running_ d = false }.

Lemma drain_turn (rules : RuleTable) (d : DpdkPath) (n : nat) (now : Z) :
  dpdk_draining rules d n ->
  dpdk_draining rules (lcore_poll now d).1 (n - BURST_SIZE)%nat
  /\ counters (d_stats_ (lcore_poll now d).1) = Nat.iter (n `min` BURST_SIZE)%nat count_forwarded (counters (d_stats_ d))
  /\ (lcore_poll now d).2 = negb (n =? 0)%nat.
Proof.
  intros [Hh Hr]. destruct (dpdk_poll rules _ n now Hh) as (Hh' & Hc & Hm).
  assert (E : lcore_poll now (d_set_running true d)
              = (d_set_running true (lcore_poll now d).1, (lcore_poll now d).2)).
  { clear. unfold lcore_poll. cbn [rx_ring_ d_set_running]. destruct (pop_burst _ _ _) as [r [|m ms]]; [reflexivity|].
    cbn [fst snd]. f_equal. change (d_set_ring r (d_set_running true d)) with (d_set_running true (d_set_ring r d)).
    generalize (d_set_ring r d) as d0. induction (m :: ms) as [|j l IH]; intros d0; [reflexivity|].
    cbn [process_burst fold_left]. change (fold_left (process_mbuf now) l) with (process_burst now l).
    rewrite <- IH. f_equal. unfold process_mbuf. cbn [mbuf_pool_ d_rules_ d_set_running].
    destruct (match_pdr _ _); [|reflexivity]. cbn [d_rules_ d_set_pool d_set_running].
    destruct (option_map _ _) as [[]|]; reflexivity. }
  rewrite E in *. cbn [fst snd] in *. split; [split|split].
  - exact Hh'.
  - rewrite poll_running. exact Hr.
  - exact Hc.
  - exact Hm.
Qed.

Lemma dpdk_drain (rules : RuleTable) (fuel : nat) (clock : nat -> Z) (d d' : DpdkPath) (n : nat) :
  dpdk_draining rules d n -> lcore_drain fuel clock d = Some d' ->
  dpdk_draining rules d' 0 /\ counters (d_stats_ d') = Nat.iter n count_forwarded (counters (d_stats_ d)).
Proof.
  revert d n. induction fuel as [|fuel IH]; intros d n Hd E; [discriminate|]. cbn [lcore_drain] in E.
  destruct (drain_turn rules d n (clock fuel) Hd) as (Hd' & Hc & Hm).
  destruct (lcore_poll (clock fuel) d) as [d1 more]. cbn [fst snd] in *. subst more.
  destruct n as [|n]; [injection E as <-; split; [exact Hd'|exact Hc]|]. cbn [Nat.eqb negb] in E.
  destruct (IH d1 _ Hd' E) as [H0 K]. split; [exact H0|]. rewrite K, Hc, <- Nat.iter_add. f_equal. lia.
Qed.

Lemma dpdk_stop (rules : RuleTable) (fuel : nat) (clock : nat -> Z) (d d' : DpdkPath) (n : nat) :
  dpdk_holding rules d n -> d_running_ d = true -> d_stop fuel clock d = Some d' ->
  dpdk_holding rules d' 0 /\ d_running_ d' = false
  /\ counters (d_stats_ d') = Nat.iter n count_forwarded (counters (d_stats_ d)).
Proof.
  intros Hh Hr E.
  assert (Hd : dpdk_draining rules (d_set_running false d) n).
  { split; [|reflexivity]. destruct Hh. split; try assumption. discriminate. }
  destruct (dpdk_drain rules fuel clock _ d' n Hd E) as [[H0 Hr'] Hc].
  split; [|split; [exact Hr'|exact Hc]]. destruct H0. split; try assumption. reflexivity.
Qed.

Lemma dpdk_move_counts (rules : RuleTable) (d : DpdkPath) (n : nat) (m : DpdkMove) (d' : DpdkPath) :
  dpdk_holding rules d n -> dpdk_move m d = Some d' ->
  (dpdk_of_stop m = false -> negb (d_running_ d') = negb (d_running_ d))
  /\ exists k, (k <= n)%nat /\ dpdk_holding rules d' (n - k)%nat
     /\ counters (d_stats_ d') = Nat.iter k count_forwarded (counters (d_stats_ d)).
Proof.
  intros Hh E. unfold dpdk_move in E. destruct (d_running_ d) eqn:Hr; [|discriminate]. cbn [negb] in E.
  destruct m as [now|fuel clock].
  - injection E as <-. destruct (dpdk_poll rules d n now Hh) as (Hh' & Hc & _).
    split; [intros _; rewrite poll_running, Hr; reflexivity|].
    exists (n `min` BURST_SIZE)%nat. split; [lia|]. split; [|exact Hc].
    replace (n - n `min` BURST_SIZE)%nat with (n - BURST_SIZE)%nat by lia. exact Hh'.
  - split; [discriminate|]. destruct (dpdk_stop rules fuel clock d d' n Hh Hr E) as (H0 & _ & Hc).
    exists n. rewrite Nat.sub_diag. auto.
Qed.

Lemma dpdk_ready_work (rules : RuleTable) (d : DpdkPath) (n : nat) :
  dpdk_holding rules d n -> d_running_ d = true -> (0 < n)%nat ->
  exists ms d' k, moves ms d = Some d' /\ Forall (fun m => dpdk_of_stop m = false) ms
    /\ (0 < k <= n)%nat /\ (k <= BURST_SIZE)%nat /\ d_running_ d' = true /\ 0%nat = 0%nat
    /\ dpdk_holding rules d' (n - k)%nat
    /\ counters (d_stats_ d') = Nat.iter k count_forwarded (counters (d_stats_ d)).
Proof.
  intros Hh Hr Hn. destruct (dpdk_poll rules d n 0 Hh) as (Hh' & Hc & _).
  exists [Poll 0], (lcore_poll 0 d).1, (n `min` BURST_SIZE)%nat.
  split; [cbn; unfold dpdk_move; rewrite Hr; reflexivity|]. split; [repeat constructor|].
  assert (0 < BURST_SIZE)%nat by (unfold BURST_SIZE; lia).
  split; [lia|]. split; [lia|]. split; [rewrite poll_running; exact Hr|]. split; [reflexivity|]. split; [|exact Hc].
  replace (n - n `min` BURST_SIZE)%nat with (n - BURST_SIZE)%nat by lia. exact Hh'.
Qed.

Lemma dpdk_ready_stop (rules : RuleTable) (d : DpdkPath) :
  dpdk_holding rules d 0 -> d_running_ d = true -> exists ms d', moves ms d = Some d' /\ negb (d_running_ d') = true.
Proof.
  intros Hh Hr.
  assert (Hd : dpdk_draining rules (d_set_running false d) 0) by (split; [destruct Hh; split; assumption || discriminate|reflexivity]).
  destruct (drain_turn rules _ 0 0 Hd) as (Hd' & _ & Hm). cbn [Nat.eqb negb] in Hm.
  exists [StopDpdk 1 (fun _ => 0)], (lcore_poll 0 (d_set_running false d)).1.
  split; [|rewrite poll_running; reflexivity].
  cbn [moves move dpdk_path]. unfold dpdk_move. rewrite Hr. cbn [negb]. unfold d_stop. cbn [lcore_drain].
  destruct (lcore_poll 0 _) as [d1 more]. cbn [fst snd] in *. rewrite Hm. reflexivity.
Qed.

#[export] Instance dpdk_counting (rules : RuleTable) :
  Counting DpdkPath rules RING_CAPACITY BURST_SIZE (dpdk_holding rules)
    (fun _ => 0%nat) (fun d => negb (d_running_ d)) (fun d => d_running_ d = true) [].
Proof.
  assert (Ho : forall d n p, dpdk_holding rules d n -> d_running_ d = true -> forwards rules p ->
            dpdk_holding rules (rx_enqueue p d).1 (if (rx_enqueue p d).2 then S n else n)).
  { intros d n p Hh Hr Hp. destruct (dpdk_offer rules d n p Hh Hr Hp) as (-> & H & _). exact H. }
  split.
  - reflexivity.
  - intros d n p d' ok Hh Hp E. cbn in E. destruct (d_running_ d) eqn:Hr; [|discriminate].
    destruct (dpdk_offer rules d n p Hh Hr Hp) as (Eo & H & Hc). injection E as E. rewrite E in *. cbn [fst snd] in *.
    rewrite Nat.sub_0_r, <- Eo in *. split; [reflexivity|]. split; [exact H|]. split; [|exact Hc].
    pose proof (enqueue_running p d) as Hr'. rewrite E in Hr'. cbn [fst] in Hr'. rewrite Hr', Hr. reflexivity.
  - exact (dpdk_move_counts rules).
  - intros d n [_ _ _ C _] E. apply C. cbn in E. destruct (d_running_ d); [discriminate|reflexivity].
  - intros d Hd. rewrite Hd. reflexivity.
  - intros d n Hh Hs. exists [], d. split; [reflexivity|]. split; [constructor|]. destruct (d_running_ d); [reflexivity|discriminate].
  - intros d n p Hh Hr Hp. exists (rx_enqueue p d).1, (rx_enqueue p d).2, (rx_enqueue p d).1. cbn. rewrite Hr.
    split; [destruct (rx_enqueue p d); reflexivity|]. split; [destruct (rx_enqueue p d).2; reflexivity|].
    split; [rewrite enqueue_running; exact Hr|]. split; [exact (Ho d n p Hh Hr Hp)|split; reflexivity].
  - constructor.
  - exact (dpdk_ready_work rules).
  - exact (dpdk_ready_stop rules).
Qed.

(** ** The driver over any such path *)

Definition mkc (rx forwarded dropped : Z) : Counters :=
  {| pkts_rx := u64 rx; pkts_forwarded := u64 forwarded; pkts_dropped := u64 dropped; pkts_no_pdr := 0 |}.

Lemma u64_add_u64 (a b : Z) : u64 (u64 a + b) = u64 (a + b).
Proof. unfold u64, wrap. apply Z.add_mod_idemp_l. lia. Qed.

Lemma mkc_rx (a b c : Z) : count_rx (mkc a b c) = mkc (a + 1) b c.
Proof. unfold count_rx, mkc. cbn. f_equal. apply u64_add_u64. Qed.
Lemma mkc_dropped (a b c : Z) : count_dropped (mkc a b c) = mkc a b (c + 1).
Proof. unfold count_dropped, mkc. cbn. f_equal. apply u64_add_u64. Qed.
Lemma mkc_forwarded (a b c : Z) (n : nat) : Nat.iter n count_forwarded (mkc a b c) = mkc a (b + Z.of_nat n) c.
Proof.
  induction n as [|n IH]; [rewrite Z.add_0_r; reflexivity|]. rewrite Nat.iter_succ, IH.
  unfold count_forwarded, mkc. cbn. f_equal. rewrite u64_add_u64. f_equal. lia.
Qed.

(** The tries of a schedule that are refused are counted by the run. *)
Section Runs.
Context {T : Type} `{Path T} (rules : RuleTable) (cap : Z) (burst : nat) (holding : T -> nat -> Prop)
  (inflight : T -> nat) (stopping : T -> bool) (ready : T -> Prop) (rest : list PMove)
  `{C : !Counting T rules cap burst holding inflight stopping ready rest}.
Context (target : Z) (total : nat).

(** Where a run of [total] packets stands: [n] are on the path and [refused]
    tries have been refused. *)
Record standing (r : Run T) (n refused : nat) : Prop := {
  st_holding : holding (path r) n;
  st_unsent : Forall (forwards rules) (unsent r);
  st_total : (n + length (unsent r) <= total)%nat;
  st_counters : let sent := Z.of_nat total - Z.of_nat (length (unsent r)) in
                counters (stats (path r))
                = mkc (sent + Z.of_nat refused) (sent - Z.of_nat n) (Z.of_nat refused);
  st_stopping : waited r = None -> stopping (path r) = false }.

(** What a try leaves. *)
Lemma offered_standing (r : Run T) (n refused : nat) (p : Packet) (ps : list Packet) (now : Z) (s : T) (ok : bool) :
  standing r n refused -> unsent r = p :: ps -> offer (stamp now p) (path r) = Some (s, ok) ->
  standing (try_once now r) (if ok then S n else n) (if ok then refused else S refused)
  /\ unsent (try_once now r) = (if ok then ps else p :: ps) /\ waited (try_once now r) = waited r
  /\ path (try_once now r) = s /\ ok = (Z.of_nat (n - inflight (path r)) <? cap).
Proof.
  intros [Hh Hu Ht Hc Hs] E Eo. unfold try_once. rewrite E, Eo in *. cbn [path unsent waited].
  apply List.Forall_cons_iff in Hu as [Hp Hps].
  destruct (offer_counts (Counting := C) (path r) n (stamp now p) s ok Hh (forwards_key _ p _ eq_refl Hp) Eo)
    as (Eok & Ho & Es & Co).
  split; [|repeat split; exact Eok]. destruct ok; split; cbn in *; rewrite ?Es; auto; try lia.
  - rewrite Co, Hc, mkc_rx. f_equal; lia.
  - rewrite Co, Hc, mkc_rx, mkc_dropped. f_equal; lia.
Qed.

Lemma try_standing (r : Run T) (n refused : nat) (now : Z) :
  standing r n refused ->
  exists n' refused', standing (try_once now r) n' refused' /\ (refused' <= S refused)%nat.
Proof.
  intros Hr. destruct (unsent r) as [|p ps] eqn:E.
  - exists n, refused. unfold try_once. rewrite E. split; [exact Hr|lia].
  - destruct (offer (stamp now p) (path r)) as [[s ok]|] eqn:Eo.
    + destruct (offered_standing r n refused p ps now s ok Hr E Eo) as (H' & _).
      eexists _, _. split; [exact H'|]. destruct ok; lia.
    + exists n, refused. unfold try_once. rewrite E, Eo. split; [exact Hr|lia].
Qed.

Lemma own_standing (r : Run T) (n refused : nat) (m : PMove) :
  standing r n refused -> exists n', standing (own_move m r) n' refused.
Proof.
  intros Hr. unfold own_move. destruct (of_stop m && _) eqn:Em; [eauto|].
  destruct (move m (path r)) as [s|] eqn:E; [|eauto]. destruct Hr as [Hh Hu Ht Hc Hs].
  destruct (move_counts (Counting := C) (path r) n m s Hh E) as (Es & k & Hk & Hh' & Hc').
  exists (n - k)%nat. split; cbn; [exact Hh'|exact Hu|lia| |].
  - rewrite Hc', Hc, mkc_forwarded. f_equal; lia.
  - intros Hw. rewrite Hw, bool_decide_eq_true_2, andb_true_r in Em by reflexivity. rewrite Es by exact Em. auto.
Qed.

Lemma look_standing (r : Run T) (n refused : nat) (late : bool) :
  standing r n refused -> standing (look target late r) n refused.
Proof.
  intros Hs. unfold look. destruct (unsent r) eqn:E, (waited r); try exact Hs.
  destruct late; [|destruct (_ <=? _); [|exact Hs]]; destruct Hs as [Hh Hu Ht Hc Hst]; rewrite E in *;
    (split; try assumption; discriminate).
Qed.

Lemma acts_standing (es : list (Act PMove)) (r : Run T) (n refused : nat) :
  standing r n refused ->
  exists n' refused', standing (acts target es r) n' refused' /\ (refused' <= refused + length es)%nat.
Proof.
  revert r n refused. induction es as [|a es IH]; intros r n refused Hr; [exists n, refused; split; [exact Hr|lia]|].
  cbn [acts fold_left].
  assert (Ha : exists n' refused', standing (act target r a) n' refused' /\ (refused' <= S refused)%nat).
  { destruct a as [now|m|late]; [apply (try_standing r n refused now Hr)|..].
    - destruct (own_standing r n refused m Hr) as (n' & H'). exists n', refused. split; [exact H'|lia].
    - exists n, refused. split; [exact (look_standing r n refused late Hr)|lia]. }
  destruct Ha as (n1 & r1 & H1 & L1). destruct (IH _ _ _ H1) as (n2 & r2 & H2 & L2).
  exists n2, r2. split; [exact H2|cbn; lia].
Qed.

Lemma acts_app (es es' : list (Act PMove)) (r : Run T) : acts target (es ++ es') r = acts target es' (acts target es r).
Proof. apply fold_left_app. Qed.

(** Moves the path's threads can make, as steps of a run. *)
Lemma acts_moves (ms : list PMove) (r : Run T) (s : T) :
  moves ms (path r) = Some s -> Forall (fun m => of_stop m = false) ms \/ waited r <> None ->
  acts target (map Own ms) r = mkRun s (unsent r) (waited r).
Proof.
  revert r. induction ms as [|m ms IH]; intros r E Hm; [injection E as <-; destruct r; reflexivity|].
  cbn in E. destruct (move m (path r)) as [s1|] eqn:E1; [|discriminate]. cbn in E.
  assert (Em : own_move m r = mkRun s1 (unsent r) (waited r)).
  { unfold own_move. rewrite E1. replace (of_stop m && bool_decide (waited r = None)) with false; [reflexivity|].
    destruct Hm as [Hm|Hm]; [inversion Hm; subst; symmetry; apply andb_false_iff; auto|].
    rewrite bool_decide_eq_false_2 by exact Hm. symmetry. apply andb_false_r. }
  cbn [map acts fold_left act]. rewrite Em. apply (IH (mkRun s1 (unsent r) (waited r)) E).
  destruct Hm as [Hm|Hm]; [inversion Hm; auto|auto].
Qed.

(** The path accepts offers. *)
Definition open (r : Run T) (n refused : nat) : Prop := standing r n refused /\ ready (path r).

Lemma get_open (r : Run T) (n refused : nat) :
  standing r n refused -> waited r = None ->
  exists es n', open (acts target es r) n' refused /\ unsent (acts target es r) = unsent r
                /\ waited (acts target es r) = waited r.
Proof.
  intros Hr Hw. destruct (get_ready (Counting := C) (path r) n (st_holding _ _ _ Hr) (st_stopping _ _ _ Hr Hw))
    as (ms & s & E & Hm & Hs).
  exists (map Own ms). pose proof (acts_moves ms r s E (or_introl Hm)) as Ea.
  assert (Hst : exists n', standing (acts target (map Own ms) r) n' refused).
  { clear E Ea Hm. revert r n Hr Hw. induction ms as [|m ms IH]; intros r n Hr Hw; [eauto|].
    destruct (own_standing r n refused m Hr) as (n1 & H1). apply (IH _ n1 H1).
    unfold own_move. destruct (_ && _); [exact Hw|]. destruct (move _ _); exact Hw. }
  destruct Hst as (n' & Hst). exists n'. rewrite Ea in *. repeat split; try apply Hst. exact Hs.
Qed.

(** A try, with the rest of the call. *)
Definition try_whole (ok : bool) : list (Act PMove) := Try 0 :: (if ok then map Own rest else []).

Lemma try_open (r : Run T) (n refused : nat) (p : Packet) (ps : list Packet) (ok : bool) :
  open r n refused -> unsent r = p :: ps -> ok = (Z.of_nat (n - inflight (path r)) <? cap) ->
  open (acts target (try_whole ok) r) (if ok then S n else n) (if ok then refused else S refused)
  /\ unsent (acts target (try_whole ok) r) = (if ok then ps else p :: ps)
  /\ waited (acts target (try_whole ok) r) = waited r
  /\ inflight (path (acts target (try_whole ok) r)) = inflight (path r).
Proof.
  intros [Hr Hd] E Eok. pose proof (st_unsent _ _ _ Hr) as Hu. rewrite E in Hu. apply List.Forall_cons_iff in Hu as [Hp _].
  destruct (ready_offer (Counting := C) (path r) n (stamp 0 p) (st_holding _ _ _ Hr) Hd (forwards_key _ p _ eq_refl Hp))
    as (s' & ok' & s'' & Eo & Em & Hd' & Hh & Ei & Ec).
  destruct (offered_standing r n refused p ps 0 s' ok' Hr E Eo) as (H' & Eu & Ew & Ep & Eok').
  assert (Eko : ok' = ok) by congruence. clear Eok Eok'. subst ok'.
  assert (Ea : acts target (try_whole ok) r = mkRun s'' (if ok then ps else p :: ps) (waited r)).
  { change (acts target (try_whole ok) r) with (acts target (if ok then map Own rest else []) (try_once 0 r)).
    rewrite <- Ep in Em. destruct ok.
    - rewrite (acts_moves rest _ s'' Em (or_introl (rest_goes_on (Counting := C)))). congruence.
    - injection Em as <-. rewrite <- Eu, <- Ew. destruct (try_once 0 r); reflexivity. }
  rewrite Ea. split; [split; [|exact Hd']|auto].
  destruct H' as [_ Hu' Ht' Hc' _]. rewrite Eu, ?Ep in *. split; cbn [path unsent waited]; try assumption.
  - rewrite Ec. exact Hc'.
  - intros _. apply (ready_running (Counting := C)), Hd'.
Qed.

(** The path's threads process some packets. *)
Lemma work_open (r : Run T) (n refused : nat) :
  open r n refused -> (0 < n)%nat ->
  exists es k, (0 < k <= n)%nat /\ (k <= burst)%nat /\ open (acts target es r) (n - k)%nat refused
    /\ unsent (acts target es r) = unsent r /\ waited (acts target es r) = waited r
    /\ inflight (path (acts target es r)) = 0%nat.
Proof.
  intros [Hr Hd] Hn.
  destruct (ready_work (Counting := C) (path r) n (st_holding _ _ _ Hr) Hd Hn)
    as (ms & s & k & E & Hm & Hk & Hb & Hd' & Hi & Hh & Hc).
  exists (map Own ms), k. rewrite (acts_moves ms r s E (or_introl Hm)). split; [exact Hk|]. split; [exact Hb|].
  split; [split; [|exact Hd']|auto]. destruct Hr as [_ Hu Ht Hc' _]. split; cbn; try assumption.
  - lia.
  - rewrite Hc, Hc', mkc_forwarded. f_equal; lia.
  - intros _. apply (ready_running (Counting := C)), Hd'.
Qed.

(** They empty the path. *)
Lemma empty_path (r : Run T) (n refused : nat) :
  open r n refused ->
  exists es, open (acts target es r) 0 refused /\ unsent (acts target es r) = unsent r
             /\ waited (acts target es r) = waited r.
Proof.
  revert r. induction n as [n IH] using (well_founded_induction lt_wf). intros r Hr.
  destruct n as [|n]; [exists []; auto|].
  destruct (work_open r (S n) refused Hr) as (es1 & k & Hk & _ & H1 & E1 & W1 & _); [lia|].
  destruct (IH (S n - k)%nat ltac:(lia) _ H1) as (es & H' & E & W).
  exists (es1 ++ es). rewrite acts_app. split; [exact H'|]. split; congruence.
Qed.

(** The path is emptied before every try: what is unsent is sent. *)
Lemma send_all (r : Run T) (n refused : nat) :
  open r n refused ->
  exists es n', open (acts target es r) n' refused /\ unsent (acts target es r) = []
                /\ waited (acts target es r) = waited r.
Proof.
  remember (unsent r) as ps eqn:E. revert r n E. induction ps as [|p ps IH]; intros r n E Hr.
  - exists [], n. split; [exact Hr|]. split; [symmetry; exact E|reflexivity].
  - destruct (empty_path r n refused Hr) as (es1 & H1 & E1 & W1). rewrite <- E in E1.
    destruct (try_open _ 0 refused p ps true H1 E1) as (H2 & E2 & W2 & _);
      [symmetry; apply Z.ltb_lt, (cap_positive (Counting := C))|].
    destruct (IH _ _ (eq_sym E2) H2) as (es & n' & H3 & E3 & W3).
    exists (es1 ++ try_whole true ++ es), n'. rewrite !acts_app. split; [exact H3|]. split; [exact E3|]. congruence.
Qed.

(** Offers alone, none of the path's threads moving: [k] are taken while there
    is room, and refused when there is none. *)
Definition tries (ok : bool) (k : nat) : list (Act PMove) := concat (repeat (try_whole ok) k).

Lemma fill (k n refused : nat) (r : Run T) :
  open r n refused -> inflight (path r) = 0%nat -> (k <= length (unsent r))%nat -> Z.of_nat (n + k) <= cap ->
  open (acts target (tries true k) r) (n + k) refused /\ inflight (path (acts target (tries true k) r)) = 0%nat
  /\ unsent (acts target (tries true k) r) = drop k (unsent r)
  /\ waited (acts target (tries true k) r) = waited r.
Proof.
  revert n r. induction k as [|k IH]; intros n r Hr Hi Hk Hn; [rewrite Nat.add_0_r; auto|].
  destruct (unsent r) as [|p ps] eqn:E; [cbn in Hk; lia|]. cbn in Hk.
  destruct (try_open r n refused p ps true Hr E) as (H1 & E1 & W1 & I1);
    [rewrite Hi, Nat.sub_0_r; symmetry; apply Z.ltb_lt; lia|].
  destruct (IH (S n) _ H1 ltac:(congruence) ltac:(rewrite E1; lia) ltac:(lia)) as (H2 & I2 & E2 & W2).
  change (tries true (S k)) with (try_whole true ++ tries true k). rewrite acts_app.
  rewrite Nat.add_succ_r. rewrite E1 in E2. repeat split; try assumption; try apply H2. congruence.
Qed.

Lemma refuse (k n refused : nat) (r : Run T) :
  open r n refused -> inflight (path r) = 0%nat -> unsent r <> [] -> cap <= Z.of_nat n ->
  open (acts target (tries false k) r) n (refused + k) /\ inflight (path (acts target (tries false k) r)) = 0%nat
  /\ unsent (acts target (tries false k) r) = unsent r
  /\ waited (acts target (tries false k) r) = waited r.
Proof.
  revert refused r. induction k as [|k IH]; intros refused r Hr Hi Hne Hn; [rewrite Nat.add_0_r; auto|].
  destruct (unsent r) as [|p ps] eqn:E; [contradiction|].
  destruct (try_open r n refused p ps false Hr E) as (H1 & E1 & W1 & I1);
    [rewrite Hi, Nat.sub_0_r; symmetry; apply Z.ltb_ge; lia|].
  destruct (IH (S refused) _ H1 ltac:(congruence) ltac:(rewrite E1; discriminate) Hn) as (H2 & I2 & E2 & W2).
  change (tries false (S k)) with (try_whole false ++ tries false k). rewrite acts_app.
  rewrite Nat.add_succ_r. rewrite E1 in E2. repeat split; try assumption; try apply H2. congruence.
Qed.

End Runs.

Section Whole.
Context {T : Type} `{Path T} (rules : RuleTable) (cap : Z) (burst : nat) (holding : T -> nat -> Prop)
  (inflight : T -> nat) (stopping : T -> bool) (ready : T -> Prop) (rest : list PMove)
  `{C : !Counting T rules cap burst holding inflight stopping ready rest}.
Context (s : T) (pkts : list Packet) (Hs : holding s 0) (Hst : stopping s = false)
  (Hc : counters (stats s) = noCounters) (Hp : Forall (forwards rules) pkts).

#[local] Abbreviation total := (length pkts).
#[local] Abbreviation run es := (acts (Z.of_nat total) es (start_run s pkts)).
#[local] Abbreviation standing' := (standing rules holding stopping total).

Lemma start_standing : standing' (start_run s pkts) 0 0.
Proof.
  split; cbn; [exact Hs|exact Hp|lia| |intros _; exact Hst].
  rewrite Hc. replace (Z.of_nat total - Z.of_nat total) with 0 by lia. reflexivity.
Qed.

Lemma run_standing (es : list (Act PMove)) :
  exists n refused, standing' (run es) n refused /\ (refused <= length es)%nat.
Proof.
  exact (acts_standing rules cap burst holding inflight stopping ready rest (Z.of_nat total) total es _ 0 0 start_standing).
Qed.

(** What is reported of a run that is over. *)
Lemma bench_result (es : list (Act PMove)) (ok : bool) (c : Counters) :
  run_bench s pkts es = Some (ok, c) ->
  exists refused, (refused <= length es)%nat
  /\ c = mkc (Z.of_nat total + Z.of_nat refused) (Z.of_nat total) (Z.of_nat refused).
Proof.
  intros E. destruct (run_standing es) as (n & refused & Hr & Hle). exists refused. split; [exact Hle|].
  unfold run_bench in E. destruct Hr as [Hh _ Ht Hk _]. destruct (unsent (run es)) eqn:Eu; [|discriminate].
  destruct (waited (run es)) as [ok'|]; [|discriminate].
  destruct (stopped (path (run es))) eqn:Ex; [|discriminate].
  pose proof (stopped_empty (Counting := C) _ n Hh Ex) as ->. injection E as _ <-. rewrite Hk. cbn [length].
  f_equal; lia.
Qed.

(** When the wait ends. *)
Lemma look_done (n refused : nat) (r : Run T) :
  standing' r n refused -> unsent r = [] -> waited r = None ->
  Z.of_nat total + Z.of_nat refused < 2 ^ 64 ->
  look (Z.of_nat total) false r = if (n <=? refused)%nat then mkRun (path r) [] (Some true) else r.
Proof.
  intros [Hh _ Ht Hk _] Eu Ew Hb. unfold look. rewrite Eu, Ew. rewrite Eu in Ht, Hk. cbn [length] in Ht, Hk.
  unfold done. rewrite Hk. cbn [mkc pkts_forwarded pkts_dropped].
  rewrite u64_add_u64, Z.add_comm, u64_add_u64, u64_small by (unfold in_u; lia).
  destruct (Nat.leb_spec n refused);
    match goal with |- context [?a <=? ?b] => destruct (Z.leb_spec a b) end; try lia; reflexivity.
Qed.

(** However far a run has come, it can be brought to an end that the wait sees. *)
Lemma bench_completes (es : list (Act PMove)) :
  waited (run es) = None -> Z.of_nat total + Z.of_nat (length es) < 2 ^ 64 ->
  exists es' c, run_bench s pkts (es ++ es') = Some (true, c).
Proof.
  intros Hw Hb. destruct (run_standing es) as (n & refused & Hr & Hle).
  destruct (get_open _ _ _ _ _ _ _ _ (Z.of_nat total) total _ n refused Hr Hw) as (es1 & n1 & H1 & E1 & W1).
  destruct (send_all _ _ _ _ _ _ _ _ (Z.of_nat total) total _ n1 refused H1) as (es2 & n2 & H2 & E2 & W2).
  destruct (empty_path _ _ _ _ _ _ _ _ (Z.of_nat total) total _ n2 refused H2) as (es3 & [H3 Hd] & E3 & W3).
  set (r := acts _ es3 _) in *. rewrite E2 in E3. rewrite W2, W1, Hw in W3.
  pose proof (look_done 0 refused r H3 E3 W3 ltac:(lia)) as Hl. cbn [Nat.leb] in Hl.
  destruct (ready_stop (Counting := C) (path r) (st_holding _ _ _ _ _ _ _ H3) Hd) as (ms & s' & Em & Ex).
  exists (es1 ++ es2 ++ es3 ++ [Look false] ++ map Own ms). eexists. unfold run_bench. rewrite !acts_app. fold r.
  change (acts _ [Look false] r) with (look (Z.of_nat total) false r). rewrite Hl.
  rewrite (acts_moves (Z.of_nat total) ms (mkRun (path r) [] (Some true)) s' Em) by (right; discriminate).
  cbn [unsent waited path]. rewrite Ex. reflexivity.
Qed.

(** One packet more than the path holds: while the thread of the path sleeps, the
    producer fills the path and is refused as often as there are packets. *)
Lemma early_end :
  ready s -> inflight s = 0%nat -> Z.of_nat total = cap + 1 -> Z.of_nat burst <= cap -> Z.of_nat total < 2 ^ 63 ->
  exists es n, holding (path (run es)) n /\ (0 < n)%nat /\ unsent (run es) = [] /\ waited (run es) = Some true.
Proof.
  intros Hd Hi Et Hb Hm. pose proof (cap_positive (Counting := C)) as Hcap. set (k := Z.to_nat cap).
  destruct (fill _ _ _ _ _ _ _ _ (Z.of_nat total) total k 0 0 _ (conj start_standing Hd) Hi) as (H1 & I1 & E1 & W1);
    [cbn; lia|lia|].
  set (r1 := acts _ _ _) in *. cbn [start_run unsent waited] in E1, W1.
  assert (L1 : length (unsent r1) = 1%nat) by (rewrite E1, length_drop; lia).
  destruct (refuse _ _ _ _ _ _ _ _ (Z.of_nat total) total total (0 + k) 0 r1 H1 I1) as (H2 & I2 & E2 & W2);
    [intros E; rewrite E in L1; discriminate|lia|].
  set (r2 := acts _ _ r1) in *.
  destruct (work_open _ _ _ _ _ _ _ _ (Z.of_nat total) total r2 _ _ H2) as (es3 & j & Hj & Hjb & H3 & E3 & W3 & I3); [lia|].
  set (r3 := acts _ es3 r2) in *. rewrite E2 in E3. rewrite W2, W1 in W3.
  destruct (unsent r3) as [|p ps] eqn:E3'; [rewrite <- E3 in L1; discriminate|].
  destruct (try_open _ _ _ _ _ _ _ _ (Z.of_nat total) total r3 _ _ p ps true H3 E3') as ([H4 _] & E4 & W4 & _);
    [rewrite I3; symmetry; apply Z.ltb_lt; lia|].
  assert (Ep : ps = []) by (destruct ps; [reflexivity|rewrite <- E3 in L1; discriminate]). rewrite Ep in E4.
  set (r4 := acts _ _ r3) in *.
  pose proof (look_done _ _ _ H4 E4 (eq_trans W4 W3) ltac:(lia)) as Hl.
  exists (tries rest true k ++ tries rest false total ++ es3 ++ try_whole rest true ++ [Look false]), (S (0 + k - j)).
  rewrite !acts_app. fold r1 r2 r3 r4. change (acts _ [Look false] r4) with (look (Z.of_nat total) false r4).
  rewrite Hl. destruct (Nat.leb_spec (S (0 + k - j)) (0 + total)); [|lia]. cbn [path unsent waited].
  split; [exact (st_holding _ _ _ _ _ _ _ H4)|]. split; [lia|]. split; reflexivity.
Qed.

End Whole.

(** ** The packets are forwarded *)

Lemma kinds_agree (x : Z) : 0 <= x -> by_third x 1 2 9 = nth (Z.to_nat (x mod 3)) [1; 2; 9] 0.
Proof.
  intros Hx. unfold by_third. pose proof (Z.mod_pos_bound x 3 ltac:(lia)).
  destruct (Z.eqb_spec (x mod 3) 0) as [->|]; [reflexivity|].
  destruct (Z.eqb_spec (x mod 3) 1) as [->|]; [reflexivity|]. replace (x mod 3) with 2 by lia. reflexivity.
Qed.

(** A packet of one of the UEs of the table matches its PDR and is forwarded,
    with the flow identifier it carries. *)
Lemma ue_packet_rules (num_ues x : Z) (p : Packet) :
  0 <= x < num_ues -> num_ues < 2 ^ 31 -> p_teid p = u32 (base_teid + x) -> p_ue_ip p = u32 (base_ue_ip + x) ->
  exists pdr far qer,
    match_pdr (build_demo_rules num_ues) p = Some pdr
    /\ get_far (build_demo_rules num_ues) (pdr_far_id pdr) = Some far /\ far_action far = FORWARD
    /\ get_qer (build_demo_rules num_ues) (pdr_qer_id pdr) = Some qer /\ qer_qfi qer = by_third x 1 2 9
    /\ pdr_dir pdr = p_dir p.
Proof.
  intros Hx Hn Et Eu. pose proof (demo_rules_classify num_ues p ltac:(lia)) as H. cbv zeta in H.
  destruct (demo_ids x ltac:(lia) ltac:(lia)) as (_ & _ & _ & I4 & I5). rewrite I4 in Et. rewrite I5 in Eu.
  assert (Ei : match p_dir p with UL => p_teid p - 1000 | DL => p_ue_ip p - ip4 10 45 0 1 end = x).
  { destruct (p_dir p); [rewrite Et; unfold base_teid|rewrite Eu; change base_ue_ip with (ip4 10 45 0 1)]; lia. }
  rewrite Ei in H. replace ((0 <=? x) && (x <? num_ues)) with true in H by lia.
  destruct H as (pdr & far & qer & Hm & Hf & Hq & Hd & Ha & _ & Hqfi).
  exists pdr, far, qer. rewrite kinds_agree by lia. auto 10.
Qed.

Lemma ue_packet_forwards (num_ues x : Z) (p : Packet) :
  0 <= x < num_ues -> num_ues < 2 ^ 31 -> p_teid p = u32 (base_teid + x) -> p_ue_ip p = u32 (base_ue_ip + x) ->
  forwards (build_demo_rules num_ues) p.
Proof.
  intros Hx Hn Et Eu. destruct (ue_packet_rules num_ues x p Hx Hn Et Eu) as (pdr & far & qer & Hm & Hf & Ha & _).
  exists pdr. rewrite Hf. cbn. rewrite Ha. auto.
Qed.

Lemma generated_forwards (num_ues : Z) (draw now : nat -> Z) (total : nat) :
  num_ues < 2 ^ 31 -> (forall i, 0 <= draw i < num_ues) ->
  Forall (forwards (build_demo_rules num_ues)) (generate_packets draw now total).
Proof.
  intros Hn Hd. apply List.Forall_map, List.Forall_forall. intros i _.
  exact (ue_packet_forwards num_ues (draw i) (generated draw now i) (Hd i) Hn eq_refl eq_refl).
Qed.

Lemma generated_length (draw now : nat -> Z) (total : nat) : length (generate_packets draw now total) = total.
Proof. unfold generate_packets. rewrite length_map. apply length_seq. Qed.

Lemma socket_start_holding (rt : RuleTable) : socket_holding rt (launched rt) 0.
Proof. split; [reflexivity|apply launched_shaped|reflexivity|constructor]. Qed.

Lemma dpdk_start_holding (rt : RuleTable) : dpdk_holding rt (d_start (newDpdk rt)) 0.
Proof.
  destruct (d_ok_new rt) as [_ _ Sz Nx (ms & H & _)]. split; try assumption; try reflexivity.
  - cbn in *. rewrite Nx. unfold POOL_SIZE. lia.
  - exists []. split; [apply new_holds; exact ring_bits_range|]. split; [reflexivity|constructor].
Qed.

(** ** Properties *)

(** What a benchmark of [total] packets reports: whatever the schedule, once it
    is over as many packets have been counted as forwarded as were generated,
    the refused tries of the producer are counted as received and as dropped,
    and none is without a PDR; and every run that has not stopped waiting can
    be brought to an end that the wait sees. *)
Definition reports {M : Type} (run : list (Act M) -> option (bool * Counters)) (wait : list (Act M) -> option bool)
    (total : nat) : Prop :=
  (forall es ok c, run es = Some (ok, c) ->
     exists refused, (refused <= length es)%nat
     /\ c = mkc (Z.of_nat total + Z.of_nat refused) (Z.of_nat total) (Z.of_nat refused))
  /\ (forall es, wait es = None -> Z.of_nat total + Z.of_nat (length es) < 2 ^ 64 ->
        exists es' c, run (es ++ es') = Some (true, c)).

(** C18. Both benchmarks count as many packets forwarded as they generate.  For up
    to [2^31] UEs, whatever UEs are drawn and in every interleaving of the
    producer, the path's threads, the wait and [stop], a run that comes to its
    end reports the counters of [reports]; and every run whose wait is not over
    can be brought to its end.  The counts hold also when the pool of the
    polling path wraps, though a packet may then be counted twice and another,
    overwritten in its buffer, not at all. *)
Theorem benchmark_reports (num_ues : Z) (draw now : nat -> Z) (total : nat) :
  num_ues < 2 ^ 31 -> (forall i, 0 <= draw i < num_ues) ->
  let rt := build_demo_rules num_ues in
  let pkts := generate_packets draw now total in
  reports (run_socket_bench rt pkts)
    (fun es => waited (acts (Z.of_nat total) es (start_run (launched rt) pkts))) total
  /\ reports (run_dpdk_bench rt pkts)
       (fun es => waited (acts (Z.of_nat total) es (start_run (d_start (newDpdk rt)) pkts))) total.
Proof.
  intros Hn Hd rt pkts. pose proof (generated_forwards num_ues draw now total Hn Hd) as Hp. fold rt pkts in Hp.
  pose proof (generated_length draw now total) as Hl. fold pkts in Hl. rewrite <- Hl.
  split; (split; [intros es ok c E|intros es Hw Hb]).
  - exact (bench_result rt _ _ _ _ _ _ _ _ pkts (socket_start_holding rt) eq_refl eq_refl Hp es ok c E).
  - exact (bench_completes rt _ _ _ _ _ _ _ _ pkts (socket_start_holding rt) eq_refl eq_refl Hp es Hw Hb).
  - exact (bench_result rt _ _ _ _ _ _ _ _ pkts (dpdk_start_holding rt) eq_refl eq_refl Hp es ok c E).
  - exact (bench_completes rt _ _ _ _ _ _ _ _ pkts (dpdk_start_holding rt) eq_refl eq_refl Hp es Hw Hb).
Qed.

Lemma benchmark_reports_witness :
  (exists es' c,
    run_socket_bench (build_demo_rules 3) (generate_packets (fun i => Z.of_nat i mod 3) (fun _ => 0) 4)
      ([Try 0; Own (WorkerTurn 0); Own Notify; Try 0] ++ es') = Some (true, c)
    /\ pkts_forwarded c = 4 /\ pkts_no_pdr c = 0)
  /\ (exists es' c,
    run_dpdk_bench (build_demo_rules 3) (generate_packets (fun i => Z.of_nat i mod 3) (fun _ => 0) 4)
      ([Try 0; Try 0] ++ es') = Some (true, c) /\ pkts_forwarded c = 4).
Proof.
  destruct (benchmark_reports 3 (fun i => Z.of_nat i mod 3) (fun _ => 0) 4) as [[Rs Ls] [Rd Ld]].
  - lia.
  - intros i. apply Z.mod_pos_bound. lia.
  - split.
    + destruct (Ls [Try 0; Own (WorkerTurn 0); Own Notify; Try 0]) as (es' & c & E); [vm_compute; reflexivity|cbn; lia|].
      exists es', c. split; [exact E|]. destruct (Rs _ _ _ E) as (k & _ & ->). split; reflexivity.
    + destruct (Ld [Try 0; Try 0]) as (es' & c & E); [vm_compute; reflexivity|cbn; lia|].
      exists es', c. split; [exact E|]. destruct (Rd _ _ _ E) as (k & _ & ->). reflexivity.
Defined.

(** The wait of a benchmark can end while packets still wait.  With one packet
    more than a path holds there is a schedule of each benchmark after which
    [wait_until_done] has returned true and the path's queue is not empty: the
    producer's refused tries are counted as dropped packets, of which the wait
    takes as many as done. *)
Theorem wait_ends_early (num_ues : Z) (draw now : nat -> Z) :
  num_ues < 2 ^ 31 -> (forall i, 0 <= draw i < num_ues) ->
  let rt := build_demo_rules num_ues in
  (exists es, let r := acts 4097 es (start_run (launched rt) (generate_packets draw now (Z.to_nat 4097))) in
     unsent r = [] /\ waited r = Some true /\ pending (path r) <> [])
  /\ (exists es, let r := acts 4096 es (start_run (d_start (newDpdk rt)) (generate_packets draw now (Z.to_nat 4096))) in
     unsent r = [] /\ waited r = Some true /\ ring_empty (rx_ring_ (path r)) = false).
Proof.
  intros Hn Hd rt. split.
  - set (pkts := generate_packets draw now (Z.to_nat 4097)).
    assert (Hl : length pkts = Z.to_nat 4097) by (apply generated_length).
    pose proof (generated_forwards num_ues draw now (Z.to_nat 4097) Hn Hd) as Hp. fold rt pkts in Hp.
    destruct (early_end (H := socket_path) rt _ _ _ _ _ _ _ (launched rt) pkts (socket_start_holding rt) eq_refl eq_refl Hp)
      as (es & n & Hh & Hpos & Eu & Ew); try (rewrite ?Hl; reflexivity);
      [split; [reflexivity|discriminate]|unfold MAX_QUEUE_DEPTH; lia|].
    rewrite Hl in *. change (Z.of_nat (Z.to_nat 4097)) with 4097 in *. exists es. cbv zeta. split; [exact Eu|].
    split; [exact Ew|]. destruct Hh as [_ _ Hq _]. intros E. rewrite E in Hq. cbn in Hq. lia.
  - set (pkts := generate_packets draw now (Z.to_nat 4096)).
    assert (Hl : length pkts = Z.to_nat 4096) by (apply generated_length).
    pose proof (generated_forwards num_ues draw now (Z.to_nat 4096) Hn Hd) as Hp. fold rt pkts in Hp.
    destruct (early_end (H := dpdk_path) rt _ _ _ _ _ _ _ (d_start (newDpdk rt)) pkts (dpdk_start_holding rt) eq_refl eq_refl Hp)
      as (es & n & Hh & Hpos & Eu & Ew); try (rewrite ?Hl; reflexivity); [rewrite ring_capacity; unfold BURST_SIZE; lia|].
    rewrite Hl in *. change (Z.of_nat (Z.to_nat 4096)) with 4096 in *. exists es. cbv zeta. split; [exact Eu|].
    split; [exact Ew|]. destruct Hh as [_ _ _ _ (ms & H & L & _)]. apply Z.eqb_neq. intros E.
    apply (holds_empty RING_BITS ring_bits_range _ ms H) in E. subst ms. cbn in L. lia.
Qed.

Lemma wait_ends_early_witness :
  let rt := build_demo_rules 3 in
  exists es, let r := acts 4097 es (start_run (launched rt)
                            (generate_packets (fun i => Z.of_nat i mod 3) (fun _ => 0) (Z.to_nat 4097))) in
    unsent r = [] /\ waited r = Some true /\ pending (path r) <> [].
Proof.
  intros rt. apply (wait_ends_early 3 (fun i => Z.of_nat i mod 3) (fun _ => 0)); [lia|].
  intros i. apply Z.mod_pos_bound. lia.
Defined.

(** What is shown of the packet of turn [i]. *)
Definition shown (rt : RuleTable) (num_ues i : Z) (t : Packet * option PDR * option FAR * option QER) : Prop :=
  exists pkt pdr far qer,
    t = (pkt, Some pdr, Some far, Some qer)
    /\ p_teid pkt = 1000 + i mod num_ues /\ p_dir pkt = direction i /\ pdr_dir pdr = direction i
    /\ far_action_str (far_action far) = str "FORWARD" /\ qer_qfi qer = p_qfi pkt
    /\ In (qfi_name (qer_qfi qer)) [str "voice"; str "video"; str "data BE"].

Lemma packet_shown (num_ues i now : Z) :
  0 < num_ues < 2 ^ 31 ->
  exists pkt, demo_packet num_ues i now = Ok pkt
              /\ forwards (build_demo_rules num_ues) pkt
              /\ shown (build_demo_rules num_ues) num_ues i (demo_trace (build_demo_rules num_ues) pkt).
Proof.
  intros Hn. pose proof (Z.mod_pos_bound i num_ues ltac:(lia)) as Hx. unfold demo_packet.
  replace (num_ues =? 0) with false by lia. set (pkt := make_demo_packet _ _ _ _). exists pkt. split; [reflexivity|].
  split; [exact (ue_packet_forwards num_ues (i mod num_ues) pkt Hx ltac:(lia) eq_refl eq_refl)|].
  destruct (ue_packet_rules num_ues (i mod num_ues) pkt Hx ltac:(lia) eq_refl eq_refl)
    as (pdr & far & qer & Hm & Hf & Ha & Hq & Hk & Hd).
  exists pkt, pdr, far, qer. unfold demo_trace. rewrite Hm. cbn [mbind option_bind]. rewrite Hf, Hq.
  split; [reflexivity|]. split; [apply (demo_ids (i mod num_ues)); lia|]. split; [reflexivity|].
  split; [exact Hd|]. split; [rewrite Ha; reflexivity|]. split; [exact Hk|].
  rewrite Hk. unfold by_third. destruct (_ =? 0); [cbn; auto|]. destruct (_ =? 1); cbn; auto.
Qed.

(** The demonstration shows every packet being forwarded by the rules of its
    UE: for up to [2^31] UEs, whatever the path's threads do meanwhile, each
    packet matches a PDR of its direction whose FAR forwards it, and the flow
    identifier of its QER is the one it carries, with a name; with no UEs at
    all the demonstration has no behaviour as soon as there is a packet. *)
Theorem demo_shows {T : Type} `{Path T} (num_ues : Z) (now : Z -> Z) (sched : Z -> list PMove) (is_ : list Z)
    (s : option T) :
  0 <= num_ues < 2 ^ 31 ->
  let demo := socket_demo (build_demo_rules num_ues) num_ues now sched is_ s in
  if num_ues =? 0 then is_ <> [] -> demo = Undefined
  else exists s' ts, demo = Ok (s', ts) /\ Forall2 (shown (build_demo_rules num_ues) num_ues) is_ ts.
Proof.
  intros Hn demo. subst demo. destruct (Z.eqb_spec num_ues 0) as [->|Hne].
  - intros Hi. destruct is_; [contradiction|reflexivity].
  - revert s. induction is_ as [|i is_ IH]; intros s; [exists s, []; split; [reflexivity|constructor]|].
    destruct (packet_shown num_ues i (now i) ltac:(lia)) as (pkt & E & _ & Hs).
    cbn [socket_demo]. unfold socket_demo_turn. rewrite E, !res_bind_Ok. cbn [fst snd].
    destruct (IH (s ≫= offer_then pkt (sched i))) as (s' & ts & -> & Hts).
    rewrite res_bind_Ok. exists s', (demo_trace (build_demo_rules num_ues) pkt :: ts).
    split; [reflexivity|]. constructor; assumption.
Qed.

Lemma demo_shows_witness :
  exists s' ts,
    @socket_demo SocketRun socket_path (build_demo_rules 5) 5 (fun i => i) (fun _ => [Notify; WorkerTurn 0; WorkerTurn 1] : list Move) [0; 1; 2]
      (Some (launched (build_demo_rules 5)))
    = Ok (s', ts) /\ length ts = 3%nat.
Proof.
  destruct (@demo_shows SocketRun socket_path 5 (fun i => i) (fun _ => [Notify; WorkerTurn 0; WorkerTurn 1] : list Move)
              [0; 1; 2] (Some (launched (build_demo_rules 5))))
    as (s' & ts & E & F); [lia|]. exists s', ts. split; [exact E|]. rewrite <- (Forall2_length F). reflexivity.
Defined.
