(* ===== verification/PerfMain.v ===== *)
(** * The program of the IMS performance scenarios

    [ims-simulator/src/perf_scenarios_main.cpp] and the runner of
    [perf_scenarios.cpp]: the options, the scenarios and variants they lead to,
    and the table printed at the end.  What a variant measures is a parameter;
    the scenarios themselves are in [PerfTables] and [PerfThreads]. *)

From Stdlib Require Import ZArith Lia.
From stdpp Require Import list strings.
From S2P Require Import Prelude Text Strings PerfTables DpdkReal.
#[local] Open Scope Z_scope.

(** ** Options *)

Record Options : Type := mkOptions { target_scenario : Z; only_buggy : bool; only_fixed : bool }.

Definition no_options : Options := mkOptions 0 false false.

Inductive Parsed : Type :=
| PrintUsage
| ListScenarios
| InvalidScenario (n : Z)
| RunWith (o : Options).

(** The two comparisons at the end of a turn of the loop. *)
Definition flags (arg : bytes) (o : Options) : Options :=
  mkOptions (target_scenario o)
    (only_buggy o || bool_decide (arg = str "--buggy"))
    (only_fixed o || bool_decide (arg = str "--fixed")).

Definition set_target (n : Z) (o : Options) : Options := mkOptions n (only_buggy o) (only_fixed o).

(** The loop over [argv]; after [--scenario] the comparisons look at its
    value. *)
Fixpoint parse_options (args : list bytes) (o : Options) : res Parsed :=
  match args with
  | [] => mret (RunWith o)
  | arg :: rest =>
      if bool_decide (arg = str "--help") || bool_decide (arg = str "-h") then mret PrintUsage
      else if bool_decide (arg = str "--list") || bool_decide (arg = str "-l") then mret ListScenarios
      else if bool_decide (arg = str "--scenario") then
        match rest with
        | value :: rest =>
            n ← atoi value;
            if (n <? 1) || (5 <? n) then mret (InvalidScenario n)
            else parse_options rest (flags value (set_target n o))
        | [] => parse_options rest (flags arg o)
        end
      else parse_options rest (flags arg o)
  end.

(** ** The runner *)

Inductive Variant : Set := BuggyVariant | FixedVariant.

(** A run of a variant: the scenario, the variant and the arguments. *)
Record Run : Type := mkRun { scenario : Z; variant : Variant; params : list Z }.

(** [run_buggy_] and [run_fixed_] after the calls of [setMode]. *)
Definition mode (o : Options) : bool * bool :=
  let m := (true, true) in
  let m := if only_buggy o then (true, false) else m in
  if only_fixed o then (false, true) else m.

(** [runScenario1] and so on: the variants that run. *)
Definition variants (m : bool * bool) (n : Z) (ps : list Z) : list Run :=
  (if m.1 then [mkRun n BuggyVariant ps] else []) ++ (if m.2 then [mkRun n FixedVariant ps] else []).

(** The default arguments, of a scenario that is run alone. *)
Definition alone_params : list (list Z) := [[5000]; [10000; 4]; [10000]; [1000]; [10000]].

(** The arguments in [runAll]. *)
Definition all_params : list (list Z) := [[2000]; [5000; 4]; [1000]; [500]; [10000]].

Definition numbered (pss : list (list Z)) : list (Z * list Z) := combine [1; 2; 3; 4; 5] pss.

Section Main.
Context {V : Type} (zero : V) (measure : Run -> V).

(** What the program leaves: its status, what ran, and the table if printed. *)
Record Report : Type := mkReport {
  status : Z; ran : list Run; table : option (list (@Results.Result V))
}.

(** [runAll] *)
Definition all_runs (m : bool * bool) : list Run :=
  concat (map (fun x => variants m x.1 x.2) (numbered all_params)).

Definition all_measured : list (V * V) :=
  map (fun x => (measure (mkRun x.1 BuggyVariant x.2), measure (mkRun x.1 FixedVariant x.2)))
    (numbered all_params).

(** The [switch] of [main]. *)
Definition one_run (m : bool * bool) (n : Z) : list Run :=
  match lookup (Z.to_nat (n - 1)) alone_params with
  | Some ps => variants m n ps
  | None => []
  end.

Definition perf_main (args : list bytes) : res Report :=
  p ← parse_options args no_options;
  match p with
  | PrintUsage | ListScenarios => mret (mkReport 0 [] None)
  | InvalidScenario _ => mret (mkReport 1 [] None)
  | RunWith o =>
      let m := mode o in
      if 0 <? target_scenario o then mret (mkReport 0 (one_run m (target_scenario o)) None)
      else mret (mkReport 0 (all_runs m) (Some (Results.runAll zero m.1 m.2 all_measured [])))
  end.

End Main.

(** ** What is asked for *)

Inductive Option : Type := AskScenario (n : Z) | AskBuggy | AskFixed.

Definition written (a : Option) : list bytes :=
  match a with
  | AskScenario n => [str "--scenario"; to_stringZ n]
  | AskBuggy => [str "--buggy"]
  | AskFixed => [str "--fixed"]
  end.

Definition wf_option (a : Option) : Prop :=
  match a with AskScenario n => 1 <= n <= 5 | _ => True end.

Definition asked_scenario (a : Option) : option Z := match a with AskScenario n => Some n | _ => None end.
Definition is_buggy (a : Option) : bool := match a with AskBuggy => true | _ => false end.
Definition is_fixed (a : Option) : bool := match a with AskFixed => true | _ => false end.

(** The last scenario asked for, 0 for none. *)
Definition chosen (l : list Option) : Z := List.last (omap asked_scenario l) 0.

(** The variants asked for: [--fixed] is stronger than [--buggy]. *)
Definition with_buggy (l : list Option) : bool := negb (existsb is_fixed l).
Definition with_fixed (l : list Option) : bool := existsb is_fixed l || negb (existsb is_buggy l).

(** ** Lemmas *)

Definition apply_option (a : Option) (o : Options) : Options :=
  match a with
  | AskScenario n => set_target n o
  | AskBuggy => mkOptions (target_scenario o) true (only_fixed o)
  | AskFixed => mkOptions (target_scenario o) (only_buggy o) true
  end.

Lemma parse_option (a : Option) (rest : list bytes) (o : Options) :
  wf_option a -> parse_options (written a ++ rest) o = parse_options rest (apply_option a o).
Proof.
  intros Ha. destruct o as [t b f]. destruct a as [n| |].
  - cbn in Ha. assert (En : n = 1 \/ n = 2 \/ n = 3 \/ n = 4 \/ n = 5) by lia.
    assert (E : forall v m, atoi v = Ok m -> 1 <= m <= 5 -> v <> str "--buggy" -> v <> str "--fixed" ->
              parse_options (str "--scenario" :: v :: rest) (mkOptions t b f)
              = parse_options rest (mkOptions m b f)).
    { intros v m E Hm Hb Hf. cbn [parse_options].
      repeat (rewrite (bool_decide_eq_false_2 (str "--scenario" = _)) by discriminate). cbn [orb].
      rewrite (bool_decide_eq_true_2 (str "--scenario" = str "--scenario")) by reflexivity.
      rewrite E. cbn [mbind res_bind]. replace ((m <? 1) || (5 <? m)) with false by lia.
      unfold flags, set_target. rewrite !bool_decide_eq_false_2 by assumption. cbn. rewrite !orb_false_r. reflexivity. }
    cbn [written app apply_option]. unfold set_target. cbn.
    repeat destruct En as [->|En]; try subst n; apply E; first [reflexivity|lia|vm_compute; discriminate].
  - cbn [written app apply_option target_scenario only_buggy only_fixed].
    replace (mkOptions t true f) with (flags (str "--buggy") (mkOptions t b f)); [reflexivity|].
    unfold flags. cbn. rewrite orb_true_r, orb_false_r. reflexivity.
  - cbn [written app apply_option target_scenario only_buggy only_fixed].
    replace (mkOptions t b true) with (flags (str "--fixed") (mkOptions t b f)); [reflexivity|].
    unfold flags. cbn. rewrite orb_true_r, orb_false_r. reflexivity.
Qed.

Lemma last_or (l : list Z) (t n : Z) : List.last (n :: l) t = List.last l n.
Proof. destruct l as [|m l]; [reflexivity|]. revert m. induction l as [|k l IH]; intros m; [reflexivity|exact (IH k)]. Qed.

Lemma options_parse (l : list Option) (o : Options) :
  Forall wf_option l ->
  parse_options (concat (map written l)) o
  = Ok (RunWith (mkOptions (List.last (omap asked_scenario l) (target_scenario o))
                   (only_buggy o || existsb is_buggy l) (only_fixed o || existsb is_fixed l))).
Proof.
  intros Hl. revert o. induction Hl as [|a l Ha _ IH]; intros o.
  - destruct o. cbn. rewrite !orb_false_r. reflexivity.
  - cbn [map concat]. rewrite parse_option, IH by exact Ha. destruct o as [t b f].
    destruct a as [n| |]; cbn; rewrite ?orb_true_r; [|reflexivity..].
    do 3 f_equal. symmetry. apply (last_or _ t n).
Qed.

Lemma mode_asked (l : list Option) (n : Z) :
  mode (mkOptions n (existsb is_buggy l) (existsb is_fixed l)) = (with_buggy l, with_fixed l).
Proof. unfold mode, with_buggy, with_fixed. cbn. destruct (existsb is_fixed l), (existsb is_buggy l); reflexivity. Qed.

Lemma chosen_range (l : list Option) : Forall wf_option l -> chosen l = 0 \/ 1 <= chosen l <= 5.
Proof.
  unfold chosen. intros Hl. assert (G : forall t, t = 0 \/ 1 <= t <= 5 ->
    List.last (omap asked_scenario l) t = 0 \/ 1 <= List.last (omap asked_scenario l) t <= 5); [|apply G; lia].
  induction Hl as [|a l Ha _ IH]; intros t Ht; [exact Ht|].
  destruct a as [n| |]; cbn [omap list_omap asked_scenario]; [|exact (IH t Ht)..].
  cbn in Ha. rewrite last_or. apply IH. lia.
Qed.

(** ** Properties *)

Section Properties.
Context {V : Type} (zero : V) (measure : Run -> V).

(** The row of a scenario with the variants that ran. *)
Definition row_of (m : bool * bool) (x : bytes * bytes * bytes * (Z * list Z)) : list (@Results.Result V) :=
  let b := measure (mkRun x.2.1 BuggyVariant x.2.2) in
  let f := measure (mkRun x.2.1 FixedVariant x.2.2) in
  ResultsFacts.row zero m.1 m.2 (x.1, (b, f)).

(** Whatever is asked for in whatever order: the last scenario asked for
    runs, or all five; the faulty variant runs unless [--fixed] is there, the
    repaired one unless only [--buggy] is; and the table is printed when all
    run, with one row for each scenario, never for a scenario alone. *)
Theorem options_followed (l : list Option) (Hl : Forall wf_option l) :
  perf_main zero measure (concat (map written l)) =
  Ok (if chosen l =? 0 then
        mkReport 0 (all_runs (with_buggy l, with_fixed l))
          (Some (flat_map (row_of (with_buggy l, with_fixed l))
                   (combine Results.scenario_rows (numbered all_params))))
      else mkReport 0 (one_run (with_buggy l, with_fixed l) (chosen l)) None)
  /\ (forall r, r ∈ all_runs (with_buggy l, with_fixed l) ++ one_run (with_buggy l, with_fixed l) (chosen l) ->
        match variant r with BuggyVariant => with_buggy l | FixedVariant => with_fixed l end = true)
  /\ (chosen l <> 0 -> one_run (with_buggy l, with_fixed l) (chosen l) <> []).
Proof.
  pose proof (chosen_range l Hl) as Hc. split; [|split].
  - unfold perf_main. rewrite options_parse by exact Hl. cbn [mbind res_bind]. unfold no_options. cbn [target_scenario only_buggy only_fixed orb].
    rewrite mode_asked. fold (chosen l). destruct Hc as [-> | Hc].
    + cbn [Z.ltb Z.eqb fst snd]. rewrite ResultsFacts.runAll_rows. reflexivity.
    + replace (0 <? chosen l) with true by lia. replace (chosen l =? 0) with false by lia. reflexivity.
  - assert (Hv : forall n ps r, r ∈ variants (with_buggy l, with_fixed l) n ps ->
      match variant r with BuggyVariant => with_buggy l | FixedVariant => with_fixed l end = true).
    { intros n ps r. unfold variants. cbn [fst snd]. destruct (with_buggy l), (with_fixed l); cbn;
        intros Hr; repeat (apply elem_of_cons in Hr as [->|Hr]; [reflexivity|]); apply elem_of_nil in Hr; contradiction. }
    intros r Hr. apply elem_of_app in Hr as [Hr|Hr].
    + unfold all_runs in Hr. apply list_elem_of_In, in_concat in Hr as (xs & Hx & Hr).
      apply in_map_iff in Hx as (x & <- & _). eapply Hv, list_elem_of_In, Hr.
    + unfold one_run in Hr. destruct (lookup _ _); [exact (Hv _ _ _ Hr)|apply elem_of_nil in Hr; contradiction].
  - intros Hn. destruct Hc as [Hc|Hc]; [contradiction|]. unfold one_run, variants, with_buggy, with_fixed. cbn [fst snd].
    assert (En : chosen l = 1 \/ chosen l = 2 \/ chosen l = 3 \/ chosen l = 4 \/ chosen l = 5) by lia.
    repeat destruct En as [->|En]; try rewrite En; cbn; destruct (existsb is_fixed l), (existsb is_buggy l); discriminate.
Qed.

(** A scenario number out of range is refused with status 1 and nothing
    runs, whatever was asked for before it and whatever follows. *)
Theorem bad_scenario_refused (l : list Option) (n : Z) (rest : list bytes)
    (Hl : Forall wf_option l) (Hn : - 2 ^ 31 <= n < 2 ^ 31) (Hb : n < 1 \/ 5 < n) :
  perf_main zero measure (concat (map written l) ++ written (AskScenario n) ++ rest) = Ok (mkReport 1 [] None).
Proof.
  unfold perf_main. generalize no_options. intros o. revert o.
  induction Hl as [|a l Ha _ IH]; intros o.
  - cbn [map concat app written parse_options].
    repeat (rewrite (bool_decide_eq_false_2 (str "--scenario" = _)) by discriminate). cbn [orb].
    rewrite (bool_decide_eq_true_2 (str "--scenario" = str "--scenario")) by reflexivity.
    rewrite atoi_printed by (unfold in_i; exact Hn). cbn [mbind res_bind].
    replace ((n <? 1) || (5 <? n)) with true by lia. reflexivity.
  - cbn [map concat]. rewrite <- !app_assoc, parse_option by exact Ha. apply IH.
Qed.

End Properties.

(** ** Concrete runs *)

Lemma options_followed_witness :
  perf_main 0 scenario [str "--scenario"; str "2"; str "--buggy"; str "--fixed"; str "--scenario"; str "4"]
  = Ok (mkReport 0 [mkRun 4 FixedVariant [1000]] None).
Proof.
  destruct (options_followed 0 scenario [AskScenario 2; AskBuggy; AskFixed; AskScenario 4]) as (E & _).
  - repeat constructor; cbn; lia.
  - exact E.
Defined.

Lemma bad_scenario_refused_witness :
  perf_main 0 scenario [str "--buggy"; str "--scenario"; str "7"; str "--fixed"] = Ok (mkReport 1 [] None).
Proof.
  apply (bad_scenario_refused 0 scenario [AskBuggy] 7 [str "--fixed"]).
  - repeat constructor.
  - lia.
  - lia.
Defined.
