(* ===== verification/Json.v ===== *)
(** * Flat JSON texts

    The hand-written JSON helpers of [5g-simulator/src/common/wire.h] (the
    CBRS programs carry a copy of the builders) and the frames in which the
    gNB and the AMF exchange them.  The getter is naive: it looks for the
    quoted key anywhere in the text and cuts the value at the next quote, comma
    or brace.  [get_fields] gives its reference meaning on every text that the
    builders make from well-formed values: the first member of that name in
    document order, at any depth. *)

From S2P Require Import Prelude Text Strings Framing.
#[local] Open Scope Z_scope.

(** ** The helpers *)

Module json.

(** [str("x")] is the text in quotes. *)
Definition str (s : bytes) : bytes := 34 :: s ++ [34].

Definition num (n : Z) : bytes := to_stringZ n.

(** The quoted key and its colon: what the builder writes and the getter
    looks for. *)
Definition needle (key : bytes) : bytes := 34 :: key ++ [34; 58].

(** The loop of [obj]: members, with a comma after each but the last. *)
Fixpoint members (kv : list (bytes * bytes)) : bytes :=
  match kv with
  | [] => []
  | (k, v) :: kv' =>
      needle k ++ v ++ match kv' with [] => [] | _ :: _ => 44 :: members kv' end
  end.

Definition obj (kv : list (bytes * bytes)) : bytes := 123 :: members kv ++ [125].

Definition is_quote (c : Z) : bool := c =? 34.
(** The characters of [find_first_of(",}")]. *)
Definition is_sep (c : Z) : bool := (c =? 44) || (c =? 125).

Definition get (text key : bytes) : bytes :=
  match find_sub (needle key) text with
  | None => []
  | Some p =>
      let p := (p + length (needle key))%nat in
      if match text !! p with Some c => is_quote c | None => false end
      then substr text (p + 1) (find_if_from is_quote text (p + 1))
      else substr text p (find_if_from is_sep text p)
  end.

End json.

(** [n2Frame] and [n2Text]: the text behind its length. *)
Definition n2Frame (json_text : bytes) : bytes :=
  le32 (u32 (Z.of_nat (length json_text))) ++ json_text.
Definition n2Text (payload : bytes) : bytes := payload.

(** ** What the getter reads after a key *)

Definition up_to (p : Z -> bool) (t : bytes) : bytes :=
  match find_if p t with Some i => take i t | None => t end.

Definition json_value (t : bytes) : bytes :=
  match t with
  | c :: t' => if json.is_quote c then up_to json.is_quote t' else up_to json.is_sep t
  | [] => []
  end.

Lemma substr_up_to (p : Z -> bool) (s : bytes) (i : nat) :
  substr s i (find_if_from p s i) = up_to p (drop i s).
Proof.
  unfold substr, find_if_from, up_to. destruct (find_if p (drop i s)) as [j|]; cbn; [|reflexivity].
  f_equal. lia.
Qed.

Lemma get_after (text key : bytes) :
  json.get text key =
  match after (json.needle key) text with Some t => json_value t | None => [] end.
Proof.
  unfold json.get, after. destruct (find_sub (json.needle key) text) as [p|]; cbn; [|reflexivity].
  set (q := (p + length (json.needle key))%nat).
  replace (S (length (key ++ [34; 58]))) with (length (json.needle key)) by reflexivity.
  fold q. rewrite !substr_up_to. unfold json_value.
  destruct (drop q text) as [|c t] eqn:E.
  - replace (text !! q) with (@None Z); [reflexivity|].
    symmetry. rewrite <- (Nat.add_0_r q), <- lookup_drop, E. reflexivity.
  - rewrite <- E. apply lookup_drop_S in E as [-> E']. rewrite Nat.add_1_r, E'. reflexivity.
Qed.

Lemma up_to_app (p : Z -> bool) (l s : bytes) (c : Z) :
  Forall (fun x => p x = false) l -> p c = true -> up_to p (l ++ c :: s) = l.
Proof.
  intros Hl Hc. unfold up_to. rewrite (find_if_at p l s c Hl Hc). apply take_app_length.
Qed.

Lemma up_to_mono (p : Z -> bool) (l s : bytes) :
  find_if p l <> None -> up_to p (l ++ s) = up_to p l.
Proof.
  intros H. unfold up_to.
  assert (E : forall i, find_if p l = Some i -> find_if p (l ++ s) = Some i /\ (i < length l)%nat).
  { clear H. induction l as [|c l IH]; intros i; cbn; [discriminate|].
    destruct (p c); [intros [= <-]; split; [reflexivity|lia]|].
    destruct (find_if p l) as [j|]; cbn; [|discriminate]. intros [= <-].
    destruct (IH j eq_refl) as [-> ?]. split; [reflexivity|lia]. }
  destruct (find_if p l) as [i|]; [|contradiction]. destruct (E i eq_refl) as [-> ?].
  apply take_app_le. lia.
Qed.

(** ** Well-formed names and values *)

(** A character that can stand in a key: none of those that end a token. *)
Definition key_char (c : Z) : bool :=
  negb (c =? 34) && negb (c =? 58) && negb (c =? 44) && negb (c =? 125).
Definition ident (k : bytes) : Prop := forallb key_char k = true.

Definition noquote (l : bytes) : Prop := Forall (fun c => c <> 34) l.
(** A bare token: a number, for instance. *)
Definition bare (l : bytes) : Prop := Forall (fun c => c <> 34 /\ c <> 44 /\ c <> 125) l.

Inductive jval : Type :=
| JStr (s : bytes)
| JTok (t : bytes)
| JObj (m : jmem)
with jmem : Type :=
| MNil
| MCons (k : bytes) (v : jval) (m : jmem).

Scheme jval_jmem_ind := Induction for jval Sort Prop
  with jmem_jval_ind := Induction for jmem Sort Prop.
Combined Scheme json_ind from jval_jmem_ind, jmem_jval_ind.

Fixpoint render (v : jval) : bytes :=
  match v with
  | JStr s => json.str s
  | JTok t => t
  | JObj m => json.obj (fields m)
  end
with fields (m : jmem) : list (bytes * bytes) :=
  match m with
  | MNil => []
  | MCons k v m' => (k, render v) :: fields m'
  end.

Fixpoint wf_val (v : jval) : Prop :=
  match v with
  | JStr s => noquote s
  | JTok t => bare t
  | JObj m => wf_mem m
  end
with wf_mem (m : jmem) : Prop :=
  match m with
  | MNil => True
  | MCons k v m' => ident k /\ wf_val v /\ wf_mem m'
  end.

(** The first member of a name, in document order and at any depth. *)
Fixpoint first_in (k : bytes) (v : jval) : option jval :=
  match v with JObj m => first_member k m | _ => None end
with first_member (k : bytes) (m : jmem) : option jval :=
  match m with
  | MNil => None
  | MCons a v m' =>
      if decide (k = a) then Some v
      else match first_in k v with Some x => Some x | None => first_member k m' end
  end.

(** What the getter returns of a value: an inner object is cut at its first
    comma or brace. *)
Definition text_of (v : jval) : bytes :=
  match v with
  | JStr s => s
  | JTok t => t
  | JObj m => up_to json.is_sep (render v)
  end.

(** ** The getter against its reference *)

Lemma ident_cons (c : Z) (k : bytes) : ident (c :: k) -> key_char c = true /\ ident k.
Proof. apply andb_true_iff. Qed.

Lemma ident_noquote (k : bytes) : ident k -> noquote k.
Proof.
  induction k as [|c k IH]; intros H; [constructor|]. apply ident_cons in H as [Hc Hk].
  constructor; [|exact (IH Hk)]. unfold key_char in Hc. lia.
Qed.

(** Comparing a key with quote-free text behind a quote. *)
Lemma prefixb_quoted (k a s : bytes) (c : Z) :
  noquote k -> noquote a ->
  prefixb (k ++ [34; 58]) (a ++ 34 :: c :: s) = bool_decide (k = a) && (c =? 58).
Proof.
  intros Hk. revert a. induction Hk as [|x k Hx Hk IH]; intros a Ha; destruct Ha as [|y a Hy Ha].
  - cbn [app prefixb]. rewrite Z.eqb_refl, Z.eqb_sym, andb_true_r. reflexivity.
  - cbn [app prefixb]. replace (34 =? y) with false by lia. reflexivity.
  - cbn [app prefixb]. replace (x =? 34) with false by lia. reflexivity.
  - cbn [app prefixb]. rewrite IH by exact Ha. destruct (Z.eqb_spec x y) as [->|Hxy]; cbn [andb].
    + f_equal. apply bool_decide_ext. split; [intros ->; reflexivity|intros [= ->]; reflexivity].
    + rewrite bool_decide_eq_false_2; [reflexivity|]. intros [= -> _]. contradiction.
Qed.

Lemma prefixb_not_key (k s : bytes) (c : Z) :
  ident k -> key_char c = false -> c <> 34 -> prefixb (k ++ [34; 58]) (c :: s) = false.
Proof.
  intros Hk Hc H34. destruct k as [|x k]; cbn [app prefixb].
  - replace (34 =? c) with false by lia. reflexivity.
  - apply ident_cons in Hk as [Hx _]. destruct (Z.eqb_spec x c) as [->|]; [congruence|reflexivity].
Qed.

Lemma after_needle_skip (k s : bytes) (c : Z) :
  c <> 34 -> after (json.needle k) (c :: s) = after (json.needle k) s.
Proof.
  intros Hc. unfold json.needle. apply (after_skip_app 34 _ [c]). constructor; [exact Hc|constructor].
Qed.

Lemma after_needle_quote (k s : bytes) (c : Z) :
  ident k -> key_char c = false -> c <> 34 ->
  after (json.needle k) (34 :: c :: s) = after (json.needle k) s.
Proof.
  intros Hk Hc H34. unfold json.needle. rewrite after_skip.
  - apply (after_needle_skip k); exact H34.
  - cbn. apply prefixb_not_key; assumption.
Qed.

(** Another member's key is passed over. *)
Lemma after_other_key (k a s : bytes) :
  ident k -> ident a -> k <> a ->
  after (json.needle k) (json.needle a ++ s) = after (json.needle k) s.
Proof.
  intros Hk Ha Hne. unfold json.needle at 2. cbn [app]. rewrite <- app_assoc. cbn [app].
  unfold json.needle at 1. rewrite after_skip.
  - rewrite after_skip_app by (apply ident_noquote; exact Ha).
    apply (after_needle_quote k); [exact Hk|reflexivity|lia].
  - cbn [prefixb]. rewrite Z.eqb_refl. cbn [andb].
    rewrite prefixb_quoted by (apply ident_noquote; assumption).
    rewrite bool_decide_eq_false_2 by exact Hne. reflexivity.
Qed.

Definition sep_char (c : Z) : Prop := json.is_sep c = true.

Lemma sep_not_key (c : Z) : sep_char c -> key_char c = false /\ c <> 34 /\ c <> 58.
Proof. unfold sep_char, json.is_sep, key_char. lia. Qed.

(** So is a quoted value. *)
Lemma after_str (k s t : bytes) (c : Z) :
  ident k -> noquote s -> sep_char c ->
  after (json.needle k) (json.str s ++ c :: t) = after (json.needle k) (c :: t).
Proof.
  intros Hk Hs Hc. destruct (sep_not_key c Hc) as (H1 & H2 & H3).
  unfold json.str. cbn [app]. rewrite <- app_assoc. cbn [app]. unfold json.needle at 1.
  rewrite after_skip.
  - rewrite after_skip_app by exact Hs. fold (json.needle k).
    rewrite after_needle_quote, after_needle_skip by assumption. reflexivity.
  - cbn [prefixb]. rewrite Z.eqb_refl. cbn [andb].
    rewrite prefixb_quoted by (exact Hs || apply ident_noquote; exact Hk).
    replace (c =? 58) with false by lia. apply andb_false_r.
Qed.

Lemma after_bare (k t s : bytes) :
  bare t -> after (json.needle k) (t ++ s) = after (json.needle k) s.
Proof.
  intros Ht. unfold json.needle. apply after_skip_app.
  eapply List.Forall_impl; [|exact Ht]. cbn. tauto.
Qed.

(** What a search that reaches a value, or the members of an object, finds. *)
Definition search (k text : bytes) (found : option jval) (rest : bytes) : Prop :=
  match found with
  | Some x => exists c t, sep_char c /\ after (json.needle k) text = Some (render x ++ c :: t)
  | None => after (json.needle k) text = after (json.needle k) rest
  end.

Lemma search_skip (k text text' rest : bytes) (found : option jval) :
  after (json.needle k) text = after (json.needle k) text' ->
  search k text' found rest -> search k text found rest.
Proof. unfold search. intros ->. auto. Qed.

Lemma search_fields (k : bytes) :
  ident k ->
  (forall v, wf_val v -> forall c t, sep_char c ->
     search k (render v ++ c :: t) (first_in k v) (c :: t))
  /\ (forall m, wf_mem m -> forall c t, sep_char c ->
     search k (json.members (fields m) ++ c :: t) (first_member k m) (c :: t)).
Proof.
  intros Hk. apply json_ind.
  - intros s Hs c t Hc. apply after_str; assumption.
  - intros u Hu c t Hc. apply after_bare. exact Hu.
  - intros m IH Hm c t Hc. cbn [render first_in]. unfold json.obj. cbn [app].
    apply search_skip with (json.members (fields m) ++ 125 :: c :: t).
    { rewrite after_needle_skip by lia. rewrite <- app_assoc. reflexivity. }
    specialize (IH Hm 125 (c :: t) eq_refl). unfold search in *.
    destruct (first_member k m); [exact IH|]. rewrite IH. apply after_needle_skip. lia.
  - intros _ c t _. reflexivity.
  - intros a v IHv m IHm (Ha & Hv & Hm) c t Hc. cbn [fields json.members first_member].
    rewrite <- !app_assoc.
    assert (Hend : exists d u, sep_char d
              /\ match fields m with [] => [] | _ :: _ => 44 :: json.members (fields m) end ++ c :: t
                 = d :: u
              /\ after (json.needle k) (d :: u)
                 = after (json.needle k) (json.members (fields m) ++ c :: t)).
    { destruct (fields m); [exists c, t|exists 44, (json.members (p :: l) ++ c :: t)];
        (split; [auto; reflexivity|]; split; [reflexivity|]); [reflexivity|].
      apply after_needle_skip. lia. }
    destruct Hend as (d & u & Hd & -> & Hu).
    destruct (decide (k = a)) as [->|Hne].
    + exists d, u. split; [exact Hd|]. apply after_hit.
    + apply search_skip with (render v ++ d :: u); [apply after_other_key; assumption|].
      specialize (IHv Hv d u Hd). destruct (first_in k v); [exact IHv|].
      cbn [search] in IHv. apply search_skip with (d :: u); [exact IHv|].
      apply search_skip with (json.members (fields m) ++ c :: t); [exact Hu|].
      exact (IHm Hm c t Hc).
Qed.

Lemma json_value_render (v : jval) (c : Z) (t : bytes) :
  wf_val v -> sep_char c -> json_value (render v ++ c :: t) = text_of v.
Proof.
  intros Hv Hc. destruct v as [s|u|m].
  - cbn. rewrite <- app_assoc. apply up_to_app; [|reflexivity].
    eapply List.Forall_impl; [|exact Hv]. intros x Hx. apply Z.eqb_neq. exact Hx.
  - assert (E : json_value (u ++ c :: t) = up_to json.is_sep (u ++ c :: t)).
    { destruct (sep_not_key c Hc) as (_ & H & _).
      destruct Hv as [|x u (Hx & _) _]; cbn [app json_value]; unfold json.is_quote;
        [replace (c =? 34) with false by lia|replace (x =? 34) with false by lia]; reflexivity. }
    cbn [render]. rewrite E. apply up_to_app; [|exact Hc].
    eapply List.Forall_impl; [|exact Hv]. unfold json.is_sep. cbn. lia.
  - cbn [render text_of]. change (json_value (json.obj (fields m) ++ c :: t))
      with (up_to json.is_sep (json.obj (fields m) ++ c :: t)).
    apply up_to_mono. unfold json.obj. cbn [find_if]. change (json.is_sep 123) with false.
    cbn iota. rewrite fmap_None. clear. induction (json.members (fields m)) as [|x l IH]; cbn; [discriminate|].
    destruct (json.is_sep x); [discriminate|]. rewrite fmap_None. exact IH.
Qed.

Lemma first_wf (k : bytes) :
  (forall v, wf_val v -> forall x, first_in k v = Some x -> wf_val x)
  /\ (forall m, wf_mem m -> forall x, first_member k m = Some x -> wf_val x).
Proof.
  apply json_ind; cbn; try discriminate; auto.
  intros a v IHv m IHm (_ & Hv & Hm) x. destruct (decide (k = a)); [congruence|].
  destruct (first_in k v) as [y|] eqn:E; [intros [= <-]; exact (IHv Hv y eq_refl)|exact (IHm Hm x)].
Qed.

(** The getter returns the first member of that name in document order. *)
Lemma get_fields (m : jmem) (k : bytes) :
  wf_mem m -> ident k ->
  json.get (json.obj (fields m)) k =
  match first_member k m with Some v => text_of v | None => [] end.
Proof.
  intros Hm Hk. rewrite get_after. unfold json.obj.
  rewrite after_needle_skip by lia.
  pose proof (proj2 (search_fields k Hk) m Hm 125 [] eq_refl) as H. unfold search in H.
  destruct (first_member k m) as [v|] eqn:E.
  - destruct H as (c & t & Hc & ->). apply json_value_render; [|exact Hc].
    exact (proj2 (first_wf k) m Hm v E).
  - rewrite H, after_needle_skip by lia. reflexivity.
Qed.

(** The same when more members follow, whatever their values. *)
Lemma members_app (l l' : list (bytes * bytes)) :
  l <> [] -> l' <> [] -> json.members (l ++ l') = json.members l ++ 44 :: json.members l'.
Proof.
  intros Hl Hl'. induction l as [|[k v] l IH]; [contradiction|]. cbn [app json.members].
  destruct l as [|e l].
  - cbn [app]. destruct l'; [contradiction|]. rewrite app_nil_r, <- app_assoc. reflexivity.
  - rewrite IH by discriminate. cbn [app]. rewrite <- !app_assoc. reflexivity.
Qed.

Lemma after_front (m : jmem) (rest : list (bytes * bytes)) (k : bytes) (v : jval) :
  wf_mem m -> ident k -> first_member k m = Some v ->
  exists c t, sep_char c
    /\ after (json.needle k) (json.obj (fields m ++ rest)) = Some (render v ++ c :: t).
Proof.
  intros Hm Hk E. assert (Hf : fields m <> []) by (destruct m; discriminate).
  unfold json.obj. rewrite after_needle_skip by lia.
  assert (Hs : exists c t, sep_char c
             /\ json.members (fields m ++ rest) ++ [125] = json.members (fields m) ++ c :: t).
  { destruct rest as [|e rest].
    - exists 125, []. rewrite app_nil_r. split; reflexivity.
    - exists 44, (json.members (e :: rest) ++ [125]). split; [reflexivity|].
      rewrite members_app by (exact Hf || discriminate). rewrite <- app_assoc. reflexivity. }
  destruct Hs as (c & t & Hc & ->).
  pose proof (proj2 (search_fields k Hk) m Hm c t Hc) as H. rewrite E in H. exact H.
Qed.

Lemma get_front (m : jmem) (rest : list (bytes * bytes)) (k : bytes) (v : jval) :
  wf_mem m -> ident k -> first_member k m = Some v ->
  json.get (json.obj (fields m ++ rest)) k = text_of v.
Proof.
  intros Hm Hk E. rewrite get_after. destruct (after_front m rest k v Hm Hk E) as (c & t & Hc & ->).
  apply json_value_render; [|exact Hc]. exact (proj2 (first_wf k) m Hm v E).
Qed.

(** A last member is read up to its first quote, comma or brace. *)
Lemma get_last (m : jmem) (k v : bytes) :
  wf_mem m -> ident k -> first_member k m = None ->
  json.get (json.obj (fields m ++ [(k, v)])) k = json_value (v ++ [125]).
Proof.
  intros Hm Hk E. rewrite get_after. unfold json.obj. rewrite after_needle_skip by lia.
  assert (Hs : after (json.needle k) (json.members (fields m ++ [(k, v)]) ++ [125])
               = after (json.needle k) (json.needle k ++ v ++ [125])).
  { destruct (fields m) as [|e l] eqn:Ef.
    - cbn [app json.members]. rewrite app_nil_r, <- app_assoc. reflexivity.
    - rewrite <- Ef, members_app by (rewrite ?Ef; discriminate). rewrite <- app_assoc. cbn [app].
      pose proof (proj2 (search_fields k Hk) m Hm 44 (json.members [(k, v)] ++ [125]) eq_refl) as H.
      rewrite E in H. cbn [search] in H. rewrite H, after_needle_skip by lia.
      cbn [json.members]. rewrite app_nil_r, <- app_assoc. reflexivity. }
  rewrite Hs, after_hit. reflexivity.
Qed.

(** ** Automation

    [json_get] evaluates a getter on a text written with the builders: it
    reads the tree back from the text, applies [get_fields] and leaves what the
    [json] hints cannot prove of the character classes. *)

Create HintDb json.

Lemma noquote_app (a b : bytes) : noquote a -> noquote b -> noquote (a ++ b).
Proof. intros. apply Forall_app. auto. Qed.
Lemma noquote_cons (c : Z) (b : bytes) : c <> 34 -> noquote b -> noquote (c :: b).
Proof. intros. constructor; assumption. Qed.
Lemma noquote_nil : noquote [].
Proof. constructor. Qed.

(** A literal has no quote. *)
Lemma noquote_lit (l : bytes) : forallb (fun c => negb (c =? 34)) l = true -> noquote l.
Proof.
  intros H. apply List.Forall_forall. intros x Hx.
  rewrite forallb_forall in H. specialize (H x Hx). lia.
Qed.

Lemma digits_noquote (l : bytes) : all_digits l -> noquote l.
Proof. apply List.Forall_impl. unfold is_digit. intros. lia. Qed.

Lemma to_string_noquote (n : Z) : 0 <= n -> noquote (to_string n).
Proof. intros. apply digits_noquote, to_string_digits. assumption. Qed.

Lemma num_bare (n : Z) : bare (json.num n).
Proof.
  eapply List.Forall_impl; [|apply to_stringZ_chars]. unfold is_digit. cbn. intros. lia.
Qed.

#[export] Hint Resolve noquote_app noquote_cons noquote_nil digits_noquote to_string_noquote
  num_bare : json.
#[export] Hint Extern 1 (noquote _) => apply noquote_lit; reflexivity : json.
#[export] Hint Extern 2 (_ <> _) => lia : json.
#[export] Hint Extern 2 (_ <= _) => lia : json.
#[export] Hint Extern 1 (ident _) => reflexivity : json.
#[export] Hint Unfold setw : json.

Ltac reify_val v :=
  lazymatch v with
  | json.str ?s => constr:(JStr s)
  | json.obj ?l => let m := reify_mem l in constr:(JObj m)
  | _ => constr:(JTok v)
  end
with reify_mem l :=
  lazymatch l with
  | [] => constr:(MNil)
  | (?k, ?v) :: ?l' => let v' := reify_val v in let m := reify_mem l' in constr:(MCons k v' m)
  end.

Ltac json_get :=
  match goal with
  | |- context [json.get (json.obj ?l) ?k] =>
      let m := reify_mem l in
      change (json.get (json.obj l) k) with (json.get (json.obj (fields m)) k);
      rewrite (get_fields m k);
      [ cbv [first_member first_in]; repeat (rewrite decide_False by discriminate);
        try rewrite decide_True by reflexivity; cbv beta iota; cbn [text_of]
      | cbn [wf_mem wf_val]; repeat split; auto 20 with json
      | reflexivity ]
  end.

(** The same when the last value of the text is no well-formed one. *)
Ltac json_front n :=
  match goal with
  | |- context [json.get (json.obj ?l) ?k] =>
      let front := eval cbn [take] in (take n l) in
      let rest := eval cbn [drop] in (drop n l) in
      let m := reify_mem front in
      change (json.get (json.obj l) k) with (json.get (json.obj (fields m ++ rest)) k);
      erewrite (get_front m rest k);
      [ | cbn [wf_mem wf_val]; repeat split; auto 20 with json | reflexivity | reflexivity ];
      cbn [text_of]
  end.

(** Bounds on the length of a built text, from bounds on its values. *)
Ltac body_len :=
  unfold json.obj, json.str, json.num; cbn [json.members]; unfold json.needle;
  repeat (rewrite ?length_app; cbn [length app]);
  repeat match goal with
         | |- context [length (str ?s)] =>
             let n := eval vm_compute in (length (str s)) in change (length (str s)) with n
         | |- context [length (quotes ?s)] =>
             let n := eval vm_compute in (length (quotes s)) in change (length (quotes s)) with n
         end;
  lia.

(** ** Frames *)

Section Frames.
Context {S : Type} (recv : S -> nat -> option (bytes * S)) (incoming : S -> bytes).
Hypothesis recv_some : forall s r b s', recv s r = Some (b, s') ->
  (1 <= length b <= r)%nat /\ incoming s = b ++ incoming s'.
Hypothesis recv_none : forall s r, recv s r = None -> (0 < r)%nat -> incoming s = [].

(** A text of one to 65536 characters arrives, whatever the chunks of the
    stream. *)
Lemma n2_delivered (s : S) (text tl : bytes) :
  1 <= Z.of_nat (length text) <= 65536 -> incoming s = n2Frame text ++ tl ->
  exists s', recvFrame recv s = Some (text, s') /\ incoming s' = tl.
Proof.
  intros Hlen E.
  apply (recvFrame_at recv incoming recv_some recv_none); [|lia|lia].
  rewrite E. unfold n2Frame. rewrite u32_small by (unfold in_u; lia). rewrite app_assoc. reflexivity.
Qed.

End Frames.

#[global] Arguments quotes : simpl never.
#[global] Arguments json.obj : simpl never.
#[global] Arguments json.str : simpl never.
#[global] Arguments json.num : simpl never.
#[global] Arguments json.get : simpl never.

(** ** The getter is right on built texts *)

(** On the text of a well-formed object the getter returns the text of the
    first member of that name in document order, at whatever depth, and
    nothing when there is none: strings without their quotes, tokens as they
    are.  An inner object is returned only up to its first comma or brace. *)
Theorem getter_first_member (m : jmem) (k : bytes) :
  wf_mem m -> ident k ->
  json.get (json.obj (fields m)) k
  = match first_member k m with Some v => text_of v | None => [] end.
Proof. exact (get_fields m k). Qed.

(** A name that occurs in an inner object is found before the outer one. *)
Lemma getter_first_member_witness :
  json.get (quotes "{'a':{'sst':1,'sd':'000001'},'sd':'000002'}") (str "sd") = str "000001".
Proof.
  apply (getter_first_member
    (MCons (str "a") (JObj (MCons (str "sst") (JTok (str "1")) (MCons (str "sd") (JStr (str "000001")) MNil)))
       (MCons (str "sd") (JStr (str "000002")) MNil))); [|reflexivity].
  cbn [wf_mem wf_val]. repeat split; auto 20 with json; try (apply noquote_lit; reflexivity).
  exact (num_bare 1).
Defined.
