(* ===== verification/Http.v ===== *)
(** * HTTP messages

    [HttpMessage], [httpBuild] and [httpRecv] of
    [5g-simulator/src/common/wire.h]: how the 5G network functions talk to each
    other.  A connection carries one request and one response, so what a
    receiver can read is the octets its peer sends before closing. *)

From S2P Require Import Prelude Text Strings.
#[local] Open Scope Z_scope.

(** ** Messages *)

Record HttpMessage : Type := mkHttp {
  startLine : bytes;
  headers : gmap bytes bytes;
  body : bytes
}.

Definition crlf : bytes := [13; 10].

Definition httpBuild (startLine body extraHeader : bytes) : bytes :=
  startLine ++ crlf
  ++ (match extraHeader with [] => [] | _ :: _ => extraHeader ++ crlf end)
  ++ str "Content-Type: application/json" ++ crlf
  ++ str "Content-Length: " ++ to_string (Z.of_nat (length body)) ++ crlf
  ++ crlf ++ body.

(** ** Receiving *)

(** The header loop has read a blank line; the characters read are kept in
    reverse order. *)
Definition ends_headers (rraw : bytes) : bool :=
  match rraw with
  | a :: b :: c :: d :: _ => (a =? 10) && (b =? 13) && (c =? 10) && (d =? 13)
  | _ => false
  end.

(** The octets up to the blank line, without it, and those behind it;
    [None] when the stream ends first. *)
Fixpoint recv_headers (rraw stream : bytes) : option (bytes * bytes) :=
  if ends_headers rraw then Some (rev (drop 4 rraw), stream)
  else match stream with
       | [] => None
       | c :: s => recv_headers (c :: rraw) s
       end.

(** What the successive [getline]s on a text give. *)
Fixpoint lines (s : bytes) : list bytes :=
  match s with
  | [] => []
  | c :: s' =>
      if c =? 10 then [] :: lines s'
      else match lines s' with [] => [[c]] | l :: ls => (c :: l) :: ls end
  end.

(** [while (!v.empty() && v.front() == ' ') v.erase(v.begin())]. *)
Fixpoint drop_blanks (v : bytes) : bytes :=
  match v with c :: v' => if c =? 32 then drop_blanks v' else v | [] => [] end.

(** The turn of the header loop for one line. *)
Definition add_header (hs : gmap bytes bytes) (line : bytes) : gmap bytes bytes :=
  let line := chomp line in
  match find_if (fun c => c =? 58) line with
  | None => hs
  | Some colon => <[take colon line := drop_blanks (drop (colon + 1) line)]> hs
  end.

(** The result and the message; [None] when an exception leaves the function:
    a [Content-Length] that is no number, or no possible size. *)
Definition httpRecv (stream : bytes) : option (bool * HttpMessage) :=
  match recv_headers [] stream with
  | None => Some (false, mkHttp [] ∅ [])
  | Some (raw, rest) =>
      let ls := lines raw in
      let start := match ls with [] => [] | l :: _ => chomp l end in
      let hs := fold_left add_header (tail ls) ∅ in
      match hs !! str "Content-Length" with
      | None => Some (true, mkHttp start hs [])
      | Some v =>
          match stoul v with
          | None => None
          | Some bodyLen =>
              if 2 ^ 63 <=? bodyLen then None
              else
                let want := Z.to_nat (u32 bodyLen) in
                let got := take want rest in
                Some ((length got =? want)%nat,
                      mkHttp start hs (got ++ repeat 0 (Z.to_nat bodyLen - length got)))
          end
      end
  end.

(** ** The header block *)

Definition header_text (l : bytes) : Prop := Forall (fun c => c <> 10 /\ c <> 13) l.

Lemma header_no_lf (l : bytes) : header_text l -> Forall (fun c => c <> 10) l.
Proof. apply List.Forall_impl. tauto. Qed.
Lemma header_no_cr (l : bytes) : header_text l -> Forall (fun c => c <> 13) l.
Proof. apply List.Forall_impl. tauto. Qed.

Lemma ends_headers_cons (c : Z) (r : bytes) : c <> 10 -> ends_headers (c :: r) = false.
Proof.
  intros Hc. destruct r as [|x [|y [|z r]]]; try reflexivity. cbn.
  replace (c =? 10) with false by lia. reflexivity.
Qed.

Lemma recv_headers_step (r s : bytes) (c : Z) :
  ends_headers r = false -> recv_headers r (c :: s) = recv_headers (c :: r) s.
Proof. intros H. cbn [recv_headers]. rewrite H. reflexivity. Qed.

Lemma recv_headers_text (r l s : bytes) :
  ends_headers r = false -> Forall (fun c => c <> 10) l ->
  recv_headers r (l ++ s) = recv_headers (rev l ++ r) s
  /\ (ends_headers (rev l ++ r) = false).
Proof.
  intros Hr Hl. revert r Hr. induction Hl as [|c l Hc _ IH]; intros r Hr; [auto|].
  cbn [app rev]. rewrite recv_headers_step, <- app_assoc by exact Hr.
  apply IH. apply ends_headers_cons. exact Hc.
Qed.

(** A line that is not blank is pushed whole. *)
Lemma recv_headers_line (r l s : bytes) :
  ends_headers r = false -> header_text l -> l <> [] ->
  recv_headers r (l ++ crlf ++ s) = recv_headers (10 :: 13 :: rev l ++ r) s
  /\ ends_headers (10 :: 13 :: rev l ++ r) = false.
Proof.
  intros Hr Hl Hne. destruct (recv_headers_text r l (crlf ++ s) Hr) as [-> He].
  { apply header_no_lf. exact Hl. }
  unfold crlf. cbn [app]. rewrite recv_headers_step by exact He.
  rewrite recv_headers_step by (apply ends_headers_cons; lia). split; [reflexivity|].
  destruct (rev l ++ r) as [|x q] eqn:E; [reflexivity|].
  assert (Hx : x <> 10).
  { apply header_no_lf, List.Forall_rev in Hl.
    destruct (rev l) as [|y w] eqn:Er.
    - apply (f_equal (@rev Z)) in Er. rewrite rev_involutive in Er. contradiction.
    - injection E as <- _. inversion Hl; assumption. }
  destruct q as [|y [|z q]]; try reflexivity; cbn; replace (x =? 10) with false by lia; reflexivity.
Qed.

(** The blank line ends the block. *)
Lemma recv_headers_blank (r s : bytes) :
  ends_headers (10 :: 13 :: r) = false ->
  recv_headers (10 :: 13 :: r) (crlf ++ s) = Some (rev r, s).
Proof.
  intros H. unfold crlf. cbn [app]. rewrite recv_headers_step by exact H.
  rewrite recv_headers_step by (apply ends_headers_cons; lia). destruct s; reflexivity.
Qed.

(** A header block: lines, then the blank line. *)
Definition block (ls : list bytes) : bytes := concat (map (fun l => l ++ crlf) ls).

Lemma block_cons (l : bytes) (ls : list bytes) : block (l :: ls) = l ++ crlf ++ block ls.
Proof. unfold block. cbn [map concat]. rewrite <- app_assoc. reflexivity. Qed.

Lemma recv_headers_block (ls : list bytes) (r s : bytes) (l : bytes) :
  ends_headers r = false -> Forall (fun l => header_text l /\ l <> []) (ls ++ [l]) ->
  recv_headers r (block (ls ++ [l]) ++ crlf ++ s) = Some (rev r ++ block ls ++ l, s).
Proof.
  revert r. induction ls as [|x ls IH]; intros r Hr Hls;
    apply List.Forall_cons_iff in Hls as [[Hx Hne] Hls]; cbn [app] in *; rewrite !block_cons.
  - change (block []) with (@nil Z). rewrite app_nil_r, <- app_assoc.
    destruct (recv_headers_line r l (crlf ++ s) Hr Hx Hne) as [-> He].
    rewrite recv_headers_blank by exact He. rewrite rev_app_distr, rev_involutive. reflexivity.
  - rewrite <- !app_assoc.
    destruct (recv_headers_line r x (block (ls ++ [l]) ++ crlf ++ s) Hr Hx Hne) as [-> He].
    rewrite (IH _ He Hls). f_equal. f_equal. cbn [rev app].
    rewrite rev_app_distr, rev_involutive, <- !app_assoc. reflexivity.
Qed.

Lemma lines_cons (l s : bytes) :
  Forall (fun c => c <> 10) l -> lines (l ++ 10 :: s) = l :: lines s.
Proof.
  induction 1 as [|c l Hc _ IH]; [reflexivity|]. cbn [app lines].
  replace (c =? 10) with false by lia. rewrite IH. reflexivity.
Qed.

Lemma lines_last (l : bytes) : Forall (fun c => c <> 10) l -> l <> [] -> lines l = [l].
Proof.
  induction 1 as [|c l Hc Hl IH]; intros Hne; [contradiction|]. cbn [lines].
  replace (c =? 10) with false by lia. destruct l; [reflexivity|]. rewrite IH by discriminate.
  reflexivity.
Qed.

Lemma lines_block (ls : list bytes) (l : bytes) :
  Forall (fun l => header_text l /\ l <> []) (ls ++ [l]) ->
  lines (block ls ++ l) = map (fun l => l ++ [13]) ls ++ [l].
Proof.
  induction ls as [|x ls IH]; intros Hls; apply List.Forall_cons_iff in Hls as [[Hx Hne] Hls];
    cbn [app map] in *.
  - apply lines_last; [apply header_no_lf; exact Hx|exact Hne].
  - rewrite block_cons, <- !app_assoc. change (crlf ++ block ls ++ l) with ([13] ++ 10 :: (block ls ++ l)).
    rewrite app_assoc, lines_cons; [rewrite (IH Hls); reflexivity|].
    apply Forall_app. split; [apply header_no_lf; exact Hx|].
    constructor; [lia|constructor].
Qed.

(** The carriage return does not reach the header. *)
Lemma add_header_cr (hs : gmap bytes bytes) (l : bytes) :
  header_text l -> add_header hs (l ++ [13]) = add_header hs l.
Proof.
  intros Hl. unfold add_header. rewrite chomp_cr, chomp_id by (apply header_no_cr; exact Hl).
  reflexivity.
Qed.

Lemma add_header_field (hs : gmap bytes bytes) (k v : bytes) :
  header_text k -> header_text v -> Forall (fun c => (c =? 58) = false) k ->
  add_header hs (k ++ 58 :: 32 :: v) = <[k := drop_blanks v]> hs.
Proof.
  intros Hk Hv Hc. unfold add_header. rewrite chomp_id.
  - rewrite (find_if_at _ k _ 58 Hc eq_refl), take_app_length.
    rewrite <- drop_drop, drop_app_length. reflexivity.
  - apply Forall_app. split; [apply header_no_cr; exact Hk|].
    constructor; [lia|]. constructor; [lia|]. apply header_no_cr. exact Hv.
Qed.

Lemma header_text_lit (l : bytes) :
  forallb (fun c => negb (c =? 10) && negb (c =? 13)) l = true -> header_text l.
Proof.
  intros H. apply List.Forall_forall. intros x Hx.
  rewrite forallb_forall in H. specialize (H x Hx). lia.
Qed.

Lemma header_text_digits (l : bytes) : all_digits l -> header_text l.
Proof. apply List.Forall_impl. unfold is_digit. lia. Qed.

Lemma drop_blanks_digits (l : bytes) : all_digits l -> drop_blanks l = l.
Proof.
  destruct 1 as [|c l Hc _]; [reflexivity|]. cbn. unfold is_digit in Hc.
  replace (c =? 32) with false by lia. reflexivity.
Qed.

(** ** What is built is what is received *)

(** The headers of a built message. *)
Definition built_headers (extra : bytes) (n : Z) : gmap bytes bytes :=
  <[str "Content-Length" := to_string n]>
    (<[str "Content-Type" := str "application/json"]>
       (match extra with [] => ∅ | _ :: _ => add_header ∅ extra end)).

Definition built_lines (start extra : bytes) (n : Z) : list bytes :=
  (start :: (match extra with [] => [] | _ :: _ => [extra] end))
  ++ [str "Content-Type: application/json"].

Lemma httpBuild_block (start b extra : bytes) :
  httpBuild start b extra
  = block (built_lines start extra (Z.of_nat (length b))
           ++ [str "Content-Length: " ++ to_string (Z.of_nat (length b))]) ++ crlf ++ b.
Proof.
  unfold httpBuild, built_lines.
  destruct extra; cbn [app]; rewrite !block_cons; change (block []) with (@nil Z);
    rewrite ?app_nil_r; rewrite <- ?app_assoc; cbn [app]; rewrite <- ?app_assoc; reflexivity.
Qed.

Lemma fold_headers (ls : list bytes) (l : bytes) (hs : gmap bytes bytes) :
  Forall (fun l => header_text l /\ l <> []) (ls ++ [l]) ->
  fold_left add_header (map (fun l => l ++ [13]) ls ++ [l]) hs
  = add_header (fold_left add_header ls hs) l.
Proof.
  revert hs. induction ls as [|x ls IH]; intros hs Hls;
    apply List.Forall_cons_iff in Hls as [[Hx _] Hls]; [reflexivity|].
  cbn [map app fold_left] in *. rewrite add_header_cr by exact Hx. apply IH. exact Hls.
Qed.

Lemma content_length_text (n : Z) :
  0 <= n -> header_text (str "Content-Length: " ++ to_string n).
Proof.
  intros Hn. apply Forall_app. split; [apply header_text_lit; reflexivity|].
  apply header_text_digits, to_string_digits. exact Hn.
Qed.

#[local] Opaque httpBuild to_string.

Lemma httpRecv_build (start b extra tl : bytes) :
  start <> [] -> header_text start -> header_text extra -> Z.of_nat (length b) < 2 ^ 32 ->
  httpRecv (httpBuild start b extra ++ tl)
  = Some (true, mkHttp start (built_headers extra (Z.of_nat (length b))) b).
Proof.
  intros Hne Hs He Hb. set (n := Z.of_nat (length b)).
  assert (Hls : Forall (fun l => header_text l /\ l <> [])
            (built_lines start extra n ++ [str "Content-Length: " ++ to_string n])).
  { unfold built_lines. rewrite <- app_assoc. constructor; [auto|].
    assert (Hrest : Forall (fun l => header_text l /\ l <> [])
              ([str "Content-Type: application/json"] ++ [str "Content-Length: " ++ to_string n])).
    { constructor; [split; [apply header_text_lit; reflexivity|discriminate]|].
      constructor; [split; [apply content_length_text; lia|discriminate]|constructor]. }
    destruct extra; [exact Hrest|]. constructor; [split; [exact He|discriminate]|exact Hrest]. }
  unfold httpRecv. rewrite httpBuild_block, <- !app_assoc. fold n.
  rewrite (recv_headers_block _ [] (b ++ tl)) by (reflexivity || exact Hls).
  cbn [rev app]. rewrite lines_block by exact Hls.
  assert (Hfold : fold_left add_header
            (tail (map (fun l => l ++ [13]) (built_lines start extra n)
                   ++ [str "Content-Length: " ++ to_string n])) ∅ = built_headers extra n).
  { unfold built_lines. cbn [map app tail]. apply List.Forall_cons_iff in Hls as [_ Hls].
    rewrite (fold_headers _ _ ∅ Hls). unfold built_headers.
    replace (fold_left add_header _ ∅)
      with (add_header (match extra with [] => ∅ | _ :: _ => add_header ∅ extra end)
              (str "Content-Type: application/json")) by (destruct extra; reflexivity).
    change (str "Content-Type: application/json")
      with (str "Content-Type" ++ 58 :: 32 :: str "application/json").
    change (str "Content-Length: " ++ to_string n)
      with (str "Content-Length" ++ 58 :: 32 :: to_string n).
    rewrite !add_header_field; try (apply header_text_lit; reflexivity);
      try (apply header_text_digits, to_string_digits; lia); try (repeat constructor).
    rewrite drop_blanks_digits by (apply to_string_digits; lia). reflexivity. }
  rewrite Hfold. unfold built_headers at 1. rewrite lookup_insert_eq, stoul_to_string by lia.
  replace (2 ^ 63 <=? n) with false by lia.
  rewrite u32_small by (unfold in_u; lia). unfold n. rewrite Nat2Z.id, take_app_length.
  rewrite Nat.eqb_refl, Nat.sub_diag, app_nil_r. cbn [built_lines map app].
  rewrite chomp_cr. reflexivity.
Qed.

#[local] Transparent httpBuild to_string.

(** ** Request lines and paths *)

(** [ss >> method >> path]. *)
Definition request_line (startLine : bytes) : bytes * bytes :=
  let '(method, r) := read_word startLine in
  let '(path, _) := read_word r in (method, path).

(** [splitPath], of which each server has a copy. *)
Fixpoint split_path (path cur : bytes) : list bytes :=
  match path with
  | [] => match cur with [] => [] | _ :: _ => [cur] end
  | c :: p =>
      if c =? 47 then (match cur with [] => [] | _ :: _ => [cur] end) ++ split_path p []
      else split_path p (cur ++ [c])
  end.
Definition splitPath (path : bytes) : list bytes := split_path path [].

Definition nospace (w : bytes) : Prop := Forall (fun c => is_space c = false) w.
Definition noslash (w : bytes) : Prop := Forall (fun c => c <> 47) w.

Lemma request_line_words (method path rest : bytes) :
  method <> [] -> nospace method -> path <> [] -> nospace path ->
  request_line (method ++ 32 :: path ++ 32 :: rest) = (method, path).
Proof.
  intros Hm1 Hm2 Hp1 Hp2. unfold request_line.
  rewrite (read_word_app method _ 32 Hm1 Hm2 eq_refl), read_word_space.
  rewrite (read_word_app path _ 32 Hp1 Hp2 eq_refl). reflexivity.
Qed.

Lemma split_path_segment (s p cur : bytes) :
  noslash s -> split_path (s ++ p) cur = split_path p (cur ++ s).
Proof.
  intros Hs. revert cur. induction Hs as [|c s Hc _ IH]; intros cur; cbn [app split_path].
  - rewrite app_nil_r. reflexivity.
  - replace (c =? 47) with false by lia. rewrite IH, <- app_assoc. reflexivity.
Qed.

Definition path_of (segs : list bytes) : bytes := concat (map (fun s => 47 :: s) segs).

Lemma split_path_of (segs : list bytes) (cur : bytes) :
  Forall (fun s => noslash s /\ s <> []) segs ->
  split_path (path_of segs) cur = (match cur with [] => [] | _ :: _ => [cur] end) ++ segs.
Proof.
  intros H. revert cur. induction H as [|s segs [Hs Hne] _ IH]; intros cur.
  - cbn. destruct cur; reflexivity.
  - unfold path_of. cbn [map concat app split_path]. rewrite Z.eqb_refl.
    fold (path_of segs). rewrite split_path_segment by exact Hs. rewrite IH.
    destruct s; [contradiction|]. reflexivity.
Qed.

Lemma splitPath_of (segs : list bytes) :
  Forall (fun s => noslash s /\ s <> []) segs -> splitPath (path_of segs) = segs.
Proof. apply (split_path_of segs []). Qed.

(** ** Plain words

    The characters of host names, types and identities: letters, digits and
    [-], [.], [_]. *)

Definition word_char (c : Z) : bool :=
  is_digit c || ((97 <=? c) && (c <=? 122)) || ((65 <=? c) && (c <=? 90))
  || (c =? 45) || (c =? 46) || (c =? 95).
Definition word_text (w : bytes) : Prop := Forall (fun c => word_char c = true) w.

Create HintDb words.

Lemma word_app (a b : bytes) : word_text a -> word_text b -> word_text (a ++ b).
Proof. intros. apply Forall_app. auto. Qed.
Lemma word_lit (l : bytes) : forallb word_char l = true -> word_text l.
Proof. intros H. apply List.Forall_forall, forallb_forall. exact H. Qed.
Lemma word_digits (l : bytes) : all_digits l -> word_text l.
Proof. apply List.Forall_impl. intros c Hc. unfold word_char. rewrite Hc. reflexivity. Qed.

Ltac word_class := apply List.Forall_impl; unfold word_char, is_digit, is_space; intros; lia.
Lemma word_header (w : bytes) : word_text w -> header_text w.
Proof. word_class. Qed.
Lemma word_nospace (w : bytes) : word_text w -> nospace w.
Proof. word_class. Qed.
Lemma word_noslash (w : bytes) : word_text w -> noslash w.
Proof. word_class. Qed.
Lemma word_noquote (w : bytes) : word_text w -> Forall (fun c => c <> 34) w.
Proof. word_class. Qed.

Lemma header_app (a b : bytes) : header_text a -> header_text b -> header_text (a ++ b).
Proof. intros. apply Forall_app. auto. Qed.
Lemma nospace_app (a b : bytes) : nospace a -> nospace b -> nospace (a ++ b).
Proof. intros. apply Forall_app. auto. Qed.
Lemma nospace_lit (l : bytes) : forallb (fun c => negb (is_space c)) l = true -> nospace l.
Proof.
  intros H. apply List.Forall_forall. intros x Hx.
  rewrite forallb_forall in H. specialize (H x Hx). apply negb_true_iff. exact H.
Qed.
Lemma noslash_lit (l : bytes) : forallb (fun c => negb (c =? 47)) l = true -> noslash l.
Proof.
  intros H. apply List.Forall_forall. intros x Hx.
  rewrite forallb_forall in H. specialize (H x Hx). lia.
Qed.

#[export] Hint Resolve word_app word_digits word_header word_nospace word_noslash word_noquote
  header_app nospace_app : words.
#[export] Hint Extern 1 (word_text _) => apply word_lit; reflexivity : words.
#[export] Hint Extern 1 (header_text _) => apply header_text_lit; reflexivity : words.
#[export] Hint Extern 1 (nospace _) => apply nospace_lit; reflexivity : words.
#[export] Hint Extern 1 (noslash _) => apply noslash_lit; reflexivity : words.

#[global] Arguments httpBuild : simpl never.
#[global] Arguments httpRecv : simpl never.
#[global] Arguments request_line : simpl never.

(** A message with nothing behind it. *)
Lemma httpRecv_built (start b extra : bytes) :
  start <> [] -> header_text start -> header_text extra -> Z.of_nat (length b) < 2 ^ 32 ->
  httpRecv (httpBuild start b extra)
  = Some (true, mkHttp start (built_headers extra (Z.of_nat (length b))) b).
Proof. intros. rewrite <- (app_nil_r (httpBuild _ _ _)). apply httpRecv_build; assumption. Qed.

(** C32. What [httpBuild] makes is received whole by [httpRecv], whatever octets
    the body has, blank lines included, and whatever the connection carries
    behind it: the start line, the headers with the extra one among them, and
    the body of the announced length. *)
Theorem http_delivers (start b extra tl : bytes) :
  start <> [] -> header_text start -> header_text extra -> Z.of_nat (length b) < 2 ^ 32 ->
  httpRecv (httpBuild start b extra ++ tl)
  = Some (true, mkHttp start (built_headers extra (Z.of_nat (length b))) b).
Proof. exact (httpRecv_build start b extra tl). Qed.

(** A body that holds a blank line. *)
Lemma http_delivers_witness :
  exists h, httpRecv (httpBuild (str "HTTP/1.1 200 OK") [13; 10; 13; 10; 7] (str "Host: udm") ++ str "HTTP")
            = Some (true, mkHttp (str "HTTP/1.1 200 OK") h [13; 10; 13; 10; 7]).
Proof.
  eexists. apply (http_delivers (str "HTTP/1.1 200 OK") [13; 10; 13; 10; 7] (str "Host: udm") (str "HTTP"));
    [discriminate|apply header_text_lit; reflexivity|apply header_text_lit; reflexivity|reflexivity].
Defined.
