(* ===== verification/Prometheus.v ===== *)
(** * The metrics endpoint

    [prometheusText] and [percentile] of [4g-simulator/src/common/metrics.h],
    and [PrometheusServer] of [prometheus_server.h]: the text of the metrics and
    the HTTP answers.  A [double] is a [spec_float] with the precision and the
    exponents of binary64, on which the Standard Library specifies IEEE
    arithmetic; the time since the batch began is an argument. *)

From Stdlib Require Import ZArith Lia SpecFloat.
From stdpp Require Import list sorting strings.
From S2P Require Import Prelude Text Strings Metrics Http.
#[local] Open Scope Z_scope.

(** ** Doubles *)

Abbreviation double := spec_float.

Definition dbl (n : Z) : double := binary_normalize 53 1024 n 0 false.
Definition dadd : double -> double -> double := SFadd 53 1024.
Definition dmul : double -> double -> double := SFmul 53 1024.
Definition ddiv : double -> double -> double := SFdiv 53 1024.

(** The literals [0.50], [0.95] and [0.99]. *)
Definition d050 : double := S754_finite false 4503599627370496 (-53).
Definition d095 : double := S754_finite false 8556839292003942 (-53).
Definition d099 : double := S754_finite false 8917127262193582 (-53).

(** The quotient of [a] and [b], rounded to the nearest, ties to even. *)
Definition div_even (a b : Z) : Z :=
  let q := a / b in
  let r := a mod b in
  if (2 * r <? b) || ((2 * r =? b) && Z.even q) then q else q + 1.

(** [m * 2^e] in tenths, as [%.1f] rounds it. *)
Definition tenths (m e : Z) : Z :=
  if 0 <=? e then m * 2 ^ e * 10 else div_even (m * 10) (2 ^ (- e)).

Definition minus (s : bool) : bytes := if s then [45] else [].

(** [snprintf(buf, 32, "%.1f", v)]: at most 31 characters. *)
Definition fmt (v : double) : bytes :=
  take 31 match v with
          | S754_zero s => minus s ++ str "0.0"
          | S754_infinity s => minus s ++ str "inf"
          | S754_nan => str "nan"
          | S754_finite s m e =>
              let t := tenths (Z.pos m) e in minus s ++ to_string (t / 10) ++ [46] ++ to_string (t mod 10)
          end.

(** [size_t(v)] of a finite value that is not negative. *)
Definition to_size (v : double) : Z :=
  match v with
  | S754_finite false m e => if 0 <=? e then Z.pos m * 2 ^ e else Z.pos m / 2 ^ (- e)
  | _ => 0
  end.

(** ** The text *)

Definition percentile (sorted : list double) (p : double) : double :=
  match sorted with
  | [] => S754_zero false
  | _ =>
      let n := Z.of_nat (length sorted) in
      let idx := to_size (dmul p (dbl n)) in
      let idx := if n <=? idx then n - 1 else idx in
      nth (Z.to_nat idx) sorted (S754_zero false)
  end.

(** [line]: a metric with its help and type; [labels] may be empty. *)
Definition line (name help type labels : bytes) (value : double) : bytes :=
  str "# HELP " ++ name ++ [32] ++ help ++ [10]
  ++ str "# TYPE " ++ name ++ [32] ++ type ++ [10]
  ++ name ++ match labels with [] => [] | _ => [123] ++ labels ++ [125] end
  ++ [32] ++ fmt value ++ [10].

(** What the text shows of a batch. *)
Record Figures : Type := mkFigures {
  f_n : Z; f_avg : double; f_p50 : double; f_p95 : double; f_p99 : double;
  f_min : double; f_max : double; f_tput : double }.

Definition d0 : double := S754_zero false.

(** The latencies are whole milliseconds, whose order is that of their
    doubles. *)
Definition figures (ls : list Z) (total_ms : Z) : Figures :=
  let n := Z.of_nat (length ls) in
  match ls with
  | [] => mkFigures n d0 d0 d0 d0 d0 d0 d0
  | _ =>
      let sorted := map dbl (merge_sort Z.le ls) in
      let sum := fold_left dadd sorted d0 in
      mkFigures n (ddiv sum (dbl n)) (percentile sorted d050) (percentile sorted d095) (percentile sorted d099)
        (nth 0 sorted d0) (List.last sorted d0)
        (ddiv (dmul (dbl n) (dbl 1000)) (dbl (if 0 <? total_ms then total_ms else 1)))
  end.

(** Name, help, type, labels and value of each line. *)
Definition rows (m : Metrics) (f : Figures) : list (bytes * bytes * bytes * bytes * double) :=
  let lat := str "mme_attach_latency_ms" in
  let quantile q := str "quantile=" ++ [34] ++ q ++ [34] in
  [(str "mme_attach_total", str "Total UE attaches recorded", str "counter", [], dbl (f_n f));
   (lat, str "Attach latency mean (ms)", str "gauge", quantile (str "mean"), f_avg f);
   (lat, str "Attach latency P50 (ms)", str "gauge", quantile (str "0.50"), f_p50 f);
   (lat, str "Attach latency P95 (ms)", str "gauge", quantile (str "0.95"), f_p95 f);
   (lat, str "Attach latency P99 (ms)", str "gauge", quantile (str "0.99"), f_p99 f);
   (str "mme_attach_latency_ms_min", str "Attach latency min (ms)", str "gauge", [], f_min f);
   (str "mme_attach_latency_ms_max", str "Attach latency max (ms)", str "gauge", [], f_max f);
   (str "mme_attach_throughput", str "Attaches per second (recent bulk)", str "gauge", [], f_tput f);
   (str "mme_expected_ues", str "Expected UEs in current batch", str "gauge", [], dbl (expected_ m));
   (str "mme_registered_ues", str "UEs that completed attach", str "gauge", [], dbl (completed_ m))].

Definition row_line (r : bytes * bytes * bytes * bytes * double) : bytes :=
  let '(name, help, type, labels, v) := r in line name help type labels v.

Definition prometheusText (m : Metrics) (total_ms : Z) : bytes :=
  flat_map row_line (rows m (figures (latencies_ms_ m) total_ms)).

(** What [printReport] writes: the lines given to [Logger::sys]. *)
Definition printReport (m : Metrics) (total_ms : Z) : list bytes :=
  let f := figures (latencies_ms_ m) total_ms in
  match latencies_ms_ m with
  | [] => [str "METRICS: no data recorded"]
  | _ =>
      [str "════════════════════════════════════════════════";
       str "BULK METRICS — " ++ to_string (f_n f) ++ str " UEs completed";
       str "  Latency avg:   " ++ fmt (f_avg f) ++ str " ms";
       str "  Latency P50:   " ++ fmt (f_p50 f) ++ str " ms  (median)";
       str "  Latency P95:   " ++ fmt (f_p95 f) ++ str " ms  (SLA target: < 2000ms)";
       str "  Latency P99:   " ++ fmt (f_p99 f) ++ str " ms";
       str "  Min / Max:     " ++ fmt (f_min f) ++ str " / " ++ fmt (f_max f) ++ str " ms";
       str "  Total time:    " ++ to_stringZ total_ms ++ str " ms";
       str "  Throughput:    " ++ fmt (f_tput f) ++ str " attaches/sec";
       str "────────────────────────────────────────────────";
       str "  INTERVIEW: 'What's your P99 attach time?' → show this.";
       str "  NEXT STEP: Phase 5 async MME → parallel auth → 10x throughput";
       str "════════════════════════════════════════════════"]
  end.

(** ** The server *)

(** The text in [buf]: up to 511 octets are received, and end at a zero. *)
Fixpoint c_string (b : bytes) : bytes :=
  match b with [] => [] | c :: b' => if c =? 0 then [] else c :: c_string b' end.

Definition request_text (received : bytes) : bytes := c_string (take 511 received).

Definition health_body (port : Z) : bytes :=
  [123; 34] ++ str "status" ++ [34; 58; 34] ++ str "ok" ++ [34; 44; 34] ++ str "node" ++ [34; 58; 34]
  ++ str "mme-sim" ++ [34; 44; 34] ++ str "port" ++ [34; 58] ++ to_stringZ port ++ [125; 10].

Definition not_found_body : bytes := str "404 Not Found" ++ [10] ++ str "Try GET /metrics or GET /health" ++ [10].

(** What is answered: status, content type, body.  [metrics]: the pointer the
    server was made with. *)
Definition answer (metrics : option Metrics) (total_ms port : Z) (req : bytes) : bytes * bytes * bytes :=
  let is_metrics := contains (str "GET /metrics") req in
  let is_health := contains (str "GET /health") req || contains (str "GET /") req in
  let '(body, status) :=
    if is_metrics
    then (match metrics with Some m => prometheusText m total_ms | None => str "# no metrics" ++ [10] end, str "200 OK")
    else if is_health then (health_body port, str "200 OK")
    else (not_found_body, str "404 Not Found") in
  let content_type :=
    if is_metrics then str "text/plain; version=0.0.4; charset=utf-8" else str "application/json" in
  (status, content_type, body).

Definition response (a : bytes * bytes * bytes) : bytes :=
  let '(status, content_type, body) := a in
  str "HTTP/1.1 " ++ status ++ crlf
  ++ str "Content-Type: " ++ content_type ++ crlf
  ++ str "Content-Length: " ++ to_string (Z.of_nat (length body)) ++ crlf
  ++ str "Connection: close" ++ crlf
  ++ crlf ++ body.

Definition handleRequest (metrics : option Metrics) (total_ms port : Z) (received : bytes) : bytes :=
  response (answer metrics total_ms port (request_text received)).

(** [serve]: one connection after the other until [accept] fails or the server
    is stopped; the metrics and the time are those at each request. *)
Fixpoint serve (port : Z) (conns : list (option (option Metrics * Z * bytes))) : list bytes :=
  match conns with
  | Some (metrics, total_ms, received) :: conns => handleRequest metrics total_ms port received :: serve port conns
  | _ => []
  end.

(** ** A scraper's reading of the text *)

(** The sample in a line: the metric with its labels, and the value behind the
    blank; comments hold none. *)
Definition sample (l : bytes) : list (bytes * bytes) :=
  match l with
  | [] => []
  | c :: _ =>
      if c =? 35 then []
      else match find_if (fun c => c =? 32) l with
           | Some i => [(take i l, drop (i + 1) l)]
           | None => []
           end
  end.
Definition samples (text : bytes) : list (bytes * bytes) := flat_map sample (lines text).

Definition row_metric (r : bytes * bytes * bytes * bytes * double) : bytes :=
  let '(name, _, _, labels, _) := r in
  name ++ match labels with [] => [] | _ => [123] ++ labels ++ [125] end.
Definition row_value (r : bytes * bytes * bytes * bytes * double) : bytes := fmt r.2.

(** ** The text is read back *)

Definition no_lf (l : bytes) : Prop := Forall (fun c => c <> 10) l.

Lemma no_lf_lit (l : bytes) : forallb (fun c => negb (c =? 10)) l = true -> no_lf l.
Proof.
  intros H. apply List.Forall_forall. intros x Hx. rewrite forallb_forall in H.
  specialize (H x Hx). lia.
Qed.

Lemma no_lf_app (a b : bytes) : no_lf a -> no_lf b -> no_lf (a ++ b).
Proof. intros. apply Forall_app. auto. Qed.

Lemma no_lf_digits (n : Z) : 0 <= n -> no_lf (to_string n).
Proof.
  intros Hn. apply (List.Forall_impl _) with (2 := proj1 (to_string_spec n Hn)).
  unfold is_digit. lia.
Qed.

Lemma div_even_nonneg (a b : Z) : 0 <= a -> 0 < b -> 0 <= div_even a b.
Proof.
  intros Ha Hb. pose proof (Z.div_pos a b Ha Hb). unfold div_even. destruct (_ || _); lia.
Qed.

Lemma tenths_nonneg (m : positive) (e : Z) : 0 <= tenths (Z.pos m) e.
Proof.
  unfold tenths. destruct (0 <=? e) eqn:E; [pose proof (Z.pow_nonneg 2 e); nia|].
  apply div_even_nonneg; [lia|]. apply Z.pow_pos_nonneg; lia.
Qed.

Lemma fmt_no_lf (v : double) : no_lf (fmt v).
Proof.
  unfold fmt. apply Forall_take. destruct v as [s|s| |s m e]; cbv beta iota zeta;
    try (apply no_lf_lit; try destruct s; reflexivity).
  pose proof (tenths_nonneg m e) as Ht.
  repeat apply no_lf_app; try (apply no_lf_lit; try destruct s; reflexivity);
    apply no_lf_digits; [apply Z.div_pos; lia|apply Z.mod_pos_bound; lia].
Qed.

Lemma fmt_length (v : double) : (length (fmt v) <= 31)%nat.
Proof. unfold fmt. apply List.firstn_le_length. Qed.

(** What the text of a metric relies on. *)
Definition row_ok (r : bytes * bytes * bytes * bytes * double) : bool :=
  let '(name, help, type, _, _) := r in
  forallb (fun c => negb (c =? 10)) (name ++ help ++ type)
  && forallb (fun c => negb (c =? 10) && negb (c =? 32)) (row_metric r)
  && match name with [] => false | c :: _ => negb (c =? 35) end.

Lemma samples_comment (l s : bytes) : no_lf l -> samples ((35 :: l) ++ 10 :: s) = samples s.
Proof.
  intros Hl. unfold samples. rewrite lines_cons; [reflexivity|]. constructor; [lia|exact Hl].
Qed.

Lemma samples_value (k v s : bytes) :
  Forall (fun c => (c =? 10) = false /\ (c =? 32) = false) k -> hd 35 k <> 35 -> no_lf v ->
  samples ((k ++ 32 :: v) ++ 10 :: s) = (k, v) :: samples s.
Proof.
  intros Hk Hh Hv. unfold samples. rewrite lines_cons.
  - cbn [flat_map]. replace (sample (k ++ 32 :: v)) with [(k, v)]; [reflexivity|].
    destruct k as [|c k]; [contradiction|]. cbn [hd] in Hh. unfold sample.
    rewrite (find_if_at _ (c :: k) v 32) by (reflexivity || (eapply List.Forall_impl; [|exact Hk]; intros ? [_ ?]; assumption)).
    cbn [app]. replace (c =? 35) with false by lia.
    change (c :: k ++ 32 :: v) with ((c :: k) ++ 32 :: v).
    rewrite take_app_length, <- drop_drop, drop_app_length. reflexivity.
  - apply no_lf_app; [eapply List.Forall_impl; [|exact Hk]; cbn; lia|]. constructor; [lia|exact Hv].
Qed.

Lemma row_line_parts (name help type labels : bytes) (v : double) (s : bytes) :
  line name help type labels v ++ s
  = (35 :: str " HELP " ++ name ++ 32 :: help) ++ 10
    :: (35 :: str " TYPE " ++ name ++ 32 :: type) ++ 10
    :: (row_metric (name, help, type, labels, v) ++ 32 :: fmt v) ++ 10 :: s.
Proof.
  unfold line, row_metric. change (str "# HELP ") with (35 :: str " HELP ").
  change (str "# TYPE ") with (35 :: str " TYPE ").
  repeat (rewrite <- app_assoc || rewrite <- app_comm_cons). reflexivity.
Qed.

Lemma samples_row (r : bytes * bytes * bytes * bytes * double) (s : bytes) :
  row_ok r = true -> samples (row_line r ++ s) = (row_metric r, row_value r) :: samples s.
Proof.
  destruct r as [[[[name help] type] labels] v]. unfold row_ok.
  intros [[Ht Hm]%andb_true_iff Hc]%andb_true_iff.
  apply no_lf_lit, Forall_app in Ht as [Hn [Hh Hy]%Forall_app].
  unfold row_line. rewrite row_line_parts.
  rewrite !samples_comment by (repeat apply no_lf_app; try (constructor; [lia|]);
                               solve [assumption|apply no_lf_lit; reflexivity]).
  rewrite samples_value; [reflexivity| | |apply fmt_no_lf].
  - apply List.Forall_forall. intros x Hx. rewrite forallb_forall in Hm. specialize (Hm x Hx). lia.
  - unfold row_metric. destruct name as [|c name]; [discriminate|]. cbn. lia.
Qed.

Lemma samples_rows (rs : list (bytes * bytes * bytes * bytes * double)) :
  forallb row_ok rs = true ->
  samples (flat_map row_line rs) = map (fun r => (row_metric r, row_value r)) rs.
Proof.
  induction rs as [|r rs IH]; [reflexivity|]. cbn [forallb flat_map map].
  intros [Hr Hrs]%andb_true_iff. rewrite samples_row by exact Hr. rewrite IH by exact Hrs. reflexivity.
Qed.

Lemma prometheusText_samples (m : Metrics) (t : Z) :
  samples (prometheusText m t)
  = map (fun r => (row_metric r, row_value r)) (rows m (figures (latencies_ms_ m) t)).
Proof. apply samples_rows. reflexivity. Qed.

(** Ten lines of bounded length. *)
Lemma row_line_length (r : bytes * bytes * bytes * bytes * double) :
  (length (row_line r) <= length (row_line (r.1, d0)) + 31)%nat.
Proof.
  destruct r as [[[[name help] type] labels] v]. cbn [row_line fst]. unfold line.
  repeat (rewrite length_app || cbn [length]). pose proof (fmt_length v). lia.
Qed.

Lemma prometheusText_length (m : Metrics) (t : Z) : (length (prometheusText m t) <= 2000)%nat.
Proof.
  unfold prometheusText, rows.
  repeat (cbn [flat_map]; rewrite length_app).
  repeat match goal with
         | |- context [length (row_line ?r)] =>
             let H := fresh in pose proof (row_line_length r) as H;
             set (length (row_line r)) in *; cbv [fst] in H
         end.
  repeat match goal with
         | H : (_ <= length (row_line ?r) + 31)%nat |- _ =>
             let n := eval vm_compute in (length (row_line r)) in
             change (length (row_line r)) with n in H
         end.
  cbn [length]. lia.
Qed.

(** ** The response is read back *)

(** The headers of an answer. *)
Definition answer_headers (content_type : bytes) (n : Z) : gmap bytes bytes :=
  <[str "Connection" := str "close"]>
    (<[str "Content-Length" := to_string n]> (<[str "Content-Type" := content_type]> ∅)).

Definition answer_lines (status content_type : bytes) (n : Z) : list bytes :=
  [str "HTTP/1.1 " ++ status; str "Content-Type: " ++ content_type; str "Content-Length: " ++ to_string n].

Lemma response_block (status content_type b : bytes) :
  response (status, content_type, b)
  = block (answer_lines status content_type (Z.of_nat (length b)) ++ [str "Connection: close"]) ++ crlf ++ b.
Proof.
  unfold response, answer_lines. cbn [app]. rewrite !block_cons. change (block []) with (@nil Z).
  rewrite ?app_nil_r. repeat (rewrite <- app_assoc || rewrite <- app_comm_cons). reflexivity.
Qed.

Lemma answer_lines_text (status content_type : bytes) (n : Z) :
  header_text status -> header_text content_type -> 0 <= n ->
  Forall (fun l => header_text l /\ l <> []) (answer_lines status content_type n ++ [str "Connection: close"]).
Proof.
  intros Hs Hc Hn. unfold answer_lines. cbn [app].
  repeat apply List.Forall_cons; try apply List.Forall_nil; (split; [|discriminate]);
    try (apply header_app; [apply header_text_lit; reflexivity|assumption]);
    [apply content_length_text; exact Hn|apply header_text_lit; reflexivity].
Qed.

Lemma answer_headers_read (status content_type : bytes) (n : Z) :
  header_text status -> header_text content_type -> drop_blanks content_type = content_type -> 0 <= n ->
  fold_left add_header
    (tail (map (fun l => l ++ [13]) (answer_lines status content_type n) ++ [str "Connection: close"])) ∅
  = answer_headers content_type n.
Proof.
  intros Hs Hc Hd Hn. pose proof (answer_lines_text _ _ _ Hs Hc Hn) as Hls.
  apply List.Forall_cons_iff in Hls as [_ Hls].
  etransitivity; [exact (fold_headers (tail (answer_lines status content_type n)) _ ∅ Hls)|].
  unfold answer_lines. cbn [fold_left tail].
  change (str "Content-Type: " ++ content_type) with (str "Content-Type" ++ 58 :: 32 :: content_type).
  change (str "Content-Length: " ++ to_string n) with (str "Content-Length" ++ 58 :: 32 :: to_string n).
  change (str "Connection: close") with (str "Connection" ++ 58 :: 32 :: str "close").
  rewrite !add_header_field; try (apply header_text_lit; reflexivity); try exact Hc;
    try (apply header_text_digits, to_string_digits; exact Hn); try (repeat constructor).
  rewrite Hd, (drop_blanks_digits (to_string n)) by (apply to_string_digits; exact Hn). reflexivity.
Qed.

#[local] Opaque response to_string.

Lemma response_read (status content_type b : bytes) :
  header_text status -> header_text content_type -> drop_blanks content_type = content_type ->
  Z.of_nat (length b) < 2 ^ 32 ->
  httpRecv (response (status, content_type, b))
  = Some (true, mkHttp (str "HTTP/1.1 " ++ status) (answer_headers content_type (Z.of_nat (length b))) b).
Proof.
  intros Hs Hc Hd Hb. set (n := Z.of_nat (length b)).
  pose proof (answer_lines_text status content_type n Hs Hc ltac:(lia)) as Hls.
  unfold httpRecv. rewrite response_block. fold n.
  rewrite (recv_headers_block _ [] b) by (reflexivity || exact Hls).
  cbn [rev app]. rewrite lines_block by exact Hls.
  rewrite answer_headers_read by (assumption || lia). unfold answer_headers at 1.
  rewrite lookup_insert_ne, lookup_insert_eq, stoul_to_string by (discriminate || lia).
  replace (2 ^ 63 <=? n) with false by lia.
  rewrite u32_small by (unfold in_u; lia). unfold n.
  rewrite Nat2Z.id, firstn_all, Nat.eqb_refl, Nat.sub_diag, app_nil_r.
  unfold answer_lines. cbn [map app]. rewrite chomp_cr. reflexivity.
Qed.

#[local] Transparent response to_string.

(** ** Routing *)

Lemma prefixb_prefix (p q s : bytes) : prefixb (p ++ q) s = true -> prefixb p s = true.
Proof.
  revert s. induction p as [|c p IH]; intros [|d s]; cbn; try reflexivity; try discriminate.
  intros [-> H]%andb_true_iff. apply IH. exact H.
Qed.

(** Text with a needle contains what the needle begins with. *)
Lemma contains_shorter (p q s : bytes) : contains (p ++ q) s = true -> contains p s = true.
Proof.
  induction s as [|c s IH].
  - destruct p; [reflexivity|discriminate].
  - rewrite !contains_cons. intros [H|H]%orb_true_iff; apply orb_true_iff; [left|right; auto].
    apply (prefixb_prefix p q). exact H.
Qed.

Lemma health_or_metrics (req : bytes) :
  contains (str "GET /metrics") req || (contains (str "GET /health") req || contains (str "GET /") req)
  = contains (str "GET /") req.
Proof.
  change (str "GET /metrics") with (str "GET /" ++ str "metrics").
  change (str "GET /health") with (str "GET /" ++ str "health").
  destruct (contains (str "GET /") req) eqn:E; [rewrite !orb_true_r; reflexivity|].
  destruct (contains (str "GET /" ++ str "metrics") req) eqn:E1;
    [apply contains_shorter in E1; congruence|].
  destruct (contains (str "GET /" ++ str "health") req) eqn:E2;
    [apply contains_shorter in E2; congruence|]. reflexivity.
Qed.

(** ** Whole numbers as doubles *)

Lemma digits2_bounds (m : positive) :
  2 ^ (Z.pos (digits2_pos m) - 1) <= Z.pos m < 2 ^ Z.pos (digits2_pos m).
Proof.
  assert (Hd : forall d, 2 ^ Z.pos (Pos.succ d) = 2 * 2 ^ Z.pos d
                         /\ 2 ^ (Z.pos (Pos.succ d) - 1) = 2 * 2 ^ (Z.pos d - 1)).
  { intros d. rewrite Pos2Z.inj_succ.
    split; [apply Z.pow_succ_r; lia|].
    replace (Z.succ (Z.pos d) - 1) with (Z.succ (Z.pos d - 1)) by lia. apply Z.pow_succ_r. lia. }
  induction m as [m IH|m IH|]; cbn [digits2_pos]; [| |cbn; lia];
    destruct (Hd (digits2_pos m)) as [-> ->]; lia.
Qed.

Lemma digits2_unique (m : positive) (d : Z) :
  2 ^ (d - 1) <= Z.pos m < 2 ^ d -> Z.pos (digits2_pos m) = d.
Proof.
  intros Hm. pose proof (digits2_bounds m) as Hb.
  assert (0 < d).
  { destruct (Z_lt_le_dec 0 d) as [|Hd]; [assumption|].
    destruct (Z.eq_dec d 0) as [->|]; [cbn in Hm; lia|rewrite (Z.pow_neg_r 2 d) in Hm by lia; lia]. }
  assert (Z.pos (digits2_pos m) - 1 < d) by (apply (Z.pow_lt_mono_r_iff 2); lia).
  assert (d - 1 < Z.pos (digits2_pos m)) by (apply (Z.pow_lt_mono_r_iff 2); lia). lia.
Qed.

(** A mantissa of 53 digits is kept. *)
Lemma round_exact (m : positive) (e : Z) :
  2 ^ 52 <= Z.pos m < 2 ^ 53 -> -1000 <= e <= 900 ->
  binary_round_aux 53 1024 false (Z.pos m) e loc_Exact = S754_finite false m e.
Proof.
  intros Hm He. pose proof (digits2_unique m 53 Hm) as Hd.
  assert (Hs : shr_fexp 53 1024 (Z.pos m) e loc_Exact = (Build_shr_record (Z.pos m) false false, e)).
  { unfold shr_fexp, fexp, emin. cbn [Zdigits2]. rewrite Hd.
    replace (Z.max (53 + e - 53) (3 - 1024 - 53) - e) with 0 by lia. reflexivity. }
  unfold binary_round_aux. rewrite Hs. cbn [shr_m loc_of_shr_record round_nearest_even]. rewrite Hs.
  cbn [shr_m]. replace (e <=? 1024 - 53) with true by lia. reflexivity.
Qed.

Lemma dbl_whole (n : Z) :
  0 < n < 2 ^ 53 ->
  exists m k, 0 <= k /\ Z.pos m = n * 2 ^ k /\ dbl n = S754_finite false m (- k).
Proof.
  destruct n as [|n|n]; try lia. intros Hn. pose proof (digits2_bounds n) as Hb.
  set (d := Z.pos (digits2_pos n)) in *.
  assert (Hd : d <= 53) by (enough (d - 1 < 53) by lia; apply (Z.pow_lt_mono_r_iff 2); lia).
  assert (Hk : exists m, Z.pos m = Z.pos n * 2 ^ (53 - d)
                         /\ shl_align n 0 (fexp 53 1024 (d + 0)) = (m, - (53 - d))).
  { unfold fexp, emin, shl_align. replace (Z.max (d + 0 - 53) (3 - 1024 - 53)) with (- (53 - d)) by lia.
    rewrite Z.sub_0_r. destruct (53 - d) as [|p|p] eqn:E; try lia.
    - exists n. rewrite Z.mul_1_r. auto.
    - exists (shift_pos p n). rewrite shift_pos_correct. change (Z.pow_pos 2 p) with (2 ^ Z.pos p).
      split; [lia|reflexivity]. }
  destruct Hk as (m & Hm & Hs). exists m, (53 - d). split; [lia|]. split; [exact Hm|].
  unfold dbl, binary_normalize, binary_round. fold d. rewrite Hs. apply round_exact; [|lia].
  rewrite Hm. replace 53 with (d + (53 - d)) at 3 by lia.
  replace 52 with ((d - 1) + (53 - d)) by lia. rewrite !Z.pow_add_r by lia.
  pose proof (Z.pow_pos_nonneg 2 (53 - d)). nia.
Qed.

(** Whole numbers are written exactly, with one zero behind the point. *)
Lemma fmt_whole (n : Z) : 0 <= n < 2 ^ 53 -> fmt (dbl n) = to_string n ++ str ".0".
Proof.
  intros Hn. destruct (Z.eq_dec n 0) as [->|Hne]; [reflexivity|].
  destruct (dbl_whole n ltac:(lia)) as (m & k & Hk & Hm & ->).
  assert (Ht : tenths (Z.pos m) (- k) = n * 10).
  { unfold tenths. destruct (0 <=? - k) eqn:E.
    - replace k with 0 in * by lia. rewrite Hm. change (2 ^ (- 0)) with 1. change (2 ^ 0) with 1. lia.
    - rewrite Z.opp_involutive, Hm. pose proof (Z.pow_pos_nonneg 2 k).
      replace (n * 2 ^ k * 10) with (n * 10 * 2 ^ k) by lia. unfold div_even.
      rewrite Z.div_mul, Z.mod_mul by lia. replace (2 * 0 <? 2 ^ k) with true by lia. reflexivity. }
  unfold fmt. rewrite Ht, Z.div_mul, Z.mod_mul by lia. cbn [minus app].
  apply take_ge. rewrite length_app.
  assert (length (to_string n) <= 16)%nat.
  { apply (to_string_length_le n 15). change (10 ^ Z.of_nat 16) with 10000000000000000. lia. }
  change (length (str ".0")) with 2%nat. lia.
Qed.

(** ** Percentiles *)

(** The three percentiles, with their shares in hundredths. *)
Definition shares : list (double * Z) := [(d050, 50); (d095, 95); (d099, 99)].

(** The products that [percentile] rounds down, up to a thousand attaches. *)
Lemma ranks_computed :
  forallb (fun n => forallb (fun q => to_size (dmul q.1 (dbl n)) =? n * q.2 / 100) shares)
    (map Z.of_nat (seq 1 1000)) = true.
Proof. vm_compute. reflexivity. Qed.

Lemma rank_computed (n : Z) (q : double * Z) :
  1 <= n <= 1000 -> In q shares -> to_size (dmul q.1 (dbl n)) = n * q.2 / 100.
Proof.
  intros Hn Hq. pose proof ranks_computed as H. rewrite forallb_forall in H.
  specialize (H n). rewrite forallb_forall in H. apply Z.eqb_eq, H; [|exact Hq].
  apply in_map_iff. exists (Z.to_nat n). split; [lia|]. apply in_seq. lia.
Qed.

(** The latency at a rank. *)
Definition rank (ls : list Z) (share : Z) : Z :=
  nth (Z.to_nat (Z.of_nat (length ls) * share / 100)) (merge_sort Z.le ls) 0.

Lemma sort_length (ls : list Z) : length (merge_sort Z.le ls) = length ls.
Proof. apply Permutation_length, merge_sort_Permutation. Qed.

Lemma share_below (n share : Z) : 0 < n -> 0 <= share < 100 -> 0 <= n * share / 100 < n.
Proof.
  intros Hn Hs. split; [apply Z.div_pos; nia|]. apply Z.div_lt_upper_bound; nia.
Qed.

Lemma shares_range (q : double * Z) : In q shares -> 0 <= q.2 < 100.
Proof. intros [<-|[<-|[<-|[]]]]; cbn; lia. Qed.

Lemma percentile_rank (ls : list Z) (q : double * Z) :
  ls <> [] -> Z.of_nat (length ls) <= 1000 -> In q shares ->
  percentile (map dbl (merge_sort Z.le ls)) q.1 = dbl (rank ls q.2).
Proof.
  intros Hne Hn Hq. destruct ls as [|l ls]; [contradiction|].
  pose proof (share_below (Z.of_nat (length (l :: ls))) q.2 ltac:(cbn; lia) (shares_range q Hq)) as Hi.
  unfold percentile, rank. set (s := merge_sort Z.le (l :: ls)).
  assert (Hs : length s = length (l :: ls)) by apply sort_length.
  destruct (map dbl s) as [|x xs] eqn:E; [destruct s; discriminate|].
  rewrite <- E, length_map, Hs. rewrite rank_computed by (try assumption; cbn in *; lia).
  rewrite (proj2 (Z.leb_gt _ _)) by lia. exact (map_nth dbl s 0 _).
Qed.

Lemma sorted_take_le (s : list Z) (i : nat) (x : Z) :
  StronglySorted Z.le s -> (i < length s)%nat -> In x (take (S i) s) -> x <= nth i s 0.
Proof.
  intros Hs. revert i. induction Hs as [|y s Hs IH Hy]; intros i Hi Hx; [cbn in Hi; lia|].
  destruct i as [|i]; cbn [take nth] in *.
  - destruct Hx as [<-|[]]. lia.
  - destruct Hx as [<-|Hx]; [|apply IH; [cbn in Hi; lia|exact Hx]].
    rewrite List.Forall_forall in Hy. apply Hy, nth_In. cbn in Hi. lia.
Qed.

Lemma sorted_drop_ge (s : list Z) (i : nat) (x : Z) :
  StronglySorted Z.le s -> In x (drop i s) -> nth i s 0 <= x.
Proof.
  intros Hs. revert i. induction Hs as [|y s Hs IH Hy]; intros i Hx; [destruct i; destruct Hx|].
  destruct i as [|i]; cbn [drop nth] in *; [|apply IH; exact Hx].
  destruct Hx as [<-|Hx]; [lia|]. rewrite List.Forall_forall in Hy. apply Hy. exact Hx.
Qed.

(** The elements that pass a test are at least those of a part that passes. *)
Lemma count_part (p : Z -> bool) (a b : list Z) :
  Forall (fun x => p x = true) a -> (length a <= length (List.filter p (a ++ b)))%nat.
Proof.
  intros H. rewrite List.filter_app, length_app.
  replace (List.filter p a) with a; [lia|]. induction H as [|x a Hx _ IH]; [reflexivity|].
  cbn. rewrite Hx. f_equal. exact IH.
Qed.

Lemma count_permutation (p : Z -> bool) (a b : list Z) :
  Permutation a b -> length (List.filter p a) = length (List.filter p b).
Proof.
  induction 1 as [|x a b _ IH|x y a|a b c _ IH1 _ IH2]; cbn; try reflexivity; try congruence.
  - destruct (p x); cbn; congruence.
  - destruct (p x), (p y); reflexivity.
Qed.

Lemma nth_monotone (s : list Z) (i j : nat) :
  StronglySorted Z.le s -> (i <= j < length s)%nat -> nth i s 0 <= nth j s 0.
Proof.
  intros Hs Hij. apply sorted_take_le; [exact Hs|lia|].
  replace (nth i s 0) with (nth i (take (S j) s) 0); [apply nth_In; rewrite length_take; lia|].
  symmetry. rewrite <- (take_drop (S j) s) at 1. apply app_nth1. rewrite length_take. lia.
Qed.

Lemma sorted_sort (ls : list Z) : StronglySorted Z.le (merge_sort Z.le ls).
Proof. apply StronglySorted_merge_sort; intros ?; lia. Qed.

(** The latency at a rank is one of the batch; as many as the rank, and it, are
    not above it, and the rest are not below. *)
Lemma rank_splits (ls : list Z) (share : Z) :
  ls <> [] -> 0 <= share < 100 ->
  let n := Z.of_nat (length ls) in
  let v := rank ls share in
  In v ls
  /\ n * share / 100 < Z.of_nat (length (List.filter (fun l => l <=? v) ls))
  /\ n - n * share / 100 <= Z.of_nat (length (List.filter (fun l => v <=? l) ls)).
Proof.
  intros Hne Hs n v. pose proof (merge_sort_Permutation Z.le ls) as Hp.
  assert (Hn : 0 < n) by (unfold n; destruct ls; [contradiction|cbn; lia]).
  pose proof (share_below n share Hn Hs) as Hi. pose proof (sort_length ls) as Hl.
  pose proof (sorted_sort ls) as Hss. unfold rank in v. fold n in v.
  set (i := Z.to_nat (n * share / 100)) in *. set (s := merge_sort Z.le ls) in *.
  assert (Hil : (i < length s)%nat) by (unfold n in *; lia).
  split; [apply (Permutation_in _ Hp), nth_In; exact Hil|].
  rewrite <- !(count_permutation _ s ls Hp). split.
  - pose proof (count_part (fun l => l <=? v) (take (S i) s) (drop (S i) s)) as Hc.
    rewrite take_drop, length_take in Hc. enough (Forall (fun l => (l <=? v) = true) (take (S i) s)).
    { specialize (Hc H). lia. }
    apply List.Forall_forall. intros x Hx. apply Z.leb_le, sorted_take_le; assumption.
  - pose proof (count_part (fun l => v <=? l) (drop i s) (take i s)) as Hc.
    rewrite (count_permutation _ (drop i s ++ take i s) s), length_drop in Hc
      by (rewrite <- (take_drop i s) at 3; apply Permutation_app_comm).
    enough (Forall (fun l => (v <=? l) = true) (drop i s)).
    { specialize (Hc H). unfold n in *. lia. }
    apply List.Forall_forall. intros x Hx. apply Z.leb_le, (sorted_drop_ge s i); assumption.
Qed.

(** ** Properties *)

Definition whole (n : Z) : bytes := to_string n ++ str ".0".
Definition quantile_metric (q : bytes) : bytes :=
  str "mme_attach_latency_ms{quantile=" ++ [34] ++ q ++ [34; 125].

(** A batch whose numbers the text shows exactly. *)
Definition batch_ok (m : Metrics) : Prop :=
  latencies_ms_ m <> [] /\ Z.of_nat (length (latencies_ms_ m)) <= 1000
  /\ Forall (fun l => 0 <= l < 2 ^ 53) (latencies_ms_ m)
  /\ 0 <= expected_ m < 2 ^ 31 /\ 0 <= completed_ m < 2 ^ 31.

Lemma fmt_sorted (ls : list Z) (i : nat) :
  Forall (fun l => 0 <= l < 2 ^ 53) ls -> fmt (dbl (nth i (merge_sort Z.le ls) 0)) = whole (nth i (merge_sort Z.le ls) 0).
Proof.
  intros H. apply fmt_whole. destruct (nth_in_or_default i (merge_sort Z.le ls) 0) as [Hi|Hi]; [|lia].
  rewrite List.Forall_forall in H. apply H, (Permutation_in _ (merge_sort_Permutation Z.le ls)), Hi.
Qed.

Lemma fmt_percentile (ls : list Z) (q : double * Z) :
  ls <> [] -> Z.of_nat (length ls) <= 1000 -> Forall (fun l => 0 <= l < 2 ^ 53) ls -> In q shares ->
  fmt (percentile (map dbl (merge_sort Z.le ls)) q.1) = whole (rank ls q.2).
Proof. intros. rewrite percentile_rank by assumption. apply fmt_sorted. assumption. Qed.

Lemma last_nth (A : Type) (s : list A) (d : A) : List.last s d = nth (length s - 1) s d.
Proof.
  induction s as [|x s IH]; [reflexivity|]. destruct s as [|y s]; [reflexivity|].
  change (List.last (x :: y :: s) d) with (List.last (y :: s) d). rewrite IH. cbn. rewrite Nat.sub_0_r. reflexivity.
Qed.

(** The figures that are whole numbers, as the text writes them. *)
Lemma figures_written (ls : list Z) (t : Z) :
  ls <> [] -> Z.of_nat (length ls) <= 1000 -> Forall (fun l => 0 <= l < 2 ^ 53) ls ->
  let f := figures ls t in
  let s := merge_sort Z.le ls in
  fmt (dbl (f_n f)) = whole (Z.of_nat (length ls))
  /\ fmt (f_p50 f) = whole (rank ls 50) /\ fmt (f_p95 f) = whole (rank ls 95)
  /\ fmt (f_p99 f) = whole (rank ls 99)
  /\ fmt (f_min f) = whole (nth 0 s 0) /\ fmt (f_max f) = whole (nth (length ls - 1) s 0).
Proof.
  intros Hne Hn Hls f s. pose proof (fmt_percentile ls) as Hp.
  pose proof (Hp (d050, 50) Hne Hn Hls ltac:(cbn; auto)) as H50.
  pose proof (Hp (d095, 95) Hne Hn Hls ltac:(cbn; auto)) as H95.
  pose proof (Hp (d099, 99) Hne Hn Hls ltac:(cbn; auto)) as H99.
  assert (Hmin : fmt (nth 0 (map dbl s) d0) = whole (nth 0 s 0)).
  { change d0 with (dbl 0). rewrite map_nth. apply fmt_sorted. exact Hls. }
  assert (Hmax : fmt (List.last (map dbl s) d0) = whole (nth (length ls - 1) s 0)).
  { rewrite last_nth, length_map. change d0 with (dbl 0). rewrite map_nth. unfold s.
    rewrite sort_length. apply fmt_sorted. exact Hls. }
  subst f s. destruct ls as [|l ls]; [contradiction|].
  split; [apply (fmt_whole (Z.of_nat (length (l :: ls)))); lia|]. repeat (split; [assumption|]). assumption.
Qed.

(** C40. A scrape reads what the batch recorded.  The response to any request that
    asks for the metrics is one HTTP message, received whole, whose
    announced length is that of its text; and the text, read line by line,
    holds exactly ten samples: the number of attaches, the latencies at the
    ranks of 50, 95 and 99 hundredths of the sorted batch, the least and the
    greatest, and the counters, all written exactly; and the mean and the
    throughput as rounded. *)
Theorem scrape_readable (m : Metrics) (t port : Z) (received : bytes) :
  contains (str "GET /metrics") (request_text received) = true -> batch_ok m ->
  let ls := latencies_ms_ m in
  exists text,
    httpRecv (handleRequest (Some m) t port received)
    = Some (true, mkHttp (str "HTTP/1.1 200 OK")
                    (answer_headers (str "text/plain; version=0.0.4; charset=utf-8") (Z.of_nat (length text))) text)
    /\ samples text
       = [(str "mme_attach_total", whole (Z.of_nat (length ls)));
          (quantile_metric (str "mean"), fmt (f_avg (figures ls t)));
          (quantile_metric (str "0.50"), whole (rank ls 50));
          (quantile_metric (str "0.95"), whole (rank ls 95));
          (quantile_metric (str "0.99"), whole (rank ls 99));
          (str "mme_attach_latency_ms_min", whole (nth 0 (merge_sort Z.le ls) 0));
          (str "mme_attach_latency_ms_max", whole (nth (length ls - 1) (merge_sort Z.le ls) 0));
          (str "mme_attach_throughput", fmt (f_tput (figures ls t)));
          (str "mme_expected_ues", whole (expected_ m));
          (str "mme_registered_ues", whole (completed_ m))].
Proof.
  intros Hreq (Hne & Hn & Hls & He & Hc) ls. exists (prometheusText m t). split.
  - unfold handleRequest, answer. rewrite Hreq. apply response_read;
      try (apply header_text_lit; reflexivity); [reflexivity|].
    pose proof (prometheusText_length m t). lia.
  - rewrite prometheusText_samples. cbn [rows map]. unfold row_value. cbn [snd]. fold ls.
    destruct (figures_written ls t Hne Hn Hls) as (-> & -> & -> & -> & -> & ->).
    rewrite !fmt_whole by lia. reflexivity.
Qed.

Definition three_attaches : Metrics := recordAll [30; 10; 20] (startBulk 3 newMetrics).

Lemma scrape_readable_witness :
  exists text,
    httpRecv (handleRequest (Some three_attaches) 500 9090 (str "GET /metrics HTTP/1.1"))
    = Some (true, mkHttp (str "HTTP/1.1 200 OK")
                    (answer_headers (str "text/plain; version=0.0.4; charset=utf-8") (Z.of_nat (length text))) text)
    /\ nth 2 (samples text) ([], []) = (quantile_metric (str "0.50"), str "20.0")
    /\ nth 7 (samples text) ([], []) = (str "mme_attach_throughput", str "6.0").
Proof.
  destruct (scrape_readable three_attaches 500 9090 (str "GET /metrics HTTP/1.1")) as (text & Hr & Hs).
  - vm_compute. reflexivity.
  - repeat split; try discriminate; cbn; try lia. repeat constructor; lia.
  - exists text. split; [exact Hr|]. rewrite Hs. vm_compute. split; reflexivity.
Defined.

(** A percentile is a latency of the batch, in milliseconds: more than its
    share of the attaches, rounded down, took no longer, and the others took no
    less. *)
Theorem percentiles_ranked (ls : list Z) (q : double * Z) :
  ls <> [] -> Z.of_nat (length ls) <= 1000 -> In q shares ->
  let n := Z.of_nat (length ls) in
  exists v, percentile (map dbl (merge_sort Z.le ls)) q.1 = dbl v /\ In v ls
  /\ n * q.2 / 100 < Z.of_nat (length (List.filter (fun l => l <=? v) ls))
  /\ n - n * q.2 / 100 <= Z.of_nat (length (List.filter (fun l => v <=? l) ls)).
Proof.
  intros Hne Hn Hq n. exists (rank ls q.2).
  split; [apply percentile_rank; assumption|]. apply rank_splits; [exact Hne|].
  apply shares_range. exact Hq.
Qed.

Lemma percentiles_ranked_witness :
  exists v, percentile (map dbl (merge_sort Z.le [30; 10; 20])) d050 = dbl v /\ In v [30; 10; 20].
Proof.
  destruct (percentiles_ranked [30; 10; 20] (d050, 50)) as (v & Hv & Hi & _);
    [discriminate|cbn; lia|cbn; auto|]. exists v. split; assumption.
Defined.

(** [404 Not Found] answers exactly the requests in which no [GET /] is found:
    every other path than [/metrics] is answered with the health text. *)
Theorem not_found_without_get (metrics : option Metrics) (t port : Z) (req : bytes) :
  (answer metrics t port req).1.1
  = if contains (str "GET /") req then str "200 OK" else str "404 Not Found".
Proof.
  rewrite <- (health_or_metrics req). unfold answer.
  destruct (contains (str "GET /metrics") req); [reflexivity|]. cbn [orb].
  destruct (contains (str "GET /health") req || contains (str "GET /") req); reflexivity.
Qed.
