(* ===== verification/Sbi.v ===== *)
(** * What surrounds a 5G network function

    The network functions of the 5G core are programs whose calls may throw,
    so their handlers are written in the monad [X]: a state that survives an
    exception, and an outcome.  The outside is the class [Host]: the peers a
    function connects to, its connection to the gNB or the AMF, the capture
    file, the random sources and the environment variables.  The client of the
    NRF ([5g-simulator/src/common/nrf_client.h]) is written here against it.
    Log output is not modelled. *)

From S2P Require Import Prelude Text Strings Json Http.
#[local] Open Scope Z_scope.

(** ** Outcomes *)

Inductive outcome (A : Type) : Type :=
| Returns (a : A)
| Throws
| UB.
Arguments Returns {A} a.
Arguments Throws {A}.
Arguments UB {A}.

Definition or_throw {A} (o : option A) : outcome A :=
  match o with Some a => Returns a | None => Throws end.

#[export] Instance outcome_ret : MRet outcome := fun A a => Returns a.
#[export] Instance outcome_bind : MBind outcome := fun A B k m =>
  match m with Returns a => k a | Throws => Throws | UB => UB end.

(** Code over a state [T]; what was done before an exception stays done. *)
Definition X (T A : Type) : Type := T -> outcome A * T.

#[export] Instance X_ret {T} : MRet (X T) := fun A a t => (Returns a, t).
#[export] Instance X_bind {T} : MBind (X T) := fun A B k m t =>
  match m t with
  | (Returns a, t') => k a t'
  | (Throws, t') => (Throws, t')
  | (UB, t') => (UB, t')
  end.

Definition liftX {T A} (o : outcome A) : X T A := fun t => (o, t).

(** [try { m } catch (const std::exception&) { h }]. *)
Definition try_catch {T A} (m h : X T A) : X T A := fun t =>
  match m t with
  | (Throws, t') => h t'
  | r => r
  end.

(** ** The outside *)

(** The calls made to [PcapWriter::instance()]. *)
Inductive PcapCall5 : Type :=
| writeAppText (text : bytes) (src_ip src_port dst_ip dst_port : Z)
| writeUdp (payload : bytes) (src_ip src_port dst_ip dst_port : Z).

Class Host (W : Type) : Type := {
  (** [Socket::connectTo(host, port)]: false when it throws. *)
  h_connect : bytes -> Z -> W -> bool * W;
  (** [httpSend] of a request on that connection; the octets the peer sends
      back before it closes. *)
  h_exchange : bytes -> Z -> bytes -> W -> bytes * W;
  (** [sendFrame] on the N2 connection; a failure is not looked at. *)
  h_frame : bytes -> W -> W;
  (** [recvFrame] on it: the payload, or [None] when it fails. *)
  h_recv : W -> option bytes * W;
  (** [UdpSocket::sendTo(buf, host, port)]. *)
  h_udp : bytes -> bytes -> Z -> W -> W;
  h_pcap : PcapCall5 -> W -> W;
  (** [Chaos::enabled()], [std::rand()] and [std::random_device]. *)
  h_chaos : W -> bool;
  h_rand : W -> Z * W;
  h_device : W -> Z * W
}.

(** [std::getenv]. *)
Class Environ : Type := getenv : bytes -> option bytes.

Definition getenv_or `{Environ} (name default : bytes) : bytes :=
  match getenv name with Some v => v | None => default end.

Section Ops.
Context {S W : Type} `{Host W}.

Definition xget : X (S * W) S := fun '(s, w) => (Returns s, (s, w)).
Definition xmodify (f : S -> S) : X (S * W) unit := fun '(s, w) => (Returns tt, (f s, w)).

(** [Socket::connectTo]. *)
Definition connectTo (host : bytes) (port : Z) : X (S * W) unit := fun '(s, w) =>
  let '(ok, w') := h_connect host port w in
  ((if ok then Returns tt else Throws), (s, w')).

(** [httpSend(sock, req); httpRecv(sock, resp)]. *)
Definition exchange (host : bytes) (port : Z) (req : bytes) : X (S * W) (bool * HttpMessage) :=
  fun '(s, w) =>
  let '(stream, w') := h_exchange host port req w in
  (or_throw (httpRecv stream), (s, w')).

Definition pcap5 (c : PcapCall5) : X (S * W) unit := fun '(s, w) => (Returns tt, (s, h_pcap c w)).

Definition sendFrame5 (frame : bytes) : X (S * W) unit := fun '(s, w) =>
  (Returns tt, (s, h_frame frame w)).

Definition recvFrame5 : X (S * W) (option bytes) := fun '(s, w) =>
  let '(p, w') := h_recv w in (Returns p, (s, w')).

Definition udpSendTo (buf host : bytes) (port : Z) : X (S * W) unit := fun '(s, w) =>
  (Returns tt, (s, h_udp buf host port w)).

(** [Chaos::rollDrop]: with chaos on, true one time in five. *)
Definition rollDrop5 : X (S * W) bool := fun '(s, w) =>
  if h_chaos w then
    let '(r, w') := h_rand w in (Returns (r mod 100 <? 20), (s, w'))
  else (Returns false, (s, w)).

(** ** The client of the NRF *)

Definition NRF_PORT : Z := 29510.

Definition nrfHost `{Environ} : bytes := getenv_or (str "NRF_HOST") (str "127.0.0.1").

(** The registration request. *)
Definition registerReq (nfInstanceId nfType selfHost : bytes) (selfPort : Z) : bytes :=
  httpBuild (str "PUT /nnrf-nfm/v1/nf-instances/" ++ nfInstanceId ++ str " HTTP/1.1")
    (json.obj [(str "nfInstanceId", json.str nfInstanceId);
               (str "nfType", json.str nfType);
               (str "host", json.str selfHost);
               (str "port", json.num selfPort)]) [].

(** One attempt: true when it returns, false when it throws. *)
Definition register_attempt `{Environ} (req : bytes) : X (S * W) bool :=
  try_catch (connectTo nrfHost NRF_PORT;; _ ← exchange nrfHost NRF_PORT req; mret true)
            (mret false).

Fixpoint register_attempts `{Environ} (n : nat) (req : bytes) : X (S * W) unit :=
  match n with
  | O => mret tt
  | Datatypes.S n' => ok ← register_attempt req; if ok : bool then mret tt else register_attempts n' req
  end.

(** Ten attempts, then the function goes on unregistered. *)
Definition registerSelf `{Environ} (nfInstanceId nfType selfHost : bytes) (selfPort : Z)
    : X (S * W) unit :=
  register_attempts 10 (registerReq nfInstanceId nfType selfHost selfPort).

Record Discovered : Type := mkDiscovered { d_host : bytes; d_port : Z; d_found : bool }.

Definition discoverReq (targetNfType : bytes) : bytes :=
  httpBuild (str "GET /nnrf-disc/v1/nf-instances?target-nf-type=" ++ targetNfType
             ++ str " HTTP/1.1") [] [].

Definition discover `{Environ} (targetNfType : bytes) : X (S * W) Discovered :=
  try_catch
    (connectTo nrfHost NRF_PORT;;
     '(_, resp) ← exchange nrfHost NRF_PORT (discoverReq targetNfType);
     if contains (str "200") (startLine resp) then
       let host := json.get (body resp) (str "host") in
       port ← liftX (or_throw (stoi (json.get (body resp) (str "port"))));
       mret (mkDiscovered host (u16 port) true)
     else mret (mkDiscovered [] 0 false))
    (mret (mkDiscovered [] 0 false)).

End Ops.

(** ** Lemmas *)

Lemma X_bind_eq {T A B} (m : X T A) (k : A -> X T B) (t : T) :
  (m ≫= k) t = match m t with
               | (Returns a, t') => k a t'
               | (Throws, t') => (Throws, t')
               | (UB, t') => (UB, t')
               end.
Proof. reflexivity. Qed.

Lemma X_ret_eq {T A} (a : A) (t : T) : (mret a : X T A) t = (Returns a, t).
Proof. reflexivity. Qed.

(** Running a handler: the binds and the operations. *)
Ltac run_x :=
  cbn [xget xmodify connectTo exchange pcap5 sendFrame5 recvFrame5 udpSendTo liftX fst snd];
  repeat (first [rewrite X_bind_eq | rewrite X_ret_eq];
          cbn [xget xmodify connectTo exchange pcap5 sendFrame5 recvFrame5 udpSendTo liftX fst snd]).

(** A client survives whatever its NRF does: neither function lets an
    exception out. *)
Lemma try_catch_safe {T A} (m h : X T A) (t : T) :
  (forall t', exists a t'', h t' = (Returns a, t'')) -> (forall t', m t <> (UB, t')) ->
  exists a t', try_catch m h t = (Returns a, t').
Proof.
  intros Hh Hub. unfold try_catch. destruct (m t) as [[a| |] t'] eqn:E.
  - eauto.
  - apply Hh.
  - destruct (Hub t' eq_refl).
Qed.

Section Client.
Context {S W : Type} `{Host W} `{Environ}.

Lemma register_attempt_returns (req : bytes) (t : S * W) :
  exists ok t', register_attempt req t = (Returns ok, t').
Proof.
  apply try_catch_safe; [intros t'; exists false, t'; reflexivity|].
  intros t'. destruct t as [s w]. rewrite X_bind_eq. cbn.
  destruct (h_connect nrfHost NRF_PORT w) as [[] w1]; [|discriminate].
  rewrite X_bind_eq. cbn. destruct (h_exchange _ _ _ w1) as [stream w2].
  destruct (httpRecv stream) as [[]|]; discriminate.
Qed.

Lemma registerSelf_returns (id ty host : bytes) (port : Z) (t : S * W) :
  exists t', registerSelf id ty host port t = (Returns tt, t').
Proof.
  unfold registerSelf. generalize 10%nat as n. intros n. revert t.
  induction n as [|n IH]; intros t; cbn [register_attempts]; [eauto|].
  rewrite X_bind_eq.
  destruct (register_attempt_returns (registerReq id ty host port) t) as ([] & t' & ->);
    [eauto|apply IH].
Qed.

Lemma discover_returns (ty : bytes) (t : S * W) :
  exists d t', discover ty t = (Returns d, t').
Proof.
  apply try_catch_safe; [intros t'; eexists _, t'; reflexivity|].
  intros t'. destruct t as [s w]. rewrite X_bind_eq. cbn.
  destruct (h_connect nrfHost NRF_PORT w) as [[] w1]; [|discriminate].
  rewrite X_bind_eq. cbn. destruct (h_exchange _ _ _ w1) as [stream w2].
  destruct (httpRecv stream) as [[ok m]|]; [|discriminate]. cbn [or_throw].
  destruct (contains _ _); [|discriminate]. rewrite X_bind_eq. cbn [liftX].
  destruct (stoi _); discriminate.
Qed.

End Client.

Lemma word_nq (w : bytes) : word_text w -> noquote w.
Proof. exact (word_noquote w). Qed.

#[export] Hint Resolve word_nq : json words.

(** ** Worlds for concrete runs *)

Definition no_environ : Environ := fun _ => None.

(** A world that records frames and refuses connections. *)
#[export] Instance TapeHost : Host (list bytes) := {
  h_connect _ _ w := (false, w); h_exchange _ _ _ w := ([], w); h_frame f w := w ++ [f];
  h_recv w := (None, w); h_udp _ _ _ w := w; h_pcap _ w := w;
  h_chaos _ := false; h_rand w := (0, w); h_device w := (0, w)
}.
