(* ===== verification/Aka5g.v ===== *)
(** * 5G identities and authentication

    [5g-simulator/src/common/ids5g.h] and [aka_lite.h]: the identities of a
    subscriber, and the simplified 5G-AKA in which both sides derive the
    response as the exclusive or of the challenge and the subscriber's key. *)

From S2P Require Import Prelude Text Strings Json Sbi.
#[local] Open Scope Z_scope.

(** ** Identities *)

Section Ids.
Context `{Environ}.

Definition mcc : bytes := getenv_or (str "PLMN_MCC") (str "404").
Definition mnc : bytes := getenv_or (str "PLMN_MNC") (str "10").

(** The MNC is padded to three digits in the domain name. *)
Definition plmnDomain : bytes :=
  let m := if (length mnc =? 2)%nat then 48 :: mnc else mnc in
  str "mnc" ++ m ++ str ".mcc" ++ mcc.

Definition msin (ueId : Z) : bytes := setw 10 (to_stringZ ueId).

Definition suci (ueId : Z) : bytes :=
  str "suci-0-" ++ mcc ++ str "-" ++ mnc ++ str "-0000-0-0-" ++ msin ueId.

Definition supi (ueId : Z) : bytes := str "imsi-" ++ mcc ++ mnc ++ msin ueId.

(** The scheme output of a null-scheme SUCI is the MSIN. *)
Definition msinFromSuci (s : bytes) : bytes :=
  match rfind 45 s with None => [] | Some p => drop (p + 1) s end.

Definition supiFromSuci (s : bytes) : bytes := str "imsi-" ++ mcc ++ mnc ++ msinFromSuci s.

End Ids.

(** ** Hexadecimal text *)

Definition hex_value (c : Z) : option Z :=
  if is_digit c then Some (c - 48)
  else if (97 <=? c) && (c <=? 102) then Some (c - 87)
  else if (65 <=? c) && (c <=? 70) then Some (c - 55)
  else None.

Fixpoint scan_hex (l : bytes) (v : Z) (n : nat) : Z * nat :=
  match l with
  | [] => (v, n)
  | c :: l' => match hex_value c with Some d => scan_hex l' (v * 16 + d) (S n) | None => (v, n) end
  end.

(** [std::stoul(s, nullptr, 16)] of at most two characters: [None] when it
    throws. *)
Definition stoul16 (s : bytes) : option Z :=
  let '(neg, l) := scan_sign (skip_spaces s) in
  let '(v, n) := scan_hex l 0 0 in
  match n with O => None | S _ => Some (if neg then u64 (- v) else v) end.

(** A last odd character is left out. *)
Fixpoint fromHex (hex : bytes) : option bytes :=
  match hex with
  | a :: b :: r => v ← stoul16 [a; b]; l ← fromHex r; Some (u8 v :: l)
  | _ => Some []
  end.

Definition hex_digit (n : Z) : Z := if n <? 10 then 48 + n else 87 + n.

Definition toHex (v : bytes) : bytes :=
  concat (map (fun b => [hex_digit (b / 16); hex_digit (b mod 16)]) v).

(** ** The authentication functions *)

(** [out[i] = a[i] ^ b[i % b.size()]]. *)
Definition xor_at (a b : bytes) (i : nat) : Z :=
  Z.lxor (nth i a 0) (nth (i mod length b) b 0).

(** A division by zero when the second text has no octet and the first has. *)
Definition byteXor (a_hex b_hex : bytes) : outcome bytes :=
  a ← or_throw (fromHex a_hex); b ← or_throw (fromHex b_hex);
  match b, a with
  | [], _ :: _ => UB
  | _, _ => Returns (toHex (map (xor_at a b) (seq 0 (length a))))
  end.

(** The key of a subscriber: the last character of a fixed text is replaced. *)
Definition kFor (msin : bytes) : bytes :=
  let base := str "00112233445566778899aabbccddee0" in
  let l := match rev msin with [] => 0 | c :: _ => c - 48 end in
  removelast base ++ [nth (Z.to_nat (Z.land l 15)) (str "0123456789abcdef") 0].

Section Random.
Context {S W : Type} `{Host W}.

(** [uint8_t(rd() & 0xFF)]. *)
Definition random_byte : X (S * W) Z := fun '(s, w) =>
  let '(r, w') := h_device w in (Returns (Z.land r 255), (s, w')).

Fixpoint random_bytes (n : nat) : X (S * W) bytes :=
  match n with
  | O => mret []
  | Datatypes.S n' => b ← random_byte; l ← random_bytes n'; mret (b :: l)
  end.

Definition randomHex (n : nat) : X (S * W) bytes := v ← random_bytes n; mret (toHex v).

End Random.

(** ** Lemmas *)

Lemma hex_digit_value (n : Z) : 0 <= n < 16 -> hex_value (hex_digit n) = Some n.
Proof.
  intros Hn. unfold hex_digit. destruct (Z.ltb_spec n 10).
  - unfold hex_value. rewrite is_digit_of by lia. f_equal. lia.
  - unfold hex_value, is_digit. replace ((48 <=? 87 + n) && (87 + n <=? 57)) with false by lia.
    replace ((97 <=? 87 + n) && (87 + n <=? 102)) with true by lia. f_equal. lia.
Qed.

Lemma hex_digit_plain (n : Z) : 0 <= n < 16 ->
  is_space (hex_digit n) = false /\ hex_digit n <> 45 /\ hex_digit n <> 43.
Proof. intros Hn. unfold hex_digit, is_space. destruct (Z.ltb_spec n 10); lia. Qed.

Lemma stoul16_digits (a b : Z) :
  0 <= a < 16 -> 0 <= b < 16 -> stoul16 [hex_digit a; hex_digit b] = Some (a * 16 + b).
Proof.
  intros Ha Hb. destruct (hex_digit_plain a Ha) as (H1 & H2 & H3).
  unfold stoul16. cbn [skip_spaces]. rewrite H1. cbn [scan_sign].
  replace (hex_digit a =? 45) with false by lia. replace (hex_digit a =? 43) with false by lia.
  cbn [scan_hex]. rewrite !hex_digit_value by assumption. reflexivity.
Qed.

(** What is written in hexadecimal is what is read. *)
Lemma fromHex_toHex (v : bytes) : is_bytes v -> fromHex (toHex v) = Some v.
Proof.
  induction 1 as [|b v Hb _ IH]; [reflexivity|].
  unfold in_u in Hb. change (2 ^ 8) with 256 in Hb.
  unfold toHex. cbn [map concat app fromHex]. rewrite stoul16_digits by div_eqs. cbn.
  fold (toHex v). rewrite IH. cbn. f_equal. f_equal.
  rewrite u8_small; [div_eqs|]. unfold in_u. change (2 ^ 8) with 256. div_eqs.
Qed.

(** Every subscriber has the same key: the replaced digit is the odd one that
    [fromHex] leaves out. *)
Lemma kFor_key (m : bytes) :
  fromHex (kFor m) = fromHex (str "00112233445566778899aabbccddee0").
Proof. reflexivity. Qed.

Definition K : bytes := [0; 17; 34; 51; 68; 85; 102; 119; 136; 153; 170; 187; 204; 221; 238].

Lemma kFor_is_K (m : bytes) : fromHex (kFor m) = Some K.
Proof. reflexivity. Qed.

Definition response (challenge : bytes) : bytes :=
  toHex (map (xor_at challenge K) (seq 0 (length challenge))).

Lemma byteXor_response (v m : bytes) :
  is_bytes v -> byteXor (toHex v) (kFor m) = Returns (response v).
Proof.
  intros Hv. unfold byteXor. rewrite fromHex_toHex by exact Hv. reflexivity.
Qed.

(** A response tells the challenge: the exclusive or with the key undoes
    itself. *)
Lemma toHex_inj (a b : bytes) : is_bytes a -> is_bytes b -> toHex a = toHex b -> a = b.
Proof.
  intros Ha Hb E. enough (Some a = Some b) by congruence.
  rewrite <- (fromHex_toHex a Ha), <- (fromHex_toHex b Hb), E. reflexivity.
Qed.

Lemma land_byte (r : Z) : in_u 8 (Z.land r 255).
Proof.
  unfold in_u. change 255 with (Z.ones 8). rewrite Z.land_ones by lia.
  apply Z.mod_pos_bound. reflexivity.
Qed.

Lemma random_bytes_returns {S W} `{Host W} (n : nat) (s : S) (w : W) :
  exists v w', random_bytes n (s, w) = (Returns v, (s, w'))
               /\ is_bytes v /\ length v = n.
Proof.
  revert w. induction n as [|n IH]; intros w; cbn [random_bytes].
  - exists [], w. repeat split. constructor.
  - rewrite X_bind_eq. cbn. destruct (h_device w) as [r w1].
    destruct (IH w1) as (v & w2 & E & Hv & Hl). rewrite X_bind_eq, E. cbn.
    exists (Z.land r 255 :: v), w2. split; [reflexivity|]. split; [|cbn; lia].
    constructor; [apply land_byte|exact Hv].
Qed.

(** Characters of hexadecimal text. *)
Lemma toHex_noquote (v : bytes) : is_bytes v -> noquote (toHex v).
Proof.
  induction 1 as [|b v Hb _ IH]; [constructor|].
  unfold in_u in Hb. change (2 ^ 8) with 256 in Hb.
  unfold toHex. cbn [map concat app]. fold (toHex v).
  assert (H1 : 0 <= b / 16 < 16) by div_eqs. assert (H2 : 0 <= b mod 16 < 16) by div_eqs.
  repeat constructor; [..|exact IH]; unfold hex_digit; case_match; lia.
Qed.

Lemma toHex_length (v : bytes) : length (toHex v) = (2 * length v)%nat.
Proof.
  induction v as [|b v IH]; [reflexivity|]. unfold toHex in *. cbn [map concat app length].
  rewrite IH. lia.
Qed.

Lemma response_length (v : bytes) : length (response v) = (2 * length v)%nat.
Proof. unfold response. rewrite toHex_length, length_map, length_seq. reflexivity. Qed.

Lemma nth_bytes (l : bytes) (i : nat) : is_bytes l -> in_u 8 (nth i l 0).
Proof.
  intros Hl. revert i. induction Hl as [|b l Hb _ IH]; intros [|i]; cbn; try apply IH; try exact Hb;
    unfold in_u; lia.
Qed.

Lemma response_noquote (v : bytes) : is_bytes v -> noquote (response v).
Proof.
  intros Hv. apply toHex_noquote, List.Forall_map, List.Forall_forall. intros i _.
  apply lxor_range; [lia|apply nth_bytes; exact Hv|]. apply nth_bytes.
  repeat constructor; unfold in_u; lia.
Qed.

#[export] Hint Resolve toHex_noquote response_noquote : json.

(** ** Identities, read back *)

Definition plmn_ok `{Environ} : Prop := all_digits mcc /\ all_digits mnc.

Section IdLemmas.
Context `{Environ}.

Lemma msin_digits (n : Z) : 0 <= n -> all_digits (msin n).
Proof.
  intros Hn. unfold msin, to_stringZ. replace (n <? 0) with false by lia.
  apply setw_digits, to_string_digits. exact Hn.
Qed.

Lemma msin_length (n : Z) : 0 <= n < 2 ^ 31 -> length (msin n) = 10%nat.
Proof.
  intros Hn. unfold msin, to_stringZ. replace (n <? 0) with false by lia. rewrite setw_length.
  pose proof (to_string_length_le n 9). change (2 ^ 31) with 2147483648 in Hn. cbn in H0. lia.
Qed.

Lemma msinFromSuci_suci (n : Z) : 0 <= n -> msinFromSuci (suci n) = msin n.
Proof.
  intros Hn. unfold msinFromSuci, suci.
  replace (str "suci-0-" ++ mcc ++ str "-" ++ mnc ++ str "-0000-0-0-" ++ msin n)
    with ((str "suci-0-" ++ mcc ++ str "-" ++ mnc ++ str "-0000-0-0") ++ 45 :: msin n)
    by (rewrite <- !app_assoc; reflexivity).
  rewrite rfind_app.
  - rewrite <- drop_drop, drop_app_length. reflexivity.
  - eapply List.Forall_impl; [|apply msin_digits; exact Hn]. unfold is_digit. cbn. lia.
Qed.

(** The UDM resolves the SUCI of a subscriber to his SUPI. *)
Lemma supiFromSuci_suci (n : Z) : 0 <= n -> supiFromSuci (suci n) = supi n.
Proof. intros Hn. unfold supiFromSuci, supi. rewrite msinFromSuci_suci by exact Hn. reflexivity. Qed.

Lemma supi_inj (a b : Z) : 0 <= a -> 0 <= b -> supi a = supi b -> a = b.
Proof.
  intros Ha Hb E. unfold supi in E. apply app_inv_head, app_inv_head, app_inv_head in E.
  unfold msin, to_stringZ in E. replace (a <? 0) with false in E by lia.
  replace (b <? 0) with false in E by lia. eapply setw_inj; eassumption.
Qed.

End IdLemmas.
