(* ===== verification/EventLog.v ===== *)
(** * The event log

    [common/json_event_log.h]: one JSON object per line for each protocol
    event, with an explanation looked up by the name of the message.  The table
    of explanations is an [unordered_map]; the order in which it is traversed
    is an argument.  What a log
    holds is stated with a reader of JSON objects written from the format. *)

From Stdlib Require Import ZArith Lia.
From stdpp Require Import list strings.
From S2P Require Import Prelude Text Strings Aka5g.
#[local] Open Scope Z_scope.

(** ** The table *)

Record MsgMeta : Type := mkMeta { beginner_text : bytes; interview_q : bytes; interview_a : bytes }.

Abbreviation Table := (list (bytes * MsgMeta)).

(** The initialiser of [getMsgTable]. *)
Definition msg_table : Table := [
   (str "Diameter AIR", mkMeta
     (str "MME asks HSS: does this SIM card really belong to this subscriber?")
     (str "What is Diameter Authentication-Information-Request (AIR)?")
     (str "AIR (Command Code 318) is sent over S6a. MME sends IMSI and requests AUTN+RAND vectors from HSS. Ref: TS 29.272 §7.2.5."));
   (str "Diameter AIA", mkMeta
     (str "HSS replies with authentication vectors — the 'secret handshake' between the network and the SIM.")
     (str "What fields does AIA carry and why does it return multiple AVs?")
     (str "AIA carries E-UTRAN-Vector (RAND, XRES, AUTN, KASME). HSS returns 5 vectors for pre-fetching so MME can auth the UE without going to HSS again on each handover."));
   (str "Diameter ULR", mkMeta
     (str "MME tells HSS: this subscriber is now in my area, please send me their subscription profile.")
     (str "What triggers an Update-Location-Request (ULR)?")
     (str "ULR (CC 316) is sent after successful authentication. MME registers the new serving MME at HSS and requests the subscription data needed to authorize bearer establishment."));
   (str "Diameter ULA", mkMeta
     (str "HSS sends the subscriber's profile back — which services they can use, QoS, allowed APNs.")
     (str "What data is in the ULA Subscription-Data AVP?")
     (str "ULA carries MSISDN, AMBR, EPS-Subscribed-QoS-Profile, and APN-Configuration per bearer. The APN-AMBR limits per-APN throughput, separating it from UE-AMBR."));
   (str "GTPv2 Create Session Request", mkMeta
     (str "MME asks S-GW to open a data tunnel for the UE — like reserving a lane on the highway.")
     (str "What IEs are mandatory in a GTPv2-C Create Session Request?")
     (str "Mandatory IEs: IMSI (0x01), APN (0x47), RAT Type, F-TEID (MME/S-GW control plane), Bearer Contexts with EBI+QoS. Ref: TS 29.274 Table 7.2.1-1."));
   (str "GTPv2 Create Session Response", mkMeta
     (str "S-GW says 'tunnel ready' and gives the MME the data plane address and TEID for the eNB.")
     (str "How does GTPv2 Create Session Response differ between S-GW and P-GW responses?")
     (str "The S-GW CSResp includes the S1-U TEID for eNB. The P-GW CSResp adds the PDN Address Allocation (UE IP). Both responses are chained: P-GW→S-GW→MME."));
   (str "GTPv2 Modify Bearer", mkMeta
     (str "After handover, MME switches the data path to route traffic through the new eNB.")
     (str "When is Modify Bearer Request sent and what does it update?")
     (str "MBReq is sent after path switch (S1 HO) or during TAU. It updates the eNB TEID on S1-U so S-GW knows where to deliver DL packets. Ref: TS 29.274 §7.2.7."));
   (str "S1AP InitialContextSetupRequest", mkMeta
     (str "MME instructs the eNB to configure radio bearers and give the UE its 4G IP address.")
     (str "What security context does InitialContextSetupRequest carry?")
     (str "It carries the SecurityKey (KeNB, 256-bit), UESecurityCapabilities, and E-RAB list with S1-U TEID+IP for each bearer. eNB derives the AS keys (KRRCenc, KUPenc) from KeNB."));
   (str "NAS TAU Request", mkMeta
     (str "UE tells the network it has moved to a new Tracking Area (cell cluster) — like checking into a new city.")
     (str "Why does the UE send a TAU Request when entering a new TA?")
     (str "The UE sends TAU (NAS type 0x48) when it moves into a TA not in its Allowed TA List. MME validates the TAI, updates the UE's TA List, and resets T3412 (periodic TAU timer, default 54 min)."));
   (str "NAS TAU Accept", mkMeta
     (str "Network acknowledges the location update — now it knows where to page this UE.")
     (str "What timers are reset during TAU Accept?")
     (str "TAU Accept (NAS type 0x49) carries: new Allowed TA List, T3412 timer value (default 54 min = 0x23 01 in TLV), GUTI reallocation optional. T3412 expiry triggers next Periodic TAU."));
   (str "S1AP HandoverRequired", mkMeta
     (str "eNB signals the MME: this UE's signal is too weak here, please move it to a better tower.")
     (str "What triggers an S1 Handover vs an X2 Handover?")
     (str "S1 HO is used when source and target eNBs have no direct X2 link, or different MME pools. X2 HO bypasses the MME for the radio path but MME still does path switch. Ref: TS 36.413 §8.4."));
   (str "S1AP HandoverCommand", mkMeta
     (str "MME gives the target eNB's radio config to the source eNB to pass to the UE.")
     (str "What is in the HandoverCommand transparent container?")
     (str "The Transparent Container (TS 36.331 RRCConnectionReconfiguration) carries: target cell ID, DRB config, new security key (scg-Counter). The UE uses it to attach to the target eNB."));
   (str "S1AP HandoverNotify", mkMeta
     (str "New tower confirms the UE has successfully connected — handover complete from radio perspective.")
     (str "What happens between HandoverNotify and UEContextRelease in S1 HO?")
     (str "After HandoverNotify, MME sends Modify Bearer to S-GW to switch data path to target eNB TEID. Then MME sends UEContextRelease to source eNB to free its resources. Data forwarding stops."));
   (str "Diameter CCR", mkMeta
     (str "P-GW asks PCRF for QoS policy — the network's traffic cop for this connection.")
     (str "What is the role of Diameter CCR on the Gx interface?")
     (str "CCR-Initial (CC-Request-Type=1) is sent by PCEF (P-GW) to PCRF when a PDN session starts. PCRF replies with CCA carrying charging rules (QCI, MBR, GBR, TDF-Destination). Ref: TS 29.212."));
   (str "HTTP NRF Register", mkMeta
     (str "Network node signs up with the 5G directory service — like a microservice registering with Consul.")
     (str "How does NRF registration differ from DNS-based service discovery in 4G?")
     (str "NRF uses HTTP/2 PUT (TS 29.510). Each NF registers its NF Profile (services, capacity, status). AMF queries NRF with GET /nnrf-disc/v1/nf-instances?target-nf-type=UDM. No static config needed."));
   (str "HTTP UDM Authentication", mkMeta
     (str "AMF asks UDM to generate the 5G-AKA authentication vectors for this subscriber.")
     (str "What is the 5G-AKA key hierarchy and how does it differ from EPS-AKA?")
     (str "5G-AKA uses SUPI (not IMSI), SUCI (ECIES-encrypted SUPI), and derives KAUSF→KSEAF→KAMF. The HXRES* prevents AMF replay attacks. Ref: TS 33.501 §6.1."));
   (str "HTTP AUSF Authentication", mkMeta
     (str "AUSF verifies the UE's response to the authentication challenge — the 5G equivalent of a secret handshake.")
     (str "What does AUSF validate in 5G-AKA?")
     (str "AUSF receives HXRES* from AMF, computes HXRES locally, compares them. If match, confirms authentication to AMF via Nausf_UEAuthentication_Authenticate response. Prevents AMF lying about UE."));
   (str "HTTP SMF PDUSession", mkMeta
     (str "AMF asks SMF to set up a data session — allocating an IP address and a tunnel to the internet.")
     (str "What HTTP method and URL does AMF use to create a PDU session at SMF?")
     (str "POST /nsmf-pdusession/v1/sm-contexts with body containing SUPI, DNN, NSSAI, and PDU type. SMF responds 201 Created with smContextRef and UE IP. Ref: TS 29.502 §5.2.2."));
   (str "PFCP Session Establishment Request", mkMeta
     (str "SMF instructs the UPF (the data plane): here are the rules for forwarding this UE's traffic.")
     (str "What is the difference between a PDR and a FAR in PFCP?")
     (str "PDR (Packet Detection Rule) identifies packets by UE IP, TEID, or SDF filter. FAR (Forwarding Action Rule) says what to do: FORWARD to N6/N3, DROP, or BUFFER. SMF pushes PDR+FAR pairs to UPF via N4."));
   (str "PFCP Session Establishment Response", mkMeta
     (str "UPF confirms it has installed the forwarding rules — data plane is now ready.")
     (str "What is a SEID in PFCP and why is it needed?")
     (str "SEID (Session Endpoint Identifier) is a 64-bit handle for the PFCP session. SMF assigns the UPF SEID; UPF assigns the SMF SEID. All subsequent PFCP messages use both SEIDs to identify the session."));
   (str "SIP REGISTER", mkMeta
     (str "VoLTE phone registers with the IMS network — like logging into a VoIP account.")
     (str "Why does SIP REGISTER go to P-CSCF first and not directly to S-CSCF?")
     (str "P-CSCF is discovered via PCO/DNS at PDN attach time. It enforces security (IPSec), compresses SIP headers (RFC 5049), and routes to the correct S-CSCF via I-CSCF. Direct S-CSCF access would bypass these."));
   (str "SIP 401 Unauthorized", mkMeta
     (str "IMS network challenges the phone: prove who you are by responding to this cryptographic challenge.")
     (str "How does SIP Digest authentication work in IMS and what replaces it in VoLTE?")
     (str "RFC 3261 Digest uses MD5 nonce challenge. In IMS/VoLTE (TS 24.229), IMS-AKA replaces Digest: S-CSCF fetches MAV from HSS via Diameter Cx, embeds RAND+AUTN in WWW-Authenticate header."));
   (str "SIP INVITE", mkMeta
     (str "Caller's phone sends the call setup request — like dialing a number in VoIP.")
     (str "What SDP fields are mandatory in a VoLTE SIP INVITE per IR.92?")
     (str "IR.92 mandates: AMR-WB codec (RTP/AVP 116), RTCP-MUX, telephone-event (DTMF), ICE-lite, and precondition headers (RFC 4032). Missing AMR-WB results in 488 Not Acceptable Here."));
   (str "SIP 183 Session Progress", mkMeta
     (str "Callee's network says 'ringing' — the early media path is set up before the call is answered.")
     (str "What is the difference between SIP 180 Ringing and 183 Session Progress in VoLTE?")
     (str "180 has no SDP (no media yet). 183 carries early SDP enabling the caller to hear ringback tone from the callee's side (early media, RFC 3959). 183 triggers PRACK (RFC 3262) for reliable delivery."));
   (str "SIP 200 OK", mkMeta
     (str "Call connected — both phones agree on codec and media port.")
     (str "Why is ACK sent as a separate SIP transaction for INVITE?")
     (str "INVITE uses a 3-way handshake (INVITE/200/ACK) because the 200 OK carries SDP and needs reliable delivery. ACK is not retransmitted — if lost, callee retransmits 200 OK. Other methods use 2-way only."));
   (str "SIP BYE", mkMeta
     (str "One party hangs up — this message tears down the call and releases network resources.")
     (str "What network resources must be released after SIP BYE in VoLTE?")
     (str "P-CSCF sends Diameter STR/AAR to PCRF to release the dedicated GBR bearer (QCI=1). S-CSCF sends Diameter SAR to HSS to update registration state. P-GW deletes the dedicated bearer via GTPv2 Delete Bearer."));
   (str "Diameter MAR", mkMeta
     (str "S-CSCF asks the IMS-HSS to authenticate the SIP REGISTER — the IMS equivalent of EPS-AKA.")
     (str "What Diameter interface does S-CSCF use to talk to HSS and what does MAR carry?")
     (str "Cx interface (TS 29.228). MAR (Multimedia-Auth-Request, CC 303) carries IMPU, IMPI, and SIP-Auth-Data-Item requesting IMS-AKA vectors (RAND, AUTN, XRES, CK, IK)."));
   (str "Diameter SAR", mkMeta
     (str "After registration, S-CSCF tells HSS it is now serving this subscriber — so HSS routes future calls here.")
     (str "What does the Server-Assignment-Request tell the HSS and why is it needed?")
     (str "SAR (CC 301) carries IMPU, IMPI, and Server-Assignment-Type (REGISTRATION). HSS stores the S-CSCF name, downloads the service profile (iFC) to S-CSCF, and will route terminating requests to this S-CSCF."))].

Definition msg_keys : list bytes := map fst msg_table.

(** A traversal of the table, in some order. *)
Definition is_table (t : Table) : Prop := Permutation t msg_table.

Definition related (msg key : bytes) : bool := contains key msg || contains msg key.

(** [lookup]: an exact match, else the first related key of the traversal. *)
Definition lookup_meta (t : Table) (msg : bytes) : option MsgMeta :=
  match list_find (fun kv => kv.1 = msg) t with
  | Some (_, kv) => Some kv.2
  | None => snd <$> List.find (fun kv => related msg kv.1) t
  end.

(** ** A line *)

Definition jsonEsc_char (c : Z) : bytes :=
  if c =? 34 then [92; 34]
  else if c =? 92 then [92; 92]
  else if c =? 10 then [92; 110]
  else if c =? 13 then [92; 114]
  else if c =? 9 then [92; 116]
  else if c <? 32 then [] else [c].

Definition jsonEsc (s : bytes) : bytes := flat_map jsonEsc_char s.

Definition toHex (v : bytes) : bytes := flat_map (fun b => [hex_digit (b / 16); hex_digit (b mod 16)]) v.

Record Event : Type := mkEvent {
  e_from : bytes; e_to : bytes; e_msg : bytes; e_interface : bytes; e_port : Z; e_hex : bytes; e_sim : bytes
}.

Definition str_field (name value : bytes) : bytes := [34] ++ name ++ [34; 58; 34] ++ value ++ [34].
Definition num_field (name : bytes) (value : Z) : bytes := [34] ++ name ++ [34; 58] ++ to_stringZ value.

Definition event_line (t : Table) (now_ms : Z) (e : Event) : bytes :=
  let text f := match lookup_meta t (e_msg e) with Some m => f m | None => [] end in
  [123]
  ++ num_field (str "ts") now_ms ++ [44]
  ++ str_field (str "from") (jsonEsc (e_from e)) ++ [44]
  ++ str_field (str "to") (jsonEsc (e_to e)) ++ [44]
  ++ str_field (str "msg") (jsonEsc (e_msg e)) ++ [44]
  ++ str_field (str "interface") (jsonEsc (e_interface e)) ++ [44]
  ++ num_field (str "port") (e_port e) ++ [44]
  ++ str_field (str "hex") (toHex (e_hex e)) ++ [44]
  ++ str_field (str "sim") (jsonEsc (e_sim e)) ++ [44]
  ++ str_field (str "beginner_text") (jsonEsc (text beginner_text)) ++ [44]
  ++ str_field (str "interview_q") (jsonEsc (text interview_q)) ++ [44]
  ++ str_field (str "interview_a") (jsonEsc (text interview_a))
  ++ [125].

(** The log file: what has been appended to it, and whether the stream of
    [getFile] is open. *)
Record LogFile : Type := mkLog { l_text : bytes; l_open : bool }.
Definition newLogFile : LogFile := mkLog [] false.

(** [opens]: the system opens the file now; only tried when it is not open. *)
Definition getFile (opens : bool) (f : LogFile) : LogFile :=
  if l_open f then f else mkLog (l_text f) opens.

Definition logEvent (t : Table) (now_ms : Z) (opens : bool) (e : Event) (f : LogFile) : LogFile :=
  let line := event_line t now_ms e in
  let f := getFile opens f in
  if l_open f then mkLog (l_text f ++ line ++ [10]) (l_open f) else f.

(** ** A reader of JSON objects *)

Inductive Value : Type := VNum (n : Z) | VStr (s : bytes).

(** What follows a backslash. *)
Definition unescape (c : Z) : option Z :=
  if c =? 34 then Some 34 else if c =? 92 then Some 92 else if c =? 110 then Some 10
  else if c =? 114 then Some 13 else if c =? 116 then Some 9 else None.

(** The text of a string after its opening quote, and what follows. *)
Fixpoint read_str (l : bytes) : option (bytes * bytes) :=
  match l with
  | [] => None
  | c :: r =>
      if c =? 34 then Some ([], r)
      else if c =? 92 then
        match r with
        | [] => None
        | d :: r' => x ← unescape d; '(s, q) ← read_str r'; Some (x :: s, q)
        end
      else if c <? 32 then None else '(s, q) ← read_str r; Some (c :: s, q)
  end.

Definition expect (c : Z) (l : bytes) : option bytes :=
  match l with x :: r => if x =? c then Some r else None | [] => None end.

Definition read_num (l : bytes) : option (Z * bytes) :=
  let '(neg, l1) := match l with 45 :: r => (true, r) | _ => (false, l) end in
  let '(v, n, r) := scan_digits l1 0 0 in
  match n with O => None | S _ => Some (if neg then - v else v, r) end.

Definition read_value (l : bytes) : option (Value * bytes) :=
  match expect 34 l with
  | Some r => '(s, q) ← read_str r; Some (VStr s, q)
  | None => '(n, q) ← read_num l; Some (VNum n, q)
  end.

Definition read_member (l : bytes) : option ((bytes * Value) * bytes) :=
  l ← expect 34 l; '(name, l) ← read_str l; l ← expect 58 l; '(v, l) ← read_value l; Some ((name, v), l).

Fixpoint read_members (fuel : nat) (l : bytes) : option (list (bytes * Value)) :=
  match fuel with
  | O => None
  | S fuel =>
      '(m, l) ← read_member l;
      match l with
      | [125] => Some [m]
      | 44 :: l => ms ← read_members fuel l; Some (m :: ms)
      | _ => None
      end
  end.

Definition read_object (l : bytes) : option (list (bytes * Value)) :=
  l ← expect 123 l; read_members (length l) l.

(** The lines of a file, each without its end. *)
Fixpoint read_file (fuel : nat) (f : bytes) : list bytes :=
  match fuel, f with
  | S fuel, _ :: _ => let '(l, r) := cut_line f in l :: read_file fuel r
  | _, _ => []
  end.

(** ** Lemmas: reading back *)

(** What escaping keeps of a text. *)
Definition kept_char (c : Z) : bool := (c =? 9) || (c =? 10) || (c =? 13) || (32 <=? c).
Definition kept (s : bytes) : bytes := List.filter kept_char s.

Definition plain (s : bytes) : Prop := Forall (fun c => 32 <= c /\ c <> 34 /\ c <> 92) s.

Lemma read_plain (s r : bytes) : plain s -> read_str (s ++ 34 :: r) = Some (s, r).
Proof.
  induction 1 as [|c s (H1 & H2 & H3) _ IH]; [reflexivity|]. cbn [app read_str].
  replace (c =? 34) with false by lia. replace (c =? 92) with false by lia. replace (c <? 32) with false by lia.
  rewrite IH. reflexivity.
Qed.

Lemma read_escaped (s r : bytes) : read_str (jsonEsc s ++ 34 :: r) = Some (kept s, r).
Proof.
  induction s as [|c s IH]; [reflexivity|]. unfold jsonEsc in *. cbn [flat_map kept List.filter]. rewrite <- app_assoc.
  revert IH. generalize (flat_map jsonEsc_char s ++ 34 :: r). intros rest IH.
  unfold jsonEsc_char. unfold kept_char at 1. destruct (Z.eqb_spec c 34) as [-> | N1]; [cbn; rewrite IH; reflexivity|].
  destruct (Z.eqb_spec c 92) as [-> | N2]; [cbn; rewrite IH; reflexivity|].
  destruct (Z.eqb_spec c 10) as [-> | N3]; [cbn; rewrite IH; reflexivity|].
  destruct (Z.eqb_spec c 13) as [-> | N4]; [cbn; rewrite IH; reflexivity|].
  destruct (Z.eqb_spec c 9) as [-> | N5]; [cbn; rewrite IH; reflexivity|]. cbn [orb].
  destruct (Z.ltb_spec c 32) as [L|L].
  - replace (32 <=? c) with false by lia. exact IH.
  - replace (32 <=? c) with true by lia. cbn [app read_str]. replace (c =? 34) with false by lia.
    replace (c =? 92) with false by lia. replace (c <? 32) with false by lia. rewrite IH. reflexivity.
Qed.

Lemma read_number (n c : Z) (r : bytes) :
  is_digit c = false -> read_num (to_stringZ n ++ c :: r) = Some (n, c :: r).
Proof.
  intros Hc. assert (P : forall m, 0 <= m -> exists d ds, to_string m = d :: ds /\ is_digit d = true /\
    scan_digits (to_string m ++ c :: r) 0 0 = (m, length (to_string m), c :: r)).
  { intros m Hm. destruct (to_string_spec m Hm) as (Hd & Hne & Hv). pose proof (scan_digits_app (to_string m) (c :: r) 0 0 Hd) as S.
    destruct (to_string m) as [|d ds]; [contradiction|]. exists d, ds. split; [reflexivity|]. split; [inversion Hd; assumption|].
    rewrite S, Hv. cbn [scan_digits]. rewrite Hc, Nat.add_0_r. reflexivity. }
  unfold to_stringZ. destruct (Z.ltb_spec n 0) as [L|L].
  - destruct (P (- n) ltac:(lia)) as (d & ds & E & _ & Sc). unfold read_num. cbn [app]. rewrite Sc, E. cbn [length].
    f_equal. f_equal. lia.
  - destruct (P n L) as (d & ds & E & Hd & Sc). unfold read_num. rewrite E in *. cbn [app] in *.
    assert (N : d <> 45) by (intros ->; discriminate Hd).
    destruct d as [|p|p]; try (rewrite Sc; reflexivity).
    do 6 (destruct p as [p|p|]; try (rewrite Sc; reflexivity)). contradiction.
Qed.

(** A text reads as a member, whatever follows it that is not a digit. *)
Definition reads (m : bytes * Value) (text : bytes) : Prop :=
  forall c r, is_digit c = false -> read_member (text ++ c :: r) = Some (m, c :: r).

Lemma reads_str (name value : bytes) (s : bytes) :
  plain name -> (forall r, read_str (value ++ 34 :: r) = Some (s, r)) -> reads (name, VStr s) (str_field name value).
Proof.
  intros Hn Hv c r _. unfold str_field, read_member. rewrite <- !app_assoc. cbn [app expect mbind option_bind].
  rewrite Z.eqb_refl. cbn [mbind option_bind]. rewrite (read_plain name _ Hn). cbn [mbind option_bind expect].
  rewrite Z.eqb_refl. cbn [mbind option_bind]. unfold read_value. cbn [expect]. rewrite Z.eqb_refl, Hv. reflexivity.
Qed.

Lemma reads_num (name : bytes) (n : Z) : plain name -> reads (name, VNum n) (num_field name n).
Proof.
  intros Hn c r Hc. unfold num_field, read_member. rewrite <- !app_assoc. cbn [app expect mbind option_bind].
  rewrite Z.eqb_refl. cbn [mbind option_bind]. rewrite (read_plain name _ Hn). cbn [mbind option_bind expect].
  rewrite Z.eqb_refl. cbn [mbind option_bind]. unfold read_value.
  replace (expect 34 (to_stringZ n ++ c :: r)) with (@None bytes).
  - rewrite (read_number n c r Hc). reflexivity.
  - pose proof (to_stringZ_chars n) as K. pose proof (to_stringZ_nonempty n) as N.
    destruct (to_stringZ n) as [|d ds]; [contradiction|]. inversion_clear K as [|? ? Kd _]. cbn [app expect].
    destruct (Z.eqb_spec d 34) as [-> |]; [|reflexivity]. destruct Kd as [Kd|Kd]; discriminate Kd.
Qed.

Fixpoint join (texts : list bytes) : bytes :=
  match texts with
  | [] => []
  | [x] => x ++ [125]
  | x :: xs => x ++ 44 :: join xs
  end.

Lemma read_join (ms : list (bytes * Value)) (texts : list bytes) (fuel : nat) :
  Forall2 reads ms texts -> ms <> [] -> (length ms <= fuel)%nat -> read_members fuel (join texts) = Some ms.
Proof.
  intros H. revert fuel. induction H as [|m x ms xs Hx H IH]; intros fuel Hne Hf; [contradiction|].
  destruct fuel as [|fuel]; [cbn in Hf; lia|]. destruct H as [|m' x' ms xs Hx' H].
  - cbn [join read_members]. rewrite Hx by reflexivity. reflexivity.
  - change (join (x :: x' :: xs)) with (x ++ 44 :: join (x' :: xs)). cbn [read_members]. rewrite Hx by reflexivity.
    cbn [mbind option_bind]. rewrite IH; [reflexivity|discriminate|cbn in *; lia].
Qed.

Lemma join_length (texts : list bytes) : (length texts <= length (join texts))%nat.
Proof.
  induction texts as [|x [|y xs] IH]; [cbn; lia|cbn [join]; rewrite length_app; cbn; lia|].
  change (join (x :: y :: xs)) with (x ++ 44 :: join (y :: xs)). rewrite length_app. cbn [length] in *. lia.
Qed.

(** ** Lemmas: one line per event *)

Definition line_char (c : Z) : Prop := c <> 10.

Lemma jsonEsc_line (s : bytes) : Forall line_char (jsonEsc s).
Proof.
  unfold jsonEsc. induction s as [|c s IH]; [constructor|]. cbn [flat_map]. apply Forall_app. split; [|exact IH].
  unfold jsonEsc_char. repeat case_match; repeat constructor; unfold line_char; lia.
Qed.

Lemma plain_line (s : bytes) : plain s -> Forall line_char s.
Proof. intros H. eapply List.Forall_impl; [|exact H]. unfold line_char. cbn. lia. Qed.

Lemma toHex_plain (v : bytes) : is_bytes v -> plain (toHex v).
Proof.
  intros H. unfold toHex. induction H as [|b v Hb _ IH]; [constructor|]. cbn [flat_map].
  assert (D : forall n, 0 <= n < 16 -> 32 <= hex_digit n /\ hex_digit n <> 34 /\ hex_digit n <> 92)
    by (intros n Hn; unfold hex_digit; destruct (Z.ltb_spec n 10); lia).
  unfold in_u in Hb. apply Forall_app. split; [|exact IH]. repeat constructor; apply D; div_eqs.
Qed.

Lemma read_hex (v r : bytes) : is_bytes v -> read_str (toHex v ++ 34 :: r) = Some (toHex v, r).
Proof. intros H. apply read_plain, toHex_plain, H. Qed.

Lemma field_line (name value : bytes) :
  plain name -> Forall line_char value -> Forall line_char (str_field name value).
Proof.
  intros Hn Hv. unfold str_field. rewrite !Forall_app. pose proof (plain_line name Hn).
  repeat split; try assumption; repeat constructor; unfold line_char; lia.
Qed.

Lemma number_line (name : bytes) (n : Z) : plain name -> Forall line_char (num_field name n).
Proof.
  intros Hn. unfold num_field. rewrite !Forall_app. pose proof (plain_line name Hn).
  repeat split; try assumption; try (repeat constructor; unfold line_char; lia).
  eapply List.Forall_impl; [|apply to_stringZ_chars].
  unfold is_digit, line_char. cbn. lia.
Qed.

(** What an event is: the members a reader of its line finds. *)
Definition members (t : Table) (now_ms : Z) (e : Event) : list (bytes * Value) :=
  let text f := match lookup_meta t (e_msg e) with Some m => f m | None => [] end in
  [(str "ts", VNum now_ms); (str "from", VStr (kept (e_from e))); (str "to", VStr (kept (e_to e)));
   (str "msg", VStr (kept (e_msg e))); (str "interface", VStr (kept (e_interface e))); (str "port", VNum (e_port e));
   (str "hex", VStr (toHex (e_hex e))); (str "sim", VStr (kept (e_sim e)));
   (str "beginner_text", VStr (kept (text beginner_text))); (str "interview_q", VStr (kept (text interview_q)));
   (str "interview_a", VStr (kept (text interview_a)))].

Definition texts (t : Table) (now_ms : Z) (e : Event) : list bytes :=
  let text f := match lookup_meta t (e_msg e) with Some m => f m | None => [] end in
  [num_field (str "ts") now_ms; str_field (str "from") (jsonEsc (e_from e)); str_field (str "to") (jsonEsc (e_to e));
   str_field (str "msg") (jsonEsc (e_msg e)); str_field (str "interface") (jsonEsc (e_interface e));
   num_field (str "port") (e_port e); str_field (str "hex") (toHex (e_hex e)); str_field (str "sim") (jsonEsc (e_sim e));
   str_field (str "beginner_text") (jsonEsc (text beginner_text));
   str_field (str "interview_q") (jsonEsc (text interview_q)); str_field (str "interview_a") (jsonEsc (text interview_a))].

Lemma event_line_texts (t : Table) (now_ms : Z) (e : Event) : event_line t now_ms e = 123 :: join (texts t now_ms e).
Proof. unfold event_line, texts. reflexivity. Qed.

Ltac plain := repeat constructor; cbn; lia.

Lemma read_texts (t : Table) (now_ms : Z) (e : Event) :
  is_bytes (e_hex e) -> Forall2 reads (members t now_ms e) (texts t now_ms e).
Proof.
  intros H. unfold members, texts.
  repeat constructor; (apply reads_num || (apply reads_str; [|intros r; apply read_escaped || apply read_hex, H])); plain.
Qed.

Lemma event_line_one (t : Table) (now_ms : Z) (e : Event) :
  is_bytes (e_hex e) -> Forall line_char (event_line t now_ms e).
Proof.
  intros H. rewrite event_line_texts. constructor; [unfold line_char; lia|].
  assert (J : forall xs, Forall (Forall line_char) xs -> Forall line_char (join xs)).
  { induction 1 as [|x xs Hx Hxs IH]; [constructor|]. destruct xs as [|y xs].
    - cbn [join]. apply Forall_app. split; [exact Hx|repeat constructor; unfold line_char; lia].
    - change (join (x :: y :: xs)) with (x ++ 44 :: join (y :: xs)). apply Forall_app. split; [exact Hx|].
      constructor; [unfold line_char; lia|exact IH]. }
  apply J. unfold texts.
  do 11 (apply List.Forall_cons;
    [first [apply number_line; plain
           |apply field_line; [plain|apply jsonEsc_line || (apply plain_line, toHex_plain, H)]]|]).
  apply List.Forall_nil.
Qed.

Lemma read_event (t : Table) (now_ms : Z) (e : Event) :
  is_bytes (e_hex e) -> read_object (event_line t now_ms e) = Some (members t now_ms e).
Proof.
  intros H. rewrite event_line_texts. unfold read_object. cbn [expect]. rewrite Z.eqb_refl. cbn [mbind option_bind].
  apply read_join; [apply read_texts, H|discriminate|].
  etransitivity; [|apply join_length]. exact (Nat.le_refl 11).
Qed.

(** The calls of [logEvent], in their order; each has its time and whether the
    file can be opened then. *)
Definition logEvents (t : Table) (es : list (bool * (Z * Event))) (f : LogFile) : LogFile :=
  fold_left (fun f oe => logEvent t oe.2.1 oe.1 oe.2.2 f) es f.

(** The events from the first on at which the file could be opened. *)
Fixpoint from_open (es : list (bool * (Z * Event))) : list (Z * Event) :=
  match es with
  | [] => []
  | (opens, te) :: es' => if opens then te :: map snd es' else from_open es'
  end.

Lemma logEvents_open (t : Table) (es : list (bool * (Z * Event))) (f : bytes) :
  logEvents t es (mkLog f true) = mkLog (f ++ flat_map (fun te => event_line t te.1 te.2 ++ [10]) (map snd es)) true.
Proof.
  revert f. induction es as [|[o te] es IH]; intros f; [cbn; rewrite app_nil_r; reflexivity|].
  change (logEvents t ((o, te) :: es) (mkLog f true))
    with (logEvents t es (mkLog (f ++ event_line t te.1 te.2 ++ [10]) true)).
  rewrite IH. cbn [map snd flat_map]. rewrite <- !app_assoc. reflexivity.
Qed.

Lemma logEvents_new (t : Table) (es : list (bool * (Z * Event))) :
  l_text (logEvents t es newLogFile) = flat_map (fun te => event_line t te.1 te.2 ++ [10]) (from_open es).
Proof.
  induction es as [|[[] te] es IH]; [reflexivity| |exact IH].
  change (logEvents t ((true, te) :: es) newLogFile) with (logEvents t es (mkLog (event_line t te.1 te.2 ++ [10]) true)).
  rewrite logEvents_open. reflexivity.
Qed.

Lemma from_open_in (es : list (bool * (Z * Event))) (te : Z * Event) : In te (from_open es) -> In te (map snd es).
Proof. induction es as [|[[] x] es IH]; cbn; tauto. Qed.

Lemma read_lines (t : Table) (es : list (Z * Event)) (fuel : nat) :
  Forall (fun te => is_bytes (e_hex te.2)) es -> (length es <= fuel)%nat ->
  read_file fuel (flat_map (fun te => event_line t te.1 te.2 ++ [10]) es) = map (fun te => event_line t te.1 te.2) es.
Proof.
  intros H. revert fuel. induction H as [|te es He _ IH]; intros fuel Hf; [destruct fuel; reflexivity|].
  destruct fuel as [|fuel]; [cbn in Hf; lia|]. cbn [flat_map map]. rewrite <- app_assoc. cbn [app].
  assert (C : forall r, read_file (S fuel) (event_line t te.1 te.2 ++ 10 :: r) = event_line t te.1 te.2 :: read_file fuel r).
  { intros r. pose proof (cut_line_app (event_line t te.1 te.2) r (event_line_one t te.1 te.2 He)) as E.
    cbn [read_file]. rewrite E. unfold event_line. reflexivity. }
  rewrite C, IH by (cbn in Hf; lia). reflexivity.
Qed.

Lemma lines_length (t : Table) (es : list (Z * Event)) :
  le (length es) (length (flat_map (fun te => event_line t te.1 te.2 ++ [10]) es)).
Proof.
  induction es as [|te es IH]; [apply Nat.le_refl|]. cbn [flat_map length].
  rewrite !length_app. cbn [length]. lia.
Qed.

(** ** Properties *)

(** C39. Whatever events the nodes log, in whatever order, with whatever texts
    in their names, their message and the table's explanations, the file stays
    one JSON object per line: read back line by line with a reader of JSON, it
    yields each event in turn, its times and ports as numbers, its bytes in
    hexadecimal, and its texts without the control characters the log drops.
    Opening the file is tried again at every event until it succeeds: the
    events before that are not in the file, and every event from then on is;
    while it cannot be opened, nothing is written. *)
Theorem log_readable (t : Table) (es : list (bool * (Z * Event))) :
  Forall (fun oe => is_bytes (e_hex oe.2.2)) es ->
  let f := l_text (logEvents t es newLogFile) in
  map read_object (read_file (length f) f) = map (fun te => Some (members t te.1 te.2)) (from_open es)
  /\ (Forall (fun oe => oe.1 = false) es -> logEvents t es newLogFile = newLogFile).
Proof.
  intros H f. unfold f. rewrite logEvents_new.
  assert (G : Forall (fun te => is_bytes (e_hex te.2)) (from_open es)).
  { apply List.Forall_forall. intros te Hin. apply from_open_in, in_map_iff in Hin as (oe & <- & Hin).
    rewrite List.Forall_forall in H. exact (H oe Hin). }
  split.
  - rewrite read_lines, map_map by (exact G || apply lines_length).
    apply map_ext_in. intros te Hin. apply read_event. rewrite List.Forall_forall in G. exact (G te Hin).
  - clear G H f. induction 1 as [|[o te] es Ho _ IH]; [reflexivity|]. cbn in Ho. subst o. exact IH.
Qed.

(** The file cannot be opened for the first event. *)
Definition sample_events : list (bool * (Z * Event)) :=
  [(false, (999, mkEvent (str "eNB") (str "MME") (str "S1AP") (str "S1") 36412 [] (str "4g")));
   (true, (1000, mkEvent (str "MME") (str "HSS") (str "Diameter AIR") (str "S6a") 3868 [] (str "4g")));
   (false, (-5, mkEvent [34; 92; 10; 7] (str "UPF") (str "none") (str "N4") 8805 [0; 255; 171] (str "5g")))].

Lemma log_readable_witness :
  let f := l_text (logEvents msg_table sample_events newLogFile) in
  map read_object (read_file (length f) f) =
    map (fun te => Some (members msg_table te.1 te.2)) (map snd (drop 1 sample_events)).
Proof.
  apply (log_readable msg_table sample_events).
  repeat constructor; cbn; unfold in_u; lia.
Defined.

(** The names of the messages the programs log. *)
Definition node_messages : list bytes :=
  [str "SIP REGISTER"; str "Diameter SAR"; str "SIP INVITE"; str "SIP BYE"; str "PFCP Session Establishment Request";
   str "PFCP Session Establishment Response"; str "HTTP SMF PDUSession"; str "HTTP UDM Authentication";
   str "HTTP AMF Registration"; str "Diameter AIR"; str "Diameter AIA"; str "GTPv2 Create Session Request";
   str "NAS TAU Accept"; str "S1AP HandoverRequired"; str "E2 Subscription"; str "E2 Control"; str "E2 Indication"].

Lemma keys_distinct : NoDup msg_keys.
Proof. apply (bool_decide_unpack _). vm_compute. exact I. Qed.

Lemma messages_settled :
  forallb (fun m => bool_decide (m ∈ msg_keys) || forallb (fun k => negb (related m k)) msg_keys) node_messages = true.
Proof. vm_compute. reflexivity. Qed.

Lemma find_none {A} (f : A -> bool) (l : list A) : (forall x, In x l -> f x = false) -> List.find f l = None.
Proof.
  induction l as [|x l IH]; intros H; [reflexivity|]. cbn. rewrite (H x (or_introl eq_refl)).
  apply IH. intros y Hy. apply H. right. exact Hy.
Qed.

(** The explanation written with a message does not depend on the order in
    which the hash table is traversed, for every message the programs log: a
    message that has an entry gets that entry, and a message without an entry gets none. *)
Theorem lookup_own (t : Table) (msg : bytes) :
  is_table t -> In msg node_messages ->
  (forall m, In (msg, m) msg_table -> lookup_meta t msg = Some m) /\ (~ In msg msg_keys -> lookup_meta t msg = None).
Proof.
  intros Hp Hm. pose proof (Permutation_map fst Hp) as Ht. fold msg_keys in Ht.
  pose proof keys_distinct as D. rewrite <- Ht in D. split.
  - intros m Hin. apply (Permutation_in _ (Permutation_sym Hp)) in Hin.
    unfold lookup_meta. destruct (list_find (fun kv => kv.1 = msg) t) as [[i [k v]]|] eqn:E.
    + apply list_find_Some in E as (Hi & Hk & _). cbn in Hk. subst k. cbn. f_equal.
      apply list_elem_of_In, list_elem_of_lookup in Hin as [j Hj].
      assert (i = j); [|congruence].
      apply (NoDup_lookup _ i j msg D); rewrite list_lookup_fmap; [rewrite Hi|rewrite Hj]; reflexivity.
    + apply list_find_None in E. rewrite List.Forall_forall in E. destruct (E _ Hin). reflexivity.
  - intros Hk. assert (U : forall kv, In kv t -> related msg kv.1 = false).
    { intros kv Hkv. pose proof messages_settled as S. rewrite forallb_forall in S. specialize (S msg Hm).
      apply orb_prop in S as [S|S]; [apply bool_decide_eq_true, list_elem_of_In in S; contradiction|].
      rewrite forallb_forall in S. apply negb_true_iff, S. rewrite <- Ht. apply in_map, Hkv. }
    assert (K : In msg (map fst t) -> False) by (intros Q; rewrite Ht in Q; contradiction).
    unfold lookup_meta. destruct (list_find (fun kv => kv.1 = msg) t) as [[i kv]|] eqn:E.
    + apply list_find_Some in E as (Hi & E & _). destruct K. rewrite <- E.
      apply in_map, list_elem_of_In. exact (list_elem_of_lookup_2 _ _ _ Hi).
    + rewrite find_none by exact U. reflexivity.
Qed.

Lemma lookup_own_witness :
  is_table (reverse msg_table) /\ In (str "Diameter AIR") msg_keys /\
  (forall m, In (str "Diameter AIR", m) msg_table -> lookup_meta (reverse msg_table) (str "Diameter AIR") = Some m) /\
  (~ In (str "E2 Control") msg_keys -> lookup_meta (reverse msg_table) (str "E2 Control") = None).
Proof.
  assert (Ht : is_table (reverse msg_table)) by (exact (reverse_Permutation msg_table)).
  split; [exact Ht|]. split; [left; reflexivity|]. split.
  - apply (lookup_own _ (str "Diameter AIR") Ht). repeat (try (left; reflexivity); right).
  - apply (lookup_own _ (str "E2 Control") Ht). repeat (try (left; reflexivity); right).
Defined.

(** A partial name is another matter: two traversals of the same table give
    two explanations. *)
Lemma lookup_partial :
  exists t, Permutation t msg_table /\ lookup_meta t (str "SIP") <> lookup_meta msg_table (str "SIP").
Proof. exists (reverse msg_table). split; [exact (reverse_Permutation msg_table)|vm_compute; congruence]. Qed.
