(* ===== verification/Oran.v ===== *)
(** * The O-RAN control loop

    [o_ran/e2_agent.cpp] and [o_ran/xapp_main.cpp]: an agent beside the eNB and
    an application that asks it to cap the modulation of a UE, over one TCP
    connection.  A program is the tree of its system calls ([Prog]); the system
    is the two programs with the octets in flight between them.  The socket is
    blocking and a write is taken whole; a read returns any part of what has
    arrived. *)

From Stdlib Require Import ZArith Lia.
From stdpp Require Import list relations.
From S2P Require Import Prelude Text Strings EventLog.
#[local] Open Scope Z_scope.

(** ** The JSON helpers of both programs *)

Module je2.

Definition str (s : bytes) : bytes := 34 :: s ++ [34].

(** The loop writes a comma after each member; the last one is taken back. *)
Definition obj (kv : list (bytes * bytes)) : bytes :=
  let r := 123 :: flat_map (fun p : bytes * bytes => [34] ++ p.1 ++ [34; 58] ++ p.2 ++ [44]) kv in
  let r := if List.last r 0 =? 44 then removelast r else r in
  r ++ [125].

(** [while (j[pos] == ' ') pos++], on what begins at [pos]; the character at
    the end of a string is 0. *)
Fixpoint skip_blanks (t : bytes) : bytes :=
  match t with c :: t' => if c =? 32 then skip_blanks t' else t | [] => [] end.

Definition is_quote (c : Z) : bool := c =? 34.
Definition is_end (c : Z) : bool := (c =? 44) || (c =? 125).

(** The text from [pos] to the character [find] looks for, or to the end. *)
Definition cut (p : Z -> bool) (t : bytes) : bytes :=
  match find_if p t with Some i => take i t | None => t end.

(** [npos + 1] is 0: without a colon the value is looked for at the start. *)
Definition get (j key : bytes) : bytes :=
  match find_sub ([34] ++ key ++ [34]) j with
  | None => []
  | Some pos =>
      let pos := match find_if_from (fun c => c =? 58) j pos with Some i => (i + 1)%nat | None => O end in
      let t := skip_blanks (drop pos j) in
      match t with
      | c :: t' => if is_quote c then cut is_quote t' else cut is_end t
      | [] => []
      end
  end.

End je2.

(** ** System calls *)

(** [Read n k]: [read] of at most [n] octets; its result is empty when the
    call returns 0 or less.  [Write b k]: the result of [write]. *)
Inductive Prog (A : Type) : Type :=
  | Ret (a : A)
  | Read (n : nat) (k : bytes -> Prog A)
  | Write (b : bytes) (k : Z -> Prog A)
  | Close (p : Prog A).
Arguments Ret {A} a.
Arguments Read {A} n k.
Arguments Write {A} b k.
Arguments Close {A} p.

Fixpoint bind {A B} (p : Prog A) (f : A -> Prog B) : Prog B :=
  match p with
  | Ret a => f a
  | Read n k => Read n (fun b => bind (k b) f)
  | Write b k => Write b (fun n => bind (k n) f)
  | Close p => Close (bind p f)
  end.

Declare Scope prog_scope.
Delimit Scope prog_scope with prog.
Notation "'let*' x := p 'in' q" := (bind p (fun x => q)) (at level 10, x name, p at level 200, q at level 200) : prog_scope.
#[local] Open Scope prog_scope.

(** [htonl] and [ntohl] of the length. *)
Definition ntohl (h : bytes) : Z := from_le32 (nth 3 h 0) (nth 2 h 0) (nth 1 h 0) (nth 0 h 0).

Definition sendMsg (msg : bytes) : Prog bool :=
  let len := u32 (Z.of_nat (length msg)) in
  Write (be32 len) (fun n =>
    if negb (n =? 4) then Ret false else Write msg (fun n => Ret (n =? Z.of_nat (length msg)))).

(** [while (got < len)]: each turn gets at least one octet. *)
Fixpoint recv_loop (fuel need : nat) (buf : bytes) : Prog bytes :=
  match need, fuel with
  | O, _ => Ret buf
  | S _, O => Ret []
  | S _, S fuel =>
      Read need (fun b => match b with [] => Ret [] | _ => recv_loop fuel (need - length b) (buf ++ b) end)
  end.

Definition recvMsg : Prog bytes :=
  Read 4 (fun h =>
    if negb (Z.of_nat (length h) =? 4) then Ret []
    else
      let len := ntohl h in
      if 65536 <? len then Ret [] else recv_loop (Z.to_nat len) (Z.to_nat len) []).

(** ** The programs *)

(** What a program leaves: its status, the events it logged, and the values it
    printed. *)
Record Out : Type := mkOut { status : Z; logged : list Event; printed : list (bytes * bytes) }.

Definition E2_PORT : Z := 36421.
Definition e2_event (from to msg : bytes) : Event := mkEvent from to msg (str "E2") E2_PORT [] (str "4g").
Definition ev_subscription : Event := e2_event (str "xApp") (str "eNB") (str "E2 Subscription").
Definition ev_control : Event := e2_event (str "xApp") (str "eNB") (str "E2 Control").
Definition ev_indication : Event := e2_event (str "eNB") (str "xApp") (str "E2 Indication").

Definition setup_response : bytes :=
  je2.obj [(str "msgType", je2.str (str "E2SetupResponse")); (str "transactionId", je2.str (str "1"));
           (str "e2NodeId", je2.str (str "eNB-001")); (str "cause", je2.str (str "success"))].

Definition control_ack (ueId value : bytes) : bytes :=
  je2.obj [(str "msgType", je2.str (str "RICControlAcknowledge")); (str "transactionId", je2.str (str "2"));
           (str "ueId", je2.str ueId); (str "result", je2.str (str "success"));
           (str "appliedMCS", je2.str value)].

(** [handleXapp] with the second message; [evs]: what was logged before. *)
Definition on_control (evs : list Event) (msg : bytes) : Prog Out :=
  match msg with
  | [] => Close (Ret (mkOut 0 evs []))
  | _ =>
      if bool_decide (je2.get msg (str "msgType") = str "RICControlRequest") then
        let ueId := je2.get msg (str "ueId") in
        let value := je2.get msg (str "value") in
        let* _ := sendMsg (control_ack ueId value) in
        Close (Ret (mkOut 0 (evs ++ [ev_control; ev_indication]) [(str "ueId", ueId); (str "MCS", value)]))
      else Close (Ret (mkOut 0 evs []))
  end.

(** With the first message. *)
Definition on_setup (msg : bytes) : Prog Out :=
  match msg with
  | [] => Close (Ret (mkOut 0 [] []))
  | _ =>
      if bool_decide (je2.get msg (str "msgType") = str "E2SetupRequest")
      then let* _ := sendMsg setup_response in
           let* msg := recvMsg in on_control [ev_subscription] msg
      else let* msg := recvMsg in on_control [] msg
  end.

Definition handleXapp : Prog Out := let* msg := recvMsg in on_setup msg.

Definition setup_request : bytes :=
  je2.obj [(str "msgType", je2.str (str "E2SetupRequest")); (str "e2NodeId", je2.str (str "xApp-RIC-001"));
           (str "ranFunctions", [91] ++ je2.str (str "RC") ++ [44] ++ je2.str (str "SM") ++ [44] ++ je2.str (str "CCC") ++ [93])].

Definition control_request (ueId mcs : Z) : bytes :=
  je2.obj [(str "msgType", je2.str (str "RICControlRequest")); (str "transactionId", je2.str (str "2"));
           (str "ueId", je2.str (to_stringZ ueId)); (str "action", je2.str (str "reduceMCS"));
           (str "value", je2.str (to_stringZ mcs)); (str "rationale", je2.str (str "SINR-below-threshold-A3-event"))].

(** [main] of the application with the answer to its second message. *)
Definition on_ack (ueId : Z) (ack : bytes) : Prog Out :=
  match ack with
  | [] => Close (Ret (mkOut 1 [ev_subscription; ev_control] []))
  | _ =>
      Close (Ret (mkOut 0 [ev_subscription; ev_control; ev_indication]
        [(str "ueId", to_stringZ ueId); (str "MCS", je2.get ack (str "appliedMCS"))]))
  end.

(** With the answer to its first. *)
Definition on_response (ueId mcs : Z) (rsp : bytes) : Prog Out :=
  if bool_decide (rsp = []) || negb (bool_decide (je2.get rsp (str "msgType") = str "E2SetupResponse"))
  then Close (Ret (mkOut 1 [ev_subscription] []))
  else
    let* _ := sendMsg (control_request ueId mcs) in
    let* ack := recvMsg in on_ack ueId ack.

(** Connected. *)
Definition xapp (ueId mcs : Z) : Prog Out :=
  let* _ := sendMsg setup_request in
  let* rsp := recvMsg in on_response ueId mcs rsp.

(** The arguments; [None]: [std::stoi] throws, which nothing catches. *)
Definition xapp_args (argv : list bytes) : option (Z * Z) :=
  match argv with
  | [] => Some (1, 10)
  | [u] => u ← stoi u; Some (u, 10)
  | u :: m :: _ => u ← stoi u; m ← stoi m; Some (u, m)
  end.

(** [main]; [connected]: the agent is there. *)
Definition xapp_main (argv : list bytes) (connected : bool) : option (Prog Out) :=
  '(ueId, mcs) ← xapp_args argv;
  Some (if connected then xapp ueId mcs else Ret (mkOut 1 [] [])).

(** ** The system *)

Record End : Type := mkEnd { prog : Prog Out; inq : bytes; is_open : bool }.

(** One system call of the program at [l], whose peer is [r]; a read takes up
    to [n] octets of those that have arrived, waits when there are none, and
    returns 0 when the peer has closed.  What is written to a closed peer is
    lost. *)
Definition act1 (n : nat) (l r : End) : option (End * End) :=
  match prog l with
  | Ret _ => None
  | Read m k =>
      match inq l with
      | [] => if is_open r then None else Some (mkEnd (k []) [] (is_open l), r)
      | q => Some (mkEnd (k (take (min n m) q)) (drop (min n m) q) (is_open l), r)
      end
  | Write b k =>
      Some (mkEnd (k (Z.of_nat (length b))) (inq l) (is_open l),
            if is_open r then mkEnd (prog r) (inq r ++ b) true else r)
  | Close p => Some (mkEnd p [] false, r)
  end.

(** The application and the agent. *)
Definition State : Type := End * End.

Definition swap (s : State) : State := (s.2, s.1).

(** A turn: whose, and how much a read may take. *)
Definition act (c : bool * nat) (s : State) : option State :=
  if c.1 then act1 c.2 s.1 s.2 else swap <$> act1 c.2 s.2 s.1.

(** A kernel whose reads return at least [g] octets when they are asked for
    and have arrived. *)
Definition step (g : nat) (s s' : State) : Prop := exists side n, (g <= n)%nat /\ act (side, n) s = Some s'.

(** A run of given turns. *)
Fixpoint exec (cs : list (bool * nat)) (s : State) : option State :=
  match cs with [] => Some s | c :: cs => s' ← act c s; exec cs s' end.

Definition start (ueId mcs : Z) : State := (mkEnd (xapp ueId mcs) [] true, mkEnd handleXapp [] true).

(** Whatever steps are taken, a state with [P] is reached. *)
Inductive leads (g : nat) (P : State -> Prop) : State -> Prop :=
  | leads_now s : P s -> leads g P s
  | leads_next s : (exists s', step g s s') -> (forall s', step g s s' -> leads g P s') -> leads g P s.

(** ** Lemmas: runs *)

Lemma exec_steps (g : nat) (cs : list (bool * nat)) (s s' : State) :
  Forall (fun c => (g <= c.2)%nat) cs -> exec cs s = Some s' -> rtc (step g) s s'.
Proof.
  intros H. revert s. induction H as [|[side n] cs Hc _ IH]; intros s E; cbn in E; [injection E as <-; reflexivity|].
  destruct (act (side, n) s) as [t|] eqn:A; [|discriminate]. apply (rtc_l _ s t); [exists side, n; auto|exact (IH t E)].
Qed.

Lemma leads_bind (g : nat) (P Q : State -> Prop) (s : State) :
  leads g Q s -> (forall s', Q s' -> leads g P s') -> leads g P s.
Proof.
  intros H HQ. induction H as [s H|s He _ IH]; [exact (HQ s H)|]. apply leads_next; [exact He|exact IH].
Qed.

Lemma swap_swap (s : State) : swap (swap s) = s.
Proof. destruct s; reflexivity. Qed.

Lemma act_swap (side : bool) (n : nat) (s : State) : act (side, n) (swap s) = swap <$> act (negb side, n) s.
Proof.
  destruct s as [l r]. destruct side; cbn; [|reflexivity].
  destruct (act1 n r l) as [[? ?]|]; reflexivity.
Qed.

Lemma leads_swap (g : nat) (P : State -> Prop) (s : State) :
  leads g (fun s => P (swap s)) (swap s) -> leads g P s.
Proof.
  intros H. rewrite <- (swap_swap s). revert H. generalize (swap s). clear s. intros s H.
  induction H as [s H|s (s' & side & n & Hn & E) _ IH]; [apply leads_now, H|].
  apply leads_next.
  - exists (swap s'), (negb side), n. split; [exact Hn|]. rewrite act_swap, negb_involutive, E. reflexivity.
  - intros t (side' & n' & Hn' & E'). rewrite act_swap in E'. destruct (act (negb side', n') s) as [u|] eqn:A; [|discriminate].
    injection E' as <-. apply IH. exists (negb side'), n'. auto.
Qed.

(** A state in which only the left program can move. *)
Lemma leads_left (g : nat) (P : State -> Prop) (l r l' r' : End) :
  (forall n, (g <= n)%nat -> act1 n l r = Some (l', r')) -> (forall n, act1 n r l = None) ->
  leads g P (l', r') -> leads g P (l, r).
Proof.
  intros Hl Hr H. apply leads_next.
  - exists (l', r'), true, g. split; [reflexivity|exact (Hl g (le_n g))].
  - intros s (side & n & Hn & E). destruct side; cbn in E; [rewrite Hl in E by exact Hn; injection E as <-; exact H|].
    rewrite Hr in E. discriminate.
Qed.

(** ** Lemmas: one message

    The sender is at the left.  Having written the message it waits for the
    peer, or closes and ends; it may do so before the message was read. *)

Inductive Tail (o : Prog Out) : Prog Out -> bool -> Prop :=
  | tail_wait m k : o = Read m k -> Tail o o true
  | tail_close a : o = Close (Ret a) -> Tail o o true
  | tail_ret a : o = Close (Ret a) -> Tail o (Ret a) false.

(** A receiver that has something to read moves on, whatever the sender does. *)
Lemma receiver_moves (P : State -> Prop) (o : Prog Out) (r : End) (r' : nat -> End) :
  is_open r = true -> (forall l n, (4 <= n)%nat -> act1 n r l = Some (r' n, l)) ->
  (forall n t lo, (4 <= n)%nat -> Tail o t lo -> leads 4 P (mkEnd t [] lo, r' n)) ->
  forall t lo, Tail o t lo -> leads 4 P (mkEnd t [] lo, r).
Proof.
  intros Ho Ha Hn.
  assert (G : forall t lo, Tail o t lo ->
            (forall n s, act1 n (mkEnd t [] lo) r = Some s -> leads 4 P s) -> leads 4 P (mkEnd t [] lo, r)).
  { intros t lo Ht Hl. apply leads_next.
    - exists (mkEnd t [] lo, r' 4%nat), false, 4%nat. split; [reflexivity|]. cbn. rewrite Ha by reflexivity. reflexivity.
    - intros s (side & n & H4 & E). destruct side; cbn in E; [exact (Hl n s E)|].
      rewrite Ha in E by exact H4. injection E as <-. exact (Hn n t lo H4 Ht). }
  assert (R : forall a, o = Close (Ret a) -> leads 4 P (mkEnd (Ret a) [] false, r)).
  { intros a E. apply G; [exact (tail_ret o a E)|]. intros n s A. discriminate A. }
  intros t lo Ht. apply G; [exact Ht|]. intros n s A. destruct Ht as [m k E|a E|a E]; subst; cbn in A.
  - rewrite Ho in A. discriminate.
  - injection A as <-. apply R. reflexivity.
  - discriminate.
Qed.

Section Message.
Variables (m : bytes) (K : bool -> Prog Out) (L : bytes -> Prog Out).
Hypothesis Hm : 0 < Z.of_nat (length m) <= 65536.
Hypothesis HK : Tail (K true) (K true) true.

(** The message is there: the sender waits or has ended. *)
Definition received (s : State) : Prop :=
  exists t lo, Tail (K true) t lo /\ s = (mkEnd t [] lo, mkEnd (L m) [] true).

Lemma take_two (b : bytes) (n : nat) : (4 <= n)%nat -> b <> [] -> take (min n (length b)) b <> [].
Proof. intros Hn Hb. destruct b as [|x b]; [contradiction|]. destruct n as [|n]; [lia|]. cbn. discriminate. Qed.

Lemma body_received (b acc : bytes) (fuel : nat) (t : Prog Out) (lo : bool) :
  acc ++ b = m -> (length b <= fuel)%nat -> Tail (K true) t lo ->
  leads 4 received (mkEnd t [] lo, mkEnd (bind (recv_loop fuel (length b) acc) L) b true).
Proof.
  revert b acc t lo. induction fuel as [|fuel IH]; intros b acc t lo E Hf Ht.
  - destruct b; [|cbn in Hf; lia]. apply leads_now. exists t, lo. split; [exact Ht|].
    rewrite app_nil_r in E. subst acc. reflexivity.
  - destruct (decide (b = [])) as [->|Hb].
    { apply leads_now. exists t, lo. split; [exact Ht|]. rewrite app_nil_r in E. subst acc. reflexivity. }
    set (k := fun c : bytes => match c with [] => Ret [] | _ => recv_loop fuel (length b - length c) (acc ++ c) end).
    assert (Ek : bind (recv_loop (S fuel) (length b) acc) L = Read (length b) (fun c => bind (k c) L))
      by (unfold k; destruct b; [contradiction|reflexivity]).
    rewrite Ek. revert t lo Ht.
    apply (receiver_moves received (K true) _ (fun n => mkEnd (bind (k (take (min n (length b)) b)) L)
             (drop (min n (length b)) b) true)); [reflexivity| |].
    + intros l n _. unfold act1. cbn [prog inq is_open]. destruct b; [contradiction|reflexivity].
    + intros n t lo Hn Ht. set (c := take (min n (length b)) b). set (d := drop (min n (length b)) b).
      assert (Ec : c ++ d = b) by apply take_drop.
      assert (Kc : k c = recv_loop fuel (length d) (acc ++ c)).
      { unfold k. pose proof (take_two b n Hn Hb) as N. fold c in N. destruct c as [|x c]; [contradiction|].
        f_equal. rewrite <- Ec, length_app. cbn. lia. }
      rewrite Kc. apply IH; [rewrite <- app_assoc, Ec; exact E| |exact Ht].
      rewrite <- Ec, length_app in Hf. pose proof (take_two b n Hn Hb) as N. fold c in N.
      destruct c; [contradiction|cbn in Hf; lia].
Qed.

Lemma ntohl_len : ntohl (be32 (u32 (Z.of_nat (length m)))) = Z.of_nat (length m).
Proof.
  rewrite u32_small by (unfold in_u; lia). unfold ntohl, be32. cbn [nth]. apply le32_roundtrip. unfold in_u. lia.
Qed.

(** The receiver with its length read. *)
Lemma header_read : forall n, (4 <= n)%nat -> forall (l : End) (q : bytes),
  act1 n (mkEnd (bind recvMsg L) (be32 (u32 (Z.of_nat (length m))) ++ q) true) l
  = Some (mkEnd (bind (recv_loop (length m) (length m) []) L) q true, l).
Proof.
  intros n Hn l q. unfold act1, recvMsg. cbn [prog inq is_open bind].
  destruct (be32 (u32 (Z.of_nat (length m))) ++ q) as [|x t] eqn:E; [discriminate E|]. rewrite <- E.
  replace (min n 4) with 4%nat by lia.
  change (take 4 (be32 (u32 (Z.of_nat (length m))) ++ q)) with (be32 (u32 (Z.of_nat (length m)))).
  change (drop 4 (be32 (u32 (Z.of_nat (length m))) ++ q)) with q.
  rewrite be32_length, ntohl_len. cbn [Z.of_nat Pos.of_succ_nat Pos.succ Z.eqb Pos.eqb negb].
  replace (65536 <? Z.of_nat (length m)) with false by lia. rewrite Nat2Z.id. reflexivity.
Qed.

Lemma message_received :
  leads 4 received (mkEnd (bind (sendMsg m) K) [] true, mkEnd (bind recvMsg L) [] true).
Proof.
  set (len := be32 (u32 (Z.of_nat (length m)))).
  assert (Kt : K (Z.of_nat (length m) =? Z.of_nat (length m)) = K true) by (rewrite Z.eqb_refl; reflexivity).
  set (w := mkEnd (Write m (fun n => K (n =? Z.of_nat (length m)))) [] true).
  apply (leads_left 4 received _ _ w (mkEnd (bind recvMsg L) len true)); [intros n _; reflexivity|intros n; reflexivity|].
  assert (Hsent : forall r q, act1 4 w (mkEnd r q true) = Some (mkEnd (K true) [] true, mkEnd r (q ++ m) true))
    by (intros r q; unfold w, act1; cbn [prog inq is_open]; rewrite Kt; reflexivity).
  assert (Hn : forall n r q, act1 n w (mkEnd r q true) = act1 4 w (mkEnd r q true)) by reflexivity.
  assert (Hbody : leads 4 received (w, mkEnd (bind (recv_loop (length m) (length m) []) L) [] true)).
  { eapply leads_left; [intros n _; rewrite Hn; apply Hsent| |].
    - intros n. unfold act1. cbn [prog inq is_open]. destruct (length m) eqn:El; [lia|reflexivity].
    - apply (body_received m []); [reflexivity|reflexivity|exact HK]. }
  apply leads_next.
  - eexists. exists true, 4%nat. split; [reflexivity|]. cbn [act fst snd]. apply Hsent.
  - intros s (side & n & H4 & E). destruct side; cbn [act fst snd] in E.
    + rewrite Hn, Hsent in E. injection E as <-.
      apply (receiver_moves received (K true) _ (fun _ => mkEnd (bind (recv_loop (length m) (length m) []) L) m true));
        [reflexivity|intros l k Hk; apply header_read; exact Hk| |exact HK].
      intros k t lo _ Ht. apply (body_received m []); [reflexivity|reflexivity|exact Ht].
    + rewrite <- (app_nil_r len) in E. unfold len in E. rewrite header_read in E by exact H4. injection E as <-. exact Hbody.
Qed.

End Message.

(** ** Lemmas: what the getter reads *)

Definition noquote (s : bytes) : Prop := Forall (fun c => c <> 34) s.

(** A key the programs look for: no quote, no colon, and not the text between
    two members. *)
Definition key_ok (k : bytes) : Prop := noquote k /\ Forall (fun c => c <> 58) k /\ k <> [44] /\ k <> [58].

Definition quoted (k : bytes) : bytes := [34] ++ k ++ [34].

Lemma prefixb_key (k a s : bytes) : noquote k -> noquote a -> k <> a -> prefixb (k ++ [34]) (a ++ 34 :: s) = false.
Proof.
  intros Hk. revert a. induction Hk as [|x k Hx Hk IH]; intros a Ha Hne; destruct Ha as [|y a Hy Ha].
  - contradiction.
  - cbn [app prefixb]. replace (34 =? y) with false by lia. reflexivity.
  - cbn [app prefixb]. replace (x =? 34) with false by lia. reflexivity.
  - cbn [app prefixb]. destruct (Z.eqb_spec x y) as [->|]; [|reflexivity]. cbn [andb]. apply IH; [exact Ha|congruence].
Qed.

(** A text between two quotes that is not the key is passed over. *)
Lemma after_token (k a s : bytes) :
  noquote k -> noquote a -> k <> a -> after (quoted k) (34 :: a ++ 34 :: s) = after (quoted k) (34 :: s).
Proof.
  intros Hk Ha Hne. unfold quoted. cbn [app]. rewrite after_skip; [apply after_skip_app, Ha|].
  cbn [prefixb]. rewrite Z.eqb_refl. apply prefixb_key; assumption.
Qed.

Lemma after_mark (k s : bytes) (c : Z) :
  noquote k -> c <> 34 -> k <> [c] -> after (quoted k) (34 :: c :: 34 :: s) = after (quoted k) (34 :: s).
Proof. intros Hk Hc. apply (after_token k [c]); [exact Hk|repeat constructor; exact Hc]. Qed.

(** A member of a text value as [obj] writes it. *)
Definition field (p : bytes * bytes) : bytes := [34] ++ p.1 ++ [34; 58] ++ je2.str p.2 ++ [44].

Lemma after_member (pre : list (bytes * bytes)) (k s : bytes) :
  key_ok k -> Forall (fun p => noquote p.1 /\ noquote p.2 /\ k <> p.1 /\ k <> p.2) pre ->
  after (quoted k) (flat_map field pre ++ quoted k ++ s) = Some s.
Proof.
  intros (Hq & _ & H44 & H58) H. induction H as [|[a v] pre (Ha & Hv & Na & Nv) _ IH]; [exact (after_hit (quoted k) s)|].
  cbn [fst snd] in *. cbn [flat_map]. unfold field at 1, je2.str. cbn [fst snd]. rewrite <- !app_assoc. cbn [app].
  rewrite <- !app_assoc. cbn [app].
  rewrite (after_token k a) by assumption. rewrite after_mark by (assumption || lia).
  rewrite (after_token k v) by assumption.
  destruct pre as [|p pre].
  - cbn [flat_map app] in *. unfold quoted at 2. cbn [app].
    rewrite after_mark by (assumption || lia). exact IH.
  - cbn [flat_map] in *. unfold field at 1. unfold field at 1 in IH. rewrite <- !app_assoc in *. cbn [app] in *.
    rewrite after_mark by (assumption || lia). exact IH.
Qed.

Lemma prefixb_split (p s : bytes) : prefixb p s = true -> s = p ++ drop (length p) s.
Proof.
  revert s. induction p as [|x p IH]; intros s H; [reflexivity|]. destruct s as [|y s]; [discriminate|].
  cbn in H. apply andb_prop in H as [E H]. apply Z.eqb_eq in E. subst y. cbn [length drop app]. rewrite <- IH by exact H. reflexivity.
Qed.

Lemma after_split (p j r : bytes) : after p j = Some r -> exists i, find_sub p j = Some i /\ drop i j = p ++ r.
Proof.
  unfold after. intros H. destruct (find_sub p j) as [i|] eqn:E; [|discriminate].
  cbn [fmap option_fmap option_map] in H. assert (r = drop (i + length p) j) as -> by congruence. exists i.
  split; [reflexivity|]. rewrite <- drop_drop. apply prefixb_split. clear H. revert i E.
  induction j as [|c j IH]; intros i E.
  - destruct p as [|x p]; [reflexivity|discriminate].
  - change (find_sub p (c :: j)) with (if prefixb p (c :: j) then Some O else S <$> find_sub p j) in E.
    destruct (prefixb p (c :: j)) eqn:Q; [injection E as <-; exact Q|].
    destruct (find_sub p j) as [i'|]; [|discriminate]. injection E as <-. exact (IH i' eq_refl).
Qed.

Lemma e2_get_after (j k v rest : bytes) :
  key_ok k -> noquote v -> after (quoted k) j = Some (58 :: je2.str v ++ rest) -> je2.get j k = v.
Proof.
  intros (Hq & Hc & _) Hv H. destruct (after_split _ _ _ H) as (i & E & D). unfold je2.get. fold (quoted k). rewrite E.
  unfold find_if_from. rewrite D. unfold quoted at 1. rewrite <- !app_assoc. cbn [app].
  assert (F : find_if (fun c => c =? 58) (34 :: k ++ 34 :: 58 :: je2.str v ++ rest) = Some (2 + length k)%nat).
  { replace (34 :: k ++ 34 :: 58 :: je2.str v ++ rest) with ((34 :: k ++ [34]) ++ 58 :: je2.str v ++ rest)
      by (cbn [app]; rewrite <- app_assoc; reflexivity).
    rewrite find_if_at; [f_equal; cbn [length]; rewrite length_app; cbn; lia| |reflexivity].
    constructor; [reflexivity|]. apply Forall_app. split; [|repeat constructor].
    eapply List.Forall_impl; [|exact Hc]. cbn. intros c N. lia. }
  rewrite F. cbn [fmap option_fmap option_map].
  replace (i + (2 + length k) + 1)%nat with (i + length (quoted k ++ [58%Z]))%nat
    by (unfold quoted; cbn [app length]; rewrite !length_app; cbn [length]; lia).
  rewrite <- drop_drop, D. replace (quoted k ++ 58 :: je2.str v ++ rest) with ((quoted k ++ [58]) ++ je2.str v ++ rest)
    by (rewrite <- app_assoc; reflexivity).
  rewrite drop_app_length. unfold je2.str, je2.cut. cbn [app je2.skip_blanks Z.eqb Pos.eqb je2.is_quote].
  unfold je2.is_quote at 1. rewrite <- app_assoc. cbn [app]. cbn [Z.eqb Pos.eqb].
  rewrite find_if_at; [apply take_app_length| |reflexivity]. eapply List.Forall_impl; [|exact Hv].
  unfold je2.is_quote. cbn. intros c N. lia.
Qed.

Definition text_members (kv : list (bytes * bytes)) : list (bytes * bytes) :=
  map (fun p => (p.1, je2.str p.2)) kv.

(** Where a member stands in the text [obj] writes. *)
Lemma obj_member (pre post : list (bytes * bytes)) (k v : bytes) :
  exists rest, je2.obj (text_members (pre ++ (k, v) :: post)) = 123 :: flat_map field pre ++ quoted k ++ 58 :: je2.str v ++ rest.
Proof.
  assert (Z : exists z, [44] ++ flat_map field post = z ++ [44]).
  { induction post as [|p post [z Hz]] using rev_ind; [exists []; reflexivity|].
    rewrite flat_map_app. cbn [flat_map]. rewrite app_nil_r. unfold field at 2.
    exists ([44] ++ flat_map field post ++ [34] ++ p.1 ++ [34; 58] ++ je2.str p.2). rewrite <- !app_assoc. reflexivity. }
  destruct Z as [z Hz].
  assert (E : flat_map (fun p : bytes * bytes => [34] ++ p.1 ++ [34; 58] ++ p.2 ++ [44]) (text_members (pre ++ (k, v) :: post))
              = (flat_map field pre ++ quoted k ++ 58 :: je2.str v ++ z) ++ [44]).
  { transitivity (flat_map field (pre ++ (k, v) :: post)).
    - unfold text_members. induction (pre ++ (k, v) :: post) as [|p l IH]; [reflexivity|].
      cbn [map flat_map]. rewrite IH. reflexivity.
    - rewrite flat_map_app. cbn [flat_map]. unfold field at 2, quoted. cbn [fst snd]. rewrite <- !app_assoc.
      cbn [app]. rewrite <- !app_assoc, <- Hz. reflexivity. }
  exists (z ++ [125]). unfold je2.obj. rewrite E. rewrite app_comm_cons, last_last. cbn [Z.eqb Pos.eqb].
  rewrite removelast_last. cbn [app]. rewrite <- !app_assoc. cbn [app]. rewrite <- !app_assoc. reflexivity.
Qed.

Lemma get_obj (pre post : list (bytes * bytes)) (k v : bytes) :
  key_ok k -> noquote v -> Forall (fun p => noquote p.1 /\ noquote p.2 /\ k <> p.1 /\ k <> p.2) pre ->
  je2.get (je2.obj (text_members (pre ++ (k, v) :: post))) k = v.
Proof.
  intros Hk Hv Hp. destruct (obj_member pre post k v) as [rest E]. rewrite E.
  apply (e2_get_after _ k v rest Hk Hv). transitivity (after (quoted k) (flat_map field pre ++ quoted k ++ 58 :: je2.str v ++ rest)).
  - apply (after_skip_app 34 (k ++ [34]) [123]). repeat constructor. lia.
  - exact (after_member pre k _ Hk Hp).
Qed.

Lemma number_noquote (n : Z) : noquote (to_stringZ n).
Proof.
  unfold noquote. eapply List.Forall_impl; [|apply to_stringZ_chars]. unfold is_digit. cbn. lia.
Qed.

Lemma number_no_key (n c : Z) (k : bytes) : is_digit c = false -> c <> 45 -> c :: k <> to_stringZ n.
Proof.
  intros Hc H45 E. pose proof (to_stringZ_chars n) as H. rewrite <- E in H. inversion_clear H as [|? ? [Q|Q] _]; congruence.
Qed.

Lemma number_short (n : Z) : - 2 ^ 31 <= n < 2 ^ 31 -> (length (to_stringZ n) <= 11)%nat.
Proof.
  intros H. unfold to_stringZ. change (2 ^ 31) with 2147483648 in H.
  destruct (Z.ltb_spec n 0); cbn [length].
  - pose proof (to_string_length_le (- n) 9). change (10 ^ Z.of_nat 10) with 10000000000 in *. lia.
  - pose proof (to_string_length_le n 9). change (10 ^ Z.of_nat 10) with 10000000000 in *. lia.
Qed.

(** The conditions of [get_obj] on the messages of the programs. *)
Ltac getter :=
  first [apply number_noquote | assumption | discriminate | lia
        | vm_compute; discriminate | constructor; getter].

Lemma control_fields (u m : Z) :
  je2.get (control_request u m) (str "msgType") = str "RICControlRequest"
  /\ je2.get (control_request u m) (str "ueId") = to_stringZ u
  /\ je2.get (control_request u m) (str "value") = to_stringZ m.
Proof.
  set (f1 := (str "msgType", str "RICControlRequest")). set (f2 := (str "transactionId", str "2")).
  set (f3 := (str "ueId", to_stringZ u)). set (f4 := (str "action", str "reduceMCS")).
  set (f5 := (str "value", to_stringZ m)). set (f6 := (str "rationale", str "SINR-below-threshold-A3-event")).
  assert (N : str "value" <> to_stringZ u) by (apply (number_no_key u 118 (str "alue")); [reflexivity|lia]).
  split; [|split].
  - apply (get_obj [] [f2; f3; f4; f5; f6] (str "msgType") (str "RICControlRequest")); getter.
  - apply (get_obj [f1; f2] [f4; f5; f6] (str "ueId") (to_stringZ u)); getter.
  - apply (get_obj [f1; f2; f3; f4] [f6] (str "value") (to_stringZ m)); getter.
Qed.

Lemma ack_field (u m : Z) : je2.get (control_ack (to_stringZ u) (to_stringZ m)) (str "appliedMCS") = to_stringZ m.
Proof.
  assert (N : str "appliedMCS" <> to_stringZ u) by (apply (number_no_key u 97 (str "ppliedMCS")); [reflexivity|lia]).
  apply (get_obj [(str "msgType", str "RICControlAcknowledge"); (str "transactionId", str "2");
                  (str "ueId", to_stringZ u); (str "result", str "success")] []
           (str "appliedMCS") (to_stringZ m)); getter.
Qed.

(** ** Lemmas: the session *)

Lemma received_wait (m : bytes) (K : bool -> Prog Out) (L : bytes -> Prog Out) (s : State) n k :
  K true = Read n k -> received m K L s -> s = (mkEnd (K true) [] true, mkEnd (L m) [] true).
Proof.
  intros E (t & lo & Ht & ->). destruct Ht as [n' k' _|a E'|a E']; [reflexivity|rewrite E in E'; discriminate E'..].
Qed.

(** Both programs have ended with these results. *)
Definition ended (a b : Out) (s : State) : Prop := prog s.1 = Ret a /\ prog s.2 = Ret b.

Lemma leads_ended (a b : Out) (t : Prog Out) (lo : bool) :
  Tail (Close (Ret a)) t lo -> leads 4 (ended a b) (mkEnd t [] lo, mkEnd (Close (Ret b)) [] true).
Proof.
  assert (R : leads 4 (ended a b) (mkEnd (Ret a) [] false, mkEnd (Close (Ret b)) [] true)).
  { apply leads_swap. eapply leads_left; [intros n _; reflexivity|intros n; reflexivity|].
    apply leads_now. split; reflexivity. }
  assert (C : leads 4 (ended a b) (mkEnd (Close (Ret a)) [] true, mkEnd (Ret b) [] false)).
  { eapply leads_left; [intros n _; reflexivity|intros n; reflexivity|]. apply leads_now. split; reflexivity. }
  intros Ht. destruct Ht as [m k E|a' E|a' E]; [discriminate E| |injection E as <-; exact R].
  apply leads_next.
  - eexists. exists true, 4%nat. split; reflexivity.
  - intros s (side & n & _ & E'). destruct side; injection E' as <-; [exact R|exact C].
Qed.

(** One message of a conversation, after which the receiver speaks. *)
Lemma e2_exchange (P : State -> Prop) (m : bytes) (K : bool -> Prog Out) (L : bytes -> Prog Out) n k :
  0 < Z.of_nat (length m) <= 65536 -> K true = Read n k ->
  leads 4 P (mkEnd (K true) [] true, mkEnd (L m) [] true) ->
  leads 4 P (mkEnd (bind (sendMsg m) K) [] true, mkEnd (bind recvMsg L) [] true).
Proof.
  intros Hm HK H. eapply leads_bind; [apply message_received; [exact Hm|rewrite HK; eapply tail_wait; reflexivity]|].
  intros s Hs. rewrite (received_wait m K L s n k HK Hs). exact H.
Qed.

Definition in_int (n : Z) : Prop := - 2 ^ 31 <= n < 2 ^ 31.

Lemma xapp_args_int (argv : list bytes) (u m : Z) : xapp_args argv = Some (u, m) -> in_int u /\ in_int m.
Proof.
  assert (S : forall s n, stoi s = Some n -> in_int n).
  { intros s n E. unfold stoi in E. destruct (scan_sign _) as [neg l]. destruct (scan_digits l 0 0) as [[v k] r].
    destruct k; [discriminate|]. cbv zeta in E. destruct (_ && _) eqn:B in E; [|discriminate]. injection E as <-.
    apply andb_prop in B as [B1 B2]. apply Z.leb_le in B1. apply Z.ltb_lt in B2. split; assumption. }
  assert (C : in_int 1 /\ in_int 10) by (unfold in_int; lia).
  destruct argv as [|a [|b argv]]; cbn [xapp_args]; intros E.
  - injection E as <- <-. exact C.
  - destruct (stoi a) as [x|] eqn:Ea; [|discriminate]. injection E as <- <-. split; [exact (S _ _ Ea)|apply C].
  - destruct (stoi a) as [x|] eqn:Ea; [|discriminate]. cbn [mbind option_bind] in E.
    destruct (stoi b) as [y|] eqn:Eb; [|discriminate]. injection E as <- <-. split; [exact (S _ _ Ea)|exact (S _ _ Eb)].
Qed.

(** What both programs report of a control that was carried out. *)
Definition controlled (u m : Z) : Out :=
  mkOut 0 [ev_subscription; ev_control; ev_indication] [(str "ueId", to_stringZ u); (str "MCS", to_stringZ m)].

(** What the messages take. *)
Fixpoint field_sizes (kv : list (bytes * bytes)) : nat :=
  match kv with [] => 0%nat | p :: kv => (length p.1 + length p.2 + 6 + field_sizes kv)%nat end.

Lemma obj_size (kv : list (bytes * bytes)) :
  (1 <= length (je2.obj (text_members kv)) <= 2 + field_sizes kv)%nat.
Proof.
  unfold je2.obj. rewrite length_app. cbn [length].
  assert (E : length (flat_map (fun p : bytes * bytes => [34] ++ p.1 ++ [34; 58] ++ p.2 ++ [44]) (text_members kv))
              = field_sizes kv).
  { unfold text_members. induction kv as [|p kv IH]; [reflexivity|]. cbn [map flat_map field_sizes fst snd].
    rewrite length_app, IH. unfold je2.str. repeat (rewrite length_app || cbn [length app]). lia. }
  set (r := 123 :: _). assert (R : length r = S (field_sizes kv)) by (unfold r; cbn [length]; rewrite E; reflexivity).
  assert (Q : (length (removelast r) <= length r)%nat).
  { destruct (decide (r = [])) as [->|N]; [reflexivity|]. rewrite (app_removelast_last 0 N) at 2. rewrite length_app. lia. }
  destruct (List.last r 0 =? 44); lia.
Qed.

Ltac literal_sizes :=
  repeat match goal with
  | H : context [length (str ?s)] |- _ =>
      let n := eval vm_compute in (length (str s)) in change (length (str s)) with n in H
  end.

Lemma request_size (u m : Z) : in_int u -> in_int m -> 0 < Z.of_nat (length (control_request u m)) <= 65536.
Proof.
  intros Hu Hm. pose proof (number_short u Hu). pose proof (number_short m Hm).
  pose proof (obj_size [(str "msgType", str "RICControlRequest"); (str "transactionId", str "2");
    (str "ueId", to_stringZ u); (str "action", str "reduceMCS"); (str "value", to_stringZ m);
    (str "rationale", str "SINR-below-threshold-A3-event")]) as S.
  change (je2.obj _) with (control_request u m) in S. cbn [field_sizes fst snd] in S.
  revert H H0 S. generalize (control_request u m) (length (to_stringZ u)) (length (to_stringZ m)). intros l a b H1 H2 S.
  literal_sizes. lia.
Qed.

Lemma ack_size (u m : Z) : in_int u -> in_int m ->
  0 < Z.of_nat (length (control_ack (to_stringZ u) (to_stringZ m))) <= 65536.
Proof.
  intros Hu Hm. pose proof (number_short u Hu). pose proof (number_short m Hm).
  pose proof (obj_size [(str "msgType", str "RICControlAcknowledge"); (str "transactionId", str "2");
    (str "ueId", to_stringZ u); (str "result", str "success"); (str "appliedMCS", to_stringZ m)]) as S.
  change (je2.obj _) with (control_ack (to_stringZ u) (to_stringZ m)) in S. cbn [field_sizes fst snd] in S.
  revert H H0 S. generalize (control_ack (to_stringZ u) (to_stringZ m)) (length (to_stringZ u)) (length (to_stringZ m)).
  intros l a b H1 H2 S. literal_sizes. lia.
Qed.

Lemma session (u m : Z) : in_int u -> in_int m -> leads 4 (ended (controlled u m) (controlled u m)) (start u m).
Proof.
  intros Hu Hm. destruct (control_fields u m) as (F1 & F2 & F3). pose proof (ack_field u m) as F4.
  pose proof (request_size u m Hu Hm) as S3. pose proof (ack_size u m Hu Hm) as S4.
  set (ack := control_ack (to_stringZ u) (to_stringZ m)) in *.
  assert (G1 : je2.get setup_request (str "msgType") = str "E2SetupRequest") by (vm_compute; reflexivity).
  assert (G2 : je2.get setup_response (str "msgType") = str "E2SetupResponse") by (vm_compute; reflexivity).
  assert (A1 : on_setup setup_request = bind (sendMsg setup_response) (fun _ => bind recvMsg (on_control [ev_subscription])))
    by (unfold on_setup; rewrite G1, bool_decide_eq_true_2 by reflexivity; destruct setup_request eqn:E; [discriminate E|reflexivity]).
  assert (A2 : on_response u m setup_response = bind (sendMsg (control_request u m)) (fun _ => bind recvMsg (on_ack u)))
    by (unfold on_response; rewrite G2, (bool_decide_eq_true_2 (str "E2SetupResponse" = _)) by reflexivity;
        rewrite bool_decide_eq_false_2 by discriminate; reflexivity).
  assert (A3 : on_control [ev_subscription] (control_request u m) = bind (sendMsg ack) (fun _ => Close (Ret (controlled u m)))).
  { unfold on_control. destruct (control_request u m) as [|c l] eqn:E; [cbn in S3; lia|].
    rewrite F1, F2, F3, bool_decide_eq_true_2 by reflexivity. reflexivity. }
  assert (A4 : on_ack u ack = Close (Ret (controlled u m))).
  { unfold on_ack. destruct ack as [|c l] eqn:E; [cbn in S4; lia|]. rewrite F4. reflexivity. }
  unfold start, xapp, handleXapp.
  eapply e2_exchange; [vm_compute; split; [reflexivity|discriminate]|reflexivity|]. rewrite A1.
  apply leads_swap. unfold swap. cbn [fst snd].
  eapply e2_exchange; [vm_compute; split; [reflexivity|discriminate]|reflexivity|]. rewrite A2.
  apply leads_swap. unfold swap. cbn [fst snd].
  eapply e2_exchange; [exact S3|reflexivity|]. rewrite A3.
  apply leads_swap. unfold swap. cbn [fst snd].
  eapply leads_bind; [apply message_received; [exact S4|eapply tail_close; reflexivity]|].
  intros s (t & lo & Ht & ->). rewrite A4.
  eapply leads_bind; [exact (leads_ended _ (controlled u m) t lo Ht)|].
  intros s [E1 E2]. apply leads_now. split; assumption.
Qed.

(** ** Properties *)

(** C35. The control loop closes.  For every command line the application
    accepts, whatever the order in which the two programs run and however the
    kernel cuts what they send, as long as the four octets of a length arrive
    together, both programs end, after setup, control and acknowledgement, with
    status 0, with the same events logged, and both report the UE and the value
    of the command line. *)
Theorem control_loop (argv : list bytes) (u m : Z) (Hargs : xapp_args argv = Some (u, m)) :
  xapp_main argv true = Some (xapp u m) /\ leads 4 (ended (controlled u m) (controlled u m)) (start u m).
Proof.
  destruct (xapp_args_int argv u m Hargs) as [Hu Hm]. split; [|exact (session u m Hu Hm)].
  unfold xapp_main. rewrite Hargs. reflexivity.
Qed.

Lemma control_loop_witness :
  xapp_main [str "7"; str " -3x"] true = Some (xapp 7 (-3))
  /\ leads 4 (ended (controlled 7 (-3)) (controlled 7 (-3))) (start 7 (-3)).
Proof. apply (control_loop [str "7"; str " -3x"]). reflexivity. Defined.

(** A length that arrives in two parts ends the session.  Both programs
    take a read of fewer than four octets for the end of the connection: for
    every UE and value there is a run, in which one read returns one octet of
    the first length, that ends with the application reporting failure, with
    nothing controlled. *)
Theorem cut_length_fails (u m : Z) :
  exists s, rtc (step 1) (start u m) s /\ ended (mkOut 1 [ev_subscription] []) (mkOut 0 [] []) s.
Proof.
  eexists. split.
  - apply (exec_steps 1 [(true, 1%nat); (false, 1%nat); (false, 1%nat); (true, 1%nat); (true, 1%nat); (true, 1%nat)]);
      [repeat constructor|reflexivity].
  - split; reflexivity.
Qed.

(** The getter reads the first member of a name in every text the builder
    makes of text members, if no text before it is that name.  A value that is
    the name is taken for it: what is read is then the next member, although
    none has the name. *)
Theorem getter_reads_member (pre post : list (bytes * bytes)) (k v : bytes)
    (Hk : key_ok k) (Hv : noquote v) (Hp : Forall (fun p => noquote p.1 /\ noquote p.2 /\ k <> p.1 /\ k <> p.2) pre) :
  je2.get (je2.obj (text_members (pre ++ (k, v) :: post))) k = v
  /\ je2.get (je2.obj (text_members [(str "action", str "ueId"); (str "value", str "5")])) (str "ueId") = str "5".
Proof. split; [exact (get_obj pre post k v Hk Hv Hp)|vm_compute; reflexivity]. Qed.

Lemma getter_reads_member_witness :
  je2.get (je2.obj (text_members [(str "msgType", str "RICControlRequest"); (str "ueId", str "17"); (str "ueId", [])])) (str "ueId")
  = str "17".
Proof.
  apply (getter_reads_member [(str "msgType", str "RICControlRequest")] [(str "ueId", [])] (str "ueId") (str "17")); getter.
Defined.
