(* ===== verification/Nrf.v ===== *)
(** * The NRF

    [5g-simulator/src/nrf/nrf_main.cpp]: the registry of network functions.
    A turn of its server reads one request and answers it; an exception ends
    the process.  [nrf_refines_map]: with the client of [Sbi], registering and
    discovering is writing and reading a finite map from types to addresses. *)

From S2P Require Import Prelude Text Strings Json Http Sbi.
#[local] Open Scope Z_scope.

(** ** State and handlers *)

Record NfProfile : Type := mkNfProfile {
  nfInstanceId : bytes;
  nfType : bytes;
  host : bytes;
  port : Z
}.

Abbreviation Profiles := (gmap bytes NfProfile).

(** The value of a parameter of the query string. *)
Definition getQueryParam (path key : bytes) : bytes :=
  match find_if (fun c => c =? 63) path with
  | None => []
  | Some q =>
      let query := drop (q + 1) path in
      let needle := key ++ [61] in
      match find_sub needle query with
      | None => []
      | Some p =>
          let p := (p + length needle)%nat in
          substr query p (find_if_from (fun c => c =? 38) query p)
      end
  end.

Definition handleRegister (g_profiles : Profiles) (nfInstanceId body : bytes)
    : outcome (Profiles * bytes) :=
  let nfType := json.get body (str "nfType") in
  let host := json.get body (str "host") in
  port ← or_throw (stoi (json.get body (str "port")));
  let g_profiles := <[nfType := mkNfProfile nfInstanceId nfType host (u16 port)]> g_profiles in
  let respBody := json.obj [(str "nfInstanceId", json.str nfInstanceId);
                            (str "nfType", json.str nfType)] in
  Returns (g_profiles, httpBuild (str "HTTP/1.1 201 Created") respBody []).

Definition handleDiscover (g_profiles : Profiles) (targetType : bytes) : bytes :=
  match g_profiles !! targetType with
  | None => httpBuild (str "HTTP/1.1 404 Not Found") (str "{}") []
  | Some p =>
      let body := json.obj [(str "nfInstanceId", json.str (nfInstanceId p));
                            (str "nfType", json.str (nfType p));
                            (str "host", json.str (host p));
                            (str "port", json.num (port p))] in
      httpBuild (str "HTTP/1.1 200 OK") body []
  end.

(** What the server does with a request it could read. *)
Definition nrf_request (g : Profiles) (req : HttpMessage) : outcome (Profiles * bytes) :=
  let '(method, path) := request_line (startLine req) in
  if bool_decide (method = str "PUT") && contains (str "/nnrf-nfm/v1/nf-instances/") path then
    let parts := splitPath (substr path 0 (find_if (fun c => c =? 63) path)) in
    let nfInstanceId := nth 3 parts [] in
    handleRegister g nfInstanceId (body req)
  else if bool_decide (method = str "GET") && contains (str "/nnrf-disc/v1/nf-instances") path then
    Returns (g, handleDiscover g (getQueryParam path (str "target-nf-type")))
  else Returns (g, httpBuild (str "HTTP/1.1 404 Not Found") (str "{}") []).

(** A turn: the octets a client sends, and those it is answered. *)
Definition nrf_turn (g : Profiles) (stream : bytes) : outcome (Profiles * bytes) :=
  '(ok, req) ← or_throw (httpRecv stream);
  if ok : bool then nrf_request g req else Returns (g, []).

(** ** Turns of the server on the client's requests *)

Lemma getQueryParam_at (p key v : bytes) :
  Forall (fun c => (c =? 63) = false) p -> Forall (fun c => (c =? 38) = false) v ->
  getQueryParam (p ++ 63 :: key ++ [61] ++ v) key = v.
Proof.
  intros Hp Hv. unfold getQueryParam. rewrite (find_if_at _ p _ 63 Hp eq_refl).
  replace (drop (length p + 1) (p ++ 63 :: key ++ [61] ++ v)) with ((key ++ [61]) ++ v).
  2: { rewrite <- drop_drop, drop_app_length, <- app_assoc. reflexivity. }
  rewrite find_sub_app. cbn [Nat.add]. unfold find_if_from, substr. rewrite drop_app_length.
  rewrite find_if_none by exact Hv. reflexivity.
Qed.

Lemma word_no (d : Z) (w : bytes) :
  word_text w -> word_char d = false -> Forall (fun c => (c =? d) = false) w.
Proof.
  intros Hw Hd. eapply List.Forall_impl; [|exact Hw]. cbn. intros c Hc.
  destruct (Z.eqb_spec c d); [congruence|reflexivity].
Qed.

Definition short (w : bytes) : Prop := Z.of_nat (length w) < 2 ^ 16.

Lemma to_stringZ_short (n : Z) : 0 <= n < 2 ^ 16 -> (length (to_stringZ n) <= 5)%nat.
Proof.
  intros Hn. unfold to_stringZ. replace (n <? 0) with false by lia.
  apply (to_string_length_le n 4). change (2 ^ 16) with 65536 in Hn. cbn. lia.
Qed.

(** A request the server can read. *)
Lemma nrf_turn_build (g : Profiles) (start b : bytes) :
  start <> [] -> header_text start -> Z.of_nat (length b) < 2 ^ 32 ->
  exists hs, nrf_turn g (httpBuild start b []) = nrf_request g (mkHttp start hs b).
Proof.
  intros H1 H2 H3. exists (built_headers [] (Z.of_nat (length b))). unfold nrf_turn.
  rewrite httpRecv_built by (assumption || constructor). reflexivity.
Qed.

Lemma put_line (id : bytes) :
  word_text id ->
  request_line (str "PUT /nnrf-nfm/v1/nf-instances/" ++ id ++ str " HTTP/1.1")
  = (str "PUT", str "/nnrf-nfm/v1/nf-instances/" ++ id).
Proof.
  intros Hid.
  replace (str "PUT /nnrf-nfm/v1/nf-instances/" ++ id ++ str " HTTP/1.1")
    with (str "PUT" ++ 32 :: (str "/nnrf-nfm/v1/nf-instances/" ++ id) ++ 32 :: str "HTTP/1.1")
    by (rewrite <- !app_assoc; reflexivity).
  apply request_line_words; try discriminate; auto with words.
Qed.

Lemma get_line (ty : bytes) :
  word_text ty ->
  request_line (str "GET /nnrf-disc/v1/nf-instances?target-nf-type=" ++ ty ++ str " HTTP/1.1")
  = (str "GET", str "/nnrf-disc/v1/nf-instances?target-nf-type=" ++ ty).
Proof.
  intros Hty.
  replace (str "GET /nnrf-disc/v1/nf-instances?target-nf-type=" ++ ty ++ str " HTTP/1.1")
    with (str "GET" ++ 32 :: (str "/nnrf-disc/v1/nf-instances?target-nf-type=" ++ ty)
          ++ 32 :: str "HTTP/1.1") by (rewrite <- !app_assoc; reflexivity).
  apply request_line_words; try discriminate; auto with words.
Qed.

(** The identity in the path of a registration. *)
Lemma put_instance (id : bytes) :
  word_text id -> id <> [] ->
  let path := str "/nnrf-nfm/v1/nf-instances/" ++ id in
  nth 3 (splitPath (substr path 0 (find_if (fun c => c =? 63) path))) [] = id.
Proof.
  intros Hid Hne path.
  assert (Hq : find_if (fun c => c =? 63) path = None).
  { apply find_if_none, Forall_app. split; [repeat constructor|]. apply word_no; auto. }
  assert (Hp : path = path_of [str "nnrf-nfm"; str "v1"; str "nf-instances"; id])
    by (unfold path_of; cbn [map concat]; rewrite app_nil_r; reflexivity).
  rewrite Hq. unfold substr. rewrite drop_0, Hp, splitPath_of; [reflexivity|].
  repeat constructor; try discriminate; auto with words.
Qed.

Lemma register_turn (g : Profiles) (id ty h : bytes) (pt : Z) :
  word_text id -> id <> [] -> word_text ty -> word_text h -> 0 <= pt < 2 ^ 16 ->
  short id -> short ty -> short h ->
  nrf_turn g (registerReq id ty h pt)
  = Returns (<[ty := mkNfProfile id ty h pt]> g,
             httpBuild (str "HTTP/1.1 201 Created")
               (json.obj [(str "nfInstanceId", json.str id); (str "nfType", json.str ty)]) []).
Proof.
  intros Hid Hne Hty Hh Hpt Sid Sty Sh. unfold registerReq.
  destruct (nrf_turn_build g (str "PUT /nnrf-nfm/v1/nf-instances/" ++ id ++ str " HTTP/1.1")
              (json.obj [(str "nfInstanceId", json.str id); (str "nfType", json.str ty);
                         (str "host", json.str h); (str "port", json.num pt)])) as [hs ->].
  - discriminate.
  - auto with words.
  - pose proof (to_stringZ_short pt Hpt). unfold short in *. body_len.
  - unfold nrf_request. cbn [startLine body]. rewrite put_line by exact Hid.
    rewrite contains_prefix. rewrite bool_decide_eq_true_2 by reflexivity. cbn [andb].
    rewrite put_instance by assumption. unfold handleRegister.
    repeat json_get.
    unfold json.num. rewrite stoi_to_stringZ by lia.
    cbn [or_throw mbind outcome_bind]. rewrite u16_small by (unfold in_u; lia).
    reflexivity.
Qed.

(** The answer to a discovery is the profile's text, or a refusal. *)
Lemma discover_turn (g : Profiles) (ty : bytes) :
  word_text ty -> nrf_turn g (discoverReq ty) = Returns (g, handleDiscover g ty).
Proof.
  intros Hty. unfold discoverReq.
  destruct (nrf_turn_build g (str "GET /nnrf-disc/v1/nf-instances?target-nf-type=" ++ ty
              ++ str " HTTP/1.1") []) as [hs ->]; [discriminate|auto with words|reflexivity|].
  unfold nrf_request. cbn [startLine body]. rewrite get_line by exact Hty.
  rewrite (bool_decide_eq_false_2 (str "GET" = str "PUT")) by discriminate.
  rewrite bool_decide_eq_true_2 by reflexivity. cbn [andb].
  change (str "/nnrf-disc/v1/nf-instances?target-nf-type=" ++ ty)
    with (str "/nnrf-disc/v1/nf-instances" ++ 63 :: str "target-nf-type" ++ [61] ++ ty).
  rewrite contains_prefix, getQueryParam_at; [reflexivity|repeat constructor|].
  apply word_no; auto.
Qed.

Record wf_profile (p : NfProfile) : Prop := {
  wf_id : word_text (nfInstanceId p) /\ short (nfInstanceId p);
  wf_type : word_text (nfType p) /\ short (nfType p);
  wf_host : word_text (host p) /\ short (host p);
  wf_port : 0 <= port p < 2 ^ 16
}.

(** ** The NRF and its clients *)

(** The world of a client whose NRF is this server. *)
#[export] Instance NrfHost : Host Profiles := {
  h_connect _ _ g := (true, g);
  h_exchange _ _ req g :=
    match nrf_turn g req with Returns (g', resp) => (resp, g') | _ => ([], g) end;
  h_frame _ g := g; h_recv g := (None, g); h_udp _ _ _ g := g; h_pcap _ g := g;
  h_chaos _ := false; h_rand g := (0, g); h_device g := (0, g)
}.

Section Clients.
Context `{Environ}.

Lemma register_run (g : Profiles) (id ty h : bytes) (pt : Z) :
  wf_profile (mkNfProfile id ty h pt) -> id <> [] ->
  registerSelf id ty h pt (tt, g) = (Returns tt, (tt, <[ty := mkNfProfile id ty h pt]> g)).
Proof.
  intros [[Hi ?] [Ht ?] [Hh ?] Hp] Hne. cbn in Hi, Ht, Hh, Hp. cbn [nfInstanceId nfType host] in *.
  unfold registerSelf. cbn [register_attempts]. rewrite X_bind_eq.
  unfold register_attempt, try_catch. rewrite X_bind_eq. cbn [connectTo h_connect NrfHost].
  rewrite X_bind_eq. cbn [exchange h_exchange NrfHost]. rewrite register_turn by assumption.
  rewrite httpRecv_built; [reflexivity|discriminate|auto with words|constructor|].
  unfold short in *. body_len.
Qed.

(** What a discovery tells the client. *)
Definition discovered (o : option NfProfile) : Discovered :=
  match o with
  | Some p => mkDiscovered (host p) (port p) true
  | None => mkDiscovered [] 0 false
  end.

Lemma discover_run (g : Profiles) (ty : bytes) :
  map_Forall (fun _ p => wf_profile p) g -> word_text ty ->
  discover ty (tt, g) = (Returns (discovered (g !! ty)), (tt, g)).
Proof.
  intros Hg Ht. unfold discover, try_catch. rewrite X_bind_eq. cbn [connectTo h_connect NrfHost].
  rewrite X_bind_eq. cbn [exchange h_exchange NrfHost]. rewrite discover_turn by exact Ht.
  unfold handleDiscover. destruct (g !! ty) as [p|] eqn:E.
  - destruct (Hg ty p E) as [[Hi ?] [Hty ?] [Hh ?] Hp].
    pose proof (to_stringZ_short _ Hp). unfold short in *.
    rewrite httpRecv_built; [|discriminate|auto with words|constructor|body_len].
    cbn [or_throw startLine body].
    rewrite (contains_app _ (str "HTTP/1.1 ") (str "200 OK")) by reflexivity.
    repeat json_get. unfold json.num. rewrite stoi_to_stringZ by lia.
    cbn [or_throw]. rewrite X_bind_eq. cbn [liftX]. rewrite u16_small by exact Hp. reflexivity.
  - rewrite httpRecv_built; [|discriminate|auto with words|constructor|reflexivity]. reflexivity.
Qed.

(** ** Refinement of a finite map *)

(** What the other network functions do with the NRF. *)
Inductive nrf_op : Type :=
| Register (id ty h : bytes) (pt : Z)
| Discover (ty : bytes).

Definition wf_op (o : nrf_op) : Prop :=
  match o with
  | Register id ty h pt => wf_profile (mkNfProfile id ty h pt) /\ id <> []
  | Discover ty => word_text ty
  end.

(** The clients run one after the other. *)
Fixpoint run_clients (ops : list nrf_op) : X (unit * Profiles) (list Discovered) :=
  match ops with
  | [] => mret []
  | Register id ty h pt :: ops' => registerSelf id ty h pt;; run_clients ops'
  | Discover ty :: ops' => d ← discover ty; l ← run_clients ops'; mret (d :: l)
  end.

(** The specification: one address per type, the last one registered. *)
Fixpoint spec_clients (m : gmap bytes (bytes * Z)) (ops : list nrf_op) : list Discovered :=
  match ops with
  | [] => []
  | Register id ty h pt :: ops' => spec_clients (<[ty := (h, pt)]> m) ops'
  | Discover ty :: ops' =>
      match m !! ty with
      | Some (h, pt) => mkDiscovered h pt true
      | None => mkDiscovered [] 0 false
      end :: spec_clients m ops'
  end.

Definition address (p : NfProfile) : bytes * Z := (host p, port p).

Lemma run_clients_spec (ops : list nrf_op) (g : Profiles) :
  map_Forall (fun _ p => wf_profile p) g -> Forall wf_op ops ->
  exists g', run_clients ops (tt, g) = (Returns (spec_clients (address <$> g) ops), (tt, g')).
Proof.
  intros Hg Hops. revert g Hg. induction Hops as [|[id ty h pt|ty] ops Ho _ IH]; intros g Hg.
  - eexists. reflexivity.
  - destruct Ho as [Hw Hne]. cbn [run_clients spec_clients].
    rewrite X_bind_eq, register_run by assumption.
    destruct (IH (<[ty := mkNfProfile id ty h pt]> g)) as [g' Hg'].
    { apply map_Forall_insert_2; assumption. }
    exists g'. rewrite Hg', (fmap_insert address g). reflexivity.
  - cbn [run_clients spec_clients]. rewrite X_bind_eq, discover_run by assumption.
    destruct (IH g Hg) as [g' Hg']. exists g'.
    rewrite X_bind_eq, Hg', (lookup_fmap address g ty).
    destruct (g !! ty) as [p|]; reflexivity.
Qed.

(** C12. Service discovery: network functions that register and discover peers
    through the NRF, over HTTP and JSON texts, see exactly a map from types to
    addresses: a discovery returns the address last registered for the type,
    and reports that none was found otherwise. *)
Theorem nrf_refines_map (ops : list nrf_op) (Hops : Forall wf_op ops) :
  exists g, run_clients ops (tt, ∅) = (Returns (spec_clients ∅ ops), (tt, g)).
Proof.
  destruct (run_clients_spec ops ∅) as [g Hg]; [apply map_Forall_empty|exact Hops|].
  exists g. rewrite Hg, fmap_empty. reflexivity.
Qed.

End Clients.

Definition sample_ops : list nrf_op :=
  [Discover (str "UDM"); Register (str "udm-1") (str "UDM") (str "127.0.0.1") 29503;
   Register (str "smf-1") (str "SMF") (str "smf-sim") 29502;
   Register (str "udm-2") (str "UDM") (str "udm-b") 29504;
   Discover (str "UDM"); Discover (str "SMF")].

Lemma nrf_refines_map_witness :
  exists g, @run_clients no_environ sample_ops (tt, ∅)
  = (Returns [mkDiscovered [] 0 false; mkDiscovered (str "udm-b") 29504 true;
              mkDiscovered (str "smf-sim") 29502 true], (tt, g)).
Proof.
  destruct (@nrf_refines_map no_environ sample_ops) as [g H].
  - repeat constructor; cbn; try reflexivity; try discriminate; unfold word_text;
      repeat constructor.
  - exists g. exact H.
Defined.
