(* ===== verification/Udm.v ===== *)
(** * The UDM

    [5g-simulator/src/udm/udm_main.cpp]: authentication vectors and
    subscription data, served over HTTP. *)

From S2P Require Import Prelude Text Strings Json Http Sbi Aka5g.
#[local] Open Scope Z_scope.

(** ** Handlers *)

(** The texts of the answers. *)
Definition auth_body (supi rnd autn xresStar kausf : bytes) : bytes :=
  json.obj [(str "authType", json.str (str "5G_AKA"));
            (str "supi", json.str supi);
            (str "rand", json.str rnd);
            (str "autn", json.str autn);
            (str "xresStar", json.str xresStar);
            (str "kausf", json.str kausf)].

Definition sdm_body (supi : bytes) : bytes :=
  json.obj [(str "supi", json.str supi);
            (str "nssai", quotes "{'defaultSingleNssais':[{'sst':1,'sd':'000001'}]}");
            (str "subscribedUeAmbr", quotes "{'uplink':'100Mbps','downlink':'200Mbps'}")].

Section Udm.
Context {S W : Type} `{Host W} `{Environ}.

(** [Nudm_UEAuthentication_Get]. *)
Definition handleAuthDataRequest (suci : bytes) : X (S * W) bytes :=
  let msin := msinFromSuci suci in
  let supi := supiFromSuci suci in
  let k := kFor msin in
  rnd ← randomHex 16;
  autn ← randomHex 16;
  xresStar ← liftX (byteXor rnd k);
  kausf ← randomHex 32;
  mret (httpBuild (str "HTTP/1.1 200 OK") (auth_body supi rnd autn xresStar kausf) []).

(** [Nudm_SDM_Get]. *)
Definition handleSdmRequest (supi : bytes) : X (S * W) bytes :=
  mret (httpBuild (str "HTTP/1.1 200 OK") (sdm_body supi) []).

Definition udm_request (req : HttpMessage) : X (S * W) bytes :=
  let '(method, path) := request_line (startLine req) in
  let id := nth 2 (splitPath path) [] in
  if contains (str "/security-information/generate-auth-data") path then handleAuthDataRequest id
  else if contains (str "/am-data") path then handleSdmRequest id
  else mret (httpBuild (str "HTTP/1.1 404 Not Found") (str "{}") []).

(** A turn of the server: the octets a client sends, and those it is
    answered; an exception ends the process. *)
Definition udm_turn (stream : bytes) : X (S * W) bytes :=
  '(ok, req) ← liftX (or_throw (httpRecv stream));
  if ok : bool then udm_request req else mret [].

(** ** The answers *)

Lemma randomHex_returns (n : nat) (s : S) (w : W) :
  exists v w', randomHex n (s, w) = (Returns (toHex v), (s, w'))
               /\ is_bytes v /\ length v = n.
Proof.
  destruct (random_bytes_returns n s w) as (v & w' & E & Hv & Hl).
  exists v, w'. unfold randomHex. rewrite X_bind_eq, E. auto.
Qed.

(** A vector: random octets, and the response of the subscriber's key. *)
Lemma handleAuthDataRequest_returns (n : Z) (s : S) (w : W) :
  0 <= n ->
  exists v a k w',
    handleAuthDataRequest (suci n) (s, w)
    = (Returns (httpBuild (str "HTTP/1.1 200 OK")
                  (auth_body (supi n) (toHex v) (toHex a) (response v) (toHex k)) []), (s, w'))
    /\ is_bytes v /\ is_bytes a /\ is_bytes k
    /\ length v = 16%nat /\ length a = 16%nat /\ length k = 32%nat.
Proof.
  intros Hn. unfold handleAuthDataRequest. rewrite supiFromSuci_suci by exact Hn.
  destruct (randomHex_returns 16 s w) as (v & w1 & E1 & Hv & Lv). rewrite X_bind_eq, E1.
  destruct (randomHex_returns 16 s w1) as (a & w2 & E2 & Ha & La). rewrite X_bind_eq, E2.
  rewrite X_bind_eq. cbn [liftX]. rewrite byteXor_response by exact Hv.
  destruct (randomHex_returns 32 s w2) as (k & w3 & E3 & Hk & Lk). rewrite X_bind_eq, E3.
  exists v, a, k, w3. auto 10.
Qed.

End Udm.

(** ** The requests of the AMF *)

Section Paths.
Context `{Environ}.

Lemma suci_word (n : Z) : plmn_ok -> 0 <= n -> word_text (suci n).
Proof. intros [? ?] ?. unfold suci. pose proof (msin_digits n). auto 10 with words. Qed.

Lemma supi_word (n : Z) : plmn_ok -> 0 <= n -> word_text (supi n).
Proof. intros [? ?] ?. unfold supi. pose proof (msin_digits n). auto 10 with words. Qed.

(** The path of an authentication request names the SUCI. *)
Lemma auth_path (id : bytes) :
  word_text id -> id <> [] ->
  let path := str "/nudm-ueau/v2/" ++ id ++ str "/security-information/generate-auth-data" in
  nth 2 (splitPath path) [] = id
  /\ contains (str "/security-information/generate-auth-data") path = true.
Proof.
  intros Hid Hne path. split.
  - assert (E : path = path_of [str "nudm-ueau"; str "v2"; id; str "security-information";
                               str "generate-auth-data"])
      by (unfold path_of; cbn [map concat]; reflexivity).
    rewrite E, splitPath_of; [reflexivity|]. repeat constructor; try discriminate; auto with words.
  - apply (contains_app _ (str "/nudm-ueau/v2/")), contains_app. reflexivity.
Qed.

Lemma sdm_path (id : bytes) :
  word_text id -> id <> [] -> hd 0 id <> 115 ->
  let path := str "/nudm-sdm/v2/" ++ id ++ str "/am-data" in
  nth 2 (splitPath path) [] = id
  /\ contains (str "/security-information/generate-auth-data") path = false
  /\ contains (str "/am-data") path = true.
Proof.
  intros Hid Hne Hs path. split; [|split].
  - assert (E : path = path_of [str "nudm-sdm"; str "v2"; id; str "am-data"])
      by (unfold path_of; cbn [map concat]; reflexivity).
    rewrite E, splitPath_of; [reflexivity|]. repeat constructor; try discriminate; auto with words.
  - unfold path. change (str "/nudm-sdm/v2/") with (47 :: str "nudm-sdm" ++ 47 :: str "v2" ++ [47]).
    change (str "/security-information/generate-auth-data")
      with (47 :: str "security-information/generate-auth-data").
    cbn [app]. rewrite <- !app_assoc. cbn [app]. rewrite <- !app_assoc. cbn [app].
    rewrite contains_cons, contains_skip_app by (repeat constructor; discriminate).
    rewrite contains_cons, contains_skip_app by (repeat constructor; discriminate).
    rewrite contains_cons, contains_skip_app by (apply word_noslash; exact Hid).
    destruct id as [|c id]; [contradiction|]. cbn [hd] in Hs. cbn [app].
    replace (prefixb _ (47 :: c :: _)) with false; [reflexivity|].
    change (str "security-information/generate-auth-data")
      with (115 :: str "ecurity-information/generate-auth-data").
    cbn [prefixb]. replace (115 =? c) with false by lia. reflexivity.
  - apply (contains_app _ (str "/nudm-sdm/v2/")), contains_app. reflexivity.
Qed.

End Paths.
