(* ===== verification/Pfcp.v ===== *)
(** * PFCP messages

    The encoders of [namespace pfcp] in [5g-simulator/src/smf/smf_main.cpp],
    and the header parser and response builder of
    [5g-simulator/src/upf/upf_main.cpp].  The readers here follow the layout of
    TS 29.244 quoted in those files: a header, and information elements of a
    type, a length and a value. *)

From S2P Require Import Prelude Sbi.
#[local] Open Scope Z_scope.

(** ** Encoders of the SMF *)

Definition put16 (v : bytes) (x : Z) : bytes := v ++ [u8 (Z.shiftr x 8); u8 x].

(** Octets of a 64-bit value, from the top. *)
Definition be64 (x : Z) : bytes :=
  map (fun i => u8 (Z.shiftr x i)) [56; 48; 40; 32; 24; 16; 8; 0].

Definition ie (out : bytes) (type : Z) (val : bytes) : bytes :=
  put16 (put16 out type) (u16 (Z.of_nat (length val))) ++ val.

Definition nodeId (ip : Z) : bytes := 0x00 :: be32 ip.

Definition fSeid (seid ip : Z) : bytes := 0x02 :: be64 seid ++ be32 ip.

(** Two octets of the FAR identifier are kept. *)
Definition far_id_value (far_id : Z) : bytes := [0; 0; u8 (Z.shiftr far_id 8); u8 far_id].

Definition createPdr (pdr_id far_id : Z) : bytes :=
  let inner := ie [] 56 [u8 (Z.shiftr pdr_id 8); u8 pdr_id] in
  let inner := ie inner 29 [0; 0; 0; 100] in
  let pdi_inner := ie [] 20 [0x00; 0x00; 0x00; 0x00] in
  let inner := ie inner 22 pdi_inner in
  ie inner 108 (far_id_value far_id).

Definition createFar (far_id : Z) : bytes :=
  ie (ie [] 108 (far_id_value far_id)) 44 [0x00; 0x02].

(** The header of a session message: no SEID, three octets of sequence
    number, and the length of what follows the first four octets. *)
Definition session_message (type seq : Z) (ies : bytes) : bytes :=
  let body := repeat 0 8 ++ [u8 (Z.shiftr seq 16); u8 (Z.shiftr seq 8); u8 seq; 0x00] ++ ies in
  let msg_len := u16 (Z.of_nat (length body)) in
  [0x21; type; u8 (Z.shiftr msg_len 8); u8 msg_len] ++ body.

Definition buildSessionEstReq (smf_ip cp_seid seq pdr_id far_id : Z) : bytes :=
  let ies := ie [] 60 (nodeId smf_ip) in
  let ies := ie ies 57 (fSeid cp_seid smf_ip) in
  let ies := ie ies 1 (createPdr pdr_id far_id) in
  let ies := ie ies 3 (createFar far_id) in
  session_message 50 seq ies.

Definition buildSessionEstRsp (upf_ip up_seid seq : Z) : bytes :=
  let ies := ie [] 19 [0x01] in
  let ies := ie ies 60 (nodeId upf_ip) in
  let ies := ie ies 57 (fSeid up_seid upf_ip) in
  session_message 51 seq ies.

(** ** The UPF's side *)

Definition get16 (b0 b1 : Z) : Z := Z.lor (u16 (Z.shiftl b0 8)) b1.

Record Header : Type := mkHeader {
  version_flags : Z;
  msg_type : Z;
  msg_len : Z;
  seid : option Z;     (** [None]: left uninitialised *)
  seq : Z;
  has_seid : bool
}.

(** [for (i = 0; i < 8; ++i) h.seid = (h.seid << 8) | pkt[off+i]]. *)
Definition read_seid (l : bytes) : Z :=
  fold_left (fun s b => Z.lor (u64 (Z.shiftl s 8)) b) l 0.

Definition read24 (b0 b1 b2 : Z) : Z := Z.lor (Z.lor (Z.shiftl b0 16) (Z.shiftl b1 8)) b2.

(** [None] when the function returns false. *)
Definition parseHeader (pkt : bytes) : option Header :=
  match pkt with
  | f :: t :: l0 :: l1 :: rest =>
      let has := negb (Z.land f 0x01 =? 0) in
      if has && (length pkt <? 4 + 8 + 4)%nat then None
      else
        let s := if has then Some (read_seid (take 8 rest)) else None in
        match (if has then drop 8 rest else rest) with
        | b0 :: b1 :: b2 :: _ => Some (mkHeader f t (get16 l0 l1) s (read24 b0 b1 b2) has)
        | _ => None
        end
  | _ => None
  end.

(** The UPF has its own copy of the response builder. *)
Definition buildRsp (upf_ip up_seid seq : Z) : bytes :=
  let ie out t val :=
    out ++ [u8 (Z.shiftr t 8); u8 t]
        ++ [u8 (Z.shiftr (u16 (Z.of_nat (length val))) 8); u8 (u16 (Z.of_nat (length val)))] ++ val in
  let ies := ie [] 19 [0x01] in
  let ies := ie ies 60 (0x00 :: be32 upf_ip) in
  let ies := ie ies 57 ([0x02] ++ be64 up_seid ++ be32 upf_ip) in
  let body := repeat 0 8 ++ [u8 (Z.shiftr seq 16); u8 (Z.shiftr seq 8); u8 seq] ++ [0] ++ ies in
  let msg_len := u16 (Z.of_nat (length body)) in
  [0x21; 51; u8 (Z.shiftr msg_len 8); u8 msg_len] ++ body.

(** ** A reader of the documented format *)

Definition read16 (b0 b1 : Z) : Z := b0 * 256 + b1.
Definition read_be (l : bytes) : Z := fold_left (fun s b => s * 256 + b) l 0.

(** The elements of a group, in order; [None] when one is cut short. *)
Fixpoint read_ies (fuel : nat) (l : bytes) : option (list (Z * bytes)) :=
  match l, fuel with
  | [], _ => Some []
  | t0 :: t1 :: n0 :: n1 :: r, S fuel' =>
      let n := Z.to_nat (read16 n0 n1) in
      if (length r <? n)%nat then None
      else r' ← read_ies fuel' (drop n r); Some ((read16 t0 t1, take n r) :: r')
  | _, _ => None
  end.

Definition ies_of (l : bytes) : option (list (Z * bytes)) := read_ies (length l) l.

(** ** Lemmas *)

Lemma read16_be (x : Z) : in_u 16 x -> read16 (u8 (Z.shiftr x 8)) (u8 x) = x.
Proof.
  intros Hx. unfold read16. rewrite Z.shiftr_div_pow2 by lia. unfold_u.
  change (2 ^ 8) with 256. change (2 ^ 16) with 65536 in Hx. div_eqs.
Qed.

Lemma read_be32 (x : Z) : in_u 32 x -> read_be (be32 x) = x.
Proof.
  intros Hx. unfold read_be, be32. cbn [fold_left]. rewrite !Z.shiftr_div_pow2 by lia. unfold_u.
  change (2 ^ 8) with 256. change (2 ^ 16) with 65536. change (2 ^ 24) with 16777216.
  change (2 ^ 32) with 4294967296 in Hx. div_eqs.
Qed.

Lemma read_be64 (x : Z) : in_u 64 x -> read_be (be64 x) = x.
Proof.
  intros Hx. unfold read_be, be64. cbn [fold_left map]. rewrite !Z.shiftr_div_pow2 by lia. unfold_u.
  change (2 ^ 0) with 1. change (2 ^ 8) with 256. change (2 ^ 16) with 65536.
  change (2 ^ 24) with 16777216. change (2 ^ 32) with 4294967296.
  change (2 ^ 40) with 1099511627776. change (2 ^ 48) with 281474976710656.
  change (2 ^ 56) with 72057594037927936. change (2 ^ 64) with 18446744073709551616 in Hx.
  div_eqs.
Qed.

(** One element at the front of a group. *)
Definition enc_ie (t : Z) (v : bytes) : bytes :=
  [u8 (Z.shiftr t 8); u8 t]
  ++ [u8 (Z.shiftr (Z.of_nat (length v)) 8); u8 (Z.of_nat (length v))] ++ v.

Definition enc_ies (l : list (Z * bytes)) : bytes := concat (map (fun e => enc_ie e.1 e.2) l).

Definition wf_ie (e : Z * bytes) : Prop := in_u 16 (e.1) /\ in_u 16 (Z.of_nat (length (e.2))).

Lemma ie_enc (out v : bytes) (t : Z) :
  in_u 16 (Z.of_nat (length v)) -> ie out t v = out ++ enc_ie t v.
Proof.
  intros Hv. unfold ie, put16, enc_ie. rewrite u16_small by exact Hv.
  rewrite <- !app_assoc. reflexivity.
Qed.

Lemma read_ies_enc (fuel : nat) (l : list (Z * bytes)) :
  (length l <= fuel)%nat -> Forall wf_ie l -> read_ies fuel (enc_ies l) = Some l.
Proof.
  revert fuel. induction l as [|[t v] l IH]; intros fuel Hf Hl; [destruct fuel; reflexivity|].
  apply List.Forall_cons_iff in Hl as [[Ht Hv] Hl]. cbn [fst snd length] in *.
  destruct fuel as [|fuel]; [lia|].
  unfold enc_ies. cbn [map concat fst snd]. fold (enc_ies l). unfold enc_ie. cbn [app read_ies].
  rewrite !read16_be by assumption. rewrite Nat2Z.id, length_app.
  rewrite (proj2 (Nat.ltb_ge _ _)) by lia. rewrite drop_app_length, take_app_length.
  rewrite IH by (lia || exact Hl). reflexivity.
Qed.

Lemma enc_ies_length (l : list (Z * bytes)) : (length l <= length (enc_ies l))%nat.
Proof.
  unfold enc_ies. induction l as [|e l IH]; [cbn; lia|]. cbn [map concat length].
  rewrite length_app. assert (1 <= length (enc_ie e.1 e.2))%nat by (cbn; lia). lia.
Qed.

Lemma ies_of_enc (l : list (Z * bytes)) : Forall wf_ie l -> ies_of (enc_ies l) = Some l.
Proof. intros Hl. apply read_ies_enc; [apply enc_ies_length|exact Hl]. Qed.

(** The header of a session message, as the UPF parses it. *)
Lemma parse_session_message (type sq : Z) (ies : bytes) :
  in_u 16 (Z.of_nat (length ies) + 12) ->
  parseHeader (session_message type sq ies)
  = Some (mkHeader 0x21 type (Z.of_nat (length ies) + 12) (Some 0) (sq mod 2 ^ 24) true).
Proof.
  intros Hl. unfold session_message.
  replace (length (repeat 0 8 ++ [u8 (Z.shiftr sq 16); u8 (Z.shiftr sq 8); u8 sq; 0] ++ ies))
    with (12 + length ies)%nat by reflexivity.
  replace (Z.of_nat (12 + length ies)) with (Z.of_nat (length ies) + 12) by lia.
  rewrite u16_small by exact Hl. set (n := Z.of_nat (length ies) + 12) in *.
  cbn [app parseHeader repeat]. change (negb (Z.land 0x21 0x01 =? 0)) with true. cbn [andb].
  cbn [length]. rewrite (proj2 (Nat.ltb_ge _ _)) by lia.
  cbn [take drop]. f_equal. f_equal.
  - unfold get16. rewrite Z.lor_comm, u16_small.
    + rewrite lor_shiftl_add by (apply u8_range || lia).
      rewrite Z.add_comm. apply (read16_be n Hl).
    + rewrite Z.shiftl_mul_pow2 by lia. pose proof (u8_range (Z.shiftr n 8)). unfold in_u in *. lia.
  - unfold read24. rewrite <- Z.lor_assoc, Z.lor_comm.
    rewrite (Z.lor_comm (Z.shiftl _ 8)), (lor_shiftl_add (u8 sq) _ 8) by (apply u8_range || lia).
    pose proof (u8_range sq). pose proof (u8_range (Z.shiftr sq 8)). unfold in_u in *.
    change (2 ^ 8) with 256 in *. rewrite lor_shiftl_add by (change (2 ^ 16) with 65536; lia).
    rewrite !Z.shiftr_div_pow2 by lia. unfold_u. change (2 ^ 8) with 256.
    change (2 ^ 16) with 65536. change (2 ^ 24) with 16777216. div_eqs.
Qed.

Lemma far_id_read (far_id : Z) : in_u 16 far_id -> read_be (far_id_value far_id) = far_id.
Proof.
  intros H. unfold far_id_value, read_be. cbn [fold_left].
  change ((0 * 256 + 0) * 256 + 0) with 0. exact (read16_be far_id H).
Qed.

(** PFCP request: the UPF's parser reads the header of the SMF's session
    establishment request, and a reader of the documented format reads its
    elements: the node, the F-SEID of the control plane, one packet detection
    rule of precedence 100 that points to one forwarding rule, when the
    sequence number has 24 bits and the rule identifiers 16. *)
Theorem request_roundtrip (ip sd sq pdr far : Z)
    (Hip : in_u 32 ip) (Hsd : in_u 64 sd) (Hsq : in_u 24 sq)
    (Hpdr : in_u 16 pdr) (Hfar : in_u 16 far) :
  let pkt := buildSessionEstReq ip sd sq pdr far in
  (exists h, parseHeader pkt = Some h /\ msg_type h = 50 /\ seid h = Some 0 /\ seq h = sq
             /\ msg_len h = Z.of_nat (length pkt) - 4)
  /\ exists node fseid cpdr cfar,
       ies_of (drop 16 pkt) = Some [(60, 0 :: node); (57, 2 :: fseid); (1, cpdr); (3, cfar)]
       /\ read_be node = ip /\ read_be (take 8 fseid) = sd /\ read_be (drop 8 fseid) = ip
       /\ (exists p f, ies_of cpdr = Some [(56, p); (29, [0; 0; 0; 100]); (22, [0; 20; 0; 4; 0; 0; 0; 0]);
                                           (108, f)]
                       /\ read_be p = pdr /\ read_be f = far)
       /\ exists f, ies_of cfar = Some [(108, f); (44, [0; 2])] /\ read_be f = far.
Proof.
  intros pkt.
  set (cpdr := createPdr pdr far). set (cfar := createFar far).
  assert (Hpkt : pkt = session_message 50 sq
            (enc_ies [(60, nodeId ip); (57, fSeid sd ip); (1, cpdr); (3, cfar)])).
  { unfold pkt, buildSessionEstReq. rewrite !ie_enc by (unfold in_u; cbn; lia).
    unfold enc_ies. cbn [map concat fst snd]. rewrite app_nil_r. cbn [app].
    rewrite <- !app_assoc. reflexivity. }
  split.
  - eexists. rewrite Hpkt, parse_session_message by (unfold in_u; cbn; lia).
    split; [reflexivity|]. cbn [msg_type seid seq msg_len].
    rewrite Z.mod_small by exact Hsq. repeat split. 
  - exists (be32 ip), (be64 sd ++ be32 ip), cpdr, cfar. split.
    { rewrite Hpkt. unfold session_message. cbn [app repeat drop].
      apply (ies_of_enc [(60, nodeId ip); (57, fSeid sd ip); (1, cpdr); (3, cfar)]).
      repeat constructor; unfold in_u; cbn; lia. }
    split; [exact (read_be32 ip Hip)|].
    split; [exact (read_be64 sd Hsd)|].
    split; [exact (read_be32 ip Hip)|].
    split.
    + exists [u8 (Z.shiftr pdr 8); u8 pdr], (far_id_value far).
      split; [|split; [exact (read16_be pdr Hpdr)|exact (far_id_read far Hfar)]].
      apply (ies_of_enc [(56, [u8 (Z.shiftr pdr 8); u8 pdr]); (29, [0; 0; 0; 100]);
                         (22, [0; 20; 0; 4; 0; 0; 0; 0]); (108, far_id_value far)]).
      repeat constructor; unfold in_u; cbn; lia.
    + exists (far_id_value far). split; [|exact (far_id_read far Hfar)].
      apply (ies_of_enc [(108, far_id_value far); (44, [0; 2])]).
      repeat constructor; unfold in_u; cbn; lia.
Qed.

Lemma request_roundtrip_witness :
  in_u 32 0x0A010003 /\ exists h,
    parseHeader (buildSessionEstReq 0x0A010003 0x100000005 7 1 1) = Some h
    /\ msg_type h = 50 /\ seid h = Some 0 /\ seq h = 7
    /\ msg_len h = Z.of_nat (length (buildSessionEstReq 0x0A010003 0x100000005 7 1 1)) - 4.
Proof.
  split; [unfold in_u; lia|].
  refine (proj1 (request_roundtrip 0x0A010003 0x100000005 7 1 1 _ _ _ _ _)); unfold in_u; lia.
Defined.

(** The UPF's copy of the response builder agrees with the SMF's. *)
Lemma buildRsp_same (ip sd sq : Z) : buildRsp ip sd sq = buildSessionEstRsp ip sd sq.
Proof. reflexivity. Qed.
