(* ===== verification/Smf.v ===== *)
(** * The SMF

    [5g-simulator/src/smf/smf_main.cpp]: the address pool, the N4 session set
    up towards the UPF, and the server for session requests of the AMF.  The
    addresses and ports are those of [common/pcap_writer.h]. *)

From S2P Require Import Prelude Text Strings Json Http Sbi Pfcp.
#[local] Open Scope Z_scope.

Definition PORT_PFCP : Z := 8805.
Definition IP_GNB5 : Z := 0x0A010001.
Definition IP_AMF : Z := 0x0A010002.
Definition IP_SMF : Z := 0x0A010003.
Definition IP_UPF : Z := 0x0A010004.
Definition IP_UDM : Z := 0x0A010005.
Definition PORT_N2 : Z := 38412.
Definition PORT_SBI : Z := 80.

(** ** State *)

Record SmfState : Type := mkSmf {
  s_ue_ip_counter : Z;
  s_upf_host : bytes;
  s_upf_pfcp_port : Z;
  s_pfcp_seq : Z
}.

Definition newSmf : SmfState := mkSmf 2 (str "127.0.0.1") 8805 1.

Definition set_counter (n : Z) (s : SmfState) : SmfState :=
  mkSmf n (s_upf_host s) (s_upf_pfcp_port s) (s_pfcp_seq s).
Definition set_seq (n : Z) (s : SmfState) : SmfState :=
  mkSmf (s_ue_ip_counter s) (s_upf_host s) (s_upf_pfcp_port s) n.
Definition set_upf (host : bytes) (port : Z) (s : SmfState) : SmfState :=
  mkSmf (s_ue_ip_counter s) host port (s_pfcp_seq s).

Section Smf.
Context {W : Type} `{Host W} `{Environ}.

(** ** Operations *)

(** The address of the [n]-th session. *)
Definition ue_address (n : Z) : bytes :=
  ip_str 10 45 (Z.land (Z.shiftr n 8) 0xFF) (Z.land n 0xFF).

(** The counter is a 32-bit atomic. *)
Definition allocateUeIp : X (SmfState * W) bytes :=
  s ← xget;
  let n := s_ue_ip_counter s in
  xmodify (set_counter (u32 (n + 1)));;
  mret (ue_address n).

(** The request goes to the UPF without waiting; the response in the capture
    is built here. *)
Definition setupN4Session (ue_ip : bytes) (pdu_session_id : Z) : X (SmfState * W) bytes :=
  s ← xget;
  let seq := s_pfcp_seq s in
  xmodify (set_seq (u32 (seq + 1)));;
  let cp_seid := Z.lor 0x0000000100000000 pdu_session_id in
  let req_pdu := buildSessionEstReq IP_SMF cp_seid seq 1 1 in
  let rsp_pdu := buildSessionEstRsp IP_UPF (Z.lxor cp_seid 0xDEAD) seq in
  pcap5 (writeUdp req_pdu IP_SMF PORT_PFCP IP_UPF PORT_PFCP);;
  pcap5 (writeUdp rsp_pdu IP_UPF PORT_PFCP IP_SMF PORT_PFCP);;
  udpSendTo req_pdu (s_upf_host s) (s_upf_pfcp_port s);;
  mret ue_ip.

Definition or_internet (dnn : bytes) : bytes :=
  match dnn with [] => str "internet" | _ :: _ => dnn end.

(** The last five characters of the SUPI name the context. *)
Definition sm_context_ref (supi : bytes) : bytes :=
  str "/nsmf-pdusession/v1/sm-contexts/ue-"
  ++ drop (if (5 <? length supi)%nat then length supi - 5 else 0) supi.

Definition session_body (ref ue_ip : bytes) (psi : Z) (dnn : bytes) : bytes :=
  json.obj [(str "smContextRef", json.str ref);
            (str "ueIpAddress", json.str ue_ip);
            (str "pduSessionId", json.num psi);
            (str "dnn", json.str (or_internet dnn));
            (str "upfIp", json.str (str "10.1.0.4"));
            (str "upfTeid", json.str (str "0x00000101"))].

Definition session_response (ref resp_body : bytes) : bytes :=
  str "HTTP/1.1 201 Created" ++ crlf
  ++ str "Location: " ++ ref ++ crlf
  ++ str "Content-Type: application/json" ++ crlf
  ++ str "Content-Length: " ++ to_string (Z.of_nat (length resp_body)) ++ crlf
  ++ crlf ++ resp_body.

(** One request: the octets the client sends, and those it is answered. *)
Definition handleOne (stream : bytes) : X (SmfState * W) bytes :=
  '(ok, req) ← liftX (or_throw (httpRecv stream));
  if negb ok then mret []
  else if negb (contains (str "POST") (startLine req))
       || negb (contains (str "sm-contexts") (startLine req)) then
    mret (httpBuild (str "HTTP/1.1 400 Bad Request")
            (quotes "{'problem':'only POST /nsmf-pdusession/v1/sm-contexts supported'}") [])
  else
    let supi := json.get (body req) (str "supi") in
    let dnn := json.get (body req) (str "dnn") in
    let pdu_sess_id := json.get (body req) (str "pduSessionId") in
    psi ← (match pdu_sess_id with
           | [] => mret 1
           | _ :: _ => liftX (or_throw (stoi pdu_sess_id))
           end);
    ue_ip ← allocateUeIp;
    _ ← setupN4Session ue_ip (u32 psi);
    let sm_ctx_ref := sm_context_ref supi in
    let resp := session_response sm_ctx_ref (session_body sm_ctx_ref ue_ip psi dnn) in
    pcap5 (writeAppText (startLine req ++ crlf ++ body req) IP_AMF PORT_SBI IP_SMF PORT_SBI);;
    pcap5 (writeAppText resp IP_SMF PORT_SBI IP_AMF PORT_SBI);;
    mret resp.

(** Before the server loop: the UPF is discovered, with a fallback, and the
    function registers. *)
Definition smf_start : X (SmfState * W) unit :=
  let self := getenv_or (str "SMF_HOST") (str "127.0.0.1") in
  upf ← discover (str "UPF");
  (if d_found upf then xmodify (set_upf (d_host upf) 8805)
   else s ← xget;
        xmodify (set_upf (getenv_or (str "UPF_HOST") (str "127.0.0.1")) (s_upf_pfcp_port s)));;
  registerSelf (str "smf-1") (str "SMF") self 29502.

(** ** What a session request does *)

Lemma session_response_build (ref b : bytes) :
  session_response ref b = httpBuild (str "HTTP/1.1 201 Created") b (str "Location: " ++ ref).
Proof.
  unfold session_response, httpBuild. change (str "Location: ") with (76 :: str "ocation: ").
  cbn [app]. rewrite <- !app_assoc. reflexivity.
Qed.

(** The state after a session, and what left the function. *)
Definition session_state (s : SmfState) : SmfState :=
  set_counter (u32 (s_ue_ip_counter s + 1)) (set_seq (u32 (s_pfcp_seq s + 1)) s).

Definition n4_request (s : SmfState) (psi : Z) : bytes :=
  buildSessionEstReq IP_SMF (Z.lor 0x100000000 psi) (s_pfcp_seq s) 1 1.

Definition n4_response (s : SmfState) (psi : Z) : bytes :=
  buildSessionEstRsp IP_UPF (Z.lxor (Z.lor 0x100000000 psi) 0xDEAD) (s_pfcp_seq s).

(** The captured exchange, and the datagram to the UPF. *)
Definition n4_world (s : SmfState) (psi : Z) (w : W) : W :=
  h_udp (n4_request s psi) (s_upf_host s) (s_upf_pfcp_port s)
    (h_pcap (writeUdp (n4_response s psi) IP_UPF PORT_PFCP IP_SMF PORT_PFCP)
       (h_pcap (writeUdp (n4_request s psi) IP_SMF PORT_PFCP IP_UPF PORT_PFCP) w)).

Lemma setupN4Session_runs (ue_ip : bytes) (psi : Z) (s : SmfState) (w : W) :
  setupN4Session ue_ip psi (s, w)
  = (Returns ue_ip, (set_seq (u32 (s_pfcp_seq s + 1)) s, n4_world s psi w)).
Proof. reflexivity. Qed.

(** ** The address pool *)

Lemma land_255 (n : Z) : Z.land n 0xFF = n mod 256.
Proof. change 0xFF with (Z.ones 8). rewrite Z.land_ones by lia. reflexivity. Qed.

Lemma ue_address_mod (n : Z) :
  ue_address n = ip_str 10 45 (n / 256 mod 256) (n mod 256).
Proof. unfold ue_address. rewrite !land_255, Z.shiftr_div_pow2 by lia. reflexivity. Qed.

Lemma ue_address_inj (a b : Z) : ue_address a = ue_address b -> a mod 65536 = b mod 65536.
Proof.
  rewrite !ue_address_mod. intros E. apply (f_equal scan_ip) in E.
  rewrite !scan_ip_ip_str in E by (unfold in_u; change (2 ^ 8) with 256; div_eqs).
  injection E as E1 E2. div_eqs.
Qed.

Lemma ue_address_of_mod (a b : Z) : a mod 65536 = b mod 65536 -> ue_address a = ue_address b.
Proof. intros E. rewrite !ue_address_mod. f_equal; div_eqs. Qed.

End Smf.

(** The SMF's address pool: two sessions get the same address exactly when
    their numbers agree modulo 65536, so the first 65534 sessions have
    distinct addresses in 10.45.0.0/16, and the two after them get the network
    address 10.45.0.0 and the gateway 10.45.0.1. *)
Theorem smf_pool_bounds (a b : Z) :
  (ue_address a = ue_address b <-> a mod 65536 = b mod 65536)
  /\ (exists x y, in_u 8 x /\ in_u 8 y /\ ue_address a = ip_str 10 45 x y)
  /\ ue_address (s_ue_ip_counter newSmf + 65534) = str "10.45.0.0"
  /\ ue_address (s_ue_ip_counter newSmf + 65535) = str "10.45.0.1".
Proof.
  split; [split; [apply ue_address_inj|apply ue_address_of_mod]|split; [|split; reflexivity]].
  - rewrite ue_address_mod. exists (a / 256 mod 256), (a mod 256).
    unfold in_u. change (2 ^ 8) with 256. repeat split; div_eqs.
Qed.
