(* ===== verification/Upf5g.v ===== *)
(** * The UPF's control side

    The PFCP server of [5g-simulator/src/upf/upf_main.cpp] and its session
    table.  A turn takes the octets of one datagram, truncated to the receive
    buffer. *)

From S2P Require Import Prelude Sbi Pfcp Smf.
#[local] Open Scope Z_scope.

(** ** State *)

Record PfcpSession : Type := mkSession {
  cp_seid : Z;
  up_seid : Z;
  pdr_count : Z;
  far_count : Z
}.

Record UpfState : Type := mkUpf {
  s_sessions : list PfcpSession;
  s_up_seid_counter : Z
}.

Definition newUpf : UpfState := mkUpf [] 0xABC0000000000001.

Definition add_session (p : PfcpSession) (s : UpfState) : UpfState :=
  mkUpf (s_sessions s ++ [p]) (u64 (s_up_seid_counter s + 1)).

(** ** The server *)

Section Upf.
Context {W : Type} `{Host W}.

(** [rsp[1] = t]. *)
Definition set_type (t : Z) (rsp : bytes) : bytes := <[1%nat := t]> rsp.

(** What a parsed message does; [sd] is the SEID of its header. *)
Definition upf_message (pkt : bytes) (h : Header) (sd : Z) : X (UpfState * W) unit :=
  if msg_type h =? 50 then
    s ← xget;
    let up := s_up_seid_counter s in
    xmodify (add_session (mkSession sd up 1 1));;
    let rsp := buildRsp IP_UPF up (seq h) in
    pcap5 (writeUdp pkt IP_SMF PORT_PFCP IP_UPF PORT_PFCP);;
    pcap5 (writeUdp rsp IP_UPF PORT_PFCP IP_SMF PORT_PFCP);;
    sendFrame5 rsp
  else if msg_type h =? 52 then sendFrame5 (set_type 53 (buildRsp IP_UPF 0 (seq h)))
  else if msg_type h =? 54 then sendFrame5 (set_type 55 (buildRsp IP_UPF 0 (seq h)))
  else mret tt.

(** A turn of the loop: false when it ends.  The SEID is printed before the
    type is looked at, set or not. *)
Definition upf_turn (datagram : bytes) : X (UpfState * W) bool :=
  match datagram with
  | [] => mret false
  | _ :: _ =>
      let pkt := take 4096 datagram in
      match parseHeader pkt with
      | None => mret true
      | Some h =>
          match seid h with
          | None => liftX UB
          | Some sd => upf_message pkt h sd;; mret true
          end
      end
  end.

(** [main] before the loop. *)
Definition upf_start `{Environ} : X (UpfState * W) unit :=
  registerSelf (str "upf-1") (str "UPF") (getenv_or (str "UPF_HOST") (str "127.0.0.1")) PORT_PFCP.

(** ** Lemmas *)

Lemma enc_request (ip sd sq pdr far : Z) :
  exists ies, buildSessionEstReq ip sd sq pdr far = session_message 50 sq ies
              /\ length ies = 82%nat.
Proof. eexists. split; reflexivity. Qed.

Lemma upf_turn_eq (pkt : bytes) (t : UpfState * W) :
  pkt <> [] -> (length pkt <= 4096)%nat ->
  upf_turn pkt t =
  match parseHeader pkt with
  | None => (Returns true, t)
  | Some h => match seid h with
              | None => (UB, t)
              | Some sd => (upf_message pkt h sd;; mret true) t
              end
  end.
Proof.
  intros Hne Hl. unfold upf_turn. destruct pkt as [|c pkt]; [contradiction|].
  rewrite take_ge by exact Hl. destruct (parseHeader (c :: pkt)) as [h|]; [|reflexivity].
  destruct (seid h); reflexivity.
Qed.

Lemma request_length (sd sq pdr far : Z) :
  length (buildSessionEstReq IP_SMF sd sq pdr far) = 98%nat.
Proof. reflexivity. Qed.

(** A session request adds one session and is answered with its SEID. *)
Lemma upf_turn_request (sd sq : Z) (s : UpfState) (w : W) :
  upf_turn (buildSessionEstReq IP_SMF sd sq 1 1) (s, w)
  = (Returns true,
     (add_session (mkSession 0 (s_up_seid_counter s) 1 1) s,
      let req := buildSessionEstReq IP_SMF sd sq 1 1 in
      let rsp := buildRsp IP_UPF (s_up_seid_counter s) (sq mod 2 ^ 24) in
      h_frame rsp (h_pcap (writeUdp rsp IP_UPF PORT_PFCP IP_SMF PORT_PFCP)
                     (h_pcap (writeUdp req IP_SMF PORT_PFCP IP_UPF PORT_PFCP) w)))).
Proof.
  rewrite upf_turn_eq; [|discriminate|rewrite request_length; lia].
  destruct (enc_request IP_SMF sd sq 1 1) as (ies & E & Hl).
  rewrite E, parse_session_message by (unfold in_u; rewrite Hl; cbn; lia). reflexivity.
Qed.

End Upf.

(** The UPF's PFCP server: an empty datagram ends the process's loop; a
    short one is skipped; a header without the S flag makes it read an
    uninitialised SEID; and the session a request creates carries the header's
    SEID, which the SMF always sends as zero, and not the control-plane
    F-SEID that the request conveys. *)
Theorem upf_session_seid {W} `{Host W} (sd sq : Z) (s : UpfState) (w : W) :
  (exists w', upf_turn (buildSessionEstReq IP_SMF sd sq 1 1) (s, w)
     = (Returns true, (add_session (mkSession 0 (s_up_seid_counter s) 1 1) s, w')))
  /\ upf_turn [] (s, w) = (Returns false, (s, w))
  /\ (forall a b c, upf_turn [a; b; c] (s, w) = (Returns true, (s, w)))
  /\ upf_turn ([0x20; 50; 0; 4] ++ [0; 0; 1; 0]) (s, w) = (UB, (s, w)).
Proof.
  split; [|repeat split].
  eexists. apply upf_turn_request.
Qed.
