(* ===== verification/Amf.v ===== *)
(** * The AMF

    [5g-simulator/src/amf/amf_main.cpp]: the contexts of the UEs by
    [ranUeNgapId], the calls to the UDM and the SMF, one handler per message of
    the gNB and the turn of the receive loop.  An exception that leaves a
    handler ends the process. *)

From S2P Require Import Prelude Text Strings Json Http Sbi Aka5g Smf.
#[local] Open Scope Z_scope.

(** ** State *)

Record UeContext5 : Type := mkUe5 {
  ue_suci : bytes;
  ue_supi : bytes;
  ue_xresStar : bytes;
  ue_nssai : bytes
}.

Record AmfState : Type := mkAmf {
  udmHost : bytes;
  udmPort : Z;
  smfHost : bytes;
  smfPort : Z;
  ue_ctx : gmap Z UeContext5
}.

Definition newAmf : AmfState := mkAmf (str "127.0.0.1") 29503 (str "127.0.0.1") 29502 ∅.

Definition set_ctx (id : Z) (c : UeContext5) (s : AmfState) : AmfState :=
  mkAmf (udmHost s) (udmPort s) (smfHost s) (smfPort s) (<[id := c]> (ue_ctx s)).
Definition set_udm (host : bytes) (port : Z) (s : AmfState) : AmfState :=
  mkAmf host port (smfHost s) (smfPort s) (ue_ctx s).
Definition set_smf (host : bytes) (port : Z) (s : AmfState) : AmfState :=
  mkAmf (udmHost s) (udmPort s) host port (ue_ctx s).

(** ** Messages *)

Definition reject_text (id cause : bytes) : bytes :=
  json.obj [(str "msgType", json.str (str "RegistrationReject"));
            (str "ranUeNgapId", id);
            (str "cause", json.str cause)].

Definition auth_request (ueId : Z) (rand autn : bytes) : bytes :=
  json.obj [(str "msgType", json.str (str "AuthenticationRequest"));
            (str "ranUeNgapId", json.num ueId);
            (str "rand", json.str rand);
            (str "autn", json.str autn)].

Definition accept_text (ueId : Z) (guti allowedNssai : bytes) : bytes :=
  json.obj [(str "msgType", json.str (str "RegistrationAccept"));
            (str "ranUeNgapId", json.num ueId);
            (str "5gGuti", json.str guti);
            (str "allowedNssai", allowedNssai)].

Definition pdu_accept (ueId pduSessId : Z) (ue_ip dnn : bytes) : bytes :=
  json.obj [(str "msgType", json.str (str "PduSessionAccept"));
            (str "ranUeNgapId", json.num ueId);
            (str "pduSessionId", json.num pduSessId);
            (str "ueIpAddress", json.str ue_ip);
            (str "upfIp", json.str (str "10.1.0.4"));
            (str "upfTeid", json.str (str "0x00000101"));
            (str "dnn", json.str (or_internet dnn))].

Section Amf.
Context {W : Type} `{Host W} `{Environ}.

Definition network : bytes := plmnDomain ++ str ".3gppnetwork.org".

Definition auth_call (suci : bytes) : bytes :=
  httpBuild (str "POST /nudm-ueau/v2/" ++ suci
             ++ str "/security-information/generate-auth-data HTTP/1.1")
    (json.obj [(str "servingNetworkName", json.str (str "5G:" ++ network))])
    (str "Host: udm.5gc." ++ network).

Definition sdm_call (supi : bytes) : bytes :=
  httpBuild (str "GET /nudm-sdm/v2/" ++ supi ++ str "/am-data HTTP/1.1") []
    (str "Host: udm.5gc." ++ network).

Definition session_call (supi : bytes) (pdu_sess_id : Z) (dnn : bytes) : bytes :=
  httpBuild (str "POST /nsmf-pdusession/v1/sm-contexts HTTP/1.1")
    (json.obj [(str "supi", json.str supi);
               (str "pduSessionId", json.num pdu_sess_id);
               (str "dnn", json.str (or_internet dnn));
               (str "snssai", json.str (quotes "{'sst':1,'sd':'000001'}"));
               (str "servingNssai", json.str (str "5G:mnc010.mcc404.3gppnetwork.org"));
               (str "anType", json.str (str "3GPP_ACCESS"))])
    (str "Host: smf.5gc.mnc010.mcc404.3gppnetwork.org").

(** ** Calls *)

(** The result of the receive is not looked at. *)
Definition callUdm (req : bytes) : X (AmfState * W) HttpMessage :=
  s ← xget;
  connectTo (udmHost s) (udmPort s);;
  pcap5 (writeAppText req IP_AMF PORT_SBI IP_UDM PORT_SBI);;
  '(_, resp) ← exchange (udmHost s) (udmPort s) req;
  pcap5 (writeAppText (httpBuild (startLine resp) (body resp) []) IP_UDM PORT_SBI IP_AMF PORT_SBI);;
  mret resp.

(** The address, or the empty text when the SMF fails. *)
Definition callSmf (supi : bytes) (pdu_sess_id : Z) (dnn : bytes) : X (AmfState * W) bytes :=
  let req_str := session_call supi pdu_sess_id dnn in
  try_catch
    (s ← xget;
     connectTo (smfHost s) (smfPort s);;
     pcap5 (writeAppText req_str IP_AMF PORT_SBI IP_SMF PORT_SBI);;
     '(ok, resp) ← exchange (smfHost s) (smfPort s) req_str;
     if negb ok then mret []
     else
       pcap5 (writeAppText (httpBuild (startLine resp) (body resp) [])
                IP_SMF PORT_SBI IP_AMF PORT_SBI);;
       mret (json.get (body resp) (str "ueIpAddress")))
    (mret []).

Definition sendToGnb (json_text : bytes) : X (AmfState * W) unit :=
  pcap5 (writeAppText json_text IP_AMF PORT_N2 IP_GNB5 PORT_N2);;
  sendFrame5 (n2Frame json_text).

(** [std::stoi(json::get(text, "ranUeNgapId"))]. *)
Definition ranUeNgapId (text : bytes) : X (AmfState * W) Z :=
  liftX (or_throw (stoi (json.get text (str "ranUeNgapId")))).

(** ** Handlers *)

Definition handleRegistrationRequest (text : bytes) : X (AmfState * W) unit :=
  ueId ← ranUeNgapId text;
  let suci := json.get text (str "suci") in
  let nssai := json.get text (str "requestedNssai") in
  let req := auth_call suci in
  drop ← rollDrop5;
  if drop : bool then
    sendToGnb (reject_text (json.str (str "0")) (str "chaos-udm-drop"))
  else
    resp ← callUdm req;
    let rand := json.get (body resp) (str "rand") in
    let autn := json.get (body resp) (str "autn") in
    let xresStar := json.get (body resp) (str "xresStar") in
    let supi := json.get (body resp) (str "supi") in
    xmodify (set_ctx ueId (mkUe5 suci supi xresStar nssai));;
    sendToGnb (auth_request ueId rand autn).

Definition guti (ueId : Z) : bytes :=
  str "5g-guti-" ++ mcc ++ str "-" ++ mnc ++ str "-amf01-" ++ setw 5 (to_stringZ ueId).

(** The requested slices come back as the allowed ones. *)
Definition allowedNssai (nssai : bytes) : bytes :=
  match nssai with
  | [] => quotes "[{'sst':1,'sd':'000001'}]"
  | _ :: _ => str "[" ++ nssai ++ str "]"
  end.

Definition handleAuthResponse (text : bytes) : X (AmfState * W) unit :=
  ueId ← ranUeNgapId text;
  let resStar := json.get text (str "resStar") in
  s ← xget;
  match ue_ctx s !! ueId with
  | None => mret tt
  | Some c =>
      if negb (bool_decide (resStar = ue_xresStar c)) then
        sendToGnb (reject_text (json.num ueId) (str "authentication-failure"))
      else
        _ ← callUdm (sdm_call (ue_supi c));
        sendToGnb (accept_text ueId (guti ueId) (allowedNssai (ue_nssai c)))
  end.

(** Nothing but the log looks at the context. *)
Definition handleRegistrationComplete (text : bytes) : X (AmfState * W) unit :=
  _ ← ranUeNgapId text; mret tt.

Definition handlePduSessionRequest (text : bytes) : X (AmfState * W) unit :=
  ueId ← ranUeNgapId text;
  let ps := json.get text (str "pduSessionId") in
  pduSessId ← (match ps with [] => mret 1 | _ :: _ => liftX (or_throw (stoi ps)) end);
  let dnn := json.get text (str "dnn") in
  s ← xget;
  let supi := match ue_ctx s !! ueId with
              | Some c => ue_supi c
              | None => str "imsi-404100000000" ++ to_stringZ ueId
              end in
  ue_ip ← callSmf supi pduSessId dnn;
  let ue_ip := match ue_ip with [] => str "10.45.0.2" | _ :: _ => ue_ip end in
  sendToGnb (pdu_accept ueId pduSessId ue_ip dnn).

(** A turn of the receive loop. *)
Definition amf_message (payload : bytes) : X (AmfState * W) unit :=
  let text := n2Text payload in
  let msgType := json.get text (str "msgType") in
  pcap5 (writeAppText text IP_GNB5 PORT_N2 IP_AMF PORT_N2);;
  if bool_decide (msgType = str "RegistrationRequest") then handleRegistrationRequest text
  else if bool_decide (msgType = str "AuthenticationResponse") then handleAuthResponse text
  else if bool_decide (msgType = str "RegistrationComplete") then handleRegistrationComplete text
  else if bool_decide (msgType = str "PduSessionRequest") then handlePduSessionRequest text
  else mret tt.

(** Before the loop: register, then ask the NRF for the UDM and the SMF, with
    fallbacks. *)
Definition amf_start : X (AmfState * W) unit :=
  registerSelf (str "amf-1") (str "AMF") (getenv_or (str "AMF_SELF_HOST") (str "127.0.0.1")) PORT_N2;;
  udm ← discover (str "UDM");
  (if d_found udm then xmodify (set_udm (d_host udm) (d_port udm))
   else xmodify (set_udm (getenv_or (str "UDM_HOST") (str "127.0.0.1")) 29503));;
  smf ← discover (str "SMF");
  (if d_found smf then xmodify (set_smf (d_host smf) (d_port smf))
   else xmodify (set_smf (getenv_or (str "SMF_HOST") (str "127.0.0.1")) 29502)).

(** The inner loop of [main]: the frames of a connection, until none comes. *)
Fixpoint amf_connection (payloads : list bytes) : X (AmfState * W) unit :=
  match payloads with
  | [] => mret tt
  | payload :: payloads => amf_message payload;; amf_connection payloads
  end.

(** The outer loop: one connection after the other, over the same [ue_ctx]. *)
Fixpoint amf_connections (conns : list (list bytes)) : X (AmfState * W) unit :=
  match conns with
  | [] => mret tt
  | payloads :: conns => amf_connection payloads;; amf_connections conns
  end.

(** ** Lemmas *)

Definition to_gnb (text : bytes) (w : W) : W :=
  h_frame (n2Frame text) (h_pcap (writeAppText text IP_AMF PORT_N2 IP_GNB5 PORT_N2) w).

Lemma sendToGnb_runs (text : bytes) (s : AmfState) (w : W) :
  sendToGnb text (s, w) = (Returns tt, (s, to_gnb text w)).
Proof. reflexivity. Qed.

(** A call that reaches the UDM. *)
Lemma callUdm_runs (req resp : bytes) (m : HttpMessage) (ok : bool) (s : AmfState) (w w1 w2 : W) :
  h_connect (udmHost s) (udmPort s) w = (true, w1) ->
  h_exchange (udmHost s) (udmPort s) req
    (h_pcap (writeAppText req IP_AMF PORT_SBI IP_UDM PORT_SBI) w1) = (resp, w2) ->
  httpRecv resp = Some (ok, m) ->
  callUdm req (s, w)
  = (Returns m, (s, h_pcap (writeAppText (httpBuild (startLine m) (body m) [])
                              IP_UDM PORT_SBI IP_AMF PORT_SBI) w2)).
Proof.
  intros E1 E2 E3. unfold callUdm. run_x. rewrite E1. run_x. rewrite E2, E3. reflexivity.
Qed.

(** A call changes nothing of the AMF, and does not misbehave. *)
Lemma callUdm_state (req : bytes) (s : AmfState) (w : W) :
  exists o w', callUdm req (s, w) = (o, (s, w')) /\ o <> UB.
Proof.
  unfold callUdm. run_x. destruct (h_connect _ _ w) as [[] w1].
  - run_x. destruct (h_exchange _ _ _ _) as [resp w2].
    destruct (httpRecv resp) as [[ok m]|]; cbn [or_throw]; run_x;
      eexists _, _; (split; [reflexivity|discriminate]).
  - eexists _, _. split; [reflexivity|discriminate].
Qed.

(** C27. The AMF's decision on an Authentication Response: for a UE it does not
    know it does nothing; when RES* differs from the XRES* it keeps, the only
    thing it does is to send Registration Reject, without asking the UDM; only
    when they are equal does it ask the UDM and send Registration Accept.  No
    branch changes a context. *)
Theorem auth_response_decides (text : bytes) (n : Z) (s : AmfState) (w : W)
    (Hn : stoi (json.get text (str "ranUeNgapId")) = Some n) :
  let res := json.get text (str "resStar") in
  match ue_ctx s !! n with
  | None => handleAuthResponse text (s, w) = (Returns tt, (s, w))
  | Some c =>
      if decide (res = ue_xresStar c) then
        exists o w', callUdm (sdm_call (ue_supi c)) (s, w) = (o, (s, w'))
          /\ handleAuthResponse text (s, w)
             = match o with
               | Returns _ => (Returns tt, (s, to_gnb (accept_text n (guti n) (allowedNssai (ue_nssai c))) w'))
               | Throws => (Throws, (s, w'))
               | UB => (UB, (s, w'))
               end
      else
        handleAuthResponse text (s, w)
        = (Returns tt, (s, to_gnb (reject_text (json.num n) (str "authentication-failure")) w))
  end.
Proof.
  intros res. assert (R : ranUeNgapId text (s, w) = (Returns n, (s, w)))
    by (unfold ranUeNgapId; rewrite Hn; reflexivity).
  unfold handleAuthResponse.
  destruct (ue_ctx s !! n) as [c|] eqn:Hc.
  - destruct (decide (res = ue_xresStar c)) as [E|E].
    + destruct (callUdm_state (sdm_call (ue_supi c)) s w) as (o & w' & Ho & _).
      exists o, w'. split; [exact Ho|].
      rewrite X_bind_eq, R, X_bind_eq. cbn [xget]. rewrite Hc.
      rewrite bool_decide_eq_true_2 by exact E. cbn [negb]. rewrite X_bind_eq, Ho.
      destruct o; reflexivity.
    + rewrite X_bind_eq, R, X_bind_eq. cbn [xget]. rewrite Hc.
      rewrite bool_decide_eq_false_2 by exact E. reflexivity.
  - rewrite X_bind_eq, R, X_bind_eq. cbn [xget]. rewrite Hc. reflexivity.
Qed.

(** The messages the AMF knows. *)
Definition known (msgType : bytes) : Prop :=
  msgType = str "RegistrationRequest" \/ msgType = str "AuthenticationResponse"
  \/ msgType = str "RegistrationComplete" \/ msgType = str "PduSessionRequest".

(** One malformed message ends the AMF: a text of any known type whose
    [ranUeNgapId] is missing or no number makes the handler throw, and nothing
    in the receive loop catches it; the contexts of all UEs are lost with the
    process. *)
Theorem amf_malformed_throws (text : bytes) (s : AmfState) (w : W)
    (Ht : known (json.get text (str "msgType")))
    (Hn : stoi (json.get text (str "ranUeNgapId")) = None) :
  exists w', amf_message text (s, w) = (Throws, (s, w')).
Proof.
  assert (R : forall w, ranUeNgapId text (s, w) = (Throws, (s, w)))
    by (intros w0; unfold ranUeNgapId; rewrite Hn; reflexivity).
  unfold amf_message, n2Text. run_x. eexists.
  destruct Ht as [E|[E|[E|E]]]; rewrite E;
    repeat (rewrite (bool_decide_eq_false_2 (_ = _)) by discriminate);
    rewrite bool_decide_eq_true_2 by reflexivity;
    unfold handleRegistrationRequest, handleAuthResponse, handleRegistrationComplete,
      handlePduSessionRequest; rewrite X_bind_eq, R; reflexivity.
Qed.

(** Connections leave no trace: whatever gNBs send over however many
    connections, the AMF does what it does when all of it comes over one. *)
Theorem amf_connections_joined (conns : list (list bytes)) (t : AmfState * W) :
  amf_connections conns t = amf_connection (concat conns) t.
Proof.
  revert t. induction conns as [|c conns IH]; intros t; [reflexivity|]. cbn [amf_connections concat].
  revert t. induction c as [|p c IHc]; intros t.
  - cbn [amf_connection app]. rewrite X_bind_eq, X_ret_eq. apply IH.
  - cbn [amf_connection app]. rewrite !X_bind_eq. destruct (amf_message p t) as [[[]| |] t']; [|reflexivity..].
    rewrite <- IHc, X_bind_eq. reflexivity.
Qed.

End Amf.

(** ** Concrete runs *)

Definition sample_amf : AmfState :=
  set_ctx 7 (mkUe5 (str "suci") (str "imsi-1") (str "aabb") []) newAmf.

Definition sample_response : bytes :=
  json.obj [(str "ranUeNgapId", json.num 7); (str "resStar", json.str (str "aabc"))].

Lemma auth_response_decides_witness :
  stoi (json.get sample_response (str "ranUeNgapId")) = Some 7
  /\ @handleAuthResponse (list bytes) _ no_environ sample_response (sample_amf, [])
     = (Returns tt, (sample_amf,
          [n2Frame (reject_text (json.num 7) (str "authentication-failure"))])).
Proof.
  split; [vm_compute; reflexivity|].
  pose proof (@auth_response_decides (list bytes) _ no_environ sample_response 7 sample_amf []
                ltac:(vm_compute; reflexivity)) as H.
  vm_compute in H. vm_compute. exact H.
Defined.

Definition sample_malformed : bytes :=
  json.obj [(str "msgType", json.str (str "RegistrationComplete"))].

Lemma amf_malformed_throws_witness :
  exists w', @amf_message (list bytes) _ no_environ sample_malformed (sample_amf, [])
  = (Throws, (sample_amf, w')).
Proof.
  apply (@amf_malformed_throws (list bytes) _ no_environ sample_malformed sample_amf []).
  - right. right. left. vm_compute. reflexivity.
  - vm_compute. reflexivity.
Defined.
