(* ===== verification/Gnb.v ===== *)
(** * The gNB and its UEs

    [doRegistration] and [doPduSession] of
    [5g-simulator/src/gnb/gnb_main.cpp]: straight-line procedures over the N2
    connection.  They return nothing; the model returns where they end. *)

From S2P Require Import Prelude Text Strings Json Http Sbi Aka5g.
#[local] Open Scope Z_scope.

(** Where [doRegistration] and [doPduSession] return. *)
Inductive RegEnd : Type :=
| RegClosed
| RegUnexpected (text : bytes)
| RegRejected (cause : bytes)
| RegFinished (guti : bytes).

Inductive PduEnd : Type :=
| PduClosed
| PduUnexpected (text : bytes)
| PduEstablished (ue_ip upf_ip upf_teid : bytes).

(** ** Messages *)

Definition nssai_text (sst : Z) (sd : bytes) : bytes :=
  quotes "{'sst':" ++ to_stringZ sst ++ quotes ",'sd':'" ++ sd ++ quotes "'}".

(** The slice a registration asks for. *)
Definition slice_nssai (slice : bytes) : bytes :=
  let sst := if bool_decide (slice = str "urllc") then 2 else 1 in
  let sd := if sst =? 2 then str "000002" else str "000001" in
  nssai_text sst sd.

Definition reg_request (ueId : Z) (suci nssai : bytes) : bytes :=
  json.obj [(str "msgType", json.str (str "RegistrationRequest"));
            (str "ranUeNgapId", json.num ueId);
            (str "suci", json.str suci);
            (str "registrationType", json.str (str "initial"));
            (str "requestedNssai", json.str nssai)].

Definition auth_response (ueId : Z) (resStar : bytes) : bytes :=
  json.obj [(str "msgType", json.str (str "AuthenticationResponse"));
            (str "ranUeNgapId", json.num ueId);
            (str "resStar", json.str resStar)].

Definition reg_complete (ueId : Z) : bytes :=
  json.obj [(str "msgType", json.str (str "RegistrationComplete"));
            (str "ranUeNgapId", json.num ueId)].

Definition pdu_request (ueId pduSessId : Z) (dnn : bytes) : bytes :=
  json.obj [(str "msgType", json.str (str "PduSessionRequest"));
            (str "ranUeNgapId", json.num ueId);
            (str "pduSessionId", json.num pduSessId);
            (str "dnn", json.str dnn);
            (str "sNssai", json.str (quotes "{'sst':1,'sd':'000001'}"))].

Section Gnb.
Context {S W : Type} `{Host W} `{Environ}.

(** ** Procedures *)

(** [doRegistration] for a UE that claims a SUCI and holds a key. *)
Definition registration (ueId : Z) (suci k nssai : bytes) : X (S * W) RegEnd :=
  sendFrame5 (n2Frame (reg_request ueId suci nssai));;
  payload ← recvFrame5;
  match payload with
  | None => mret RegClosed
  | Some payload =>
      let text := n2Text payload in
      if negb (bool_decide (json.get text (str "msgType") = str "AuthenticationRequest")) then
        mret (RegUnexpected text)
      else
        let rand := json.get text (str "rand") in
        resStar ← liftX (byteXor rand k);
        sendFrame5 (n2Frame (auth_response ueId resStar));;
        payload ← recvFrame5;
        match payload with
        | None => mret RegClosed
        | Some payload =>
            let text := n2Text payload in
            let msgType := json.get text (str "msgType") in
            if bool_decide (msgType = str "RegistrationReject") then
              mret (RegRejected (json.get text (str "cause")))
            else if negb (bool_decide (msgType = str "RegistrationAccept")) then
              mret (RegUnexpected text)
            else
              let guti := json.get text (str "5gGuti") in
              sendFrame5 (n2Frame (reg_complete ueId));;
              mret (RegFinished guti)
        end
  end.

(** The UE of that number, with its own identity and key. *)
Definition doRegistration (ueId : Z) (slice : bytes) : X (S * W) RegEnd :=
  registration ueId (suci ueId) (kFor (msin ueId)) (slice_nssai slice).

Definition doPduSession (ueId pduSessId : Z) (dnn : bytes) : X (S * W) PduEnd :=
  sendFrame5 (n2Frame (pdu_request ueId pduSessId dnn));;
  payload ← recvFrame5;
  match payload with
  | None => mret PduClosed
  | Some payload =>
      let text := n2Text payload in
      if negb (bool_decide (json.get text (str "msgType") = str "PduSessionAccept")) then
        mret (PduUnexpected text)
      else
        mret (PduEstablished (json.get text (str "ueIpAddress")) (json.get text (str "upfIp"))
                (json.get text (str "upfTeid")))
  end.

End Gnb.

(** ** What the AMF reads in the gNB's messages *)

Section Read.
Context `{Environ}.


Lemma read_reg_request (ueId : Z) (su nssai : bytes) :
  noquote su ->
  let text := reg_request ueId su nssai in
  json.get text (str "msgType") = str "RegistrationRequest"
  /\ json.get text (str "ranUeNgapId") = json.num ueId
  /\ json.get text (str "suci") = su
  /\ json.get text (str "requestedNssai") = json_value (json.str nssai ++ [125]).
Proof.
  intros Hs. unfold reg_request. cbv zeta. repeat apply conj.
  - json_front 4%nat. reflexivity.
  - json_front 4%nat. reflexivity.
  - json_front 4%nat. reflexivity.
  - apply (get_last (MCons (str "msgType") (JStr (str "RegistrationRequest"))
             (MCons (str "ranUeNgapId") (JTok (json.num ueId))
                (MCons (str "suci") (JStr su)
                   (MCons (str "registrationType") (JStr (str "initial")) MNil))))).
    + cbn [wf_mem wf_val]. repeat split; auto 20 with json.
    + reflexivity.
    + reflexivity.
Qed.

(** The slice text is cut at its first quote: one brace is left of it. *)
Lemma slice_cut (slice : bytes) :
  json_value (json.str (slice_nssai slice) ++ [125]) = str "{".
Proof. unfold slice_nssai. destruct (bool_decide _); reflexivity. Qed.

Lemma read_auth_response (ueId : Z) (r : bytes) :
  noquote r ->
  json.get (auth_response ueId r) (str "msgType") = str "AuthenticationResponse"
  /\ json.get (auth_response ueId r) (str "ranUeNgapId") = json.num ueId
  /\ json.get (auth_response ueId r) (str "resStar") = r.
Proof. intros Hr. unfold auth_response. repeat apply conj; json_get; reflexivity. Qed.

Lemma read_reg_complete (ueId : Z) :
  json.get (reg_complete ueId) (str "msgType") = str "RegistrationComplete"
  /\ json.get (reg_complete ueId) (str "ranUeNgapId") = json.num ueId.
Proof. unfold reg_complete. apply conj; json_get; reflexivity. Qed.

Lemma read_pdu_request (ueId psi : Z) (dnn : bytes) :
  noquote dnn ->
  let text := pdu_request ueId psi dnn in
  json.get text (str "msgType") = str "PduSessionRequest"
  /\ json.get text (str "ranUeNgapId") = json.num ueId
  /\ json.get text (str "pduSessionId") = json.num psi
  /\ json.get text (str "dnn") = dnn.
Proof. intros Hd. unfold pdu_request. cbv zeta. repeat apply conj; json_front 4%nat; reflexivity. Qed.

End Read.
