(* ===== verification/Core5g.v ===== *)
(** * The 5G core as a system

    AMF, UDM, SMF and UPF closed into one world behind the gNB's N2
    connection: the AMF's HTTP calls run the turns of the servers, the SMF's
    datagrams run the turn of the UPF, and a frame of the gNB runs the turn of
    the AMF.  The servers answer one connection at a time, so a call is
    complete before the caller goes on.  The capture file is left out. *)

From S2P Require Import Prelude Text Strings Json Http Sbi Aka5g Udm Pfcp Smf Upf5g Amf Gnb.
#[local] Open Scope Z_scope.

(** ** Worlds *)

(** What surrounds the UPF: nothing it waits for. *)
#[export] Instance UpfHost : Host unit := {
  h_connect _ _ w := (false, w); h_exchange _ _ _ w := ([], w); h_frame _ w := w;
  h_recv w := (None, w); h_udp _ _ _ w := w; h_pcap _ w := w;
  h_chaos _ := false; h_rand w := (0, w); h_device w := (0, w)
}.

(** What surrounds the SMF: the UPF behind its datagrams. *)
#[export] Instance SmfHost : Host UpfState := {
  h_connect _ _ w := (false, w); h_exchange _ _ _ w := ([], w); h_frame _ w := w;
  h_recv w := (None, w);
  h_udp buf _ _ w := fst (snd (upf_turn buf (w, tt)));
  h_pcap _ w := w; h_chaos _ := false; h_rand w := (0, w); h_device w := (0, w)
}.

(** What surrounds the UDM: the random device, a stream of numbers. *)
#[export] Instance UdmHost : Host (list Z) := {
  h_connect _ _ w := (false, w); h_exchange _ _ _ w := ([], w); h_frame _ w := w;
  h_recv w := (None, w); h_udp _ _ _ w := w; h_pcap _ w := w;
  h_chaos _ := false; h_rand w := (0, w);
  h_device w := (hd 0 w, tl w)
}.

(** What surrounds the AMF: the servers and the way back to the gNB. *)
Record CoreW : Type := mkCore {
  c_device : list Z;
  c_smf : SmfState;
  c_upf : UpfState;
  c_chaos : bool;
  c_rand : list Z;
  c_toGnb : list bytes     (** frames the gNB has not received yet *)
}.

Section System.
Context `{Environ}.

Definition call_udm (req : bytes) (w : CoreW) : bytes * CoreW :=
  match udm_turn req (tt, c_device w) with
  | (o, (_, d)) =>
      (match o with Returns b => b | _ => [] end,
       mkCore d (c_smf w) (c_upf w) (c_chaos w) (c_rand w) (c_toGnb w))
  end.

Definition call_smf (req : bytes) (w : CoreW) : bytes * CoreW :=
  match handleOne req (c_smf w, c_upf w) with
  | (o, (s, u)) =>
      (match o with Returns b => b | _ => [] end,
       mkCore (c_device w) s u (c_chaos w) (c_rand w) (c_toGnb w))
  end.

#[export] Instance AmfHost : Host CoreW := {
  h_connect _ port w := ((port =? 29503) || (port =? 29502), w);
  h_exchange _ port req w := if port =? 29503 then call_udm req w else call_smf req w;
  h_frame f w := mkCore (c_device w) (c_smf w) (c_upf w) (c_chaos w) (c_rand w) (c_toGnb w ++ [f]);
  h_recv w := (None, w); h_udp _ _ _ w := w; h_pcap _ w := w;
  h_chaos w := c_chaos w;
  h_rand w := (hd 0 (c_rand w),
               mkCore (c_device w) (c_smf w) (c_upf w) (c_chaos w) (tl (c_rand w)) (c_toGnb w));
  h_device w := (0, w)
}.

(** What surrounds the gNB: the AMF's process, until it ends. *)
Record GnbW : Type := mkGnbW {
  g_amf : AmfState;
  g_core : CoreW;
  g_alive : bool
}.

(** The payload of a frame. *)
Definition payload_of (frame : bytes) : bytes := drop 4 frame.

Definition amf_receive (frame : bytes) (w : GnbW) : GnbW :=
  if g_alive w then
    match amf_message (payload_of frame) (g_amf w, g_core w) with
    | (Returns _, (a, c)) => mkGnbW a c true
    | (_, (a, c)) => mkGnbW a c false
    end
  else w.

Definition gnb_receive (w : GnbW) : option bytes * GnbW :=
  match c_toGnb (g_core w) with
  | [] => (None, w)
  | f :: l =>
      let c := g_core w in
      (Some (payload_of f),
       mkGnbW (g_amf w) (mkCore (c_device c) (c_smf c) (c_upf c) (c_chaos c) (c_rand c) l) (g_alive w))
  end.

#[export] Instance GnbHost : Host GnbW := {
  h_connect _ _ w := (true, w); h_exchange _ _ _ w := ([], w);
  h_frame f w := amf_receive f w;
  h_recv w := gnb_receive w;
  h_udp _ _ _ w := w; h_pcap _ w := w;
  h_chaos _ := false; h_rand w := (0, w); h_device w := (0, w)
}.

(** ** The servers' answers, as the AMF reads them *)

Lemma payload_n2 (text : bytes) : payload_of (n2Frame text) = text.
Proof. reflexivity. Qed.

Lemma plmn_domain_word : plmn_ok -> word_text plmnDomain.
Proof.
  intros [Hc Hn]. unfold plmnDomain. destruct (length mnc =? 2)%nat; [|auto 10 with words].
  change (48 :: mnc) with (str "0" ++ mnc). auto 10 with words.
Qed.

Lemma network_word : plmn_ok -> word_text network.
Proof. intros Hp. unfold network. pose proof (plmn_domain_word Hp). auto with words. Qed.

Definition plmn_short : Prop := (length mcc <= 1000)%nat /\ (length mnc <= 1000)%nat.

Lemma domain_length : plmn_short -> (length network <= 3000)%nat.
Proof.
  intros [Hc Hn]. unfold network, plmnDomain.
  destruct (length mnc =? 2)%nat; repeat (rewrite ?length_app; cbn [length app]);
    repeat match goal with
           | |- context [length (str ?s)] =>
               let n := eval vm_compute in (length (str s)) in change (length (str s)) with n
           end; lia.
Qed.

Lemma supi_length (n : Z) : plmn_short -> 0 <= n < 2 ^ 31 -> (length (supi n) <= 2015)%nat.
Proof.
  intros [Hc Hn] H1. unfold supi. rewrite !length_app, msin_length by exact H1.
  change (length (str "imsi-")) with 5%nat. lia.
Qed.

(** The UDM's answer to an authentication call. *)
Lemma udm_auth (id : bytes) (n : Z) (d : list Z) :
  plmn_ok -> plmn_short -> 0 <= n -> id = suci n ->
  exists v a k d', udm_turn (auth_call id) (tt, d)
    = (Returns (httpBuild (str "HTTP/1.1 200 OK")
                  (auth_body (supi n) (toHex v) (toHex a) (response v) (toHex k)) []), (tt, d'))
    /\ is_bytes v /\ is_bytes a /\ is_bytes k
    /\ length v = 16%nat /\ length a = 16%nat /\ length k = 32%nat.
Proof.
  intros Hp Hs Hn ->. pose proof (suci_word n Hp Hn) as Hw. pose proof (network_word Hp) as Hnet.
  unfold udm_turn, auth_call. rewrite X_bind_eq. cbn [liftX].
  rewrite httpRecv_built;
    [|discriminate|auto 10 with words|auto 10 with words|pose proof (domain_length Hs); body_len].
  cbn [or_throw]. unfold udm_request. cbn [startLine].
  replace (str "POST /nudm-ueau/v2/" ++ suci n ++ str "/security-information/generate-auth-data HTTP/1.1")
    with (str "POST" ++ 32 :: (str "/nudm-ueau/v2/" ++ suci n
            ++ str "/security-information/generate-auth-data") ++ 32 :: str "HTTP/1.1")
    by (rewrite <- !app_assoc; reflexivity).
  rewrite request_line_words; [|discriminate|auto with words|discriminate|auto 10 with words].
  destruct (auth_path (suci n) Hw) as [-> ->]; [discriminate|].
  apply handleAuthDataRequest_returns. exact Hn.
Qed.

(** The UDM's answer to a subscription call. *)
Lemma udm_sdm (n : Z) (d : list Z) :
  plmn_ok -> plmn_short -> 0 <= n ->
  udm_turn (sdm_call (supi n)) (tt, d)
  = (Returns (httpBuild (str "HTTP/1.1 200 OK") (sdm_body (supi n)) []), (tt, d)).
Proof.
  intros Hp Hs Hn. pose proof (supi_word n Hp Hn) as Hw. pose proof (network_word Hp) as Hnet.
  unfold udm_turn, sdm_call. rewrite X_bind_eq. cbn [liftX].
  rewrite httpRecv_built; [|discriminate|auto 10 with words|auto 10 with words|reflexivity].
  cbn [or_throw]. unfold udm_request. cbn [startLine].
  replace (str "GET /nudm-sdm/v2/" ++ supi n ++ str "/am-data HTTP/1.1")
    with (str "GET" ++ 32 :: (str "/nudm-sdm/v2/" ++ supi n ++ str "/am-data") ++ 32 :: str "HTTP/1.1")
    by (rewrite <- !app_assoc; reflexivity).
  rewrite request_line_words; [|discriminate|auto with words|discriminate|auto 10 with words].
  destruct (sdm_path (supi n) Hw) as (-> & -> & ->); [discriminate|discriminate|]. reflexivity.
Qed.

(** ** The AMF on the gNB's messages *)

Definition wf_amf (s : AmfState) : Prop := udmPort s = 29503 /\ smfPort s = 29502.

Definition push (text : bytes) (w : CoreW) : CoreW :=
  mkCore (c_device w) (c_smf w) (c_upf w) (c_chaos w) (c_rand w) (c_toGnb w ++ [n2Frame text]).
Definition set_device (d : list Z) (w : CoreW) : CoreW :=
  mkCore d (c_smf w) (c_upf w) (c_chaos w) (c_rand w) (c_toGnb w).

Lemma or_throw_num (n : Z) : - 2 ^ 31 <= n < 2 ^ 31 -> or_throw (stoi (json.num n)) = Returns n.
Proof. intros Hn. unfold json.num. rewrite stoi_to_stringZ by exact Hn. reflexivity. Qed.

Lemma ranUeNgapId_runs (text : bytes) (n : Z) (t : AmfState * CoreW) :
  json.get text (str "ranUeNgapId") = json.num n -> - 2 ^ 31 <= n < 2 ^ 31 ->
  ranUeNgapId text t = (Returns n, t).
Proof. intros E Hn. unfold ranUeNgapId. rewrite E, or_throw_num by exact Hn. reflexivity. Qed.

(** The identity of a subscriber, and what the AMF keeps of him. *)
Definition pending (n : Z) (v : bytes) : UeContext5 := mkUe5 (suci n) (supi n) (response v) (str "{").

Lemma amf_reg_request (ueId n : Z) (slice : bytes) (s : AmfState) (w : CoreW) :
  plmn_ok -> plmn_short -> 0 <= n < 2 ^ 31 -> - 2 ^ 31 <= ueId < 2 ^ 31 -> wf_amf s -> c_chaos w = false ->
  exists v a d, is_bytes v /\ is_bytes a
    /\ amf_message (reg_request ueId (suci n) (slice_nssai slice)) (s, w)
       = (Returns tt, (set_ctx ueId (pending n v) s,
                       push (auth_request ueId (toHex v) (toHex a)) (set_device d w))).
Proof.
  intros Hp Hs Hn Hu [Hudm _] Hch.
  pose proof (suci_word n Hp (proj1 Hn)) as Hw. pose proof (supi_word n Hp (proj1 Hn)) as Hw'.
  destruct (read_reg_request ueId (suci n) (slice_nssai slice)) as (R1 & R2 & R3 & R4);
    [auto with json|]. rewrite slice_cut in R4.
  destruct (udm_auth (suci n) n (c_device w) Hp Hs (proj1 Hn) eq_refl)
    as (v & a & k & d & E & Hv & Ha & Hk & Lv & La & Lk).
  exists v, a, d. split; [exact Hv|]. split; [exact Ha|].
  unfold amf_message, n2Text. rewrite R1. run_x.
  rewrite bool_decide_eq_true_2 by reflexivity. unfold handleRegistrationRequest. rewrite R3, R4.
  rewrite X_bind_eq, (ranUeNgapId_runs _ ueId _ R2 Hu), X_bind_eq.
  cbn [rollDrop5 h_chaos AmfHost h_pcap]. rewrite Hch, X_bind_eq.
  erewrite callUdm_runs; cycle 1.
  - cbn [h_connect AmfHost]. rewrite Hudm. reflexivity.
  - cbn [h_exchange h_pcap AmfHost]. rewrite Hudm. unfold call_udm. change (29503 =? 29503) with true.
    rewrite E. reflexivity.
  - apply httpRecv_built; [discriminate|auto with words|constructor|].
    pose proof (supi_length n Hs Hn). pose proof (toHex_length v). pose proof (toHex_length a).
    pose proof (toHex_length k). pose proof (response_length v). unfold auth_body. body_len.
  - cbn [body]. unfold auth_body. repeat json_get. reflexivity.
Qed.

Lemma amf_auth_response (ueId n : Z) (v : bytes) (s : AmfState) (w : CoreW) :
  plmn_ok -> plmn_short -> 0 <= n < 2 ^ 31 -> - 2 ^ 31 <= ueId < 2 ^ 31 -> wf_amf s ->
  is_bytes v -> ue_ctx s !! ueId = Some (pending n v) ->
  amf_message (auth_response ueId (response v)) (s, w)
  = (Returns tt, (s, push (accept_text ueId (guti ueId) (allowedNssai (str "{"))) w)).
Proof.
  intros Hp Hs Hn Hu [Hudm _] Hv Hc.
  destruct (read_auth_response ueId (response v)) as (R1 & R2 & R3); [auto with json|].
  pose proof (udm_sdm n (c_device w) Hp Hs (proj1 Hn)) as E.
  unfold amf_message, n2Text. rewrite R1. run_x.
  rewrite (bool_decide_eq_false_2 (str "AuthenticationResponse" = str "RegistrationRequest"))
    by discriminate.
  rewrite bool_decide_eq_true_2 by reflexivity. unfold handleAuthResponse. rewrite R3.
  rewrite X_bind_eq, (ranUeNgapId_runs _ ueId _ R2 Hu), X_bind_eq. cbn [xget]. rewrite Hc.
  cbn [pending ue_xresStar ue_supi ue_nssai]. rewrite bool_decide_eq_true_2 by reflexivity.
  cbn [negb]. rewrite X_bind_eq. erewrite callUdm_runs; cycle 1.
  - cbn [h_connect AmfHost]. rewrite Hudm. reflexivity.
  - cbn [h_exchange h_pcap AmfHost]. rewrite Hudm. unfold call_udm. change (29503 =? 29503) with true.
    rewrite E. reflexivity.
  - apply httpRecv_built; [discriminate|auto with words|constructor|].
    pose proof (supi_length n Hs Hn). unfold sdm_body. body_len.
  - destruct w. reflexivity.
Qed.

Lemma amf_reg_complete (ueId : Z) (s : AmfState) (w : CoreW) :
  - 2 ^ 31 <= ueId < 2 ^ 31 -> amf_message (reg_complete ueId) (s, w) = (Returns tt, (s, w)).
Proof.
  intros Hu. destruct (read_reg_complete ueId) as (R1 & R2).
  unfold amf_message, n2Text. rewrite R1. run_x.
  rewrite (bool_decide_eq_false_2 (str "RegistrationComplete" = str "RegistrationRequest")) by discriminate.
  rewrite (bool_decide_eq_false_2 (str "RegistrationComplete" = str "AuthenticationResponse")) by discriminate.
  rewrite bool_decide_eq_true_2 by reflexivity. unfold handleRegistrationComplete.
  rewrite X_bind_eq, (ranUeNgapId_runs _ ueId _ R2 Hu). reflexivity.
Qed.

(** ** Procedures *)

(** A frame of the gNB that the AMF handles, and the answer it queues. *)
Lemma gnb_sends (text : bytes) (g : GnbW) (a : AmfState) (c : CoreW) {S} (s : S) :
  g_alive g = true -> amf_message text (g_amf g, g_core g) = (Returns tt, (a, c)) ->
  sendFrame5 (n2Frame text) (s, g) = (Returns tt, (s, mkGnbW a c true)).
Proof.
  intros Hg E. cbn [sendFrame5 h_frame GnbHost]. unfold amf_receive.
  rewrite Hg, payload_n2, E. reflexivity.
Qed.

(** The gNB takes the only frame of the queue. *)
Lemma gnb_gets (text : bytes) (a : AmfState) (c : CoreW) {S} (s : S) :
  c_toGnb c = [] ->
  recvFrame5 (s, mkGnbW a (push text c) true) = (Returns (Some text), (s, mkGnbW a c true)).
Proof.
  intros Hc. cbn [recvFrame5 h_recv GnbHost]. unfold gnb_receive. cbn [g_core push c_toGnb].
  rewrite Hc. cbn [app]. rewrite payload_n2. destruct c. cbn in *. subst. reflexivity.
Qed.

Lemma read_auth_request (ueId : Z) (r a : bytes) :
  noquote r -> noquote a ->
  json.get (auth_request ueId r a) (str "msgType") = str "AuthenticationRequest"
  /\ json.get (auth_request ueId r a) (str "rand") = r.
Proof. intros. unfold auth_request. apply conj; json_get; reflexivity. Qed.

Lemma read_accept (ueId : Z) (gu al : bytes) :
  noquote gu ->
  json.get (accept_text ueId gu al) (str "msgType") = str "RegistrationAccept"
  /\ json.get (accept_text ueId gu al) (str "5gGuti") = gu.
Proof. intros. unfold accept_text. apply conj; json_front 3%nat; reflexivity. Qed.

Definition at_rest (g : GnbW) : Prop :=
  g_alive g = true /\ wf_amf (g_amf g) /\ c_chaos (g_core g) = false /\ c_toGnb (g_core g) = [].

Lemma guti_noquote (ueId : Z) : plmn_ok -> noquote (guti ueId).
Proof.
  intros [Hc Hn]. unfold guti.
  assert (noquote (setw 5 (to_stringZ ueId))).
  { apply Forall_app. split.
    - apply List.Forall_forall. intros x Hx. apply repeat_spec in Hx. lia.
    - eapply List.Forall_impl; [|apply to_stringZ_chars]. unfold is_digit. cbn. lia. }
  auto 20 with json.
Qed.

(** The registration of a UE that claims the identity of subscriber [n] and
    holds any subscriber's key. *)
Lemma registration_runs (ueId n : Z) (m slice : bytes) (g : GnbW) {S} (s : S) :
  plmn_ok -> plmn_short -> 0 <= n < 2 ^ 31 -> - 2 ^ 31 <= ueId < 2 ^ 31 -> at_rest g ->
  exists v d, is_bytes v
    /\ registration ueId (suci n) (kFor m) (slice_nssai slice) (s, g)
       = (Returns (RegFinished (guti ueId)),
          (s, mkGnbW (set_ctx ueId (pending n v) (g_amf g)) (set_device d (g_core g)) true)).
Proof.
  intros Hp Hs Hn Hu (Hal & Hwf & Hch & Hq).
  destruct (amf_reg_request ueId n slice (g_amf g) (g_core g) Hp Hs Hn Hu Hwf Hch)
    as (v & a & d & Hv & Ha & E1).
  exists v, d. split; [exact Hv|].
  set (s1 := set_ctx ueId (pending n v) (g_amf g)) in *. set (c1 := set_device d (g_core g)) in *.
  assert (Hq1 : c_toGnb c1 = []) by exact Hq.
  assert (E2 : amf_message (auth_response ueId (response v)) (s1, c1)
               = (Returns tt, (s1, push (accept_text ueId (guti ueId) (allowedNssai (str "{"))) c1))).
  { apply amf_auth_response with n; auto; try exact Hwf. unfold s1. cbn. apply lookup_insert_eq. }
  destruct (read_auth_request ueId (toHex v) (toHex a)) as [R1 R2]; [auto with json..|].
  destruct (read_accept ueId (guti ueId) (allowedNssai (str "{")) (guti_noquote ueId Hp)) as [R3 R4].
  unfold registration. rewrite X_bind_eq, (gnb_sends _ _ _ _ _ Hal E1).
  rewrite X_bind_eq, (gnb_gets _ _ _ _ Hq1). unfold n2Text. rewrite R1, R2.
  rewrite bool_decide_eq_true_2 by reflexivity. cbn [negb].
  rewrite X_bind_eq. cbn [liftX]. rewrite byteXor_response by exact Hv.
  rewrite X_bind_eq, (gnb_sends _ (mkGnbW s1 c1 true) _ _ _ eq_refl E2).
  rewrite X_bind_eq, (gnb_gets _ _ _ _ Hq1). rewrite R3, R4.
  rewrite (bool_decide_eq_false_2 (str "RegistrationAccept" = str "RegistrationReject")) by discriminate.
  rewrite bool_decide_eq_true_2 by reflexivity. cbn [negb].
  rewrite X_bind_eq, (gnb_sends _ (mkGnbW s1 c1 true) _ _ _ eq_refl (amf_reg_complete ueId s1 c1 Hu)).
  reflexivity.
Qed.

(** ** Session set-up *)

Lemma read_session_call_body (su dnn : bytes) (psi : Z) :
  noquote su -> noquote dnn ->
  let text := json.obj [(str "supi", json.str su);
               (str "pduSessionId", json.num psi);
               (str "dnn", json.str (or_internet dnn));
               (str "snssai", json.str (quotes "{'sst':1,'sd':'000001'}"));
               (str "servingNssai", json.str (str "5G:mnc010.mcc404.3gppnetwork.org"));
               (str "anType", json.str (str "3GPP_ACCESS"))] in
  json.get text (str "supi") = su
  /\ json.get text (str "pduSessionId") = json.num psi
  /\ json.get text (str "dnn") = or_internet dnn.
Proof.
  intros Hs Hd. assert (noquote (or_internet dnn)) by (destruct dnn; auto with json).
  cbv zeta. repeat apply conj; json_front 3%nat; reflexivity.
Qed.

Lemma ue_address_noquote (n : Z) : noquote (ue_address n).
Proof.
  rewrite ue_address_mod. unfold ip_str.
  assert (0 <= n / 256 mod 256 /\ 0 <= n mod 256) by (split; apply Z.mod_pos_bound; lia).
  repeat apply noquote_app; try apply to_string_noquote; try lia; apply noquote_lit; reflexivity.
Qed.

Lemma ue_address_length (n : Z) : (0 < length (ue_address n) <= 20)%nat.
Proof.
  rewrite ue_address_mod. unfold ip_str.
  assert (0 <= n / 256 mod 256 < 256 /\ 0 <= n mod 256 < 256) by (split; apply Z.mod_pos_bound; lia).
  pose proof (to_string_length_le (n / 256 mod 256) 2).
  pose proof (to_string_length_le (n mod 256) 2).
  repeat (rewrite ?length_app; cbn [length app]).
  change (length (to_string 10)) with 2%nat. change (length (to_string 45)) with 2%nat. cbn in *. lia.
Qed.

Lemma num_length (n : Z) : - 2 ^ 31 <= n < 2 ^ 31 -> (length (to_stringZ n) <= 11)%nat.
Proof.
  intros Hn. change (2 ^ 31) with 2147483648 in Hn. unfold to_stringZ. destruct (Z.ltb_spec n 0).
  - cbn [length]. pose proof (to_string_length_le (- n) 9). cbn in *. lia.
  - pose proof (to_string_length_le n 9). cbn in *. lia.
Qed.

Definition session_ref (su : bytes) : bytes := sm_context_ref su.

Lemma sm_context_ref_noquote (su : bytes) : noquote su -> noquote (sm_context_ref su).
Proof.
  intros Hs. apply noquote_app; [apply noquote_lit; reflexivity|]. apply Forall_drop. exact Hs.
Qed.

Lemma sm_context_ref_length (su : bytes) : (length (sm_context_ref su) <= 40)%nat.
Proof.
  unfold sm_context_ref. rewrite length_app, length_drop.
  change (length (str "/nsmf-pdusession/v1/sm-contexts/ue-")) with 35%nat.
  destruct (5 <? length su)%nat eqn:E; [|apply Nat.ltb_ge in E]; lia.
Qed.

(** A text of the limits of a DNN and of a SUPI. *)
Definition limited (l : bytes) : Prop := (length l <= 5000)%nat.

Lemma or_internet_props (dnn : bytes) :
  noquote dnn -> limited dnn -> noquote (or_internet dnn) /\ limited (or_internet dnn).
Proof.
  intros H1 H2. destruct dnn; [|auto]. split; [apply noquote_lit; reflexivity|].
  unfold limited. change (length (or_internet [])) with 8%nat. lia.
Qed.

Definition add_pfcp (u : UpfState) : UpfState := add_session (mkSession 0 (s_up_seid_counter u) 1 1) u.

(** The SMF on the AMF's session call. *)
Lemma smf_session (su dnn : bytes) (psi : Z) (s : SmfState) (u : UpfState) :
  noquote su -> noquote dnn -> limited su -> limited dnn -> - 2 ^ 31 <= psi < 2 ^ 31 ->
  handleOne (session_call su psi dnn) (s, u)
  = (Returns (session_response (sm_context_ref su)
                (session_body (sm_context_ref su) (ue_address (s_ue_ip_counter s)) psi (or_internet dnn))),
     (session_state s, add_pfcp u)).
Proof.
  intros Hs Hd Ls Ld Hpsi. destruct (or_internet_props dnn Hd Ld) as [Hi Li].
  destruct (read_session_call_body su dnn psi Hs Hd) as (R1 & R2 & R3).
  pose proof (num_length psi Hpsi). unfold handleOne, session_call. rewrite X_bind_eq. cbn [liftX].
  rewrite httpRecv_built; [|discriminate|auto with words|auto with words|unfold limited in *; body_len].
  cbn [or_throw negb startLine body]. rewrite R1, R2, R3.
  change (contains (str "POST") _) with true. change (contains (str "sm-contexts") _) with true.
  cbn [negb orb]. pose proof (to_stringZ_nonempty psi) as Hne.
  rewrite X_bind_eq. unfold json.num. destruct (to_stringZ psi) as [|c l] eqn:Ep; [contradiction|].
  rewrite <- Ep, stoi_to_stringZ by exact Hpsi. cbn [or_throw liftX].
  rewrite X_bind_eq. unfold allocateUeIp. run_x. rewrite setupN4Session_runs. run_x.
  unfold n4_world, n4_request. cbn [h_pcap h_udp SmfHost]. rewrite upf_turn_request. reflexivity.
Qed.

Definition set_session (w : CoreW) : CoreW :=
  mkCore (c_device w) (session_state (c_smf w)) (add_pfcp (c_upf w)) (c_chaos w) (c_rand w) (c_toGnb w).

(** The AMF's session call gives the address of the SMF's next session. *)
Lemma amf_call_smf (su dnn : bytes) (psi : Z) (s : AmfState) (w : CoreW) :
  word_text su -> noquote dnn -> limited su -> limited dnn -> - 2 ^ 31 <= psi < 2 ^ 31 -> wf_amf s ->
  callSmf su psi dnn (s, w) = (Returns (ue_address (s_ue_ip_counter (c_smf w))), (s, set_session w)).
Proof.
  intros Hs Hd Ls Ld Hpsi [_ Hport]. destruct (or_internet_props dnn Hd Ld) as [Hi Li].
  assert (Hi' : or_internet (or_internet dnn) = or_internet dnn) by (destruct dnn; reflexivity).
  unfold callSmf, try_catch. rewrite X_bind_eq. cbn [xget]. rewrite X_bind_eq.
  cbn [connectTo h_connect AmfHost]. rewrite Hport. change (29502 =? 29503) with false.
  change (29502 =? 29502) with true. cbn [orb]. run_x. cbn [h_pcap h_exchange AmfHost].
  change (29502 =? 29503) with false. unfold call_smf. rewrite smf_session by auto with words.
  rewrite session_response_build, httpRecv_built; cycle 1.
  - discriminate.
  - auto with words.
  - apply header_app; [auto with words|]. apply header_app; [auto with words|].
    apply Forall_drop, word_header. exact Hs.
  - pose proof (sm_context_ref_length su). pose proof (ue_address_length (s_ue_ip_counter (c_smf w))).
    pose proof (num_length psi Hpsi). unfold limited, session_body in *. rewrite Hi'. body_len.
  - cbn [or_throw negb]. run_x. cbn [h_pcap AmfHost body].
    pose proof (sm_context_ref_noquote su (word_nq su Hs)).
    pose proof (ue_address_noquote (s_ue_ip_counter (c_smf w))).
    unfold session_body. rewrite Hi'. json_get. reflexivity.
Qed.

(** An identity that HTTP can carry, and a UE whose context holds one. *)
Definition wf_identity (supi : bytes) : Prop := word_text supi /\ limited supi.
Definition wf_ue (c : UeContext5) : Prop := wf_identity (ue_supi c).

(** The identity under which the AMF asks for a session: that of the context,
    or one made up from the number. *)
Definition session_identity (ueId : Z) (s : AmfState) : bytes :=
  match ue_ctx s !! ueId with
  | Some c => ue_supi c
  | None => str "imsi-404100000000" ++ to_stringZ ueId
  end.

Lemma to_stringZ_word (n : Z) : word_text (to_stringZ n).
Proof.
  eapply List.Forall_impl; [|apply to_stringZ_chars]. unfold word_char, is_digit. cbn. lia.
Qed.

Lemma session_identity_wf (ueId : Z) (s : AmfState) :
  0 <= ueId < 2 ^ 31 -> (forall c, ue_ctx s !! ueId = Some c -> wf_ue c) ->
  wf_identity (session_identity ueId s).
Proof.
  intros Hu Hc. unfold session_identity. destruct (ue_ctx s !! ueId) as [c|]; [apply Hc; reflexivity|].
  split; [apply word_app; [auto with words|apply to_stringZ_word]|].
  unfold limited. rewrite length_app. pose proof (num_length ueId ltac:(lia)).
  change (length (str "imsi-404100000000")) with 17%nat. lia.
Qed.

Lemma amf_pdu_request (ueId psi : Z) (dnn : bytes) (s : AmfState) (w : CoreW) :
  - 2 ^ 31 <= ueId < 2 ^ 31 -> - 2 ^ 31 <= psi < 2 ^ 31 -> noquote dnn -> limited dnn ->
  wf_amf s -> wf_identity (session_identity ueId s) ->
  amf_message (pdu_request ueId psi dnn) (s, w)
  = (Returns tt,
     (s, push (pdu_accept ueId psi (ue_address (s_ue_ip_counter (c_smf w))) dnn) (set_session w))).
Proof.
  intros Hu Hpsi Hd Ld Hwf [Hs Ls].
  destruct (read_pdu_request ueId psi dnn Hd) as (R1 & R2 & R3 & R4).
  unfold amf_message, n2Text. rewrite R1. run_x.
  rewrite (bool_decide_eq_false_2 (str "PduSessionRequest" = str "RegistrationRequest")) by discriminate.
  rewrite (bool_decide_eq_false_2 (str "PduSessionRequest" = str "AuthenticationResponse")) by discriminate.
  rewrite (bool_decide_eq_false_2 (str "PduSessionRequest" = str "RegistrationComplete")) by discriminate.
  rewrite bool_decide_eq_true_2 by reflexivity. unfold handlePduSessionRequest. rewrite R3, R4.
  rewrite X_bind_eq, (ranUeNgapId_runs _ ueId _ R2 Hu), X_bind_eq.
  pose proof (to_stringZ_nonempty psi) as Hne. unfold json.num in *.
  destruct (to_stringZ psi) as [|x l] eqn:Ep; [contradiction|].
  rewrite <- Ep, stoi_to_stringZ by exact Hpsi. cbn [or_throw liftX].
  rewrite X_bind_eq. cbn [xget]. fold (session_identity ueId s). rewrite X_bind_eq.
  rewrite amf_call_smf by assumption.
  pose proof (ue_address_length (s_ue_ip_counter (c_smf w))) as Hl.
  destruct (ue_address _) as [|y a]; [cbn in Hl; lia|]. reflexivity.
Qed.

Lemma read_pdu_accept (ueId psi : Z) (ip dnn : bytes) :
  noquote ip -> noquote dnn ->
  json.get (pdu_accept ueId psi ip dnn) (str "msgType") = str "PduSessionAccept"
  /\ json.get (pdu_accept ueId psi ip dnn) (str "ueIpAddress") = ip
  /\ json.get (pdu_accept ueId psi ip dnn) (str "upfIp") = str "10.1.0.4"
  /\ json.get (pdu_accept ueId psi ip dnn) (str "upfTeid") = str "0x00000101".
Proof.
  intros Hi Hd. assert (noquote (or_internet dnn)) by (destruct dnn; auto with json).
  unfold pdu_accept. repeat apply conj; json_get; reflexivity.
Qed.

Lemma pdu_session_runs (ueId psi : Z) (dnn : bytes) (g : GnbW) {S} (s : S) :
  - 2 ^ 31 <= ueId < 2 ^ 31 -> - 2 ^ 31 <= psi < 2 ^ 31 -> noquote dnn -> limited dnn ->
  at_rest g -> wf_identity (session_identity ueId (g_amf g)) ->
  doPduSession ueId psi dnn (s, g)
  = (Returns (PduEstablished (ue_address (s_ue_ip_counter (c_smf (g_core g))))
                (str "10.1.0.4") (str "0x00000101")),
     (s, mkGnbW (g_amf g) (set_session (g_core g)) true)).
Proof.
  intros Hu Hpsi Hd Ld (Hal & Hwf & Hch & Hq) Hw.
  pose proof (amf_pdu_request ueId psi dnn (g_amf g) (g_core g) Hu Hpsi Hd Ld Hwf Hw) as E.
  unfold doPduSession. rewrite X_bind_eq, (gnb_sends _ _ _ _ _ Hal E).
  rewrite X_bind_eq, gnb_gets by exact Hq. unfold n2Text.
  destruct (read_pdu_accept ueId psi (ue_address (s_ue_ip_counter (c_smf (g_core g)))) dnn)
    as (-> & -> & -> & ->); [apply ue_address_noquote|exact Hd|].
  rewrite bool_decide_eq_true_2 by reflexivity. reflexivity.
Qed.

Lemma wf_pending (n : Z) (v : bytes) :
  plmn_ok -> plmn_short -> 0 <= n < 2 ^ 31 -> wf_ue (pending n v).
Proof.
  intros Hp Hs Hn. split; [apply supi_word; [exact Hp|lia]|].
  pose proof (supi_length n Hs Hn). unfold limited. cbn [pending ue_supi]. lia.
Qed.

(** ** End to end *)

(** C2. 5G attach, end to end: in a core at rest, the registration of UE [n]
    finishes with its 5G-GUTI, whatever the random challenge and the slice;
    the AMF then holds the UE's identity and nothing else has changed there;
    a session request that follows is answered with the next address of the
    SMF's pool, the UPF holds one more session, and the core is at rest
    again. *)
Theorem attach5g_end_to_end (n psi : Z) (slice dnn : bytes) (g : GnbW) {S} (s : S)
    (Hp : plmn_ok) (Hs : plmn_short) (Hn : 0 <= n < 2 ^ 31) (Hpsi : - 2 ^ 31 <= psi < 2 ^ 31)
    (Hd : noquote dnn) (Ld : limited dnn) (Hg : at_rest g) :
  exists v g1 g2,
    doRegistration n slice (s, g) = (Returns (RegFinished (guti n)), (s, g1))
    /\ ue_ctx (g_amf g1) = <[n := pending n v]> (ue_ctx (g_amf g))
    /\ doPduSession n psi dnn (s, g1)
       = (Returns (PduEstablished (ue_address (s_ue_ip_counter (c_smf (g_core g))))
                     (str "10.1.0.4") (str "0x00000101")), (s, g2))
    /\ s_ue_ip_counter (c_smf (g_core g2)) = u32 (s_ue_ip_counter (c_smf (g_core g)) + 1)
    /\ length (s_sessions (c_upf (g_core g2))) = Datatypes.S (length (s_sessions (c_upf (g_core g))))
    /\ at_rest g2.
Proof.
  destruct (registration_runs n n (msin n) slice g s Hp Hs Hn ltac:(lia) Hg) as (v & d & Hv & E1).
  set (g1 := mkGnbW (set_ctx n (pending n v) (g_amf g)) (set_device d (g_core g)) true) in *.
  destruct Hg as (Hal & Hwf & Hch & Hq).
  assert (Hg1 : at_rest g1) by (repeat split; first [exact Hch | exact Hq | apply Hwf]).
  exists v, g1, (mkGnbW (g_amf g1) (set_session (g_core g1)) true).
  split; [exact E1|]. split; [reflexivity|]. split.
  { apply (pdu_session_runs n psi dnn g1 s); auto; try lia.
    unfold session_identity, g1. cbn. rewrite lookup_insert_eq. apply wf_pending; assumption. }
  split; [reflexivity|]. split; [cbn; rewrite length_app; cbn; lia|].
  repeat split; first [exact Hch | exact Hq | apply Hwf].
Qed.

(** C31. Authentication does not identify a subscriber: a UE that claims the
    identity of subscriber [n] and holds the key of any other subscriber [m]
    is registered as [n].  The key texts of the two have 31 hexadecimal digits,
    of which the last, the only one that may differ, is not read: both are the
    same fifteen octets. *)
Theorem any_key_registers (n m : Z) (slice : bytes) (g : GnbW) {S} (s : S)
    (Hp : plmn_ok) (Hs : plmn_short) (Hn : 0 <= n < 2 ^ 31) (Hg : at_rest g) :
  exists v g1,
    registration n (suci n) (kFor (msin m)) (slice_nssai slice) (s, g)
    = (Returns (RegFinished (guti n)), (s, g1))
    /\ ue_ctx (g_amf g1) !! n = Some (pending n v)
    /\ (exists k, fromHex (kFor (msin m)) = Some k /\ fromHex (kFor (msin n)) = Some k /\ length k = 15%nat).
Proof.
  destruct (registration_runs n n (msin m) slice g s Hp Hs Hn ltac:(lia) Hg) as (v & d & Hv & E).
  eexists v, _. split; [exact E|]. split; [cbn; apply lookup_insert_eq|].
  exists K. rewrite !kFor_is_K. repeat split.
Qed.

(** The slice a UE asks for is lost: the AMF's getter cuts the requested
    NSSAI at its first inner quote, so it does the same for every slice, and
    the allowed NSSAI it sends back is the malformed list [[{]]. *)
Theorem slice_is_lost (ueId n : Z) (s1 s2 : bytes) (a : AmfState) (w : CoreW)
    (Hp : plmn_ok) (Hn : 0 <= n) :
  amf_message (reg_request ueId (suci n) (slice_nssai s1)) (a, w)
  = amf_message (reg_request ueId (suci n) (slice_nssai s2)) (a, w)
  /\ json.get (reg_request ueId (suci n) (slice_nssai s1)) (str "requestedNssai") = str "{"
  /\ allowedNssai (str "{") = str "[{]".
Proof.
  pose proof (suci_word n Hp Hn) as Hw.
  destruct (read_reg_request ueId (suci n) (slice_nssai s1)) as (A1 & A2 & A3 & A4); [auto with json|].
  destruct (read_reg_request ueId (suci n) (slice_nssai s2)) as (B1 & B2 & B3 & B4); [auto with json|].
  rewrite slice_cut in A4, B4. split; [|split; [exact A4|reflexivity]].
  unfold amf_message, n2Text. rewrite A1, B1. run_x. cbn [h_pcap AmfHost].
  rewrite bool_decide_eq_true_2 by reflexivity. unfold handleRegistrationRequest, ranUeNgapId.
  rewrite A2, B2, A3, B3, A4, B4. reflexivity.
Qed.

End System.

(** ** Concrete runs *)

Definition sample_core : GnbW :=
  mkGnbW newAmf (mkCore [1; 2; 3; 300] newSmf newUpf false [] []) true.

Lemma sample_plmn : @plmn_ok no_environ /\ @plmn_short no_environ.
Proof. repeat split; try (repeat constructor); cbn; lia. Defined.

Lemma sample_at_rest : at_rest sample_core.
Proof. repeat split. Defined.

Lemma attach5g_end_to_end_witness :
  exists g1 g2,
    @doRegistration unit GnbW (@GnbHost no_environ) no_environ 5 (str "urllc") (tt, sample_core)
    = (Returns (RegFinished (str "5g-guti-404-10-amf01-00005")), (tt, g1))
    /\ @doPduSession unit GnbW (@GnbHost no_environ) 5 1 (str "internet") (tt, g1)
       = (Returns (PduEstablished (str "10.45.0.2") (str "10.1.0.4") (str "0x00000101")), (tt, g2)).
Proof.
  destruct (@attach5g_end_to_end no_environ 5 1 (str "urllc") (str "internet") sample_core unit tt)
    as (v & g1 & g2 & E1 & _ & E2 & _).
  - apply sample_plmn.
  - apply sample_plmn.
  - lia.
  - lia.
  - apply noquote_lit. reflexivity.
  - unfold limited. vm_compute. lia.
  - exact sample_at_rest.
  - exists g1, g2. split; [exact E1|exact E2].
Defined.

Lemma any_key_registers_witness :
  exists v g1,
    @registration unit GnbW (@GnbHost no_environ) 5 (@suci no_environ 5) (kFor (msin 8))
      (slice_nssai (str "embb")) (tt, sample_core)
    = (Returns (RegFinished (@guti no_environ 5)), (tt, g1))
    /\ ue_ctx (g_amf g1) !! 5 = Some (@pending no_environ 5 v)
    /\ (exists k, fromHex (kFor (msin 8)) = Some k /\ fromHex (kFor (msin 5)) = Some k
         /\ length k = 15%nat).
Proof.
  apply (@any_key_registers no_environ 5 8 (str "embb") sample_core unit tt).
  - apply sample_plmn.
  - apply sample_plmn.
  - lia.
  - exact sample_at_rest.
Defined.

Lemma slice_is_lost_witness :
  @plmn_ok no_environ /\
  @amf_message CoreW (@AmfHost no_environ) no_environ
    (reg_request 5 (@suci no_environ 5) (slice_nssai (str "urllc"))) (newAmf, g_core sample_core)
  = @amf_message CoreW (@AmfHost no_environ) no_environ
    (reg_request 5 (@suci no_environ 5) (slice_nssai (str "embb"))) (newAmf, g_core sample_core).
Proof.
  split; [apply sample_plmn|].
  apply (@slice_is_lost no_environ 5 5 (str "urllc") (str "embb") newAmf (g_core sample_core)).
  - apply sample_plmn.
  - lia.
Defined.
