(* ===== verification/GnbMain.v ===== *)
(** * The gNB at the console

    [main] of [5g-simulator/src/gnb/gnb_main.cpp]: the command loop that calls
    the two procedures of [Gnb], over the system of [Core5g].  What can be
    typed is compared with a small abstract core that knows who is registered,
    the next address and how many sessions there are.  The printed text is not
    modelled; a command returns what its procedure ended with. *)

From stdpp Require Import sets gmap.
From S2P Require Import Prelude Text Strings Json Http Sbi Aka5g Udm Pfcp Smf Upf5g Amf Gnb Core5g.
#[local] Open Scope Z_scope.

(** ** Commands *)

Definition or_ub {A} (r : res A) : outcome A := match r with Ok a => Returns a | _ => UB end.

(** [while (ss >> token) if (token == "--slice") ...]: at the end of the line
    [ss >> slice] leaves [slice] as it is. *)
Fixpoint slice_args (fuel : nat) (iss : istream) (slice : bytes) : res bytes :=
  match fuel with
  | O => OutOfFuel
  | S fuel =>
      match extract_word iss with
      | (_, None) => Ok slice
      | (token, iss) =>
          if bool_decide (token = str "--slice") then
            let '(w, iss) := extract_word iss in
            slice ← change_case to_lower (match iss with None => slice | Some _ => w end);
            slice_args fuel iss slice
          else slice_args fuel iss slice
      end
  end.

Definition stream_length (iss : istream) : nat := match iss with Some r => length r | None => 0%nat end.

(** The slice of a [REG], with the default for one that is not offered. *)
Definition gnb_slice (iss : istream) : res bytes :=
  slice ← slice_args (S (stream_length iss)) iss (str "embb");
  mret (if bool_decide (slice = str "embb") || bool_decide (slice = str "urllc") then slice
        else str "embb").

(** What a command did. *)
Inductive Done : Type :=
| DidRegister (ueId : Z) (slice : bytes) (r : RegEnd)
| DidSession (ueId pduSessId : Z) (dnn : bytes) (r : PduEnd).

Section Program.
Context {W : Type} `{Host W} `{Environ}.

(** The state of the process is the flag of its chaos mode. *)
Definition reg_command (iss : istream) : X (bool * W) (list Done) :=
  let '(ueId, iss) := extract_int 1 iss in
  slice ← liftX (or_ub (gnb_slice iss));
  r ← doRegistration ueId slice;
  mret [DidRegister ueId slice r].

Definition pdu_command (iss : istream) : X (bool * W) (list Done) :=
  let '(ueId, iss) := extract_int 1 iss in
  let '(pduSessId, iss) := extract_int 1 iss in
  let dnn := match extract_word iss with (d, Some _) => d | (_, None) => str "internet" end in
  r ← doPduSession ueId pduSessId dnn;
  mret [DidSession ueId pduSessId dnn r].

Definition chaos_command (iss : istream) : X (bool * W) (list Done) :=
  let '(arg, _) := extract_word iss in
  arg ← liftX (or_ub (change_case to_upper arg));
  xmodify (fun _ => bool_decide (arg = str "ON"));;
  mret [].

(** A turn of the loop; [None]: the loop ends. *)
Definition gnb_line (line : bytes) : X (bool * W) (option (list Done)) :=
  let '(cmd, iss) := extract_word (Some line) in
  cmd ← liftX (or_ub (change_case to_upper cmd));
  if bool_decide (cmd = str "QUIT") then mret None
  else if bool_decide (cmd = str "REG") then d ← reg_command iss; mret (Some d)
  else if bool_decide (cmd = str "PDU") then d ← pdu_command iss; mret (Some d)
  else if bool_decide (cmd = str "CHAOS") then d ← chaos_command iss; mret (Some d)
  else mret (Some []).

Fixpoint gnb_lines (lines : list bytes) : X (bool * W) (list Done) :=
  match lines with
  | [] => mret []
  | line :: lines =>
      d ← gnb_line line;
      match d with
      | None => mret []
      | Some d => ds ← gnb_lines lines; mret (d ++ ds)
      end
  end.

Definition gnb_main (lines : list bytes) : X (bool * W) (list Done) :=
  connectTo (getenv_or (str "AMF_HOST") (str "127.0.0.1")) 38412;;
  gnb_lines lines.

End Program.

(** ** What is typed *)

Inductive Cmd : Type :=
| Reg (ueId : Z) (slice : option bytes)
| Pdu (ueId : Z) (session : option (Z * option bytes))
| SetChaos (arg : bytes).

Definition keyword (c : Cmd) : bytes :=
  match c with Reg _ _ => str "REG" | Pdu _ _ => str "PDU" | SetChaos _ => str "CHAOS" end.

Definition arguments (c : Cmd) : bytes :=
  match c with
  | Reg n None => 32 :: to_string n
  | Reg n (Some s) => 32 :: to_string n ++ str " --slice " ++ s
  | Pdu n None => 32 :: to_string n
  | Pdu n (Some (p, None)) => 32 :: to_string n ++ 32 :: to_string p
  | Pdu n (Some (p, Some d)) => 32 :: to_string n ++ 32 :: to_string p ++ 32 :: d
  | SetChaos a => 32 :: a
  end.

(** A line: a spelling of the keyword and the arguments. *)
Definition typed (x : bytes * Cmd) : bytes := x.1 ++ arguments x.2.

Definition ascii (w : bytes) : Prop := Forall (fun c => 0 <= c < 128) w.

Definition wf_cmd (c : Cmd) : Prop :=
  match c with
  | Reg n s => 0 <= n < 2 ^ 31 /\ match s with Some s => solid s /\ ascii s | None => True end
  | Pdu n None => 0 <= n < 2 ^ 31
  | Pdu n (Some (p, d)) =>
      0 <= n < 2 ^ 31 /\ 0 <= p < 2 ^ 31
      /\ match d with Some d => solid d /\ noquote d /\ limited d | None => True end
  | SetChaos a => solid a /\ ascii a
  end.

Definition wf_typed (x : bytes * Cmd) : Prop := spells x.1 (keyword x.2) /\ wf_cmd x.2.

(** ** The abstract core *)

Record Abs : Type := mkAbs {
  a_registered : gset Z;
  a_next : Z;
  a_sessions : nat
}.

Definition offered (s : option bytes) : bytes :=
  match s with
  | None => str "embb"
  | Some s => if bool_decide (map to_lower s = str "urllc") then str "urllc" else str "embb"
  end.

Definition session_of (o : option (Z * option bytes)) : Z * bytes :=
  match o with
  | None => (1, str "internet")
  | Some (p, None) => (p, str "internet")
  | Some (p, Some d) => (p, d)
  end.

Section Spec.
Context `{Environ}.

Definition spec (c : Cmd) (a : Abs) : list Done * Abs :=
  match c with
  | Reg n s => ([DidRegister n (offered s) (RegFinished (guti n))],
                mkAbs ({[n]} ∪ a_registered a) (a_next a) (a_sessions a))
  | Pdu n o => ([DidSession n (session_of o).1 (session_of o).2
                   (PduEstablished (ue_address (a_next a)) (str "10.1.0.4") (str "0x00000101"))],
                mkAbs (a_registered a) (u32 (a_next a + 1)) (S (a_sessions a)))
  | SetChaos _ => ([], a)
  end.

Fixpoint specs (cs : list Cmd) (a : Abs) : list Done * Abs :=
  match cs with
  | [] => ([], a)
  | c :: cs => let '(d, a) := spec c a in let '(ds, a) := specs cs a in (d ++ ds, a)
  end.

(** The abstract state of the system, and when it takes commands. *)
Definition abs_of (g : GnbW) : Abs :=
  mkAbs (dom (ue_ctx (g_amf g))) (s_ue_ip_counter (c_smf (g_core g)))
    (length (s_sessions (c_upf (g_core g)))).

Definition ready (g : GnbW) : Prop :=
  at_rest g /\ map_Forall (fun _ c => wf_ue c) (ue_ctx (g_amf g)).

End Spec.

(** ** Lemmas: reading a command *)

Lemma slice_args_fuel (fuel : nat) (iss : istream) (slice : bytes) :
  (stream_length iss < fuel)%nat -> slice_args fuel iss slice <> OutOfFuel.
Proof.
  assert (L : forall iss w r, extract_word iss = (w, Some r) -> (length r < stream_length iss)%nat).
  { intros [s|] w r E; [exact (extract_word_shorter s w r E)|discriminate]. }
  revert iss slice. induction fuel as [|fuel IH]; intros iss slice Hl; [lia|]. cbn [slice_args].
  destruct (extract_word iss) as [token [r|]] eqn:E; [|discriminate]. apply L in E.
  case_bool_decide.
  - destruct (extract_word (Some r)) as [w iss'] eqn:E'.
    assert (Hl' : (stream_length iss' <= length r)%nat).
    { destruct iss' as [r'|]; [apply L in E'; cbn in *; lia|cbn; lia]. }
    unfold change_case. destruct (forallb _ _); [|discriminate].
    cbn [mbind res_bind]. apply IH. lia.
  - apply IH. cbn. lia.
Qed.

Lemma slice_read (s : bytes) :
  solid s -> ascii s -> gnb_slice (Some (str " --slice " ++ s)) = Ok (offered (Some s)).
Proof.
  intros Hs Ha. unfold gnb_slice. cbn [stream_length].
  replace (length (str " --slice " ++ s)) with (S (S (7 + length s))) by (rewrite length_app; reflexivity).
  generalize (7 + length s)%nat as k. intros k. cbn [slice_args].
  change (str " --slice " ++ s) with (32 :: str "--slice" ++ 32 :: s).
  destruct (extract_word_before (str "--slice") (32 :: s)) as [_ ->]; [|reflexivity|].
  { split; [discriminate|]. repeat constructor. }
  rewrite bool_decide_eq_true_2 by reflexivity.
  destruct (extract_word_before s [] Hs I) as [_ E]. rewrite app_nil_r in E. rewrite E.
  rewrite ascii_case by exact Ha. cbn [mbind res_bind extract_word skip_spaces]. unfold offered.
  cbn [mret res_ret]. case_bool_decide as E1; [rewrite E1; reflexivity|].
  case_bool_decide as E2; cbn [orb]; [rewrite E2|]; reflexivity.
Qed.

Lemma next_word (w : bytes) : solid w -> extract_word (Some (32 :: w)) = (w, Some []).
Proof. intros Hw. pose proof (proj2 (extract_word_before w [] Hw I)) as E. rewrite app_nil_r in E. exact E. Qed.

Lemma arguments_end (c : Cmd) : ends_word (arguments c).
Proof. destruct c as [n [s|]|n [[p [d|]]|]|a]; reflexivity. Qed.

Section Commands.
Context {W : Type} `{Host W} `{Environ}.

(** A line reads as its command. *)
Definition command (c : Cmd) : X (bool * W) (list Done) :=
  match c with
  | Reg n s => r ← doRegistration n (offered s); mret [DidRegister n (offered s) r]
  | Pdu n o => r ← doPduSession n (session_of o).1 (session_of o).2;
               mret [DidSession n (session_of o).1 (session_of o).2 r]
  | SetChaos a => xmodify (fun _ => bool_decide (map to_upper a = str "ON"));; mret []
  end.

Lemma reg_reads (n : Z) (s : option bytes) (t : bool * W) :
  wf_cmd (Reg n s) -> reg_command (Some (arguments (Reg n s))) t = command (Reg n s) t.
Proof.
  intros [Hn Hs]. unfold reg_command. destruct s as [s|]; cbn [arguments].
  - rewrite extract_int_before by (exact Hn || reflexivity). destruct Hs as [Hs Ha].
    rewrite slice_read by assumption. reflexivity.
  - rewrite extract_int_printed by exact Hn. reflexivity.
Qed.

Lemma pdu_reads (n : Z) (o : option (Z * option bytes)) (t : bool * W) :
  wf_cmd (Pdu n o) -> pdu_command (Some (arguments (Pdu n o))) t = command (Pdu n o) t.
Proof.
  unfold pdu_command. destruct o as [[p [d|]]|]; cbn [wf_cmd arguments session_of].
  - intros (Hn & Hp & Hd & _). rewrite !extract_int_before by (assumption || reflexivity).
    rewrite next_word by exact Hd. reflexivity.
  - intros (Hn & Hp & _). rewrite extract_int_before by (exact Hn || reflexivity).
    rewrite extract_int_printed by exact Hp. reflexivity.
  - intros Hn. rewrite extract_int_printed by exact Hn. reflexivity.
Qed.

Lemma chaos_reads (a : bytes) (t : bool * W) :
  wf_cmd (SetChaos a) -> chaos_command (Some (arguments (SetChaos a))) t = command (SetChaos a) t.
Proof.
  intros [Hs Ha]. unfold chaos_command. cbn [arguments]. rewrite next_word by exact Hs.
  rewrite ascii_case by exact Ha. reflexivity.
Qed.

Lemma line_reads (x : bytes * Cmd) (t : bool * W) :
  wf_typed x -> gnb_line (typed x) t = (d ← command x.2; mret (Some d)) t.
Proof.
  destruct x as [w c]. intros [Hw Hc]. cbn [fst snd] in *. unfold gnb_line, typed. cbn [fst snd].
  destruct (spelled_word w (keyword c) (arguments c) Hw (arguments_end c)) as [E1 E2].
  rewrite E1, E2, (X_bind_eq (liftX _)). cbn [or_ub liftX].
  destruct c as [n s|n o|a]; cbn [keyword];
    repeat (rewrite bool_decide_eq_false_2 by discriminate); rewrite bool_decide_eq_true_2 by reflexivity;
    rewrite !X_bind_eq; [rewrite reg_reads by exact Hc|rewrite pdu_reads by exact Hc|rewrite chaos_reads by exact Hc];
    reflexivity.
Qed.

Lemma quit_ends (q : bytes) (t : bool * W) : spells q (str "QUIT") -> gnb_line q t = (Returns None, t).
Proof.
  intros Hq. unfold gnb_line. destruct (spelled_word q (str "QUIT") [] Hq I) as [E1 E2].
  rewrite app_nil_r in E1. rewrite E1, E2. reflexivity.
Qed.

End Commands.

(** ** Lemmas: commands in the system *)

Section System.
Context `{Environ} (Hp : plmn_ok) (Hs : plmn_short).

Lemma session_args (n : Z) (o : option (Z * option bytes)) :
  wf_cmd (Pdu n o) ->
  0 <= n < 2 ^ 31 /\ - 2 ^ 31 <= (session_of o).1 < 2 ^ 31
  /\ noquote (session_of o).2 /\ limited (session_of o).2.
Proof.
  assert (Hi : noquote (str "internet") /\ limited (str "internet")).
  { split; [apply noquote_lit; reflexivity|]. unfold limited. change (length (str "internet")) with 8%nat. lia. }
  destruct o as [[p [d|]]|]; cbn; [intros (Hn & Hq & _ & Hd)|intros (Hn & Hq & _)|intros Hn];
    repeat split; try tauto; lia.
Qed.

Lemma command_runs (c : Cmd) (b : bool) (g : GnbW) :
  wf_cmd c -> ready g ->
  exists b' g', command c (b, g) = (Returns (spec c (abs_of g)).1, (b', g'))
    /\ abs_of g' = (spec c (abs_of g)).2 /\ ready g'.
Proof.
  intros Hc [Hg Hm]. pose proof Hg as (Hal & Hwf & Hch & Hq). destruct c as [n s|n o|a].
  - destruct Hc as [Hn _].
    destruct (registration_runs n n (msin n) (offered s) g b Hp Hs Hn ltac:(lia) Hg) as (v & d & _ & E).
    eexists b, _. split; [|split].
    + cbn [command]. rewrite X_bind_eq. unfold doRegistration. rewrite E. reflexivity.
    + unfold abs_of. cbn. rewrite dom_insert_L. reflexivity.
    + split; [repeat split; first [exact Hch | exact Hq | apply Hwf]|]. cbn.
      apply map_Forall_insert_2; [apply wf_pending; assumption|exact Hm].
  - destruct (session_args n o Hc) as (Hn & Hpsi & Hd & Ld).
    assert (Hi : wf_identity (session_identity n (g_amf g)))
      by (apply session_identity_wf; [exact Hn|intros c; apply Hm]).
    pose proof (pdu_session_runs n (session_of o).1 (session_of o).2 g b ltac:(lia) Hpsi Hd Ld Hg Hi) as E.
    eexists b, _. split; [|split].
    + cbn [command]. rewrite X_bind_eq, E. reflexivity.
    + unfold abs_of. cbn. rewrite length_app. cbn. f_equal. lia.
    + split; [repeat split; first [exact Hch | exact Hq | apply Hwf]|exact Hm].
  - exists (bool_decide (map to_upper a = str "ON")), g. split; [reflexivity|]. split; [reflexivity|split; assumption].
Qed.

(** What follows the commands: the end of the input, or a [QUIT]. *)
Definition ends_input (rest : list bytes) : Prop :=
  match rest with [] => True | q :: _ => spells q (str "QUIT") end.

Lemma lines_run (xs : list (bytes * Cmd)) (rest : list bytes) (b : bool) (g : GnbW) :
  Forall wf_typed xs -> ends_input rest -> ready g ->
  exists b' g', gnb_lines (map typed xs ++ rest) (b, g)
                = (Returns (specs (map snd xs) (abs_of g)).1, (b', g'))
    /\ abs_of g' = (specs (map snd xs) (abs_of g)).2 /\ ready g'.
Proof.
  intros Hx Hr. revert b g. induction Hx as [|x xs Hx _ IH]; intros b g Hg.
  - exists b, g. split; [|auto]. destruct rest as [|q rest]; [reflexivity|]. cbn [map app gnb_lines].
    rewrite X_bind_eq, quit_ends by exact Hr. reflexivity.
  - destruct (command_runs x.2 b g (proj2 Hx) Hg) as (b1 & g1 & E1 & A1 & G1).
    destruct (IH b1 g1 G1) as (b2 & g2 & E2 & A2 & G2). exists b2, g2. cbn [map app gnb_lines specs].
    rewrite X_bind_eq, line_reads, X_bind_eq, E1 by exact Hx. rewrite X_ret_eq, X_bind_eq, E2.
    rewrite A1 in E2, A2 |- *. destruct (spec x.2 (abs_of g)) as [d a]. cbn [snd] in *.
    destruct (specs (map snd xs) a) as [ds a']. auto.
Qed.

End System.

(** ** Lemmas: addresses *)

Definition address_of (d : Done) : list bytes :=
  match d with DidSession _ _ _ (PduEstablished ip _ _) => [ip] | _ => [] end.

Definition addresses (ds : list Done) : list bytes := concat (map address_of ds).

Definition is_pdu (c : Cmd) : bool := match c with Pdu _ _ => true | _ => false end.

Definition sessions_in (cs : list Cmd) : nat := length (List.filter is_pdu cs).

Lemma addresses_app (l k : list Done) : addresses (l ++ k) = addresses l ++ addresses k.
Proof. unfold addresses. rewrite map_app, concat_app. reflexivity. Qed.

Section Addresses.
Context `{Environ}.

Lemma specs_cons (c : Cmd) (cs : list Cmd) (a : Abs) :
  specs (c :: cs) a = ((spec c a).1 ++ (specs cs (spec c a).2).1, (specs cs (spec c a).2).2).
Proof. cbn [specs]. destruct (spec c a) as [d a']. cbn. destruct (specs cs a'). reflexivity. Qed.

Lemma addresses_counted (cs : list Cmd) (a : Abs) :
  addresses (specs cs a).1
  = map (fun k => ue_address (a_next a + Z.of_nat k)) (List.seq 0 (sessions_in cs)).
Proof.
  revert a. induction cs as [|c cs IH]; intros a; [reflexivity|].
  rewrite specs_cons. cbn [fst]. rewrite addresses_app, IH. destruct c as [n s|n o|x]; [reflexivity| |reflexivity].
  change (sessions_in (Pdu n o :: cs)) with (S (sessions_in cs)). cbn [List.seq map]. rewrite <- seq_shift, map_map.
  change (addresses (spec (Pdu n o) a).1) with [ue_address (a_next a)]. cbn [app spec snd a_next].
  f_equal; [f_equal; lia|]. apply map_ext. intros k. apply ue_address_of_mod.
  unfold u32, wrap. change (2 ^ 32) with 4294967296. div_eqs.
Qed.

Lemma addresses_distinct (cs : list Cmd) (a : Abs) :
  Z.of_nat (sessions_in cs) <= 65536 -> NoDup (addresses (specs cs a).1).
Proof.
  intros Hl. rewrite addresses_counted. apply NoDup_ListNoDup, Finite.Injective_map_NoDup_in; [|apply seq_NoDup].
  intros i j Hi Hj E. apply in_seq in Hi, Hj. apply ue_address_inj in E. div_eqs.
Qed.

End Addresses.

(** ** Properties *)

Section Properties.
Context `{Environ}.

(** C19. Whatever registrations, sessions and chaos switches are typed at the
    gNB, in any spelling and order and for any UEs and sessions numbered from 0
    to 2^31-1, before the input ends or a QUIT, the program returns with what
    the abstract core gives: every registration finishes with the UE's
    5G-GUTI, every session gets the next address, and a chaos switch does
    nothing, because the flag it sets is that of the gNB's process and only the
    AMF looks at its own.  AMF, SMF and UPF end where the abstract core ends,
    ready for the next gNB.  The sessions have distinct addresses when there
    are at most 65536 of them; then the pool wraps onto addresses in use. *)
Theorem gnb_refines_core (xs : list (bytes * Cmd)) (rest : list bytes) (b : bool) (g : GnbW)
    (Hp : plmn_ok) (Hs : plmn_short) (Hx : Forall wf_typed xs) (Hr : ends_input rest)
    (Hg : ready g) :
  exists ds b' g',
    gnb_main (map typed xs ++ rest) (b, g) = (Returns ds, (b', g'))
    /\ specs (map snd xs) (abs_of g) = (ds, abs_of g')
    /\ ready g'
    /\ (Z.of_nat (sessions_in (map snd xs)) <= 65536 -> NoDup (addresses ds)).
Proof.
  destruct (lines_run Hp Hs xs rest b g Hx Hr Hg) as (b' & g' & E & A & G).
  exists (specs (map snd xs) (abs_of g)).1, b', g'. split; [|split; [|split]].
  - unfold gnb_main. rewrite X_bind_eq. exact E.
  - rewrite A. apply surjective_pairing.
  - exact G.
  - apply addresses_distinct.
Qed.

(** The slice of a registration is one that is offered, whatever is typed; the
    reading ends. *)
Theorem slice_offered (iss : istream) :
  gnb_slice iss <> OutOfFuel
  /\ (forall s, gnb_slice iss = Ok s -> s = str "embb" \/ s = str "urllc").
Proof.
  unfold gnb_slice. pose proof (slice_args_fuel (S (stream_length iss)) iss (str "embb") ltac:(lia)) as F.
  destruct (slice_args _ iss _) as [s| | |]; cbn [mbind res_bind]; [|split; discriminate..|contradiction].
  split; [discriminate|]. intros s' [= <-].
  case_bool_decide as E1; [left; exact E1|]. case_bool_decide as E2; [right; exact E2|left; reflexivity].
Qed.

(** A session needs no registration: for a UE the AMF has never heard of,
    PDU is answered with the next address under an identity made up from the
    number typed, the UPF holds one more session, and the AMF still does not
    know the UE. *)
Theorem session_without_registration (n : Z) (w : bytes) (b : bool) (g : GnbW)
    (Hp : plmn_ok) (Hs : plmn_short) (Hn : 0 <= n < 2 ^ 31) (Hw : spells w (str "PDU"))
    (Hg : ready g) (Hu : ue_ctx (g_amf g) !! n = None) :
  exists b' g',
    gnb_line (w ++ 32 :: to_string n) (b, g)
    = (Returns (Some [DidSession n 1 (str "internet")
                        (PduEstablished (ue_address (s_ue_ip_counter (c_smf (g_core g))))
                           (str "10.1.0.4") (str "0x00000101"))]), (b', g'))
    /\ ue_ctx (g_amf g') !! n = None
    /\ length (s_sessions (c_upf (g_core g'))) = S (length (s_sessions (c_upf (g_core g))))
    /\ session_identity n (g_amf g) = str "imsi-404100000000" ++ to_string n.
Proof.
  destruct (command_runs Hp Hs (Pdu n None) b g Hn Hg) as (b' & g' & E & A & _).
  exists b', g'. change (w ++ 32 :: to_string n) with (typed (w, Pdu n None)).
  rewrite line_reads by (split; [exact Hw|exact Hn]). cbn [snd]. rewrite X_bind_eq, E.
  injection A as A1 A2 A3. apply not_elem_of_dom_2 in Hu as Hd. rewrite <- A1 in Hd.
  split; [reflexivity|]. split; [apply not_elem_of_dom; exact Hd|]. split; [exact A3|].
  unfold session_identity, to_stringZ. rewrite Hu. replace (n <? 0) with false by lia. reflexivity.
Qed.

(** A data network typed without a session number, as in [PDU 5 ims], is
    not used: the failed reading leaves 0 for the number, and the network is
    the default one. *)
Theorem network_without_number {W} `{Host W} (n : Z) (w d : bytes) (t : bool * W)
    (Hn : 0 <= n < 2 ^ 31) (Hw : spells w (str "PDU")) (Hd : solid d)
    (Hh : match d with c :: _ => is_digit c = false /\ c <> 43 /\ c <> 45 | [] => False end) :
  gnb_line (w ++ 32 :: to_string n ++ 32 :: d) t
  = (r ← doPduSession n 0 (str "internet"); mret (Some [DidSession n 0 (str "internet") r])) t.
Proof.
  destruct (spelled_word w (str "PDU") (32 :: to_string n ++ 32 :: d) Hw eq_refl) as [E1 E2].
  unfold gnb_line. rewrite E1, E2, (X_bind_eq (liftX _)). cbn [or_ub liftX].
  repeat (rewrite bool_decide_eq_false_2 by discriminate). rewrite bool_decide_eq_true_2 by reflexivity.
  unfold pdu_command. rewrite extract_int_before by (exact Hn || reflexivity).
  assert (E : extract_int 1 (Some (32 :: d)) = (0, None)).
  { destruct d as [|c d]; [contradiction|]. destruct Hd as [_ Hd]. inversion_clear Hd as [|? ? Hc _].
    destruct Hh as (Hh & H43 & H45). unfold extract_int. cbn [skip_spaces]. cbn. rewrite Hc.
    cbn [scan_sign]. replace (c =? 45) with false by lia. replace (c =? 43) with false by lia.
    cbn [scan_digits]. rewrite Hh. reflexivity. }
  rewrite E. cbn [extract_word]. rewrite !X_bind_eq.
  destruct (doPduSession n 0 (str "internet") t) as [[r| |] t']; reflexivity.
Qed.

End Properties.

(** ** Concrete runs *)

Lemma spells_by (w k : bytes) :
  w <> [] -> forallb (fun c => negb (is_space c) && (0 <=? c) && (c <? 128)) w = true ->
  map to_upper w = k -> spells w k.
Proof.
  intros Hne Hw Hk. split; [exact Hne|]. split; [|exact Hk]. rewrite forallb_forall in Hw.
  apply List.Forall_forall. intros c Hc. apply Hw in Hc. destruct (is_space c); [discriminate|]. lia.
Defined.

Lemma solid_by (w : bytes) : w <> [] -> forallb (fun c => negb (is_space c)) w = true -> solid w.
Proof.
  intros Hne Hw. split; [exact Hne|]. rewrite forallb_forall in Hw. apply List.Forall_forall.
  intros c Hc. apply Hw in Hc. destruct (is_space c); [discriminate|reflexivity].
Defined.

Lemma ascii_by (w : bytes) : forallb (fun c => (0 <=? c) && (c <? 128)) w = true -> ascii w.
Proof.
  rewrite forallb_forall. intros Hw. apply List.Forall_forall. intros c Hc. apply Hw in Hc. lia.
Defined.

Lemma sample_ready : ready sample_core.
Proof. split; [exact sample_at_rest|]. apply map_Forall_empty. Defined.

Definition sample_commands : list (bytes * Cmd) :=
  [(str "reg", Reg 5 (Some (str "URLLC"))); (str "CHAOS", SetChaos (str "on"));
   (str "REG", Reg 7 (Some (str "gold"))); (str "Pdu", Pdu 5 (Some (2, Some (str "ims")))); (str "PDU", Pdu 9 None)].

Lemma gnb_refines_core_witness :
  map typed sample_commands
    = [str "reg 5 --slice URLLC"; str "CHAOS on"; str "REG 7 --slice gold"; str "Pdu 5 2 ims"; str "PDU 9"]
  /\ exists b' g',
    @gnb_main GnbW (@GnbHost no_environ) no_environ (map typed sample_commands ++ [str "quit"; str "REG 8"])
      (false, sample_core)
    = (Returns
         [DidRegister 5 (str "urllc") (RegFinished (str "5g-guti-404-10-amf01-00005"));
          DidRegister 7 (str "embb") (RegFinished (str "5g-guti-404-10-amf01-00007"));
          DidSession 5 2 (str "ims") (PduEstablished (str "10.45.0.2") (str "10.1.0.4") (str "0x00000101"));
          DidSession 9 1 (str "internet") (PduEstablished (str "10.45.0.3") (str "10.1.0.4") (str "0x00000101"))],
       (b', g')).
Proof.
  split; [vm_compute; reflexivity|].
  destruct (@gnb_refines_core no_environ sample_commands [str "quit"; str "REG 8"] false sample_core)
    as (ds & b' & g' & E & Es & _).
  - apply sample_plmn.
  - apply sample_plmn.
  - repeat constructor; cbn [fst snd wf_cmd keyword];
      first [apply spells_by; [discriminate|reflexivity..] | lia | apply solid_by; [discriminate|reflexivity]
            | apply ascii_by; reflexivity | apply noquote_lit; reflexivity | unfold limited; vm_compute; lia
            | idtac].
  - apply spells_by; [discriminate|reflexivity..].
  - exact sample_ready.
  - exists b', g'. rewrite E. apply (f_equal fst) in Es. cbn [fst] in Es. rewrite <- Es. vm_compute. reflexivity.
Defined.

Lemma session_without_registration_witness :
  exists b' g',
    @gnb_line GnbW (@GnbHost no_environ) no_environ (str "PDU 9") (false, sample_core)
    = (Returns (Some [DidSession 9 1 (str "internet")
                        (PduEstablished (str "10.45.0.2") (str "10.1.0.4") (str "0x00000101"))]), (b', g'))
    /\ ue_ctx (g_amf g') !! 9 = None.
Proof.
  destruct (@session_without_registration no_environ 9 (str "PDU") false sample_core) as (b' & g' & E & U & _).
  - apply sample_plmn.
  - apply sample_plmn.
  - lia.
  - apply spells_by; [discriminate|reflexivity..].
  - exact sample_ready.
  - reflexivity.
  - exists b', g'. split; [exact E|exact U].
Defined.

Lemma network_without_number_witness :
  exists t',
    @gnb_line GnbW (@GnbHost no_environ) no_environ (str "PDU 5 ims") (false, sample_core)
    = (Returns (Some [DidSession 5 0 (str "internet")
                        (PduEstablished (str "10.45.0.2") (str "10.1.0.4") (str "0x00000101"))]), t').
Proof.
  eexists. change (str "PDU 5 ims") with (str "PDU" ++ 32 :: str "5" ++ 32 :: str "ims").
  change (str "5") with (to_string 5).
  rewrite (@network_without_number no_environ GnbW (@GnbHost no_environ) 5 (str "PDU") (str "ims")).
  - vm_compute. reflexivity.
  - lia.
  - apply spells_by; [discriminate|reflexivity..].
  - apply solid_by; [discriminate|reflexivity].
  - vm_compute. repeat split; discriminate.
Defined.
