(* ===== verification/Cbsd.v ===== *)
(** * CBRS: devices and their registry

    [cbrs-domain-proxy/src/proxy/spectrum_state.h], [cbsd_registry.h] and the
    getter of [common/wire.h], which differs from the 5G one on an
    unterminated value.  Floating-point numbers are the class [Doubles]: the
    operations of the C++ library the programs apply to them, with what the
    theorems use of their text. *)

From S2P Require Import Prelude Text Strings Json.
#[local] Open Scope Z_scope.

(** ** The getter *)

Definition get (text key : bytes) : bytes :=
  match find_sub (json.needle key) text with
  | None => []
  | Some p =>
      let p := (p + length (json.needle key))%nat in
      if match text !! p with Some c => json.is_quote c | None => false end
      then match find_if_from json.is_quote text (p + 1) with
           | None => []
           | Some e => substr text (p + 1) (Some e)
           end
      else substr text p (find_if_from json.is_sep text p)
  end.

(** ** Floating-point numbers *)

Class Doubles (D : Type) : Type := {
  d_of_Z : Z -> D;             (** a literal *)
  d_lit : Z -> Z -> D;         (** the literal [n / 10^k], of [n] and [k] *)
  d_stod : bytes -> option D;  (** [std::stod]: [None] when it throws *)
  d_show : D -> bytes;         (** [ostringstream << v] *)
  d_gtb : D -> D -> bool;      (** [a > b] *)
  d_int : D -> Z;              (** [(int)v] *)
  (** A printed number has no quote, comma or brace, and reads back. *)
  d_show_bare : forall d, bare (d_show d);
  d_show_stod : forall d, d_show d <> [] /\ d_stod (d_show d) <> None;
  (** An integer's text reads as a number. *)
  d_stod_num : forall n, - 2 ^ 31 <= n < 2 ^ 31 -> d_stod (json.num n) <> None
}.

(** Whole numbers, for concrete runs. *)
#[export] Program Instance WholeDoubles : Doubles Z := {
  d_of_Z n := n;
  d_lit n k := n / 10 ^ k;
  d_stod s := stoi s;
  d_show n := json.num (Z.max (- 2 ^ 31) (Z.min n (2 ^ 31 - 1)));
  d_gtb a b := b <? a;
  d_int n := n
}.
Next Obligation. intros d. apply num_bare. Qed.
Next Obligation.
  intros d. split; [apply to_stringZ_nonempty|].
  unfold json.num. rewrite stoi_to_stringZ by lia. discriminate.
Qed.
Next Obligation. intros n Hn. unfold json.num. rewrite stoi_to_stringZ by lia. discriminate. Qed.

(** [json::flt]. *)
Definition flt {D} `{Doubles D} (v : D) : bytes := d_show v.

(** ** Lifecycle states *)

Inductive SpectrumState : Set := UNREGISTERED | REGISTERED | GRANTED | AUTHORIZED.

#[export] Instance SpectrumState_eq_dec : EqDecision SpectrumState.
Proof. solve_decision. Defined.

Definition stateToString (s : SpectrumState) : bytes :=
  match s with
  | UNREGISTERED => str "UNREGISTERED"
  | REGISTERED => str "REGISTERED"
  | GRANTED => str "GRANTED"
  | AUTHORIZED => str "AUTHORIZED"
  end.

(** ** The registry

    Every operation holds the registry's mutex from its start to its end, so
    each is one step of the thread that calls it. *)

Section Registry.
Context {D : Type} `{Doubles D}.

Record CbsdInfo : Type := mkCbsd {
  cbsdId : bytes;
  fccId : bytes;
  callSign : bytes;
  category : bytes;
  latitude : D;
  longitude : D;
  heightMeters : D;
  antennaGainDbi : D;
  state : SpectrumState;
  grantId : bytes;
  grantFreqMHz : D;
  grantBwMHz : D;
  maxEirp : D
}.

Definition newCbsd : CbsdInfo :=
  let z := d_of_Z 0 in mkCbsd [] [] [] [] z z z z UNREGISTERED [] z z z.

Definition with_state (s : SpectrumState) (i : CbsdInfo) : CbsdInfo :=
  mkCbsd (cbsdId i) (fccId i) (callSign i) (category i) (latitude i) (longitude i)
    (heightMeters i) (antennaGainDbi i) s (grantId i) (grantFreqMHz i) (grantBwMHz i) (maxEirp i).

Definition with_grant (g : bytes) (f b e : D) (i : CbsdInfo) : CbsdInfo :=
  mkCbsd (cbsdId i) (fccId i) (callSign i) (category i) (latitude i) (longitude i)
    (heightMeters i) (antennaGainDbi i) (state i) g f b e.

Abbreviation Registry := (gmap bytes CbsdInfo).

Definition upsert (info : CbsdInfo) (r : Registry) : Registry := <[cbsdId info := info]> r.
Definition lookup_cbsd (id : bytes) (r : Registry) : option CbsdInfo := r !! id.
Definition setState (id : bytes) (s : SpectrumState) (r : Registry) : Registry :=
  alter (with_state s) id r.
Definition setGrant (id g : bytes) (f b e : D) (r : Registry) : Registry :=
  alter (fun i => with_state GRANTED (with_grant g f b e i)) id r.
Definition clearGrant (id : bytes) (r : Registry) : Registry :=
  alter (fun i => with_state REGISTERED
           (with_grant [] (grantFreqMHz i) (grantBwMHz i) (maxEirp i) i)) id r.
Definition remove (id : bytes) (r : Registry) : Registry := delete id r.
Definition count (r : Registry) : nat := size r.

(** The snapshot over which [forEach] calls back; its order is unspecified. *)
Definition forEach_snapshot (r : Registry) : list CbsdInfo := (map_to_list r).*2.

(** An entry is filed under its own identity. *)
Definition filed (r : Registry) : Prop := map_Forall (fun id i => cbsdId i = id) r.

Lemma filed_upsert (i : CbsdInfo) (r : Registry) : filed r -> filed (upsert i r).
Proof. intros Hr. apply map_Forall_insert_2; [reflexivity|exact Hr]. Qed.

Lemma filed_alter (f : CbsdInfo -> CbsdInfo) (id : bytes) (r : Registry) :
  (forall i, cbsdId (f i) = cbsdId i) -> filed r -> filed (alter f id r).
Proof.
  intros Hf Hr k i Hk. destruct (decide (id = k)) as [->|Hne].
  - rewrite lookup_alter_eq in Hk. destruct (r !! k) as [j|] eqn:E; [|discriminate].
    injection Hk as <-. rewrite Hf. exact (Hr k j E).
  - rewrite lookup_alter_ne in Hk by exact Hne. exact (Hr k i Hk).
Qed.

Lemma filed_remove (id : bytes) (r : Registry) : filed r -> filed (remove id r).
Proof. intros Hr. apply map_Forall_delete. exact Hr. Qed.

End Registry.
Arguments CbsdInfo : clear implicits.

#[export] Hint Resolve filed_upsert filed_remove : core.

(** ** The getter on built texts *)

Definition cbrs_value (t : bytes) : bytes :=
  match t with
  | c :: t' =>
      if json.is_quote c
      then match find_if json.is_quote t' with Some i => take i t' | None => [] end
      else up_to json.is_sep t
  | [] => []
  end.

Lemma cget_after (text key : bytes) :
  get text key = match after (json.needle key) text with Some t => cbrs_value t | None => [] end.
Proof.
  unfold get, after. destruct (find_sub (json.needle key) text) as [p|]; cbn; [|reflexivity].
  set (q := (p + length (json.needle key))%nat).
  replace (S (length (key ++ [34; 58]))) with (length (json.needle key)) by reflexivity.
  fold q. rewrite substr_up_to. destruct (drop q text) as [|c t] eqn:E.
  - replace (text !! q) with (@None Z); [reflexivity|].
    symmetry. rewrite <- (Nat.add_0_r q), <- lookup_drop, E. reflexivity.
  - rewrite <- E. pose proof (lookup_drop_S _ _ _ _ E) as [-> E'].
    rewrite Nat.add_1_r. unfold find_if_from. rewrite E', E. unfold cbrs_value.
    destruct (json.is_quote c); [|reflexivity].
    destruct (find_if json.is_quote t) as [i|]; [|reflexivity]. cbn [fmap option_fmap option_map substr].
    f_equal. lia.
Qed.

Lemma cbrs_value_render (v : jval) (c : Z) (t : bytes) :
  wf_val v -> sep_char c -> cbrs_value (render v ++ c :: t) = text_of v.
Proof.
  intros Hv Hc. rewrite <- (json_value_render v c t Hv Hc). destruct v as [s|u|m].
  - cbn. unfold json.str. cbn [app]. rewrite <- app_assoc. cbn [app].
    unfold cbrs_value, json_value, up_to. change (json.is_quote 34) with true. cbv iota.
    rewrite (find_if_at _ s _ 34); [reflexivity| |reflexivity].
    eapply List.Forall_impl; [|exact Hv]. intros x Hx. apply Z.eqb_neq. exact Hx.
  - cbn [render]. destruct (sep_not_key c Hc) as (_ & H34 & _).
    destruct Hv as [|x u (Hx & _) _]; cbn [app cbrs_value json_value]; unfold json.is_quote;
      [replace (c =? 34) with false by lia|replace (x =? 34) with false by lia]; reflexivity.
  - reflexivity.
Qed.

(** On built texts the two getters agree. *)
Lemma cget_front (m : jmem) (rest : list (bytes * bytes)) (k : bytes) (v : jval) :
  wf_mem m -> ident k -> first_member k m = Some v ->
  get (json.obj (fields m ++ rest)) k = text_of v.
Proof.
  intros Hm Hk E. rewrite cget_after. destruct (after_front m rest k v Hm Hk E) as (c & t & Hc & ->).
  apply cbrs_value_render; [|exact Hc]. exact (proj2 (first_wf k) m Hm v E).
Qed.

Lemma cget_fields (m : jmem) (k : bytes) (v : jval) :
  wf_mem m -> ident k -> first_member k m = Some v -> get (json.obj (fields m)) k = text_of v.
Proof. intros. rewrite <- (app_nil_r (fields m)). apply cget_front; assumption. Qed.

(** Evaluating the getter, as [json_front] does. *)
Ltac cbrs_get n :=
  match goal with
  | |- context [get (json.obj ?l) ?k] =>
      let front := eval cbn [take] in (take n l) in
      let rest := eval cbn [drop] in (drop n l) in
      let m := reify_mem front in
      change (get (json.obj l) k) with (get (json.obj (fields m ++ rest)) k);
      erewrite (cget_front m rest k);
      [ | cbn [wf_mem wf_val]; repeat split; auto 20 with json | reflexivity | reflexivity ];
      cbn [text_of]
  end.

#[export] Hint Resolve d_show_bare : json.
