(* ===== verification/Sas.v ===== *)
(** * The SAS stub

    [cbrs-domain-proxy/src/sas/sas_stub.cpp]: counters for the identities it
    assigns, and the answer to each request.  Its connection thread catches
    nothing, so an exception ends the process. *)

From S2P Require Import Prelude Text Strings Json Sbi Cbsd.
#[local] Open Scope Z_scope.

(** A 32-bit signed value. *)
Definition s32 (z : Z) : Z := (z + 2 ^ 31) mod 2 ^ 32 - 2 ^ 31.

Record Sas : Type := mkSas { g_cbsdCounter : Z; g_grantCounter : Z }.

Definition newSas : Sas := mkSas 1 1.

Definition cbsd_name (n : Z) : bytes := str "CBSD-SAS-" ++ to_stringZ n.
Definition grant_name (n : Z) : bytes := str "GRANT-" ++ to_stringZ n.

(** [g_cbsdCounter++] on an [atomic<int>]. *)
Definition makeCbsdId (s : Sas) : bytes * Sas :=
  (cbsd_name (g_cbsdCounter s), mkSas (s32 (g_cbsdCounter s + 1)) (g_grantCounter s)).
Definition makeGrantId (s : Sas) : bytes * Sas :=
  (grant_name (g_grantCounter s), mkSas (g_cbsdCounter s) (s32 (g_grantCounter s + 1))).

(** ** Answers *)

Definition ok_response : bytes := json.obj [(str "responseCode", json.num 0)].

Definition registration_response (id : bytes) : bytes :=
  json.obj [(str "type", json.str (str "RegistrationResponse"));
            (str "cbsdId", json.str id);
            (str "response", json.obj [(str "responseCode", json.num 0);
                                       (str "responseMessage", json.str (str "SUCCESS"))])].

Section Sas.
Context {D : Type} `{Doubles D}.

Definition grant_response (id grant : bytes) (freq bw eirp : D) : bytes :=
  json.obj [(str "type", json.str (str "GrantResponse"));
            (str "cbsdId", json.str id);
            (str "grantId", json.str grant);
            (str "channelType", json.str (str "GAA"));
            (str "operationFrequencyMHz", flt freq);
            (str "operationBandwidthMHz", flt bw);
            (str "maxEirp", json.num (d_int eirp));
            (str "grantExpireTime", json.num 3600);
            (str "heartbeatInterval", json.num 120);
            (str "response", ok_response)].

Definition heartbeat_response (id grant : bytes) : bytes :=
  json.obj [(str "type", json.str (str "HeartbeatResponse"));
            (str "cbsdId", json.str id);
            (str "grantId", json.str grant);
            (str "transmitExpireTime", json.num 3600);
            (str "heartbeatInterval", json.num 120);
            (str "response", ok_response)].

Definition relinquishment_response (id grant : bytes) : bytes :=
  json.obj [(str "type", json.str (str "RelinquishmentResponse"));
            (str "cbsdId", json.str id);
            (str "grantId", json.str grant);
            (str "response", ok_response)].

Definition deregistration_response (id : bytes) : bytes :=
  json.obj [(str "type", json.str (str "DeregistrationResponse"));
            (str "cbsdId", json.str id);
            (str "response", ok_response)].

Definition error_response : bytes :=
  json.obj [(str "type", json.str (str "ErrorResponse"));
            (str "response", json.obj [(str "responseCode", json.num 103);
                                       (str "responseMessage", json.str (str "INVALID_VALUE"))])].

(** A requested value: absent, a number, or an exception. *)
Definition value_or (text : bytes) (default : Z) : outcome D :=
  match text with [] => Returns (d_of_Z default) | _ :: _ => or_throw (d_stod text) end.

Lemma value_or_bad (t : bytes) (n : Z) : t <> [] -> d_stod t = None -> value_or t n = Throws.
Proof. intros Ht E. destruct t; [contradiction|]. cbn. rewrite E. reflexivity. Qed.

(** The GAA caps. *)
Definition cap (limit : Z) (v : D) : D := if d_gtb v (d_of_Z limit) then d_of_Z limit else v.

(** One turn of [handleDpConnection]. *)
Definition sas_handle (s : Sas) (req : bytes) : outcome (Sas * bytes) :=
  let type := get req (str "type") in
  if bool_decide (type = str "RegistrationRequest") then
    let '(newId, s) := makeCbsdId s in
    Returns (s, registration_response newId)
  else if bool_decide (type = str "GrantRequest") then
    let cbsdId := get req (str "cbsdId") in
    freq ← value_or (get req (str "operationFrequencyMHz")) 3555;
    bw ← value_or (get req (str "operationBandwidthMHz")) 10;
    eirp ← value_or (get req (str "maxEirp")) 30;
    let '(grantId, s) := makeGrantId s in
    Returns (s, grant_response cbsdId grantId freq (cap 20 bw) (cap 30 eirp))
  else if bool_decide (type = str "HeartbeatRequest") then
    Returns (s, heartbeat_response (get req (str "cbsdId")) (get req (str "grantId")))
  else if bool_decide (type = str "RelinquishmentRequest") then
    Returns (s, relinquishment_response (get req (str "cbsdId")) (get req (str "grantId")))
  else if bool_decide (type = str "DeregistrationRequest") then
    Returns (s, deregistration_response (get req (str "cbsdId")))
  else Returns (s, error_response).

(** ** What the proxy reads in the answers *)

(** The first member of an answer is its type, whatever the request's values
    put into the others. *)
Lemma get_type (ty : bytes) (rest : list (bytes * bytes)) :
  noquote ty -> get (json.obj ((str "type", json.str ty) :: rest)) (str "type") = ty.
Proof.
  intros Hty.
  change ((str "type", json.str ty) :: rest)
    with (fields (MCons (str "type") (JStr ty) MNil) ++ rest).
  rewrite (cget_front _ rest (str "type") (JStr ty)); [reflexivity| |reflexivity|reflexivity].
  cbn [wf_mem wf_val]. repeat split; auto.
Qed.

(** The type of the answer to a type of request. *)
Definition answer_type (type : bytes) : bytes :=
  if bool_decide (type = str "RegistrationRequest") then str "RegistrationResponse"
  else if bool_decide (type = str "GrantRequest") then str "GrantResponse"
  else if bool_decide (type = str "HeartbeatRequest") then str "HeartbeatResponse"
  else if bool_decide (type = str "RelinquishmentRequest") then str "RelinquishmentResponse"
  else if bool_decide (type = str "DeregistrationRequest") then str "DeregistrationResponse"
  else str "ErrorResponse".

(** The three values of a grant request, none of them an exception. *)
Ltac sas_values :=
  repeat match goal with
         | |- (value_or ?t ?n ≫= _) = _ -> _ => destruct (value_or t n); [|discriminate..]; cbn
         end.

Lemma sas_answer_type (s s' : Sas) (req resp : bytes) :
  sas_handle s req = Returns (s', resp) ->
  get resp (str "type") = answer_type (get req (str "type")).
Proof.
  unfold sas_handle, answer_type. destruct (makeCbsdId s) as [i s1]. destruct (makeGrantId s) as [j s2].
  repeat (destruct (bool_decide _); [sas_values; intros [= _ <-]; apply get_type, noquote_lit; reflexivity|]).
  intros [= _ <-]. apply get_type, noquote_lit. reflexivity.
Qed.

Lemma cbsd_name_noquote (n : Z) : noquote (cbsd_name n).
Proof.
  apply noquote_app; [apply noquote_lit; reflexivity|].
  eapply List.Forall_impl; [|apply to_stringZ_chars]. unfold is_digit. cbn. lia.
Qed.

Lemma read_registration (n : Z) :
  get (registration_response (cbsd_name n)) (str "cbsdId") = cbsd_name n
  /\ get (registration_response (cbsd_name n)) (str "responseCode") = str "0".
Proof.
  pose proof (cbsd_name_noquote n). unfold registration_response.
  apply conj; cbrs_get 3%nat; reflexivity.
Qed.

(** Only a registration takes an identity, and it takes the next one. *)
Lemma sas_counter (s s' : Sas) (req resp : bytes) :
  sas_handle s req = Returns (s', resp) ->
  if decide (get req (str "type") = str "RegistrationRequest")
  then g_cbsdCounter s' = s32 (g_cbsdCounter s + 1)
       /\ resp = registration_response (cbsd_name (g_cbsdCounter s))
  else g_cbsdCounter s' = g_cbsdCounter s.
Proof.
  unfold sas_handle. destruct (decide _) as [E|E].
  - rewrite bool_decide_eq_true_2 by exact E. cbn. intros [= <- <-]. auto.
  - rewrite bool_decide_eq_false_2 by exact E.
    repeat (destruct (bool_decide _); [sas_values; intros [= <- _]; reflexivity|]).
    intros [= <- _]. reflexivity.
Qed.

End Sas.

Lemma s32_small (z : Z) : - 2 ^ 31 <= z < 2 ^ 31 -> s32 z = z.
Proof.
  intros Hz. unfold s32. change (2 ^ 31) with 2147483648 in *. change (2 ^ 32) with 4294967296. div_eqs.
Qed.

Lemma cbsd_name_inj (a b : Z) : 0 <= a -> 0 <= b -> cbsd_name a = cbsd_name b -> a = b.
Proof.
  intros Ha Hb E. unfold cbsd_name in E. apply app_inv_head in E. unfold to_stringZ in E.
  replace (a <? 0) with false in E by lia. replace (b <? 0) with false in E by lia.
  apply to_string_inj; assumption.
Qed.
