(* ===== verification/DomainProxy.v ===== *)
(** * The CBRS domain proxy

    [cbrs-domain-proxy/src/proxy/domain_proxy.cpp]: one thread per device, one
    shared registry, and one SAS connection behind a mutex.  [handleCbsd] is
    cut where the threads meet: a thread reads the registry and guards a
    request, later forwards it under the mutex, later updates the registry and
    replies.  [dp_step] interleaves the threads at these points; the theorems
    hold of every interleaving and of every text a device may send.

    An answer that does not fit a frame leaves the SAS connection out of step
    with the requests; the steps stop short of it.  A send whose peer is gone
    raises SIGPIPE, which nothing catches: it may end the process. *)

From S2P Require Import Prelude Text Strings Json Sbi Cbsd Sas.
#[local] Open Scope Z_scope.

Section Proxy.
Context {D : Type} `{Doubles D}.

Abbreviation Registry := (gmap bytes (CbsdInfo D)).

(** ** The phases of [handleCbsd] *)

(** The entry of a device; a fresh one before it is registered, or when it is
    not found. *)
Definition read_info (myCbsdId : bytes) (r : Registry) : CbsdInfo D :=
  match myCbsdId with
  | [] => newCbsd
  | _ :: _ => match lookup_cbsd myCbsdId r with Some i => i | None => newCbsd end
  end.

Definition grant_refused : bytes :=
  json.obj [(str "type", json.str (str "GrantResponse"));
            (str "response", json.obj [(str "responseCode", json.num 103);
               (str "responseMessage", json.str (str "Must be REGISTERED first"))])].

Definition heartbeat_refused : bytes :=
  json.obj [(str "type", json.str (str "HeartbeatResponse"));
            (str "response", json.obj [(str "responseCode", json.num 400);
               (str "responseMessage", json.str (str "TERMINATED_GRANT"))])].

(** The state machine guard: the refusal, if any. *)
Definition guard (req : bytes) (info : CbsdInfo D) : option bytes :=
  let type := get req (str "type") in
  if bool_decide (type = str "GrantRequest") && negb (bool_decide (state info = REGISTERED)) then
    Some grant_refused
  else if bool_decide (type = str "HeartbeatRequest")
       && negb (bool_decide (state info = GRANTED)) && negb (bool_decide (state info = AUTHORIZED)) then
    Some heartbeat_refused
  else None.

(** [forwardToSas]: one exchange under the mutex.  A SAS that has ended
    answers nothing, and the proxy goes on with an empty text. *)
Definition forwardToSas (s : option Sas) (req : bytes) : bytes * option Sas :=
  match s with
  | None => ([], None)
  | Some s =>
      match sas_handle s req with
      | Returns (s', resp) => (resp, Some s')
      | _ => ([], None)
      end
  end.

(** [try { x = std::stod(...); } catch (...) {}]. *)
Definition stod_or_zero (t : bytes) : D :=
  match d_stod t with Some v => v | None => d_of_Z 0 end.

(** The update after the answer: registry, identity, and whether the
    connection is closed.  The answer goes to the device in every case. *)
Definition update (r : Registry) (myCbsdId req resp : bytes) : Registry * bytes * bool :=
  let respType := get resp (str "type") in
  let rc := get resp (str "responseCode") in
  let success := bool_decide (rc = str "0") || bool_decide (rc = []) in
  if bool_decide (respType = str "RegistrationResponse") && success then
    let id := get resp (str "cbsdId") in
    let z := d_of_Z 0 in
    let newInfo := mkCbsd id (get req (str "fccId")) (get req (str "callSign"))
                     (get req (str "cbsdCategory")) z z z z REGISTERED [] z z z in
    (upsert newInfo r, id, false)
  else if bool_decide (respType = str "GrantResponse") && success then
    (setGrant myCbsdId (get resp (str "grantId"))
       (stod_or_zero (get resp (str "operationFrequencyMHz")))
       (stod_or_zero (get resp (str "operationBandwidthMHz")))
       (stod_or_zero (get resp (str "maxEirp"))) r, myCbsdId, false)
  else if bool_decide (respType = str "HeartbeatResponse") && success then
    (setState myCbsdId AUTHORIZED r, myCbsdId, false)
  else if bool_decide (respType = str "RelinquishmentResponse") && success then
    (clearGrant myCbsdId r, myCbsdId, false)
  else if bool_decide (respType = str "DeregistrationResponse") then
    (remove myCbsdId r, myCbsdId, true)
  else (r, myCbsdId, false).

(** One turn of the loop without another thread in between: registry, SAS,
    identity, the text for the device, and whether the connection is closed. *)
Definition dp_turn (r : Registry) (s : option Sas) (myCbsdId req : bytes) :
    Registry * option Sas * bytes * bytes * bool :=
  match guard req (read_info myCbsdId r) with
  | Some e => (r, s, myCbsdId, e, false)
  | None =>
      let '(resp, s') := forwardToSas s req in
      let '(r', myCbsdId', closed) := update r myCbsdId req resp in
      (r', s', myCbsdId', resp, closed)
  end.

(** The device disconnects. *)
Definition disconnect (myCbsdId : bytes) (r : Registry) : Registry :=
  match myCbsdId with [] => r | _ :: _ => remove myCbsdId r end.

(** ** Threads *)

Inductive Pc : Type :=
| Idle                       (** before [recvMsg] *)
| Passed (req : bytes)       (** before [forwardToSas] *)
| Answered (req resp : bytes) (** before the update *)
| Gone.                      (** after the loop *)

Record Thread : Type := mkThread { myCbsdId : bytes; pc : Pc }.

Record Dp : Type := mkDp {
  g_registry : Registry;
  g_sas : option Sas;
  threads : list Thread;     (** by [connId] *)
  running : bool
}.

Definition newDp : Dp := mkDp ∅ (Some newSas) [] true.
Definition endedDp : Dp := mkDp ∅ None [] false.

Definition set_thread (i : nat) (t : Thread) (d : Dp) : Dp :=
  mkDp (g_registry d) (g_sas d) (<[i := t]> (threads d)) (running d).
Definition set_registry (r : Registry) (d : Dp) : Dp := mkDp r (g_sas d) (threads d) (running d).
Definition set_sas (s : option Sas) (d : Dp) : Dp := mkDp (g_registry d) s (threads d) (running d).

(** What [recvFrame] takes. *)
Definition framed (t : bytes) : Prop := 0 < Z.of_nat (length t) <= 65536.

(** The next send of a thread may find its peer gone. *)
Definition may_send (d : Dp) (t : Thread) : Prop :=
  match pc t with Passed _ => g_sas d = None | Gone => False | Idle | Answered _ _ => True end.

(** A step of one thread, and the text it sends to its device. *)
Inductive dp_step : Dp -> option (nat * bytes) -> Dp -> Prop :=
| step_connect d :
    running d = true ->
    dp_step d None (mkDp (g_registry d) (g_sas d) (threads d ++ [mkThread [] Idle]) (running d))
| step_reject d i t req e :
    threads d !! i = Some t -> pc t = Idle -> framed req ->
    guard req (read_info (myCbsdId t) (g_registry d)) = Some e ->
    dp_step d (Some (i, e)) d
| step_pass d i t req :
    threads d !! i = Some t -> pc t = Idle -> framed req ->
    guard req (read_info (myCbsdId t) (g_registry d)) = None ->
    dp_step d None (set_thread i (mkThread (myCbsdId t) (Passed req)) d)
| step_forward d i t req resp s' :
    threads d !! i = Some t -> pc t = Passed req ->
    forwardToSas (g_sas d) req = (resp, s') -> resp = [] \/ framed resp ->
    dp_step d None (set_thread i (mkThread (myCbsdId t) (Answered req resp)) (set_sas s' d))
| step_update d i t req resp r' id' closed :
    threads d !! i = Some t -> pc t = Answered req resp ->
    update (g_registry d) (myCbsdId t) req resp = (r', id', closed) ->
    dp_step d (Some (i, resp))
      (set_thread i (mkThread id' (if closed : bool then Gone else Idle)) (set_registry r' d))
| step_disconnect d i t :
    threads d !! i = Some t -> pc t = Idle ->
    dp_step d None (set_thread i (mkThread (myCbsdId t) Gone)
                      (set_registry (disconnect (myCbsdId t) (g_registry d)) d))
| step_sigpipe d i t :
    threads d !! i = Some t -> may_send d t -> dp_step d None endedDp.

(** A number of steps. *)
Inductive run : nat -> Dp -> Dp -> Prop :=
| run_refl d : run 0 d d
| run_step n d o d' d'' : run n d d' -> dp_step d' o d'' -> run (S n) d d''.

Definition reach (n : nat) (d : Dp) : Prop := run n newDp d.

Lemma run_trans (n m : nat) (d d' d'' : Dp) : run n d d' -> run m d' d'' -> run (m + n) d d''.
Proof.
  intros R1 R2. induction R2 as [d'|m d' o d1 d2 R2 IH St]; [exact R1|].
  eapply run_step; [apply IH, R1|exact St].
Qed.

(** A turn is a run of the threads' steps. *)
Lemma dp_turn_run (d : Dp) (i : nat) (my req resp : bytes) (r' : Registry) (s' : option Sas)
    (my' : bytes) (c : bool) :
  threads d !! i = Some (mkThread my Idle) -> framed req -> resp = [] \/ framed resp ->
  dp_turn (g_registry d) (g_sas d) my req = (r', s', my', resp, c) ->
  exists n d', run n d d' /\ g_registry d' = r' /\ g_sas d' = s'
    /\ threads d' !! i = Some (mkThread my' (if c then Gone else Idle))
    /\ (forall j, j <> i -> threads d' !! j = threads d !! j).
Proof.
  intros Ht Hreq Hresp. unfold dp_turn. destruct (guard req (read_info my (g_registry d))) as [e|] eqn:Eg.
  - intros [= <- <- <- -> <-]. exists 1%nat, d. repeat split; auto.
    eapply run_step; [apply run_refl|]. eapply step_reject; eauto.
  - destruct (forwardToSas (g_sas d) req) as [a s1] eqn:Ef.
    destruct (update (g_registry d) my req a) as [[r1 my1] c1] eqn:Eu.
    intros [= <- <- <- -> <-]. pose proof (lookup_lt_Some _ _ _ Ht) as Hlt.
    set (d1 := set_thread i (mkThread my (Passed req)) d).
    set (d2 := set_thread i (mkThread my (Answered req resp)) (set_sas s1 d1)).
    exists 3%nat, (set_thread i (mkThread my1 (if c1 then Gone else Idle)) (set_registry r1 d2)).
    split; [|cbn; rewrite !list_insert_insert_eq, list_lookup_insert_eq by exact Hlt;
             repeat split; auto; intros j Hj; apply list_lookup_insert_ne; auto].
    eapply run_step; [eapply run_step; [eapply run_step; [apply run_refl|]|]|].
    + apply (step_pass d i (mkThread my Idle) req); auto.
    + apply (step_forward d1 i (mkThread my (Passed req)) req resp s1); auto.
      apply list_lookup_insert_eq, Hlt.
    + apply (step_update d2 i (mkThread my (Answered req resp)) req resp r1 my1 c1); auto.
      cbn. rewrite list_insert_insert_eq. apply list_lookup_insert_eq, Hlt.
Qed.

(** ** What an update touches *)

Lemma update_frame (r r' : Registry) (my my' req resp k : bytes) (c : bool) :
  update r my req resp = (r', my', c) -> k <> my -> k <> my' -> r' !! k = r !! k.
Proof.
  unfold update. intros E Hmy Hmy'.
  destruct (_ && _); [injection E as <- <- <-; apply lookup_insert_ne; cbn; congruence|].
  destruct (_ && _); [injection E as <- <- <-; apply lookup_alter_ne; congruence|].
  destruct (_ && _); [injection E as <- <- <-; apply lookup_alter_ne; congruence|].
  destruct (_ && _); [injection E as <- <- <-; apply lookup_alter_ne; congruence|].
  destruct (bool_decide _); injection E as <- <- <-; [apply lookup_delete_ne; congruence|reflexivity].
Qed.

Lemma update_filed (r r' : Registry) (my my' req resp : bytes) (c : bool) :
  update r my req resp = (r', my', c) -> filed r -> filed r'.
Proof.
  unfold update. intros E Hr.
  destruct (_ && _); [injection E as <- <- <-; apply filed_upsert; exact Hr|].
  destruct (_ && _); [injection E as <- <- <-; apply filed_alter; auto|].
  destruct (_ && _); [injection E as <- <- <-; apply filed_alter; auto|].
  destruct (_ && _); [injection E as <- <- <-; apply filed_alter; auto|].
  destruct (bool_decide _); injection E as <- <- <-; auto.
Qed.

(** ** The documented lifecycle *)

Definition state_of (r : Registry) (id : bytes) : option SpectrumState := state <$> r !! id.

(** The arrows of [spectrum_state.h], each with the request that takes it.  A
    device the registry has no entry of is UNREGISTERED. *)
Inductive lifecycle : bytes -> option SpectrumState -> option SpectrumState -> Prop :=
| lc_register : lifecycle (str "RegistrationRequest") None (Some REGISTERED)
| lc_grant : lifecycle (str "GrantRequest") (Some REGISTERED) (Some GRANTED)
| lc_authorize : lifecycle (str "HeartbeatRequest") (Some GRANTED) (Some AUTHORIZED)
| lc_release : lifecycle (str "RelinquishmentRequest") (Some AUTHORIZED) (Some REGISTERED)
| lc_remove : lifecycle (str "DeregistrationRequest") (Some REGISTERED) None.

(** The moves that are no arrow and that the guard lets through: a grant is
    given back before any transmission, and an entry is removed while it
    holds a grant. *)
Inductive early : bytes -> option SpectrumState -> option SpectrumState -> Prop :=
| early_release : early (str "RelinquishmentRequest") (Some GRANTED) (Some REGISTERED)
| early_remove_granted : early (str "DeregistrationRequest") (Some GRANTED) None
| early_remove_authorized : early (str "DeregistrationRequest") (Some AUTHORIZED) None.

(** An entry stays, takes an arrow, or makes one of the other moves. *)
Definition moves (type : bytes) (s s' : option SpectrumState) : Prop :=
  s = s' \/ lifecycle type s s' \/ early type s s'.

(** ** The invariant *)

(** The identities the SAS has given out. *)
Definition named (m : Z) (k : bytes) : Prop := exists j, 1 <= j < m /\ k = cbsd_name j.

(** The identity a registration answer on its way brings. *)
Definition pending_id (t : Thread) : option bytes :=
  match pc t with
  | Answered req ((_ :: _) as resp) =>
      if bool_decide (get req (str "type") = str "RegistrationRequest")
      then Some (get resp (str "cbsdId")) else None
  | _ => None
  end.

Definition claims (t : Thread) (k : bytes) : Prop :=
  k <> [] /\ (k = myCbsdId t \/ pending_id t = Some k).

(** An answer fits its request; a registration answer brings a fresh
    identity. *)
Definition wf_answer (m : Z) (r : Registry) (my req resp : bytes) : Prop :=
  resp = [] \/
  (get resp (str "type") = answer_type (get req (str "type"))
   /\ (get req (str "type") = str "RegistrationRequest" ->
       exists j, 1 <= j < m /\ resp = registration_response (cbsd_name j)
                 /\ cbsd_name j <> my /\ r !! cbsd_name j = None)).

Definition wf_pc (m : Z) (r : Registry) (t : Thread) : Prop :=
  match pc t with
  | Passed req => guard req (read_info (myCbsdId t) r) = None
  | Answered req resp =>
      guard req (read_info (myCbsdId t) r) = None /\ wf_answer m r (myCbsdId t) req resp
  | Idle | Gone => True
  end.

Record inv (n : nat) (m : Z) (d : Dp) : Prop := {
  inv_bound : 1 <= m <= 1 + Z.of_nat n;
  inv_sas : forall s, g_sas d = Some s -> g_cbsdCounter s = m;
  inv_filed : filed (g_registry d);
  inv_keys : forall k, is_Some (g_registry d !! k) -> named m k;
  inv_my : forall i t, threads d !! i = Some t -> myCbsdId t = [] \/ named m (myCbsdId t);
  inv_pc : forall i t, threads d !! i = Some t -> wf_pc m (g_registry d) t;
  inv_apart : forall i j t u k, i <> j -> threads d !! i = Some t -> threads d !! j = Some u ->
    claims t k -> claims u k -> False
}.

Lemma named_mono (m m' : Z) (k : bytes) : m <= m' -> named m k -> named m' k.
Proof. intros Hm (j & Hj & ->). exists j. split; [lia|reflexivity]. Qed.

Lemma named_nonempty (m : Z) (k : bytes) : named m k -> k <> [].
Proof. intros (j & _ & ->). discriminate. Qed.

Lemma named_fresh (m : Z) : 1 <= m -> ~ named m (cbsd_name m).
Proof. intros Hm (j & Hj & E). apply cbsd_name_inj in E; lia. Qed.

Lemma pending_registration (my req : bytes) (j : Z) :
  get req (str "type") = str "RegistrationRequest" ->
  pending_id (mkThread my (Answered req (registration_response (cbsd_name j)))) = Some (cbsd_name j).
Proof.
  intros E. destruct (read_registration j) as [R _]. unfold pending_id. cbn [pc]. revert R.
  destruct (registration_response (cbsd_name j)) as [|c l] eqn:El; [discriminate|].
  intros R. rewrite bool_decide_eq_true_2 by exact E. rewrite R. reflexivity.
Qed.

(** A pending identity belongs to a registration, and is fresh. *)
Lemma pending_inv (m : Z) (r : Registry) (t : Thread) (k : bytes) :
  wf_pc m r t -> pending_id t = Some k ->
  named m k /\ k <> myCbsdId t /\ r !! k = None.
Proof.
  unfold pending_id, wf_pc. destruct t as [my p]. cbn [pc myCbsdId].
  destruct p as [|req|req resp|]; try discriminate. intros [_ Hw].
  destruct resp as [|c l]; [discriminate|].
  destruct (bool_decide _) eqn:Eb; [|discriminate]. apply bool_decide_eq_true_1 in Eb.
  destruct Hw as [Hw|[_ Hw]]; [discriminate|]. destruct (Hw Eb) as (j & Hj & Er & Hne & Hf).
  rewrite Er. clear Er. destruct (read_registration j) as [-> _]. intros [= <-].
  split; [exists j; auto|auto].
Qed.

(** ** What an update does *)

Lemma answer_inv (t : bytes) :
  (answer_type t = str "RegistrationResponse" -> t = str "RegistrationRequest")
  /\ (answer_type t = str "GrantResponse" -> t = str "GrantRequest")
  /\ (answer_type t = str "HeartbeatResponse" -> t = str "HeartbeatRequest")
  /\ (answer_type t = str "RelinquishmentResponse" -> t = str "RelinquishmentRequest")
  /\ (answer_type t = str "DeregistrationResponse" -> t = str "DeregistrationRequest").
Proof.
  unfold answer_type.
  repeat (destruct (bool_decide _) eqn:E;
    [apply bool_decide_eq_true_1 in E; repeat split; (discriminate || auto)|]; clear E).
  repeat split; discriminate.
Qed.

Lemma guard_grant (req : bytes) (i : CbsdInfo D) :
  get req (str "type") = str "GrantRequest" -> guard req i = None -> state i = REGISTERED.
Proof.
  intros E. unfold guard. rewrite E, bool_decide_eq_true_2 by reflexivity. cbn [andb].
  destruct (decide (state i = REGISTERED)); [auto|].
  rewrite bool_decide_eq_false_2 by assumption. discriminate.
Qed.

Lemma guard_heartbeat (req : bytes) (i : CbsdInfo D) :
  get req (str "type") = str "HeartbeatRequest" -> guard req i = None ->
  state i = GRANTED \/ state i = AUTHORIZED.
Proof.
  intros E. unfold guard. rewrite E.
  rewrite (bool_decide_eq_false_2 (str "HeartbeatRequest" = str "GrantRequest")) by discriminate.
  cbn [andb]. rewrite (bool_decide_eq_true_2 (str "HeartbeatRequest" = str "HeartbeatRequest")) by reflexivity.
  cbn [andb].
  destruct (decide (state i = GRANTED)); [auto|]. destruct (decide (state i = AUTHORIZED)); [auto|].
  rewrite !bool_decide_eq_false_2 by assumption. discriminate.
Qed.

(** A state other than the initial one is that of an entry. *)
Lemma read_info_state (my : bytes) (r : Registry) (s : SpectrumState) :
  state (read_info my r) = s -> s <> UNREGISTERED -> state_of r my = Some s.
Proof.
  intros E Hs. unfold read_info, lookup_cbsd, state_of in *.
  destruct my as [|c my]; [cbn in E; congruence|].
  destruct (r !! (c :: my)) as [i|]; cbn in E; [|congruence]. cbn. congruence.
Qed.

Lemma state_of_alter (f : CbsdInfo D -> CbsdInfo D) (s : SpectrumState) (my : bytes) (r : Registry) :
  (forall i, state (f i) = s) -> state_of (alter f my r) my = (fun _ => s) <$> state_of r my.
Proof.
  intros Hf. unfold state_of. rewrite lookup_alter_eq. destruct (r !! my) as [i|]; cbn; [|reflexivity].
  rewrite Hf. reflexivity.
Qed.

(** A release and a removal, by the state of the entry. *)
Lemma release_moves (s : option SpectrumState) :
  s <> Some UNREGISTERED -> moves (str "RelinquishmentRequest") s ((fun _ => REGISTERED) <$> s).
Proof.
  destruct s as [[]|]; intros Hs; [contradiction|left; reflexivity|right; right; constructor
    |right; left; constructor|left; reflexivity].
Qed.

Lemma remove_moves (s : option SpectrumState) :
  s <> Some UNREGISTERED -> moves (str "DeregistrationRequest") s None.
Proof.
  destruct s as [[]|]; intros Hs; [contradiction|right; left; constructor|right; right; constructor
    |right; right; constructor|left; reflexivity].
Qed.

(** An update that is not a registration: the entry of the thread's own
    identity moves, and none is made. *)
Lemma update_own (r r' : Registry) (my my' req resp : bytes) (c : bool) :
  guard req (read_info my r) = None ->
  get resp (str "type") = answer_type (get req (str "type")) ->
  get resp (str "type") <> str "RegistrationResponse" ->
  update r my req resp = (r', my', c) ->
  my' = my
  /\ (state_of r my <> Some UNREGISTERED -> moves (get req (str "type")) (state_of r my) (state_of r' my))
  /\ (state_of r my = None -> state_of r' my = None).
Proof.
  intros Hg Ht B1 E. unfold update in E.
  destruct (answer_inv (get req (str "type"))) as (_ & I2 & I3 & I4 & I5). rewrite <- Ht in I2, I3, I4, I5.
  assert (Hstay : moves (get req (str "type")) (state_of r my) (state_of r my)) by (left; reflexivity).
  rewrite bool_decide_eq_false_2 in E by exact B1. cbn [andb] in E.
  destruct (bool_decide (get resp (str "type") = str "GrantResponse")) eqn:B2; cbn [andb] in E.
  { apply bool_decide_eq_true_1 in B2. rewrite B2 in E. destruct (_ || _) in E; cbn in E;
      injection E as <- <- <-; [|repeat split; auto].
    pose proof (guard_grant _ _ (I2 B2) Hg) as Hs. apply read_info_state in Hs; [|discriminate].
    unfold setGrant. rewrite (state_of_alter _ GRANTED) by reflexivity. rewrite Hs, (I2 B2).
    repeat split; [right; left; constructor|discriminate]. }
  destruct (bool_decide (get resp (str "type") = str "HeartbeatResponse")) eqn:B3; cbn [andb] in E.
  { apply bool_decide_eq_true_1 in B3. rewrite B3 in E. destruct (_ || _) in E; cbn in E;
      injection E as <- <- <-; [|repeat split; auto].
    unfold setState. rewrite (state_of_alter _ AUTHORIZED) by reflexivity. rewrite (I3 B3).
    destruct (guard_heartbeat _ _ (I3 B3) Hg) as [Hs|Hs]; apply read_info_state in Hs; try discriminate;
      rewrite Hs; (repeat split; [|discriminate]); [right; left; constructor|left; reflexivity]. }
  destruct (bool_decide (get resp (str "type") = str "RelinquishmentResponse")) eqn:B4; cbn [andb] in E.
  { apply bool_decide_eq_true_1 in B4. rewrite B4 in E. destruct (_ || _) in E; cbn in E;
      injection E as <- <- <-; [|repeat split; auto].
    unfold clearGrant. rewrite (state_of_alter _ REGISTERED), (I4 B4) by reflexivity.
    repeat split; [apply release_moves|]. intros ->. reflexivity. }
  destruct (bool_decide (get resp (str "type") = str "DeregistrationResponse")) eqn:B5;
    injection E as <- <- <-; [|repeat split; auto].
  apply bool_decide_eq_true_1 in B5. unfold state_of at 3 5. unfold remove. rewrite lookup_delete_eq, (I5 B5).
  repeat split. apply remove_moves.
Qed.

(** The cases of an update: a fresh registration, or a move of the entry of
    the thread's own identity. *)
Lemma update_cases (m : Z) (r r' : Registry) (my my' req resp : bytes) (c : bool) :
  guard req (read_info my r) = None -> wf_answer m r my req resp ->
  update r my req resp = (r', my', c) ->
  (my' = my /\ (forall k, k <> my -> r' !! k = r !! k)
   /\ (state_of r my <> Some UNREGISTERED -> moves (get req (str "type")) (state_of r my) (state_of r' my))
   /\ (state_of r my = None -> state_of r' my = None))
  \/ (exists j, 1 <= j < m /\ my' = cbsd_name j /\ c = false
      /\ get req (str "type") = str "RegistrationRequest"
      /\ resp = registration_response (cbsd_name j)
      /\ my' <> my /\ r !! my' = None
      /\ (forall k, k <> my' -> r' !! k = r !! k) /\ state_of r' my' = Some REGISTERED).
Proof.
  intros Hg Hw E. pose proof (update_frame r r' my my' req resp) as Hfr.
  destruct Hw as [->|[Ht Hreg]].
  { cbn in E. injection E as <- <- <-. left. repeat split; auto. left. reflexivity. }
  destruct (answer_inv (get req (str "type"))) as (I1 & _). rewrite <- Ht in I1.
  destruct (decide (get resp (str "type") = str "RegistrationResponse")) as [B1|B1].
  - destruct (Hreg (I1 B1)) as (j & Hj & Er & Hne & Hf). unfold update in E.
    destruct (read_registration j) as [R1 R2]. rewrite B1, Er, R1, R2 in E. cbn in E.
    injection E as <- <- <-.
    right. exists j. repeat split; auto; try apply Hj.
    + intros k Hk. apply lookup_insert_ne. cbn. congruence.
    + unfold state_of, upsert. cbn [cbsdId]. rewrite lookup_insert_eq. reflexivity.
  - left. destruct (update_own r r' my my' req resp c Hg Ht B1 E) as [-> Hl].
    split; [reflexivity|]. split; [|exact Hl].
    intros k Hk. apply (Hfr k c); auto.
Qed.

(** An answered registration gives the thread another identity, and leaves
    the entry of its own. *)
Lemma update_registration (m : Z) (r r' : Registry) (my my' req resp : bytes) (c : bool) :
  get req (str "type") = str "RegistrationRequest" -> resp <> [] ->
  wf_answer m r my req resp -> update r my req resp = (r', my', c) ->
  my' <> my /\ r' !! my = r !! my.
Proof.
  intros Ety Hresp Hw E. destruct Hw as [->|[Ht Hreg]]; [contradiction|].
  destruct (Hreg Ety) as (j & Hj & -> & Hne & Hf). unfold update in E.
  destruct (read_registration j) as [R1 R2]. rewrite Ht, Ety, R1, R2 in E. cbn in E.
  injection E as <- <- <-. split; [exact Hne|]. apply lookup_insert_ne. cbn. exact Hne.
Qed.

(** ** The invariant is preserved *)

Lemma named_claims (n : nat) (m : Z) (d : Dp) (i : nat) (t : Thread) (k : bytes) :
  inv n m d -> threads d !! i = Some t -> claims t k -> named m k.
Proof.
  intros I Ht [Hne [->|Hp]].
  - destruct (inv_my _ _ _ I i t Ht) as [E|E]; [contradiction|exact E].
  - apply (pending_inv m _ t k (inv_pc _ _ _ I i t Ht) Hp).
Qed.

(** What a thread relies on is its own part of the registry. *)
Lemma wf_pc_frame (m m' : Z) (r r' : Registry) (t : Thread) :
  m <= m' -> (forall k, claims t k -> r' !! k = r !! k) -> wf_pc m r t -> wf_pc m' r' t.
Proof.
  intros Hm Hr. unfold wf_pc.
  assert (Hi : read_info (myCbsdId t) r' = read_info (myCbsdId t) r).
  { unfold read_info, lookup_cbsd. destruct (myCbsdId t) as [|c l] eqn:E; [reflexivity|].
    rewrite Hr; [reflexivity|]. split; [discriminate|]. left. auto. }
  rewrite Hi. destruct (pc t) as [|req|req resp|] eqn:Ep; auto. intros [Hg Hw]. split; [exact Hg|].
  destruct Hw as [Hw|[Hw Hreg]]; [left; exact Hw|right]. split; [exact Hw|].
  intros Ety. destruct (Hreg Ety) as (j & Hj & Er & Hne & Hf). exists j.
  repeat split; auto; [lia|lia|]. rewrite Hr; [exact Hf|]. split; [discriminate|]. right.
  destruct t as [my p]. cbn in Ep. subst p. rewrite Er. apply pending_registration. exact Ety.
Qed.

Lemma inv_new : inv 0 1 newDp.
Proof.
  constructor; cbn; try discriminate.
  - lia.
  - intros s [= <-]. reflexivity.
  - intros k [i E]. discriminate.
Qed.

Lemma inv_ended (n : nat) (m : Z) : 1 <= m <= 1 + Z.of_nat n -> inv n m endedDp.
Proof.
  intros Hm. constructor; cbn; try discriminate; try exact Hm.
  - intros k [i E]. discriminate.
Qed.

Lemma inv_later (n : nat) (m : Z) (d : Dp) : inv n m d -> inv (S n) m d.
Proof. intros []. constructor; auto. lia. Qed.

Lemma thread_set (i j : nat) (t u : Thread) (d : Dp) :
  threads (set_thread i t d) !! j = Some u ->
  (i = j /\ u = t) \/ (i <> j /\ threads d !! j = Some u).
Proof. cbn. rewrite list_lookup_insert_Some. intuition congruence. Qed.

(** Thread [i] becomes [t'] and the registry and the SAS change; the others
    keep what they rely on. *)
Lemma inv_change (n : nat) (m m' : Z) (d : Dp) (i : nat) (t t' : Thread) (r' : Registry) (s' : option Sas) :
  inv n m d -> threads d !! i = Some t -> m <= m' <= 1 + Z.of_nat n ->
  (forall s, s' = Some s -> g_cbsdCounter s = m') ->
  filed r' -> (forall k, is_Some (r' !! k) -> named m' k) ->
  (forall k, k <> [] -> ~ claims t k -> r' !! k = g_registry d !! k) ->
  (myCbsdId t' = [] \/ named m' (myCbsdId t')) -> wf_pc m' r' t' ->
  (forall k, claims t' k -> claims t k \/ ~ named m k) ->
  inv n m' (set_thread i t' (set_sas s' (set_registry r' d))).
Proof.
  intros I Ht Hm Hs Hfd Hk Hfr Hmy Hpc Hcl.
  assert (Hap : forall j u k, i <> j -> threads d !! j = Some u -> claims u k -> claims t' k -> False).
  { intros j u k Hij Hu Hc Hc'. destruct (Hcl k Hc') as [Ht'|Hn].
    - exact (inv_apart _ _ _ I i j t u k Hij Ht Hu Ht' Hc).
    - apply Hn, (named_claims n m d j u k I Hu Hc). }
  constructor; auto.
  - destruct (inv_bound _ _ _ I). lia.
  - intros j u Hu. apply thread_set in Hu as [[<- ->]|[Hij Hu]]; [exact Hmy|].
    destruct (inv_my _ _ _ I j u Hu) as [E|E]; [left; exact E|right].
    apply (named_mono m); [lia|exact E].
  - intros j u Hu. apply thread_set in Hu as [[<- ->]|[Hij Hu]]; [exact Hpc|].
    apply (wf_pc_frame m m' (g_registry d)); [lia| |exact (inv_pc _ _ _ I j u Hu)].
    intros k Hc. apply Hfr; [apply Hc|]. intros Hct.
    exact (inv_apart _ _ _ I i j t u k Hij Ht Hu Hct Hc).
  - intros j l u v k Hjl Hu Hv Hcu Hcv.
    apply thread_set in Hu as [[<- ->]|[Hij Hu]]; apply thread_set in Hv as [[<- ->]|[Hil Hv]].
    + contradiction.
    + exact (Hap l v k Hil Hv Hcv Hcu).
    + exact (Hap j u k Hij Hu Hcu Hcv).
    + exact (inv_apart _ _ _ I j l u v k Hjl Hu Hv Hcu Hcv).
Qed.

(** An answer of the SAS, as [wf_answer] has it. *)
Lemma forward_answer (m : Z) (s s' : option Sas) (r : Registry) (my req resp : bytes) :
  (forall x, s = Some x -> g_cbsdCounter x = m) -> 1 <= m < 2 ^ 31 - 1 ->
  (my = [] \/ named m my) -> r !! cbsd_name m = None ->
  forwardToSas s req = (resp, s') ->
  exists m', m <= m' <= m + 1 /\ (forall x, s' = Some x -> g_cbsdCounter x = m')
             /\ wf_answer m' r my req resp
             /\ (forall k, pending_id (mkThread my (Answered req resp)) = Some k -> k = cbsd_name m).
Proof.
  intros Hs Hm Hmy Hr. destruct s as [s|]; cbn.
  2: { intros [= <- <-]. exists m. repeat split; [lia|lia|discriminate|left; reflexivity|discriminate]. }
  specialize (Hs s eq_refl). destruct (sas_handle s req) as [[s1 a]| |] eqn:E.
  2, 3: intros [= <- <-]; exists m; repeat split; [lia|lia|discriminate|left; reflexivity|discriminate].
  intros [= <- <-]. pose proof (sas_answer_type s s1 req a E) as Hty.
  pose proof (sas_counter s s1 req a E) as Hc. rewrite Hs in Hc.
  destruct (decide (get req (str "type") = str "RegistrationRequest")) as [Er|Er].
  - destruct Hc as [Hc Ha]. rewrite s32_small in Hc by lia. exists (m + 1).
    repeat split; [lia|lia|intros x [= <-]; exact Hc| |].
    + right. split; [exact Hty|]. intros _. exists m. repeat split; [lia|lia|exact Ha| |exact Hr].
      intros E'. destruct Hmy as [Hmy|Hmy]; [subst my; discriminate|].
      rewrite <- E' in Hmy. apply (named_fresh m); [lia|exact Hmy].
    + intros k. change (pending_id (mkThread my (Answered req a)) = Some k -> k = cbsd_name m).
      rewrite Ha, pending_registration by exact Er. congruence.
  - exists m. repeat split; [lia|lia|intros x [= <-]; exact Hc| |].
    + right. split; [exact Hty|]. intros Hc'. contradiction.
    + intros k. unfold pending_id. cbn [pc]. destruct a; [discriminate|].
      rewrite bool_decide_eq_false_2 by exact Er. discriminate.
Qed.

Lemma inv_forward (n : nat) (m : Z) (d : Dp) (i : nat) (t : Thread) (req resp : bytes) (s' : option Sas) :
  Z.of_nat n < 2 ^ 31 - 2 -> inv n m d -> threads d !! i = Some t -> pc t = Passed req ->
  forwardToSas (g_sas d) req = (resp, s') ->
  exists m', m <= m' /\ inv (S n) m' (set_thread i (mkThread (myCbsdId t) (Answered req resp)) (set_sas s' d)).
Proof.
  intros Hn I Ht Hp E. pose proof (inv_bound _ _ _ I) as Hb.
  pose proof (inv_pc _ _ _ I i t Ht) as Hw. unfold wf_pc in Hw. rewrite Hp in Hw.
  assert (Hfresh : ~ named m (cbsd_name m)) by (apply named_fresh; lia).
  destruct (forward_answer m (g_sas d) s' (g_registry d) (myCbsdId t) req resp) as (m' & Hm' & Hs & Ha & Hpid).
  1: exact (inv_sas _ _ _ I). 1: lia. 1: exact (inv_my _ _ _ I i t Ht).
  2: exact E.
  { apply eq_None_not_Some. intros Hk. apply Hfresh, (inv_keys _ _ _ I), Hk. }
  exists m'. split; [lia|]. replace d with (set_registry (g_registry d) d) at 2 by (destruct d; reflexivity).
  assert (Hmono : forall k, named m k -> named m' k) by (intros k; apply named_mono; lia).
  apply (inv_change (S n) m m' d i t); auto.
  - apply inv_later, I.
  - lia.
  - exact (inv_filed _ _ _ I).
  - intros k Hk. apply Hmono, (inv_keys _ _ _ I k Hk).
  - cbn. destruct (inv_my _ _ _ I i t Ht); auto.
  - split; [exact Hw|exact Ha].
  - intros k [Hne [Hk|Hk]]; [left; split; auto|]. right. rewrite (Hpid k Hk). exact Hfresh.
Qed.

Lemma inv_own_update (n : nat) (m : Z) (d : Dp) (i : nat) (t : Thread) (req resp : bytes)
    (r' : Registry) (my' : bytes) (c : bool) (p : Pc) :
  inv n m d -> threads d !! i = Some t -> pc t = Answered req resp ->
  update (g_registry d) (myCbsdId t) req resp = (r', my', c) -> (p = Idle \/ p = Gone) ->
  inv n m (set_thread i (mkThread my' p) (set_registry r' d)).
Proof.
  intros I Ht Hp E Hpc. pose proof (inv_pc _ _ _ I i t Ht) as Hw. unfold wf_pc in Hw.
  rewrite Hp in Hw. destruct Hw as [Hg Ha].
  replace (set_registry r' d) with (set_sas (g_sas d) (set_registry r' d)) by (destruct d; reflexivity).
  assert (Hfd : filed r') by (eapply update_filed; [exact E|exact (inv_filed _ _ _ I)]).
  pose proof (inv_bound _ _ _ I) as Hb.
  assert (Hpw : forall my, wf_pc m r' (mkThread my p)) by (intros my; destruct Hpc as [->| ->]; exact Logic.I).
  assert (Hcl : forall k, claims (mkThread my' p) k -> k <> [] /\ k = my').
  { intros k [Hne [Hk|Hk]]; [auto|]. destruct Hpc as [->| ->]; discriminate. }
  destruct (update_cases m _ _ _ _ _ _ _ Hg Ha E)
    as [(-> & Hfr & _ & Hno)|(j & Hj & -> & _ & Ety & -> & Hne & Hf & Hfr & _)];
    apply (inv_change n m m d i t); auto; try lia; try exact (inv_sas _ _ _ I).
  - intros k Hk. destruct (decide (k = myCbsdId t)) as [->|Hk'].
    + apply (inv_keys _ _ _ I). destruct (g_registry d !! myCbsdId t) eqn:E0; [eauto|].
      unfold state_of in Hno. rewrite E0 in Hno. specialize (Hno eq_refl).
      destruct Hk as [x Hx]. rewrite Hx in Hno. discriminate.
    + rewrite Hfr in Hk by exact Hk'. exact (inv_keys _ _ _ I k Hk).
  - intros k Hk Hc. apply Hfr. intros ->. apply Hc. split; auto.
  - exact (inv_my _ _ _ I i t Ht).
  - intros k Hk. apply Hcl in Hk as [Hk ->]. left. split; auto.
  - intros k Hk. destruct (decide (k = cbsd_name j)) as [->|Hk']; [exists j; auto|].
    rewrite Hfr in Hk by exact Hk'. exact (inv_keys _ _ _ I k Hk).
  - intros k Hk Hc. apply Hfr. intros ->. apply Hc. split; [exact Hk|]. right.
    destruct t as [my q]. cbn in Hp. subst q. apply pending_registration. exact Ety.
  - right. exists j. auto.
  - intros k Hk. apply Hcl in Hk as [Hk ->]. left. split; [exact Hk|]. right.
    destruct t as [my q]. cbn in Hp. subst q. apply pending_registration. exact Ety.
Qed.

Lemma disconnect_frame (my : bytes) (r : Registry) (k : bytes) :
  k <> my -> disconnect my r !! k = r !! k.
Proof.
  intros Hk. unfold disconnect. destruct my; [reflexivity|]. apply lookup_delete_ne. congruence.
Qed.

Lemma inv_disconnect (n : nat) (m : Z) (d : Dp) (i : nat) (t : Thread) :
  inv n m d -> threads d !! i = Some t ->
  inv n m (set_thread i (mkThread (myCbsdId t) Gone)
             (set_registry (disconnect (myCbsdId t) (g_registry d)) d)).
Proof.
  intros I Ht.
  replace (set_registry _ d)
    with (set_sas (g_sas d) (set_registry (disconnect (myCbsdId t) (g_registry d)) d)) by (destruct d; reflexivity).
  pose proof (inv_bound _ _ _ I) as Hb.
  apply (inv_change n m m d i t); auto; try lia; try exact (inv_sas _ _ _ I).
  - unfold disconnect. destruct (myCbsdId t); [exact (inv_filed _ _ _ I)|].
    apply filed_remove, (inv_filed _ _ _ I).
  - intros k [x Hx]. apply (inv_keys _ _ _ I). unfold disconnect, remove in Hx.
    destruct (myCbsdId t); [eauto|]. apply lookup_delete_Some in Hx as [_ Hx]. eauto.
  - intros k Hk Hc. apply disconnect_frame. intros ->. apply Hc. split; auto.
  - exact (inv_my _ _ _ I i t Ht).
  - exact Logic.I.
  - intros k [Hne [Hk|Hk]]; [|discriminate]. left. split; auto.
Qed.

Lemma inv_connect (n : nat) (m : Z) (d : Dp) :
  inv n m d -> inv n m (mkDp (g_registry d) (g_sas d) (threads d ++ [mkThread [] Idle]) (running d)).
Proof.
  assert (Hth : forall l (j : nat) (u : Thread), (l ++ [mkThread [] Idle]) !! j = Some u ->
                  l !! j = Some u \/ u = mkThread [] Idle).
  { intros l j u Hu. apply lookup_app_Some in Hu as [Hu|[_ Hu]]; [auto|].
    apply list_lookup_singleton_Some in Hu as [_ <-]. auto. }
  assert (Hnc : forall k, ~ claims (mkThread [] Idle) k) by (intros k [Hne [Hk|Hk]]; [auto|discriminate]).
  intros I. constructor; try apply I; cbn.
  - intros j u Hu. apply Hth in Hu as [Hu| ->]; [exact (inv_my _ _ _ I j u Hu)|left; reflexivity].
  - intros j u Hu. apply Hth in Hu as [Hu| ->]; [exact (inv_pc _ _ _ I j u Hu)|exact Logic.I].
  - intros i j t u k Hij Hi Hj Hct Hcu.
    apply Hth in Hi as [Hi| ->]; [|exact (Hnc k Hct)]. apply Hth in Hj as [Hj| ->]; [|exact (Hnc k Hcu)].
    exact (inv_apart _ _ _ I i j t u k Hij Hi Hj Hct Hcu).
Qed.

(** While the SAS's counter has not wrapped, the invariant is kept. *)
Lemma inv_step (n : nat) (m : Z) (d d' : Dp) (o : option (nat * bytes)) :
  Z.of_nat n < 2 ^ 31 - 2 -> inv n m d -> dp_step d o d' ->
  exists m', m <= m' /\ inv (S n) m' d'.
Proof.
  intros Hn I St. destruct St as [d Hr|d i t req e Ht Hp _ Hg|d i t req Ht Hp _ Hg
    |d i t req resp s' Ht Hp E _|d i t req resp r' id' c Ht Hp E|d i t Ht Hp|d i t Ht Hs].
  - exists m. split; [reflexivity|]. apply inv_later, inv_connect, I.
  - exists m. split; [reflexivity|]. apply inv_later, I.
  - exists m. split; [reflexivity|]. apply inv_later.
    change (inv n m (set_thread i (mkThread (myCbsdId t) (Passed req))
                       (set_sas (g_sas d) (set_registry (g_registry d) d)))).
    pose proof (inv_bound _ _ _ I) as Hb.
    apply (inv_change n m m d i t); auto; try lia; try apply I.
    + exact (inv_my _ _ _ I i t Ht).
    + intros k [Hne [Hk|Hk]]; [left; split; auto|discriminate].
  - eapply inv_forward; eassumption.
  - exists m. split; [reflexivity|]. apply inv_later. eapply inv_own_update; try eassumption. destruct c; auto.
  - exists m. split; [reflexivity|]. apply inv_later, inv_disconnect; assumption.
  - exists m. split; [reflexivity|]. apply inv_later, inv_ended, I.
Qed.

Lemma inv_run (n k : nat) (m : Z) (d d' : Dp) :
  run k d d' -> Z.of_nat (n + k) < 2 ^ 31 - 1 -> inv n m d -> exists m', m <= m' /\ inv (n + k) m' d'.
Proof.
  intros R. revert m. induction R as [d|k d o d1 d2 R IH St]; intros m Hn I.
  - exists m. rewrite Nat.add_0_r. split; [lia|exact I].
  - destruct (IH m) as (m1 & Hm1 & I1); [lia|exact I|]. rewrite Nat.add_succ_r.
    destruct (inv_step (n + k) m1 d1 d2 o) as (m2 & Hm2 & I2); [lia|exact I1|exact St|].
    exists m2. split; [lia|exact I2].
Qed.

Lemma inv_reach (n : nat) (d : Dp) : reach n d -> Z.of_nat n < 2 ^ 31 - 1 -> exists m, inv n m d.
Proof.
  intros R Hn. destruct (inv_run 0 n 1 newDp d R Hn inv_new) as (m & _ & I). exists m. exact I.
Qed.

(** ** Every step follows the lifecycle *)

(** No entry is in the initial state. *)
Definition entered (r : Registry) : Prop := map_Forall (fun _ i => state i <> UNREGISTERED) r.

Lemma entered_alter (f : CbsdInfo D -> CbsdInfo D) (k : bytes) (r : Registry) :
  (forall i, state (f i) <> UNREGISTERED) -> entered r -> entered (alter f k r).
Proof.
  intros Hf Hr j i Hj. apply lookup_alter_Some in Hj as [(-> & i0 & _ & ->)|[_ Hj]]; [apply Hf|exact (Hr j i Hj)].
Qed.

Lemma entered_update (r r' : Registry) (my my' req resp : bytes) (c : bool) :
  update r my req resp = (r', my', c) -> entered r -> entered r'.
Proof.
  unfold update. intros E Hr.
  destruct (_ && _); [injection E as <- <- <-; apply map_Forall_insert_2; [discriminate|exact Hr]|].
  repeat (destruct (_ && _); [injection E as <- <- <-; apply entered_alter; [discriminate|exact Hr]|]).
  destruct (bool_decide _); injection E as <- <- <-; [apply map_Forall_delete|]; exact Hr.
Qed.

Lemma entered_step (d d' : Dp) (o : option (nat * bytes)) :
  dp_step d o d' -> entered (g_registry d) -> entered (g_registry d').
Proof.
  intros St Hr. destruct St; cbn; try exact Hr.
  - eapply entered_update; eassumption.
  - unfold disconnect. destruct (myCbsdId t); [exact Hr|apply map_Forall_delete, Hr].
  - apply map_Forall_empty.
Qed.

Lemma entered_reach (n : nat) (d : Dp) : reach n d -> entered (g_registry d).
Proof.
  unfold reach. intros R. remember newDp as d0 eqn:E0.
  induction R as [d|n d o d1 d2 R IH St]; [subst; cbn; apply map_Forall_empty|].
  eapply entered_step; [exact St|]. auto.
Qed.

Lemma entered_state (r : Registry) (k : bytes) : entered r -> state_of r k <> Some UNREGISTERED.
Proof.
  intros Hr. unfold state_of. destruct (r !! k) as [i|] eqn:E; [|discriminate]. cbn.
  intros [= Hs]. exact (Hr k i E Hs).
Qed.

(** What a step does to the entry of [k]: the thread it belongs to has the
    answer to a request and takes the arrow of that request, or moves early;
    the device disconnects; or the process ends. *)
Inductive moved (d : Dp) (o : option (nat * bytes)) (d' : Dp) (k : bytes) : Prop :=
| moved_stay : state_of (g_registry d') k = state_of (g_registry d) k -> moved d o d' k
| moved_answer i t req resp :
    threads d !! i = Some t -> pc t = Answered req resp -> claims t k -> o = Some (i, resp) ->
    lifecycle (get req (str "type")) (state_of (g_registry d) k) (state_of (g_registry d') k)
    \/ early (get req (str "type")) (state_of (g_registry d) k) (state_of (g_registry d') k) ->
    moved d o d' k
| moved_disconnect i t :
    threads d !! i = Some t -> pc t = Idle -> myCbsdId t = k -> k <> [] ->
    threads d' !! i = Some (mkThread k Gone) -> state_of (g_registry d') k = None -> moved d o d' k
| moved_ended : d' = endedDp -> moved d o d' k.

Lemma moved_update (n : nat) (m : Z) (d : Dp) (i : nat) (t t' : Thread) (req resp k : bytes)
    (r' : Registry) (id' : bytes) (c : bool) :
  inv n m d -> entered (g_registry d) -> threads d !! i = Some t -> pc t = Answered req resp ->
  update (g_registry d) (myCbsdId t) req resp = (r', id', c) ->
  moved d (Some (i, resp)) (set_thread i t' (set_registry r' d)) k.
Proof.
  intros I He Ht Hp E. pose proof (inv_pc _ _ _ I i t Ht) as Hw. unfold wf_pc in Hw. rewrite Hp in Hw.
  destruct Hw as [Hg Ha].
  destruct (update_cases m _ _ _ _ _ _ _ Hg Ha E)
    as [(-> & Hfr & Hl & Hno)|(j & _ & -> & _ & Ety & -> & _ & Hf & Hfr & Hs)].
  - destruct (decide (k = myCbsdId t)) as [->|Hk].
    + destruct (Hl (entered_state _ _ He)) as [Hl'|Hl']; [apply moved_stay; exact (eq_sym Hl')|].
      destruct (decide (myCbsdId t = [])) as [H0|H0].
      * apply moved_stay. cbn. rewrite H0 in *. assert (E0 : state_of (g_registry d) [] = None).
        { unfold state_of. apply fmap_None, eq_None_not_Some. intros Hk. apply (inv_keys _ _ _ I) in Hk.
          apply named_nonempty in Hk. contradiction. }
        rewrite E0. auto.
      * eapply moved_answer; eauto. split; auto.
    + apply moved_stay. unfold state_of. cbn. rewrite Hfr by exact Hk. reflexivity.
  - destruct (decide (k = cbsd_name j)) as [->|Hk].
    + eapply moved_answer; eauto.
      * split; [discriminate|right]. destruct t as [my q]. cbn in Hp. subst q. apply pending_registration. exact Ety.
      * left. cbn. rewrite Ety, Hs. unfold state_of. rewrite Hf. constructor.
    + apply moved_stay. unfold state_of. cbn. rewrite Hfr by exact Hk. reflexivity.
Qed.

Lemma moved_gone (d : Dp) (i : nat) (t : Thread) (k : bytes) :
  threads d !! i = Some t -> pc t = Idle ->
  moved d None (set_thread i (mkThread (myCbsdId t) Gone)
                  (set_registry (disconnect (myCbsdId t) (g_registry d)) d)) k.
Proof.
  intros Ht Hp. destruct (decide (k = myCbsdId t)) as [->|Hk].
  - destruct (decide (myCbsdId t = [])) as [H0|H0]; [apply moved_stay; cbn; rewrite H0; reflexivity|].
    apply (moved_disconnect _ _ _ _ i t); auto.
    + cbn. apply list_lookup_insert_eq. eapply lookup_lt_Some, Ht.
    + cbn. unfold disconnect. destruct (myCbsdId t); [contradiction|]. unfold state_of, remove.
      rewrite lookup_delete_eq. reflexivity.
  - apply moved_stay. unfold state_of. cbn. rewrite disconnect_frame by exact Hk. reflexivity.
Qed.

Lemma moved_step (n : nat) (m : Z) (d d' : Dp) (o : option (nat * bytes)) (k : bytes) :
  inv n m d -> entered (g_registry d) -> dp_step d o d' -> moved d o d' k.
Proof.
  intros I He St. destruct St; try (apply moved_stay; reflexivity).
  - eapply moved_update; eassumption.
  - apply moved_gone; assumption.
  - apply moved_ended. reflexivity.
Qed.

(** ** Entries nobody owns *)

(** No thread acts on [k]. *)
Definition unclaimed (d : Dp) (k : bytes) : Prop :=
  forall i t, threads d !! i = Some t -> ~ claims t k.

Lemma unclaimed_set (i : nat) (t t' : Thread) (d : Dp) (k : bytes) :
  unclaimed d k -> ~ claims t' k -> unclaimed (set_thread i t' d) k.
Proof.
  intros Hu Hn j u Hj. apply thread_set in Hj as [[_ ->]|[_ Hj]]; [exact Hn|exact (Hu j u Hj)].
Qed.

(** A thread comes to claim an identity only when the SAS names it. *)
Lemma unclaimed_step (n : nat) (m : Z) (d d' : Dp) (o : option (nat * bytes)) (k : bytes) :
  Z.of_nat n < 2 ^ 31 - 2 -> inv n m d -> named m k -> unclaimed d k -> dp_step d o d' ->
  running d' = true ->
  unclaimed d' k /\ g_registry d' !! k = g_registry d !! k.
Proof.
  intros Hn I Hk Hu St. destruct St as [d Hr|d i t req e Ht Hp _ Hg|d i t req Ht Hp _ Hg
    |d i t req resp s' Ht Hp E _|d i t req resp r' id' c Ht Hp E|d i t Ht Hp|d i t Ht Hs];
    cbn [running g_registry]; intros Hrun; try (split; [|reflexivity]).
  - intros j u Hj. apply lookup_app_Some in Hj as [Hj|[_ Hj]]; [exact (Hu j u Hj)|].
    apply list_lookup_singleton_Some in Hj as [_ <-]. intros [Hne [Hc|Hc]]; [auto|discriminate].
  - exact Hu.
  - eapply unclaimed_set; eauto. intros [Hne [Hc|Hc]]; [|discriminate]. apply (Hu i t Ht). split; auto.
  - eapply unclaimed_set; eauto. intros [Hne [Hc|Hc]]; [apply (Hu i t Ht); split; auto|].
    pose proof (inv_bound _ _ _ I) as Hb.
    destruct (forward_answer m (g_sas d) s' (g_registry d) (myCbsdId t) req resp) as (m' & _ & _ & _ & Hpid);
      [exact (inv_sas _ _ _ I)|lia|exact (inv_my _ _ _ I i t Ht)| |exact E|].
    { apply eq_None_not_Some. intros Hx. apply (named_fresh m); [lia|]. exact (inv_keys _ _ _ I _ Hx). }
    rewrite (Hpid k Hc) in Hk. apply (named_fresh m); [lia|exact Hk].
  - pose proof (inv_pc _ _ _ I i t Ht) as Hw. unfold wf_pc in Hw. rewrite Hp in Hw. destruct Hw as [Hg Ha].
    assert (Hne : k <> []) by (eapply named_nonempty; exact Hk).
    assert (Hmy : k <> myCbsdId t) by (intros ->; apply (Hu i t Ht); split; auto).
    assert (Hid : k <> id').
    { destruct (update_cases m _ _ _ _ _ _ _ Hg Ha E)
        as [(-> & _)|(j & Hj & -> & _ & Ety & -> & _)]; [exact Hmy|].
      intros ->. apply (Hu i t Ht). split; [discriminate|right].
      destruct t as [my q]. cbn in Hp. subst q. apply pending_registration. exact Ety. }
    split; [|exact (update_frame _ _ _ _ _ _ _ _ E Hmy Hid)].
    eapply unclaimed_set; eauto. intros [_ [Hc|Hc]]; [auto|]. destruct c; discriminate.
  - assert (Hne : k <> []) by (eapply named_nonempty; exact Hk).
    assert (Hmy : k <> myCbsdId t) by (intros ->; apply (Hu i t Ht); split; auto).
    split; [|apply disconnect_frame, Hmy].
    eapply unclaimed_set; eauto. intros [_ [Hc|Hc]]; [auto|discriminate].
  - discriminate.
Qed.

Lemma step_running (d d' : Dp) (o : option (nat * bytes)) :
  dp_step d o d' -> running d' = true -> running d = true.
Proof. intros St. destruct St; cbn; auto. discriminate. Qed.

Lemma unclaimed_run (n x : nat) (m : Z) (d d' : Dp) (k : bytes) :
  run x d d' -> Z.of_nat (n + x) < 2 ^ 31 - 1 -> inv n m d -> named m k -> unclaimed d k ->
  running d' = true ->
  unclaimed d' k /\ g_registry d' !! k = g_registry d !! k.
Proof.
  intros R. induction R as [d|x d o d1 d2 R IH St]; intros Hn I Hk Hu Hrun.
  - auto.
  - destruct IH as (Hu1 & E1); auto; [lia|eapply step_running; eassumption|].
    destruct (inv_run n x m d d1 R) as (m1 & Hm1 & I1); [lia|exact I|].
    destruct (unclaimed_step (n + x) m1 d1 d2 o k) as [Hu2 E2]; auto; [lia|eapply named_mono; eassumption|].
    split; [exact Hu2|congruence].
Qed.

(** ** Theorems *)

(** What the shared registry and the threads' parts of it always are. *)
Record well_typed (d : Dp) : Prop := {
  (** Every entry is filed under its own identity, one the SAS named. *)
  typed_filed : filed (g_registry d);
  typed_named : forall k, is_Some (g_registry d !! k) -> exists j, 0 < j /\ k = cbsd_name j;
  (** No two threads own the same identity. *)
  typed_owner : forall i j t u, i <> j -> threads d !! i = Some t -> threads d !! j = Some u ->
    myCbsdId t = myCbsdId u -> myCbsdId t = [];
  (** What a thread checked still holds when it forwards, and when it updates. *)
  typed_guard : forall i t req, threads d !! i = Some t ->
    (pc t = Passed req \/ exists resp, pc t = Answered req resp) ->
    guard req (read_info (myCbsdId t) (g_registry d)) = None
}.

(** C15. The proxy checks a request against the registry, waits for the SAS
    mutex without holding the registry's, and updates the registry later, with
    other threads running in between.  In every interleaving of any number of
    devices sending any texts, the registry stays well typed: entries are
    filed under the identity the SAS named, no two threads own one identity,
    and the state a thread checked still admits its request when it forwards
    and when it updates.  The bound keeps the SAS's 32-bit counter from
    wrapping. *)
Theorem registry_well_typed (n : nat) (d : Dp) :
  reach n d -> Z.of_nat n < 2 ^ 31 - 1 -> well_typed d.
Proof.
  intros R Hn. destruct (inv_reach n d R Hn) as [m I]. constructor.
  - exact (inv_filed _ _ _ I).
  - intros k Hk. destruct (inv_keys _ _ _ I k Hk) as (j & Hj & ->). exists j. split; [lia|reflexivity].
  - intros i j t u Hij Ht Hu E. destruct (decide (myCbsdId t = [])) as [H0|H0]; [exact H0|exfalso].
    apply (inv_apart _ _ _ I i j t u (myCbsdId t) Hij Ht Hu); split; auto.
  - intros i t req Ht Hp. pose proof (inv_pc _ _ _ I i t Ht) as Hw. unfold wf_pc in Hw.
    destruct Hp as [Hp|[resp Hp]]; rewrite Hp in Hw; apply Hw.
Qed.

(** C6. Until an answer of the SAS exceeds a frame, whatever the devices send
    and however their threads interleave, a step leaves the entry of an
    identity as it is, or takes an arrow of the documented lifecycle, and then
    the thread the identity belongs to has just been answered the request of
    that arrow: a grant is recorded only for a registered device, transmission
    is authorised only under a grant, an entry appears only registered.  The
    departures are exactly these: the device gives a grant back before it has
    transmitted, it deregisters while it holds a grant, it disconnects, or the
    process ends. *)
Theorem lifecycle_followed (n : nat) (d d' : Dp) (o : option (nat * bytes)) (k : bytes) :
  reach n d -> Z.of_nat n < 2 ^ 31 - 1 -> dp_step d o d' -> moved d o d' k.
Proof.
  intros R Hn St. destruct (inv_reach n d R Hn) as [m I].
  eapply moved_step; [exact I|eapply entered_reach; exact R|exact St].
Qed.

(** A registration request is not guarded, so a registered device can
    register again: its thread takes the new identity, and the entry of the
    old one is left to nobody.  From then on, whatever happens, no grant, no
    release and no removal reaches it until the process ends. *)
Theorem reregistration_orphans (n x : nat) (d d' : Dp) (i : nat) (t : Thread) (req resp : bytes)
    (r' : Registry) (id' : bytes) (closed : bool) :
  reach n d -> Z.of_nat (n + S x) < 2 ^ 31 - 1 ->
  threads d !! i = Some t -> pc t = Answered req resp ->
  get req (str "type") = str "RegistrationRequest" -> resp <> [] ->
  is_Some (g_registry d !! myCbsdId t) ->
  update (g_registry d) (myCbsdId t) req resp = (r', id', closed) ->
  run x (set_thread i (mkThread id' (if closed then Gone else Idle)) (set_registry r' d)) d' ->
  running d' = true ->
  id' <> myCbsdId t /\ g_registry d' !! myCbsdId t = g_registry d !! myCbsdId t.
Proof.
  intros R Hn Ht Hp Ety Hresp Hk E Rx Hrun. destruct (inv_reach n d R) as [m I]; [lia|].
  pose proof (inv_pc _ _ _ I i t Ht) as Hw. unfold wf_pc in Hw. rewrite Hp in Hw. destruct Hw as [Hg Ha].
  destruct (update_registration m _ _ _ _ _ _ _ Ety Hresp Ha E) as [Hne Hsame].
  split; [exact Hne|]. rewrite <- Hsame.
  set (d1 := set_thread _ _ _) in Rx.
  assert (I1 : inv n m d1) by (eapply inv_own_update; try eassumption; destruct closed; auto).
  pose proof (inv_keys _ _ _ I _ Hk) as Hname.
  apply (unclaimed_run n x m d1 d' (myCbsdId t)); auto; [lia|].
  intros j u Hj Hc. apply thread_set in Hj as [[_ ->]|[Hij Hj]].
  - destruct Hc as [_ [Hc|Hc]]; [auto|]. destruct closed; discriminate.
  - apply (inv_apart _ _ _ I i j t u (myCbsdId t) Hij Ht Hj); [|exact Hc].
    split; [eapply named_nonempty; exact Hname|auto].
Qed.

(** No SAS, and no answer of it still on its way. *)
Definition silent (d : Dp) : Prop :=
  g_sas d = None
  /\ forall i t req resp, threads d !! i = Some t -> pc t = Answered req resp -> resp = [].

Lemma silent_set (i : nat) (t : Thread) (d : Dp) :
  silent d -> (forall req resp, pc t = Answered req resp -> resp = []) -> silent (set_thread i t d).
Proof.
  intros [Hs Ha] Ht. split; [exact Hs|]. intros j u req resp Hj Hu.
  apply thread_set in Hj as [[_ ->]|[_ Hj]]; eauto.
Qed.

Lemma silent_step (d d' : Dp) (o : option (nat * bytes)) :
  silent d -> dp_step d o d' -> silent d' /\ g_registry d' ⊆ g_registry d.
Proof.
  intros Sl St. pose proof Sl as [Hs Ha]. destruct St as [d Hr|d i t req e Ht Hp _ Hg|d i t req Ht Hp _ Hg
    |d i t req resp s' Ht Hp E _|d i t req resp r' id' c Ht Hp E|d i t Ht Hp|d i t Ht Hm];
    (split; [|cbn; try reflexivity]).
  - split; [exact Hs|]. intros j u req resp Hj. apply lookup_app_Some in Hj as [Hj|[_ Hj]]; [eauto|].
    apply list_lookup_singleton_Some in Hj as [_ <-]. discriminate.
  - exact Sl.
  - apply silent_set; [exact Sl|discriminate].
  - rewrite Hs in E. injection E as <- <-. apply silent_set; [split; [reflexivity|exact Ha]|].
    intros req' resp' [= _ <-]. reflexivity.
  - apply (silent_set i _ (set_registry r' d)); [exact Sl|]. destruct c; discriminate.
  - rewrite (Ha i t req resp Ht Hp) in E. cbn in E. injection E as <- _ _. reflexivity.
  - apply (silent_set i _ (set_registry _ d)); [exact Sl|discriminate].
  - unfold disconnect. destruct (myCbsdId t); [reflexivity|]. apply delete_subseteq.
  - split; [reflexivity|]. discriminate.
  - apply map_empty_subseteq.
Qed.

(** A grant request whose frequency is not a number makes the SAS throw
    and end: its connection thread catches nothing.  With no other answer on
    its way, no device of the proxy is served any more, however the threads
    interleave: no entry is made or changed, entries only go. *)
Theorem bad_frequency_ends_service (x : nat) (d d' : Dp) (i : nat) (t : Thread) (req resp : bytes)
    (s' : option Sas) :
  (forall j u q a, threads d !! j = Some u -> pc u = Answered q a -> a = []) ->
  threads d !! i = Some t -> pc t = Passed req ->
  get req (str "type") = str "GrantRequest" ->
  get req (str "operationFrequencyMHz") <> [] ->
  d_stod (get req (str "operationFrequencyMHz")) = None ->
  forwardToSas (g_sas d) req = (resp, s') ->
  run x (set_thread i (mkThread (myCbsdId t) (Answered req resp)) (set_sas s' d)) d' ->
  resp = [] /\ g_sas d' = None /\ g_registry d' ⊆ g_registry d.
Proof.
  intros Ha Ht Hp Ety Hne Hbad E R.
  assert (E' : forwardToSas (g_sas d) req = ([], None)).
  { unfold forwardToSas. destruct (g_sas d) as [s|]; [|reflexivity]. unfold sas_handle. rewrite Ety.
    rewrite bool_decide_eq_false_2 by discriminate. rewrite bool_decide_eq_true_2 by reflexivity.
    rewrite (value_or_bad (get req (str "operationFrequencyMHz"))) by assumption. reflexivity. }
  rewrite E' in E. injection E as <- <-. split; [reflexivity|].
  set (d1 := set_thread _ _ _) in R.
  assert (Sl : silent d1).
  { apply silent_set; [split; [reflexivity|exact Ha]|]. intros req' resp' [= _ <-]. reflexivity. }
  change (g_registry d) with (g_registry d1). clearbody d1. clear -Sl R.
  assert (Sl' : silent d' /\ g_registry d' ⊆ g_registry d1); [|destruct Sl' as [[Hs _] Hr]; auto].
  induction R as [d|x d o d1 d2 R IH St]; [auto|]. destruct (IH Sl) as [Sl1 Hr1].
  destruct (silent_step d1 d2 o Sl1 St) as [Sl2 Hr2]. split; [exact Sl2|]. etransitivity; eassumption.
Qed.

End Proxy.

(** ** One device, step by step *)

Section Example.

Definition reg_req : bytes :=
  json.obj [(str "type", json.str (str "RegistrationRequest")); (str "fccId", json.str (str "FCC-DEVICE-001"))].
Definition bad_grant_req : bytes :=
  json.obj [(str "type", json.str (str "GrantRequest")); (str "operationFrequencyMHz", json.str (str "x"))].

Definition grant_req : bytes :=
  json.obj [(str "type", json.str (str "GrantRequest")); (str "operationFrequencyMHz", json.str (str "3555"))].
Definition dereg_req : bytes := json.obj [(str "type", json.str (str "DeregistrationRequest"))].
Definition dereg_resp : bytes := (forwardToSas (Some newSas) dereg_req).1.

Lemma grant_framed : framed grant_req.
Proof. vm_compute. split; [reflexivity|discriminate]. Qed.

Definition answer (n : Z) : bytes := registration_response (cbsd_name n).
Definition info (n : Z) : CbsdInfo Z :=
  mkCbsd (cbsd_name n) (str "FCC-DEVICE-001") [] [] 0 0 0 0 REGISTERED [] 0 0 0.

Definition one (n g : Z) (r : gmap bytes (CbsdInfo Z)) (id : bytes) (p : Pc) : Dp :=
  mkDp r (Some (mkSas n g)) [mkThread id p] true.

Lemma one_connected : @reach Z _ 1 (one 1 1 ∅ [] Idle).
Proof. eapply run_step; [apply run_refl|]. apply step_connect. reflexivity. Qed.

(** A registration: three steps. *)
Lemma one_answered :
  @reach Z _ 3 (one 2 1 ∅ [] (Answered reg_req (answer 1))).
Proof.
  apply (run_step 2 _ None (one 1 1 ∅ [] (Passed reg_req)));
    [apply (run_step 1 _ None (one 1 1 ∅ [] Idle)); [exact one_connected|]|].
  - apply (step_pass (one 1 1 ∅ [] Idle) 0%nat (mkThread [] Idle) reg_req); vm_compute; auto. split; [reflexivity|discriminate].
  - apply (step_forward (one 1 1 ∅ [] (Passed reg_req)) 0%nat (mkThread [] (Passed reg_req)) reg_req (answer 1) (Some (mkSas 2 1)));
      [reflexivity|reflexivity|vm_compute; reflexivity|right; vm_compute; split; [reflexivity|discriminate]].
Qed.

Lemma one_registered :
  @reach Z _ 4 (one 2 1 (upsert (info 1) ∅) (cbsd_name 1) Idle).
Proof.
  eapply run_step; [exact one_answered|].
  apply (step_update (one 2 1 ∅ [] (Answered reg_req (answer 1))) 0%nat
    (mkThread [] (Answered reg_req (answer 1))) reg_req (answer 1) (upsert (info 1) ∅) (cbsd_name 1) false);
    [reflexivity|reflexivity|vm_compute; reflexivity].
Qed.

(** The same device registers again. *)
Lemma one_again :
  @reach Z _ 6 (one 3 1 (upsert (info 1) ∅) (cbsd_name 1) (Answered reg_req (answer 2))).
Proof.
  apply (run_step 5 _ None (one 2 1 (upsert (info 1) ∅) (cbsd_name 1) (Passed reg_req)));
    [apply (run_step 4 _ None (one 2 1 (upsert (info 1) ∅) (cbsd_name 1) Idle)); [exact one_registered|]|].
  - apply (step_pass (one 2 1 (upsert (info 1) ∅) (cbsd_name 1) Idle) 0%nat (mkThread (cbsd_name 1) Idle) reg_req); vm_compute; auto.
    split; [reflexivity|discriminate].
  - apply (step_forward (one 2 1 (upsert (info 1) ∅) (cbsd_name 1) (Passed reg_req)) 0%nat
      (mkThread (cbsd_name 1) (Passed reg_req)) reg_req (answer 2) (Some (mkSas 3 1)));
      [reflexivity|reflexivity|vm_compute; reflexivity|right; vm_compute; split; [reflexivity|discriminate]].
Qed.

Lemma registry_well_typed_witness : well_typed (one 2 1 (upsert (info 1) ∅) (cbsd_name 1) Idle).
Proof. apply (registry_well_typed 4); [exact one_registered|reflexivity]. Defined.

(** The device is granted. *)
Lemma granted_turn :
  exists r a, dp_turn (upsert (info 1) ∅) (Some (mkSas 2 1)) (cbsd_name 1) grant_req
              = (r, Some (mkSas 2 2), cbsd_name 1, a, false)
    /\ framed a /\ state_of r (cbsd_name 1) = Some GRANTED.
Proof.
  set (T := dp_turn _ _ _ _). exists T.1.1.1.1, T.1.2. repeat apply conj; vm_compute; congruence.
Qed.

Lemma lifecycle_followed_witness :
  moved (one 2 1 ∅ [] (Answered reg_req (answer 1))) (Some (0%nat, answer 1))
        (one 2 1 (upsert (info 1) ∅) (cbsd_name 1) Idle) (cbsd_name 1).
Proof.
  refine (lifecycle_followed 3 (one 2 1 ∅ [] (Answered reg_req (answer 1)))
           (one 2 1 (upsert (info 1) ∅) (cbsd_name 1) Idle) (Some (0%nat, answer 1)) (cbsd_name 1)
           one_answered _ _); [reflexivity|].
  apply (step_update (one 2 1 ∅ [] (Answered reg_req (answer 1))) 0%nat
    (mkThread [] (Answered reg_req (answer 1))) reg_req (answer 1) (upsert (info 1) ∅) (cbsd_name 1) false);
    [reflexivity|reflexivity|vm_compute; reflexivity].
Defined.

(** The guard does not enforce the documented machine: a reachable device that
    holds a grant it never used deregisters.  No arrow of the machine goes
    from GRANTED to UNREGISTERED; the request is forwarded, and its answer
    removes the entry. *)
Theorem guard_lets_early_moves :
  exists n d o d', @reach Z _ n d /\ dp_step d o d'
    /\ (exists resp, threads d !! 0%nat = Some (mkThread (cbsd_name 1) (Answered dereg_req resp)))
    /\ state_of (g_registry d) (cbsd_name 1) = Some GRANTED
    /\ state_of (g_registry d') (cbsd_name 1) = None
    /\ (forall type, ~ lifecycle type (Some GRANTED) None).
Proof.
  destruct granted_turn as (r & a & E & Ea & Hs).
  destruct (dp_turn_run (one 2 1 (upsert (info 1) ∅) (cbsd_name 1) Idle) 0%nat (cbsd_name 1) grant_req
              a _ _ _ _ eq_refl grant_framed (or_intror Ea) E) as (n & d & R & Er & Es & Eth & _).
  pose proof (run_trans _ _ _ _ _ one_registered R) as R0.
  set (d1 := set_thread 0 (mkThread (cbsd_name 1) (Passed dereg_req)) d).
  set (d2 := set_thread 0 (mkThread (cbsd_name 1) (Answered dereg_req dereg_resp)) (set_sas (Some (mkSas 2 2)) d1)).
  assert (Hlt : (0 < length (threads d))%nat) by (eapply lookup_lt_Some; exact Eth).
  assert (E1 : threads d1 !! 0%nat = Some (mkThread (cbsd_name 1) (Passed dereg_req)))
    by (apply list_lookup_insert_eq, Hlt).
  assert (E2 : threads d2 !! 0%nat = Some (mkThread (cbsd_name 1) (Answered dereg_req dereg_resp)))
    by (apply list_lookup_insert_eq; cbn; rewrite length_insert; exact Hlt).
  eexists _, d2, _, _. repeat split.
  - eapply run_step; [eapply run_step; [exact R0|]|].
    + apply (step_pass d 0%nat (mkThread (cbsd_name 1) Idle) dereg_req); auto.
      vm_compute. split; [reflexivity|discriminate].
    + apply (step_forward d1 0%nat (mkThread (cbsd_name 1) (Passed dereg_req)) dereg_req dereg_resp (Some (mkSas 2 2))); auto.
      * cbn. rewrite Es. vm_compute. reflexivity.
      * right. vm_compute. split; [reflexivity|discriminate].
  - eapply (step_update d2 0%nat _ dereg_req dereg_resp (remove (cbsd_name 1) (g_registry d2)) (cbsd_name 1) true);
      [exact E2|reflexivity|reflexivity].
  - eexists. exact E2.
  - cbn. rewrite Er. exact Hs.
  - cbn. unfold state_of, remove. rewrite lookup_delete_eq. reflexivity.
  - intros type L. inversion L.
Qed.

Lemma reregistration_orphans_witness :
  cbsd_name 2 <> cbsd_name 1
  /\ upsert (info 2) (upsert (info 1) ∅) !! cbsd_name 1 = upsert (info 1) ∅ !! cbsd_name 1.
Proof.
  refine (reregistration_orphans 6 0 (one 3 1 (upsert (info 1) ∅) (cbsd_name 1) (Answered reg_req (answer 2)))
    _ 0%nat (mkThread (cbsd_name 1) (Answered reg_req (answer 2))) reg_req (answer 2)
    (upsert (info 2) (upsert (info 1) ∅)) (cbsd_name 2) false one_again _ _ _ _ _ _ _ (run_refl _) _);
    try reflexivity; try discriminate.
  - eexists. vm_compute. reflexivity.
Defined.

(** A registered device whose grant request has no readable frequency. *)
Lemma bad_frequency_ends_service_witness :
  @nil Z = [] /\ @None Sas = None /\ upsert (info 1) ∅ ⊆ upsert (info 1) ∅.
Proof.
  refine (bad_frequency_ends_service 0 (one 2 1 (upsert (info 1) ∅) (cbsd_name 1) (Passed bad_grant_req)) _
    0%nat (mkThread (cbsd_name 1) (Passed bad_grant_req)) bad_grant_req [] None _ _ _ _ _ _ _ (run_refl _));
    try reflexivity; try (vm_compute; discriminate).
  intros [|[|j]] u q a Hj; [injection Hj as <-; discriminate|discriminate|discriminate].
Defined.

End Example.
