(* ===== verification/CbsdAgent.v ===== *)
(** * The CBRS device

    [cbrs-domain-proxy/src/cbsd/cbsd_agent.cpp]: the device's own copy of the
    lifecycle, driven by the commands typed at it, and a session of one device
    with the proxy and the SAS.  A session alternates the device's turn with
    the proxy's ([dp_turn], a run of the proxy's threads by [dp_turn_run]). *)

From S2P Require Import Prelude Text Strings Json Sbi Cbsd Sas DomainProxy.
#[local] Open Scope Z_scope.

Section Agent.
Context {D : Type} `{Doubles D}.

Record CbsdConfig : Type := mkConfig {
  id : bytes;
  cfg_fccId : bytes;
  cfg_callSign : bytes;
  cfg_category : bytes;
  cfg_latitude : D;
  cfg_longitude : D;
  cfg_heightMeters : D;
  cfg_antennaGainDbi : D;
  desiredFreqMHz : D;
  desiredBwMHz : D
}.

Definition CBSD_PROFILES : list (bytes * CbsdConfig) :=
  [(str "1", mkConfig (str "CBSD-1") (str "FCC-DEVICE-001") (str "KA1ABC") (str "A")
               (d_lit 374219 4) (d_lit (-1220841) 4) (d_lit 50 1) (d_lit 60 1) (d_lit 35550 1) (d_lit 100 1));
   (str "2", mkConfig (str "CBSD-2") (str "FCC-DEVICE-002") (str "KA2DEF") (str "A")
               (d_lit 374220 4) (d_lit (-1220845) 4) (d_lit 80 1) (d_lit 60 1) (d_lit 35650 1) (d_lit 100 1));
   (str "3", mkConfig (str "CBSD-3") (str "FCC-DEVICE-003") (str "KB3GHI") (str "B")
               (d_lit 374225 4) (d_lit (-1220850) 4) (d_lit 300 1) (d_lit 80 1) (d_lit 35800 1) (d_lit 200 1))].

(** The profile of the program's argument; without one it ends with a usage
    text. *)
Definition profile (argv : list bytes) : option CbsdConfig :=
  let profileId := match argv with [] => str "1" | p :: _ => p end in
  snd <$> find (fun p => bool_decide (p.1 = profileId)) CBSD_PROFILES.

Record Agent : Type := mkAgent {
  a_state : SpectrumState;
  a_cbsdId : bytes;
  a_grantId : bytes;
  grantFreq : D;
  grantBw : D;
  a_maxEirp : D
}.

Definition newAgent : Agent :=
  let z := d_of_Z 0 in mkAgent UNREGISTERED [] [] z z z.

(** ** The requests *)

Definition registration_request (cfg : CbsdConfig) : bytes :=
  json.obj [(str "type", json.str (str "RegistrationRequest"));
            (str "fccId", json.str (cfg_fccId cfg));
            (str "callSign", json.str (cfg_callSign cfg));
            (str "cbsdCategory", json.str (cfg_category cfg));
            (str "radioTechnology", json.str (str "NR"));
            (str "latitude", flt (cfg_latitude cfg));
            (str "longitude", flt (cfg_longitude cfg));
            (str "height", flt (cfg_heightMeters cfg));
            (str "heightType", json.str (str "AGL"));
            (str "antennaGain", flt (cfg_antennaGainDbi cfg));
            (str "measCapability", json.str (str "RECEIVED_POWER_WITH_GRANT"))].

Definition grant_request (cfg : CbsdConfig) (a : Agent) : bytes :=
  json.obj [(str "type", json.str (str "GrantRequest"));
            (str "cbsdId", json.str (a_cbsdId a));
            (str "operationFrequencyMHz", flt (desiredFreqMHz cfg));
            (str "operationBandwidthMHz", flt (desiredBwMHz cfg));
            (str "maxEirp", json.num (if bool_decide (cfg_category cfg = str "A") then 30 else 47))].

Definition heartbeat_request (a : Agent) : bytes :=
  json.obj [(str "type", json.str (str "HeartbeatRequest"));
            (str "cbsdId", json.str (a_cbsdId a));
            (str "grantId", json.str (a_grantId a));
            (str "operationState",
             json.str (if bool_decide (a_state a = AUTHORIZED) then str "AUTHORIZED" else str "GRANTED"))].

Definition relinquishment_request (a : Agent) : bytes :=
  json.obj [(str "type", json.str (str "RelinquishmentRequest"));
            (str "cbsdId", json.str (a_cbsdId a));
            (str "grantId", json.str (a_grantId a))].

Definition deregistration_request (a : Agent) : bytes :=
  json.obj [(str "type", json.str (str "DeregistrationRequest"));
            (str "cbsdId", json.str (a_cbsdId a))].

(** ** The answers *)

(** [try { x = std::stod(...); } catch (...) {}], [x] a variable that lives
    on. *)
Definition stod_or (t : bytes) (x : D) : D := match d_stod t with Some v => v | None => x end.

Definition on_registration (a : Agent) (resp : bytes) : Agent :=
  let cbsdId := get resp (str "cbsdId") in
  let rc := get resp (str "responseCode") in
  let state := if bool_decide (rc = str "0") || negb (bool_decide (cbsdId = []))
               then REGISTERED else a_state a in
  mkAgent state cbsdId (a_grantId a) (grantFreq a) (grantBw a) (a_maxEirp a).

Definition on_grant (a : Agent) (resp : bytes) : Agent :=
  let grantId := get resp (str "grantId") in
  let rc := get resp (str "responseCode") in
  let state := if bool_decide (rc = str "0") || negb (bool_decide (grantId = []))
               then GRANTED else a_state a in
  mkAgent state (a_cbsdId a) grantId
    (stod_or (get resp (str "operationFrequencyMHz")) (grantFreq a))
    (stod_or (get resp (str "operationBandwidthMHz")) (grantBw a))
    (stod_or (get resp (str "maxEirp")) (a_maxEirp a)).

(** The answer's code is printed only. *)
Definition on_heartbeat (a : Agent) (resp : bytes) : Agent :=
  mkAgent AUTHORIZED (a_cbsdId a) (a_grantId a) (grantFreq a) (grantBw a) (a_maxEirp a).

Definition on_relinquishment (a : Agent) (resp : bytes) : Agent :=
  let z := d_of_Z 0 in mkAgent REGISTERED (a_cbsdId a) [] z z z.

Definition on_deregistration (a : Agent) (resp : bytes) : Agent :=
  mkAgent UNREGISTERED [] [] (grantFreq a) (grantBw a) (a_maxEirp a).

(** ** The command loop *)

(** What a line makes the device do: print only, end the loop, or ask the
    proxy and go on with the answer. *)
Inductive Action : Type :=
| Stay
| Leave
| Ask (req : bytes) (k : bytes -> Agent).

Definition is_command (line upper lower : bytes) : bool :=
  bool_decide (line = upper) || bool_decide (line = lower).

Definition command (cfg : CbsdConfig) (a : Agent) (line : bytes) : Action :=
  if bool_decide (line = []) then Stay
  else if is_command line (str "REGISTER") (str "register") then
    if negb (bool_decide (a_state a = UNREGISTERED)) then Stay
    else Ask (registration_request cfg) (on_registration a)
  else if is_command line (str "GRANT") (str "grant") then
    if negb (bool_decide (a_state a = REGISTERED)) then Stay
    else Ask (grant_request cfg a) (on_grant a)
  else if is_command line (str "HEARTBEAT") (str "heartbeat") then
    if negb (bool_decide (a_state a = GRANTED)) && negb (bool_decide (a_state a = AUTHORIZED)) then Stay
    else Ask (heartbeat_request a) (on_heartbeat a)
  else if is_command line (str "RELINQUISH") (str "relinquish") then
    if bool_decide (a_grantId a = []) then Stay
    else Ask (relinquishment_request a) (on_relinquishment a)
  else if is_command line (str "DEREGISTER") (str "deregister") then
    if bool_decide (a_cbsdId a = []) then Stay
    else Ask (deregistration_request a) (on_deregistration a)
  else if is_command line (str "STATUS") (str "status") then Stay
  else if is_command line (str "QUIT") (str "quit") then Leave
  else Stay.

(** ** A session with the proxy *)

Record World : Type := mkWorld {
  agent : option Agent;              (** [None]: its process has ended *)
  w_registry : gmap bytes (CbsdInfo D);
  w_sas : option Sas;
  w_myCbsdId : bytes;                (** the proxy thread's *)
  w_open : bool                      (** the proxy thread's loop runs *)
}.

Definition connected (r : gmap bytes (CbsdInfo D)) (s : Sas) : World :=
  mkWorld (Some newAgent) r (Some s) [] true.

(** The device's process ends; a thread still waiting for it disconnects. *)
Definition leave (w : World) : World :=
  mkWorld None (if w_open w then disconnect (w_myCbsdId w) (w_registry w) else w_registry w)
    (w_sas w) (w_myCbsdId w) false.

(** [sendMsg], the proxy's turn and [recvMsg]: a closed connection or an empty
    frame receives nothing, and ends the device. *)
Definition ask (w : World) (req : bytes) (k : bytes -> Agent) : World :=
  if w_open w then
    let '(r, s, my, resp, closed) := dp_turn (w_registry w) (w_sas w) (w_myCbsdId w) req in
    let w' := mkWorld (agent w) r s my (negb closed) in
    match resp with
    | [] => leave w'
    | _ :: _ => mkWorld (Some (k resp)) r s my (negb closed)
    end
  else leave w.

Definition turn (cfg : CbsdConfig) (w : World) (line : bytes) : World :=
  match agent w with
  | None => w
  | Some a =>
      match command cfg a line with
      | Stay => w
      | Leave => leave w
      | Ask req k => ask w req k
      end
  end.

Definition session (cfg : CbsdConfig) (r : gmap bytes (CbsdInfo D)) (s : Sas) (lines : list bytes) : World :=
  fold_left (turn cfg) lines (connected r s).

End Agent.
Arguments CbsdConfig : clear implicits.
Arguments Agent : clear implicits.
Arguments World : clear implicits.

Section Session.
Context {D : Type} `{Doubles D}.

(** ** The device and the proxy agree *)

Definition wf_config (cfg : CbsdConfig D) : Prop :=
  noquote (cfg_fccId cfg) /\ noquote (cfg_callSign cfg) /\ noquote (cfg_category cfg).

(** The entry of a device that holds a grant, or holds none. *)
Definition same_grant (a : Agent D) (i : CbsdInfo D) : Prop :=
  match a_state a with
  | UNREGISTERED => False
  | REGISTERED => a_grantId a = [] /\ grantFreq a = d_of_Z 0 /\ grantBw a = d_of_Z 0 /\ a_maxEirp a = d_of_Z 0
  | GRANTED | AUTHORIZED =>
      (exists g, a_grantId a = grant_name g)
      /\ grantFreqMHz i = grantFreq a /\ grantBwMHz i = grantBw a /\ maxEirp i = a_maxEirp a
  end.

(** The device's state is the proxy's entry of it. *)
Inductive agree (cfg : CbsdConfig D) : World D -> Prop :=
| agree_new a r s :
    a_state a = UNREGISTERED -> a_cbsdId a = [] -> a_grantId a = [] ->
    grantFreq a = d_of_Z 0 -> grantBw a = d_of_Z 0 -> a_maxEirp a = d_of_Z 0 ->
    agree cfg (mkWorld (Some a) r (Some s) [] true)
| agree_registered a r s n i :
    a_cbsdId a = cbsd_name n -> r !! cbsd_name n = Some i ->
    state i = a_state a -> grantId i = a_grantId a -> fccId i = cfg_fccId cfg -> same_grant a i ->
    agree cfg (mkWorld (Some a) r (Some s) (cbsd_name n) true)
| agree_deregistered a r s n :
    a_state a = UNREGISTERED -> a_cbsdId a = [] -> a_grantId a = [] -> r !! cbsd_name n = None ->
    agree cfg (mkWorld (Some a) r (Some s) (cbsd_name n) false)
| agree_ended r s my :
    (my = [] \/ r !! my = None) -> agree cfg (mkWorld None r (Some s) my false).

Lemma grant_name_noquote (n : Z) : noquote (grant_name n).
Proof.
  apply noquote_app; [apply noquote_lit; reflexivity|].
  eapply List.Forall_impl; [|apply to_stringZ_chars]. unfold is_digit. cbn. lia.
Qed.

Lemma grant_name_nonempty (n : Z) : grant_name n <> [].
Proof. discriminate. Qed.

(** What the SAS and the proxy read in the device's requests. *)
Lemma read_registration_request (cfg : CbsdConfig D) :
  wf_config cfg ->
  get (registration_request cfg) (str "type") = str "RegistrationRequest"
  /\ get (registration_request cfg) (str "fccId") = cfg_fccId cfg
  /\ get (registration_request cfg) (str "callSign") = cfg_callSign cfg
  /\ get (registration_request cfg) (str "cbsdCategory") = cfg_category cfg.
Proof.
  intros (H1 & H2 & H3). unfold registration_request.
  repeat apply conj; cbrs_get 4%nat; reflexivity.
Qed.

Lemma read_grant_request (cfg : CbsdConfig D) (a : Agent D) :
  noquote (a_cbsdId a) ->
  get (grant_request cfg a) (str "type") = str "GrantRequest"
  /\ get (grant_request cfg a) (str "cbsdId") = a_cbsdId a
  /\ get (grant_request cfg a) (str "operationFrequencyMHz") = flt (desiredFreqMHz cfg)
  /\ get (grant_request cfg a) (str "operationBandwidthMHz") = flt (desiredBwMHz cfg)
  /\ get (grant_request cfg a) (str "maxEirp")
     = json.num (if bool_decide (cfg_category cfg = str "A") then 30 else 47).
Proof.
  intros Hid. unfold grant_request, flt. repeat apply conj; cbrs_get 5%nat; reflexivity.
Qed.

Lemma read_grant_response (id g : bytes) (f b e : D) :
  noquote id -> noquote g ->
  let r := grant_response id g f b e in
  get r (str "type") = str "GrantResponse" /\ get r (str "grantId") = g
  /\ get r (str "operationFrequencyMHz") = flt f /\ get r (str "operationBandwidthMHz") = flt b
  /\ get r (str "maxEirp") = json.num (d_int e) /\ get r (str "responseCode") = str "0".
Proof.
  intros Hid Hg r. unfold r, grant_response, ok_response, flt.
  repeat apply conj; cbrs_get 10%nat; reflexivity.
Qed.

(** ** The proxy's turn on each request *)

Lemma read_info_entry (r : gmap bytes (CbsdInfo D)) (my : bytes) (i : CbsdInfo D) :
  my <> [] -> r !! my = Some i -> read_info my r = i.
Proof. intros Hmy E. unfold read_info, lookup_cbsd. destruct my; [contradiction|]. rewrite E. reflexivity. Qed.

(** A request that is neither a grant nor a heartbeat is not guarded. *)
Lemma guard_other (req : bytes) (i : CbsdInfo D) :
  get req (str "type") <> str "GrantRequest" -> get req (str "type") <> str "HeartbeatRequest" ->
  guard req i = None.
Proof. intros H1 H2. unfold guard. rewrite (bool_decide_eq_false_2 _ H1), (bool_decide_eq_false_2 _ H2). reflexivity. Qed.

(** The SAS answers, and the proxy's turn is the update. *)
Lemma dp_turn_answered (r : gmap bytes (CbsdInfo D)) (s s' : Sas) (my req resp : bytes) :
  guard req (read_info my r) = None -> sas_handle s req = Returns (s', resp) ->
  dp_turn r (Some s) my req
  = let '(r', my', c) := update r my req resp in (r', Some s', my', resp, c).
Proof. intros Eg Es. unfold dp_turn. rewrite Eg. cbn [forwardToSas]. rewrite Es. reflexivity. Qed.

Definition registered_entry (cfg : CbsdConfig D) (n : Z) : CbsdInfo D :=
  let z := d_of_Z 0 in
  mkCbsd (cbsd_name n) (cfg_fccId cfg) (cfg_callSign cfg) (cfg_category cfg) z z z z REGISTERED [] z z z.

Lemma turn_registration (cfg : CbsdConfig D) (r : gmap bytes (CbsdInfo D)) (s : Sas) (my : bytes) :
  wf_config cfg ->
  let n := g_cbsdCounter s in
  dp_turn r (Some s) my (registration_request cfg)
  = (<[cbsd_name n := registered_entry cfg n]> r, Some (mkSas (s32 (n + 1)) (g_grantCounter s)),
     cbsd_name n, registration_response (cbsd_name n), false).
Proof.
  intros Hc n. destruct (read_registration_request cfg Hc) as (Et & E1 & E2 & E3).
  destruct (read_registration n) as [R1 R2].
  rewrite (dp_turn_answered r s (mkSas (s32 (n + 1)) (g_grantCounter s)) my _ (registration_response (cbsd_name n))).
  - unfold update. rewrite E1, E2, E3, R1, R2. cbn. reflexivity.
  - apply guard_other; rewrite Et; discriminate.
  - unfold sas_handle. rewrite Et. cbn. reflexivity.
Qed.

Lemma value_or_flt (d : D) (n : Z) : exists v, value_or (flt d) n = Returns v.
Proof.
  unfold flt. destruct (d_show_stod d) as [Hne Hs]. destruct (d_show d); [contradiction|]. cbn.
  destruct (d_stod _) as [v|]; [|contradiction]. exists v. reflexivity.
Qed.

Lemma value_or_num (z n : Z) : - 2 ^ 31 <= z < 2 ^ 31 -> exists v, value_or (json.num z) n = Returns v.
Proof.
  intros Hz. pose proof (d_stod_num z Hz) as Hs. pose proof (to_stringZ_nonempty z) as Hne.
  unfold json.num in *. destruct (to_stringZ z); [contradiction|]. cbn.
  destruct (d_stod _) as [v|]; [|contradiction]. exists v. reflexivity.
Qed.

Lemma turn_grant (cfg : CbsdConfig D) (a : Agent D) (r : gmap bytes (CbsdInfo D)) (s : Sas) (my : bytes)
    (i : CbsdInfo D) :
  my <> [] -> noquote (a_cbsdId a) -> r !! my = Some i -> state i = REGISTERED ->
  exists f b e, let g := grant_name (g_grantCounter s) in
  dp_turn r (Some s) my (grant_request cfg a)
  = (setGrant my g (stod_or_zero (flt f)) (stod_or_zero (flt b)) (stod_or_zero (json.num (d_int e))) r,
     Some (mkSas (g_cbsdCounter s) (s32 (g_grantCounter s + 1))), my,
     grant_response (a_cbsdId a) g f b e, false).
Proof.
  intros Hmy Hid Er Ei. destruct (read_grant_request cfg a Hid) as (Et & E1 & E2 & E3 & E4).
  destruct (value_or_flt (desiredFreqMHz cfg) 3555) as [f Ef].
  destruct (value_or_flt (desiredBwMHz cfg) 10) as [b Eb].
  destruct (value_or_num (if bool_decide (cfg_category cfg = str "A") then 30 else 47) 30) as [e Ee];
    [destruct (bool_decide _); lia|].
  exists f, (cap 20 b), (cap 30 e). set (g := grant_name (g_grantCounter s)).
  destruct (read_grant_response (a_cbsdId a) g f (cap 20 b) (cap 30 e) Hid (grant_name_noquote _))
    as (R1 & R2 & R3 & R4 & R5 & R6).
  cbv zeta. rewrite (dp_turn_answered r s (mkSas (g_cbsdCounter s) (s32 (g_grantCounter s + 1))) my _
             (grant_response (a_cbsdId a) g f (cap 20 b) (cap 30 e))).
  - unfold update. rewrite R1, R2, R3, R4, R5, R6. cbn. reflexivity.
  - rewrite (read_info_entry r my i Hmy Er). unfold guard. rewrite Et, Ei. cbn. reflexivity.
  - unfold sas_handle. rewrite Et, E1, E2, E3, E4, Ef, Eb, Ee. cbn. reflexivity.
Qed.

Lemma turn_heartbeat (a : Agent D) (r : gmap bytes (CbsdInfo D)) (s : Sas) (my : bytes) (i : CbsdInfo D) :
  my <> [] -> noquote (a_cbsdId a) -> noquote (a_grantId a) -> r !! my = Some i ->
  state i = GRANTED \/ state i = AUTHORIZED ->
  dp_turn r (Some s) my (heartbeat_request a)
  = (setState my AUTHORIZED r, Some s, my, heartbeat_response (a_cbsdId a) (a_grantId a), false).
Proof.
  intros Hmy Hid Hg Er Ei.
  assert (E : get (heartbeat_request a) (str "type") = str "HeartbeatRequest"
              /\ get (heartbeat_request a) (str "cbsdId") = a_cbsdId a
              /\ get (heartbeat_request a) (str "grantId") = a_grantId a)
    by (unfold heartbeat_request; repeat apply conj; cbrs_get 3%nat; reflexivity).
  assert (R : get (heartbeat_response (a_cbsdId a) (a_grantId a)) (str "responseCode") = str "0")
    by (unfold heartbeat_response, ok_response; cbrs_get 6%nat; reflexivity).
  destruct E as (Et & E1 & E2).
  rewrite (dp_turn_answered r s s my _ (heartbeat_response (a_cbsdId a) (a_grantId a))).
  - unfold update. rewrite R. unfold heartbeat_response. rewrite get_type by (apply noquote_lit; reflexivity).
    cbn. reflexivity.
  - rewrite (read_info_entry r my i Hmy Er). unfold guard. rewrite Et.
    destruct Ei as [-> | ->]; cbn; reflexivity.
  - unfold sas_handle. rewrite Et, E1, E2. cbn. reflexivity.
Qed.

Lemma turn_relinquishment (a : Agent D) (r : gmap bytes (CbsdInfo D)) (s : Sas) (my : bytes) :
  noquote (a_cbsdId a) -> noquote (a_grantId a) ->
  dp_turn r (Some s) my (relinquishment_request a)
  = (clearGrant my r, Some s, my, relinquishment_response (a_cbsdId a) (a_grantId a), false).
Proof.
  intros Hid Hg.
  assert (E : get (relinquishment_request a) (str "type") = str "RelinquishmentRequest"
              /\ get (relinquishment_request a) (str "cbsdId") = a_cbsdId a
              /\ get (relinquishment_request a) (str "grantId") = a_grantId a)
    by (unfold relinquishment_request; repeat apply conj; cbrs_get 3%nat; reflexivity).
  assert (R : get (relinquishment_response (a_cbsdId a) (a_grantId a)) (str "responseCode") = str "0")
    by (unfold relinquishment_response, ok_response; cbrs_get 4%nat; reflexivity).
  destruct E as (Et & E1 & E2).
  rewrite (dp_turn_answered r s s my _ (relinquishment_response (a_cbsdId a) (a_grantId a))).
  - unfold update. rewrite R. unfold relinquishment_response.
    rewrite get_type by (apply noquote_lit; reflexivity). cbn. reflexivity.
  - apply guard_other; rewrite Et; discriminate.
  - unfold sas_handle. rewrite Et, E1, E2. cbn. reflexivity.
Qed.

Lemma turn_deregistration (a : Agent D) (r : gmap bytes (CbsdInfo D)) (s : Sas) (my : bytes) :
  noquote (a_cbsdId a) ->
  dp_turn r (Some s) my (deregistration_request a)
  = (remove my r, Some s, my, deregistration_response (a_cbsdId a), true).
Proof.
  intros Hid.
  assert (E : get (deregistration_request a) (str "type") = str "DeregistrationRequest"
              /\ get (deregistration_request a) (str "cbsdId") = a_cbsdId a)
    by (unfold deregistration_request; repeat apply conj; cbrs_get 2%nat; reflexivity).
  destruct E as (Et & E1).
  rewrite (dp_turn_answered r s s my _ (deregistration_response (a_cbsdId a))).
  - unfold update. unfold deregistration_response.
    rewrite get_type by (apply noquote_lit; reflexivity). cbn. reflexivity.
  - apply guard_other; rewrite Et; discriminate.
  - unfold sas_handle. rewrite Et, E1. cbn. reflexivity.
Qed.

(** ** A session *)

Lemma state_cases (a : Agent D) (i : CbsdInfo D) :
  same_grant a i -> a_grantId a <> [] -> a_state a = GRANTED \/ a_state a = AUTHORIZED.
Proof. unfold same_grant. destruct (a_state a); intros Hs Hg; tauto. Qed.

Lemma same_grant_id (a : Agent D) (i : CbsdInfo D) :
  same_grant a i -> a_state a = GRANTED \/ a_state a = AUTHORIZED -> exists g, a_grantId a = grant_name g.
Proof. unfold same_grant. intros Hs [E|E]; rewrite E in Hs; apply Hs. Qed.

Lemma agree_register (cfg : CbsdConfig D) (a : Agent D) (r : gmap bytes (CbsdInfo D)) (s : Sas) :
  wf_config cfg -> a_grantId a = [] -> grantFreq a = d_of_Z 0 -> grantBw a = d_of_Z 0 ->
  a_maxEirp a = d_of_Z 0 ->
  agree cfg (ask (mkWorld (Some a) r (Some s) [] true) (registration_request cfg) (on_registration a)).
Proof.
  intros Hc Hg Hf Hb He. unfold ask. cbn [w_open w_registry w_sas w_myCbsdId].
  rewrite turn_registration by exact Hc.
  destruct (read_registration (g_cbsdCounter s)) as [R1 R2].
  change (agree cfg (mkWorld (Some (on_registration a (registration_response (cbsd_name (g_cbsdCounter s)))))
    (<[cbsd_name (g_cbsdCounter s) := registered_entry cfg (g_cbsdCounter s)]> r)
    (Some (mkSas (s32 (g_cbsdCounter s + 1)) (g_grantCounter s))) (cbsd_name (g_cbsdCounter s)) true)).
  unfold on_registration. rewrite R1, R2.
  eapply agree_registered; [reflexivity|apply lookup_insert_eq|reflexivity|symmetry; exact Hg|reflexivity|vm_compute; auto].
Qed.

Lemma agree_grant (cfg : CbsdConfig D) (a : Agent D) (r : gmap bytes (CbsdInfo D)) (s : Sas) (n : Z)
    (i : CbsdInfo D) :
  a_cbsdId a = cbsd_name n -> r !! cbsd_name n = Some i -> state i = a_state a ->
  fccId i = cfg_fccId cfg -> same_grant a i -> a_state a = REGISTERED ->
  agree cfg (ask (mkWorld (Some a) r (Some s) (cbsd_name n) true) (grant_request cfg a) (on_grant a)).
Proof.
  intros Hid Er Ei Ef Hs Ea. unfold ask. cbn [w_open w_registry w_sas w_myCbsdId].
  assert (Hq : noquote (a_cbsdId a)) by (rewrite Hid; apply cbsd_name_noquote).
  destruct (turn_grant cfg a r s (cbsd_name n) i) as (f & b & e & ->);
    [discriminate|exact Hq|exact Er|congruence|].
  unfold same_grant in Hs. rewrite Ea in Hs. destruct Hs as (_ & Hf0 & Hb0 & He0).
  set (g := g_grantCounter s).
  destruct (read_grant_response (a_cbsdId a) (grant_name g) f b e Hq (grant_name_noquote g))
    as (_ & R2 & R3 & R4 & R5 & R6).
  change (agree cfg (mkWorld (Some (on_grant a (grant_response (a_cbsdId a) (grant_name g) f b e)))
    (setGrant (cbsd_name n) (grant_name g) (stod_or_zero (flt f)) (stod_or_zero (flt b))
       (stod_or_zero (json.num (d_int e))) r)
    (Some (mkSas (g_cbsdCounter s) (s32 (g + 1)))) (cbsd_name n) true)).
  unfold on_grant. rewrite R2, R3, R4, R5, R6, Hf0, Hb0, He0.
  eapply agree_registered.
  - exact Hid.
  - unfold setGrant. rewrite lookup_alter_eq, Er. reflexivity.
  - reflexivity.
  - reflexivity.
  - exact Ef.
  - cbn. split; [exists g; reflexivity|]. repeat split.
Qed.

Lemma agree_heartbeat (cfg : CbsdConfig D) (a : Agent D) (r : gmap bytes (CbsdInfo D)) (s : Sas) (n : Z)
    (i : CbsdInfo D) :
  a_cbsdId a = cbsd_name n -> r !! cbsd_name n = Some i -> state i = a_state a -> grantId i = a_grantId a ->
  fccId i = cfg_fccId cfg -> same_grant a i -> a_state a = GRANTED \/ a_state a = AUTHORIZED ->
  agree cfg (ask (mkWorld (Some a) r (Some s) (cbsd_name n) true) (heartbeat_request a) (on_heartbeat a)).
Proof.
  intros Hid Er Ei Eg Ef Hs Ha. unfold ask. cbn [w_open w_registry w_sas w_myCbsdId].
  destruct (same_grant_id a i Hs Ha) as [g Hg].
  rewrite (turn_heartbeat a r s (cbsd_name n) i);
    [|discriminate|rewrite Hid; apply cbsd_name_noquote|rewrite Hg; apply grant_name_noquote|exact Er|
     rewrite Ei; exact Ha].
  change (agree cfg (mkWorld (Some (on_heartbeat a (heartbeat_response (a_cbsdId a) (a_grantId a))))
    (setState (cbsd_name n) AUTHORIZED r) (Some s) (cbsd_name n) true)).
  eapply agree_registered.
  - exact Hid.
  - unfold setState. rewrite lookup_alter_eq, Er. reflexivity.
  - reflexivity.
  - exact Eg.
  - exact Ef.
  - unfold same_grant in *. cbn. destruct Ha as [E|E]; rewrite E in Hs; exact Hs.
Qed.

Lemma agree_relinquish (cfg : CbsdConfig D) (a : Agent D) (r : gmap bytes (CbsdInfo D)) (s : Sas) (n : Z)
    (i : CbsdInfo D) :
  a_cbsdId a = cbsd_name n -> r !! cbsd_name n = Some i ->
  fccId i = cfg_fccId cfg -> same_grant a i -> a_grantId a <> [] ->
  agree cfg (ask (mkWorld (Some a) r (Some s) (cbsd_name n) true) (relinquishment_request a)
               (on_relinquishment a)).
Proof.
  intros Hid Er Ef Hs Hne. unfold ask. cbn [w_open w_registry w_sas w_myCbsdId].
  destruct (same_grant_id a i Hs (state_cases a i Hs Hne)) as [g Hg].
  rewrite turn_relinquishment; [|rewrite Hid; apply cbsd_name_noquote|rewrite Hg; apply grant_name_noquote].
  change (agree cfg (mkWorld (Some (on_relinquishment a (relinquishment_response (a_cbsdId a) (a_grantId a))))
    (clearGrant (cbsd_name n) r) (Some s) (cbsd_name n) true)).
  eapply agree_registered.
  - exact Hid.
  - unfold clearGrant. rewrite lookup_alter_eq, Er. reflexivity.
  - reflexivity.
  - reflexivity.
  - exact Ef.
  - cbn. auto.
Qed.

Lemma agree_deregister (cfg : CbsdConfig D) (a : Agent D) (r : gmap bytes (CbsdInfo D)) (s : Sas) (n : Z) :
  a_cbsdId a = cbsd_name n ->
  agree cfg (ask (mkWorld (Some a) r (Some s) (cbsd_name n) true) (deregistration_request a)
               (on_deregistration a)).
Proof.
  intros Hid. unfold ask. cbn [w_open w_registry w_sas w_myCbsdId].
  rewrite turn_deregistration by (rewrite Hid; apply cbsd_name_noquote).
  change (agree cfg (mkWorld (Some (on_deregistration a (deregistration_response (a_cbsdId a))))
    (remove (cbsd_name n) r) (Some s) (cbsd_name n) false)).
  apply agree_deregistered; try reflexivity. apply lookup_delete_eq.
Qed.

Lemma agree_leave (cfg : CbsdConfig D) (w : World D) : agree cfg w -> agree cfg (leave w).
Proof.
  intros A. destruct A; unfold leave; cbn [w_open w_registry w_sas w_myCbsdId]; apply agree_ended; auto.
  right. apply lookup_delete_eq.
Qed.

(** The requests the device makes in each state. *)
Inductive asks (cfg : CbsdConfig D) (a : Agent D) : Action -> Prop :=
| asks_stay : asks cfg a Stay
| asks_leave : asks cfg a Leave
| asks_register : a_state a = UNREGISTERED ->
    asks cfg a (Ask (registration_request cfg) (on_registration a))
| asks_grant : a_state a = REGISTERED -> asks cfg a (Ask (grant_request cfg a) (on_grant a))
| asks_heartbeat : a_state a = GRANTED \/ a_state a = AUTHORIZED ->
    asks cfg a (Ask (heartbeat_request a) (on_heartbeat a))
| asks_relinquish : a_grantId a <> [] ->
    asks cfg a (Ask (relinquishment_request a) (on_relinquishment a))
| asks_deregister : a_cbsdId a <> [] ->
    asks cfg a (Ask (deregistration_request a) (on_deregistration a)).

Lemma command_asks (cfg : CbsdConfig D) (a : Agent D) (line : bytes) : asks cfg a (command cfg a line).
Proof.
  unfold command.
  destruct (bool_decide (line = [])); [constructor|].
  destruct (is_command _ _ _); [destruct (decide (a_state a = UNREGISTERED));
    [rewrite bool_decide_eq_true_2 by assumption|rewrite bool_decide_eq_false_2 by assumption]; cbn;
    constructor; assumption|].
  destruct (is_command _ _ _); [destruct (decide (a_state a = REGISTERED));
    [rewrite bool_decide_eq_true_2 by assumption|rewrite bool_decide_eq_false_2 by assumption]; cbn;
    constructor; assumption|].
  destruct (is_command _ _ _); [destruct (a_state a) eqn:E; cbn; constructor; auto|].
  destruct (is_command _ _ _); [destruct (a_grantId a) eqn:E; cbn; constructor; congruence|].
  destruct (is_command _ _ _); [destruct (a_cbsdId a) eqn:E; cbn; constructor; congruence|].
  destruct (is_command _ _ _); [constructor|]. destruct (is_command _ _ _); constructor.
Qed.

Lemma agree_turn (cfg : CbsdConfig D) (w : World D) (line : bytes) :
  wf_config cfg -> agree cfg w -> agree cfg (turn cfg w line).
Proof.
  intros Hc A. pose proof (agree_leave cfg w A) as Hl. unfold turn.
  destruct (agent w) as [a|] eqn:Ew; [|exact A].
  pose proof (command_asks cfg a line) as K.
  destruct A as [a' r s Ea Eid Eg Hf Hb He|a' r s n i Hid Er Ei Eg Ef Hs|a' r s n Ea Eid Eg Er|r s my Hr];
    cbn in Ew; try discriminate; injection Ew as ->;
    destruct K as [| |Ka|Ka|Ka|Ka|Ka]; try exact Hl; try congruence.
  - apply agree_new; assumption.
  - apply agree_register; assumption.
  - destruct Ka; congruence.
  - apply (agree_registered cfg a r s n i); assumption.
  - exfalso. unfold same_grant in Hs. rewrite Ka in Hs. exact Hs.
  - eapply agree_grant; eassumption.
  - eapply agree_heartbeat; eassumption.
  - eapply agree_relinquish; eassumption.
  - apply agree_deregister; assumption.
  - apply agree_deregistered; assumption.
Qed.

(** C14. A device with a profile's texts, connected to the proxy whatever else
    it serves: after any list of lines typed at it, the device and the proxy
    agree on its state, its identity, its grant and the grant's frequency,
    bandwidth and power; the SAS still runs. *)
Theorem device_proxy_agree (cfg : CbsdConfig D) (r : gmap bytes (CbsdInfo D)) (s : Sas) (lines : list bytes) :
  wf_config cfg -> agree cfg (session cfg r s lines).
Proof.
  intros Hc. unfold session.
  assert (A : agree cfg (connected r s)) by (apply agree_new; reflexivity). revert A.
  generalize (connected r s) as w. induction lines as [|l lines IH]; intros w A; [exact A|].
  cbn. apply IH, agree_turn; assumption.
Qed.

(** A command that asks, and is answered. *)
Lemma turn_ask (cfg : CbsdConfig D) (line : bytes) (a : Agent D) (r r' : gmap bytes (CbsdInfo D))
    (s s' : option Sas) (my my' req resp : bytes) (k : bytes -> Agent D) (c : bool) :
  command cfg a line = Ask req k -> dp_turn r s my req = (r', s', my', resp, c) -> resp <> [] ->
  turn cfg (mkWorld (Some a) r s my true) line = mkWorld (Some (k resp)) r' s' my' (negb c).
Proof.
  intros Ec Et Hr. unfold turn, ask. cbn [agent w_open w_registry w_sas w_myCbsdId]. rewrite Ec, Et.
  destruct resp; [contradiction|reflexivity].
Qed.

(** Typing REGISTER, GRANT and HEARTBEAT at a fresh device leads to
    transmission, whatever else the proxy and the SAS serve: the device and
    the proxy's entry of it are AUTHORIZED under the grant the SAS named, and
    no other entry has changed. *)
Theorem session_transmits (cfg : CbsdConfig D) (r : gmap bytes (CbsdInfo D)) (s : Sas) :
  wf_config cfg ->
  let k := cbsd_name (g_cbsdCounter s) in
  let w := session cfg r s [str "REGISTER"; str "GRANT"; str "HEARTBEAT"] in
  exists a i, agent w = Some a /\ w_open w = true
    /\ a_state a = AUTHORIZED /\ a_cbsdId a = k /\ a_grantId a = grant_name (g_grantCounter s)
    /\ w_registry w !! k = Some i
    /\ state i = AUTHORIZED /\ grantId i = grant_name (g_grantCounter s) /\ fccId i = cfg_fccId cfg
    /\ grantFreqMHz i = grantFreq a
    /\ forall k', k' <> k -> w_registry w !! k' = r !! k'.
Proof.
  intros Hc k. set (g := grant_name (g_grantCounter s)).
  destruct (read_registration (g_cbsdCounter s)) as [R1 R2]. fold k in R1, R2.
  set (r1 := <[k := registered_entry cfg (g_cbsdCounter s)]> r).
  set (s1 := mkSas (s32 (g_cbsdCounter s + 1)) (g_grantCounter s)).
  set (a1 := mkAgent REGISTERED k [] (d_of_Z 0) (d_of_Z 0) (d_of_Z 0)).
  assert (W1 : turn cfg (connected r s) (str "REGISTER") = mkWorld (Some a1) r1 (Some s1) k true).
  { unfold connected. erewrite turn_ask; [|reflexivity|apply turn_registration, Hc|discriminate].
    unfold on_registration. fold k. rewrite R1, R2. reflexivity. }
  assert (Hk : noquote k) by apply cbsd_name_noquote.
  assert (E1 : r1 !! k = Some (registered_entry cfg (g_cbsdCounter s))) by apply lookup_insert_eq.
  destruct (turn_grant cfg a1 r1 s1 k _ ltac:(discriminate) Hk E1 eq_refl) as (f & b & e & T2).
  cbv zeta in T2.
  destruct (read_grant_response k g f b e Hk (grant_name_noquote _)) as (_ & G2 & G3 & G4 & G5 & G6).
  match type of T2 with _ = (?x, Some ?y, _, _, _) => set (r2 := x) in T2; set (s2 := y) in T2 end.
  set (a2 := on_grant a1 (grant_response k g f b e)).
  assert (W2 : turn cfg (mkWorld (Some a1) r1 (Some s1) k true) (str "GRANT") = mkWorld (Some a2) r2 (Some s2) k true).
  { erewrite turn_ask; [|reflexivity|exact T2|discriminate]. reflexivity. }
  assert (A2 : a2 = mkAgent GRANTED k g (stod_or (flt f) (d_of_Z 0)) (stod_or (flt b) (d_of_Z 0))
                      (stod_or (json.num (d_int e)) (d_of_Z 0)))
    by (unfold a2, on_grant; rewrite G2, G3, G4, G5, G6; reflexivity).
  assert (E2 : exists i, r2 !! k = Some i /\ state i = GRANTED /\ grantId i = g /\ fccId i = cfg_fccId cfg
                         /\ grantFreqMHz i = stod_or (flt f) (d_of_Z 0)).
  { eexists. unfold r2, setGrant. rewrite lookup_alter_eq, E1. cbn. repeat split. }
  destruct E2 as (i & E2 & I1 & I2 & I3 & I4). rewrite A2 in W2. set (a3 := mkAgent GRANTED k g _ _ _) in W2.
  pose proof (turn_heartbeat a3 r2 s2 k i ltac:(discriminate) Hk (grant_name_noquote _) E2 (or_introl I1)) as T3.
  assert (W3 : turn cfg (mkWorld (Some a3) r2 (Some s2) k true) (str "HEARTBEAT")
               = mkWorld (Some (on_heartbeat a3 (heartbeat_response k g))) (setState k AUTHORIZED r2) (Some s2) k true).
  { erewrite turn_ask; [|reflexivity|exact T3|discriminate]. reflexivity. }
  unfold session. cbn [fold_left]. rewrite W1, W2, W3. cbn [agent w_registry w_open].
  eexists _, (with_state AUTHORIZED i). repeat split; auto.
  - unfold setState. rewrite lookup_alter_eq, E2. reflexivity.
  - intros k' Hk'. unfold setState, r2, setGrant, r1.
    rewrite !lookup_alter_ne, lookup_insert_ne by congruence. reflexivity.
Qed.

(** The proxy closes the connection when it deregisters a device, so the
    device's next request ends it. *)
Lemma reregister_ends_device (cfg : CbsdConfig D) (r : gmap bytes (CbsdInfo D)) (s : Sas) :
  wf_config cfg ->
  let w := session cfg r s [str "REGISTER"; str "DEREGISTER"] in
  (exists a, agent w = Some a /\ a_state a = UNREGISTERED)
  /\ agent (turn cfg w (str "REGISTER")) = None.
Proof.
  intros Hc. set (k := cbsd_name (g_cbsdCounter s)).
  destruct (read_registration (g_cbsdCounter s)) as [R1 R2]. fold k in R1, R2.
  unfold session. cbn [fold_left].
  unfold connected. erewrite turn_ask; [|reflexivity|apply turn_registration, Hc|discriminate].
  set (a1 := on_registration newAgent (registration_response k)).
  assert (E1 : a1 = mkAgent REGISTERED k [] (d_of_Z 0) (d_of_Z 0) (d_of_Z 0))
    by (unfold a1, on_registration; rewrite R1, R2; reflexivity).
  fold k. fold a1. rewrite E1.
  erewrite turn_ask; [|reflexivity|apply turn_deregistration, cbsd_name_noquote|discriminate].
  split; [eexists; split; reflexivity|reflexivity].
Qed.

Lemma profiles_wf : Forall (fun p => wf_config p.2) CBSD_PROFILES.
Proof.
  apply List.Forall_forall. intros p Hp. repeat (destruct Hp as [<-|Hp]; [repeat split; apply noquote_lit; reflexivity|]).
  destruct Hp.
Qed.

End Session.

Lemma device_proxy_agree_witness :
  exists cfg : CbsdConfig Z, profile [str "3"] = Some cfg
  /\ agree cfg (session cfg ∅ newSas [str "grant"; str "register"; str "GRANT"; str "QUIT"]).
Proof.
  eexists. split; [reflexivity|]. apply device_proxy_agree.
  repeat split; apply noquote_lit; reflexivity.
Defined.

Lemma session_transmits_witness :
  exists (cfg : CbsdConfig Z) a i, profile [] = Some cfg
  /\ let w := session cfg ∅ newSas [str "REGISTER"; str "GRANT"; str "HEARTBEAT"] in
     agent w = Some a /\ a_state a = AUTHORIZED /\ w_registry w !! str "CBSD-SAS-1" = Some i
     /\ state i = AUTHORIZED.
Proof.
  eexists. edestruct (session_transmits (D := Z)) as (a & i & H1 & _ & H2 & _ & _ & H3 & H4 & _);
    [|exists a, i; split; [reflexivity|]; split; [exact H1|]; split; [exact H2|]; split; [exact H3|exact H4]].
  repeat split; apply noquote_lit; reflexivity.
Defined.
