(* ===== verification/Sip.v ===== *)
(** * SIP and Diameter messages of the IMS nodes

    [ims-simulator/src/ims/sip.h] and [common/tlv.h]: the message types and
    tags of the IMS interfaces, their writer, and the parsing loop of the IMS
    handlers, whose locals are strings.  The TLV format is the one of the 4G
    nodes ([Tlv]); a code of this protocol is cast to the types of that one,
    so the writer takes codes here. *)

From S2P Require Import Prelude Tlv NodeEnv.
#[local] Open Scope Z_scope.

(** ** Message types and tags *)

Inductive SipMsgType : Set :=
| SIP_REGISTER | SIP_INVITE | SIP_ACK | SIP_BYE | SIP_CANCEL
| SIP_100_TRYING | SIP_180_RINGING | SIP_183_PROGRESS | SIP_200_OK
| DIA_CX_UAR | DIA_CX_UAA | DIA_CX_SAR | DIA_CX_SAA
| DIA_RX_AAR | DIA_RX_AAA.

Definition sip_code (t : SipMsgType) : Z :=
  match t with
  | SIP_REGISTER => 0x0501 | SIP_INVITE => 0x0502 | SIP_ACK => 0x0503
  | SIP_BYE => 0x0504 | SIP_CANCEL => 0x0505
  | SIP_100_TRYING => 0x0510 | SIP_180_RINGING => 0x0511
  | SIP_183_PROGRESS => 0x0512 | SIP_200_OK => 0x0513
  | DIA_CX_UAR => 0x0601 | DIA_CX_UAA => 0x0602 | DIA_CX_SAR => 0x0603
  | DIA_CX_SAA => 0x0604 | DIA_RX_AAR => 0x0701 | DIA_RX_AAA => 0x0702
  end.

Definition all_sip_types : list SipMsgType :=
  [SIP_REGISTER; SIP_INVITE; SIP_ACK; SIP_BYE; SIP_CANCEL; SIP_100_TRYING;
   SIP_180_RINGING; SIP_183_PROGRESS; SIP_200_OK; DIA_CX_UAR; DIA_CX_UAA;
   DIA_CX_SAR; DIA_CX_SAA; DIA_RX_AAR; DIA_RX_AAA].

(** What a [switch] over the type finds: the enumerator of a code. *)
Definition sip_of_code (z : Z) : option SipMsgType :=
  List.find (fun t => sip_code t =? z) all_sip_types.

Definition sip_type_str (z : Z) : bytes :=
  match sip_of_code z with
  | Some SIP_REGISTER => str "SIP REGISTER"
  | Some SIP_INVITE => str "SIP INVITE"
  | Some SIP_ACK => str "SIP ACK"
  | Some SIP_BYE => str "SIP BYE"
  | Some SIP_CANCEL => str "SIP CANCEL"
  | Some SIP_100_TRYING => str "SIP 100 Trying"
  | Some SIP_180_RINGING => str "SIP 180 Ringing"
  | Some SIP_183_PROGRESS => str "SIP 183 Session Progress"
  | Some SIP_200_OK => str "SIP 200 OK"
  | Some DIA_CX_UAR => str "Diameter Cx UAR"
  | Some DIA_CX_UAA => str "Diameter Cx UAA"
  | Some DIA_CX_SAR => str "Diameter Cx SAR"
  | Some DIA_CX_SAA => str "Diameter Cx SAA"
  | Some DIA_RX_AAR => str "Diameter Rx AAR"
  | Some DIA_RX_AAA => str "Diameter Rx AAA"
  | None => str "UNKNOWN"
  end.

Inductive SipTag : Set :=
| SIP_FROM | SIP_TO | SIP_CONTACT | SIP_CALL_ID | SIP_CSEQ | SIP_VIA | SIP_EXPIRES
| SIP_IMPU | SIP_IMPI | SIP_SCSCF_NAME | SIP_SDP | SIP_STATUS_CODE | SIP_REASON
| CX_IMPU | CX_IMPI | CX_VISITED_NW | CX_SCSCF_NAME
| RX_IMPU | RX_MED_COMP | RX_RESULT.

Definition sip_tag (t : SipTag) : Z :=
  match t with
  | SIP_FROM => 0x0500 | SIP_TO => 0x0501 | SIP_CONTACT => 0x0502
  | SIP_CALL_ID => 0x0503 | SIP_CSEQ => 0x0504 | SIP_VIA => 0x0505
  | SIP_EXPIRES => 0x0506 | SIP_IMPU => 0x0507 | SIP_IMPI => 0x0508
  | SIP_SCSCF_NAME => 0x0509 | SIP_SDP => 0x050A | SIP_STATUS_CODE => 0x050B
  | SIP_REASON => 0x050C
  | CX_IMPU => 0x0600 | CX_IMPI => 0x0601 | CX_VISITED_NW => 0x0602
  | CX_SCSCF_NAME => 0x0603
  | RX_IMPU => 0x0700 | RX_MED_COMP => 0x0701 | RX_RESULT => 0x0702
  end.

Definition sip_tag_eqb (t t' : SipTag) : bool := sip_tag t =? sip_tag t'.

(** ** Writing *)

(** [MessageWriter(static_cast<MessageType>(type), seq)]. *)
Definition sip_writer (type : SipMsgType) (seq : Z) : MessageWriter :=
  pu32 (pu16 (pu16 (mkWriter [0; 0; 0; 0]) (sip_code type)) 0) seq.

(** [writeStr(static_cast<Tag>(tag), s)]. *)
Definition sip_str (w : MessageWriter) (t : SipTag) (s : bytes) : MessageWriter :=
  let x := sip_tag t in
  let n := u16 (Z.of_nat (length s)) in
  put (put w [u8 x; u8 (Z.shiftr x 8); u8 n; u8 (Z.shiftr n 8)]) (take (Z.to_nat n) s).

(** A message is written by a constructor and calls of [writeStr]. *)
Abbreviation fields := (list (SipTag * bytes)).

Definition sip_message (type : SipMsgType) (seq : Z) (fs : fields) : MessageWriter :=
  foldl (fun w '(t, s) => sip_str w t s) (sip_writer type seq) fs.

(** [class SipWriter]: the calls are kept and written by [build]. *)
Record SipWriter : Type := mkSipWriter {
  sw_type : SipMsgType;
  sw_seq : Z;
  fields_ : fields
}.

Definition newSipWriter (type : SipMsgType) (seq : Z) : SipWriter := mkSipWriter type seq [].

Definition sw_add (t : SipTag) (v : bytes) (w : SipWriter) : SipWriter :=
  mkSipWriter (sw_type w) (sw_seq w) (fields_ w ++ [(t, v)]).

Definition sw_build (w : SipWriter) : bytes :=
  frame (foldl (fun m '(t, s) => sip_str m t s) (sip_writer (sw_type w) (sw_seq w)) (fields_ w)).

(** ** Reading *)

(** The locals of a handler, by the tag each is read from. *)
Definition locals : Type := SipTag -> bytes.

Definition no_locals : locals := fun _ => [].

Definition set_local (t : SipTag) (v : bytes) (l : locals) : locals :=
  fun t' => if sip_tag_eqb t' t then v else l t'.

(** [while (r.hasMore()) { peek; if (tag == T1) x1 = r.readStr(); else if ...
    else r.skip(); }] for a handler with a local for each of [tags]. *)
Fixpoint sip_loop (fuel : nat) (tags : list SipTag) (r : MessageReader) (l : locals) :
    res locals :=
  match fuel with
  | O => OutOfFuel
  | S fuel' =>
      if hasMore r then
        match peek r with
        | None => Ok l
        | Some (tag, _) =>
            match List.find (fun t => sip_tag t =? tag) tags with
            | Some t => '(v, r') ← readStr r; sip_loop fuel' tags r' (set_local t v l)
            | None => sip_loop fuel' tags (skip r) l
            end
        end
      else Ok l
  end.

Definition sip_parse (tags : list SipTag) (payload : bytes) : res locals :=
  sip_loop (S (length payload)) tags (newReader payload) no_locals.

(** The loop that breaks at the first field of the tag. *)
Fixpoint first_loop (fuel : nat) (t : SipTag) (r : MessageReader) : res bytes :=
  match fuel with
  | O => OutOfFuel
  | S fuel' =>
      if hasMore r then
        match peek r with
        | None => Ok []
        | Some (tag, _) =>
            if tag =? sip_tag t then '(v, _) ← readStr r; Ok v
            else first_loop fuel' t (skip r)
        end
      else Ok []
  end.

Definition sip_first (t : SipTag) (payload : bytes) : res bytes :=
  first_loop (S (length payload)) t (newReader payload).

(** The type of a payload, as the [switch] of a receive loop sees it. *)
Definition sip_type (payload : bytes) : option SipMsgType :=
  sip_of_code (msgType (newReader payload)).

(** ** Frames *)

(** What [sendPayload] puts on the wire. *)
Definition payload_frame (p : bytes) : bytes := le32 (u32 (Z.of_nat (length p))) ++ p.

(** What [recvFrame] makes of a frame that is there as a whole. *)
Definition recv_payload (f : bytes) : option bytes :=
  match f with
  | b0 :: b1 :: b2 :: b3 :: p =>
      let plen := from_le32 b0 b1 b2 b3 in
      if (plen =? 0) || (plen >? 65536) then None
      else if (Z.to_nat plen =? length p)%nat then Some p else None
  | _ => None
  end.

(** ** The specification side *)

Definition enc_sip_field (f : SipTag * bytes) : bytes :=
  le16 (sip_tag f.1) ++ le16 (Z.of_nat (length f.2)) ++ f.2.

Definition enc_sip_fields (fs : fields) : bytes := concat (map enc_sip_field fs).

Definition enc_sip (type : SipMsgType) (seq : Z) (fs : fields) : bytes :=
  le16 (sip_code type) ++ le16 0 ++ le32 seq ++ enc_sip_fields fs.

Definition wf_fields_sip (fs : fields) : Prop :=
  Forall (fun f => Z.of_nat (length f.2) < 65536) fs.

(** What a handler gets from the fields: of each tag it reads, the last. *)
Fixpoint sip_locals (tags : list SipTag) (fs : fields) (l : locals) : locals :=
  match fs with
  | [] => l
  | (t, v) :: fs' =>
      sip_locals tags fs' (if existsb (sip_tag_eqb t) tags then set_local t v l else l)
  end.

Fixpoint first_of (t : SipTag) (fs : fields) : bytes :=
  match fs with
  | [] => []
  | (t', v) :: fs' => if sip_tag_eqb t' t then v else first_of t fs'
  end.

Fixpoint fields_len (fs : fields) : nat :=
  match fs with
  | [] => 0%nat
  | (_, v) :: fs' => (4 + length v + fields_len fs')%nat
  end.

(** ** Lemmas: codes *)

Lemma sip_tag_range (t : SipTag) : in_u 16 (sip_tag t).
Proof. unfold in_u. destruct t; cbn; lia. Qed.

Lemma sip_code_range (t : SipMsgType) : in_u 16 (sip_code t).
Proof. unfold in_u. destruct t; cbn; lia. Qed.

Lemma sip_of_code_code (t : SipMsgType) : sip_of_code (sip_code t) = Some t.
Proof. destruct t; reflexivity. Qed.

Lemma sip_tag_inj (t t' : SipTag) : sip_tag t = sip_tag t' -> t = t'.
Proof. destruct t, t'; cbn; first [reflexivity|lia]. Qed.

Lemma find_sip_tag (tags : list SipTag) (t : SipTag) :
  List.find (fun t' => sip_tag t' =? sip_tag t) tags =
  if existsb (sip_tag_eqb t) tags then Some t else None.
Proof.
  induction tags as [|t' tags IH]; cbn; [reflexivity|].
  unfold sip_tag_eqb at 1. rewrite (Z.eqb_sym (sip_tag t)).
  destruct (Z.eqb_spec (sip_tag t') (sip_tag t)) as [E|E]; cbn; [|exact IH].
  rewrite (sip_tag_inj _ _ E). reflexivity.
Qed.

(** ** Lemmas: writing *)

Lemma sip_str_enc (w : MessageWriter) (t : SipTag) (s : bytes) :
  Z.of_nat (length s) < 65536 -> buf_ (sip_str w t s) = buf_ w ++ enc_sip_field (t, s).
Proof.
  intros H. unfold sip_str, enc_sip_field. rewrite u16_small by (unfold in_u; lia).
  rewrite Nat2Z.id, take_ge by lia. cbn. rewrite <- !app_assoc. reflexivity.
Qed.

Lemma foldl_sip_str (fs : fields) (w : MessageWriter) :
  wf_fields_sip fs ->
  buf_ (foldl (fun w '(t, s) => sip_str w t s) w fs) = buf_ w ++ enc_sip_fields fs.
Proof.
  revert w. induction fs as [|[t s] fs IH]; intros w H; cbn.
  - rewrite app_nil_r. reflexivity.
  - inversion_clear H. rewrite IH, sip_str_enc by assumption.
    rewrite <- app_assoc. reflexivity.
Qed.

Lemma sip_message_buf (type : SipMsgType) (seq : Z) (fs : fields) :
  wf_fields_sip fs -> buf_ (sip_message type seq fs) = [0; 0; 0; 0] ++ enc_sip type seq fs.
Proof.
  intros H. unfold sip_message. rewrite foldl_sip_str by exact H.
  reflexivity.
Qed.

Lemma sip_message_udp (type : SipMsgType) (seq : Z) (fs : fields) :
  wf_fields_sip fs -> udpPayload (sip_message type seq fs) = enc_sip type seq fs.
Proof. intros H. unfold udpPayload. rewrite sip_message_buf by exact H. reflexivity. Qed.

Lemma enc_sip_fields_length (fs : fields) : length (enc_sip_fields fs) = fields_len fs.
Proof.
  induction fs as [|[t s] fs IH]; [reflexivity|].
  unfold enc_sip_fields in *. cbn. rewrite length_app, IH. reflexivity.
Qed.

Lemma enc_sip_length (type : SipMsgType) (seq : Z) (fs : fields) :
  length (enc_sip type seq fs) = (8 + fields_len fs)%nat.
Proof. unfold enc_sip. rewrite !length_app, enc_sip_fields_length. reflexivity. Qed.

Lemma sip_message_frame (type : SipMsgType) (seq : Z) (fs : fields) :
  wf_fields_sip fs -> Z.of_nat (fields_len fs) <= 65528 ->
  frame (sip_message type seq fs) = payload_frame (enc_sip type seq fs).
Proof.
  intros H Hl. unfold payload_frame.
  rewrite (frame_split _ (enc_sip type seq fs) 0 0 0 0);
    [|apply sip_message_buf; exact H|rewrite enc_sip_length; lia].
  rewrite u32_small; [reflexivity|]. unfold in_u. rewrite enc_sip_length. lia.
Qed.

Lemma recv_payload_frame (p : bytes) :
  (0 < length p)%nat -> Z.of_nat (length p) <= 65536 -> recv_payload (payload_frame p) = Some p.
Proof.
  intros H0 H1. unfold payload_frame, recv_payload, le32. cbn [app].
  rewrite le32_roundtrip by apply u32_range. rewrite u32_small by (unfold in_u; lia).
  rewrite Nat2Z.id, Nat.eqb_refl. destruct (Z.eqb_spec (Z.of_nat (length p)) 0); [lia|].
  rewrite Z.gtb_ltb. destruct (Z.ltb_spec 65536 (Z.of_nat (length p))); [lia|]. reflexivity.
Qed.

Lemma recv_message (type : SipMsgType) (seq : Z) (fs : fields) :
  wf_fields_sip fs -> Z.of_nat (fields_len fs) <= 65528 ->
  recv_payload (frame (sip_message type seq fs)) = Some (enc_sip type seq fs).
Proof.
  intros H Hl. rewrite sip_message_frame by assumption.
  apply recv_payload_frame; rewrite enc_sip_length; lia.
Qed.

Lemma recv_forward (type : SipMsgType) (seq : Z) (fs : fields) :
  Z.of_nat (fields_len fs) <= 65528 ->
  recv_payload (payload_frame (enc_sip type seq fs)) = Some (enc_sip type seq fs).
Proof. intros Hl. apply recv_payload_frame; rewrite enc_sip_length; lia. Qed.

(** ** Lemmas: reading *)

Lemma newReader_sip (type : SipMsgType) (seq : Z) (fs : fields) (tl : bytes) :
  in_u 32 seq ->
  newReader (enc_sip type seq fs ++ tl) =
  mkReader (enc_sip type seq fs ++ tl) 8 (sip_code type) 0 seq.
Proof.
  intros Hs. unfold newReader, enc_sip, le32; cbn.
  rewrite le16_roundtrip, le32_roundtrip by first [apply sip_code_range|exact Hs].
  reflexivity.
Qed.

Lemma sip_type_enc (type : SipMsgType) (seq : Z) (fs : fields) :
  in_u 32 seq -> sip_type (enc_sip type seq fs) = Some type.
Proof.
  intros Hs. unfold sip_type. rewrite <- (app_nil_r (enc_sip type seq fs)), newReader_sip by exact Hs.
  apply sip_of_code_code.
Qed.

Section Field.
Variables (r : MessageReader) (t : SipTag) (s l : bytes).
Hypothesis Hs : Z.of_nat (length s) < 65536.
Hypothesis Hr : rest r = enc_sip_field (t, s) ++ l.

Lemma field_more : hasMore r = true.
Proof. rewrite hasMore_rest, Hr. reflexivity. Qed.

Lemma field_peek : peek r = Some (sip_tag t, Z.of_nat (length s)).
Proof.
  apply (peek_hdr r _ _ (s ++ l)); [apply sip_tag_range|unfold in_u; lia|].
  rewrite Hr. unfold enc_sip_field. rewrite <- !app_assoc. reflexivity.
Qed.

Lemma field_read : exists r', readStr r = Ok (s, r') /\ rest r' = l.
Proof.
  destruct (readBytes_hdr r (sip_tag t) s l) as (r' & H1 & H2 & _);
    [apply sip_tag_range|exact Hs| |exists r'; auto].
  rewrite Hr. unfold enc_sip_field. rewrite <- !app_assoc. reflexivity.
Qed.

Lemma field_skip : rest (skip r) = l.
Proof.
  unfold skip. rewrite field_peek, rest_advance, Hr, Nat2Z.id.
  unfold enc_sip_field. cbn [fst snd]. rewrite (app_assoc (le16 _)), <- app_assoc, app_assoc.
  apply drop_app_length'. rewrite !length_app. reflexivity.
Qed.

End Field.

Lemma sip_loop_enc (tags : list SipTag) (fs : fields) (fuel : nat) (r : MessageReader) (l : locals) :
  wf_fields_sip fs -> rest r = enc_sip_fields fs -> (fields_len fs < fuel)%nat ->
  sip_loop fuel tags r l = Ok (sip_locals tags fs l).
Proof.
  revert fuel r l. induction fs as [|[t s] fs IH]; intros fuel r l Hwf E Hf;
    (destruct fuel as [|fuel]; [lia|]); cbn [sip_loop].
  - rewrite hasMore_rest, E. reflexivity.
  - inversion_clear Hwf as [|? ? Hs Hfs]. cbn in Hs.
    assert (Hr : rest r = enc_sip_field (t, s) ++ enc_sip_fields fs) by exact E.
    rewrite (field_more r t s _ Hr), (field_peek r t s _ Hs Hr), find_sip_tag. cbn in Hf |- *.
    destruct (existsb (sip_tag_eqb t) tags).
    + destruct (field_read r t s _ Hs Hr) as (r' & -> & Hr'). cbn.
      apply IH; [exact Hfs|exact Hr'|lia].
    + apply IH; [exact Hfs|apply (field_skip r t s _ Hs Hr)|lia].
Qed.

(** What a handler gets from a message another node wrote. *)
Lemma sip_parse_enc (tags : list SipTag) (type : SipMsgType) (seq : Z) (fs : fields) :
  in_u 32 seq -> wf_fields_sip fs ->
  sip_parse tags (enc_sip type seq fs) = Ok (sip_locals tags fs no_locals).
Proof.
  intros Hs Hwf. unfold sip_parse. rewrite enc_sip_length.
  rewrite <- (app_nil_r (enc_sip type seq fs)), newReader_sip, app_nil_r by exact Hs.
  apply sip_loop_enc; [exact Hwf|reflexivity|lia].
Qed.

Lemma first_loop_enc (t : SipTag) (fs : fields) (fuel : nat) (r : MessageReader) :
  wf_fields_sip fs -> rest r = enc_sip_fields fs -> (fields_len fs < fuel)%nat ->
  first_loop fuel t r = Ok (first_of t fs).
Proof.
  revert fuel r. induction fs as [|[t' s] fs IH]; intros fuel r Hwf E Hf;
    (destruct fuel as [|fuel]; [lia|]); cbn [first_loop].
  - rewrite hasMore_rest, E. reflexivity.
  - inversion_clear Hwf as [|? ? Hs Hfs]. cbn in Hs.
    assert (Hr : rest r = enc_sip_field (t', s) ++ enc_sip_fields fs) by exact E.
    rewrite (field_more r t' s _ Hr), (field_peek r t' s _ Hs Hr). cbn in Hf |- *.
    fold (sip_tag_eqb t' t). destruct (sip_tag_eqb t' t).
    + destruct (field_read r t' s _ Hs Hr) as (r' & -> & _). reflexivity.
    + apply IH; [exact Hfs|apply (field_skip r t' s _ Hs Hr)|lia].
Qed.

Lemma sip_first_enc (t : SipTag) (type : SipMsgType) (seq : Z) (fs : fields) :
  in_u 32 seq -> wf_fields_sip fs ->
  sip_first t (enc_sip type seq fs) = Ok (first_of t fs).
Proof.
  intros Hs Hwf. unfold sip_first. rewrite enc_sip_length.
  rewrite <- (app_nil_r (enc_sip type seq fs)), newReader_sip, app_nil_r by exact Hs.
  apply first_loop_enc; [exact Hwf|reflexivity|lia].
Qed.

(** ** Lemmas: termination *)

Lemma skip_advance (r : MessageReader) (x : Z * Z) :
  peek r = Some x -> rbuf (skip r) = rbuf r /\ (pos_ r + 4 <= pos_ (skip r))%nat.
Proof. intros E. unfold skip. rewrite E. destruct x. cbn. split; [reflexivity|lia]. Qed.

Lemma sip_loop_fuel (fuel : nat) (tags : list SipTag) (r : MessageReader) (l : locals) :
  (length (rbuf r) - pos_ r < fuel)%nat -> sip_loop fuel tags r l <> OutOfFuel.
Proof.
  revert r l. induction fuel as [|fuel IH]; intros r l Hf; [lia|]. cbn [sip_loop].
  destruct (hasMore r) eqn:Hm; [|discriminate]. apply Nat.ltb_lt in Hm.
  destruct (peek r) as [[tag n]|] eqn:Hp; [|discriminate].
  destruct (List.find _ tags) as [t|].
  - unfold readStr. destruct (readBytes r) as [[v r']| | |] eqn:E; cbn; try discriminate.
    + apply readBytes_advance in E as [E1 E2]. apply IH. rewrite E1. lia.
    + exfalso. revert E. unfold readBytes. rewrite Hp. destruct (_ <=? _)%nat; discriminate.
  - destruct (skip_advance r _ Hp) as [E1 E2]. apply IH. rewrite E1. lia.
Qed.

Lemma first_loop_fuel (fuel : nat) (t : SipTag) (r : MessageReader) :
  (length (rbuf r) - pos_ r < fuel)%nat -> first_loop fuel t r <> OutOfFuel.
Proof.
  revert r. induction fuel as [|fuel IH]; intros r Hf; [lia|]. cbn [first_loop].
  destruct (hasMore r) eqn:Hm; [|discriminate]. apply Nat.ltb_lt in Hm.
  destruct (peek r) as [[tag n]|] eqn:Hp; [|discriminate].
  destruct (tag =? sip_tag t).
  - unfold readStr, readBytes. rewrite Hp. destruct (_ <=? _)%nat; discriminate.
  - destruct (skip_advance r _ Hp) as [E1 E2]. apply IH. rewrite E1. lia.
Qed.

Lemma newReader_buf (p : bytes) : rbuf (newReader p) = p.
Proof. unfold newReader. do 8 (destruct p as [|? p]; [reflexivity|]). reflexivity. Qed.

(** ** Automation *)

#[global] Arguments sip_parse : simpl never.
#[global] Arguments sip_first : simpl never.
#[global] Arguments sip_type : simpl never.
#[global] Arguments sip_message : simpl never.
#[global] Arguments enc_sip : simpl never.
#[global] Arguments payload_frame : simpl never.
#[global] Arguments recv_payload : simpl never.

(** ** Properties *)

(** A message a node writes with any sequence of [writeStr] calls and that is
    received whole gives each handler, for every tag it reads, the last field
    of that tag, and the empty string where there is none; the [switch] of
    its receive loop sees the type the writer gave. *)
Theorem sip_roundtrip (tags : list SipTag) (type : SipMsgType) (seq : Z) (fs : fields)
    (Hseq : in_u 32 seq) (Hwf : wf_fields_sip fs) (Hlen : Z.of_nat (fields_len fs) <= 65528) :
  exists p, recv_payload (frame (sip_message type seq fs)) = Some p
            /\ sip_type p = Some type
            /\ sip_parse tags p = Ok (sip_locals tags fs no_locals)
            /\ (forall t, sip_first t p = Ok (first_of t fs)).
Proof.
  exists (enc_sip type seq fs). split; [apply recv_message; assumption|].
  split; [apply sip_type_enc; exact Hseq|].
  split; [apply sip_parse_enc; assumption|]. intros t. apply sip_first_enc; assumption.
Qed.

Lemma sip_roundtrip_witness :
  let fs := [(SIP_CALL_ID, str "call-1"); (SIP_REASON, str "INVITE"); (SIP_SDP, [])] in
  exists p, recv_payload (frame (sip_message SIP_200_OK 3 fs)) = Some p
            /\ sip_type p = Some SIP_200_OK
            /\ sip_parse [SIP_CALL_ID; SIP_REASON] p = Ok (sip_locals [SIP_CALL_ID; SIP_REASON] fs no_locals)
            /\ (forall t, sip_first t p = Ok (first_of t fs)).
Proof.
  intros fs. apply (sip_roundtrip [SIP_CALL_ID; SIP_REASON] SIP_200_OK 3 fs).
  - unfold in_u. lia.
  - repeat (constructor; [cbn; lia|]). constructor.
  - cbn. lia.
Defined.

(** The parsing loops of the IMS handlers end on every payload, malformed
    ones included. *)
Theorem sip_parse_terminates (tags : list SipTag) (t : SipTag) (payload : bytes) :
  sip_parse tags payload <> OutOfFuel /\ sip_first t payload <> OutOfFuel.
Proof.
  split; [apply sip_loop_fuel|apply first_loop_fuel]; rewrite newReader_buf; lia.
Qed.

(** [SipWriter] builds the frame of the same calls of [writeStr]. *)
Theorem sip_writer_build (type : SipMsgType) (seq : Z) (fs : fields) :
  sw_build (fold_left (fun w f => sw_add f.1 f.2 w) fs (newSipWriter type seq)) =
  frame (sip_message type seq fs).
Proof.
  assert (H : forall w, let w' := fold_left (fun w f => sw_add f.1 f.2 w) fs w in
                        sw_type w' = sw_type w /\ sw_seq w' = sw_seq w
                        /\ fields_ w' = fields_ w ++ fs).
  { induction fs as [|[t v] fs IH]; intros w; cbn; [rewrite app_nil_r; auto|].
    destruct (IH (sw_add t v w)) as (-> & -> & ->). cbn. rewrite <- app_assoc. auto. }
  destruct (H (newSipWriter type seq)) as (H1 & H2 & H3). unfold sw_build.
  rewrite H1, H2, H3. reflexivity.
Qed.
