(* ===== verification/SipText.v ===== *)
(** * SIP texts of the capture

    [ims-simulator/src/ims/sip_text.h]: the builders of the SIP messages the
    nodes write to the capture file.  A builder streams the start line, the
    headers, a blank line and the body; here it lists the lines.  [read_text]
    is a reader written from the message format of RFC 3261. *)

From S2P Require Import Prelude Text Strings Http.
#[local] Open Scope Z_scope.

(** ** Identities *)

Definition IMS_DOMAIN : bytes := str "ims.mnc010.mcc404.3gppnetwork.org".
Definition IMPU_A : bytes := str "sip:+919000000001@" ++ IMS_DOMAIN.
Definition IMPU_B : bytes := str "sip:+919000000002@" ++ IMS_DOMAIN.
Definition IMPU_C : bytes := str "sip:+919000000003@" ++ IMS_DOMAIN.
Definition IP_UE_A : bytes := str "10.0.0.1".
Definition IP_UE_B : bytes := str "10.0.0.2".
Definition IP_UE_C : bytes := str "10.0.0.3".

(** ** The shape of a message *)

(** The lines up to the last header, the blank line, the body. *)
Definition sip_text (ls : list bytes) (body : bytes) : bytes := block ls ++ crlf ++ body.

Definition content_length (body : bytes) : bytes :=
  str "Content-Length: " ++ to_string (Z.of_nat (length body)).

Definition no_content : bytes := str "Content-Length: 0".

(** ** Bodies *)

Definition invite_sdp (from_ip : bytes) (rtp_port : Z) : bytes :=
  block [str "v=0";
         str "o=ue 12345 67890 IN IP4 " ++ from_ip;
         str "s=VoLTE Call";
         str "c=IN IP4 " ++ from_ip;
         str "t=0 0";
         str "m=audio " ++ to_stringZ rtp_port ++ str " RTP/AVP 98 99";
         str "a=rtpmap:98 AMR-WB/16000";
         str "a=rtpmap:99 AMR/8000";
         str "a=sendrecv";
         str "m=video " ++ to_stringZ (rtp_port + 2) ++ str " RTP/AVP 100";
         str "a=rtpmap:100 H264/90000";
         str "a=sendrecv"].

Definition progress_sdp (callee_rtp_port : Z) : bytes :=
  block [str "v=0";
         str "o=ue-b 11111 22222 IN IP4 10.0.0.2";
         str "s=VoLTE Call";
         str "c=IN IP4 10.0.0.2";
         str "t=0 0";
         str "m=audio " ++ to_stringZ callee_rtp_port ++ str " RTP/AVP 98";
         str "a=rtpmap:98 AMR-WB/16000";
         str "a=curr:qos local none";
         str "a=curr:qos remote none";
         str "a=des:qos mandatory local sendrecv";
         str "a=des:qos mandatory remote sendrecv";
         str "a=sendrecv"].

Definition answer_sdp (callee_ip : bytes) (callee_rtp_port : Z) : bytes :=
  block [str "v=0";
         str "o=ue-b 11111 22222 IN IP4 " ++ callee_ip;
         str "s=VoLTE Call";
         str "c=IN IP4 " ++ callee_ip;
         str "t=0 0";
         str "m=audio " ++ to_stringZ callee_rtp_port ++ str " RTP/AVP 98";
         str "a=rtpmap:98 AMR-WB/16000";
         str "a=sendrecv";
         str "m=video " ++ to_stringZ (callee_rtp_port + 2) ++ str " RTP/AVP 100";
         str "a=rtpmap:100 H264/90000";
         str "a=sendrecv"].

Definition user_xml (p label ip : bytes) : bytes :=
  block [quotes "    <user entity='" ++ p ++ quotes "' state='full'>";
         str "      <display-text>" ++ label ++ str "</display-text>";
         quotes "      <endpoint entity='sip:ue@" ++ ip ++ quotes ":5060'>";
         str "        <status>connected</status>";
         quotes "        <media id='1'><type>audio</type><status>recvonly</status></media>";
         str "      </endpoint>";
         str "    </user>"].

Definition conf_xml (conf_uri p_a p_b p_c : bytes) : bytes :=
  block [quotes "<?xml version='1.0' encoding='UTF-8'?>";
         quotes "<conference-info xmlns='urn:ietf:params:xml:ns:conference-info'";
         quotes "  entity='" ++ conf_uri ++ quotes "' state='full' version='1'>";
         str "  <conference-description><display-text>3-Party Conference</display-text></conference-description>";
         str "  <users>"]
  ++ user_xml p_a (str "UE-A") IP_UE_A
  ++ user_xml p_b (str "UE-B") IP_UE_B
  ++ user_xml p_c (str "UE-C") IP_UE_C
  ++ block [str "  </users>"; str "</conference-info>"].

(** ** The builders *)

Definition buildRegister (impu ue_ip : bytes) (cseq expires : Z) : bytes :=
  sip_text
    [str "REGISTER sip:" ++ IMS_DOMAIN ++ str " SIP/2.0";
     str "Via: SIP/2.0/TCP " ++ ue_ip ++ str ":5060;branch=z9hG4bKreg" ++ to_stringZ cseq;
     str "Max-Forwards: 70";
     str "From: " ++ impu ++ str ";tag=reg" ++ to_stringZ cseq;
     str "To: " ++ impu;
     str "Call-ID: reg-" ++ to_stringZ cseq ++ str "@" ++ ue_ip;
     str "CSeq: " ++ to_stringZ cseq ++ str " REGISTER";
     str "Contact: <sip:ue@" ++ ue_ip ++ str ":5060>;expires=" ++ to_stringZ expires;
     str "Expires: " ++ to_stringZ expires;
     str "P-Access-Network-Info: 3GPP-E-UTRAN-FDD; utran-cell-id-3gpp=404010001";
     quotes "Authorization: Digest username='" ++ impu ++ quotes "', realm='" ++ IMS_DOMAIN
       ++ quotes "', nonce='', uri='sip:" ++ IMS_DOMAIN ++ quotes "'";
     no_content] [].

Definition build200Register (impu ue_ip : bytes) (cseq : Z) : bytes :=
  sip_text
    [str "SIP/2.0 200 OK";
     str "Via: SIP/2.0/TCP " ++ ue_ip ++ str ":5060;branch=z9hG4bKreg" ++ to_stringZ cseq;
     str "From: " ++ impu ++ str ";tag=reg" ++ to_stringZ cseq;
     str "To: " ++ impu ++ str ";tag=scscf001";
     str "Call-ID: reg-" ++ to_stringZ cseq ++ str "@" ++ ue_ip;
     str "CSeq: " ++ to_stringZ cseq ++ str " REGISTER";
     str "Contact: <sip:ue@" ++ ue_ip ++ str ":5060>;expires=3600";
     str "P-Associated-URI: <tel:+919000000001>";
     str "Service-Route: <sip:scscf." ++ IMS_DOMAIN ++ str ";lr>";
     no_content] [].

Definition buildInvite (from_impu to_impu from_ip call_id : bytes) (cseq rtp_port : Z) : bytes :=
  let sdp := invite_sdp from_ip rtp_port in
  sip_text
    [str "INVITE " ++ to_impu ++ str " SIP/2.0";
     str "Via: SIP/2.0/TCP " ++ from_ip ++ str ":5060;branch=z9hG4bKinv" ++ to_stringZ cseq;
     str "Max-Forwards: 70";
     str "From: " ++ from_impu ++ str ";tag=inv" ++ to_stringZ cseq;
     str "To: " ++ to_impu;
     str "Call-ID: " ++ call_id;
     str "CSeq: " ++ to_stringZ cseq ++ str " INVITE";
     str "Contact: <sip:ue@" ++ from_ip ++ str ":5060>";
     str "P-Preferred-Identity: " ++ from_impu;
     str "P-Access-Network-Info: 3GPP-E-UTRAN-FDD; utran-cell-id-3gpp=404010001";
     str "Supported: 100rel,precondition";
     str "Content-Type: application/sdp";
     content_length sdp] sdp.

Definition build100Trying (from_impu to_impu call_id : bytes) (cseq : Z) : bytes :=
  sip_text
    [str "SIP/2.0 100 Trying";
     str "From: " ++ from_impu;
     str "To: " ++ to_impu;
     str "Call-ID: " ++ call_id;
     str "CSeq: " ++ to_stringZ cseq ++ str " INVITE";
     no_content] [].

Definition build183SessionProgress (from_impu to_impu call_id : bytes) (cseq callee_rtp_port : Z) :
    bytes :=
  let sdp := progress_sdp callee_rtp_port in
  sip_text
    [str "SIP/2.0 183 Session Progress";
     str "From: " ++ from_impu;
     str "To: " ++ to_impu ++ str ";tag=early" ++ to_stringZ cseq;
     str "Call-ID: " ++ call_id;
     str "CSeq: " ++ to_stringZ cseq ++ str " INVITE";
     str "RSeq: 1";
     str "Require: 100rel";
     str "Contact: <sip:ue-b@10.0.0.2:5060>";
     str "Content-Type: application/sdp";
     content_length sdp] sdp.

Definition build180Ringing (from_impu to_impu call_id : bytes) (cseq : Z) : bytes :=
  sip_text
    [str "SIP/2.0 180 Ringing";
     str "From: " ++ from_impu;
     str "To: " ++ to_impu ++ str ";tag=callee" ++ to_stringZ cseq;
     str "Call-ID: " ++ call_id;
     str "CSeq: " ++ to_stringZ cseq ++ str " INVITE";
     str "Contact: <sip:ue-b@10.0.0.2:5060>";
     no_content] [].

Definition build200Invite (from_impu to_impu callee_ip call_id : bytes)
    (cseq callee_rtp_port : Z) : bytes :=
  let sdp := answer_sdp callee_ip callee_rtp_port in
  sip_text
    [str "SIP/2.0 200 OK";
     str "From: " ++ from_impu;
     str "To: " ++ to_impu ++ str ";tag=callee" ++ to_stringZ cseq;
     str "Call-ID: " ++ call_id;
     str "CSeq: " ++ to_stringZ cseq ++ str " INVITE";
     str "Contact: <sip:ue-b@" ++ callee_ip ++ str ":5060>";
     str "Content-Type: application/sdp";
     content_length sdp] sdp.

Definition buildAck (from_impu to_impu call_id : bytes) (cseq : Z) : bytes :=
  sip_text
    [str "ACK " ++ to_impu ++ str " SIP/2.0";
     str "From: " ++ from_impu;
     str "To: " ++ to_impu ++ str ";tag=callee" ++ to_stringZ cseq;
     str "Call-ID: " ++ call_id;
     str "CSeq: " ++ to_stringZ cseq ++ str " ACK";
     no_content] [].

Definition buildBye (from_impu to_impu call_id : bytes) (cseq : Z) : bytes :=
  sip_text
    [str "BYE " ++ to_impu ++ str " SIP/2.0";
     str "From: " ++ from_impu;
     str "To: " ++ to_impu;
     str "Call-ID: " ++ call_id;
     str "CSeq: " ++ to_stringZ cseq ++ str " BYE";
     no_content] [].

Definition build200Bye (from_impu to_impu call_id : bytes) (cseq : Z) : bytes :=
  sip_text
    [str "SIP/2.0 200 OK";
     str "From: " ++ from_impu;
     str "To: " ++ to_impu;
     str "Call-ID: " ++ call_id;
     str "CSeq: " ++ to_stringZ cseq ++ str " BYE";
     no_content] [].

Definition buildPrack (from_impu to_impu call_id : bytes) (cseq : Z) : bytes :=
  sip_text
    [str "PRACK " ++ to_impu ++ str " SIP/2.0";
     str "Via: SIP/2.0/TCP 10.0.0.8:5060;branch=z9hG4bKpr" ++ to_stringZ cseq;
     str "Max-Forwards: 70";
     str "From: " ++ from_impu ++ str ";tag=inv" ++ to_stringZ cseq;
     str "To: " ++ to_impu ++ str ";tag=callee" ++ to_stringZ cseq;
     str "Call-ID: " ++ call_id;
     str "CSeq: " ++ to_stringZ cseq ++ str " PRACK";
     str "RAck: 1 1 INVITE";
     no_content] [].

Definition build200Prack (from_impu to_impu call_id : bytes) (cseq : Z) : bytes :=
  sip_text
    [str "SIP/2.0 200 OK";
     str "From: " ++ from_impu;
     str "To: " ++ to_impu;
     str "Call-ID: " ++ call_id;
     str "CSeq: " ++ to_stringZ cseq ++ str " PRACK";
     no_content] [].

Definition buildReInvite (from_impu to_impu from_ip call_id : bytes) (cseq : Z)
    (sdp_body : bytes) : bytes :=
  sip_text
    [str "INVITE " ++ to_impu ++ str " SIP/2.0";
     str "Via: SIP/2.0/TCP " ++ from_ip ++ str ":5060;branch=z9hG4bKre" ++ to_stringZ cseq;
     str "Max-Forwards: 70";
     str "From: " ++ from_impu ++ str ";tag=re" ++ to_stringZ cseq;
     str "To: " ++ to_impu;
     str "Call-ID: " ++ call_id;
     str "CSeq: " ++ to_stringZ cseq ++ str " INVITE";
     str "Content-Type: application/sdp";
     content_length sdp_body] sdp_body.

Definition buildRefer (from_impu to_impu refer_to_impu call_id : bytes) (cseq : Z) : bytes :=
  sip_text
    [str "REFER " ++ to_impu ++ str " SIP/2.0";
     str "Via: SIP/2.0/TCP 10.0.0.8:5060;branch=z9hG4bKref" ++ to_stringZ cseq;
     str "Max-Forwards: 70";
     str "From: " ++ from_impu ++ str ";tag=inv" ++ to_stringZ cseq;
     str "To: " ++ to_impu ++ str ";tag=callee" ++ to_stringZ cseq;
     str "Call-ID: " ++ call_id;
     str "CSeq: " ++ to_stringZ cseq ++ str " REFER";
     str "Refer-To: <" ++ refer_to_impu ++ str ">";
     str "Referred-By: <" ++ from_impu ++ str ">";
     no_content] [].

Definition build202Accepted (from_impu to_impu call_id : bytes) (cseq : Z) : bytes :=
  sip_text
    [str "SIP/2.0 202 Accepted";
     str "From: " ++ from_impu;
     str "To: " ++ to_impu;
     str "Call-ID: " ++ call_id;
     str "CSeq: " ++ to_stringZ cseq ++ str " REFER";
     no_content] [].

Definition buildNotifyRefer (from_impu to_impu call_id : bytes) (cseq : Z)
    (sub_state sip_frag : bytes) : bytes :=
  let body := sip_frag ++ crlf in
  sip_text
    [str "NOTIFY " ++ from_impu ++ str " SIP/2.0";
     str "Via: SIP/2.0/TCP 10.0.0.9:5070;branch=z9hG4bKnot" ++ to_stringZ cseq;
     str "From: " ++ to_impu ++ str ";tag=scscf";
     str "To: " ++ from_impu;
     str "Call-ID: " ++ call_id;
     str "CSeq: " ++ to_stringZ cseq ++ str " NOTIFY";
     str "Event: refer";
     str "Subscription-State: " ++ sub_state;
     str "Content-Type: message/sipfrag;version=2.0";
     content_length body] body.

Definition buildSubscribe (from_impu conf_uri call_id : bytes) (cseq expires : Z) : bytes :=
  sip_text
    [str "SUBSCRIBE " ++ conf_uri ++ str " SIP/2.0";
     str "Via: SIP/2.0/TCP 10.0.0.1:5060;branch=z9hG4bKsub" ++ to_stringZ cseq;
     str "From: " ++ from_impu ++ str ";tag=sub" ++ to_stringZ cseq;
     str "To: " ++ conf_uri;
     str "Call-ID: " ++ call_id ++ str "-sub";
     str "CSeq: " ++ to_stringZ cseq ++ str " SUBSCRIBE";
     str "Event: conference";
     str "Accept: application/conference-info+xml";
     str "Expires: " ++ to_stringZ expires;
     no_content] [].

Definition buildNotifyConf (conf_uri to_impu call_id : bytes) (cseq : Z)
    (p_a p_b p_c : bytes) : bytes :=
  let xml := conf_xml conf_uri p_a p_b p_c in
  sip_text
    [str "NOTIFY " ++ to_impu ++ str " SIP/2.0";
     str "Via: SIP/2.0/TCP 10.0.0.11:5060;branch=z9hG4bKncf" ++ to_stringZ cseq;
     str "From: " ++ conf_uri ++ str ";tag=mrfc";
     str "To: " ++ to_impu;
     str "Call-ID: " ++ call_id ++ str "-sub";
     str "CSeq: " ++ to_stringZ cseq ++ str " NOTIFY";
     str "Event: conference";
     str "Subscription-State: active;expires=3600";
     str "Content-Type: application/conference-info+xml";
     content_length xml] xml.

Definition build603 (from_impu to_impu call_id : bytes) (cseq : Z) (reason : bytes) : bytes :=
  sip_text
    [str "SIP/2.0 603 Decline";
     str "From: " ++ from_impu;
     str "To: " ++ to_impu;
     str "Call-ID: " ++ call_id;
     str "CSeq: " ++ to_stringZ cseq ++ str " INVITE";
     quotes "Reason: SIP;cause=603;text='" ++ reason ++ quotes " barring active'";
     no_content] [].

(** ** A reader of the format *)

Fixpoint find_header (name : bytes) (hs : list bytes) : option bytes :=
  match hs with
  | [] => None
  | h :: hs' => if prefixb name h then Some (drop (length name) h) else find_header name hs'
  end.

(** Start line, headers and body of the first message of a stream: the body
    has the announced length. *)
Definition read_text (s : bytes) : option (bytes * list bytes * bytes) :=
  match recv_headers [] s with
  | None => None
  | Some (raw, rest) =>
      match map chomp (lines raw) with
      | [] => None
      | start :: hs =>
          match find_header (str "Content-Length: ") hs with
          | None => Some (start, hs, [])
          | Some v =>
              match stoul v with
              | None => None
              | Some n => if (Z.of_nat (length rest) <? n) then None
                          else Some (start, hs, take (Z.to_nat n) rest)
              end
          end
      end
  end.

(** The message is read back, with its body, whatever follows it. *)
Definition delimited (m body : bytes) : Prop :=
  forall tl, exists start hs,
    read_text (m ++ tl) = Some (start, hs, body) /\ m = sip_text (start :: hs) body.

(** ** Lemmas *)

Definition clean_line (l : bytes) : Prop := header_text l /\ l <> [].

Lemma content_length_no (body : bytes) : body = [] -> no_content = content_length body.
Proof. intros ->. reflexivity. Qed.

Lemma content_length_clean (body : bytes) : clean_line (content_length body).
Proof. split; [apply content_length_text; lia|discriminate]. Qed.

Lemma map_chomp_lines (ls : list bytes) (l : bytes) :
  Forall clean_line (ls ++ [l]) -> map chomp (map (fun l => l ++ [13]) ls ++ [l]) = ls ++ [l].
Proof.
  intros H. apply Forall_app in H as [Hls Hl]. apply List.Forall_cons_iff in Hl as [[Hl _] _].
  rewrite map_app, map_map. cbn. rewrite chomp_id by (apply header_no_cr; exact Hl).
  f_equal. clear Hls. induction ls as [|x ls IH]; [reflexivity|]. cbn. rewrite chomp_cr, IH. reflexivity.
Qed.

Lemma find_header_last (name v : bytes) (hs : list bytes) :
  forallb (fun h => negb (prefixb name h)) hs = true ->
  find_header name (hs ++ [name ++ v]) = Some v.
Proof.
  induction hs as [|h hs IH]; cbn [app find_header forallb].
  - rewrite prefixb_app, drop_app_length. reflexivity.
  - intros H. apply andb_prop in H as [H1 H2]. destruct (prefixb name h); [discriminate|auto].
Qed.

Lemma text_read (start : bytes) (hs : list bytes) (body tl : bytes) :
  Forall clean_line (start :: hs) -> Z.of_nat (length body) < 2 ^ 64 ->
  forallb (fun h => negb (prefixb (str "Content-Length: ") h)) hs = true ->
  read_text (sip_text (start :: hs ++ [content_length body]) body ++ tl)
  = Some (start, hs ++ [content_length body], body).
Proof.
  intros Hls Hb Hno.
  assert (Hall : Forall clean_line ((start :: hs) ++ [content_length body])).
  { apply Forall_app. split; [exact Hls|]. constructor; [apply content_length_clean|constructor]. }
  unfold read_text, sip_text. rewrite <- !app_assoc.
  change (start :: hs ++ [content_length body]) with ((start :: hs) ++ [content_length body]).
  rewrite (recv_headers_block (start :: hs) [] (body ++ tl)) by (reflexivity || exact Hall).
  cbn [rev app]. rewrite lines_block by exact Hall. rewrite map_chomp_lines by exact Hall.
  cbn [app]. unfold content_length. rewrite find_header_last by exact Hno.
  rewrite stoul_to_string by lia. rewrite length_app.
  destruct (Z.ltb_spec (Z.of_nat (length body + length tl)) (Z.of_nat (length body))); [lia|].
  rewrite Nat2Z.id, take_app_length. reflexivity.
Qed.

Lemma text_delimited (start : bytes) (hs : list bytes) (body : bytes) :
  Forall clean_line (start :: hs) -> Z.of_nat (length body) < 2 ^ 64 ->
  forallb (fun h => negb (prefixb (str "Content-Length: ") h)) hs = true ->
  delimited (sip_text (start :: hs ++ [content_length body]) body) body.
Proof.
  intros Hls Hb Hno tl. exists start, (hs ++ [content_length body]).
  split; [apply text_read; assumption|reflexivity].
Qed.

Lemma empty_delimited (start : bytes) (hs : list bytes) :
  Forall clean_line (start :: hs) ->
  forallb (fun h => negb (prefixb (str "Content-Length: ") h)) hs = true ->
  delimited (sip_text (start :: hs ++ [no_content]) []) [].
Proof.
  intros H1 H2. rewrite (content_length_no []) by reflexivity.
  apply text_delimited; [exact H1|reflexivity|exact H2].
Qed.

Lemma header_stringZ (n : Z) : header_text (to_stringZ n).
Proof.
  eapply List.Forall_impl; [|apply to_stringZ_chars]. unfold is_digit. cbn. intros c Hc.
  destruct Hc as [->|Hc]; lia.
Qed.

Create HintDb sip_text.
#[local] Hint Resolve header_app header_stringZ : sip_text.

Lemma clean_lit (l : bytes) : header_text l -> l <> [] -> clean_line l.
Proof. split; assumption. Qed.

#[local] Opaque to_stringZ.

(** The lines of a builder are clean when its arguments are, and none but the
    last announces a length. *)
Ltac header_clean :=
  repeat apply header_app;
  first [ assumption | apply header_stringZ | apply header_text_lit; reflexivity ].
Ltac line_clean :=
  match goal with |- clean_line _ => split; [header_clean | discriminate] end.
Ltac lines_clean := repeat (apply List.Forall_cons; [line_clean|]); apply List.Forall_nil.
Ltac delimit :=
  lazymatch goal with
  | |- delimited (sip_text (?s :: ?hs) _) [] =>
      let hs' := eval cbn [removelast] in (removelast hs) in
      apply (empty_delimited s hs'); [lines_clean | reflexivity]
  | |- delimited (sip_text (?s :: ?hs) ?b) _ =>
      let hs' := eval cbn [removelast] in (removelast hs) in
      apply (text_delimited s hs' b); [lines_clean | | reflexivity]
  end.

(** ** Properties *)

(** Every SIP text the IMS nodes write to the capture is a message of the
    format of RFC 3261: with identities, addresses and call ids free of line
    breaks, a reader finds the start line and the headers the builder wrote,
    and the announced [Content-Length] delimits exactly the body the builder
    was given or made, whatever follows in the stream. *)
Theorem sip_texts_delimited (a b c ip id st : bytes) (cseq port expires : Z) (body : bytes)
    (Ha : header_text a) (Hb : header_text b) (Hc : header_text c) (Hip : header_text ip)
    (Hid : header_text id) (Hst : header_text st)
    (Hsize : Forall (fun x => Z.of_nat (length x) < 2 ^ 64)
               [body; invite_sdp ip port; answer_sdp ip port; progress_sdp port; st ++ crlf; conf_xml a a b c]) :
  delimited (buildRegister a ip cseq expires) []
  /\ delimited (build200Register a ip cseq) []
  /\ delimited (buildInvite a b ip id cseq port) (invite_sdp ip port)
  /\ delimited (build100Trying a b id cseq) []
  /\ delimited (build183SessionProgress a b id cseq port) (progress_sdp port)
  /\ delimited (build180Ringing a b id cseq) []
  /\ delimited (build200Invite a b ip id cseq port) (answer_sdp ip port)
  /\ delimited (buildAck a b id cseq) []
  /\ delimited (buildBye a b id cseq) []
  /\ delimited (build200Bye a b id cseq) []
  /\ delimited (buildPrack a b id cseq) []
  /\ delimited (build200Prack a b id cseq) []
  /\ delimited (buildReInvite a b ip id cseq body) body
  /\ delimited (buildRefer a b c id cseq) []
  /\ delimited (build202Accepted a b id cseq) []
  /\ delimited (buildNotifyRefer a b id cseq st st) (st ++ crlf)
  /\ delimited (buildSubscribe a c id cseq expires) []
  /\ delimited (buildNotifyConf a b id cseq a b c) (conf_xml a a b c)
  /\ delimited (build603 a b id cseq st) [].
Proof.
  repeat (apply List.Forall_cons_iff in Hsize as [? Hsize]).
  repeat apply conj; unfold buildRegister, build200Register, buildInvite, build100Trying,
    build183SessionProgress, build180Ringing, build200Invite, buildAck, buildBye, build200Bye,
    buildPrack, build200Prack, buildReInvite, buildRefer, build202Accepted, buildNotifyRefer,
    buildSubscribe, buildNotifyConf, build603; cbv zeta; delimit; try assumption.
Qed.

Lemma sip_texts_delimited_witness :
  delimited (buildInvite IMPU_A IMPU_B IP_UE_A (str "call-AB-2") 3 50000) (invite_sdp IP_UE_A 50000).
Proof.
  apply (sip_texts_delimited IMPU_A IMPU_B IMPU_C IP_UE_A (str "call-AB-2") (str "active") 3 50000 3600
           (str "v=0")); try (apply header_text_lit; vm_compute; reflexivity).
  repeat (apply List.Forall_cons; [vm_compute; reflexivity|]). apply List.Forall_nil.
Defined.
