(* ===== verification/ImsEnv.v ===== *)
(** * What the IMS nodes do to the outside

    The nodes of [ims-simulator/src/ims] send frames on their connections and
    write to the capture; a handler is a program over the state of its node
    and the list of what it did ([act]), in order.  [writeSIP] of this
    simulator's capture writer ignores the ports it is given. *)

From S2P Require Import Prelude Tlv NodeEnv Text Sip.
#[local] Open Scope Z_scope.

(** ** Actions *)

(** The far end of a connection. *)
Inductive Peer : Set :=
| ToPcscf | ToScscf | ToHss
| ToUe (i : nat).   (** the session of that index of the P-CSCF *)

#[export] Instance Peer_eq_dec : EqDecision Peer.
Proof. solve_decision. Defined.

Inductive act : Type :=
| Out (to : Peer) (frame : bytes)
| CapSip (text : bytes) (src_ip dst_ip : Z)
| CapDia (p : PcapCall).

(** Addresses of the capture that the 4G simulator does not have. *)
Definition IP_UE_B_NUM : Z := 0x0A000002.
Definition IP_UE_C_NUM : Z := 0x0A000003.
Definition IP_MRFC : Z := 0x0A00000B.

(** ** Programs *)

Abbreviation H S := (M (S * list act)).

Section Ops.
Context {S : Type}.

Definition emit (a : act) : H S unit := fun '(s, w) => Ok (tt, (s, w ++ [a])).

(** [conn.sendFrame(w.frame())]. *)
Definition send_frame (to : Peer) (w : MessageWriter) : H S unit := emit (Out to (frame w)).

(** [conn.sendPayload(payload)]: forwarding what was received. *)
Definition send_payload (to : Peer) (p : bytes) : H S unit := emit (Out to (payload_frame p)).

Definition writeSIP (text : bytes) (src_ip src_port dst_ip dst_port : Z) : H S unit :=
  emit (CapSip text src_ip dst_ip).

Definition writeDia (cmd : DiameterCmd) (app : DiameterApp) (is_request : bool)
    (src_ip src_port dst_ip dst_port : Z) : H S unit :=
  emit (CapDia (writeDiameter cmd app is_request src_ip src_port dst_ip dst_port)).

(** The locals a handler reads from its payload. *)
Definition read_fields (tags : list SipTag) (payload : bytes) : H S locals :=
  liftM (sip_parse tags payload).

End Ops.

#[global] Arguments read_fields : simpl never.

(** What is sent to a peer, of a list of actions. *)
Definition sent_to (p : Peer) (w : list act) : list bytes :=
  omap (fun a => match a with
                 | Out p' f => if decide (p = p') then Some f else None
                 | _ => None
                 end) w.

(** What a node does with an event: its next state and its actions; a run
    that does not return keeps the state. *)
Definition run_node {S} (h : H S unit) (s : S) : option (S * list act) :=
  match h (s, []) with Ok (_, (s', w)) => Some (s', w) | _ => None end.

(** ** Lemmas *)

Lemma read_fields_enc {S} (tags : list SipTag) (type : SipMsgType) (seq : Z) (fs : fields)
    (s : S) (w : list act) :
  in_u 32 seq -> wf_fields_sip fs ->
  read_fields tags (enc_sip type seq fs) (s, w) = Ok (sip_locals tags fs no_locals, (s, w)).
Proof. intros. unfold read_fields, liftM. rewrite sip_parse_enc by assumption. reflexivity. Qed.

Lemma run_read {S} (tags : list SipTag) (p : bytes) (l : locals) (s : S) (w : list act) :
  sip_parse tags p = Ok l -> read_fields tags p (s, w) = Ok (l, (s, w)).
Proof. intros E. unfold read_fields, liftM. rewrite E. reflexivity. Qed.

Lemma sent_to_app (p : Peer) (w w' : list act) : sent_to p (w ++ w') = sent_to p w ++ sent_to p w'.
Proof. apply omap_app. Qed.

Lemma keeps_emit {S} (P : S -> Prop) (a : act) : keeps P (emit a : H S unit).
Proof. intros s w [] s' w' HP [= <- _]. exact HP. Qed.

Lemma keeps_read {S} (P : S -> Prop) (tags : list SipTag) (p : bytes) :
  keeps P (read_fields tags p : H S locals).
Proof.
  intros s w l s' w' HP. unfold read_fields, liftM.
  destruct (sip_parse tags p); intros [= _ <- _]. exact HP.
Qed.

Section Emits.
Context {S : Type} (P : S -> Prop).

Lemma keeps_send_frame (p : Peer) (w : MessageWriter) : keeps P (send_frame p w).
Proof. apply keeps_emit. Qed.

Lemma keeps_send_payload (p : Peer) (b : bytes) : keeps P (send_payload p b).
Proof. apply keeps_emit. Qed.

Lemma keeps_writeSIP (t : bytes) (a b c d : Z) : keeps P (writeSIP t a b c d).
Proof. apply keeps_emit. Qed.

Lemma keeps_writeDia (k : DiameterCmd) (app : DiameterApp) (q : bool) (a b c d : Z) :
  keeps P (writeDia k app q a b c d).
Proof. apply keeps_emit. Qed.

End Emits.

#[export] Hint Resolve keeps_emit keeps_read keeps_send_frame keeps_send_payload keeps_writeSIP
  keeps_writeDia : triples.

(** ** Running a handler *)

#[global] Arguments str : simpl never.

Ltac run_h_ops :=
  cbn [get_state put_state modify emit send_frame send_payload writeSIP writeDia liftM fst snd app].
Ltac run_h := run_h_ops; repeat (first [rewrite M_bind_eq | rewrite M_ret_eq]; run_h_ops).

(** A handler reads the fields of a message another node wrote. *)
Ltac read_msg :=
  match goal with
  | |- context [read_fields ?tags (enc_sip ?ty ?sq ?fs) (?s, ?w)] =>
      rewrite (read_fields_enc tags ty sq fs s w) by assumption
  end.

(** Comparisons of closed texts. *)
Ltac eval_text :=
  repeat match goal with
  | |- context [bool_decide (?a = ?b)] =>
      let v := eval vm_compute in (bool_decide (a = b)) in
      lazymatch v with true => idtac | false => idtac end;
      change (bool_decide (a = b)) with v
  end.

(** The frames of a list of actions, with their receivers. *)
Definition outs (w : list act) : list (Peer * bytes) :=
  omap (fun a => match a with Out p f => Some (p, f) | _ => None end) w.

Lemma outs_app (w w' : list act) : outs (w ++ w') = outs w ++ outs w'.
Proof. apply omap_app. Qed.
Lemma outs_out (p : Peer) (f : bytes) (w : list act) : outs (Out p f :: w) = (p, f) :: outs w.
Proof. reflexivity. Qed.
Lemma outs_sip (t : bytes) (a b : Z) (w : list act) : outs (CapSip t a b :: w) = outs w.
Proof. reflexivity. Qed.
Lemma outs_dia (p : PcapCall) (w : list act) : outs (CapDia p :: w) = outs w.
Proof. reflexivity. Qed.
Lemma outs_nil : outs [] = [].
Proof. reflexivity. Qed.

Ltac simpl_outs := rewrite ?outs_app, ?outs_out, ?outs_sip, ?outs_dia, ?outs_nil.

(** A handler takes the node from one state to another and sends frames. *)
Definition delivers {S} (h : H S unit) (s s' : S) (fs : list (Peer * bytes)) : Prop :=
  exists w, h (s, []) = Ok (tt, (s', w)) /\ outs w = fs.

Lemma delivers_run {S} (h : H S unit) (s s' : S) (fs : list (Peer * bytes)) :
  delivers h s s' fs -> exists w, run_node h s = Some (s', w) /\ outs w = fs.
Proof. intros (w & E & Ew). exists w. unfold run_node. rewrite E. auto. Qed.

Lemma sent_to_outs (p : Peer) (w : list act) :
  sent_to p w = omap (fun '(p', f) => if decide (p = p') then Some f else None) (outs w).
Proof.
  induction w as [|a w IH]; [reflexivity|]. destruct a; cbn in *; try exact IH.
  destruct (decide (p = to)); [f_equal|]; exact IH.
Qed.

(** The frame of a message and the frame it is forwarded in. *)
Definition msg_frame (type : SipMsgType) (seq : Z) (fs : fields) : bytes :=
  frame (sip_message type seq fs).

Ltac wf_sip := repeat (apply List.Forall_cons; [cbn; try lia|]); apply List.Forall_nil.
