(* ===== verification/ImsMain.v ===== *)
(** * The single-process IMS program

    [ims-simulator/src/ims_main.cpp]: the program that plays the message flows
    of registrations, calls, conferences, call waiting, barring and hang-up
    itself, and writes them to the capture.  Printed text, the event log and
    pauses are not modelled; the nodes it starts receive nothing from it.
    [std::rand] is a parameter. *)

From S2P Require Import Prelude NodeEnv Text Strings Http SipText ImsEnv.
#[local] Open Scope Z_scope.

(** ** State *)

Record UeIdentity : Type := mkIdentity {
  label : bytes; impu : bytes; ip : bytes; registered : bool; cseq : Z
}.

Record ImsSim : Type := mkImsSim {
  g_ues : gmap bytes UeIdentity;
  g_call_seq : Z;
  chaos_enabled : bool;
  rolls : nat                   (** numbers drawn so far *)
}.

Definition new_ues : gmap bytes UeIdentity :=
  <[str "A" := mkIdentity (str "UE-A") IMPU_A IP_UE_A false 1]>
  (<[str "B" := mkIdentity (str "UE-B") IMPU_B IP_UE_B false 1]>
  (<[str "C" := mkIdentity (str "UE-C") IMPU_C IP_UE_C false 1]> ∅)).

Definition newImsSim : ImsSim := mkImsSim new_ues 1 false 0.

(** An identity [operator[]] makes up. *)
Definition noIdentity : UeIdentity := mkIdentity [] [] [] false 1.

Definition set_ue (id : bytes) (u : UeIdentity) (s : ImsSim) : ImsSim :=
  mkImsSim (<[id := u]> (g_ues s)) (g_call_seq s) (chaos_enabled s) (rolls s).
Definition set_call_seq (n : Z) (s : ImsSim) : ImsSim := mkImsSim (g_ues s) n (chaos_enabled s) (rolls s).
Definition set_chaos (b : bool) (s : ImsSim) : ImsSim := mkImsSim (g_ues s) (g_call_seq s) b (rolls s).
Definition draw (s : ImsSim) : ImsSim := mkImsSim (g_ues s) (g_call_seq s) (chaos_enabled s) (S (rolls s)).

Definition register_ue (u : UeIdentity) : UeIdentity := mkIdentity (label u) (impu u) (ip u) true (cseq u).
Definition with_cseq (n : Z) (u : UeIdentity) : UeIdentity :=
  mkIdentity (label u) (impu u) (ip u) (registered u) n.

Section Program.
Context (rand : nat -> Z).

Abbreviation P := (H ImsSim).

(** [g_ues[id]]. *)
Definition ue (id : bytes) : P UeIdentity :=
  s ← get_state;
  match g_ues s !! id with
  | Some u => mret u
  | None => modify (set_ue id noIdentity);; mret noIdentity
  end.

(** [n++] of an [int]. *)
Definition next_int (n : Z) : P Z := if n <? 2 ^ 31 - 1 then mret (n + 1) else liftM Undefined.

(** [g_ues[id].cseq++]. *)
Definition bump_cseq (id : bytes) : P unit :=
  u ← ue id; n ← next_int (cseq u); modify (set_ue id (with_cseq n u)).

(** [g_call_seq++]: the value before. *)
Definition call_seq : P Z :=
  s ← get_state; n ← next_int (g_call_seq s); modify (set_call_seq n);; mret (g_call_seq s).

(** [Chaos::rollCorrupt]. *)
Definition rollCorrupt : P bool :=
  s ← get_state;
  if negb (chaos_enabled s) then mret false
  else modify draw;; mret (Z.rem (rand (rolls s)) 100 <? 20).

Definition pcapSip (text : bytes) (src_ip dst_ip : Z) : P unit := writeSIP text src_ip 5060 dst_ip 5060.

(** ** The flows *)

Definition doRegister (id : bytes) : P unit :=
  u ← ue id;
  let sip := buildRegister (impu u) (ip u) (cseq u) 3600 in
  bump_cseq id;;
  pcapSip sip IP_UE IP_PCSCF;;
  pcapSip sip IP_PCSCF IP_SCSCF;;
  writeDia SERVER_ASSIGNMENT CX true IP_SCSCF PORT_DIA IP_HSS PORT_DIA;;
  writeDia SERVER_ASSIGNMENT CX false IP_HSS PORT_DIA IP_SCSCF PORT_DIA;;
  u ← ue id;
  let ok200 := build200Register (impu u) (ip u) (cseq u) in
  pcapSip ok200 IP_SCSCF IP_PCSCF;;
  pcapSip ok200 IP_PCSCF IP_UE;;
  modify (set_ue id (register_ue u)).

Definition IP_LOOP_B : Z := 0x7F000002.
Definition IP_LOOP_C : Z := 0x7F000003.

Definition corrupt_text : bytes := str "CORRUPT-SIP/2.0 200 OK" ++ crlf.

(** The part of [doCall] after the guards, for a call with this Call-ID. *)
Definition call_flow (caller callee : UeIdentity) (call_id : bytes) : P unit :=
  let invite := buildInvite (impu caller) (impu callee) (ip caller) call_id (cseq caller) 50000 in
  pcapSip invite IP_UE IP_PCSCF;;
  pcapSip invite IP_PCSCF IP_SCSCF;;
  pcapSip invite IP_SCSCF IP_MTAS;;
  let trying := build100Trying (impu caller) (impu callee) call_id (cseq callee) in
  pcapSip trying IP_MTAS IP_SCSCF;;
  pcapSip trying IP_SCSCF IP_PCSCF;;
  pcapSip trying IP_PCSCF IP_UE;;
  let ring180 := build180Ringing (impu caller) (impu callee) call_id (cseq callee) in
  pcapSip ring180 IP_LOOP_B IP_PCSCF;;
  pcapSip ring180 IP_PCSCF IP_SCSCF;;
  pcapSip ring180 IP_SCSCF IP_UE;;
  let ok200inv := build200Invite (impu caller) (impu callee) (ip callee) call_id (cseq callee) 60000 in
  corrupted ← rollCorrupt;
  (if corrupted : bool then pcapSip corrupt_text IP_LOOP_B IP_SCSCF
   else pcapSip ok200inv IP_LOOP_B IP_SCSCF;;
        pcapSip ok200inv IP_SCSCF IP_PCSCF;;
        pcapSip ok200inv IP_PCSCF IP_UE);;
  pcapSip (buildAck (impu caller) (impu callee) call_id (cseq callee)) IP_UE IP_PCSCF;;
  writeDia CREDIT_CONTROL GX true IP_PCSCF PORT_DIA IP_PCRF PORT_GX;;
  writeDia CREDIT_CONTROL GX false IP_PCRF PORT_GX IP_PCSCF PORT_DIA.

Definition doCall (caller_id callee_id : bytes) : P unit :=
  caller ← ue caller_id;
  callee ← ue callee_id;
  if negb (registered caller) then mret tt
  else if negb (registered callee) then mret tt
  else
    n ← call_seq;
    call_flow caller callee (str "call-" ++ caller_id ++ callee_id ++ str "-" ++ to_stringZ n);;
    bump_cseq caller_id;; bump_cseq callee_id.

Definition doConference : P unit :=
  _ ← call_seq;                 (** the number of the conference URI that is printed *)
  s ← get_state;
  let conf_id := str "conf-" ++ to_stringZ (g_call_seq s) ++ str "@" ++ IMS_DOMAIN in
  pcapSip (buildInvite IMPU_A IMPU_B IP_UE_A conf_id 10 50000) IP_SCSCF IP_LOOP_B;;
  pcapSip (buildInvite IMPU_A IMPU_C IP_UE_A conf_id 11 50000) IP_SCSCF IP_LOOP_C.

Definition doCallWait : P unit :=
  n ← call_seq;
  pcapSip (buildInvite IMPU_C IMPU_A IP_UE_C (str "cw-" ++ to_stringZ n) 5 50000) (IP_UE + 2) IP_PCSCF.

Definition intl_impu : bytes := str "sip:+442071234567@ims.local".

Definition doBarring : P unit :=
  n ← call_seq;
  let barr_id := str "barr-" ++ to_stringZ n in
  pcapSip (buildInvite IMPU_A intl_impu IP_UE_A barr_id 20 50000) IP_UE IP_PCSCF;;
  pcapSip (build603 IMPU_A intl_impu barr_id 20 (str "OIB")) IP_SCSCF IP_UE.

Definition bye_id (caller_id callee_id : bytes) : bytes :=
  str "call-" ++ caller_id ++ callee_id ++ str "-bye".

Definition doBye (caller_id callee_id : bytes) : P unit :=
  caller ← ue caller_id;
  callee ← ue callee_id;
  let bye := buildBye (impu caller) (impu callee) (bye_id caller_id callee_id) (cseq caller) in
  pcapSip bye IP_UE IP_PCSCF;;
  pcapSip bye IP_PCSCF IP_SCSCF;;
  bump_cseq caller_id;; bump_cseq callee_id.

(** ** The command loop *)

Definition known (id : bytes) (s : ImsSim) : bool := bool_decide (is_Some (g_ues s !! id)).

Definition reg_command (iss : istream) : P unit :=
  let '(who, _) := extract_word iss in
  who ← liftM (change_case to_upper who);
  s ← get_state;
  if bool_decide (who = str "ALL") then
    doRegister (str "A");; doRegister (str "B");; doRegister (str "C")
  else if known who s then doRegister who else mret tt.

Definition call_command (iss : istream) : P unit :=
  let '(a, iss) := extract_word iss in
  let '(b, _) := extract_word iss in
  a ← liftM (change_case to_upper a);
  b ← liftM (change_case to_upper b);
  s ← get_state;
  if known a s && known b s then doCall a b else mret tt.

Definition chaos_command (iss : istream) : P unit :=
  let '(arg, _) := extract_word iss in
  arg ← liftM (change_case to_upper arg);
  modify (set_chaos (bool_decide (arg = str "ON"))).

(** One line; whether the loop goes on. *)
Definition ims_line (line : bytes) : P bool :=
  match line with
  | [] => mret true
  | _ =>
      let '(cmd, iss) := extract_word (Some line) in
      cmd ← liftM (change_case to_upper cmd);
      if bool_decide (cmd = str "QUIT") then mret false
      else
        (if bool_decide (cmd = str "STATUS") then mret tt
         else if bool_decide (cmd = str "REG") then reg_command iss
         else if bool_decide (cmd = str "CALL") then call_command iss
         else if bool_decide (cmd = str "CONF") then doConference
         else if bool_decide (cmd = str "WAIT") then doCallWait
         else if bool_decide (cmd = str "BARR") then doBarring
         else if bool_decide (cmd = str "BYE") then doBye (str "A") (str "B")
         else if bool_decide (cmd = str "CHAOS") then chaos_command iss
         else mret tt);;
        mret true
  end.

Fixpoint ims_lines (ls : list bytes) : P unit :=
  match ls with
  | [] => mret tt
  | l :: ls' => more ← ims_line l; if more : bool then ims_lines ls' else mret tt
  end.

End Program.

(** ** Reading the capture *)

Definition texts (w : list act) : list bytes :=
  omap (fun a => match a with CapSip t _ _ => Some t | _ => None end) w.

(** A header of a text, as a reader of the format finds it. *)
Definition header_of (name text : bytes) : option bytes :=
  '(_, hs, _) ← read_text text; find_header name hs.

Definition start_of (text : bytes) : option bytes := '(s, _, _) ← read_text text; Some s.

Definition call_id_of (text : bytes) : option bytes := header_of (str "Call-ID: ") text.
Definition cseq_of (text : bytes) : option bytes :=
  (fun v => (take_word v).1) <$> header_of (str "CSeq: ") text.

(** ** Lemmas: headers of the texts *)

Lemma text_read_alone (start : bytes) (hs : list bytes) (body : bytes) :
  Forall clean_line (start :: hs) -> Z.of_nat (length body) < 2 ^ 64 ->
  forallb (fun h => negb (prefixb (str "Content-Length: ") h)) hs = true ->
  read_text (sip_text (start :: hs ++ [content_length body]) body)
  = Some (start, hs ++ [content_length body], body).
Proof. intros. rewrite <- (app_nil_r (sip_text _ _)). apply text_read; assumption. Qed.

(** A well-formed message with this start line, Call-ID and CSeq number. *)
Record message_of (start id n text : bytes) : Prop := {
  mo_start : start_of text = Some start;
  mo_id : call_id_of text = Some id;
  mo_cseq : cseq_of text = Some n;
  mo_whole : exists body, delimited text body
}.

Lemma message_read (start id n m : bytes) (hs : list bytes) (body : bytes) :
  Forall clean_line (start :: hs) -> Z.of_nat (length body) < 2 ^ 64 ->
  forallb (fun h => negb (prefixb (str "Content-Length: ") h)) hs = true ->
  find_header (str "Call-ID: ") (hs ++ [content_length body]) = Some id ->
  find_header (str "CSeq: ") (hs ++ [content_length body]) = Some (n ++ 32 :: m) ->
  Forall (fun c => is_space c = false) n ->
  message_of start id n (sip_text (start :: hs ++ [content_length body]) body).
Proof.
  intros Hl Hb Hc Hid Hq Hn. pose proof (text_read_alone start hs body Hl Hb Hc) as R.
  constructor.
  - unfold start_of. rewrite R. reflexivity.
  - unfold call_id_of, header_of. rewrite R. exact Hid.
  - unfold cseq_of, header_of. rewrite R. cbn [mbind option_bind]. rewrite Hq. cbn.
    rewrite take_word_app by (exact Hn || reflexivity). reflexivity.
  - exists body. apply text_delimited; assumption.
Qed.

Lemma stringZ_word (n : Z) : Forall (fun c => is_space c = false) (to_stringZ n).
Proof.
  eapply List.Forall_impl; [|apply to_stringZ_chars]. cbn. unfold is_digit, is_space. intros c [-> | H]; lia.
Qed.

Ltac message_lines :=
  lazymatch goal with
  | |- message_of ?st ?id ?n (sip_text (?s :: ?hs) ?b) =>
      let hs' := eval cbn [removelast] in (removelast hs) in
      eapply (fun m => message_read s id n m hs' b);
        [lines_clean| |reflexivity|reflexivity|reflexivity|apply stringZ_word]
  end.

Ltac empty_message f :=
  unfold f; rewrite (content_length_no []) by reflexivity; message_lines; reflexivity.

Section Texts.
Context (a b id ip : bytes) (n : Z).
Context (Ha : header_text a) (Hb : header_text b) (Hid : header_text id) (Hip : header_text ip).

Lemma register_message (e : Z) :
  message_of (str "REGISTER sip:" ++ IMS_DOMAIN ++ str " SIP/2.0") (str "reg-" ++ to_stringZ n ++ str "@" ++ ip)
    (to_stringZ n) (buildRegister a ip n e).
Proof. empty_message buildRegister. Qed.

Lemma registered_message :
  message_of (str "SIP/2.0 200 OK") (str "reg-" ++ to_stringZ n ++ str "@" ++ ip)
    (to_stringZ n) (build200Register a ip n).
Proof. empty_message build200Register. Qed.

Lemma invite_message (port : Z) :
  Z.of_nat (length (invite_sdp ip port)) < 2 ^ 64 ->
  message_of (str "INVITE " ++ b ++ str " SIP/2.0") id (to_stringZ n) (buildInvite a b ip id n port).
Proof. intros Hs. unfold buildInvite. cbv zeta. message_lines. exact Hs. Qed.

Lemma trying_message : message_of (str "SIP/2.0 100 Trying") id (to_stringZ n) (build100Trying a b id n).
Proof. empty_message build100Trying. Qed.

Lemma ringing_message : message_of (str "SIP/2.0 180 Ringing") id (to_stringZ n) (build180Ringing a b id n).
Proof. empty_message build180Ringing. Qed.

Lemma answer_message (port : Z) :
  Z.of_nat (length (answer_sdp ip port)) < 2 ^ 64 ->
  message_of (str "SIP/2.0 200 OK") id (to_stringZ n) (build200Invite a b ip id n port).
Proof. intros Hs. unfold build200Invite. cbv zeta. message_lines. exact Hs. Qed.

Lemma ack_message : message_of (str "ACK " ++ b ++ str " SIP/2.0") id (to_stringZ n) (buildAck a b id n).
Proof. empty_message buildAck. Qed.

Lemma bye_message : message_of (str "BYE " ++ b ++ str " SIP/2.0") id (to_stringZ n) (buildBye a b id n).
Proof. empty_message buildBye. Qed.

Lemma decline_message : message_of (str "SIP/2.0 603 Decline") id (to_stringZ n) (build603 a b id n ip).
Proof. empty_message build603. Qed.

End Texts.

(** ** Lemmas: what the program keeps *)

Definition terminal (id : bytes) : Prop := id = str "A" \/ id = str "B" \/ id = str "C".

Definition sound_ue (u : UeIdentity) : Prop :=
  header_text (impu u) /\ (ip u = IP_UE_A \/ ip u = IP_UE_B \/ ip u = IP_UE_C).

Record sim_ok (s : ImsSim) : Prop := {
  ok_known : forall id, is_Some (g_ues s !! id) <-> terminal id;
  ok_sound : forall id u, g_ues s !! id = Some u -> sound_ue u
}.

(** What may be written to the capture. *)
Definition sound_act (a : act) : Prop :=
  match a with
  | Out _ _ => False
  | CapDia _ => True
  | CapSip t _ _ =>
      t = corrupt_text
      \/ exists start id n, message_of start id n t
         /\ (prefixb (str "INVITE ") start = true -> id <> bye_id (str "A") (str "B"))
         /\ (prefixb (str "BYE ") start = true -> id = bye_id (str "A") (str "B"))
  end.

(** A program that keeps the identities and writes sound captures only. *)
Definition flows {A} (h : H ImsSim A) (Q : A -> Prop) : Prop :=
  forall s w a s' w', sim_ok s -> h (s, w) = Ok (a, (s', w')) ->
    sim_ok s' /\ Q a /\ exists ts, w' = w ++ ts /\ Forall sound_act ts.

Abbreviation anything := (fun _ => True).

Lemma flows_ret {A} (a : A) (Q : A -> Prop) : Q a -> flows (mret a) Q.
Proof.
  intros HQ s w a' s' w' Hs E. injection E as <- <- <-. split; [exact Hs|]. split; [exact HQ|].
  exists []. rewrite app_nil_r. auto.
Qed.

Lemma flows_bind {A B} (m : H ImsSim A) (k : A -> H ImsSim B) (Q : A -> Prop) (R : B -> Prop) :
  flows m Q -> (forall a, Q a -> flows (k a) R) -> flows (m ≫= k) R.
Proof.
  intros Hm Hk s w b s2 w2 Hs E. apply M_bind_inv in E as (a & [s1 w1] & E1 & E2).
  destruct (Hm s w a s1 w1 Hs E1) as (H1 & Qa & t1 & -> & F1).
  destruct (Hk a Qa s1 _ b s2 w2 H1 E2) as (H2 & Rb & t2 & -> & F2).
  split; [exact H2|]. split; [exact Rb|]. exists (t1 ++ t2). rewrite app_assoc.
  split; [reflexivity|]. apply Forall_app. auto.
Qed.

Lemma flows_weaken {A} (m : H ImsSim A) (Q R : A -> Prop) :
  flows m Q -> (forall a, Q a -> R a) -> flows m R.
Proof.
  intros Hm HQ s w a s' w' Hs E. destruct (Hm s w a s' w' Hs E) as (H1 & H2 & H3). auto.
Qed.

Lemma flows_state : flows get_state sim_ok.
Proof.
  intros s w a s' w' Hs E. injection E as <- <- <-. split; [exact Hs|]. split; [exact Hs|].
  exists []. rewrite app_nil_r. auto.
Qed.

Lemma flows_modify (f : ImsSim -> ImsSim) :
  (forall s, sim_ok s -> sim_ok (f s)) -> flows (modify f) anything.
Proof.
  intros Hf s w a s' w' Hs E. injection E as <- <- <-. split; [auto|]. split; [exact I|].
  exists []. rewrite app_nil_r. auto.
Qed.

Lemma flows_lift {A} (r : res A) : flows (liftM r) anything.
Proof.
  intros s w a s' w' Hs E. unfold liftM in E. destruct r; try discriminate. injection E as <- <- <-.
  split; [exact Hs|]. split; [exact I|]. exists []. rewrite app_nil_r. auto.
Qed.

Lemma flows_emit (x : act) : sound_act x -> flows (emit x) anything.
Proof.
  intros Hx s w a s' w' Hs E. injection E as <- <- <-. split; [exact Hs|]. split; [exact I|].
  exists [x]. split; [reflexivity|]. constructor; [exact Hx|constructor].
Qed.

Lemma flows_dia cmd app r si sp di dp : flows (writeDia cmd app r si sp di dp) anything.
Proof. apply flows_emit. exact I. Qed.

(** A text that is neither an INVITE of that Call-ID nor another BYE. *)
Lemma flows_sip (start id n t : bytes) (src dst : Z) :
  message_of start id n t ->
  (prefixb (str "INVITE ") start = true -> id <> bye_id (str "A") (str "B")) ->
  (prefixb (str "BYE ") start = true -> id = bye_id (str "A") (str "B")) ->
  flows (pcapSip t src dst) anything.
Proof. intros. apply flows_emit. right. exists start, id, n. auto. Qed.

Lemma ok_set_ue (id : bytes) (u : UeIdentity) (s : ImsSim) :
  terminal id -> sound_ue u -> sim_ok s -> sim_ok (set_ue id u s).
Proof.
  intros Hid Hu [Hk Hs]. constructor.
  - intros k. cbn. rewrite lookup_insert_is_Some, Hk. split; [intros [<- | [_ H]]; assumption|].
    intros H. destruct (decide (id = k)); auto.
  - intros k v. cbn. rewrite lookup_insert_Some. intros [[_ <-] | [_ E]]; [exact Hu|exact (Hs k v E)].
Qed.

Lemma flows_ue (id : bytes) : terminal id -> flows (ue id) sound_ue.
Proof.
  intros Hid s w a s' w' Hs E. unfold ue in E. rewrite M_bind_eq in E.
  change (get_state (s, w)) with (Ok (s, (s, w))) in E. cbv beta iota in E.
  destruct (proj2 (ok_known s Hs id) Hid) as [u Eu]. rewrite Eu in E. injection E as <- <- <-.
  split; [exact Hs|]. split; [exact (ok_sound s Hs id u Eu)|]. exists []. rewrite app_nil_r. auto.
Qed.

Lemma flows_next (n : Z) : flows (next_int n) anything.
Proof. unfold next_int. destruct (n <? _); [apply flows_ret; exact I|apply flows_lift]. Qed.

Ltac flow :=
  repeat (first [ apply flows_dia | apply flows_next | apply flows_lift | apply flows_ret; exact I ]
          || (eapply flows_bind; [|intros ? ?])).

Lemma flows_bump (id : bytes) : terminal id -> flows (bump_cseq id) anything.
Proof.
  intros Hid. unfold bump_cseq. eapply flows_bind; [apply (flows_ue id Hid)|]. intros u Hu.
  eapply flows_bind; [apply flows_next|]. intros n _. apply flows_modify. intros s Hs.
  apply ok_set_ue; [exact Hid|exact Hu|exact Hs].
Qed.

Lemma ok_call_seq (n : Z) (s : ImsSim) : sim_ok s -> sim_ok (set_call_seq n s).
Proof. intros [Hk Hs]. constructor; assumption. Qed.

Lemma flows_call_seq : flows call_seq anything.
Proof.
  unfold call_seq. eapply flows_bind; [apply flows_state|]. intros s Hs.
  eapply flows_bind; [apply flows_next|]. intros n _.
  eapply flows_bind; [apply flows_modify; apply ok_call_seq|]. intros _ _. apply flows_ret. exact I.
Qed.

Lemma flows_roll (rand : nat -> Z) : flows (rollCorrupt rand) anything.
Proof.
  unfold rollCorrupt. eapply flows_bind; [apply flows_state|]. intros s Hs.
  destruct (negb _); [apply flows_ret; exact I|].
  eapply flows_bind; [apply flows_modify; intros x [Hk Hx]; constructor; assumption|]. intros _ _.
  apply flows_ret. exact I.
Qed.

(** Call-IDs of calls and of the BYE. *)
Lemma call_id_not_bye (a b : bytes) (n : Z) :
  terminal a -> terminal b -> str "call-" ++ a ++ b ++ str "-" ++ to_stringZ n <> bye_id (str "A") (str "B").
Proof.
  intros Ha Hb E. pose proof (to_stringZ_chars n) as H. pose proof (to_stringZ_nonempty n) as Hne.
  destruct (to_stringZ n) as [|c l]; [contradiction|]. inversion_clear H as [|? ? Hc _].
  destruct Ha as [-> | [-> | ->]]; destruct Hb as [-> | [-> | ->]]; try discriminate E.
  apply (f_equal (drop 8)) in E. cbn in E. injection E as -> _.
  destruct Hc as [? | Hc]; [discriminate|discriminate Hc].
Qed.

(** The side conditions of one text: what its start line is not, or what its
    Call-ID is not. *)
Ltac not_start := solve [intros H; discriminate H].

Lemma flows_register (id : bytes) : terminal id -> flows (doRegister id) anything.
Proof.
  intros Hid. unfold doRegister. eapply flows_bind; [apply (flows_ue id Hid)|]. intros u [Hi Hip].
  assert (Hh : forall v, sound_ue v -> header_text (ip v))
    by (intros v [_ [-> | [-> | ->]]]; apply header_text_lit; reflexivity).
  cbv zeta. eapply flows_bind; [apply (flows_bump id Hid)|]. intros _ _.
  assert (R := register_message (impu u) (ip u) (cseq u) Hi (Hh u (conj Hi Hip)) 3600).
  eapply flows_bind; [apply (flows_sip _ _ _ _ _ _ R); not_start|]. intros _ _.
  eapply flows_bind; [apply (flows_sip _ _ _ _ _ _ R); not_start|]. intros _ _.
  eapply flows_bind; [apply flows_dia|]. intros _ _. eapply flows_bind; [apply flows_dia|]. intros _ _.
  eapply flows_bind; [apply (flows_ue id Hid)|]. intros v Hv.
  assert (R' := registered_message (impu v) (ip v) (cseq v) (proj1 Hv) (Hh v Hv)).
  eapply flows_bind; [apply (flows_sip _ _ _ _ _ _ R'); not_start|]. intros _ _.
  eapply flows_bind; [apply (flows_sip _ _ _ _ _ _ R'); not_start|]. intros _ _.
  apply flows_modify. intros s Hs. apply ok_set_ue; [exact Hid|exact Hv|exact Hs].
Qed.

Lemma invite_sdp_small (i : bytes) :
  i = IP_UE_A \/ i = IP_UE_B \/ i = IP_UE_C -> Z.of_nat (length (invite_sdp i 50000)) < 2 ^ 64.
Proof. intros [-> | [-> | ->]]; vm_compute; reflexivity. Qed.

Lemma answer_sdp_small (i : bytes) :
  i = IP_UE_A \/ i = IP_UE_B \/ i = IP_UE_C -> Z.of_nat (length (answer_sdp i 60000)) < 2 ^ 64.
Proof. intros [-> | [-> | ->]]; vm_compute; reflexivity. Qed.

Lemma address_text (i : bytes) : i = IP_UE_A \/ i = IP_UE_B \/ i = IP_UE_C -> header_text i.
Proof. intros [-> | [-> | ->]]; apply header_text_lit; reflexivity. Qed.

(** Texts that cannot be the BYE. *)
Lemma flows_other (start id n t : bytes) (src dst : Z) :
  message_of start id n t -> id <> bye_id (str "A") (str "B") -> prefixb (str "BYE ") start = false ->
  flows (pcapSip t src dst) anything.
Proof. intros M Hid Hb. apply (flows_sip start id n); [exact M|auto|rewrite Hb; discriminate]. Qed.

Lemma flows_call_flow (rand : nat -> Z) (u v : UeIdentity) (id : bytes) :
  sound_ue u -> sound_ue v -> header_text id -> id <> bye_id (str "A") (str "B") ->
  flows (call_flow rand u v id) anything.
Proof.
  intros [Hu Hui] [Hv Hvi] Hid Hne. unfold call_flow. cbv zeta.
  assert (I1 := invite_message (impu u) (impu v) id (ip u) (cseq u) Hu Hv Hid (address_text _ Hui) 50000
                  (invite_sdp_small _ Hui)).
  assert (I2 := trying_message (impu u) (impu v) id (cseq v) Hu Hv Hid).
  assert (I3 := ringing_message (impu u) (impu v) id (cseq v) Hu Hv Hid).
  assert (I4 := answer_message (impu u) (impu v) id (ip v) (cseq v) Hu Hv Hid (address_text _ Hvi) 60000
                  (answer_sdp_small _ Hvi)).
  assert (I5 := ack_message (impu u) (impu v) id (cseq v) Hu Hv Hid).
  do 9 (eapply flows_bind;
    [eapply flows_other; [first [exact I1|exact I2|exact I3]|exact Hne|reflexivity]|intros _ _]).
  eapply flows_bind; [apply flows_roll|]. intros corrupted _. eapply flows_bind.
  { destruct corrupted; [apply flows_emit; left; reflexivity|].
    do 2 (eapply flows_bind; [eapply flows_other; [exact I4|exact Hne|reflexivity]|intros _ _]).
    eapply flows_other; [exact I4|exact Hne|reflexivity]. }
  intros _ _. eapply flows_bind; [eapply flows_other; [exact I5|exact Hne|reflexivity]|intros _ _].
  eapply flows_bind; [apply flows_dia|intros _ _]. apply flows_dia.
Qed.

Lemma terminal_text (id : bytes) : terminal id -> header_text id.
Proof. intros [-> | [-> | ->]]; apply header_text_lit; reflexivity. Qed.

Lemma flows_call (rand : nat -> Z) (a b : bytes) :
  terminal a -> terminal b -> flows (doCall rand a b) anything.
Proof.
  intros Ha Hb. unfold doCall. eapply flows_bind; [apply (flows_ue a Ha)|]. intros u Hu.
  eapply flows_bind; [apply (flows_ue b Hb)|]. intros v Hv.
  destruct (negb (registered u)); [apply flows_ret; exact I|].
  destruct (negb (registered v)); [apply flows_ret; exact I|].
  eapply flows_bind; [apply flows_call_seq|]. intros n _.
  eapply flows_bind; [apply flows_call_flow; [exact Hu|exact Hv| |apply call_id_not_bye; assumption]|].
  - repeat apply header_app; first [apply terminal_text; assumption|apply header_stringZ|apply header_text_lit; reflexivity].
  - intros _ _. eapply flows_bind; [apply (flows_bump a Ha)|]. intros _ _. apply (flows_bump b Hb).
Qed.

(** A scripted INVITE with a Call-ID that cannot be that of the BYE. *)
Lemma flows_invite (a b i id : bytes) (n src dst : Z) :
  header_text a -> header_text b -> header_text id -> i = IP_UE_A \/ i = IP_UE_B \/ i = IP_UE_C ->
  id <> bye_id (str "A") (str "B") -> flows (pcapSip (buildInvite a b i id n 50000) src dst) anything.
Proof.
  intros Ha Hb Hid Hi Hne. eapply flows_other; [|exact Hne|].
  - apply invite_message; try assumption; [apply address_text; exact Hi|apply invite_sdp_small; exact Hi].
  - reflexivity.
Qed.

Ltac text_lit := repeat apply header_app; first [apply header_stringZ | apply header_text_lit; vm_compute; reflexivity].

Lemma flows_conference : flows doConference anything.
Proof.
  unfold doConference. eapply flows_bind; [apply flows_call_seq|]. intros n _.
  eapply flows_bind; [apply flows_state|]. intros s _. cbv zeta.
  eapply flows_bind; [apply flows_invite|intros _ _; apply flows_invite];
    solve [text_lit | auto | discriminate].
Qed.

Lemma flows_wait : flows doCallWait anything.
Proof.
  unfold doCallWait. eapply flows_bind; [apply flows_call_seq|]. intros n _.
  apply flows_invite; solve [text_lit | auto | discriminate].
Qed.

Lemma flows_barring : flows doBarring anything.
Proof.
  unfold doBarring. eapply flows_bind; [apply flows_call_seq|]. intros n _. cbv zeta.
  eapply flows_bind; [apply flows_invite; solve [text_lit | auto | discriminate]|]. intros _ _.
  eapply flows_other; [apply decline_message; text_lit|discriminate|reflexivity].
Qed.

Lemma flows_bye : flows (doBye (str "A") (str "B")) anything.
Proof.
  assert (Ta : terminal (str "A")) by (left; reflexivity).
  assert (Tb : terminal (str "B")) by (right; left; reflexivity).
  unfold doBye. eapply flows_bind; [apply (flows_ue _ Ta)|]. intros u [Hu _].
  eapply flows_bind; [apply (flows_ue _ Tb)|]. intros v [Hv _]. cbv zeta.
  assert (B := bye_message (impu u) (impu v) (bye_id (str "A") (str "B")) (cseq u) Hu Hv ltac:(text_lit)).
  do 2 (eapply flows_bind; [apply (flows_sip _ _ _ _ _ _ B); [not_start|auto]|intros _ _]).
  eapply flows_bind; [apply (flows_bump _ Ta)|]. intros _ _. apply (flows_bump _ Tb).
Qed.

Lemma known_terminal (id : bytes) (s : ImsSim) : sim_ok s -> known id s = true -> terminal id.
Proof. intros Hs H. apply (ok_known s Hs). exact (bool_decide_eq_true_1 _ H). Qed.

Lemma flows_reg (iss : istream) : flows (reg_command iss) anything.
Proof.
  unfold reg_command. destruct (extract_word iss) as [w r]. eapply flows_bind; [apply flows_lift|]. intros who _.
  eapply flows_bind; [apply flows_state|]. intros s Hs. destruct (bool_decide _).
  - do 2 (eapply flows_bind; [apply flows_register; unfold terminal; auto|intros _ _]).
    apply flows_register. unfold terminal. auto.
  - destruct (known who s) eqn:K; [|apply flows_ret; exact I].
    apply flows_register. exact (known_terminal who s Hs K).
Qed.

Lemma flows_call_command (rand : nat -> Z) (iss : istream) : flows (call_command rand iss) anything.
Proof.
  unfold call_command. destruct (extract_word iss) as [a r]. destruct (extract_word r) as [b r'].
  eapply flows_bind; [apply flows_lift|]. intros a' _. eapply flows_bind; [apply flows_lift|]. intros b' _.
  eapply flows_bind; [apply flows_state|]. intros s Hs.
  destruct (known a' s) eqn:Ka; [|apply flows_ret; exact I]. destruct (known b' s) eqn:Kb; [|apply flows_ret; exact I].
  apply flows_call; eapply known_terminal; eassumption.
Qed.

Lemma flows_chaos (iss : istream) : flows (chaos_command iss) anything.
Proof.
  unfold chaos_command. destruct (extract_word iss) as [arg r]. eapply flows_bind; [apply flows_lift|]. intros x _.
  apply flows_modify. intros s [Hk Hx]. constructor; assumption.
Qed.

Lemma flows_line (rand : nat -> Z) (line : bytes) : flows (ims_line rand line) anything.
Proof.
  unfold ims_line. destruct line; [apply flows_ret; exact I|]. destruct (extract_word _) as [w iss].
  eapply flows_bind; [apply flows_lift|]. intros cmd _. destruct (bool_decide _); [apply flows_ret; exact I|].
  apply (flows_bind _ _ anything); [|intros _ _; apply flows_ret; exact I].
  repeat (destruct (bool_decide _);
    [first [apply flows_reg|apply flows_call_command|apply flows_conference|apply flows_wait|apply flows_barring
           |apply flows_bye|apply flows_chaos|apply flows_ret; exact I]|]).
  apply flows_ret. exact I.
Qed.

Lemma flows_lines (rand : nat -> Z) (ls : list bytes) : flows (ims_lines rand ls) anything.
Proof.
  induction ls as [|l ls IH]; [apply flows_ret; exact I|]. cbn [ims_lines].
  eapply flows_bind; [apply flows_line|]. intros [] _; [exact IH|apply flows_ret; exact I].
Qed.

Lemma new_ok : sim_ok newImsSim.
Proof.
  assert (E : g_ues newImsSim = new_ues) by reflexivity.
  constructor.
  - intros id. rewrite E. unfold new_ues. rewrite !lookup_insert_is_Some, lookup_empty. unfold terminal.
    split; [intros [<- | [_ [<- | [_ [<- | [_ [x H]]]]]]]; auto; discriminate|].
    intros H. destruct (decide (str "A" = id)); [auto|]. right. split; [assumption|].
    destruct (decide (str "B" = id)); [auto|]. right. split; [assumption|]. left.
    destruct H as [-> | [-> | ->]]; congruence.
  - intros id u. rewrite E. unfold new_ues. rewrite !lookup_insert_Some, lookup_empty.
    intros [[_ <-] | [_ [[_ <-] | [_ [[_ <-] | [_ H]]]]]]; try discriminate;
      (split; [apply header_text_lit; vm_compute; reflexivity|cbn; auto]).
Qed.

(** ** Lemmas: running the flows *)

Lemma ue_run (id : bytes) (u : UeIdentity) (s : ImsSim) (w : list act) :
  g_ues s !! id = Some u -> ue id (s, w) = Ok (u, (s, w)).
Proof.
  intros E. unfold ue. rewrite M_bind_eq. change (get_state (s, w)) with (Ok (s, (s, w))).
  cbv beta iota. rewrite E. reflexivity.
Qed.

Lemma sip_run (t : bytes) (src dst : Z) (s : ImsSim) (w : list act) :
  pcapSip t src dst (s, w) = Ok (tt, (s, w ++ [CapSip t src dst])).
Proof. reflexivity. Qed.

Lemma dia_run cmd app r si sp di dp (s : ImsSim) (w : list act) :
  writeDia cmd app r si sp di dp (s, w)
  = Ok (tt, (s, w ++ [CapDia (writeDiameter cmd app r si sp di dp)])).
Proof. reflexivity. Qed.

Lemma modify_run (f : ImsSim -> ImsSim) (s : ImsSim) (w : list act) : modify f (s, w) = Ok (tt, (f s, w)).
Proof. reflexivity. Qed.

Lemma next_run (n : Z) (s : ImsSim) (w : list act) :
  n < 2 ^ 31 - 1 -> next_int n (s, w) = Ok (n + 1, (s, w)).
Proof. intros H. unfold next_int. replace (n <? 2 ^ 31 - 1) with true by lia. reflexivity. Qed.

Lemma bump_run (id : bytes) (u : UeIdentity) (s : ImsSim) (w : list act) :
  g_ues s !! id = Some u -> cseq u < 2 ^ 31 - 1 ->
  bump_cseq id (s, w) = Ok (tt, (set_ue id (with_cseq (cseq u + 1) u) s, w)).
Proof.
  intros E H. unfold bump_cseq. rewrite M_bind_eq, (ue_run id u s w E), M_bind_eq, next_run by exact H.
  reflexivity.
Qed.

Lemma call_seq_run (s : ImsSim) (w : list act) :
  g_call_seq s < 2 ^ 31 - 1 ->
  call_seq (s, w) = Ok (g_call_seq s, (set_call_seq (g_call_seq s + 1) s, w)).
Proof.
  intros H. unfold call_seq. rewrite M_bind_eq. change (get_state (s, w)) with (Ok (s, (s, w))).
  cbv beta iota. rewrite M_bind_eq, next_run by exact H. reflexivity.
Qed.

Ltac run_flow :=
  repeat (rewrite M_bind_eq; first [rewrite sip_run | rewrite dia_run | rewrite modify_run]; cbv beta iota).

Lemma roll_run (rand : nat -> Z) (s : ImsSim) (w : list act) :
  chaos_enabled s = false -> rollCorrupt rand (s, w) = Ok (false, (s, w)).
Proof.
  intros E. unfold rollCorrupt. rewrite M_bind_eq. change (get_state (s, w)) with (Ok (s, (s, w))).
  cbv beta iota. rewrite E. reflexivity.
Qed.

(** The captures of an undisturbed call. *)
Definition call_captures (u v : UeIdentity) (id : bytes) : list act :=
  let invite := buildInvite (impu u) (impu v) (ip u) id (cseq u) 50000 in
  let trying := build100Trying (impu u) (impu v) id (cseq v) in
  let ring180 := build180Ringing (impu u) (impu v) id (cseq v) in
  let ok200inv := build200Invite (impu u) (impu v) (ip v) id (cseq v) 60000 in
  [CapSip invite IP_UE IP_PCSCF; CapSip invite IP_PCSCF IP_SCSCF; CapSip invite IP_SCSCF IP_MTAS;
   CapSip trying IP_MTAS IP_SCSCF; CapSip trying IP_SCSCF IP_PCSCF; CapSip trying IP_PCSCF IP_UE;
   CapSip ring180 IP_LOOP_B IP_PCSCF; CapSip ring180 IP_PCSCF IP_SCSCF; CapSip ring180 IP_SCSCF IP_UE;
   CapSip ok200inv IP_LOOP_B IP_SCSCF; CapSip ok200inv IP_SCSCF IP_PCSCF; CapSip ok200inv IP_PCSCF IP_UE;
   CapSip (buildAck (impu u) (impu v) id (cseq v)) IP_UE IP_PCSCF;
   CapDia (writeDiameter CREDIT_CONTROL GX true IP_PCSCF PORT_DIA IP_PCRF PORT_GX);
   CapDia (writeDiameter CREDIT_CONTROL GX false IP_PCRF PORT_GX IP_PCSCF PORT_DIA)].

Lemma call_flow_run (rand : nat -> Z) (u v : UeIdentity) (id : bytes) (s : ImsSim) (w : list act) :
  chaos_enabled s = false -> call_flow rand u v id (s, w) = Ok (tt, (s, w ++ call_captures u v id)).
Proof.
  intros E. unfold call_flow. cbv zeta. run_flow. rewrite M_bind_eq, roll_run by exact E. cbv beta iota.
  rewrite M_bind_eq. run_flow. rewrite sip_run. cbv beta iota. run_flow. rewrite dia_run, <- !app_assoc. reflexivity.
Qed.

(** The Call-ID and the CSeq of each. *)
Lemma call_captures_read (u v : UeIdentity) (id : bytes) :
  sound_ue u -> sound_ue v -> header_text id ->
  length (texts (call_captures u v id)) = 13%nat
  /\ map call_id_of (texts (call_captures u v id)) = repeat (Some id) 13
  /\ map cseq_of (texts (call_captures u v id))
     = repeat (Some (to_stringZ (cseq u))) 3 ++ repeat (Some (to_stringZ (cseq v))) 10.
Proof.
  intros [Hu Hui] [Hv Hvi] Hid. unfold call_captures. cbv zeta. unfold texts. cbn [omap list_omap].
  pose proof (invite_message (impu u) (impu v) id (ip u) (cseq u) Hu Hv Hid (address_text _ Hui) 50000
                  (invite_sdp_small _ Hui)) as [_ I1 J1 _].
  pose proof (trying_message (impu u) (impu v) id (cseq v) Hu Hv Hid) as [_ I2 J2 _].
  pose proof (ringing_message (impu u) (impu v) id (cseq v) Hu Hv Hid) as [_ I3 J3 _].
  pose proof (answer_message (impu u) (impu v) id (ip v) (cseq v) Hu Hv Hid (address_text _ Hvi) 60000
                  (answer_sdp_small _ Hvi)) as [_ I4 J4 _].
  pose proof (ack_message (impu u) (impu v) id (cseq v) Hu Hv Hid) as [_ I5 J5 _].
  split; [reflexivity|]. cbn [map]. rewrite I1, I2, I3, I4, I5, J1, J2, J3, J4, J5. split; reflexivity.
Qed.

(** Printed numbers differ when the numbers do. *)
Lemma stringZ_inj (a b : Z) :
  - 2 ^ 31 <= a < 2 ^ 31 -> - 2 ^ 31 <= b < 2 ^ 31 -> to_stringZ a = to_stringZ b -> a = b.
Proof.
  intros Ha Hb E. apply (f_equal stoi) in E. rewrite !stoi_to_stringZ in E by assumption. congruence.
Qed.

Lemma elem_texts (t : bytes) (w : list act) : t ∈ texts w -> exists src dst, CapSip t src dst ∈ w.
Proof.
  unfold texts. rewrite list_elem_of_omap. intros ([] & Hx & E); try discriminate. injection E as ->. eauto.
Qed.

(** ** Properties *)

(** Whatever commands are given, every SIP text written to the capture is
    a message a reader takes apart whole, the one the chaos mode corrupts
    apart; and the BYE that ends a call carries a Call-ID that no INVITE of the
    whole session carries, so it belongs to none of the captured calls. *)
Theorem bye_names_no_call (rand : nat -> Z) (lines : list bytes) (s : ImsSim) (w : list act)
    (Hrun : ims_lines rand lines (newImsSim, []) = Ok (tt, (s, w))) :
  (forall t, t ∈ texts w -> t = corrupt_text \/ exists body, delimited t body)
  /\ (forall t u st st', t ∈ texts w -> u ∈ texts w ->
        start_of t = Some st -> prefixb (str "INVITE ") st = true ->
        start_of u = Some st' -> prefixb (str "BYE ") st' = true ->
        call_id_of t <> call_id_of u).
Proof.
  destruct (flows_lines rand lines _ _ _ _ _ new_ok Hrun) as (_ & _ & ts & E & F).
  cbn in E. subst ts. rewrite List.Forall_forall in F.
  assert (K : forall t, t ∈ texts w -> exists src dst, sound_act (CapSip t src dst)).
  { intros t Ht. destruct (elem_texts t w Ht) as (src & dst & Hx). exists src, dst.
    apply F, list_elem_of_In. exact Hx. }
  split.
  - intros t Ht. destruct (K t Ht) as (src & dst & [-> | (st & id & n & M & _)]); [left; reflexivity|right].
    exact (mo_whole _ _ _ _ M).
  - assert (C : start_of corrupt_text = None) by (vm_compute; reflexivity).
    intros t u st st' Ht Hu Es Hi Es' Hb.
    destruct (K t Ht) as (? & ? & [-> | (st1 & id1 & n1 & M1 & I1 & _)]); [congruence|].
    destruct (K u Hu) as (? & ? & [-> | (st2 & id2 & n2 & M2 & _ & I2)]); [congruence|].
    rewrite (mo_start _ _ _ _ M1) in Es. injection Es as ->.
    rewrite (mo_start _ _ _ _ M2) in Es'. injection Es' as ->.
    rewrite (mo_id _ _ _ _ M1), (mo_id _ _ _ _ M2), (I2 Hb). intros E. injection E as ->. exact (I1 Hi eq_refl).
Qed.

Definition short_session : list bytes := [str "reg all"; str "call a b"; str "bye"].

Lemma bye_names_no_call_witness :
  exists s w, ims_lines (fun _ => 0) short_session (newImsSim, []) = Ok (tt, (s, w))
  /\ length (texts w) = 27%nat
  /\ (forall t, t ∈ texts w -> t = corrupt_text \/ exists body, delimited t body).
Proof.
  assert (L : match ims_lines (fun _ => 0) short_session (newImsSim, []) with
              | Ok (_, (_, w)) => length (texts w) = 27%nat | _ => False end) by (vm_compute; reflexivity).
  destruct (ims_lines (fun _ => 0) short_session (newImsSim, [])) as [[[] [s w]]| | |] eqn:E; try contradiction.
  exists s, w. split; [reflexivity|]. split; [exact L|].
  exact (proj1 (bye_names_no_call (fun _ => 0) short_session s w E)).
Defined.

(** The REGISTER of a phone and the answer captured for it never belong
    together: the answer is built after the phone's counter has moved on, so it
    carries another Call-ID and another CSeq, whatever the phone did before.
    The phone counts as registered all the same. *)
Theorem register_answer_unmatched (id : bytes) (u : UeIdentity) (s : ImsSim) (w : list act)
    (Hu : g_ues s !! id = Some u) (Hi : header_text (impu u)) (Hp : header_text (ip u))
    (Hc : 0 <= cseq u < 2 ^ 31 - 1) :
  exists s' req ans rest,
    doRegister id (s, w) = Ok (tt, (s', w ++ rest)) /\ texts rest = [req; req; ans; ans]
    /\ (registered <$> g_ues s' !! id) = Some true
    /\ call_id_of req = Some (str "reg-" ++ to_stringZ (cseq u) ++ str "@" ++ ip u)
    /\ call_id_of ans <> call_id_of req /\ cseq_of ans <> cseq_of req
    /\ call_id_of ans <> None.
Proof.
  assert (Hn : next_int (cseq u) = mret (cseq u + 1))
    by (unfold next_int; replace (cseq u <? 2 ^ 31 - 1) with true by lia; reflexivity).
  set (u1 := with_cseq (cseq u + 1) u).
  assert (E : exists s', doRegister id (s, w) = Ok (tt, (s', w ++
      [CapSip (buildRegister (impu u) (ip u) (cseq u) 3600) IP_UE IP_PCSCF;
       CapSip (buildRegister (impu u) (ip u) (cseq u) 3600) IP_PCSCF IP_SCSCF;
       CapDia (writeDiameter SERVER_ASSIGNMENT CX true IP_SCSCF PORT_DIA IP_HSS PORT_DIA);
       CapDia (writeDiameter SERVER_ASSIGNMENT CX false IP_HSS PORT_DIA IP_SCSCF PORT_DIA);
       CapSip (build200Register (impu u) (ip u) (cseq u + 1)) IP_SCSCF IP_PCSCF;
       CapSip (build200Register (impu u) (ip u) (cseq u + 1)) IP_PCSCF IP_UE]))
      /\ g_ues s' !! id = Some (register_ue u1)).
  { unfold doRegister. rewrite M_bind_eq, (ue_run id u s w Hu). cbv beta iota zeta.
    rewrite M_bind_eq, (bump_run id u s w Hu) by lia. cbv beta iota. fold u1. run_flow.
    rewrite M_bind_eq, (ue_run id u1) by apply lookup_insert_eq. cbv beta iota zeta. run_flow.
    rewrite modify_run. eexists. split; [rewrite <- !app_assoc; reflexivity|]. apply lookup_insert_eq. }
  destruct E as (s' & E & Es).
  pose proof (register_message (impu u) (ip u) (cseq u) Hi Hp 3600) as M1.
  pose proof (registered_message (impu u) (ip u) (cseq u + 1) Hi Hp) as M2.
  eexists s', _, _, _. split; [exact E|]. split; [reflexivity|].
  split; [rewrite Es; reflexivity|]. split; [exact (mo_id _ _ _ _ M1)|].
  rewrite (mo_id _ _ _ _ M1), (mo_id _ _ _ _ M2), (mo_cseq _ _ _ _ M1), (mo_cseq _ _ _ _ M2).
  assert (D : to_stringZ (cseq u + 1) <> to_stringZ (cseq u)) by (intros D; apply stringZ_inj in D; lia).
  split; [|split; [congruence|discriminate]]. intros X. injection X as X.
  apply app_inv_tail in X. exact (D X).
Qed.

Definition registered_a : ImsSim := set_ue (str "A") (mkIdentity (str "UE-A") IMPU_A IP_UE_A true 7) newImsSim.

Lemma register_answer_unmatched_witness :
  exists s' req ans rest,
    doRegister (str "A") (registered_a, []) = Ok (tt, (s', [] ++ rest)) /\ texts rest = [req; req; ans; ans]
    /\ call_id_of req = Some (str "reg-7@10.0.0.1") /\ call_id_of ans <> call_id_of req.
Proof.
  destruct (register_answer_unmatched (str "A") (mkIdentity (str "UE-A") IMPU_A IP_UE_A true 7) registered_a [])
    as (s' & req & ans & rest & E & T & _ & R & N & _); [reflexivity|apply header_text_lit; vm_compute; reflexivity
    |apply header_text_lit; reflexivity|cbn; lia|].
  exists s', req, ans, rest. split; [exact E|]. split; [exact T|]. split; [rewrite R; reflexivity|exact N].
Defined.

(** A call between two registered phones, without chaos, captures thirteen
    texts of one new Call-ID, which the next call does not reuse; they carry
    one CSeq number, as the messages of one INVITE transaction must, exactly
    when the two phones' counters agree.  A call with an unregistered phone
    captures nothing and changes nothing. *)
Theorem call_shares_dialog (rand : nat -> Z) (a b : bytes) (u v : UeIdentity) (s : ImsSim) (w : list act)
    (Hs : sim_ok s) (Hu : g_ues s !! a = Some u) (Hv : g_ues s !! b = Some v) (Hab : a <> b)
    (Hchaos : chaos_enabled s = false)
    (Hb : 0 <= cseq u < 2 ^ 31 - 1 /\ 0 <= cseq v < 2 ^ 31 - 1 /\ 0 <= g_call_seq s < 2 ^ 31 - 1) :
  if registered u && registered v then
    exists s' rest,
      doCall rand a b (s, w) = Ok (tt, (s', w ++ rest)) /\ g_call_seq s' = g_call_seq s + 1
      /\ length (texts rest) = 13%nat
      /\ (forall t, t ∈ texts rest -> call_id_of t = Some (str "call-" ++ a ++ b ++ str "-" ++ to_stringZ (g_call_seq s)))
      /\ ((exists n, forall t, t ∈ texts rest -> cseq_of t = Some n) <-> cseq u = cseq v)
  else doCall rand a b (s, w) = Ok (tt, (s, w)).
Proof.
  unfold doCall. rewrite M_bind_eq, (ue_run a u s w Hu). cbv beta iota.
  rewrite M_bind_eq, (ue_run b v s w Hv). cbv beta iota.
  destruct (registered u); [|reflexivity]. destruct (registered v); [|reflexivity]. cbn [negb andb].
  rewrite M_bind_eq, call_seq_run by lia. cbv beta iota.
  set (id := str "call-" ++ a ++ b ++ str "-" ++ to_stringZ (g_call_seq s)).
  set (s1 := set_call_seq _ s). rewrite M_bind_eq, call_flow_run by exact Hchaos. cbv beta iota.
  rewrite M_bind_eq, (bump_run a u) by (exact Hu || lia). cbv beta iota.
  rewrite (bump_run b v) by (first [lia | cbn; rewrite lookup_insert_ne by exact Hab; exact Hv]).
  assert (Hid : header_text id).
  { pose proof (proj1 (ok_known s Hs a) (ex_intro _ u Hu)) as Ta. pose proof (proj1 (ok_known s Hs b) (ex_intro _ v Hv)) as Tb.
    unfold id. repeat apply header_app; first [apply terminal_text; assumption|apply header_stringZ|apply header_text_lit; reflexivity]. }
  destruct (call_captures_read u v id (ok_sound s Hs a u Hu) (ok_sound s Hs b v Hv) Hid) as (L & I & J).
  eexists _, _. split; [reflexivity|]. split; [reflexivity|]. split; [exact L|].
  assert (K : forall (f : bytes -> option bytes) t, t ∈ texts (call_captures u v id) ->
              f t ∈ map f (texts (call_captures u v id))).
  { intros f t Ht. apply list_elem_of_In, in_map, list_elem_of_In. exact Ht. }
  split; [|split].
  - intros t Ht. specialize (K call_id_of t Ht). rewrite I in K. apply list_elem_of_In, repeat_spec in K. exact K.
  - intros [n Hn].
    assert (A : Forall (fun x => x = Some n) (map cseq_of (texts (call_captures u v id)))).
    { apply Forall_map, List.Forall_forall. intros t Ht. apply Hn, list_elem_of_In. exact Ht. }
    rewrite J in A. apply Forall_app in A as [A B]. inversion A as [|? ? A1 _]. inversion B as [|? ? B1 _]. subst.
    apply stringZ_inj; [lia|lia|congruence].
  - intros Ec. exists (to_stringZ (cseq v)). intros t Ht. specialize (K cseq_of t Ht). rewrite J, Ec in K.
    apply list_elem_of_In, in_app_or in K as [K | K]; apply repeat_spec in K; exact K.
Qed.

(** Two calls of one phone: the second finds the counters apart. *)
Definition session_ac : ImsSim :=
  set_ue (str "C") (mkIdentity (str "UE-C") IMPU_C IP_UE_C true 2)
    (set_ue (str "A") (mkIdentity (str "UE-A") IMPU_A IP_UE_A true 3) newImsSim).

Lemma call_shares_dialog_witness :
  exists s' rest, doCall (fun _ => 0) (str "A") (str "C") (session_ac, []) = Ok (tt, (s', [] ++ rest))
  /\ (forall t, t ∈ texts rest -> call_id_of t = Some (str "call-AC-1"))
  /\ ~ (exists n, forall t, t ∈ texts rest -> cseq_of t = Some n).
Proof.
  assert (S : sim_ok session_ac).
  { apply ok_set_ue; [right; right; reflexivity|split; [apply header_text_lit; vm_compute; reflexivity|auto]|].
    apply ok_set_ue; [left; reflexivity|split; [apply header_text_lit; vm_compute; reflexivity|auto]|]. exact new_ok. }
  destruct (call_shares_dialog (fun _ => 0) (str "A") (str "C") (mkIdentity (str "UE-A") IMPU_A IP_UE_A true 3)
    (mkIdentity (str "UE-C") IMPU_C IP_UE_C true 2) session_ac [] S) as (s' & rest & E & _ & _ & I & Q);
    [reflexivity|reflexivity|discriminate|reflexivity|cbn; lia|].
  exists s', rest. split; [exact E|]. split; [exact I|]. intros X. apply Q in X. discriminate X.
Defined.
