(* ===== verification/ImsHss.v ===== *)
(** * The HSS of the IMS

    [ImsHssNode] of [ims-simulator/src/ims/ims_hss.cpp]: it answers the
    Server-Assignment-Request of the S-CSCF. *)

From S2P Require Import Prelude Tlv NodeEnv Text Sip ImsEnv.
#[local] Open Scope Z_scope.

Record ImsHssNode : Type := mkImsHss { ihss_next_seq_ : Z }.

Definition newImsHss : ImsHssNode := mkImsHss 1.

Definition ihss_seq : H ImsHssNode Z :=
  s ← get_state; modify (fun s => mkImsHss (u32 (ihss_next_seq_ s + 1)));; mret (ihss_next_seq_ s).

Definition hss_profile : bytes :=
  str "MMTEL-VoLTE; iFC=[REGISTER->MTAS,INVITE->MTAS]; MSISDN=+919000000001".

Definition handleSAR (payload : bytes) : H ImsHssNode unit :=
  l ← read_fields [CX_IMPU; CX_IMPI] payload;
  seq ← ihss_seq;
  send_frame ToScscf (sip_message DIA_CX_SAA seq [(CX_SCSCF_NAME, hss_profile)]).

(** One turn of [receiveLoop] on a payload. *)
Definition ihss_receive (payload : bytes) : H ImsHssNode unit :=
  match sip_type payload with
  | Some DIA_CX_SAR => handleSAR payload
  | _ => mret tt
  end.

(** ** Properties *)

(** The HSS answers every assignment request with the same profile: the
    identities of the request are read for the log only. *)
Theorem hss_answers_sar (s : ImsHssNode) (seq : Z) (impu impi : bytes)
    (Hseq : in_u 32 seq) (Hwf : wf_fields_sip [(CX_IMPU, impu); (CX_IMPI, impi)]) :
  run_node (ihss_receive (enc_sip DIA_CX_SAR seq [(CX_IMPU, impu); (CX_IMPI, impi)])) s =
  Some (mkImsHss (u32 (ihss_next_seq_ s + 1)),
        [Out ToScscf (frame (sip_message DIA_CX_SAA (ihss_next_seq_ s)
                               [(CX_SCSCF_NAME, hss_profile)]))]).
Proof.
  unfold run_node, ihss_receive. rewrite sip_type_enc by exact Hseq.
  unfold handleSAR. rewrite M_bind_eq, read_fields_enc by assumption. reflexivity.
Qed.

Lemma hss_answers_sar_witness :
  run_node (ihss_receive (enc_sip DIA_CX_SAR 1 [(CX_IMPU, str "sip:a"); (CX_IMPI, str "a")]))
    newImsHss =
  Some (mkImsHss 2, [Out ToScscf (frame (sip_message DIA_CX_SAA 1 [(CX_SCSCF_NAME, hss_profile)]))]).
Proof.
  apply (hss_answers_sar newImsHss 1 (str "sip:a") (str "a")).
  - unfold in_u; lia.
  - repeat (apply List.Forall_cons; [vm_compute; reflexivity|]). apply List.Forall_nil.
Defined.
