(* ===== verification/Scscf.v ===== *)
(** * The S-CSCF and the MTAS

    [ScscfNode] of [ims-simulator/src/ims/scscf_node.cpp] with the state of
    [mtas_state.h]: the SIP registrar and the call control.  One thread runs
    the receive loop; [std::async] of [handleInvite] is waited for at once.
    The answer of the HSS to a request just sent is the parameter [cx]. *)

From S2P Require Import Prelude Tlv NodeEnv Text Strings Http Sip SipText ImsEnv.
#[local] Open Scope Z_scope.

(** ** State *)

Record ImsSubscriber : Type := mkSub {
  impu : bytes;
  impi : bytes;
  contact : bytes;
  scscf_name : bytes;
  registered : bool
}.

Record CallState : Type := mkCall {
  caller_impu : bytes;
  callee_impu : bytes;
  cs_call_id : bytes;
  on_hold : bool;
  in_conference : bool
}.

(** [CallState{}], as [operator[]] of the map makes it. *)
Definition newCall : CallState := mkCall [] [] [] false false.

Record ScscfNode : Type := mkScscf {
  registry_ : gmap bytes ImsSubscriber;
  calls_ : gmap bytes CallState;
  sc_next_seq_ : Z;
  barred : gset bytes        (** [MtasState::barred()], of the process *)
}.

Definition newScscf : ScscfNode := mkScscf ∅ ∅ 1 ∅.

Definition set_registry (m : gmap bytes ImsSubscriber) (s : ScscfNode) : ScscfNode :=
  mkScscf m (calls_ s) (sc_next_seq_ s) (barred s).
Definition set_calls (m : gmap bytes CallState) (s : ScscfNode) : ScscfNode :=
  mkScscf (registry_ s) m (sc_next_seq_ s) (barred s).

Definition isBarred (i : bytes) (s : ScscfNode) : bool := bool_decide (i ∈ barred s).

Definition setBarred (i : bytes) (b : bool) (s : ScscfNode) : ScscfNode :=
  mkScscf (registry_ s) (calls_ s) (sc_next_seq_ s)
    (if b then {[i]} ∪ barred s else barred s ∖ {[i]}).

(** [BARR X] and [UNBARR X] of the server's console: what is not A or B is C. *)
Definition barr_target (id : bytes) : bytes :=
  if bool_decide (id = str "A") then IMPU_A
  else if bool_decide (id = str "B") then IMPU_B else IMPU_C.

Definition console (line : bytes) (s : ScscfNode) : ScscfNode :=
  if prefixb (str "BARR ") line then setBarred (barr_target (drop 5 line)) true s
  else if prefixb (str "UNBARR ") line then setBarred (barr_target (drop 7 line)) false s
  else s.

Definition with_hold (b : bool) (c : CallState) : CallState :=
  mkCall (caller_impu c) (callee_impu c) (cs_call_id c) b (in_conference c).
Definition with_conference (c : CallState) : CallState :=
  mkCall (caller_impu c) (callee_impu c) (cs_call_id c) (on_hold c) true.

Definition tick (s : ScscfNode) : ScscfNode :=
  mkScscf (registry_ s) (calls_ s) (u32 (sc_next_seq_ s + 1)) (barred s).

(** [next_seq_++]. *)
Definition sc_seq : H ScscfNode Z := s ← get_state; modify tick;; mret (sc_next_seq_ s).

(** ** Sending *)

Definition response_fields (call_id from to reason sdp : bytes) : fields :=
  [(SIP_CALL_ID, call_id); (SIP_FROM, from); (SIP_TO, to); (SIP_REASON, reason)]
  ++ match sdp with [] => [] | _ :: _ => [(SIP_SDP, sdp)] end.

Definition sendSipResponse (type : SipMsgType) (call_id from to reason sdp : bytes) :
    H ScscfNode unit :=
  seq ← sc_seq;
  send_frame ToPcscf (sip_message type seq (response_fields call_id from to reason sdp)).

Definition sendToPcscf (payload : bytes) : H ScscfNode unit := send_payload ToPcscf payload.

(** The request, and the frame on the wire. *)
Definition sendCxSAR (impu impi : bytes) : H ScscfNode bytes :=
  seq ← sc_seq;
  let w := sip_message DIA_CX_SAR seq [(CX_IMPU, impu); (CX_IMPI, impi)] in
  send_frame ToHss w;; mret (frame w).

(** ** MTAS *)

Definition mtas_invite (call_id : bytes) : bytes :=
  block [str "INVITE sip:mtas.local SIP/2.0";
         str "Call-ID: " ++ call_id;
         str "X-MTAS-Service: OIP,TIP,Barring,CW,CDR"] ++ crlf.

Definition invokeMtas (caller callee call_id sdp : bytes) : H ScscfNode bool :=
  s ← get_state;
  if isBarred callee s then mret false
  else
    writeSIP (mtas_invite call_id) IP_SCSCF 5060 IP_MTAS 5060;;
    mret true.

(** ** Handlers *)

Section Scscf.

(** What arrives from the HSS, within the time the S-CSCF waits, after a
    frame sent to it; [None]: nothing, or the connection is lost. *)
Variable cx : bytes -> option bytes.

Definition waitCxSAA (sar : bytes) : H ScscfNode (option bytes) :=
  match cx sar with
  | None => mret None
  | Some payload => l ← read_fields [CX_SCSCF_NAME] payload; mret (Some (l CX_SCSCF_NAME))
  end.

Definition handleRegister (payload : bytes) : H ScscfNode unit :=
  l ← read_fields [SIP_IMPU; SIP_IMPI; SIP_CONTACT] payload;
  let i := l SIP_IMPU in
  sar ← sendCxSAR i (l SIP_IMPI);
  writeDia SERVER_ASSIGNMENT CX true IP_SCSCF PORT_DIA IP_HSS PORT_DIA;;
  profile ← waitCxSAA sar;
  match profile with
  | Some _ => writeDia SERVER_ASSIGNMENT CX false IP_HSS PORT_DIA IP_SCSCF PORT_DIA
  | None => mret tt
  end;;
  modify (fun s => set_registry
    (<[i := mkSub i (l SIP_IMPI) (l SIP_CONTACT) [] true]> (registry_ s)) s);;
  sendSipResponse SIP_200_OK (str "reg-" ++ i) i i (str "REGISTER") [].

End Scscf.

(** *** re-INVITE *)

Definition update_call (id : bytes) (f : CallState -> CallState) : H ScscfNode unit :=
  modify (fun s => set_calls (<[id := f (default newCall (calls_ s !! id))]> (calls_ s)) s).

Definition get_call (id : bytes) : H ScscfNode CallState :=
  s ← get_state; mret (default newCall (calls_ s !! id)).

Definition reinvite_hold (payload call_id : bytes) : H ScscfNode unit :=
  update_call call_id (with_hold true);;
  cs ← get_call call_id;
  sendToPcscf payload;;
  sendSipResponse SIP_200_OK call_id (caller_impu cs) (callee_impu cs) (str "re-INVITE-HOLD") [].

Definition CONF_URI : bytes := str "sip:conf-1@mrfc.ims.mnc010.mcc404.3gppnetwork.org".

(** What the conference writes to the capture before the third party is
    invited. *)
Definition conf_captures (cs : CallState) (call_id to_impu : bytes) : H ScscfNode unit :=
  let a := caller_impu cs in
  let b := callee_impu cs in
  let conf := call_id ++ str "-conf" in
  writeSIP (buildRefer a b to_impu call_id 2) IP_PCSCF 5060 IP_SCSCF 5060;;
  writeSIP (build202Accepted b a call_id 2) IP_SCSCF 5060 IP_PCSCF 5060;;
  writeSIP (buildNotifyRefer a b call_id 1 (str "active") (str "SIP/2.0 100 Trying"))
    IP_SCSCF 5060 IP_PCSCF 5060;;
  writeSIP (buildSubscribe a CONF_URI call_id 3 3600) IP_UE 5060 IP_MRFC 5060;;
  writeSIP (build200Register a (str "10.0.0.11") 3) IP_MRFC 5060 IP_UE 5060;;
  writeSIP (buildInvite a to_impu (str "10.0.0.11") conf 1 50000) IP_SCSCF 5060 IP_PCSCF 5060;;
  writeSIP (build100Trying a to_impu conf 1) IP_SCSCF 5060 IP_PCSCF 5060;;
  writeSIP (build183SessionProgress a to_impu conf 1 70000) IP_SCSCF 5060 IP_PCSCF 5060;;
  writeSIP (buildPrack a to_impu conf 1) IP_PCSCF 5060 IP_SCSCF 5060;;
  writeSIP (build200Prack to_impu a conf 1) IP_SCSCF 5060 IP_PCSCF 5060;;
  writeSIP (buildNotifyRefer a b call_id 2 (str "active") (str "SIP/2.0 180 Ringing"))
    IP_SCSCF 5060 IP_PCSCF 5060;;
  writeSIP (build180Ringing a to_impu conf 1) IP_PCSCF 5060 IP_UE_C_NUM 5060.

(** And after the answer to the caller. *)
Definition conf_captures_end (cs : CallState) (call_id to_impu : bytes) : H ScscfNode unit :=
  let a := caller_impu cs in
  let b := callee_impu cs in
  let conf := call_id ++ str "-conf" in
  writeSIP (build200Invite a to_impu (str "10.0.0.3") conf 1 70000) IP_SCSCF 5060 IP_PCSCF 5060;;
  writeSIP (buildAck a to_impu conf 1) IP_SCSCF 5060 IP_UE_C_NUM 5060;;
  writeSIP (buildNotifyRefer a b call_id 3 (str "terminated;reason=noresource")
              (str "SIP/2.0 200 OK")) IP_SCSCF 5060 IP_PCSCF 5060;;
  writeSIP (buildNotifyConf CONF_URI a call_id 2 a b to_impu) IP_MRFC 5060 IP_PCSCF 5060.

Definition conf_sdp : bytes := str "audio:50000/AMR-WB/16000;conf;a=sendrecv".

(** The INVITE to the third party, when there is one. *)
Definition conf_invite (cs : CallState) (call_id to_impu : bytes) : H ScscfNode unit :=
  match to_impu with
  | [] => mret tt
  | _ :: _ =>
      seq ← sc_seq;
      send_frame ToPcscf
        (sip_message SIP_INVITE seq
           [(SIP_FROM, caller_impu cs); (SIP_TO, to_impu);
            (SIP_CALL_ID, call_id ++ str "-conf"); (SIP_SDP, conf_sdp)])
  end.

Definition reinvite_conference (call_id to_impu : bytes) : H ScscfNode unit :=
  update_call call_id with_conference;;
  cs ← get_call call_id;
  conf_captures cs call_id to_impu;;
  conf_invite cs call_id to_impu;;
  sendSipResponse SIP_200_OK call_id (caller_impu cs) (callee_impu cs) (str "CONFERENCE") [];;
  conf_captures_end cs call_id to_impu.

Definition reinvite_video (payload call_id sdp : bytes) : H ScscfNode unit :=
  cs ← get_call call_id;
  let adding := negb (contains (str "port=0") sdp) in
  sendToPcscf payload;;
  sendSipResponse SIP_200_OK call_id (caller_impu cs) (callee_impu cs)
    (if adding then str "VIDEO-ADD" else str "VIDEO-REMOVE") [].

Definition reinvite_resume (payload call_id : bytes) : H ScscfNode unit :=
  update_call call_id (with_hold false);;
  cs ← get_call call_id;
  sendToPcscf payload;;
  sendSipResponse SIP_200_OK call_id (caller_impu cs) (callee_impu cs)
    (str "re-INVITE-RESUME") [].

Definition handleReInvite (payload call_id from sdp : bytes) : H ScscfNode unit :=
  to_impu ← liftM (sip_first SIP_TO payload);
  if contains (str "inactive") sdp || contains (str "sendonly") sdp then
    reinvite_hold payload call_id
  else if contains (str "conf") sdp then reinvite_conference call_id to_impu
  else if contains (str "video") sdp && contains (str "H264") sdp then
    reinvite_video payload call_id sdp
  else reinvite_resume payload call_id.

(** *** The other requests and the answers *)

(** The captured hops after an INVITE went to the callee. *)
Definition prack_captures (from to call_id : bytes) : H ScscfNode unit :=
  writeSIP (build183SessionProgress from to call_id 1 60000) IP_SCSCF 5060 IP_PCSCF 5060;;
  writeSIP (buildPrack from to call_id 1) IP_PCSCF 5060 IP_SCSCF 5060;;
  writeSIP (build200Prack to from call_id 1) IP_SCSCF 5060 IP_PCSCF 5060.

(** An INVITE of a call that is not known. *)
Definition initial_invite (payload from to call_id sdp : bytes) : H ScscfNode unit :=
  sendSipResponse SIP_100_TRYING call_id from to (str "INVITE") [];;
  writeSIP (build100Trying from to call_id 1) IP_SCSCF 5060 IP_PCSCF 5060;;
  ok ← invokeMtas from to call_id sdp;
  if negb ok then sendSipResponse SIP_200_OK call_id from to (str "BARRED") []
  else
    modify (fun s => set_calls (<[call_id := mkCall from to call_id false false]> (calls_ s)) s);;
    sendToPcscf payload;;
    sendSipResponse SIP_183_PROGRESS call_id from to (str "INVITE") [];;
    prack_captures from to call_id.

Definition handleInvite (payload : bytes) : H ScscfNode unit :=
  l ← read_fields [SIP_FROM; SIP_TO; SIP_CALL_ID; SIP_SDP] payload;
  let call_id := l SIP_CALL_ID in
  s ← get_state;
  match calls_ s !! call_id with
  | Some _ => handleReInvite payload call_id (l SIP_FROM) (l SIP_SDP)
  | None => initial_invite payload (l SIP_FROM) (l SIP_TO) call_id (l SIP_SDP)
  end.

Definition handleAck (payload : bytes) : H ScscfNode unit :=
  call_id ← liftM (sip_first SIP_CALL_ID payload);
  s ← get_state;
  match calls_ s !! call_id with Some _ => sendToPcscf payload | None => mret tt end.

Definition handle200Ok (payload : bytes) : H ScscfNode unit :=
  l ← read_fields [SIP_CALL_ID; SIP_REASON; SIP_SDP] payload;
  sendToPcscf payload.

Definition handleBye (payload : bytes) : H ScscfNode unit :=
  l ← read_fields [SIP_CALL_ID; SIP_FROM] payload;
  let call_id := l SIP_CALL_ID in
  let from := l SIP_FROM in
  modify (fun s => set_calls (delete call_id (calls_ s)) s);;
  sendSipResponse SIP_200_OK call_id from [] (str "BYE") [];;
  writeSIP (build200Bye from [] call_id 1) IP_SCSCF 5060 IP_PCSCF 5060;;
  sendToPcscf payload;;
  writeSIP (buildBye from [] call_id 1) IP_SCSCF 5060 IP_PCSCF 5060.

Definition handleUpdate (payload : bytes) : H ScscfNode unit :=
  l ← read_fields [SIP_FROM; SIP_CALL_ID; SIP_SDP] payload;
  let call_id := l SIP_CALL_ID in
  s ← get_state;
  match calls_ s !! call_id with Some _ => sendToPcscf payload | None => mret tt end;;
  sendSipResponse SIP_200_OK call_id (l SIP_FROM) [] (str "UPDATE") [].

(** One turn of [receiveLoop] on a payload; other types are logged. *)
Definition scscf_receive (cx : bytes -> option bytes) (payload : bytes) : H ScscfNode unit :=
  match sip_type payload with
  | Some SIP_REGISTER => handleRegister cx payload
  | Some SIP_INVITE => handleInvite payload
  | Some SIP_ACK => handleAck payload
  | Some SIP_200_OK => handle200Ok payload
  | Some SIP_BYE => handleBye payload
  | Some SIP_CANCEL => handleUpdate payload
  | _ => mret tt
  end.

(** ** Lemmas: what is sent *)

Lemma run_response (type : SipMsgType) (id from to reason sdp : bytes) (s : ScscfNode) (w : list act) :
  sendSipResponse type id from to reason sdp (s, w) =
  Ok (tt, (tick s, w ++ [Out ToPcscf (msg_frame type (sc_next_seq_ s)
                                        (response_fields id from to reason sdp))])).
Proof. reflexivity. Qed.

Lemma run_forward (p : bytes) (s : ScscfNode) (w : list act) :
  sendToPcscf p (s, w) = Ok (tt, (s, w ++ [Out ToPcscf (payload_frame p)])).
Proof. reflexivity. Qed.

(** ** The registry and the calls are filed under their identities *)

Definition filed (s : ScscfNode) : Prop :=
  (forall id c, calls_ s !! id = Some c -> cs_call_id c = id)
  /\ (forall i u, registry_ s !! i = Some u -> impu u = i /\ registered u = true).

(** A re-INVITE finds its call. *)
Definition filed_with (id : bytes) (s : ScscfNode) : Prop := filed s /\ is_Some (calls_ s !! id).

Lemma keeps_seq_filed (P : ScscfNode -> Prop) :
  (forall s, P s -> P (tick s)) -> keeps P sc_seq.
Proof. intros HP. unfold sc_seq. keeps_tac. apply keeps_modify. exact HP. Qed.

Lemma keeps_response (P : ScscfNode -> Prop) type id from to reason sdp :
  (forall s, P s -> P (tick s)) -> keeps P (sendSipResponse type id from to reason sdp).
Proof. intros HP. unfold sendSipResponse. keeps_tac. apply keeps_seq_filed. exact HP. Qed.

Lemma keeps_sendToPcscf (P : ScscfNode -> Prop) p : keeps P (sendToPcscf p).
Proof. apply keeps_emit. Qed.

Lemma tick_filed (s : ScscfNode) : filed s -> filed (tick s).
Proof. intros H. exact H. Qed.

Lemma tick_filed_with (id : bytes) (s : ScscfNode) : filed_with id s -> filed_with id (tick s).
Proof. intros H. exact H. Qed.

#[local] Hint Resolve keeps_seq_filed keeps_response keeps_sendToPcscf
  tick_filed tick_filed_with : triples.

Lemma keeps_update (id : bytes) (f : CallState -> CallState) :
  (forall c, cs_call_id (f c) = cs_call_id c) -> keeps (filed_with id) (update_call id f).
Proof.
  intros Hf. apply keeps_modify. intros s [[Hc Hr] [c E]]. rewrite E. cbn [default from_option].
  split; [split; [|exact Hr]|]; cbn [calls_ set_calls].
  - intros id' c'. rewrite lookup_insert. case_decide as Hid; [|apply Hc].
    intros [= <-]. rewrite Hf. subst id'. exact (Hc _ _ E).
  - rewrite lookup_insert_eq. eauto.
Qed.

Lemma keeps_get_call (P : ScscfNode -> Prop) (id : bytes) : keeps P (get_call id).
Proof. unfold get_call. keeps_tac. Qed.

#[local] Hint Resolve keeps_get_call : triples.

Lemma keeps_reinvite (payload id from sdp : bytes) :
  keeps (filed_with id) (handleReInvite payload id from sdp).
Proof.
  unfold handleReInvite, reinvite_hold, reinvite_conference, reinvite_video, reinvite_resume,
    conf_captures, conf_captures_end, conf_invite.
  keeps_tac; apply keeps_update; reflexivity.
Qed.

Lemma keeps_store_call (id from to : bytes) :
  keeps filed (modify (fun s => set_calls (<[id := mkCall from to id false false]> (calls_ s)) s)
               : H ScscfNode unit).
Proof.
  apply keeps_modify. intros s [Hc Hr]. split; [|exact Hr]. intros id' c. cbn [calls_ set_calls].
  rewrite lookup_insert. case_decide as E; [|apply Hc]. intros [= <-]. exact E.
Qed.

Lemma keeps_initial (payload from to id sdp : bytes) :
  keeps filed (initial_invite payload from to id sdp).
Proof. unfold initial_invite, invokeMtas, prack_captures. keeps_tac; apply keeps_store_call. Qed.

Lemma keeps_invite (payload : bytes) : keeps filed (handleInvite payload).
Proof.
  unfold handleInvite. apply keeps_bind; [auto with triples|]. intros l.
  apply (triple_bind _ get_state _ (fun a s => a = s /\ filed s)); [apply triple_get|]. intros s0.
  intros s w [] s' w' [-> Hf] E. destruct (calls_ s !! l SIP_CALL_ID) as [c|] eqn:Ec.
  - eapply (keeps_reinvite payload); [|exact E]. split; [exact Hf|eauto].
  - exact (keeps_initial _ _ _ _ _ _ _ _ _ _ Hf E).
Qed.

Lemma keeps_register (cx : bytes -> option bytes) (payload : bytes) :
  keeps filed (handleRegister cx payload).
Proof.
  unfold handleRegister, sendCxSAR, waitCxSAA. keeps_tac.
  all: apply keeps_modify; intros s [Hc Hr]; (split; [exact Hc|]); intros i u; cbn [registry_ set_registry].
  all: rewrite lookup_insert; case_decide as E; [intros [= <-]; auto|apply Hr].
Qed.

Lemma keeps_bye (payload : bytes) : keeps filed (handleBye payload).
Proof.
  unfold handleBye. keeps_tac. apply keeps_modify. intros s [Hc Hr]. split; [|exact Hr].
  intros id c. cbn [calls_ set_calls]. rewrite lookup_delete. case_decide; [discriminate|apply Hc].
Qed.

(** ** Properties *)

(** C25. Whatever the P-CSCF and the HSS send, the call table is filed by call id
    and the registry by identity, and who is in the registry is registered:
    no handler stores under a wrong key. *)
Theorem scscf_filed (cx : bytes -> option bytes) (payload : bytes) (s s' : ScscfNode)
    (w w' : list act) (Hs : filed s)
    (Hrun : scscf_receive cx payload (s, w) = Ok (tt, (s', w'))) :
  filed s'.
Proof.
  assert (K : keeps filed (scscf_receive cx payload)).
  { unfold scscf_receive, handleAck, handle200Ok, handleUpdate. keeps_tac;
      first [apply keeps_register | apply keeps_invite | apply keeps_bye]. }
  exact (K s w tt s' w' Hs Hrun).
Qed.

Lemma scscf_filed_witness :
  let p := enc_sip SIP_REGISTER 1 [(SIP_IMPU, str "sip:a")] in
  exists s' w', scscf_receive (fun _ => None) p (newScscf, []) = Ok (tt, (s', w')) /\ filed s'.
Proof.
  intros p.
  destruct (scscf_receive (fun _ => None) p (newScscf, [])) as [[[] [s' w']]| | |] eqn:E;
    [|vm_compute in E; discriminate E..].
  exists s', w'. split; [reflexivity|].
  apply (scscf_filed (fun _ => None) p newScscf s' [] w'); [|exact E].
  split; intros k x; cbn; rewrite lookup_empty; discriminate.
Defined.

Lemma new_invite_delivers (payload : bytes) (l : locals) (s : ScscfNode)
    (Hl : sip_parse [SIP_FROM; SIP_TO; SIP_CALL_ID; SIP_SDP] payload = Ok l)
    (Hnew : calls_ s !! l SIP_CALL_ID = None) :
  let from := l SIP_FROM in
  let to := l SIP_TO in
  let id := l SIP_CALL_ID in
  let n k := u32 (sc_next_seq_ s + k) in
  let answer type k reason :=
    (ToPcscf, msg_frame type (if k =? 0 then sc_next_seq_ s else n k)
                (response_fields id from to reason [])) in
  if isBarred to s then
    delivers (handleInvite payload) s (tick (tick s))
      [answer SIP_100_TRYING 0 (str "INVITE"); answer SIP_200_OK 1 (str "BARRED")]
  else
    delivers (handleInvite payload) s
      (tick (set_calls (<[id := mkCall from to id false false]> (calls_ s)) (tick s)))
      [answer SIP_100_TRYING 0 (str "INVITE"); (ToPcscf, payload_frame payload);
       answer SIP_183_PROGRESS 1 (str "INVITE")].
Proof.
  cbv zeta. unfold delivers, handleInvite, initial_invite, invokeMtas, prack_captures.
  rewrite M_bind_eq, (run_read _ _ _ _ _ Hl). run_h. rewrite Hnew.
  run_h. rewrite run_response. run_h. change (isBarred (l SIP_TO) (tick s)) with (isBarred (l SIP_TO) s).
  destruct (isBarred (l SIP_TO) s); run_h; rewrite ?run_response; run_h;
    rewrite ?run_forward; run_h; rewrite ?run_response; run_h;
    eexists; (split; [reflexivity|reflexivity]).
Qed.

(** C24. An INVITE of a call that is not in the table is answered with 100 Trying
    and shown to the MTAS.  A barred callee is never contacted and no call is
    kept: the caller gets a 200 OK with the reason BARRED.  Otherwise the
    call is kept, idle, between the identities of the message, the INVITE is
    passed on as it came, and 183 Session Progress follows. *)
Theorem invite_decides (payload : bytes) (l : locals) (s : ScscfNode)
    (Hl : sip_parse [SIP_FROM; SIP_TO; SIP_CALL_ID; SIP_SDP] payload = Ok l)
    (Hnew : calls_ s !! l SIP_CALL_ID = None) :
  let from := l SIP_FROM in
  let to := l SIP_TO in
  let id := l SIP_CALL_ID in
  let n k := u32 (sc_next_seq_ s + k) in
  let answer type k reason :=
    (ToPcscf, msg_frame type (if k =? 0 then sc_next_seq_ s else n k)
                (response_fields id from to reason [])) in
  if isBarred to s then
    delivers (handleInvite payload) s (tick (tick s))
      [answer SIP_100_TRYING 0 (str "INVITE"); answer SIP_200_OK 1 (str "BARRED")]
  else
    delivers (handleInvite payload) s
      (tick (set_calls (<[id := mkCall from to id false false]> (calls_ s)) (tick s)))
      [answer SIP_100_TRYING 0 (str "INVITE"); (ToPcscf, payload_frame payload);
       answer SIP_183_PROGRESS 1 (str "INVITE")].
Proof. exact (new_invite_delivers payload l s Hl Hnew). Qed.

Lemma invite_decides_witness :
  let p := enc_sip SIP_INVITE 1 [(SIP_FROM, IMPU_A); (SIP_TO, IMPU_B); (SIP_CALL_ID, str "c")] in
  let id := str "c" in
  delivers (handleInvite p) (setBarred IMPU_B true newScscf)
    (tick (tick (setBarred IMPU_B true newScscf)))
    [(ToPcscf, msg_frame SIP_100_TRYING 1 (response_fields id IMPU_A IMPU_B (str "INVITE") []));
     (ToPcscf, msg_frame SIP_200_OK 2 (response_fields id IMPU_A IMPU_B (str "BARRED") []))].
Proof.
  intros p id.
  exact (invite_decides p
           (sip_locals [SIP_FROM; SIP_TO; SIP_CALL_ID; SIP_SDP]
              [(SIP_FROM, IMPU_A); (SIP_TO, IMPU_B); (SIP_CALL_ID, str "c")] no_locals)
           (setBarred IMPU_B true newScscf)
           ltac:(apply sip_parse_enc; [unfold in_u; lia|
                   repeat (apply List.Forall_cons; [vm_compute; reflexivity|]); apply List.Forall_nil])
           eq_refl).
Defined.

(** What a re-INVITE of a known call means, by its session description. *)
Inductive ReInvite : Set := ReHold | ReConference | ReVideoAdd | ReVideoRemove | ReResume.

Definition reinvite_kind (sdp : bytes) : ReInvite :=
  if contains (str "inactive") sdp || contains (str "sendonly") sdp then ReHold
  else if contains (str "conf") sdp then ReConference
  else if contains (str "video") sdp && contains (str "H264") sdp then
    if contains (str "port=0") sdp then ReVideoRemove else ReVideoAdd
  else ReResume.

Definition reinvite_call (k : ReInvite) (c : CallState) : CallState :=
  match k with
  | ReHold => with_hold true c
  | ReConference => with_conference c
  | ReResume => with_hold false c
  | ReVideoAdd | ReVideoRemove => c
  end.

Definition reinvite_reason (k : ReInvite) : bytes :=
  match k with
  | ReHold => str "re-INVITE-HOLD"
  | ReConference => str "CONFERENCE"
  | ReVideoAdd => str "VIDEO-ADD"
  | ReVideoRemove => str "VIDEO-REMOVE"
  | ReResume => str "re-INVITE-RESUME"
  end.

(** What goes out before the answer: the re-INVITE itself or, for a
    conference, an INVITE to the third party in a call of its own. *)
Definition reinvite_first (k : ReInvite) (payload id to : bytes) (seq : Z) (c : CallState) :
    list (Peer * bytes) :=
  match k, to with
  | ReConference, [] => []
  | ReConference, _ :: _ =>
      [(ToPcscf, msg_frame SIP_INVITE seq
                   [(SIP_FROM, caller_impu c); (SIP_TO, to);
                    (SIP_CALL_ID, id ++ str "-conf"); (SIP_SDP, conf_sdp)])]
  | _, _ => [(ToPcscf, payload_frame payload)]
  end.

Definition sends_itself (k : ReInvite) (to : bytes) : bool :=
  match k, to with ReConference, _ :: _ => true | _, _ => false end.

Lemma set_calls_id (id : bytes) (c : CallState) (s : ScscfNode) :
  calls_ s !! id = Some c -> set_calls (<[id := c]> (calls_ s)) s = s.
Proof. intros E. unfold set_calls. rewrite insert_id by exact E. destruct s; reflexivity. Qed.

Lemma reinvite_runs (payload from sdp to id : bytes) (c : CallState) (s : ScscfNode)
    (Hto : sip_first SIP_TO payload = Ok to) (Hc : calls_ s !! id = Some c) :
  let k := reinvite_kind sdp in
  let c' := reinvite_call k c in
  let s' := set_calls (<[id := c']> (calls_ s)) s in
  let s1 := if sends_itself k to then tick s' else s' in
  delivers (handleReInvite payload id from sdp) s (tick s1)
    (reinvite_first k payload id to (sc_next_seq_ s) c
     ++ [(ToPcscf, msg_frame SIP_200_OK (sc_next_seq_ s1)
                     (response_fields id (caller_impu c) (callee_impu c) (reinvite_reason k) []))]).
Proof.
  cbv zeta. unfold delivers, handleReInvite. rewrite M_bind_eq. unfold liftM. rewrite Hto.
  unfold reinvite_kind.
  destruct (contains (str "inactive") sdp || contains (str "sendonly") sdp);
    [|destruct (contains (str "conf") sdp);
      [|destruct (contains (str "video") sdp && contains (str "H264") sdp)]].
  - unfold reinvite_hold, update_call, get_call. run_h. cbn [calls_ set_calls].
    rewrite lookup_insert_eq, Hc, run_forward. run_h. rewrite run_response.
    eexists. split; [reflexivity|reflexivity].
  - unfold reinvite_conference, update_call, get_call, conf_captures, conf_captures_end, conf_invite,
      sc_seq.
    run_h. cbn [calls_ set_calls]. rewrite lookup_insert_eq, Hc.
    destruct to; run_h; rewrite run_response; run_h; eexists; (split; [reflexivity|reflexivity]).
  - unfold reinvite_video, get_call. run_h. rewrite Hc, run_forward. run_h. rewrite run_response.
    cbn [default from_option Datatypes.id].
    destruct (contains (str "port=0") sdp); cbn [negb reinvite_call sends_itself];
      rewrite (set_calls_id id c s Hc); eexists; (split; [reflexivity|reflexivity]).
  - unfold reinvite_resume, update_call, get_call. run_h. cbn [calls_ set_calls].
    rewrite lookup_insert_eq, Hc, run_forward. run_h. rewrite run_response.
    eexists. split; [reflexivity|reflexivity].
Qed.

(** A re-INVITE of a known call: the session description alone decides what
    becomes of the call, and the answer goes to the caller and the callee of
    the table, whoever of the two sent it. *)
Theorem reinvite_decides (payload from sdp to id : bytes) (c : CallState) (s : ScscfNode)
    (Hto : sip_first SIP_TO payload = Ok to) (Hc : calls_ s !! id = Some c) :
  let k := reinvite_kind sdp in
  let c' := reinvite_call k c in
  let s' := set_calls (<[id := c']> (calls_ s)) s in
  let s1 := if sends_itself k to then tick s' else s' in
  delivers (handleReInvite payload id from sdp) s (tick s1)
    (reinvite_first k payload id to (sc_next_seq_ s) c
     ++ [(ToPcscf, msg_frame SIP_200_OK (sc_next_seq_ s1)
                     (response_fields id (caller_impu c) (callee_impu c) (reinvite_reason k) []))]).
Proof. exact (reinvite_runs payload from sdp to id c s Hto Hc). Qed.

(** An INVITE of a known call is a re-INVITE. *)
Lemma reinvite_delivers (payload id sdp to : bytes) (l : locals) (c : CallState) (s : ScscfNode) :
  sip_parse [SIP_FROM; SIP_TO; SIP_CALL_ID; SIP_SDP] payload = Ok l ->
  l SIP_CALL_ID = id -> l SIP_SDP = sdp -> calls_ s !! id = Some c ->
  sip_first SIP_TO payload = Ok to -> reinvite_kind sdp <> ReConference ->
  let k := reinvite_kind sdp in
  delivers (handleInvite payload) s (tick (set_calls (<[id := reinvite_call k c]> (calls_ s)) s))
    [(ToPcscf, payload_frame payload);
     (ToPcscf, msg_frame SIP_200_OK (sc_next_seq_ s)
                 (response_fields id (caller_impu c) (callee_impu c) (reinvite_reason k) []))].
Proof.
  intros Hl Hid Hsdp Hc Hto Hk k.
  destruct (reinvite_runs payload (l SIP_FROM) sdp to id c s Hto Hc) as (w & E & Ew).
  exists w. unfold handleInvite. rewrite M_bind_eq, (run_read _ _ _ _ _ Hl). run_h.
  rewrite Hid, Hc, Hsdp. fold k in E, Ew, Hk. destruct k; try contradiction; exact (conj E Ew).
Qed.

(** The answer to HOLD, RESUME, and so on of the phone of UE-A. *)
Lemma reinvite_decides_witness :
  let c := mkCall IMPU_A IMPU_B (str "c") true false in
  let s := mkScscf ∅ {[str "c" := c]} 7 ∅ in
  let p := enc_sip SIP_INVITE 1 [(SIP_CALL_ID, str "c"); (SIP_TO, IMPU_B)] in
  let c' := mkCall IMPU_A IMPU_B (str "c") false false in
  delivers (handleReInvite p (str "c") IMPU_A (str "audio:1/AMR-WB;a=sendrecv")) s
    (tick (set_calls (<[str "c" := c']> (calls_ s)) s))
    [(ToPcscf, payload_frame p);
     (ToPcscf, msg_frame SIP_200_OK 7 (response_fields (str "c") IMPU_A IMPU_B (str "re-INVITE-RESUME") []))].
Proof.
  intros c s p c'.
  exact (reinvite_decides p IMPU_A (str "audio:1/AMR-WB;a=sendrecv") IMPU_B (str "c") c s
           ltac:(apply (sip_first_enc SIP_TO SIP_INVITE 1 [(SIP_CALL_ID, str "c"); (SIP_TO, IMPU_B)]);
                 [unfold in_u; lia|repeat (apply List.Forall_cons; [vm_compute; reflexivity|]); apply List.Forall_nil])
           (lookup_singleton_eq _ _)).
Defined.

(** ** The other requests *)

Lemma ack_delivers (payload id : bytes) (s : ScscfNode) :
  sip_first SIP_CALL_ID payload = Ok id ->
  delivers (handleAck payload) s s
    (match calls_ s !! id with Some _ => [(ToPcscf, payload_frame payload)] | None => [] end).
Proof.
  intros E. unfold delivers, handleAck. rewrite M_bind_eq. unfold liftM. rewrite E. run_h.
  destruct (calls_ s !! id); rewrite ?run_forward; eexists; (split; reflexivity).
Qed.

Lemma ok_delivers (payload : bytes) (l : locals) (s : ScscfNode) :
  sip_parse [SIP_CALL_ID; SIP_REASON; SIP_SDP] payload = Ok l ->
  delivers (handle200Ok payload) s s [(ToPcscf, payload_frame payload)].
Proof.
  intros E. unfold delivers, handle200Ok. rewrite M_bind_eq, (run_read _ _ _ _ _ E), run_forward.
  eexists; (split; reflexivity).
Qed.

Lemma bye_delivers (payload : bytes) (l : locals) (s : ScscfNode) :
  sip_parse [SIP_CALL_ID; SIP_FROM] payload = Ok l ->
  delivers (handleBye payload) s (tick (set_calls (delete (l SIP_CALL_ID) (calls_ s)) s))
    [(ToPcscf, msg_frame SIP_200_OK (sc_next_seq_ s)
                 (response_fields (l SIP_CALL_ID) (l SIP_FROM) [] (str "BYE") []));
     (ToPcscf, payload_frame payload)].
Proof.
  intros E. unfold delivers, handleBye. rewrite M_bind_eq, (run_read _ _ _ _ _ E). run_h.
  rewrite run_response. run_h. rewrite run_forward. run_h. eexists; (split; reflexivity).
Qed.

Lemma update_delivers (payload : bytes) (l : locals) (s : ScscfNode) :
  sip_parse [SIP_FROM; SIP_CALL_ID; SIP_SDP] payload = Ok l ->
  delivers (handleUpdate payload) s (tick s)
    (match calls_ s !! l SIP_CALL_ID with Some _ => [(ToPcscf, payload_frame payload)] | None => [] end
     ++ [(ToPcscf, msg_frame SIP_200_OK (sc_next_seq_ s)
                     (response_fields (l SIP_CALL_ID) (l SIP_FROM) [] (str "UPDATE") []))]).
Proof.
  intros E. unfold delivers, handleUpdate. rewrite M_bind_eq, (run_read _ _ _ _ _ E). run_h.
  destruct (calls_ s !! l SIP_CALL_ID); rewrite ?run_forward; run_h; rewrite run_response;
    eexists; (split; reflexivity).
Qed.

(** The frame of the request to the HSS. *)
Definition sar_frame (s : ScscfNode) (i j : bytes) : bytes :=
  msg_frame DIA_CX_SAR (sc_next_seq_ s) [(CX_IMPU, i); (CX_IMPI, j)].

(** A REGISTER is answered 200 OK and the subscriber is stored whether the
    HSS answers or not: nothing of the answer is looked at but for the log. *)
Theorem register_ignores_hss (cx : bytes -> option bytes) (payload : bytes) (l : locals)
    (s : ScscfNode) (Hl : sip_parse [SIP_IMPU; SIP_IMPI; SIP_CONTACT] payload = Ok l)
    (Hcx : forall p, cx (sar_frame s (l SIP_IMPU) (l SIP_IMPI)) = Some p ->
           exists lp, sip_parse [CX_SCSCF_NAME] p = Ok lp) :
  let i := l SIP_IMPU in
  let sub := mkSub i (l SIP_IMPI) (l SIP_CONTACT) [] true in
  delivers (handleRegister cx payload) s
    (tick (set_registry (<[i := sub]> (registry_ s)) (tick s)))
    [(ToHss, sar_frame s i (l SIP_IMPI));
     (ToPcscf, msg_frame SIP_200_OK (u32 (sc_next_seq_ s + 1))
                 (response_fields (str "reg-" ++ i) i i (str "REGISTER") []))].
Proof.
  cbv zeta. unfold delivers, handleRegister, sendCxSAR, sc_seq, waitCxSAA.
  rewrite M_bind_eq, (run_read _ _ _ _ _ Hl). run_h. unfold sar_frame, msg_frame in Hcx.
  destruct (cx _) as [p|].
  - destruct (Hcx p eq_refl) as [lp Ep]. rewrite M_bind_eq, (run_read _ _ _ _ _ Ep). run_h.
    rewrite run_response. eexists. split; reflexivity.
  - run_h. rewrite run_response. eexists. split; reflexivity.
Qed.

Lemma register_ignores_hss_witness :
  let p := enc_sip SIP_REGISTER 1 [(SIP_IMPU, str "sip:a")] in
  delivers (handleRegister (fun _ => None) p) newScscf
    (tick (set_registry {[str "sip:a" := mkSub (str "sip:a") [] [] [] true]} (tick newScscf)))
    [(ToHss, sar_frame newScscf (str "sip:a") []);
     (ToPcscf, msg_frame SIP_200_OK 2
                 (response_fields (str "reg-sip:a") (str "sip:a") (str "sip:a") (str "REGISTER") []))].
Proof.
  intros p.
  apply (register_ignores_hss (fun _ => None) p
           (sip_locals [SIP_IMPU; SIP_IMPI; SIP_CONTACT] [(SIP_IMPU, str "sip:a")] no_locals) newScscf).
  - apply sip_parse_enc; [unfold in_u; lia|].
    repeat (apply List.Forall_cons; [vm_compute; reflexivity|]); apply List.Forall_nil.
  - discriminate.
Defined.
