(* ===== verification/Pcscf.v ===== *)
(** * The P-CSCF

    [PcscfNode] of [ims-simulator/src/ims/pcscf_node.cpp]: the proxy between
    the UEs and the S-CSCF.  One thread per UE runs [handleFromUe], one runs
    [handleFromScscf]; a UE session is named by its index in [ue_sessions_],
    which stands for the pointer.  Every request of a UE is forwarded once,
    with routing state set before and cleared after, so [handleFromUe] is cut
    at the forwarding, where the other threads may run. *)

From S2P Require Import Prelude Tlv NodeEnv Text Strings Http Sip SipText ImsEnv.
#[local] Open Scope Z_scope.

(** ** State *)

Record UeSession : Type := mkSes {
  ses_impu : bytes;
  ses_ip : bytes;
  ses_registered : bool
}.

Definition newSes : UeSession := mkSes [] [] false.

Record PcscfNode : Type := mkPcscf {
  ue_sessions_ : list UeSession;
  ue_by_impu_ : gmap bytes nat;
  call_to_caller_ : gmap bytes bytes;
  call_to_callee_ : gmap bytes bytes;
  call_invite_delivered_ : gset bytes;
  pc_next_seq_ : Z;
  scscf_valid : bool        (** [scscf_conn_.valid()] *)
}.

Definition newPcscf : PcscfNode := mkPcscf [] ∅ ∅ ∅ ∅ 1 true.

(** A UE connects: [acceptLoop]. *)
Definition accept_ue (s : PcscfNode) : PcscfNode :=
  mkPcscf (ue_sessions_ s ++ [newSes]) (ue_by_impu_ s) (call_to_caller_ s) (call_to_callee_ s)
    (call_invite_delivered_ s) (pc_next_seq_ s) (scscf_valid s).

Definition session (ses : nat) (s : PcscfNode) : UeSession := default newSes (ue_sessions_ s !! ses).

Definition set_session (ses : nat) (u : UeSession) (s : PcscfNode) : PcscfNode :=
  mkPcscf (<[ses := u]> (ue_sessions_ s)) (ue_by_impu_ s) (call_to_caller_ s) (call_to_callee_ s)
    (call_invite_delivered_ s) (pc_next_seq_ s) (scscf_valid s).

Definition set_route (i : bytes) (ses : nat) (s : PcscfNode) : PcscfNode :=
  mkPcscf (ue_sessions_ s) (<[i := ses]> (ue_by_impu_ s)) (call_to_caller_ s) (call_to_callee_ s)
    (call_invite_delivered_ s) (pc_next_seq_ s) (scscf_valid s).

Definition set_maps (callers callees : gmap bytes bytes) (delivered : gset bytes) (s : PcscfNode) :
    PcscfNode :=
  mkPcscf (ue_sessions_ s) (ue_by_impu_ s) callers callees delivered (pc_next_seq_ s) (scscf_valid s).

Definition pc_tick (s : PcscfNode) : PcscfNode :=
  mkPcscf (ue_sessions_ s) (ue_by_impu_ s) (call_to_caller_ s) (call_to_callee_ s)
    (call_invite_delivered_ s) (u32 (pc_next_seq_ s + 1)) (scscf_valid s).

(** [next_seq_++]. *)
Definition pc_seq : H PcscfNode Z := s ← get_state; modify pc_tick;; mret (pc_next_seq_ s).

(** The caller of a call as the routing knows it, and its callee. *)
Definition caller_of (call_id : bytes) (s : PcscfNode) : bytes :=
  default [] (call_to_caller_ s !! call_id).
Definition callee_of (call_id : bytes) (s : PcscfNode) : bytes :=
  default [] (call_to_callee_ s !! call_id).

(** [x.empty() ? y : x]. *)
Definition or_else (x y : bytes) : bytes := match x with [] => y | _ :: _ => x end.

(** ** Labels of the capture *)

Definition ueLabel (i : bytes) : bytes :=
  if contains (str "+919000000001") i then str "UE-A"
  else if contains (str "+919000000002") i then str "UE-B"
  else if contains (str "+919000000003") i then str "UE-C"
  else i.

Definition ueIp (i : bytes) : Z :=
  let label := ueLabel i in
  if bool_decide (label = str "UE-B") then IP_UE_B_NUM
  else if bool_decide (label = str "UE-C") then IP_UE_C_NUM
  else IP_UE.

Definition ueIpStr (i : bytes) : bytes :=
  let label := ueLabel i in
  if bool_decide (label = str "UE-B") then IP_UE_B
  else if bool_decide (label = str "UE-C") then IP_UE_C
  else IP_UE_A.

(** ** Sending *)

Definition sendToScscf (payload : bytes) : H PcscfNode unit :=
  s ← get_state;
  if scscf_valid s then send_payload ToScscf payload else mret tt.

(** Without a session under the identity the message is dropped. *)
Definition sendToUe (i : bytes) (payload : bytes) : H PcscfNode unit :=
  s ← get_state;
  match ue_by_impu_ s !! i with
  | Some ses => send_payload (ToUe ses) payload
  | None => mret tt
  end.

Definition sendRxAAR (i call_id : bytes) : H PcscfNode unit :=
  writeDia CREDIT_CONTROL GX true IP_PCSCF PORT_DIA IP_PCRF PORT_GX;;
  writeDia CREDIT_CONTROL GX false IP_PCRF PORT_GX IP_PCSCF PORT_DIA.

(** ** From a UE *)

Definition from_ue_tags : list SipTag :=
  [SIP_FROM; SIP_TO; SIP_IMPU; SIP_IMPI; SIP_CONTACT; SIP_CALL_ID; SIP_SDP].

(** Who called, as an INVITE of the session says. *)
Definition caller_in (ses : nat) (l : locals) (s : PcscfNode) : bytes :=
  or_else (l SIP_FROM) (ses_impu (session ses s)).

(** What happens before the request is forwarded. *)
Definition from_ue_before (type : option SipMsgType) (ses : nat) (l : locals) : H PcscfNode unit :=
  match type with
  | Some SIP_REGISTER =>
      modify (fun s => set_route (l SIP_IMPU) ses
        (set_session ses (mkSes (l SIP_IMPU) (l SIP_CONTACT) (ses_registered (session ses s))) s))
  | Some SIP_INVITE =>
      modify (fun s => set_maps (<[l SIP_CALL_ID := caller_in ses l s]> (call_to_caller_ s))
                         (<[l SIP_CALL_ID := l SIP_TO]> (call_to_callee_ s))
                         (call_invite_delivered_ s) s)
  | Some SIP_BYE =>
      s ← get_state;
      let call_id := l SIP_CALL_ID in
      let peer := match call_to_callee_ s !! call_id with
                  | Some p => p
                  | None => caller_of call_id s
                  end in
      let me := ses_impu (session ses s) in
      writeSIP (buildBye me peer call_id 1) (ueIp me) 5060 IP_PCSCF 5060
  | _ => mret tt
  end.

(** And after. *)
Definition from_ue_after (type : option SipMsgType) (ses : nat) (l : locals) : H PcscfNode unit :=
  s ← get_state;
  match type with
  | Some SIP_REGISTER =>
      writeSIP (buildRegister (l SIP_IMPU) (l SIP_CONTACT) 1 3600) IP_PCSCF 5060 IP_SCSCF 5060
  | Some SIP_INVITE =>
      writeSIP (buildInvite (caller_in ses l s) (l SIP_TO) (str "10.0.0.x") (l SIP_CALL_ID) 1 50000)
        IP_PCSCF 5060 IP_SCSCF 5060
  | Some SIP_200_OK => sendRxAAR (ses_impu (session ses s)) (l SIP_CALL_ID)
  | Some SIP_BYE =>
      modify (fun s => set_maps (delete (l SIP_CALL_ID) (call_to_caller_ s))
                         (delete (l SIP_CALL_ID) (call_to_callee_ s))
                         (call_invite_delivered_ s ∖ {[l SIP_CALL_ID]}) s)
  | _ => mret tt
  end.

Definition handleFromUe (ses : nat) (payload : bytes) : H PcscfNode unit :=
  l ← read_fields from_ue_tags payload;
  from_ue_before (sip_type payload) ses l;;
  sendToScscf payload;;
  from_ue_after (sip_type payload) ses l.

(** ** From the S-CSCF *)

(** An INVITE goes to the callee; a first one also rings the caller. *)
Definition invite_to_callee (l : locals) (payload : bytes) : H PcscfNode unit :=
  let call_id := l SIP_CALL_ID in
  let from := l SIP_FROM in
  let to := l SIP_TO in
  s ← get_state;
  if bool_decide (call_id ∈ call_invite_delivered_ s) then sendToUe to payload
  else
    let callers := match call_to_caller_ s !! call_id, from with
                   | None, _ :: _ => <[call_id := from]> (call_to_caller_ s)
                   | _, _ => call_to_caller_ s
                   end in
    let callees := match call_to_callee_ s !! call_id, to with
                   | None, _ :: _ => <[call_id := to]> (call_to_callee_ s)
                   | _, _ => call_to_callee_ s
                   end in
    modify (set_maps callers callees ({[call_id]} ∪ call_invite_delivered_ s));;
    sendToUe to payload;;
    seq ← pc_seq;
    let ring := sip_message SIP_180_RINGING seq
                  [(SIP_CALL_ID, call_id); (SIP_FROM, from); (SIP_TO, to);
                   (SIP_REASON, str "INVITE")] in
    sendToUe from (udpPayload ring);;
    writeSIP (build180Ringing from to call_id 1) IP_PCSCF 5060 (ueIp from) 5060.

(** A provisional answer goes to the caller. *)
Definition provisional (text : bytes -> option bytes) (l : locals) (payload : bytes) :
    H PcscfNode unit :=
  s ← get_state;
  let caller := or_else (caller_of (l SIP_CALL_ID) s) (l SIP_FROM) in
  match caller with
  | [] => mret tt
  | _ :: _ =>
      sendToUe caller payload;;
      match text caller with
      | Some t => writeSIP t IP_SCSCF 5060 (ueIp caller) 5060
      | None => mret tt
      end
  end.

(** The media lines of the re-INVITEs written to the capture. *)
Definition captured_sdp (ip : bytes) (media : list bytes) : bytes :=
  block ([str "v=0"; str "o=ue 1 1 IN IP4 " ++ ip; str "s=-"; str "t=0 0";
          str "m=audio 50000 RTP/AVP 98"; str "a=rtpmap:98 AMR-WB/16000"] ++ media).

(** The answer to a re-INVITE is also given to the callee. *)
Definition notify_callee (media : list bytes) (target call_id payload : bytes) : H PcscfNode unit :=
  s ← get_state;
  let callee := callee_of call_id s in
  writeSIP (buildReInvite target callee (ueIpStr target) call_id 1
              (captured_sdp (ueIpStr target) media)) IP_SCSCF 5060 (ueIp callee) 5060;;
  match callee with [] => mret tt | _ :: _ => sendToUe callee payload end.

Definition media_of (reason : bytes) : option (list bytes) :=
  if bool_decide (reason = str "re-INVITE-HOLD") then Some [str "a=sendonly"]
  else if bool_decide (reason = str "re-INVITE-RESUME") then Some [str "a=sendrecv"]
  else if bool_decide (reason = str "VIDEO-ADD") then
    Some [str "a=sendrecv"; str "m=video 50002 RTP/AVP 100"; str "a=rtpmap:100 H264/90000";
          str "a=sendrecv"]
  else if bool_decide (reason = str "VIDEO-REMOVE") then
    Some [str "a=sendrecv"; str "m=video 0 RTP/AVP 100"; str "a=rtpmap:100 H264/90000"]
  else None.

(** What an answer other than a registration's does besides going to [target]. *)
Definition ok_by_reason (l : locals) (target payload : bytes) : H PcscfNode unit :=
  let call_id := l SIP_CALL_ID in
  let reason := l SIP_REASON in
  s ← get_state;
  if bool_decide (reason = str "INVITE") || bool_decide (reason = []) then
    let callee := callee_of call_id s in
    sendRxAAR target call_id;;
    writeSIP (build200Invite callee target (ueIpStr callee) call_id 1 60000)
      IP_SCSCF 5060 (ueIp target) 5060
  else if bool_decide (reason = str "CONFERENCE") then
    writeSIP (build200Invite (l SIP_TO) target (ueIpStr (l SIP_TO)) call_id 1 60000)
      IP_MRFC 5060 (ueIp target) 5060
  else if bool_decide (reason = str "BYE") then
    writeSIP (build200Bye (or_else (l SIP_FROM) (l SIP_TO)) target call_id 1)
      IP_SCSCF 5060 (match target with [] => IP_PCSCF | _ :: _ => ueIp target end) 5060
  else match media_of reason with
       | Some media => notify_callee media target call_id payload
       | None => mret tt
       end.

(** The registering session is marked. *)
Definition mark_registered (target : bytes) (s : PcscfNode) : PcscfNode :=
  match ue_by_impu_ s !! target with
  | Some ses => let u := session ses s in set_session ses (mkSes (ses_impu u) (ses_ip u) true) s
  | None => s
  end.

Definition ok_to_ue (l : locals) (payload : bytes) : H PcscfNode unit :=
  s ← get_state;
  let registering := bool_decide (l SIP_REASON = str "REGISTER") in
  let target := if registering then or_else (l SIP_FROM) (l SIP_TO)
                else or_else (caller_of (l SIP_CALL_ID) s) (l SIP_FROM) in
  (if registering then
     modify (mark_registered target);;
     writeSIP (build200Register target (str "10.0.0.x") 1) IP_SCSCF 5060 IP_PCSCF 5060
   else ok_by_reason l target payload);;
  match target with [] => mret tt | _ :: _ => sendToUe target payload end.

Definition ack_to_callee (l : locals) (payload : bytes) : H PcscfNode unit :=
  s ← get_state;
  let callee := or_else (callee_of (l SIP_CALL_ID) s) (l SIP_TO) in
  match callee with
  | [] => mret tt
  | _ :: _ =>
      sendToUe callee payload;;
      writeSIP (buildAck (l SIP_FROM) callee (l SIP_CALL_ID) 1) IP_PCSCF 5060 (ueIp callee) 5060
  end.

(** Every other type, BYE and CANCEL among them. *)
Definition other_to_ue (l : locals) (payload : bytes) : H PcscfNode unit :=
  s ← get_state;
  let target := or_else (caller_of (l SIP_CALL_ID) s) (or_else (l SIP_FROM) (l SIP_TO)) in
  match target with [] => mret tt | _ :: _ => sendToUe target payload end.

Definition from_scscf_tags : list SipTag := [SIP_TO; SIP_FROM; SIP_CALL_ID; SIP_REASON; SIP_SDP].

Definition handleFromScscf (payload : bytes) : H PcscfNode unit :=
  l ← read_fields from_scscf_tags payload;
  match sip_type payload with
  | Some SIP_INVITE => invite_to_callee l payload
  | Some SIP_100_TRYING =>
      provisional (fun caller => Some (build100Trying caller (l SIP_TO) (l SIP_CALL_ID) 1)) l payload
  | Some SIP_183_PROGRESS =>
      provisional (fun caller => Some (build183SessionProgress caller (l SIP_TO) (l SIP_CALL_ID) 1 60000))
        l payload
  | Some SIP_180_RINGING => provisional (fun _ => None) l payload
  | Some SIP_200_OK => ok_to_ue l payload
  | Some SIP_ACK => ack_to_callee l payload
  | _ => other_to_ue l payload
  end.

(** ** Where a message of the S-CSCF goes *)

(** The frames for an identity: none without a session. *)
Definition to_ue (s : PcscfNode) (p : bytes) (i : bytes) : list (Peer * bytes) :=
  match ue_by_impu_ s !! i with
  | Some ses => [(ToUe ses, payload_frame p)]
  | None => []
  end.

Definition nonempty (i : bytes) : list bytes := match i with [] => [] | _ :: _ => [i] end.

(** The identities a message that is no INVITE is delivered to, in order. *)
Definition destinations (type : option SipMsgType) (l : locals) (s : PcscfNode) : list bytes :=
  let caller := or_else (caller_of (l SIP_CALL_ID) s) (l SIP_FROM) in
  let callee := callee_of (l SIP_CALL_ID) s in
  match type with
  | Some SIP_100_TRYING | Some SIP_183_PROGRESS | Some SIP_180_RINGING => nonempty caller
  | Some SIP_200_OK =>
      if bool_decide (l SIP_REASON = str "REGISTER") then nonempty (or_else (l SIP_FROM) (l SIP_TO))
      else match media_of (l SIP_REASON) with Some _ => nonempty callee | None => [] end
           ++ nonempty caller
  | Some SIP_ACK => nonempty (or_else callee (l SIP_TO))
  | _ => nonempty (or_else (caller_of (l SIP_CALL_ID) s) (or_else (l SIP_FROM) (l SIP_TO)))
  end.

(** The state after it: a registration is marked. *)
Definition after_answer (type : option SipMsgType) (l : locals) (s : PcscfNode) : PcscfNode :=
  match type with
  | Some SIP_200_OK =>
      if bool_decide (l SIP_REASON = str "REGISTER")
      then mark_registered (or_else (l SIP_FROM) (l SIP_TO)) s else s
  | _ => s
  end.

(** ** Lemmas *)

Lemma run_to_ue (i p : bytes) (s : PcscfNode) (w : list act) :
  exists w', sendToUe i p (s, w) = Ok (tt, (s, w ++ w')) /\ outs w' = to_ue s p i.
Proof.
  unfold sendToUe, to_ue. run_h. destruct (ue_by_impu_ s !! i).
  - eexists. split; reflexivity.
  - exists []. run_h. rewrite app_nil_r. split; reflexivity.
Qed.

Lemma mark_route (i : bytes) (s : PcscfNode) : ue_by_impu_ (mark_registered i s) = ue_by_impu_ s.
Proof. unfold mark_registered. destruct (ue_by_impu_ s !! i); reflexivity. Qed.

(** Runs a delivery to one identity inside a handler. *)
Ltac run_ue :=
  match goal with
  | |- context [sendToUe ?i ?p (?s, ?w)] =>
      let w' := fresh "w" in let E := fresh "E" in let Ew := fresh "Ew" in
      destruct (run_to_ue i p s w) as (w' & E & Ew); rewrite E; clear E; run_h
  end.
Ltac delivered :=
  eexists; split; [reflexivity|];
  simpl_outs;
  repeat match goal with H : outs _ = _ |- _ => rewrite H; clear H end;
  cbn [app flat_map nonempty]; rewrite ?app_nil_r; try reflexivity.

Lemma provisional_delivers (text : bytes -> option bytes) (l : locals) (p : bytes) (s : PcscfNode) :
  delivers (provisional text l p) s s
    (flat_map (to_ue s p) (nonempty (or_else (caller_of (l SIP_CALL_ID) s) (l SIP_FROM)))).
Proof.
  unfold delivers, provisional. run_h.
  destruct (or_else (caller_of (l SIP_CALL_ID) s) (l SIP_FROM)) as [|c i]; [delivered|].
  run_h. run_ue. destruct (text (c :: i)); run_h; delivered.
Qed.

Lemma ack_to_callee_delivers (l : locals) (p : bytes) (s : PcscfNode) :
  delivers (ack_to_callee l p) s s
    (flat_map (to_ue s p) (nonempty (or_else (callee_of (l SIP_CALL_ID) s) (l SIP_TO)))).
Proof.
  unfold delivers, ack_to_callee. run_h.
  destruct (or_else (callee_of (l SIP_CALL_ID) s) (l SIP_TO)) as [|c i]; [delivered|].
  run_h. run_ue. delivered.
Qed.

Lemma other_delivers (l : locals) (p : bytes) (s : PcscfNode) :
  delivers (other_to_ue l p) s s
    (flat_map (to_ue s p)
       (nonempty (or_else (caller_of (l SIP_CALL_ID) s) (or_else (l SIP_FROM) (l SIP_TO))))).
Proof.
  unfold delivers, other_to_ue. run_h.
  destruct (or_else (caller_of (l SIP_CALL_ID) s) _) as [|c i]; [delivered|].
  run_ue. delivered.
Qed.

Lemma by_reason_delivers (l : locals) (target p : bytes) (s : PcscfNode) :
  delivers (ok_by_reason l target p) s s
    (match media_of (l SIP_REASON) with
     | Some _ => flat_map (to_ue s p) (nonempty (callee_of (l SIP_CALL_ID) s))
     | None => []
     end).
Proof.
  unfold delivers, ok_by_reason. run_h. set (r := l SIP_REASON).
  destruct (decide (r = str "INVITE")) as [->|H1]; [eval_text; unfold sendRxAAR; run_h; delivered|].
  rewrite (bool_decide_false (r = str "INVITE")) by exact H1.
  destruct (decide (r = [])) as [->|H2]; [eval_text; unfold sendRxAAR; run_h; delivered|].
  rewrite (bool_decide_false (r = [])) by exact H2.
  destruct (decide (r = str "CONFERENCE")) as [->|H3]; [eval_text; run_h; delivered|].
  rewrite (bool_decide_false (r = str "CONFERENCE")) by exact H3.
  destruct (decide (r = str "BYE")) as [->|H4]; [eval_text; run_h; delivered|].
  rewrite (bool_decide_false (r = str "BYE")) by exact H4. cbn [orb].
  destruct (media_of r); [|delivered]. unfold notify_callee. run_h.
  destruct (callee_of (l SIP_CALL_ID) s) as [|c i]; [delivered|]. run_ue. delivered.
Qed.

Lemma ok_to_ue_delivers (l : locals) (p : bytes) (s : PcscfNode) :
  delivers (ok_to_ue l p) s (after_answer (Some SIP_200_OK) l s)
    (flat_map (to_ue s p) (destinations (Some SIP_200_OK) l s)).
Proof.
  unfold delivers, ok_to_ue, after_answer, destinations. run_h.
  destruct (bool_decide (l SIP_REASON = str "REGISTER")).
  - run_h. destruct (or_else (l SIP_FROM) (l SIP_TO)) as [|c i]; [delivered|].
    run_ue. delivered. unfold to_ue. rewrite mark_route. reflexivity.
  - destruct (by_reason_delivers l (or_else (caller_of (l SIP_CALL_ID) s) (l SIP_FROM)) p s) as (w & -> & Ew).
    run_h. destruct (or_else (caller_of (l SIP_CALL_ID) s) (l SIP_FROM)) as [|c i].
    + delivered. destruct (media_of _); reflexivity.
    + run_ue. delivered. rewrite flat_map_app. destruct (media_of _); cbn; rewrite ?app_nil_r; reflexivity.
Qed.

(** ** What a UE's request does *)

Definition before_state (type : option SipMsgType) (ses : nat) (l : locals) (s : PcscfNode) : PcscfNode :=
  match type with
  | Some SIP_REGISTER =>
      set_route (l SIP_IMPU) ses
        (set_session ses (mkSes (l SIP_IMPU) (l SIP_CONTACT) (ses_registered (session ses s))) s)
  | Some SIP_INVITE =>
      set_maps (<[l SIP_CALL_ID := caller_in ses l s]> (call_to_caller_ s))
        (<[l SIP_CALL_ID := l SIP_TO]> (call_to_callee_ s)) (call_invite_delivered_ s) s
  | _ => s
  end.

Definition after_state (type : option SipMsgType) (l : locals) (s : PcscfNode) : PcscfNode :=
  match type with
  | Some SIP_BYE =>
      set_maps (delete (l SIP_CALL_ID) (call_to_caller_ s)) (delete (l SIP_CALL_ID) (call_to_callee_ s))
        (call_invite_delivered_ s ∖ {[l SIP_CALL_ID]}) s
  | _ => s
  end.

Lemma before_delivers (type : option SipMsgType) (ses : nat) (l : locals) (s : PcscfNode) (w : list act) :
  exists w', from_ue_before type ses l (s, w) = Ok (tt, (before_state type ses l s, w ++ w'))
             /\ outs w' = [].
Proof.
  destruct type as [[]|]; unfold from_ue_before; run_h;
    first [ eexists; split; [reflexivity|reflexivity]
          | exists []; rewrite app_nil_r; split; reflexivity ].
Qed.

Lemma after_delivers (type : option SipMsgType) (ses : nat) (l : locals) (s : PcscfNode) (w : list act) :
  exists w', from_ue_after type ses l (s, w) = Ok (tt, (after_state type l s, w ++ w'))
             /\ outs w' = [].
Proof.
  destruct type as [[]|]; unfold from_ue_after, sendRxAAR; run_h; rewrite <- ?app_assoc;
    first [ eexists; split; [reflexivity|reflexivity]
          | exists []; rewrite app_nil_r; split; reflexivity ].
Qed.

Lemma before_valid (type : option SipMsgType) (ses : nat) (l : locals) (s : PcscfNode) :
  scscf_valid (before_state type ses l s) = scscf_valid s.
Proof. destruct type as [[]|]; reflexivity. Qed.

(** A session that registers an identity is where it is found. *)
Lemma before_route (ses : nat) (l : locals) (s : PcscfNode) (i : bytes) :
  ue_by_impu_ (before_state (Some SIP_REGISTER) ses l s) !! i =
  if decide (l SIP_IMPU = i) then Some ses else ue_by_impu_ s !! i.
Proof. cbn. apply lookup_insert. Qed.

(** ** Properties *)

(** Whatever a UE sends is forwarded to the S-CSCF unchanged and exactly
    once, while that connection is valid, and nothing is sent to any UE; a
    REGISTER binds its identity to the session, an INVITE its call to the
    sender and to whom it names, a BYE forgets its call. *)
Theorem from_ue_forwards (ses : nat) (payload : bytes) (l : locals) (s : PcscfNode)
    (Hl : sip_parse from_ue_tags payload = Ok l) :
  let type := sip_type payload in
  delivers (handleFromUe ses payload) s (after_state type l (before_state type ses l s))
    (if scscf_valid s then [(ToScscf, payload_frame payload)] else []).
Proof.
  cbv zeta. unfold delivers, handleFromUe. rewrite M_bind_eq, (run_read _ _ _ _ _ Hl). run_h.
  destruct (before_delivers (sip_type payload) ses l s []) as (w1 & -> & E1).
  unfold sendToScscf. run_h.
  rewrite before_valid. destruct (scscf_valid s); run_h;
    match goal with
    | |- context [from_ue_after ?t ?n ?l (?a, ?b)] =>
        destruct (after_delivers t n l a b) as (w2 & -> & E2)
    end; eexists; (split; [reflexivity|]); simpl_outs; rewrite E1, E2; reflexivity.
Qed.

Lemma from_ue_forwards_witness :
  let p := enc_sip SIP_BYE 4 [(SIP_CALL_ID, str "c")] in
  exists s', delivers (handleFromUe 0 p) (accept_ue newPcscf) s' [(ToScscf, payload_frame p)].
Proof.
  intros p. eexists.
  exact (from_ue_forwards 0 p (sip_locals from_ue_tags [(SIP_CALL_ID, str "c")] no_locals)
           (accept_ue newPcscf)
           ltac:(apply sip_parse_enc; [unfold in_u; lia|
                   repeat (apply List.Forall_cons; [vm_compute; reflexivity|]); apply List.Forall_nil])).
Defined.

Lemma routes_deliver (payload : bytes) (l : locals) (s : PcscfNode)
    (Hl : sip_parse from_scscf_tags payload = Ok l)
    (Htype : sip_type payload <> Some SIP_INVITE) :
  delivers (handleFromScscf payload) s (after_answer (sip_type payload) l s)
    (flat_map (to_ue s payload) (destinations (sip_type payload) l s)).
Proof.
  unfold delivers, handleFromScscf. rewrite M_bind_eq, (run_read _ _ _ _ _ Hl).
  destruct (sip_type payload) as [[]|]; try contradiction; unfold after_answer, destinations;
    first [ apply ok_to_ue_delivers | apply provisional_delivers | apply ack_to_callee_delivers
          | apply other_delivers ].
Qed.

(** C26. Every message of the S-CSCF that is no INVITE goes, unchanged, to the
    identities the routing table, the message and its type name, in this
    order: provisional answers and answers to the caller of the call, those
    to a re-INVITE to its callee first, an ACK to the callee, a
    registration's answer to who registers, and everything else, a BYE
    included, to the caller.  An identity no session registered gets
    nothing, and only a registration changes the state. *)
Theorem pcscf_routes (payload : bytes) (l : locals) (s : PcscfNode)
    (Hl : sip_parse from_scscf_tags payload = Ok l)
    (Htype : sip_type payload <> Some SIP_INVITE) :
  delivers (handleFromScscf payload) s (after_answer (sip_type payload) l s)
    (flat_map (to_ue s payload) (destinations (sip_type payload) l s)).
Proof. exact (routes_deliver payload l s Hl Htype). Qed.

Lemma pcscf_routes_witness :
  let p := enc_sip SIP_BYE 4 [(SIP_CALL_ID, str "c")] in
  let s := mkPcscf [newSes; newSes] (<[IMPU_A := 0%nat]> {[IMPU_B := 1%nat]})
             {[str "c" := IMPU_A]} {[str "c" := IMPU_B]} ∅ 1 true in
  delivers (handleFromScscf p) s s [(ToUe 0, payload_frame p)].
Proof.
  intros p s.
  exact (pcscf_routes p (sip_locals from_scscf_tags [(SIP_CALL_ID, str "c")] no_locals) s
           ltac:(apply sip_parse_enc; [unfold in_u; lia|
                   repeat (apply List.Forall_cons; [vm_compute; reflexivity|]); apply List.Forall_nil])
           ltac:(unfold p; rewrite sip_type_enc by (unfold in_u; lia); discriminate)).
Defined.

(** The INVITE of a call not yet delivered goes to the callee and is noted;
    a 180 Ringing in the caller's name follows at once, whether or not the
    callee has a session: ringing does not depend on delivery. *)
Theorem ringing_without_callee (payload : bytes) (l : locals) (s : PcscfNode)
    (Hl : sip_parse from_scscf_tags payload = Ok l)
    (Htype : sip_type payload = Some SIP_INVITE)
    (Hnew : l SIP_CALL_ID ∉ call_invite_delivered_ s)
    (Hcall : is_Some (call_to_caller_ s !! l SIP_CALL_ID) /\ is_Some (call_to_callee_ s !! l SIP_CALL_ID)) :
  let ring := sip_message SIP_180_RINGING (pc_next_seq_ s)
                [(SIP_CALL_ID, l SIP_CALL_ID); (SIP_FROM, l SIP_FROM); (SIP_TO, l SIP_TO);
                 (SIP_REASON, str "INVITE")] in
  let s' := set_maps (call_to_caller_ s) (call_to_callee_ s)
              ({[l SIP_CALL_ID]} ∪ call_invite_delivered_ s) s in
  delivers (handleFromScscf payload) s (pc_tick s')
    (to_ue s payload (l SIP_TO) ++ to_ue s (udpPayload ring) (l SIP_FROM)).
Proof.
  cbv zeta. destruct Hcall as [[a Ha] [b Hb]].
  unfold delivers, handleFromScscf. rewrite M_bind_eq, (run_read _ _ _ _ _ Hl), Htype.
  unfold invite_to_callee, pc_seq. run_h. rewrite bool_decide_false by exact Hnew.
  rewrite Ha, Hb. run_h. run_ue. run_ue. delivered.
Qed.

Lemma ringing_without_callee_witness :
  let p := enc_sip SIP_INVITE 4 [(SIP_FROM, IMPU_A); (SIP_TO, IMPU_B); (SIP_CALL_ID, str "c")] in
  let s := mkPcscf [newSes] {[IMPU_A := 0%nat]} {[str "c" := IMPU_A]} {[str "c" := IMPU_B]} ∅ 1 true in
  exists s' f, delivers (handleFromScscf p) s s' [(ToUe 0, f)].
Proof.
  intros p s. eexists. eexists.
  exact (ringing_without_callee p
           (sip_locals from_scscf_tags
              [(SIP_FROM, IMPU_A); (SIP_TO, IMPU_B); (SIP_CALL_ID, str "c")] no_locals) s
           ltac:(apply sip_parse_enc; [unfold in_u; lia|
                   repeat (apply List.Forall_cons; [vm_compute; reflexivity|]); apply List.Forall_nil])
           ltac:(apply sip_type_enc; unfold in_u; lia)
           (not_elem_of_empty _)
           (conj (mk_is_Some _ _ (lookup_singleton_eq _ _)) (mk_is_Some _ _ (lookup_singleton_eq _ _)))).
Defined.
