(* ===== verification/UeSim.v ===== *)
(** * The IMS phone

    [UeSimulator] of [ims-simulator/src/ue_sim.cpp]: a user types commands, a
    receive thread handles what the P-CSCF sends.  A command and a message are
    each one step. *)

From S2P Require Import Prelude Tlv NodeEnv Text Strings Http Sip SipText ImsEnv.
#[local] Open Scope Z_scope.

(** ** State *)

Record UeConfig : Type := mkCfg {
  label : bytes;
  cfg_impu : bytes;
  cfg_impi : bytes;
  ip : bytes;
  rtp_port : Z
}.

Definition CFG_A : UeConfig :=
  mkCfg (str "UE-A") IMPU_A (str "919000000001@" ++ IMS_DOMAIN) IP_UE_A 50000.
Definition CFG_B : UeConfig :=
  mkCfg (str "UE-B") IMPU_B (str "919000000002@" ++ IMS_DOMAIN) IP_UE_B 60000.
Definition CFG_C : UeConfig :=
  mkCfg (str "UE-C") IMPU_C (str "919000000003@" ++ IMS_DOMAIN) IP_UE_C 70000.

Definition ID_TO_IMPU (id : bytes) : option bytes :=
  if bool_decide (id = str "A") then Some IMPU_A
  else if bool_decide (id = str "B") then Some IMPU_B
  else if bool_decide (id = str "C") then Some IMPU_C
  else None.

Inductive UeState : Set := IDLE | REGISTERING | REGISTERED | CALLING | RINGING | IN_CALL | ON_HOLD.

#[export] Instance UeState_eq_dec : EqDecision UeState.
Proof. solve_decision. Defined.

Definition state_str (s : UeState) : bytes :=
  match s with
  | IDLE => str "IDLE"
  | REGISTERING => str "REGISTERING"
  | REGISTERED => str "REGISTERED"
  | CALLING => str "CALLING"
  | RINGING => str "RINGING (incoming)"
  | IN_CALL => str "IN-CALL"
  | ON_HOLD => str "ON-HOLD"
  end.

Record UeSimulator : Type := mkUe {
  cfg_ : UeConfig;
  state_ : UeState;
  ue_next_seq_ : Z;
  current_call_id_ : bytes;
  callee_impu_ : bytes;
  caller_impu_ : bytes
}.

Definition newUe (c : UeConfig) : UeSimulator := mkUe c IDLE 1 [] [] [].

Definition set_state (st : UeState) (u : UeSimulator) : UeSimulator :=
  mkUe (cfg_ u) st (ue_next_seq_ u) (current_call_id_ u) (callee_impu_ u) (caller_impu_ u).

Definition ue_tick (u : UeSimulator) : UeSimulator :=
  mkUe (cfg_ u) (state_ u) (u32 (ue_next_seq_ u + 1)) (current_call_id_ u) (callee_impu_ u)
    (caller_impu_ u).

(** [next_seq_++]. *)
Definition ue_seq : H UeSimulator Z := u ← get_state; modify ue_tick;; mret (ue_next_seq_ u).

(** [ue_ip_num]. *)
Definition ue_ip_num (u : UeSimulator) : Z :=
  if bool_decide (label (cfg_ u) = str "UE-A") then IP_UE
  else if bool_decide (label (cfg_ u) = str "UE-B") then IP_UE_B_NUM
  else IP_UE_C_NUM.

(** An [int] argument made from [next_seq_]. *)
Definition cseq_of (u : UeSimulator) (k : Z) : Z :=
  let n := u32 (ue_next_seq_ u + k) in if n <? 2 ^ 31 then n else n - 2 ^ 32.

(** A frame to the P-CSCF, with the next sequence number. *)
Definition ue_send (type : SipMsgType) (fs : fields) : H UeSimulator unit :=
  seq ← ue_seq; send_frame ToPcscf (sip_message type seq fs).

Definition capture_up (u : UeSimulator) (text : bytes) : H UeSimulator unit :=
  writeSIP text (ue_ip_num u) 5060 IP_PCSCF 5060.
Definition capture_down (u : UeSimulator) (text : bytes) : H UeSimulator unit :=
  writeSIP text IP_PCSCF 5060 (ue_ip_num u) 5060.

(** ** Commands *)

Definition doRegister : H UeSimulator unit :=
  u ← get_state;
  let c := cfg_ u in
  if bool_decide (state_ u = IN_CALL) then mret tt
  else
    modify (set_state REGISTERING);;
    ue_send SIP_REGISTER
      [(SIP_FROM, cfg_impu c); (SIP_IMPU, cfg_impu c); (SIP_IMPI, cfg_impi c);
       (SIP_CONTACT, str "sip:ue@" ++ ip c ++ str ":5060")];;
    u ← get_state;
    capture_up u (buildRegister (cfg_impu c) (ip c) (cseq_of u 0) 3600).

(** The offer of a call. *)
Definition offer (c : UeConfig) : bytes :=
  str "audio:" ++ to_stringZ (rtp_port c) ++ str "/AMR-WB,video:"
  ++ to_stringZ (rtp_port c + 2) ++ str "/H264".

(** [label.back()]: the labels are not empty. *)
Definition new_call_id (u : UeSimulator) (target_id : bytes) : bytes :=
  str "call-" ++ [List.last (label (cfg_ u)) 0] ++ target_id ++ str "-" ++ to_string (ue_next_seq_ u).

Definition dial (id callee : bytes) (u : UeSimulator) : UeSimulator :=
  mkUe (cfg_ u) CALLING (ue_next_seq_ u) id callee (caller_impu_ u).

Definition doCall (target_id : bytes) : H UeSimulator unit :=
  u ← get_state;
  let c := cfg_ u in
  if negb (bool_decide (state_ u = REGISTERED)) then mret tt
  else match ID_TO_IMPU target_id with
  | None => mret tt
  | Some callee =>
      let id := new_call_id u target_id in
      modify (dial id callee);;
      ue_send SIP_INVITE
        [(SIP_FROM, cfg_impu c); (SIP_TO, callee); (SIP_CALL_ID, id); (SIP_SDP, offer c)];;
      u ← get_state;
      capture_up u (buildInvite (cfg_impu c) callee (ip c) id (cseq_of u 0) 50000)
  end.

Definition doAccept : H UeSimulator unit :=
  u ← get_state;
  let c := cfg_ u in
  if negb (bool_decide (state_ u = RINGING)) then mret tt
  else
    modify (set_state IN_CALL);;
    ue_send SIP_200_OK
      [(SIP_CALL_ID, current_call_id_ u); (SIP_REASON, str "INVITE");
       (SIP_SDP, str "audio:" ++ to_stringZ (rtp_port c) ++ str "/AMR-WB/16000")];;
    u ← get_state;
    capture_up u (build200Invite (caller_impu_ u) (cfg_impu c) (ip c) (current_call_id_ u)
                    (cseq_of u 0) 60000).

Definition doReject : H UeSimulator unit :=
  u ← get_state;
  if negb (bool_decide (state_ u = RINGING)) then mret tt
  else
    modify (set_state REGISTERED);;
    ue_send SIP_CANCEL [(SIP_CALL_ID, current_call_id_ u)].

(** A re-INVITE to [to] with a session description. *)
Definition reinvite (to sdp : bytes) : H UeSimulator unit :=
  u ← get_state;
  ue_send SIP_INVITE
    [(SIP_CALL_ID, current_call_id_ u); (SIP_FROM, cfg_impu (cfg_ u)); (SIP_TO, to); (SIP_SDP, sdp)].

Definition audio (c : UeConfig) (rest : bytes) : bytes :=
  str "audio:" ++ to_stringZ (rtp_port c) ++ rest.

(** The description in the captured re-INVITE. *)
Definition ue_sdp (c : UeConfig) (media : list bytes) : bytes :=
  block ([str "v=0"; str "o=ue 1 1 IN IP4 " ++ ip c; str "s=-"; str "t=0 0";
          str "m=audio " ++ to_stringZ (rtp_port c) ++ str " RTP/AVP 98";
          str "a=rtpmap:98 AMR-WB/16000"] ++ media).

Definition capture_reinvite (media : list bytes) : H UeSimulator unit :=
  u ← get_state;
  let c := cfg_ u in
  capture_up u (buildReInvite (cfg_impu c) (callee_impu_ u) (ip c) (current_call_id_ u)
                  (cseq_of u 0) (ue_sdp c media)).

Definition doHold : H UeSimulator unit :=
  u ← get_state;
  if negb (bool_decide (state_ u = IN_CALL)) then mret tt
  else
    modify (set_state ON_HOLD);;
    reinvite (callee_impu_ u) (audio (cfg_ u) (str "/AMR-WB;a=sendonly"));;
    capture_reinvite [str "a=sendonly"].

Definition doResume : H UeSimulator unit :=
  u ← get_state;
  if negb (bool_decide (state_ u = ON_HOLD)) then mret tt
  else
    modify (set_state IN_CALL);;
    reinvite (callee_impu_ u) (audio (cfg_ u) (str "/AMR-WB;a=sendrecv"));;
    capture_reinvite [str "a=sendrecv"].

Definition doConference (third_id : bytes) : H UeSimulator unit :=
  u ← get_state;
  let c := cfg_ u in
  if negb (bool_decide (state_ u = IN_CALL)) then mret tt
  else match ID_TO_IMPU third_id with
  | None => mret tt
  | Some third =>
      let conf_uri := str "sip:conf-" ++ to_string (ue_next_seq_ u) ++ str "@mrfc." ++ IMS_DOMAIN in
      reinvite third (conf_uri ++ str ";a=sendrecv;conf");;
      u ← get_state;
      writeSIP (buildInvite (cfg_impu c) third (ip c) (str "conf-" ++ to_string (ue_next_seq_ u))
                  (cseq_of u 1) 50000) (ue_ip_num u) 5060 IP_SCSCF 5060
  end.

Definition in_dialog (u : UeSimulator) : bool :=
  bool_decide (state_ u = IN_CALL) || bool_decide (state_ u = ON_HOLD).

(** The reason typed with UPDATE is printed only. *)
Definition doUpdate : H UeSimulator unit :=
  u ← get_state;
  if negb (in_dialog u) then mret tt
  else
    reinvite (callee_impu_ u)
      (audio (cfg_ u) (str "/AMR-WB;a=curr:qos local sendrecv;a=des:qos mandatory local sendrecv")).

Definition doVideo : H UeSimulator unit :=
  u ← get_state;
  let c := cfg_ u in
  if negb (bool_decide (state_ u = IN_CALL)) then mret tt
  else
    reinvite (callee_impu_ u)
      (audio c (str "/AMR-WB;video:" ++ to_stringZ (rtp_port c + 2) ++ str "/H264/90000;a=sendrecv"));;
    capture_reinvite
      [str "a=sendrecv"; str "m=video " ++ to_stringZ (rtp_port c + 2) ++ str " RTP/AVP 100";
       str "a=rtpmap:100 H264/90000"; str "a=sendrecv"].

Definition doVoice : H UeSimulator unit :=
  u ← get_state;
  if negb (bool_decide (state_ u = IN_CALL)) then mret tt
  else
    reinvite (callee_impu_ u)
      (audio (cfg_ u) (str "/AMR-WB;video:0/H264/90000;port=0;a=sendrecv"));;
    capture_reinvite
      [str "a=sendrecv"; str "m=video 0 RTP/AVP 100"; str "a=rtpmap:100 H264/90000"].

Definition doBye : H UeSimulator unit :=
  u ← get_state;
  if negb (in_dialog u) then mret tt
  else
    modify (set_state REGISTERED);;
    ue_send SIP_BYE [(SIP_CALL_ID, current_call_id_ u)];;
    u ← get_state;
    capture_up u (buildBye (cfg_impu (cfg_ u)) (callee_impu_ u) (current_call_id_ u) (cseq_of u 0)).

(** ** A line of input *)

Inductive Command : Type :=
| QUIT | REG | STATUS | ACCEPT | REJECT | HOLD | RESUME | BYE
| CALL (target : bytes) | CONF (target : bytes) | UPDATE | VIDEO | VOICE
| UNKNOWN.

(** [std::toupper] of a character; the cast before it is undefined for
    characters outside ASCII. *)
Definition toupper (c : Z) : Z := if (97 <=? c) && (c <=? 122) then c - 32 else c.

Definition upper (w : bytes) : res bytes :=
  if forallb (fun c => (0 <=? c) && (c <? 128)) w then Ok (map toupper w) else Undefined.

(** The dispatch of [main] on a line that is not empty. *)
Definition read_command (line : bytes) : res Command :=
  let '(w, rest) := read_word line in
  cmd ← upper w;
  let typed (s : bytes) := bool_decide (cmd = s) in
  if typed (str "QUIT") then Ok QUIT
  else if typed (str "REG") then Ok REG
  else if typed (str "STATUS") then Ok STATUS
  else if typed (str "ACCEPT") then Ok ACCEPT
  else if typed (str "REJECT") then Ok REJECT
  else if typed (str "HOLD") then Ok HOLD
  else if typed (str "RESUME") then Ok RESUME
  else if typed (str "BYE") then Ok BYE
  else if typed (str "CALL") then tgt ← upper (read_word rest).1; Ok (CALL tgt)
  else if typed (str "CONF") then tgt ← upper (read_word rest).1; Ok (CONF tgt)
  else if typed (str "UPDATE") then Ok UPDATE
  else if typed (str "VIDEO") then Ok VIDEO
  else if typed (str "VOICE") then Ok VOICE
  else Ok UNKNOWN.

Definition do_command (c : Command) : H UeSimulator unit :=
  match c with
  | REG => doRegister
  | ACCEPT => doAccept
  | REJECT => doReject
  | HOLD => doHold
  | RESUME => doResume
  | BYE => doBye
  | CALL tgt => doCall tgt
  | CONF tgt => doConference tgt
  | UPDATE => doUpdate
  | VIDEO => doVideo
  | VOICE => doVoice
  | QUIT | STATUS | UNKNOWN => mret tt
  end.

(** ** What the P-CSCF sends *)

Definition send_ack : H UeSimulator unit :=
  u ← get_state;
  let me := cfg_impu (cfg_ u) in
  ue_send SIP_ACK
    [(SIP_CALL_ID, current_call_id_ u); (SIP_FROM, me); (SIP_TO, callee_impu_ u)];;
  u ← get_state;
  capture_up u (buildAck me (callee_impu_ u) (current_call_id_ u) (cseq_of u 0)).

Definition incoming_ok (reason : bytes) : H UeSimulator unit :=
  u ← get_state;
  let me := cfg_impu (cfg_ u) in
  if bool_decide (reason = str "REGISTER") then
    modify (set_state REGISTERED);;
    capture_down u (build200Register me (ip (cfg_ u)) 1)
  else if bool_decide (reason = str "INVITE") || bool_decide (reason = []) then
    modify (set_state IN_CALL);;
    capture_down u (build200Invite (callee_impu_ u) me (str "10.0.0.x") (current_call_id_ u) 1 60000);;
    send_ack
  else if bool_decide (reason = str "re-INVITE-RESUME") then
    modify (set_state IN_CALL)
  else if bool_decide (reason = str "BYE") then
    modify (set_state REGISTERED);;
    capture_down u (build200Bye (callee_impu_ u) me (current_call_id_ u) 1)
  else mret tt.

(** A call comes in: the conference's and any other alike. *)
Definition ring (from call_id : bytes) (u : UeSimulator) : UeSimulator :=
  mkUe (cfg_ u) RINGING (ue_next_seq_ u)
    (match call_id with [] => current_call_id_ u | _ :: _ => call_id end)
    (callee_impu_ u)
    (match from with [] => caller_impu_ u | _ :: _ => from end).

Definition incoming_invite (from call_id sdp : bytes) : H UeSimulator unit :=
  u ← get_state;
  let is_hold := contains (str "sendonly") sdp || contains (str "inactive") sdp in
  let is_reinvite := negb (bool_decide (current_call_id_ u = []))
                     && bool_decide (call_id = current_call_id_ u) in
  (if is_hold && is_reinvite then mret tt
   else modify (ring from call_id));;
  capture_down u (buildInvite from (cfg_impu (cfg_ u)) (str "10.0.0.x") call_id 1 50000).

Definition ue_tags : list SipTag := [SIP_FROM; SIP_TO; SIP_CALL_ID; SIP_REASON; SIP_SDP].

Definition handleIncoming (payload : bytes) : H UeSimulator unit :=
  l ← read_fields ue_tags payload;
  u ← get_state;
  let me := cfg_impu (cfg_ u) in
  let id := current_call_id_ u in
  match sip_type payload with
  | Some SIP_200_OK => incoming_ok (l SIP_REASON)
  | Some SIP_INVITE => incoming_invite (l SIP_FROM) (l SIP_CALL_ID) (l SIP_SDP)
  | Some SIP_100_TRYING => capture_down u (build100Trying me (callee_impu_ u) id 1)
  | Some SIP_183_PROGRESS => capture_down u (build183SessionProgress me (callee_impu_ u) id 1 60000)
  | Some SIP_180_RINGING => capture_down u (build180Ringing me (callee_impu_ u) id 1)
  | Some SIP_ACK => capture_down u (buildAck (caller_impu_ u) me id 1)
  | _ => mret tt
  end.

(** ** What a command does (the specification side) *)

(** Whether a command is accepted in the state of the phone. *)
Definition accepted (c : Command) (u : UeSimulator) : bool :=
  let in_state st := bool_decide (state_ u = st) in
  match c with
  | REG => negb (in_state IN_CALL)
  | CALL t => in_state REGISTERED && match ID_TO_IMPU t with Some _ => true | None => false end
  | ACCEPT | REJECT => in_state RINGING
  | HOLD | VIDEO | VOICE => in_state IN_CALL
  | CONF t => in_state IN_CALL && match ID_TO_IMPU t with Some _ => true | None => false end
  | RESUME => in_state ON_HOLD
  | UPDATE | BYE => in_state IN_CALL || in_state ON_HOLD
  | QUIT | STATUS | UNKNOWN => false
  end.

Definition id_impu (t : bytes) : bytes := default [] (ID_TO_IMPU t).

(** The phone after an accepted command, before its sequence number moves. *)
Definition commanded (c : Command) (u : UeSimulator) : UeSimulator :=
  match c with
  | REG => set_state REGISTERING u
  | CALL t => dial (new_call_id u t) (id_impu t) u
  | ACCEPT | RESUME => set_state IN_CALL u
  | REJECT | BYE => set_state REGISTERED u
  | HOLD => set_state ON_HOLD u
  | _ => u
  end.

(** The one message of an accepted command. *)
Definition reinvite_fields (u : UeSimulator) (to sdp : bytes) : fields :=
  [(SIP_CALL_ID, current_call_id_ u); (SIP_FROM, cfg_impu (cfg_ u)); (SIP_TO, to); (SIP_SDP, sdp)].

Definition command_sdp (c : Command) (u : UeSimulator) : bytes :=
  match c with
  | HOLD => audio (cfg_ u) (str "/AMR-WB;a=sendonly")
  | RESUME => audio (cfg_ u) (str "/AMR-WB;a=sendrecv")
  | UPDATE => audio (cfg_ u) (str "/AMR-WB;a=curr:qos local sendrecv;a=des:qos mandatory local sendrecv")
  | VIDEO => audio (cfg_ u) (str "/AMR-WB;video:" ++ to_stringZ (rtp_port (cfg_ u) + 2)
                               ++ str "/H264/90000;a=sendrecv")
  | VOICE => audio (cfg_ u) (str "/AMR-WB;video:0/H264/90000;port=0;a=sendrecv")
  | CONF _ => (str "sip:conf-" ++ to_string (ue_next_seq_ u) ++ str "@mrfc." ++ IMS_DOMAIN)
              ++ str ";a=sendrecv;conf"
  | _ => offer (cfg_ u)
  end.

Definition command_message (c : Command) (u : UeSimulator) : SipMsgType * fields :=
  let me := cfg_impu (cfg_ u) in
  match c with
  | REG => (SIP_REGISTER,
            [(SIP_FROM, me); (SIP_IMPU, me); (SIP_IMPI, cfg_impi (cfg_ u));
             (SIP_CONTACT, str "sip:ue@" ++ ip (cfg_ u) ++ str ":5060")])
  | CALL t => (SIP_INVITE,
               [(SIP_FROM, me); (SIP_TO, id_impu t); (SIP_CALL_ID, new_call_id u t);
                (SIP_SDP, command_sdp c u)])
  | ACCEPT => (SIP_200_OK,
               [(SIP_CALL_ID, current_call_id_ u); (SIP_REASON, str "INVITE");
                (SIP_SDP, str "audio:" ++ to_stringZ (rtp_port (cfg_ u)) ++ str "/AMR-WB/16000")])
  | REJECT => (SIP_CANCEL, [(SIP_CALL_ID, current_call_id_ u)])
  | BYE => (SIP_BYE, [(SIP_CALL_ID, current_call_id_ u)])
  | CONF t => (SIP_INVITE, reinvite_fields u (id_impu t) (command_sdp c u))
  | _ => (SIP_INVITE, reinvite_fields u (callee_impu_ u) (command_sdp c u))
  end.

Definition command_frame (c : Command) (u : UeSimulator) : bytes :=
  msg_frame (command_message c u).1 (ue_next_seq_ u) (command_message c u).2.

(** ** Properties *)

Lemma command_step (c : Command) (u : UeSimulator) :
  if accepted c u
  then delivers (do_command c) u (ue_tick (commanded c u)) [(ToPcscf, command_frame c u)]
  else delivers (do_command c) u u [].
Proof.
  unfold delivers, do_command, accepted, command_frame.
  destruct c as [| | | | | | | |t|t| | | |];
    unfold doRegister, doCall, doAccept, doReject, doHold, doResume, doConference, doUpdate, doVideo,
      doVoice, doBye, in_dialog, capture_reinvite, reinvite, capture_up, ue_send, ue_seq;
    run_h; repeat match goal with
      | |- context [bool_decide (state_ u = ?s)] => destruct (bool_decide (state_ u = s)) eqn:?
      end; cbn [negb andb orb];
    try (destruct (ID_TO_IMPU t) as [i|] eqn:Et; unfold commanded, command_message, id_impu; rewrite ?Et);
    run_h; eexists; (split; [reflexivity|reflexivity]).
Qed.

(** A command is refused, with nothing sent and nothing changed, exactly in
    the states that do not accept it; otherwise it sends one message with the
    next sequence number and moves the phone to the state of the command. *)
Theorem command_guarded (c : Command) (u : UeSimulator) :
  if accepted c u
  then delivers (do_command c) u (ue_tick (commanded c u)) [(ToPcscf, command_frame c u)]
  else delivers (do_command c) u u [].
Proof. exact (command_step c u). Qed.

(** *** Messages *)

(** The phone after a message. *)
Definition heard (type : option SipMsgType) (l : locals) (u : UeSimulator) : UeSimulator :=
  match type with
  | Some SIP_200_OK =>
      let reason := l SIP_REASON in
      if bool_decide (reason = str "REGISTER") then set_state REGISTERED u
      else if bool_decide (reason = str "INVITE") || bool_decide (reason = []) then
        ue_tick (set_state IN_CALL u)
      else if bool_decide (reason = str "re-INVITE-RESUME") then set_state IN_CALL u
      else if bool_decide (reason = str "BYE") then set_state REGISTERED u
      else u
  | Some SIP_INVITE =>
      if (contains (str "sendonly") (l SIP_SDP) || contains (str "inactive") (l SIP_SDP))
         && (negb (bool_decide (current_call_id_ u = []))
             && bool_decide (l SIP_CALL_ID = current_call_id_ u))
      then u else ring (l SIP_FROM) (l SIP_CALL_ID) u
  | _ => u
  end.

Definition ack_frame (u : UeSimulator) : bytes :=
  msg_frame SIP_ACK (ue_next_seq_ u)
    [(SIP_CALL_ID, current_call_id_ u); (SIP_FROM, cfg_impu (cfg_ u)); (SIP_TO, callee_impu_ u)].

(** What the phone answers by itself: an ACK for an answered INVITE. *)
Definition answers (type : option SipMsgType) (l : locals) (u : UeSimulator) : list (Peer * bytes) :=
  match type with
  | Some SIP_200_OK =>
      if negb (bool_decide (l SIP_REASON = str "REGISTER"))
         && (bool_decide (l SIP_REASON = str "INVITE") || bool_decide (l SIP_REASON = []))
      then [(ToPcscf, ack_frame u)] else []
  | _ => []
  end.

(** A message moves the phone as its type and, for an answer, its reason say,
    in whatever state it is; the only message sent in return is the ACK of a
    200 OK to an INVITE, for the call the phone has last seen. *)
Theorem phone_hears (payload : bytes) (l : locals) (u : UeSimulator)
    (Hl : sip_parse ue_tags payload = Ok l) :
  delivers (handleIncoming payload) u (heard (sip_type payload) l u)
    (answers (sip_type payload) l u).
Proof.
  unfold delivers, handleIncoming. rewrite M_bind_eq, (run_read _ _ _ _ _ Hl). run_h.
  destruct (sip_type payload) as [[]|]; unfold heard, answers, capture_down; run_h;
    try (eexists; split; reflexivity).
  - unfold incoming_invite, capture_down. run_h.
    destruct (_ && _); run_h; eexists; (split; [reflexivity|reflexivity]).
  - unfold incoming_ok, capture_down, send_ack, capture_up, ue_send, ue_seq. run_h.
    destruct (bool_decide (l SIP_REASON = str "REGISTER")); [run_h; eexists; split; reflexivity|].
    cbn [negb andb]. destruct (_ || _); [run_h; eexists; split; reflexivity|].
    destruct (bool_decide (l SIP_REASON = str "re-INVITE-RESUME")); [run_h; eexists; split; reflexivity|].
    destruct (bool_decide (l SIP_REASON = str "BYE")); run_h; eexists; split; reflexivity.
Qed.

Lemma phone_hears_witness :
  let p := enc_sip SIP_200_OK 4 [(SIP_CALL_ID, str "c"); (SIP_REASON, str "BARRED")] in
  let u := set_state CALLING (newUe CFG_A) in
  delivers (handleIncoming p) u u [].
Proof.
  intros p u.
  exact (phone_hears p
           (sip_locals ue_tags [(SIP_CALL_ID, str "c"); (SIP_REASON, str "BARRED")] no_locals) u
           ltac:(apply sip_parse_enc; [unfold in_u; lia|
                   repeat (apply List.Forall_cons; [vm_compute; reflexivity|]); apply List.Forall_nil])).
Defined.

(** *** Input *)

Lemma is_space_toupper (c : Z) : is_space (toupper c) = is_space c.
Proof. unfold toupper, is_space. destruct ((97 <=? c) && (c <=? 122)) eqn:E; lia. Qed.

Lemma toupper_idem (c : Z) : toupper (toupper c) = toupper c.
Proof. unfold toupper. destruct ((97 <=? c) && (c <=? 122)) eqn:E; [|rewrite E; reflexivity].
  destruct ((97 <=? c - 32) && (c - 32 <=? 122)) eqn:E2; lia. Qed.

Lemma take_word_upper (s : bytes) :
  take_word (map toupper s) = (map toupper (take_word s).1, map toupper (take_word s).2).
Proof.
  induction s as [|c s IH]; [reflexivity|]. cbn [map take_word]. rewrite is_space_toupper.
  destruct (is_space c); [reflexivity|]. rewrite IH. destruct (take_word s). reflexivity.
Qed.

Lemma read_word_upper (s : bytes) :
  read_word (map toupper s) = (map toupper (read_word s).1, map toupper (read_word s).2).
Proof.
  unfold read_word. assert (E : skip_spaces (map toupper s) = map toupper (skip_spaces s)).
  { induction s as [|c s IH]; [reflexivity|]. cbn. rewrite is_space_toupper.
    destruct (is_space c); [exact IH|reflexivity]. }
  rewrite E. apply take_word_upper.
Qed.

Lemma upper_upper (w : bytes) : upper (map toupper w) = upper w.
Proof.
  unfold upper. rewrite map_map, (map_ext _ toupper toupper_idem).
  replace (forallb _ (map toupper w)) with (forallb (fun c => (0 <=? c) && (c <? 128)) w);
    [reflexivity|].
  induction w as [|c w IH]; [reflexivity|]. cbn [map forallb]. rewrite <- IH. f_equal.
  unfold toupper. destruct ((97 <=? c) && (c <=? 122)) eqn:E; lia.
Qed.

(** Commands and their targets may be typed in any case. *)
Theorem commands_any_case (line : bytes) : read_command (map toupper line) = read_command line.
Proof.
  unfold read_command. rewrite read_word_upper. destruct (read_word line) as [w rest]. cbn [fst snd].
  rewrite upper_upper, read_word_upper. cbn [fst]. rewrite upper_upper. reflexivity.
Qed.
