(* ===== verification/Ims.v ===== *)
(** * The IMS, closed

    The phones, the P-CSCF, the S-CSCF and the HSS joined by their
    connections.  A phone and the session the P-CSCF has for it make a
    [Link]; its queues hold the frames under way.  [exec] is one step of one
    thread, named by its [Label]: a command at a phone, a phone's receive
    thread, the P-CSCF's thread for a phone at its three points, the P-CSCF's
    thread for the S-CSCF, the S-CSCF, the server's console.  The exchange
    with the HSS is part of the step of the S-CSCF. *)

From S2P Require Import Prelude Tlv NodeEnv Text Strings Http Sip SipText ImsEnv.
From S2P Require Import ImsHss Scscf Pcscf UeSim.
#[local] Open Scope Z_scope.

(** ** State *)

(** Where the P-CSCF's thread for a phone is. *)
Inductive Thread : Type :=
| Receiving
| Forwarding (payload : bytes)
| Finishing (payload : bytes).

Record Link : Type := mkLink {
  l_ue : UeSimulator;
  l_up : list bytes;     (** frames to the P-CSCF *)
  l_down : list bytes;   (** frames to the phone *)
  l_thread : Thread
}.

Record Ims : Type := mkIms {
  i_links : gmap nat Link;
  i_hss : ImsHssNode;
  i_sc : ScscfNode;
  i_pc : PcscfNode;
  i_ps : list bytes;     (** frames from the P-CSCF to the S-CSCF *)
  i_sp : list bytes      (** and back *)
}.

Definition set_links (m : gmap nat Link) (st : Ims) : Ims :=
  mkIms m (i_hss st) (i_sc st) (i_pc st) (i_ps st) (i_sp st).
Definition set_pc (p : PcscfNode) (st : Ims) : Ims :=
  mkIms (i_links st) (i_hss st) (i_sc st) p (i_ps st) (i_sp st).

(** ** Steps *)

Definition step_node {S} (h : H S unit) (s : S) : option (S * list (Peer * bytes)) :=
  match h (s, []) with Ok (_, (s', w)) => Some (s', outs w) | _ => None end.

Definition frames_for (p : Peer) (fs : list (Peer * bytes)) : list bytes :=
  omap (fun '(p', f) => if decide (p = p') then Some f else None) fs.

Definition set_link (i : nat) (l : Link) (st : Ims) : Ims := set_links (<[i := l]> (i_links st)) st.

(** A phone acts: its frames go up. *)
Definition phone_acts (i : nat) (l : Link) (down : list bytes) (h : H UeSimulator unit) (st : Ims) :
    option Ims :=
  '(u, fs) ← step_node h (l_ue l);
  Some (set_link i (mkLink u (l_up l ++ frames_for ToPcscf fs) down (l_thread l)) st).

Definition thread_to (i : nat) (t : Thread) (up : list bytes) (l : Link) (st : Ims) : Ims :=
  set_link i (mkLink (l_ue l) up (l_down l) t) st.

(** The frames for each phone go down. *)
Definition down_to (i : nat) (fs : list (Peer * bytes)) (l : Link) : Link :=
  mkLink (l_ue l) (l_up l) (l_down l ++ frames_for (ToUe i) fs) (l_thread l).

Definition push_down (fs : list (Peer * bytes)) (m : gmap nat Link) : gmap nat Link :=
  map_imap (fun i l => Some (down_to i fs l)) m.

(** What the HSS answers to a frame. *)
Definition hss_answer (h : ImsHssNode) (f : bytes) : option bytes :=
  p ← recv_payload f;
  '(_, fs) ← step_node (ihss_receive p) h;
  r ← head (frames_for ToScscf fs);
  recv_payload r.

Definition hss_next (h : ImsHssNode) (f : bytes) : ImsHssNode :=
  match recv_payload f ≫= fun p => step_node (ihss_receive p) h with
  | Some (h', _) => h'
  | None => h
  end.

Inductive Label : Type :=
| Cmd (i : nat) (c : Command)
| Console (line : bytes)
| UeRx (i : nat)
| PcTake (i : nat) | PcForward (i : nat) | PcFinish (i : nat)
| PcRx
| ScRx.

(** The thread's part before the forwarding, and the part after. *)
Definition take_request (i : nat) (p : bytes) (s : PcscfNode) : option PcscfNode :=
  match sip_parse from_ue_tags p with
  | Ok l => fst <$> step_node (from_ue_before (sip_type p) i l) s
  | _ => None
  end.
Definition finish_request (i : nat) (p : bytes) (s : PcscfNode) : option PcscfNode :=
  match sip_parse from_ue_tags p with
  | Ok l => fst <$> step_node (from_ue_after (sip_type p) i l) s
  | _ => None
  end.

Definition exec (lb : Label) (st : Ims) : option Ims :=
  match lb with
  | Cmd i c => l ← i_links st !! i; phone_acts i l (l_down l) (do_command c) st
  | Console line =>
      Some (mkIms (i_links st) (i_hss st) (console line (i_sc st)) (i_pc st) (i_ps st) (i_sp st))
  | UeRx i =>
      l ← i_links st !! i;
      match l_down l with
      | [] => None
      | f :: fs => p ← recv_payload f; phone_acts i l fs (handleIncoming p) st
      end
  | PcTake i =>
      l ← i_links st !! i;
      match l_thread l, l_up l with
      | Receiving, f :: fs =>
          p ← recv_payload f;
          pc ← take_request i p (i_pc st);
          Some (thread_to i (Forwarding p) fs l (set_pc pc st))
      | _, _ => None
      end
  | PcForward i =>
      l ← i_links st !! i;
      match l_thread l with
      | Forwarding p =>
          '(pc, fs) ← step_node (sendToScscf p) (i_pc st);
          let st := thread_to i (Finishing p) (l_up l) l (set_pc pc st) in
          Some (mkIms (i_links st) (i_hss st) (i_sc st) (i_pc st)
                  (i_ps st ++ frames_for ToScscf fs) (i_sp st))
      | _ => None
      end
  | PcFinish i =>
      l ← i_links st !! i;
      match l_thread l with
      | Finishing p =>
          pc ← finish_request i p (i_pc st);
          Some (thread_to i Receiving (l_up l) l (set_pc pc st))
      | _ => None
      end
  | PcRx =>
      match i_sp st with
      | [] => None
      | f :: sp =>
          p ← recv_payload f;
          '(pc, fs) ← step_node (handleFromScscf p) (i_pc st);
          Some (mkIms (push_down fs (i_links st)) (i_hss st) (i_sc st) pc (i_ps st) sp)
      end
  | ScRx =>
      match i_ps st with
      | [] => None
      | f :: ps =>
          p ← recv_payload f;
          '(sc, fs) ← step_node (scscf_receive (hss_answer (i_hss st)) p) (i_sc st);
          Some (mkIms (i_links st) (foldl hss_next (i_hss st) (frames_for ToHss fs)) sc (i_pc st)
                  ps (i_sp st ++ frames_for ToPcscf fs))
      end
  end.

Fixpoint run (ls : list Label) (st : Ims) : option Ims :=
  match ls with
  | [] => Some st
  | lb :: ls' => st' ← exec lb st; run ls' st'
  end.

(** The steps the users and the operator do not take. *)
Definition internal (lb : Label) : bool :=
  match lb with Cmd _ _ | Console _ => false | _ => true end.

Definition int_step (st st' : Ims) : Prop := exists lb, internal lb = true /\ exec lb st = Some st'.

(** A phone connects. *)
Definition connect (c : UeConfig) (st : Ims) : Ims :=
  mkIms (<[length (ue_sessions_ (i_pc st)) := mkLink (newUe c) [] [] Receiving]> (i_links st))
    (i_hss st) (i_sc st) (accept_ue (i_pc st)) (i_ps st) (i_sp st).

Definition ims_start : Ims := mkIms ∅ newImsHss newScscf newPcscf [] [].

Example two_phones_talk :
  let st := connect CFG_B (connect CFG_A ims_start) in
  let reg i := [Cmd i REG; PcTake i; PcForward i; PcFinish i; ScRx; PcRx; UeRx i] in
  let call := [Cmd 0 (CALL (str "B")); PcTake 0; PcForward 0; PcFinish 0; ScRx; PcRx; PcRx; PcRx;
               UeRx 0; UeRx 0; UeRx 0; UeRx 1] in
  let answer := [Cmd 1 ACCEPT; PcTake 1; PcForward 1; PcFinish 1; ScRx; PcRx; UeRx 0;
                 PcTake 0; PcForward 0; PcFinish 0; ScRx; PcRx; UeRx 1] in
  (fun st => (fun l => state_ (l_ue l)) <$> i_links st)
    <$> run (reg 0%nat ++ reg 1%nat ++ call ++ answer) st
  = Some (<[0%nat := IN_CALL]> {[1%nat := IN_CALL]}).
Proof. vm_compute. reflexivity. Qed.

(** ** Lemmas: steps *)

Lemma step_delivers {S} (h : H S unit) (s s' : S) (fs : list (Peer * bytes)) :
  delivers h s s' fs -> step_node h s = Some (s', fs).
Proof. intros (w & E & Ew). unfold step_node. rewrite E, Ew. reflexivity. Qed.

Lemma push_down_lookup (fs : list (Peer * bytes)) (m : gmap nat Link) (i : nat) :
  push_down fs m !! i = down_to i fs <$> m !! i.
Proof. unfold push_down. rewrite map_lookup_imap. destruct (m !! i); reflexivity. Qed.

Lemma frames_for_app (p : Peer) (fs gs : list (Peer * bytes)) :
  frames_for p (fs ++ gs) = frames_for p fs ++ frames_for p gs.
Proof. apply omap_app. Qed.

Lemma frames_for_hit (p : Peer) (f : bytes) (fs : list (Peer * bytes)) :
  frames_for p ((p, f) :: fs) = f :: frames_for p fs.
Proof. unfold frames_for. cbn. rewrite decide_True by reflexivity. reflexivity. Qed.

Lemma frames_for_miss (p p' : Peer) (f : bytes) (fs : list (Peer * bytes)) :
  p <> p' -> frames_for p ((p', f) :: fs) = frames_for p fs.
Proof. intros H. unfold frames_for. cbn. rewrite decide_False by exact H. reflexivity. Qed.

Lemma frames_for_nil (p : Peer) : frames_for p [] = [].
Proof. reflexivity. Qed.

(** Short fields make a message that is received. *)
Definition small (fs : fields) : Prop :=
  Z.of_nat (length fs) <= 8 /\ Forall (fun f => Z.of_nat (length f.2) <= 4000) fs.

Lemma small_wf (fs : fields) : small fs -> wf_fields_sip fs.
Proof. intros [_ H]. eapply List.Forall_impl; [|exact H]. cbn. intros; lia. Qed.

Lemma small_len (fs : fields) : small fs -> Z.of_nat (fields_len fs) <= 65528.
Proof.
  intros [Hn H]. assert (E : Z.of_nat (fields_len fs) <= 4004 * Z.of_nat (length fs)).
  { clear Hn. induction H as [|[t v] fs Hv _ IH]; cbn [fields_len length snd] in *; lia. }
  lia.
Qed.

Lemma recv_small (type : SipMsgType) (seq : Z) (fs : fields) :
  small fs -> recv_payload (msg_frame type seq fs) = Some (enc_sip type seq fs).
Proof. intros H. apply recv_message; [apply small_wf|apply small_len]; exact H. Qed.

Lemma recv_small_forward (type : SipMsgType) (seq : Z) (fs : fields) :
  small fs -> recv_payload (payload_frame (enc_sip type seq fs)) = Some (enc_sip type seq fs).
Proof. intros H. apply recv_forward, small_len. exact H. Qed.

Lemma parse_small (tags : list SipTag) (type : SipMsgType) (seq : Z) (fs : fields) :
  small fs -> in_u 32 seq -> sip_parse tags (enc_sip type seq fs) = Ok (sip_locals tags fs no_locals).
Proof. intros H Hs. apply sip_parse_enc; [exact Hs|apply small_wf; exact H]. Qed.

(** The HSS has an answer to every request of the S-CSCF. *)
Lemma hss_answers (h : ImsHssNode) (s : ScscfNode) (i j : bytes) :
  in_u 32 (ihss_next_seq_ h) -> in_u 32 (sc_next_seq_ s) -> small [(CX_IMPU, i); (CX_IMPI, j)] ->
  hss_answer h (sar_frame s i j) =
  Some (enc_sip DIA_CX_SAA (ihss_next_seq_ h) [(CX_SCSCF_NAME, hss_profile)]).
Proof.
  intros Hh Hs Hf. unfold hss_answer, sar_frame. rewrite recv_small by exact Hf. cbn [mbind option_bind].
  assert (E : step_node (ihss_receive (enc_sip DIA_CX_SAR (sc_next_seq_ s) [(CX_IMPU, i); (CX_IMPI, j)])) h
              = Some (mkImsHss (u32 (ihss_next_seq_ h + 1)),
                      [(ToScscf, msg_frame DIA_CX_SAA (ihss_next_seq_ h) [(CX_SCSCF_NAME, hss_profile)])])).
  { pose proof (hss_answers_sar h (sc_next_seq_ s) i j Hs (small_wf _ Hf)) as E.
    unfold run_node in E. unfold step_node.
    destruct (ihss_receive _ (h, [])) as [[[] [h' w]]| | |]; try discriminate.
    injection E as -> ->. reflexivity. }
  rewrite E. cbn [mbind option_bind head]. rewrite frames_for_hit. cbn [head mbind option_bind].
  apply recv_small. split; [cbn; lia|]. apply List.Forall_cons; [|apply List.Forall_nil].
  apply Z.leb_le. vm_compute. reflexivity.
Qed.

(** ** Views: a phone of the system, another one if there is, the queues *)

Record view (a b : nat) (la : Link) (lb : option Link) (sc : ScscfNode) (pc : PcscfNode) (ps sp : list bytes)
    (st : Ims) : Prop := {
  v_a : i_links st !! a = Some la;
  v_b : i_links st !! b = lb;
  v_sc : i_sc st = sc;
  v_pc : i_pc st = pc;
  v_ps : i_ps st = ps;
  v_sp : i_sp st = sp;
  v_hss : in_u 32 (ihss_next_seq_ (i_hss st))
}.

Lemma hss_next_range (h : ImsHssNode) (f : bytes) :
  in_u 32 (ihss_next_seq_ h) -> in_u 32 (ihss_next_seq_ (hss_next h f)).
Proof.
  intros Hh. unfold hss_next, mbind, option_bind. destruct (recv_payload f) as [p|]; [|exact Hh].
  destruct (step_node (ihss_receive p) h) as [[h' fs]|] eqn:E; [|exact Hh].
  assert (K : keeps (fun h => in_u 32 (ihss_next_seq_ h)) (ihss_receive p)).
  { unfold ihss_receive, handleSAR, ihss_seq. keeps_tac. apply keeps_modify. intros. apply u32_range. }
  unfold step_node in E. destruct (ihss_receive p (h, [])) as [[[] [h1 w]]| | |] eqn:E1; try discriminate.
  injection E as <- _. exact (K _ _ _ _ _ Hh E1).
Qed.

Lemma hss_nexts_range (fs : list bytes) (h : ImsHssNode) :
  in_u 32 (ihss_next_seq_ h) -> in_u 32 (ihss_next_seq_ (foldl hss_next h fs)).
Proof.
  revert h. induction fs as [|f fs IH]; intros h Hh; cbn; [exact Hh|].
  apply IH, hss_next_range. exact Hh.
Qed.

Definition goes (lb : Label) (st : Ims) (Q : Ims -> Prop) : Prop :=
  exists st', exec lb st = Some st' /\ Q st'.

Section Views.
Context (a b : nat) (Hab : a <> b) (la : Link) (lb : option Link) (sc : ScscfNode) (pc : PcscfNode)
  (ps sp : list bytes) (st : Ims) (V : view a b la lb sc pc ps sp st).

Lemma view_swap (l : Link) : lb = Some l -> view b a l (Some la) sc pc ps sp st.
Proof. intros E. destruct V. constructor; congruence. Qed.

Lemma view_set_a (la' : Link) : view a b la' lb sc pc ps sp (set_link a la' st).
Proof.
  destruct V. constructor; cbn; try assumption.
  - apply lookup_insert_eq.
  - rewrite lookup_insert_ne by exact Hab. assumption.
Qed.

Lemma goes_cmd (c : Command) (u : UeSimulator) (fs : list (Peer * bytes)) :
  delivers (do_command c) (l_ue la) u fs ->
  goes (Cmd a c) st
    (view a b (mkLink u (l_up la ++ frames_for ToPcscf fs) (l_down la) (l_thread la)) lb sc pc ps sp).
Proof.
  intros D. unfold goes. cbn [exec]. rewrite (v_a _ _ _ _ _ _ _ _ _ V). cbn [mbind option_bind].
  unfold phone_acts. rewrite (step_delivers _ _ _ _ D). eexists. split; [reflexivity|].
  apply view_set_a.
Qed.

Lemma goes_rx (f : bytes) (fs : list bytes) (p : bytes) (u : UeSimulator) (gs : list (Peer * bytes)) :
  l_down la = f :: fs -> recv_payload f = Some p -> delivers (handleIncoming p) (l_ue la) u gs ->
  goes (UeRx a) st
    (view a b (mkLink u (l_up la ++ frames_for ToPcscf gs) fs (l_thread la)) lb sc pc ps sp).
Proof.
  intros Hd Hp D. unfold goes. cbn [exec]. rewrite (v_a _ _ _ _ _ _ _ _ _ V). cbn [mbind option_bind].
  rewrite Hd, Hp. cbn [mbind option_bind]. unfold phone_acts. rewrite (step_delivers _ _ _ _ D).
  eexists. split; [reflexivity|]. apply view_set_a.
Qed.

Lemma view_pc (pc' : PcscfNode) : view a b la lb sc pc' ps sp (set_pc pc' st).
Proof. destruct V. constructor; cbn; try assumption. reflexivity. Qed.

Lemma goes_take (f : bytes) (fs : list bytes) (p : bytes) (l : locals) :
  l_thread la = Receiving -> l_up la = f :: fs -> recv_payload f = Some p ->
  sip_parse from_ue_tags p = Ok l ->
  goes (PcTake a) st
    (view a b (mkLink (l_ue la) fs (l_down la) (Forwarding p)) lb sc
       (before_state (sip_type p) a l pc) ps sp).
Proof.
  intros Ht Hu Hp Hl. unfold goes. cbn [exec]. rewrite (v_a _ _ _ _ _ _ _ _ _ V).
  cbn [mbind option_bind]. rewrite Ht, Hu, Hp. cbn [mbind option_bind]. unfold take_request.
  rewrite Hl. destruct (before_delivers (sip_type p) a l (i_pc st) []) as (w & E & _).
  unfold step_node. rewrite E. cbn. eexists. split; [reflexivity|].
  rewrite (v_pc _ _ _ _ _ _ _ _ _ V). destruct V. constructor; cbn; try assumption; try reflexivity.
  - apply lookup_insert_eq.
  - rewrite lookup_insert_ne by exact Hab. assumption.
Qed.

Lemma goes_forward (p : bytes) :
  l_thread la = Forwarding p -> scscf_valid pc = true ->
  goes (PcForward a) st
    (view a b (mkLink (l_ue la) (l_up la) (l_down la) (Finishing p)) lb sc pc
       (ps ++ [payload_frame p]) sp).
Proof.
  intros Ht Hv. unfold goes. cbn [exec]. rewrite (v_a _ _ _ _ _ _ _ _ _ V).
  cbn [mbind option_bind]. rewrite Ht. unfold step_node, sendToScscf. run_h.
  rewrite (v_pc _ _ _ _ _ _ _ _ _ V), Hv. run_h. cbn. eexists. split; [reflexivity|].
  destruct V. constructor; cbn; try assumption; try reflexivity.
  - apply lookup_insert_eq.
  - rewrite lookup_insert_ne by exact Hab. assumption.
  - f_equal; assumption.
Qed.

Lemma goes_finish (p : bytes) (l : locals) :
  l_thread la = Finishing p -> sip_parse from_ue_tags p = Ok l ->
  goes (PcFinish a) st
    (view a b (mkLink (l_ue la) (l_up la) (l_down la) Receiving) lb sc
       (after_state (sip_type p) l pc) ps sp).
Proof.
  intros Ht Hl. unfold goes. cbn [exec]. rewrite (v_a _ _ _ _ _ _ _ _ _ V).
  cbn [mbind option_bind]. rewrite Ht. unfold finish_request. rewrite Hl.
  destruct (after_delivers (sip_type p) a l (i_pc st) []) as (w & E & _).
  unfold step_node. rewrite E. cbn. eexists. split; [reflexivity|].
  rewrite (v_pc _ _ _ _ _ _ _ _ _ V). destruct V. constructor; cbn; try assumption; try reflexivity.
  - apply lookup_insert_eq.
  - rewrite lookup_insert_ne by exact Hab. assumption.
Qed.

Lemma goes_pc_rx (f : bytes) (sp' : list bytes) (p : bytes) (pc' : PcscfNode)
    (fs : list (Peer * bytes)) :
  sp = f :: sp' -> recv_payload f = Some p -> delivers (handleFromScscf p) pc pc' fs ->
  goes PcRx st
    (view a b (down_to a fs la) (down_to b fs <$> lb) sc pc' ps sp').
Proof.
  intros Hsp Hp D. unfold goes. cbn [exec]. rewrite (v_sp _ _ _ _ _ _ _ _ _ V), Hsp, Hp.
  cbn [mbind option_bind]. rewrite (v_pc _ _ _ _ _ _ _ _ _ V), (step_delivers _ _ _ _ D).
  eexists. split; [reflexivity|]. destruct V as [Ha Hb ? ? ? ? ?].
  constructor; cbn; try assumption; try reflexivity; rewrite push_down_lookup.
  - rewrite Ha. reflexivity.
  - rewrite Hb. reflexivity.
Qed.

Lemma goes_sc_rx (f : bytes) (ps' : list bytes) (p : bytes) (sc' : ScscfNode)
    (fs : list (Peer * bytes)) :
  ps = f :: ps' -> recv_payload f = Some p ->
  delivers (scscf_receive (hss_answer (i_hss st)) p) sc sc' fs ->
  goes ScRx st (view a b la lb sc' pc ps' (sp ++ frames_for ToPcscf fs)).
Proof.
  intros Hps Hp D. unfold goes. cbn [exec]. rewrite (v_ps _ _ _ _ _ _ _ _ _ V), Hps, Hp.
  cbn [mbind option_bind]. rewrite (v_sc _ _ _ _ _ _ _ _ _ V), (step_delivers _ _ _ _ D).
  eexists. split; [reflexivity|]. destruct V. constructor; cbn; try assumption; try reflexivity.
  - congruence.
  - apply hss_nexts_range. assumption.
Qed.

End Views.

(** A schedule is run step by step. *)
Definition runs (ls : list Label) (st : Ims) (Q : Ims -> Prop) : Prop :=
  exists st', run ls st = Some st' /\ Q st'.

Lemma runs_nil (st : Ims) (Q : Ims -> Prop) : Q st -> runs [] st Q.
Proof. intros H. exists st. auto. Qed.

Lemma runs_cons (lb : Label) (ls : list Label) (st : Ims) (P Q : Ims -> Prop) :
  goes lb st P -> (forall st', P st' -> runs ls st' Q) -> runs (lb :: ls) st Q.
Proof.
  intros (st1 & E & HP) H. destruct (H st1 HP) as (st' & E' & HQ). exists st'. split; [|exact HQ].
  cbn [run]. rewrite E. exact E'.
Qed.

Lemma runs_app (ls ls' : list Label) (st : Ims) (P Q : Ims -> Prop) :
  runs ls st P -> (forall st', P st' -> runs ls' st' Q) -> runs (ls ++ ls') st Q.
Proof.
  revert st. induction ls as [|lb ls IH]; intros st (st1 & E & HP) H; cbn [app run] in *.
  - injection E as ->. apply H. exact HP.
  - destruct (exec lb st) as [st0|] eqn:E0; [|discriminate]. cbn in E.
    destruct (IH st0 (ex_intro _ st1 (conj E HP)) H) as (st' & E' & HQ). exists st'.
    split; [|exact HQ]. cbn [run]. rewrite E0. exact E'.
Qed.

(** A phone that talks to nobody. *)
Definition idle_link (u : UeSimulator) : Link := mkLink u [] [] Receiving.

Ltac simpl_frames_in H :=
  rewrite ?frames_for_app in H;
  repeat first [ rewrite frames_for_hit in H
               | rewrite frames_for_miss in H by congruence
               | rewrite frames_for_nil in H ].
Ltac simpl_view H :=
  unfold down_to, idle_link in H; cbn [l_ue l_up l_down l_thread app fmap option_fmap option_map] in H;
  simpl_frames_in H; rewrite ?app_nil_r in H; cbn [app] in H.

(** The P-CSCF's thread takes a request of a phone through. *)
Lemma runs_request (a b : nat) (la : Link) (lb : option Link) (sc : ScscfNode) (pc : PcscfNode)
    (ps sp up : list bytes) (st : Ims) (type : SipMsgType) (seq : Z) (fs : fields)
    (ls : list Label) (Q : Ims -> Prop) :
  a <> b -> view a b la lb sc pc ps sp st ->
  l_thread la = Receiving -> l_up la = msg_frame type seq fs :: up ->
  small fs -> in_u 32 seq -> scscf_valid pc = true ->
  let l := sip_locals from_ue_tags fs no_locals in
  (forall st', view a b (mkLink (l_ue la) up (l_down la) Receiving) lb sc
                 (after_state (Some type) l (before_state (Some type) a l pc))
                 (ps ++ [payload_frame (enc_sip type seq fs)]) sp st' -> runs ls st' Q) ->
  runs (PcTake a :: PcForward a :: PcFinish a :: ls) st Q.
Proof.
  intros Hab V Ht Hup Hsm Hs Hv l K.
  pose proof (parse_small from_ue_tags type seq fs Hsm Hs) as Hl. fold l in Hl.
  pose proof (sip_type_enc type seq fs Hs) as Htype. set (p := enc_sip type seq fs) in *.
  eapply runs_cons.
  { exact (goes_take a b Hab _ _ _ _ _ _ _ V _ up p l Ht Hup (recv_small _ _ _ Hsm) Hl). }
  clear V. intros st2 V. rewrite Htype in V. eapply runs_cons.
  { apply (goes_forward a b Hab _ _ _ _ _ _ _ V p eq_refl). exact (eq_trans (before_valid _ _ _ _) Hv). }
  clear V. intros st3 V. eapply runs_cons.
  { exact (goes_finish a b Hab _ _ _ _ _ _ _ V p l eq_refl Hl). }
  clear V. intros st4 V. rewrite Htype in V. apply K. exact V.
Qed.

(** ** Registration *)

(** A configuration of the program. *)
Definition known (c : UeConfig) : Prop := c = CFG_A \/ c = CFG_B \/ c = CFG_C.

(** Lengths of closed texts. *)
Ltac short :=
  match goal with |- ?x <= ?n => apply Z.leb_le; vm_compute; reflexivity end.
Ltac small_closed :=
  split; [cbn; lia|]; repeat (apply List.Forall_cons; [cbn [fst snd]; short|]); apply List.Forall_nil.

Definition register_fields (c : UeConfig) : fields :=
  [(SIP_FROM, cfg_impu c); (SIP_IMPU, cfg_impu c); (SIP_IMPI, cfg_impi c);
   (SIP_CONTACT, str "sip:ue@" ++ ip c ++ str ":5060")].

Lemma register_small (c : UeConfig) : known c -> small (register_fields c).
Proof. intros [-> | [-> | ->]]; small_closed. Qed.

Lemma sar_small (c : UeConfig) : known c -> small [(CX_IMPU, cfg_impu c); (CX_IMPI, cfg_impi c)].
Proof. intros [-> | [-> | ->]]; small_closed. Qed.

Definition reg_ok_fields (c : UeConfig) : fields :=
  response_fields (str "reg-" ++ cfg_impu c) (cfg_impu c) (cfg_impu c) (str "REGISTER") [].

Lemma reg_ok_small (c : UeConfig) : known c -> small (reg_ok_fields c).
Proof. intros [-> | [-> | ->]]; small_closed. Qed.

Lemma impu_nonempty (c : UeConfig) : known c -> cfg_impu c <> [].
Proof. intros [-> | [-> | ->]]; discriminate. Qed.

Lemma reg_ok_goes (c : UeConfig) (s : PcscfNode) :
  known c ->
  destinations (Some SIP_200_OK) (sip_locals from_scscf_tags (reg_ok_fields c) no_locals) s
  = [cfg_impu c].
Proof. intros [-> | [-> | ->]]; reflexivity. Qed.

Definition registration (a : nat) : list Label :=
  [Cmd a REG; PcTake a; PcForward a; PcFinish a; ScRx; PcRx; UeRx a].

Definition subscriber_of (c : UeConfig) : ImsSubscriber :=
  mkSub (cfg_impu c) (cfg_impi c) (str "sip:ue@" ++ ip c ++ str ":5060") [] true.

(** What every state of the system keeps of its counters. *)
Definition counters (st : Ims) : Prop :=
  in_u 32 (ihss_next_seq_ (i_hss st)) /\ in_u 32 (sc_next_seq_ (i_sc st))
  /\ in_u 32 (pc_next_seq_ (i_pc st)).

Definition registered_at (a : nat) (u : UeSimulator) (st : Ims) : Prop :=
  let c := cfg_ u in
  i_links st !! a = Some (idle_link u) /\ state_ u = REGISTERED
  /\ ue_by_impu_ (i_pc st) !! cfg_impu c = Some a
  /\ registry_ (i_sc st) !! cfg_impu c = Some (subscriber_of c)
  /\ i_ps st = [] /\ i_sp st = [].

(** What a REGISTER of a known phone makes the S-CSCF do, in whatever state the
    HSS answers it. *)
Definition registered_sc (c : UeConfig) (s : ScscfNode) : ScscfNode :=
  tick (set_registry (<[cfg_impu c := subscriber_of c]> (registry_ s)) (tick s)).

Lemma scscf_registers (c : UeConfig) (seq : Z) (h : ImsHssNode) (s : ScscfNode) :
  known c -> in_u 32 seq -> in_u 32 (ihss_next_seq_ h) -> in_u 32 (sc_next_seq_ s) ->
  delivers (scscf_receive (hss_answer h) (enc_sip SIP_REGISTER seq (register_fields c))) s
    (registered_sc c s)
    [(ToHss, sar_frame s (cfg_impu c) (cfg_impi c));
     (ToPcscf, msg_frame SIP_200_OK (u32 (sc_next_seq_ s + 1)) (reg_ok_fields c))].
Proof.
  intros Hc Hseq Hh Hs. unfold scscf_receive. rewrite sip_type_enc by exact Hseq.
  apply (register_ignores_hss _ _ (sip_locals [SIP_IMPU; SIP_IMPI; SIP_CONTACT] (register_fields c) no_locals)).
  - apply parse_small; [apply register_small; exact Hc|exact Hseq].
  - intros p' Ep. exists (sip_locals [CX_SCSCF_NAME] [(CX_SCSCF_NAME, hss_profile)] no_locals).
    pose proof (eq_trans (eq_sym Ep) (hss_answers h s (cfg_impu c) (cfg_impi c) Hh Hs (sar_small c Hc))) as E.
    injection E as ->. apply parse_small; [small_closed|exact Hh].
Qed.

(** The P-CSCF once it has passed the REGISTER on. *)
Definition registering_pc (c : UeConfig) (a : nat) (s : PcscfNode) : PcscfNode :=
  let l := sip_locals from_ue_tags (register_fields c) no_locals in
  after_state (Some SIP_REGISTER) l (before_state (Some SIP_REGISTER) a l s).

Lemma registering_route (c : UeConfig) (a : nat) (s : PcscfNode) :
  ue_by_impu_ (registering_pc c a s) !! cfg_impu c = Some a.
Proof. exact (eq_trans (before_route a _ s (cfg_impu c)) (decide_True _ _ eq_refl)). Qed.

(** The state the last step of a registration leaves. *)
Lemma registered_view (a b : nat) (u : UeSimulator) (lb : option Link) (s : ScscfNode) (pc : PcscfNode) (st : Ims) :
  ue_by_impu_ pc !! cfg_impu (cfg_ u) = Some a -> state_ u = REGISTERED ->
  view a b (idle_link u) lb (registered_sc (cfg_ u) s)
    (after_answer (Some SIP_200_OK) (sip_locals from_scscf_tags (reg_ok_fields (cfg_ u)) no_locals) pc) [] [] st ->
  registered_at a u st.
Proof.
  intros Hr Hs V. destruct V. unfold registered_at. split; [assumption|]. split; [exact Hs|].
  rewrite v_pc0, v_sc0. split; [|split; [apply lookup_insert_eq|auto]].
  cbn [after_answer].
  change (bool_decide (sip_locals from_scscf_tags (reg_ok_fields (cfg_ u)) no_locals SIP_REASON = str "REGISTER"))
    with true.
  cbn [after_answer]. rewrite mark_route. exact Hr.
Qed.

(** C4. A phone that is not in a call registers: after the steps of
    [registration], all of which the code takes, it is REGISTERED, the P-CSCF
    routes its identity to it, the S-CSCF has it in its registry, and nothing
    is under way. *)
Theorem registration_end_to_end (st : Ims) (a : nat) (u : UeSimulator)
    (Hu : i_links st !! a = Some (idle_link u)) (Hst : state_ u <> IN_CALL)
    (Hc : known (cfg_ u)) (Hseq : in_u 32 (ue_next_seq_ u))
    (Hq : i_ps st = [] /\ i_sp st = []) (Hn : counters st) (Hv : scscf_valid (i_pc st) = true) :
  runs (registration a) st (registered_at a (ue_tick (set_state REGISTERED u))).
Proof.
  destruct Hq as [Hps Hsp]. destruct Hn as (Hnh & Hns & _).
  set (b := fresh (dom (i_links st) ∪ {[a]})).
  assert (Hb : b ∉ dom (i_links st) ∪ {[a]}) by apply is_fresh.
  assert (Hab : a <> b) by (intros E; apply Hb; rewrite <- E; set_solver).
  assert (V : view a b (idle_link u) None (i_sc st) (i_pc st) [] [] st).
  { constructor; auto. apply not_elem_of_dom. set_solver. }
  set (c := cfg_ u) in *. pose proof (register_small c Hc) as Hsm. pose proof (reg_ok_small c Hc) as Hsm2.
  (* the command *)
  eapply runs_cons.
  { eapply (goes_cmd a b Hab _ _ _ _ _ _ _ V REG). pose proof (command_step REG u) as D.
    cbn [accepted] in D. rewrite bool_decide_false in D by exact Hst. exact D. }
  clear V. intros st1 V1. simpl_view V1.
  change (command_frame REG u) with (msg_frame SIP_REGISTER (ue_next_seq_ u) (register_fields c)) in V1.
  eapply (runs_request a b _ _ _ _ _ _ _ _ _ _ _ _ _ Hab V1 eq_refl eq_refl Hsm Hseq Hv).
  clear V1. intros st2 V2. simpl_view V2. fold (registering_pc c a (i_pc st)) in V2.
  (* the S-CSCF *)
  eapply runs_cons.
  { eapply (goes_sc_rx a b _ _ _ _ _ _ _ V2); [reflexivity|exact (recv_small_forward _ _ _ Hsm)|].
    exact (scscf_registers c _ _ _ Hc Hseq (v_hss _ _ _ _ _ _ _ _ _ V2) Hns). }
  clear V2. intros st3 V3. simpl_view V3.
  (* the answer *)
  eapply runs_cons.
  { eapply (goes_pc_rx a b _ _ _ _ _ _ _ V3); [reflexivity|exact (recv_small SIP_200_OK _ _ Hsm2)|].
    apply routes_deliver; [apply parse_small; [exact Hsm2|apply u32_range]|].
    rewrite sip_type_enc by apply u32_range. discriminate. }
  rewrite sip_type_enc by apply u32_range.
  clear V3. intros st4 V4. pose proof (registering_route c a (i_pc st)) as Hroute.
  rewrite (reg_ok_goes c _ Hc) in V4. unfold to_ue at 1 2 in V4. cbn [flat_map] in V4.
  rewrite Hroute in V4. simpl_view V4.
  eapply runs_cons.
  { eapply (goes_rx a b Hab _ _ _ _ _ _ _ V4); [reflexivity|exact (recv_small_forward SIP_200_OK _ _ Hsm2)|].
    apply phone_hears, parse_small; [exact Hsm2|apply u32_range]. }
  rewrite sip_type_enc by apply u32_range.
  clear V4. intros st5 V5. apply runs_nil.
  exact (registered_view a b (ue_tick (set_state REGISTERED u)) _ (i_sc st) _ st5 Hroute eq_refl V5).
Qed.

Lemma registration_end_to_end_witness :
  let u := newUe CFG_A in
  runs (registration 0) (connect CFG_A ims_start) (registered_at 0 (ue_tick (set_state REGISTERED u))).
Proof.
  intros u. apply (registration_end_to_end (connect CFG_A ims_start) 0 u); try reflexivity.
  - discriminate.
  - left. reflexivity.
  - unfold in_u; cbn; lia.
  - split; reflexivity.
  - unfold counters, in_u; cbn; lia.
Defined.
