(* ===== verification/ImsCall.v ===== *)
(** * Calls through the IMS

    Two phones of the closed system of [Ims]: setting a call up, answering
    it, changing its media, ending it.  A [dialog] is a call as the phones,
    the P-CSCF's routing and the S-CSCF's table agree on it. *)

From S2P Require Import Prelude Tlv NodeEnv Text Strings Http Sip SipText ImsEnv.
From S2P Require Import ImsHss Scscf Pcscf UeSim Ims.
#[local] Open Scope Z_scope.

(** ** A dialog between two phones *)

Definition setup (a b : nat) (t : bytes) : list Label :=
  [Cmd a (CALL t); PcTake a; PcForward a; PcFinish a; ScRx; PcRx; PcRx; PcRx; UeRx a; UeRx a; UeRx a;
   UeRx b].

Definition answering (a b : nat) : list Label :=
  [Cmd b ACCEPT; PcTake b; PcForward b; PcFinish b; ScRx; PcRx; UeRx a;
   PcTake a; PcForward a; PcFinish a; ScRx; PcRx; UeRx b].

(** What a call needs: the phones are found, and the callee takes calls. *)
Record reachable (a b : nat) (ua ub : UeSimulator) (st : Ims) : Prop := {
  r_ne : a <> b;
  r_a : i_links st !! a = Some (idle_link ua);
  r_b : i_links st !! b = Some (idle_link ub);
  r_ca : known (cfg_ ua);
  r_cb : known (cfg_ ub);
  r_ra : ue_by_impu_ (i_pc st) !! cfg_impu (cfg_ ua) = Some a;
  r_rb : ue_by_impu_ (i_pc st) !! cfg_impu (cfg_ ub) = Some b;
  r_valid : scscf_valid (i_pc st) = true;
  r_ps : i_ps st = [];
  r_sp : i_sp st = [];
  r_sa : in_u 32 (ue_next_seq_ ua);
  r_sb : in_u 32 (ue_next_seq_ ub);
  r_n : counters st
}.

(** The network knows the call, between the two, under the id both have. *)
Record dialog (a b : nat) (ua ub : UeSimulator) (id : bytes) (c : CallState) (st : Ims) : Prop := {
  d_reach : reachable a b ua ub st;
  d_named : id <> [];
  d_short : Z.of_nat (length id) <= 100;
  d_ida : current_call_id_ ua = id;
  d_idb : current_call_id_ ub = id;
  d_callee : callee_impu_ ua = cfg_impu (cfg_ ub);
  d_caller_p : call_to_caller_ (i_pc st) !! id = Some (cfg_impu (cfg_ ua));
  d_callee_p : call_to_callee_ (i_pc st) !! id = Some (cfg_impu (cfg_ ub));
  d_delivered : id ∈ call_invite_delivered_ (i_pc st);
  d_call : calls_ (i_sc st) !! id = Some c;
  d_caller_s : caller_impu c = cfg_impu (cfg_ ua);
  d_callee_s : callee_impu c = cfg_impu (cfg_ ub)
}.

Definition invite_fields (c d : UeConfig) (id : bytes) : fields :=
  [(SIP_FROM, cfg_impu c); (SIP_TO, cfg_impu d); (SIP_CALL_ID, id); (SIP_SDP, offer c)].

Definition answer_fields (c d : UeConfig) (id reason : bytes) : fields :=
  response_fields id (cfg_impu c) (cfg_impu d) reason [].

Definition ring_fields (c d : UeConfig) (id : bytes) : fields :=
  [(SIP_CALL_ID, id); (SIP_FROM, cfg_impu c); (SIP_TO, cfg_impu d); (SIP_REASON, str "INVITE")].

Ltac small_id :=
  split; [cbn; lia|];
  repeat (apply List.Forall_cons; [cbn [fst snd]; first [short | lia]|]); apply List.Forall_nil.

Lemma invite_small (c d : UeConfig) (id : bytes) :
  known c -> known d -> Z.of_nat (length id) <= 100 -> small (invite_fields c d id).
Proof. intros [-> | [-> | ->]] [-> | [-> | ->]] H; small_id. Qed.

Lemma answer_small (c d : UeConfig) (id reason : bytes) :
  known c -> known d -> Z.of_nat (length id) <= 100 -> Z.of_nat (length reason) <= 100 ->
  small (answer_fields c d id reason).
Proof. intros [-> | [-> | ->]] [-> | [-> | ->]] H Hr; small_id. Qed.

Lemma ring_small (c d : UeConfig) (id : bytes) :
  known c -> known d -> Z.of_nat (length id) <= 100 -> small (ring_fields c d id).
Proof. intros [-> | [-> | ->]] [-> | [-> | ->]] H; small_id. Qed.

Lemma ID_TO_IMPU_short (t i : bytes) : ID_TO_IMPU t = Some i -> (length t <= 1)%nat.
Proof.
  unfold ID_TO_IMPU.
  destruct (bool_decide_reflect (t = str "A")) as [->|]; [intros _; vm_compute; lia|].
  destruct (bool_decide_reflect (t = str "B")) as [->|]; [intros _; vm_compute; lia|].
  destruct (bool_decide_reflect (t = str "C")) as [->|]; [intros _; vm_compute; lia|].
  discriminate.
Qed.

Lemma new_call_id_short (u : UeSimulator) (t : bytes) (i : bytes) :
  in_u 32 (ue_next_seq_ u) -> ID_TO_IMPU t = Some i -> Z.of_nat (length (new_call_id u t)) <= 100.
Proof.
  intros Hs Ht. apply ID_TO_IMPU_short in Ht. unfold new_call_id. rewrite !length_app.
  assert (Hn : (length (to_string (ue_next_seq_ u)) <= 10)%nat).
  { apply (to_string_length_le _ 9). unfold in_u in Hs. cbn. lia. }
  change (length (str "call-")) with 5%nat. change (length (str "-")) with 1%nat. cbn [length]. lia.
Qed.

Lemma new_call_id_named (u : UeSimulator) (t : bytes) : new_call_id u t <> [].
Proof. unfold new_call_id. discriminate. Qed.

(** *** Steps on messages *)

Definition wire (type : SipMsgType) (seq : Z) (fs : fields) : bytes :=
  payload_frame (enc_sip type seq fs).

Lemma msg_wire (type : SipMsgType) (seq : Z) (fs : fields) :
  small fs -> msg_frame type seq fs = wire type seq fs.
Proof. intros H. apply sip_message_frame; [apply small_wf|apply small_len]; exact H. Qed.

Lemma to_ue_some (s : PcscfNode) (p i : bytes) (k : nat) :
  ue_by_impu_ s !! i = Some k -> to_ue s p i = [(ToUe k, payload_frame p)].
Proof. intros E. unfold to_ue. rewrite E. reflexivity. Qed.

Section Messages.
Context (a b : nat) (Hab : a <> b) (la : Link) (lb : option Link) (sc : ScscfNode) (pc : PcscfNode)
  (ps sp : list bytes) (st : Ims) (V : view a b la lb sc pc ps sp st).
Context (type : SipMsgType) (seq : Z) (fs : fields) (Hsm : small fs) (Hs : in_u 32 seq).

Lemma goes_hear (down : list bytes) :
  l_down la = wire type seq fs :: down ->
  let l := sip_locals ue_tags fs no_locals in
  goes (UeRx a) st
    (view a b (mkLink (heard (Some type) l (l_ue la))
                 (l_up la ++ frames_for ToPcscf (answers (Some type) l (l_ue la))) down (l_thread la))
       lb sc pc ps sp).
Proof.
  intros Hd l. eapply (goes_rx a b Hab _ _ _ _ _ _ _ V);
    [exact Hd|exact (recv_small_forward _ _ _ Hsm)|].
  pose proof (phone_hears (enc_sip type seq fs) l (l_ue la)) as D.
  rewrite sip_type_enc in D by exact Hs. apply D. apply parse_small; [exact Hsm|exact Hs].
Qed.

Lemma goes_relay (sp' : list bytes) (ds : list bytes) :
  sp = wire type seq fs :: sp' -> type <> SIP_INVITE ->
  let l := sip_locals from_scscf_tags fs no_locals in
  destinations (Some type) l pc = ds ->
  let gs := flat_map (to_ue pc (enc_sip type seq fs)) ds in
  goes PcRx st
    (view a b (down_to a gs la) (down_to b gs <$> lb) sc (after_answer (Some type) l pc) ps sp').
Proof.
  intros Hsp Ht l Hds gs. eapply (goes_pc_rx a b _ _ _ _ _ _ _ V);
    [exact Hsp|exact (recv_small_forward _ _ _ Hsm)|].
  pose proof (routes_deliver (enc_sip type seq fs) l pc) as D.
  rewrite sip_type_enc, Hds in D by exact Hs.
  apply D; [apply parse_small; [exact Hsm|exact Hs]|]. intros [= E]. contradiction.
Qed.

Lemma goes_scscf (ps' : list bytes) (sc' : ScscfNode) (gs : list (Peer * bytes)) :
  ps = wire type seq fs :: ps' ->
  delivers (match type with
            | SIP_REGISTER => handleRegister (hss_answer (i_hss st)) (enc_sip type seq fs)
            | SIP_INVITE => handleInvite (enc_sip type seq fs)
            | SIP_ACK => handleAck (enc_sip type seq fs)
            | SIP_200_OK => handle200Ok (enc_sip type seq fs)
            | SIP_BYE => handleBye (enc_sip type seq fs)
            | SIP_CANCEL => handleUpdate (enc_sip type seq fs)
            | _ => mret tt
            end) sc sc' gs ->
  goes ScRx st (view a b la lb sc' pc ps' (sp ++ frames_for ToPcscf gs)).
Proof.
  intros Hps D. eapply (goes_sc_rx a b _ _ _ _ _ _ _ V);
    [exact Hps|exact (recv_small_forward _ _ _ Hsm)|].
  unfold scscf_receive. rewrite sip_type_enc by exact Hs. destruct type; exact D.
Qed.

End Messages.

Lemma offer_no_hold (c : UeConfig) :
  known c -> contains (str "sendonly") (offer c) || contains (str "inactive") (offer c) = false.
Proof. intros [-> | [-> | ->]]; vm_compute; reflexivity. Qed.

(** A call to a phone that is found, by a phone at rest. *)
Record callable (a b : nat) (ua ub : UeSimulator) (t : bytes) (st : Ims) : Prop := {
  c_reach : reachable a b ua ub st;
  c_state : state_ ua = REGISTERED;
  c_target : ID_TO_IMPU t = Some (cfg_impu (cfg_ ub));
  c_new : calls_ (i_sc st) !! new_call_id ua t = None;
  c_fresh : new_call_id ua t ∉ call_invite_delivered_ (i_pc st);
  c_barred : cfg_impu (cfg_ ub) ∉ barred (i_sc st)
}.

Lemma or_else_l (x y : bytes) : x <> [] -> or_else x y = x.
Proof. destruct x; [contradiction|reflexivity]. Qed.

Lemma nonempty_in (x : bytes) : x <> [] -> nonempty x = [x].
Proof. destruct x; [contradiction|reflexivity]. Qed.

(** The P-CSCF's routing after an INVITE of the session. *)
Definition routed (id caller callee : bytes) (s : PcscfNode) : PcscfNode :=
  set_maps (<[id := caller]> (call_to_caller_ s)) (<[id := callee]> (call_to_callee_ s))
    (call_invite_delivered_ s) s.

Lemma invite_routed (ses : nat) (fs : fields) (s : PcscfNode) (from to id : bytes) :
  let l := sip_locals from_ue_tags fs no_locals in
  l SIP_FROM = from -> l SIP_TO = to -> l SIP_CALL_ID = id -> from <> [] ->
  after_state (Some SIP_INVITE) l (before_state (Some SIP_INVITE) ses l s) = routed id from to s.
Proof.
  intros l <- <- <- Hf. cbn [after_state before_state]. unfold caller_in.
  rewrite or_else_l by exact Hf. reflexivity.
Qed.

(** The call is in the S-CSCF's table and its three messages are under way. *)
Definition called (id caller callee : bytes) (s : ScscfNode) : ScscfNode :=
  tick (set_calls (<[id := mkCall caller callee id false false]> (calls_ s)) (tick s)).

Definition offered (a b : nat) (ua ub : UeSimulator) (id : bytes) (sc : ScscfNode) (pc : PcscfNode)
    (st : Ims) : Prop :=
  let c := cfg_ ua in
  let d := cfg_ ub in
  view a b (idle_link (ue_tick (dial id (cfg_impu d) ua))) (Some (idle_link ub))
    (called id (cfg_impu c) (cfg_impu d) sc) (routed id (cfg_impu c) (cfg_impu d) pc) []
    [wire SIP_100_TRYING (sc_next_seq_ sc) (answer_fields c d id (str "INVITE"));
     wire SIP_INVITE (ue_next_seq_ ua) (invite_fields c d id);
     wire SIP_183_PROGRESS (u32 (sc_next_seq_ sc + 1)) (answer_fields c d id (str "INVITE"))] st.

Lemma invite_answer_small (c d : UeConfig) (id : bytes) :
  known c -> known d -> Z.of_nat (length id) <= 100 -> small (answer_fields c d id (str "INVITE")).
Proof. intros Hc Hd Hid. apply answer_small; auto. vm_compute. discriminate. Qed.

Lemma setup_offered (a b : nat) (ua ub : UeSimulator) (t : bytes) (st : Ims) (ls : list Label)
    (Q : Ims -> Prop) :
  callable a b ua ub t st ->
  (forall st', offered a b ua ub (new_call_id ua t) (i_sc st) (i_pc st) st' -> runs ls st' Q) ->
  runs ([Cmd a (CALL t); PcTake a; PcForward a; PcFinish a; ScRx] ++ ls) st Q.
Proof.
  intros [[Hab Ha Hb Hca Hcb Hra Hrb Hv Hps Hsp Hsa Hsb (Hnh & Hns & Hnp)] Hst Ht Hnew Hfresh Hbar] K.
  set (id := new_call_id ua t) in *.
  set (c := cfg_ ua) in *. set (d := cfg_ ub) in *. set (them := cfg_impu d) in *.
  assert (V : view a b (idle_link ua) (Some (idle_link ub)) (i_sc st) (i_pc st) [] [] st)
    by (constructor; first [assumption | reflexivity]).
  pose proof (new_call_id_short ua t _ Hsa Ht) as Hid. fold id in Hid.
  pose proof (invite_small c d id Hca Hcb Hid) as Hsm.
  eapply runs_cons.
  { eapply (goes_cmd a b Hab _ _ _ _ _ _ _ V (CALL t)).
    pose proof (command_step (CALL t) ua) as D. cbn [accepted] in D. rewrite Ht in D.
    rewrite bool_decide_true in D by exact Hst. exact D. }
  clear V. intros st1 V. simpl_view V.
  assert (Hcmd : command_frame (CALL t) ua = msg_frame SIP_INVITE (ue_next_seq_ ua) (invite_fields c d id)).
  { unfold command_frame, command_message, invite_fields, id_impu, command_sdp. rewrite Ht. reflexivity. }
  assert (Hdial : commanded (CALL t) ua = dial id them ua).
  { unfold commanded, id_impu. rewrite Ht. reflexivity. }
  rewrite Hcmd, Hdial in V.
  eapply (runs_request a b _ _ _ _ _ _ _ _ _ _ _ _ _ Hab V eq_refl eq_refl Hsm Hsa Hv).
  clear V. intros st2 V. simpl_view V.
  rewrite (invite_routed a (invite_fields c d id) _ (cfg_impu c) them id eq_refl eq_refl eq_refl
             (impu_nonempty c Hca)) in V.
  (* the S-CSCF *)
  pose proof (new_invite_delivers (enc_sip SIP_INVITE (ue_next_seq_ ua) (invite_fields c d id))
                (sip_locals [SIP_FROM; SIP_TO; SIP_CALL_ID; SIP_SDP] (invite_fields c d id) no_locals)
                (i_sc st) (parse_small _ _ _ _ Hsm Hsa) Hnew) as D. cbv zeta in D.
  change (isBarred _ (i_sc st)) with (isBarred them (i_sc st)) in D.
  unfold isBarred in D. rewrite bool_decide_false in D by exact Hbar.
  eapply runs_cons; [exact (goes_scscf a b _ _ _ _ _ _ _ V _ _ _ Hsm Hsa _ _ _ eq_refl D)|].
  clear V D. intros st3 V. simpl_view V. cbn [Z.eqb] in V.
  apply K. unfold offered.
  rewrite <- (msg_wire SIP_100_TRYING), <- (msg_wire SIP_183_PROGRESS)
    by (apply invite_answer_small; assumption).
  exact V.
Qed.

Lemma sip_udp_payload (type : SipMsgType) (seq : Z) (fs : fields) :
  wf_fields_sip fs -> udpPayload (sip_message type seq fs) = enc_sip type seq fs.
Proof. intros H. unfold udpPayload. rewrite sip_message_buf by exact H. reflexivity. Qed.

(** The P-CSCF delivers the INVITE and rings the caller. *)
Definition noted (id : bytes) (s : PcscfNode) : PcscfNode :=
  pc_tick (set_maps (call_to_caller_ s) (call_to_callee_ s) ({[id]} ∪ call_invite_delivered_ s) s).

Lemma goes_ring (a b : nat) (la : Link) (lb : option Link) (sc : ScscfNode) (pc : PcscfNode)
    (ps sp : list bytes) (st : Ims) (c d : UeConfig) (id : bytes) (seq : Z) :
  a <> b -> known c -> known d -> Z.of_nat (length id) <= 100 -> in_u 32 seq ->
  ue_by_impu_ pc !! cfg_impu c = Some a -> ue_by_impu_ pc !! cfg_impu d = Some b ->
  call_to_caller_ pc !! id = Some (cfg_impu c) -> call_to_callee_ pc !! id = Some (cfg_impu d) ->
  id ∉ call_invite_delivered_ pc ->
  view a b la lb sc pc ps (wire SIP_INVITE seq (invite_fields c d id) :: sp) st ->
  let gs := [(ToUe b, wire SIP_INVITE seq (invite_fields c d id));
             (ToUe a, wire SIP_180_RINGING (pc_next_seq_ pc) (ring_fields c d id))] in
  goes PcRx st (view a b (down_to a gs la) (down_to b gs <$> lb) sc (noted id pc) ps sp).
Proof.
  intros Hab Hc Hd Hid Hs Ra Rb Ca Cb Hnew V gs.
  pose proof (invite_small c d id Hc Hd Hid) as Hsm.
  eapply (goes_pc_rx a b _ _ _ _ _ _ _ V); [reflexivity|exact (recv_small_forward _ _ _ Hsm)|].
  pose proof (ringing_without_callee (enc_sip SIP_INVITE seq (invite_fields c d id))
                (sip_locals from_scscf_tags (invite_fields c d id) no_locals) pc
                (parse_small _ _ _ _ Hsm Hs) (sip_type_enc _ _ _ Hs) Hnew
                (conj (mk_is_Some _ _ Ca) (mk_is_Some _ _ Cb))) as D.
  cbv zeta in D. rewrite sip_udp_payload in D by exact (small_wf _ (ring_small c d id Hc Hd Hid)).
  unfold to_ue in D.
  change (sip_locals from_scscf_tags (invite_fields c d id) no_locals SIP_TO) with (cfg_impu d) in D.
  change (sip_locals from_scscf_tags (invite_fields c d id) no_locals SIP_FROM) with (cfg_impu c) in D.
  rewrite Ra, Rb in D. exact D.
Qed.

Lemma provisional_goes (c d : UeConfig) (id : bytes) (pc : PcscfNode) (type : SipMsgType) :
  known c -> call_to_caller_ pc !! id = Some (cfg_impu c) ->
  type = SIP_100_TRYING \/ type = SIP_183_PROGRESS ->
  destinations (Some type)
    (sip_locals from_scscf_tags (answer_fields c d id (str "INVITE")) no_locals) pc = [cfg_impu c].
Proof.
  intros Hc E Ht.
  assert (G : forall f, nonempty (or_else (caller_of id pc) f) = [cfg_impu c]).
  { intros f. unfold caller_of. rewrite E. destruct Hc as [-> | [-> | ->]]; reflexivity. }
  destruct Ht as [-> | ->]; apply G.
Qed.

Lemma setup_delivered (a b : nat) (ua ub : UeSimulator) (t : bytes) (st0 st : Ims) :
  callable a b ua ub t st0 ->
  let id := new_call_id ua t in
  let me := cfg_impu (cfg_ ua) in
  offered a b ua ub id (i_sc st0) (i_pc st0) st ->
  runs [PcRx; PcRx; PcRx; UeRx a; UeRx a; UeRx a; UeRx b] st
    (dialog a b (ue_tick (dial id (cfg_impu (cfg_ ub)) ua)) (ring me id ub) id
       (mkCall me (cfg_impu (cfg_ ub)) id false false)).
Proof.
  intros [[Hab _ _ Hca Hcb Hra Hrb Hv _ _ Hsa Hsb (Hnh & Hns & Hnp)] Hst Ht Hnew Hfresh _] id me V.
  unfold offered in V. set (c := cfg_ ua) in *. set (d := cfg_ ub) in *. set (them := cfg_impu d) in *.
  pose proof (new_call_id_short ua t _ Hsa Ht) as Hid. fold id in Hid, Hfresh, Hnew.
  pose proof (invite_answer_small c d id Hca Hcb Hid) as Hans.
  set (pc1 := routed id me them (i_pc st0)) in V.
  assert (Hcaller : call_to_caller_ pc1 !! id = Some me) by apply lookup_insert_eq.
  assert (Hcallee : call_to_callee_ pc1 !! id = Some them) by apply lookup_insert_eq.
  eapply runs_cons.
  { eapply (goes_relay a b _ _ _ _ _ _ _ V SIP_100_TRYING);
      [exact Hans|exact Hns|reflexivity|discriminate|apply provisional_goes; auto]. }
  clear V. intros st4 V. cbn [flat_map] in V. rewrite (to_ue_some pc1 _ me a Hra) in V. simpl_view V.
  eapply runs_cons.
  { apply (goes_ring a b _ _ _ _ _ _ _ c d id _ Hab Hca Hcb Hid Hsa) in V; [exact V|assumption..]. }
  clear V. intros st5 V. simpl_view V.
  eapply runs_cons.
  { eapply (goes_relay a b _ _ _ _ _ _ _ V SIP_183_PROGRESS);
      [exact Hans|apply u32_range|reflexivity|discriminate|apply provisional_goes; auto]. }
  clear V. intros st6 V. cbn [flat_map] in V. rewrite (to_ue_some (noted id pc1) _ me a Hra) in V.
  simpl_view V.
  eapply runs_cons.
  { eapply (goes_hear a b Hab _ _ _ _ _ _ _ V SIP_100_TRYING); [exact Hans|exact Hns|reflexivity]. }
  clear V. intros st7 V. simpl_view V.
  eapply runs_cons.
  { eapply (goes_hear a b Hab _ _ _ _ _ _ _ V SIP_180_RINGING);
     [exact (ring_small c d id Hca Hcb Hid)|exact Hnp|reflexivity]. }
  clear V. intros st8 V. simpl_view V.
  eapply runs_cons.
  { eapply (goes_hear a b Hab _ _ _ _ _ _ _ V SIP_183_PROGRESS); [exact Hans|apply u32_range|reflexivity]. }
  clear V. intros st9 V. simpl_view V.
  pose proof (view_swap a b _ _ _ _ _ _ _ V _ eq_refl) as W. clear V.
  eapply runs_cons.
  { eapply (goes_hear b a (not_eq_sym Hab) _ _ _ _ _ _ _ W SIP_INVITE);
      [exact (invite_small c d id Hca Hcb Hid)|exact Hsa|reflexivity]. }
  clear W. intros st10 W. simpl_view W.
  change (answers _ _ _) with (@nil (Peer * bytes)) in W.
  assert (Hring : heard (Some SIP_INVITE) (sip_locals ue_tags (invite_fields c d id) no_locals) ub
                  = ring me id ub).
  { cbn [heard]. change (sip_locals _ _ _ SIP_SDP) with (offer c). rewrite offer_no_hold by exact Hca.
    reflexivity. }
  rewrite Hring in W. destruct W as [Wb Wa Wsc Wpc Wps Wsp Wh]. apply runs_nil.
  constructor; [constructor|..]; rewrite ?Wsc, ?Wpc; try assumption; try reflexivity.
  - apply u32_range.
  - unfold counters. rewrite Wsc, Wpc. repeat split; try apply Wh; try apply u32_range.
  - apply new_call_id_named.
  - apply elem_of_union_l. apply elem_of_singleton. reflexivity.
  - apply lookup_insert_eq.
Qed.

Lemma setup_rings (a b : nat) (ua ub : UeSimulator) (t : bytes) (st : Ims) :
  callable a b ua ub t st ->
  let id := new_call_id ua t in
  let me := cfg_impu (cfg_ ua) in
  runs (setup a b t) st
    (dialog a b (ue_tick (dial id (cfg_impu (cfg_ ub)) ua)) (ring me id ub) id
       (mkCall me (cfg_impu (cfg_ ub)) id false false)).
Proof.
  intros C id me. apply (setup_offered a b ua ub t st _ _ C). intros st'. apply setup_delivered. exact C.
Qed.


(** *** Answering *)

Definition accept_fields (d : UeConfig) (id : bytes) : fields :=
  [(SIP_CALL_ID, id); (SIP_REASON, str "INVITE");
   (SIP_SDP, str "audio:" ++ to_stringZ (rtp_port d) ++ str "/AMR-WB/16000")].

Definition ack_fields (c d : UeConfig) (id : bytes) : fields :=
  [(SIP_CALL_ID, id); (SIP_FROM, cfg_impu c); (SIP_TO, cfg_impu d)].

Lemma accept_small (d : UeConfig) (id : bytes) :
  known d -> Z.of_nat (length id) <= 100 -> small (accept_fields d id).
Proof. intros [-> | [-> | ->]] H; small_id. Qed.

Lemma ack_small (c d : UeConfig) (id : bytes) :
  known c -> known d -> Z.of_nat (length id) <= 100 -> small (ack_fields c d id).
Proof. intros [-> | [-> | ->]] [-> | [-> | ->]] H; small_id. Qed.

Lemma accept_goes (c d : UeConfig) (id : bytes) (pc : PcscfNode) :
  known c -> call_to_caller_ pc !! id = Some (cfg_impu c) ->
  destinations (Some SIP_200_OK)
    (sip_locals from_scscf_tags (accept_fields d id) no_locals) pc = [cfg_impu c].
Proof.
  intros Hc E. cbn [destinations]. eval_text.
  change (sip_locals _ (accept_fields _ _) _ SIP_CALL_ID) with id. unfold caller_of. rewrite E.
  destruct Hc as [-> | [-> | ->]]; reflexivity.
Qed.

Lemma ack_goes (c d : UeConfig) (id : bytes) (pc : PcscfNode) :
  known d -> call_to_callee_ pc !! id = Some (cfg_impu d) ->
  destinations (Some SIP_ACK)
    (sip_locals from_scscf_tags (ack_fields c d id) no_locals) pc = [cfg_impu d].
Proof.
  intros Hd E. cbn [destinations].
  change (sip_locals _ (ack_fields _ _ _) _ SIP_CALL_ID) with id. unfold callee_of. rewrite E.
  destruct Hd as [-> | [-> | ->]]; reflexivity.
Qed.

(** The callee's 200 OK reaches the caller. *)
Lemma accept_arrives (a b : nat) (ua ub : UeSimulator) (id : bytes) (c : CallState) (st : Ims)
    (ls : list Label) (Q : Ims -> Prop) :
  dialog a b ua ub id c st -> state_ ub = RINGING ->
  (forall st', view a b
     (mkLink ua [] [wire SIP_200_OK (ue_next_seq_ ub) (accept_fields (cfg_ ub) id)] Receiving)
     (Some (idle_link (ue_tick (set_state IN_CALL ub)))) (i_sc st) (i_pc st) [] [] st' -> runs ls st' Q) ->
  runs ([Cmd b ACCEPT; PcTake b; PcForward b; PcFinish b; ScRx; PcRx] ++ ls) st Q.
Proof.
  intros [[Hab Ha Hb Hca Hcb Hra Hrb Hv Hps Hsp Hsa Hsb (Hnh & Hns & Hnp)]
    Hne Hid Ia Ib Hcallee Pa Pb Hdel Hcall Sa Sb] Hst K.
  set (ca := cfg_ ua) in *. set (cb := cfg_ ub) in *.
  assert (V : view b a (idle_link ub) (Some (idle_link ua)) (i_sc st) (i_pc st) [] [] st)
    by (constructor; first [assumption | reflexivity]).
  pose proof (accept_small cb id Hcb Hid) as Hok.
  eapply runs_cons.
  { eapply (goes_cmd b a (not_eq_sym Hab) _ _ _ _ _ _ _ V ACCEPT).
    pose proof (command_step ACCEPT ub) as D. cbn [accepted] in D.
    rewrite bool_decide_true in D by exact Hst. exact D. }
  clear V. intros st1 V. simpl_view V.
  assert (Hcmd : command_frame ACCEPT ub = msg_frame SIP_200_OK (ue_next_seq_ ub) (accept_fields cb id)).
  { unfold command_frame, command_message, accept_fields. cbn [fst snd]. rewrite Ib. reflexivity. }
  rewrite Hcmd in V. cbn [commanded] in V.
  eapply (runs_request b a _ _ _ _ _ _ _ _ _ _ _ _ _ (not_eq_sym Hab) V eq_refl eq_refl Hok Hsb Hv).
  clear V. intros st2 V. simpl_view V. cbn [after_state before_state] in V.
  eapply runs_cons.
  { eapply (goes_scscf b a _ _ _ _ _ _ _ V SIP_200_OK); [exact Hok|exact Hsb|reflexivity|].
    apply (ok_delivers _ _ _ (parse_small _ _ _ _ Hok Hsb)). }
  clear V. intros st3 V. simpl_view V.
  eapply runs_cons.
  { eapply (goes_relay b a _ _ _ _ _ _ _ V SIP_200_OK);
      [exact Hok|exact Hsb|reflexivity|discriminate|apply (accept_goes ca); assumption]. }
  clear V. intros st4 V. cbn [flat_map] in V. rewrite (to_ue_some (i_pc st) _ _ a Hra) in V.
  simpl_view V. apply K. exact (view_swap b a _ _ _ _ _ _ _ V _ eq_refl).
Qed.

(** The caller acknowledges, and both talk. *)
Lemma answer_connects (a b : nat) (ua ub : UeSimulator) (id : bytes) (c : CallState) (st : Ims) :
  dialog a b ua ub id c st -> state_ ub = RINGING ->
  runs (answering a b) st
    (dialog a b (ue_tick (set_state IN_CALL ua)) (ue_tick (set_state IN_CALL ub)) id c).
Proof.
  intros D Hst. apply (accept_arrives a b ua ub id c st _ _ D Hst). intros st1 V.
  destruct D as [[Hab Ha Hb Hca Hcb Hra Hrb Hv Hps Hsp Hsa Hsb (Hnh & Hns & Hnp)]
    Hne Hid Ia Ib Hcallee Pa Pb Hdel Hcall Sa Sb].
  set (ca := cfg_ ua) in *. set (cb := cfg_ ub) in *.
  pose proof (accept_small cb id Hcb Hid) as Hok.
  pose proof (ack_small ca cb id Hca Hcb Hid) as Hack.
  eapply runs_cons.
  { eapply (goes_hear a b Hab _ _ _ _ _ _ _ V SIP_200_OK); [exact Hok|exact Hsb|reflexivity]. }
  clear V. intros st2 V. simpl_view V.
  change (heard _ _ _) with (ue_tick (set_state IN_CALL ua)) in V.
  change (answers _ _ _) with [(ToPcscf, ack_frame ua)] in V. simpl_view V.
  assert (Hframe : ack_frame ua = msg_frame SIP_ACK (ue_next_seq_ ua) (ack_fields ca cb id)).
  { unfold ack_frame, ack_fields. rewrite Ia, Hcallee. reflexivity. }
  rewrite Hframe in V.
  eapply (runs_request a b _ _ _ _ _ _ _ _ _ _ _ _ _ Hab V eq_refl eq_refl Hack Hsa Hv).
  clear V. intros st3 V. simpl_view V. cbn [after_state before_state] in V.
  eapply runs_cons.
  { eapply (goes_scscf a b _ _ _ _ _ _ _ V SIP_ACK); [exact Hack|exact Hsa|reflexivity|].
    apply (ack_delivers _ id), sip_first_enc; [exact Hsa|apply small_wf; exact Hack]. }
  clear V. intros st4 V. rewrite Hcall in V. simpl_view V.
  eapply runs_cons.
  { eapply (goes_relay a b _ _ _ _ _ _ _ V SIP_ACK);
      [exact Hack|exact Hsa|reflexivity|discriminate|apply ack_goes; assumption]. }
  clear V. intros st5 V. cbn [flat_map] in V. rewrite (to_ue_some (i_pc st) _ _ b Hrb) in V.
  simpl_view V. pose proof (view_swap a b _ _ _ _ _ _ _ V _ eq_refl) as W. clear V.
  eapply runs_cons.
  { eapply (goes_hear b a (not_eq_sym Hab) _ _ _ _ _ _ _ W SIP_ACK); [exact Hack|exact Hsa|reflexivity]. }
  clear W. intros st6 W. simpl_view W. destruct W as [Wb Wa Wsc Wpc Wps Wsp Wh]. apply runs_nil.
  constructor; [constructor|..]; rewrite ?Wsc, ?Wpc; try assumption; try apply u32_range.
  unfold counters. rewrite Wsc, Wpc. split; [exact Wh|split; assumption].
Qed.

(** C3. A call to a registered phone whose user answers is set up: after the
    schedule of [setup] the caller is in CALLING and the callee in RINGING,
    the P-CSCF and the S-CSCF know the call under its two parties, and after
    the schedule of [answering] both phones are IN_CALL.  Every step of the
    schedules is one the code takes. *)
Theorem call_setup_end_to_end (a b : nat) (ua ub : UeSimulator) (t : bytes) (st : Ims)
    (H : callable a b ua ub t st) :
  let id := new_call_id ua t in
  let c := mkCall (cfg_impu (cfg_ ua)) (cfg_impu (cfg_ ub)) id false false in
  runs (setup a b t) st (fun st1 =>
    exists ua1 ub1, dialog a b ua1 ub1 id c st1 /\ state_ ua1 = CALLING /\ state_ ub1 = RINGING
    /\ runs (answering a b) st1 (fun st2 =>
         exists ua2 ub2, dialog a b ua2 ub2 id c st2 /\ state_ ua2 = IN_CALL /\ state_ ub2 = IN_CALL)).
Proof.
  intros id c. destruct (setup_rings a b ua ub t st H) as (st1 & E1 & D1). exists st1. split; [exact E1|].
  eexists. eexists. split; [exact D1|]. split; [reflexivity|]. split; [reflexivity|].
  destruct (answer_connects _ _ _ _ _ _ _ D1 eq_refl) as (st2 & E2 & D2). exists st2. split; [exact E2|].
  eexists. eexists. split; [exact D2|]. split; reflexivity.
Qed.

(** Two phones that registered. *)
Definition at_rest (c : UeConfig) : UeSimulator := set_state REGISTERED (newUe c).

Definition two_phones (ua ub : UeSimulator) (sc : ScscfNode) (pc : PcscfNode) : Ims :=
  mkIms (<[0%nat := idle_link ua]> {[1%nat := idle_link ub]}) newImsHss sc pc [] [].

Definition two_routes (calls callees : gmap bytes bytes) (delivered : gset bytes) : PcscfNode :=
  mkPcscf [newSes; newSes] (<[IMPU_A := 0%nat]> {[IMPU_B := 1%nat]}) calls callees delivered 1 true.

Lemma call_setup_end_to_end_witness :
  let st := two_phones (at_rest CFG_A) (at_rest CFG_B) newScscf (two_routes ∅ ∅ ∅) in
  exists st1 st2, run (setup 0 1 (str "B")) st = Some st1 /\ run (answering 0 1) st1 = Some st2
    /\ exists ua2 ub2 c, dialog 0 1 ua2 ub2 (str "call-AB-1") c st2
                         /\ state_ ua2 = IN_CALL /\ state_ ub2 = IN_CALL.
Proof.
  intros st.
  destruct (call_setup_end_to_end 0 1 (at_rest CFG_A) (at_rest CFG_B) (str "B") st
    ltac:(constructor; [constructor|..]; try reflexivity;
          try (unfold counters, in_u; cbn; lia); try discriminate;
          try (apply not_elem_of_empty); first [left; reflexivity | right; left; reflexivity]))
    as (st1 & E1 & ua1 & ub1 & _ & _ & _ & st2 & E2 & ua2 & ub2 & D).
  exists st1, st2. split; [exact E1|]. split; [exact E2|]. exists ua2, ub2. eexists. exact D.
Defined.

(** ** Changing the media *)

(** The commands of a call that send a re-INVITE with its description. *)
Definition remedia (c : Command) : bool :=
  match c with HOLD | RESUME | UPDATE | VIDEO | VOICE => true | _ => false end.

Definition remedia_kind (c : Command) : ReInvite :=
  match c with
  | HOLD => ReHold
  | VIDEO => ReVideoAdd
  | VOICE => ReVideoRemove
  | _ => ReResume
  end.

(** The state of the caller and of the callee after it. *)
Definition caller_after (c : Command) (u : UeSimulator) : UeSimulator :=
  match c with
  | RESUME | UPDATE => set_state IN_CALL (ue_tick u)
  | HOLD => set_state ON_HOLD (ue_tick u)
  | _ => ue_tick u
  end.

Definition callee_after (c : Command) (me id : bytes) (u : UeSimulator) : UeSimulator :=
  match c with
  | HOLD => u
  | RESUME | UPDATE => set_state IN_CALL (ring me id u)
  | _ => ring me id u
  end.

Definition changing (c : Command) (a b : nat) : list Label :=
  [Cmd a c; PcTake a; PcForward a; PcFinish a; ScRx; PcRx; PcRx; UeRx b; UeRx b; UeRx a].

Definition remedia_fields (c : Command) (ca cb : UeConfig) (id : bytes) : fields :=
  [(SIP_CALL_ID, id); (SIP_FROM, cfg_impu ca); (SIP_TO, cfg_impu cb);
   (SIP_SDP, command_sdp c (newUe ca))].

Lemma remedia_small (c : Command) (ca cb : UeConfig) (id : bytes) :
  remedia c = true -> known ca -> known cb -> Z.of_nat (length id) <= 100 ->
  small (remedia_fields c ca cb id).
Proof.
  intros Hc Ha Hb Hid. destruct c; try discriminate;
    destruct Ha as [-> | [-> | ->]]; destruct Hb as [-> | [-> | ->]]; small_id.
Qed.

Lemma remedia_kind_sdp (c : Command) (ca : UeConfig) :
  remedia c = true -> known ca -> reinvite_kind (command_sdp c (newUe ca)) = remedia_kind c.
Proof.
  intros Hc Ha. destruct c; try discriminate; destruct Ha as [-> | [-> | ->]]; vm_compute; reflexivity.
Qed.

(** The P-CSCF hands the INVITE of a delivered call to whom it names. *)
Lemma goes_reinvite (a b : nat) (la : Link) (lb : option Link) (sc : ScscfNode) (pc : PcscfNode)
    (ps sp : list bytes) (st : Ims) (fs : fields) (seq : Z) (id : bytes) (k : nat) :
  small fs -> in_u 32 seq ->
  sip_locals from_scscf_tags fs no_locals SIP_CALL_ID = id -> id ∈ call_invite_delivered_ pc ->
  ue_by_impu_ pc !! sip_locals from_scscf_tags fs no_locals SIP_TO = Some k ->
  view a b la lb sc pc ps (wire SIP_INVITE seq fs :: sp) st ->
  let gs := [(ToUe k, wire SIP_INVITE seq fs)] in
  goes PcRx st (view a b (down_to a gs la) (down_to b gs <$> lb) sc pc ps sp).
Proof.
  intros Hsm Hs Hid Hdel Hk V gs.
  eapply (goes_pc_rx a b _ _ _ _ _ _ _ V); [reflexivity|exact (recv_small_forward _ _ _ Hsm)|].
  unfold delivers, handleFromScscf.
  rewrite M_bind_eq, (run_read _ _ _ _ _ (parse_small from_scscf_tags SIP_INVITE seq fs Hsm Hs)).
  rewrite sip_type_enc by exact Hs. unfold invite_to_callee. run_h. rewrite Hid.
  rewrite bool_decide_true by exact Hdel. run_ue. delivered. unfold to_ue. rewrite Hk. reflexivity.
Qed.

Lemma same_routes (id from to : bytes) (s : PcscfNode) :
  call_to_caller_ s !! id = Some from -> call_to_callee_ s !! id = Some to -> routed id from to s = s.
Proof.
  intros Hf Ht. unfold routed, set_maps. rewrite !insert_id by assumption. destruct s; reflexivity.
Qed.

(** The S-CSCF's answer goes to both parties. *)
Lemma remedia_ok_goes (k : ReInvite) (ca cb : UeConfig) (id : bytes) (pc : PcscfNode) :
  k <> ReConference -> known ca -> known cb ->
  call_to_caller_ pc !! id = Some (cfg_impu ca) -> call_to_callee_ pc !! id = Some (cfg_impu cb) ->
  destinations (Some SIP_200_OK)
    (sip_locals from_scscf_tags (answer_fields ca cb id (reinvite_reason k)) no_locals) pc
  = [cfg_impu cb; cfg_impu ca].
Proof.
  intros Hk Ha Hb Ea Eb. cbn [destinations].
  change (sip_locals _ (answer_fields _ _ _ _) _ SIP_CALL_ID) with id.
  change (sip_locals _ (answer_fields _ _ _ _) _ SIP_REASON) with (reinvite_reason k).
  unfold caller_of, callee_of. rewrite Ea, Eb.
  destruct k; try contradiction; eval_text; unfold media_of; eval_text;
    destruct Ha as [-> | [-> | ->]]; destruct Hb as [-> | [-> | ->]]; reflexivity.
Qed.

Lemma remedia_no_answer (c : Command) (ca cb : UeConfig) (id : bytes) (u : UeSimulator) :
  remedia c = true ->
  answers (Some SIP_200_OK)
    (sip_locals ue_tags (answer_fields ca cb id (reinvite_reason (remedia_kind c))) no_locals) u = [].
Proof.
  intros Hc. cbn [answers].
  change (sip_locals _ (answer_fields _ _ _ _) _ SIP_REASON) with (reinvite_reason (remedia_kind c)).
  destruct c; try discriminate; vm_compute; reflexivity.
Qed.

(** What the phones make of the answer. *)
Definition answered (c : Command) (u : UeSimulator) : UeSimulator :=
  match c with RESUME | UPDATE => set_state IN_CALL u | _ => u end.

Lemma remedia_heard (c : Command) (ca cb : UeConfig) (id : bytes) (u : UeSimulator) :
  remedia c = true ->
  heard (Some SIP_200_OK)
    (sip_locals ue_tags (answer_fields ca cb id (reinvite_reason (remedia_kind c))) no_locals) u
  = answered c u.
Proof.
  intros Hc. cbn [heard].
  change (sip_locals _ (answer_fields _ _ _ _) _ SIP_REASON) with (reinvite_reason (remedia_kind c)).
  destruct c; try discriminate; cbn [remedia_kind reinvite_reason]; eval_text; reflexivity.
Qed.

Lemma remedia_invited (c : Command) (ca cb : UeConfig) (id : bytes) (u : UeSimulator) :
  remedia c = true -> known ca -> id <> [] -> current_call_id_ u = id ->
  heard (Some SIP_INVITE) (sip_locals ue_tags (remedia_fields c ca cb id) no_locals) u
  = match c with HOLD => u | _ => ring (cfg_impu ca) id u end.
Proof.
  intros Hc Ha Hne Hid. cbn [heard].
  change (sip_locals _ (remedia_fields _ _ _ _) _ SIP_CALL_ID) with id.
  change (sip_locals _ (remedia_fields _ _ _ _) _ SIP_FROM) with (cfg_impu ca).
  change (sip_locals _ (remedia_fields _ _ _ _) _ SIP_SDP) with (command_sdp c (newUe ca)).
  assert (E : contains (str "sendonly") (command_sdp c (newUe ca))
              || contains (str "inactive") (command_sdp c (newUe ca)) = match c with HOLD => true | _ => false end).
  { destruct c; try discriminate; destruct Ha as [-> | [-> | ->]]; vm_compute; reflexivity. }
  rewrite E, Hid. rewrite (bool_decide_false (id = [])) by exact Hne.
  rewrite (bool_decide_true (id = id)) by reflexivity. destruct c; try discriminate; reflexivity.
Qed.

Lemma remedia_marks_none (c : Command) (ca cb : UeConfig) (id : bytes) (pc : PcscfNode) :
  remedia c = true ->
  after_answer (Some SIP_200_OK)
    (sip_locals from_scscf_tags (answer_fields ca cb id (reinvite_reason (remedia_kind c))) no_locals) pc
  = pc.
Proof.
  intros Hc. cbn [after_answer].
  change (sip_locals _ (answer_fields _ _ _ _) _ SIP_REASON) with (reinvite_reason (remedia_kind c)).
  destruct c; try discriminate; cbn [remedia_kind reinvite_reason]; eval_text; reflexivity.
Qed.

(** The phones keep their configuration and their call. *)
Lemma caller_after_same (c : Command) (u : UeSimulator) :
  cfg_ (caller_after c u) = cfg_ u /\ current_call_id_ (caller_after c u) = current_call_id_ u
  /\ callee_impu_ (caller_after c u) = callee_impu_ u
  /\ ue_next_seq_ (caller_after c u) = u32 (ue_next_seq_ u + 1).
Proof. destruct c; repeat split. Qed.

Lemma callee_after_same (c : Command) (me id : bytes) (u : UeSimulator) :
  id <> [] -> current_call_id_ u = id ->
  cfg_ (callee_after c me id u) = cfg_ u /\ current_call_id_ (callee_after c me id u) = id
  /\ ue_next_seq_ (callee_after c me id u) = ue_next_seq_ u.
Proof. intros Hne Hid. destruct c, id; try contradiction; repeat split; exact Hid. Qed.

Lemma remedia_start (c : Command) (a b : nat) (ua ub : UeSimulator) (id : bytes) (cs : CallState)
    (st : Ims) (ls : list Label) (Q : Ims -> Prop) :
  dialog a b ua ub id cs st -> remedia c = true -> accepted c ua = true ->
  (forall st', view a b (idle_link (ue_tick (commanded c ua))) (Some (idle_link ub)) 
     (tick (set_calls (<[id := reinvite_call (remedia_kind c) cs]> (calls_ (i_sc st))) (i_sc st)))
     (i_pc st) []
     [wire SIP_INVITE (ue_next_seq_ ua) (remedia_fields c (cfg_ ua) (cfg_ ub) id);
      wire SIP_200_OK (sc_next_seq_ (i_sc st))
        (answer_fields (cfg_ ua) (cfg_ ub) id (reinvite_reason (remedia_kind c)))] st' -> runs ls st' Q) ->
  runs ([Cmd a c; PcTake a; PcForward a; PcFinish a; ScRx] ++ ls) st Q.
Proof.
  intros [[Hab Ha Hb Hca Hcb Hra Hrb Hv Hps Hsp Hsa Hsb (Hnh & Hns & Hnp)]
    Hne Hid Ia Ib Hcallee Pa Pb Hdel Hcall Sa Sb] Hc Hacc K.
  set (ca := cfg_ ua) in *. set (cb := cfg_ ub) in *.
  assert (V : view a b (idle_link ua) (Some (idle_link ub)) (i_sc st) (i_pc st) [] [] st)
    by (constructor; first [assumption | reflexivity]).
  pose proof (remedia_small c ca cb id Hc Hca Hcb Hid) as Hsm.
  eapply runs_cons.
  { eapply (goes_cmd a b Hab _ _ _ _ _ _ _ V c).
    pose proof (command_step c ua) as D. rewrite Hacc in D. exact D. }
  clear V. intros st1 V. simpl_view V.
  assert (Hcmd : command_frame c ua = msg_frame SIP_INVITE (ue_next_seq_ ua) (remedia_fields c ca cb id)).
  { unfold command_frame, remedia_fields. destruct c; try discriminate;
      unfold command_message, reinvite_fields; cbn [fst snd]; rewrite Ia, Hcallee; reflexivity. }
  rewrite Hcmd in V.
  eapply (runs_request a b _ _ _ _ _ _ _ _ _ _ _ _ _ Hab V eq_refl eq_refl Hsm Hsa Hv).
  clear V. intros st2 V. simpl_view V.
  rewrite (invite_routed a (remedia_fields c ca cb id) _ (cfg_impu ca) (cfg_impu cb) id
             eq_refl eq_refl eq_refl (impu_nonempty ca Hca)), same_routes in V by assumption.
  eapply runs_cons.
  { eapply (goes_scscf a b _ _ _ _ _ _ _ V SIP_INVITE); [exact Hsm|exact Hsa|reflexivity|].
    pose proof (remedia_kind_sdp c ca Hc Hca) as Hk.
    apply (reinvite_delivers _ id (command_sdp c (newUe ca)) (cfg_impu cb) _ cs _
             (parse_small _ _ _ _ Hsm Hsa) eq_refl eq_refl Hcall).
    - apply (sip_first_enc SIP_TO SIP_INVITE), small_wf; [exact Hsa|exact Hsm].
    - rewrite Hk. destruct c; discriminate. }
  clear V. intros st3 V. simpl_view V. rewrite (remedia_kind_sdp c ca Hc Hca), Sa, Sb in V.
  apply K. unfold idle_link. rewrite <- (msg_wire SIP_200_OK); [exact V|].
  apply answer_small; try assumption. destruct c; vm_compute; discriminate.
Qed.

(** The command of the caller, in a call, is carried out: the S-CSCF changes
    the call, and both phones take the re-INVITE and its answer.  Holding
    leaves the callee where it was and resuming puts both in the call; but
    adding or removing video leaves the callee in RINGING, and an UPDATE of a
    call on hold resumes it. *)
Theorem remedia_end_to_end (c : Command) (a b : nat) (ua ub : UeSimulator) (id : bytes)
    (cs : CallState) (st : Ims)
    (D : dialog a b ua ub id cs st) (Hc : remedia c = true) (Hacc : accepted c ua = true) :
  runs (changing c a b) st
    (dialog a b (caller_after c ua) (callee_after c (cfg_impu (cfg_ ua)) id ub) id
       (reinvite_call (remedia_kind c) cs)).
Proof.
  apply (remedia_start c a b ua ub id cs st _ _ D Hc Hacc). intros st1 V.
  destruct D as [[Hab Ha Hb Hca Hcb Hra Hrb Hv Hps Hsp Hsa Hsb (Hnh & Hns & Hnp)]
    Hne Hid Ia Ib Hcallee Pa Pb Hdel Hcall Sa Sb].
  set (ca := cfg_ ua) in *. set (cb := cfg_ ub) in *.
  pose proof (remedia_small c ca cb id Hc Hca Hcb Hid) as Hsm.
  assert (Hans : small (answer_fields ca cb id (reinvite_reason (remedia_kind c)))).
  { apply answer_small; try assumption. destruct c; vm_compute; discriminate. }
  eapply runs_cons.
  { eapply (goes_reinvite a b _ _ _ _ _ _ _ _ _ id b Hsm Hsa eq_refl Hdel Hrb V). }
  clear V. intros st2 V. simpl_view V.
  eapply runs_cons.
  { eapply (goes_relay a b _ _ _ _ _ _ _ V SIP_200_OK); [exact Hans|exact Hns|reflexivity|discriminate|].
    apply remedia_ok_goes; try assumption. destruct c; discriminate. }
  clear V. intros st3 V. cbn [flat_map] in V.
  rewrite (to_ue_some _ _ _ b Hrb), (to_ue_some _ _ _ a Hra) in V. simpl_view V.
  pose proof (view_swap a b _ _ _ _ _ _ _ V _ eq_refl) as W. clear V.
  eapply runs_cons.
  { eapply (goes_hear b a (not_eq_sym Hab) _ _ _ _ _ _ _ W SIP_INVITE); [exact Hsm|exact Hsa|reflexivity]. }
  clear W. intros st4 W. simpl_view W.
  eapply runs_cons.
  { eapply (goes_hear b a (not_eq_sym Hab) _ _ _ _ _ _ _ W SIP_200_OK); [exact Hans|exact Hns|reflexivity]. }
  clear W. intros st5 W. simpl_view W.
  rewrite remedia_no_answer, remedia_heard, remedia_invited in W by assumption. simpl_view W.
  pose proof (view_swap b a _ _ _ _ _ _ _ W _ eq_refl) as V. clear W.
  eapply runs_cons.
  { eapply (goes_hear a b Hab _ _ _ _ _ _ _ V SIP_200_OK); [exact Hans|exact Hns|reflexivity]. }
  clear V. intros st6 V. rewrite remedia_no_answer, remedia_heard in V by assumption. simpl_view V.
  destruct V as [Va Vb Vsc Vpc Vps Vsp Vh]. apply runs_nil.
  rewrite remedia_marks_none in Vpc by exact Hc.
  destruct (caller_after_same c ua) as (Ec & Ei & Ee & Es).
  destruct (callee_after_same c (cfg_impu ca) id ub Hne Ib) as (Fc & Fi & Fs).
  constructor; [constructor|..]; rewrite ?Vsc, ?Vpc, ?Ec, ?Fc, ?Ei, ?Ee, ?Fi; try assumption; try reflexivity.
  - rewrite Va. destruct c; try discriminate; reflexivity.
  - rewrite Vb. destruct c; try discriminate; reflexivity.
  - rewrite Es. apply u32_range.
  - rewrite Fs. exact Hsb.
  - unfold counters. rewrite Vsc, Vpc. split; [exact Vh|split; [apply u32_range|assumption]].
  - apply lookup_insert_eq.
  - transitivity (caller_impu cs); [destruct c; reflexivity|exact Sa].
  - transitivity (callee_impu cs); [destruct c; reflexivity|exact Sb].
Qed.

Definition talking (u : UeSimulator) (st : UeState) (id callee caller : bytes) : UeSimulator :=
  mkUe (cfg_ u) st (ue_next_seq_ u) id callee caller.

(** Two phones in a call that is on hold. *)
Definition held_call : Ims :=
  two_phones (talking (newUe CFG_A) ON_HOLD (str "c") IMPU_B [])
    (talking (newUe CFG_B) IN_CALL (str "c") [] IMPU_A)
    (mkScscf ∅ {[str "c" := mkCall IMPU_A IMPU_B (str "c") true false]} 1 ∅)
    (two_routes {[str "c" := IMPU_A]} {[str "c" := IMPU_B]} {[str "c"]}).

Ltac dialog_closed :=
  constructor; [constructor|..]; try reflexivity;
  try (unfold counters, in_u; cbn; lia); try discriminate;
  try (apply elem_of_singleton; reflexivity); first [left; reflexivity | right; left; reflexivity].

(** An UPDATE resumes the call. *)
Lemma remedia_end_to_end_witness :
  exists st, run (changing UPDATE 0 1) held_call = Some st
    /\ dialog 0 1 (talking (ue_tick (newUe CFG_A)) IN_CALL (str "c") IMPU_B [])
         (talking (newUe CFG_B) IN_CALL (str "c") [] IMPU_A) (str "c")
         (mkCall IMPU_A IMPU_B (str "c") false false) st.
Proof.
  destruct (remedia_end_to_end UPDATE 0 1 (talking (newUe CFG_A) ON_HOLD (str "c") IMPU_B [])
              (talking (newUe CFG_B) IN_CALL (str "c") [] IMPU_A) (str "c")
              (mkCall IMPU_A IMPU_B (str "c") true false) held_call
              ltac:(dialog_closed) eq_refl eq_refl) as (st & E & D).
  exists st. split; [exact E|exact D].
Defined.

(** ** The caller hangs up *)

Section HangUp.
Context (a : nat) (me id : bytes) (seq : Z) (m : gmap nat Link).
Context (Hseq : in_u 32 seq) (Hid : Z.of_nat (length id) <= 100).
Context (Hidle : forall i l, m !! i = Some l -> i <> a -> exists u, l = idle_link u).

Definition bye_fields : fields := [(SIP_CALL_ID, id)].
Definition bye_ok_fields : fields := response_fields id [] [] (str "BYE") [].

(** The messages of a hang-up: the BYE and the S-CSCF's answer to it. *)
Definition bye : bytes := wire SIP_BYE seq bye_fields.

Inductive hangup : bytes -> Prop :=
| HangBye : hangup bye
| HangOk n : in_u 32 n -> hangup (wire SIP_200_OK n bye_ok_fields).

Definition bye_thread (t : Thread) : Prop :=
  let p := enc_sip SIP_BYE seq bye_fields in
  t = Receiving \/ t = Forwarding p \/ t = Finishing p.

Definition bye_routes (pc : PcscfNode) : Prop :=
  ue_by_impu_ pc !! me = Some a /\ (caller_of id pc = me \/ caller_of id pc = [])
  /\ scscf_valid pc = true.

(** Nothing but those messages is under way, and only at the caller and
    between the servers; the other phones are as in [m]. *)
Inductive hanging (st : Ims) : Prop :=
  Hanging (u : UeSimulator) (up down : list bytes) (t : Thread) (sc : ScscfNode) (pc : PcscfNode)
    (ps sp : list bytes)
    (Hview : forall i, i <> a -> view a i (mkLink u up down t) (m !! i) sc pc ps sp st)
    (Hup : Forall (eq bye) up) (Hdown : Forall hangup down) (Hthread : bye_thread t)
    (Hps : Forall (eq bye) ps) (Hsp : Forall hangup sp)
    (Hsc : in_u 32 (sc_next_seq_ sc)) (Hpc : bye_routes pc).

Lemma bye_small : small bye_fields.
Proof. small_id. Qed.

Lemma bye_ok_small : small bye_ok_fields.
Proof. small_id. Qed.

Lemma goes_det (lb : Label) (st st' : Ims) (P : Ims -> Prop) :
  goes lb st P -> exec lb st = Some st' -> P st'.
Proof. intros (st1 & E & H) E'. rewrite E in E'. injection E' as <-. exact H. Qed.

(** The other phones and their threads have nothing to do. *)
Lemma idle_stuck (i : nat) (lb : Label) (st st' : Ims) (la : Link) sc pc ps sp :
  i <> a -> view a i la (m !! i) sc pc ps sp st ->
  lb = UeRx i \/ lb = PcTake i \/ lb = PcForward i \/ lb = PcFinish i -> exec lb st <> Some st'.
Proof.
  intros Hi V Hlb E. pose proof (v_b _ _ _ _ _ _ _ _ _ V) as Hl.
  destruct (m !! i) as [l|] eqn:Em.
  - destruct (Hidle i l Em Hi) as [u ->].
    destruct Hlb as [-> | [-> | [-> | ->]]]; cbn [exec] in E; rewrite Hl in E; discriminate E.
  - destruct Hlb as [-> | [-> | [-> | ->]]]; cbn [exec] in E; rewrite Hl in E; discriminate E.
Qed.

Lemma bye_destinations (pc : PcscfNode) (type : SipMsgType) (l : locals) :
  bye_routes pc -> l SIP_CALL_ID = id -> l SIP_FROM = [] -> l SIP_TO = [] ->
  type = SIP_BYE \/ (type = SIP_200_OK /\ l SIP_REASON = str "BYE") ->
  (destinations (Some type) l pc = [] \/ destinations (Some type) l pc = [me])
  /\ after_answer (Some type) l pc = pc.
Proof.
  intros (_ & Hc & _) E1 E2 E3 Ht.
  assert (G : nonempty (caller_of id pc) = [] \/ nonempty (caller_of id pc) = [me]).
  { destruct Hc as [-> | ->]; [destruct me; auto|auto]. }
  assert (F : or_else (caller_of id pc) [] = caller_of id pc) by (destruct (caller_of id pc); reflexivity).
  destruct Ht as [-> | [-> Er]]; cbn [destinations after_answer]; rewrite E1, E2, E3.
  - change (or_else [] []) with (@nil Z). rewrite F. auto.
  - rewrite Er. eval_text. unfold media_of. eval_text. cbn [app]. rewrite F. auto.
Qed.

Lemma hangup_heard (u : UeSimulator) (f : bytes) :
  hangup f -> exists u', forall i up down t lb sc pc ps sp st, i <> a ->
    view a i (mkLink u up (f :: down) t) lb sc pc ps sp st ->
    goes (UeRx a) st (view a i (mkLink u' up down t) lb sc pc ps sp).
Proof.
  intros Hf. destruct Hf as [|n Hn]; [exists u|exists (set_state REGISTERED u)];
    intros i up down t lb sc pc ps sp st Hi V.
  - pose proof (goes_hear a i (not_eq_sym Hi) _ _ _ _ _ _ _ V SIP_BYE seq bye_fields bye_small Hseq _ eq_refl) as G.
    cbn [answers l_up] in G. simpl_frames_in G. rewrite app_nil_r in G. exact G.
  - pose proof (goes_hear a i (not_eq_sym Hi) _ _ _ _ _ _ _ V SIP_200_OK n bye_ok_fields bye_ok_small Hn _ eq_refl) as G.
    change (answers _ _ _) with (@nil (Peer * bytes)) in G. cbn [l_up] in G. simpl_frames_in G.
    rewrite app_nil_r in G. exact G.
Qed.

(** A message of the hang-up is passed to the caller or dropped. *)
Lemma hangup_relayed (pc : PcscfNode) (f : bytes) :
  bye_routes pc -> hangup f -> exists gs, Forall hangup gs /\
    forall i la lb sc ps sp st, i <> a -> view a i la lb sc pc ps (f :: sp) st ->
    goes PcRx st
      (view a i (mkLink (l_ue la) (l_up la) (l_down la ++ gs) (l_thread la)) lb sc pc ps sp).
Proof.
  intros Hpc Hf.
  assert (K : exists type fs n, f = wire type n fs /\ small fs /\ in_u 32 n /\ type <> SIP_INVITE
    /\ let l := sip_locals from_scscf_tags fs no_locals in
       (destinations (Some type) l pc = [] \/ destinations (Some type) l pc = [me])
       /\ after_answer (Some type) l pc = pc).
  { destruct Hf as [|n Hn].
    - exists SIP_BYE, bye_fields, seq. repeat (split; [first [reflexivity|exact bye_small|exact Hseq|discriminate]|]).
      apply bye_destinations; auto.
    - exists SIP_200_OK, bye_ok_fields, n.
      repeat (split; [first [reflexivity|exact bye_ok_small|exact Hn|discriminate]|]).
      apply bye_destinations; auto. }
  destruct K as (type & fs & n & -> & Hsm & Hn & Ht & Hd & Ha). destruct Hpc as (Hr & _).
  destruct Hd as [Hd | Hd]; [exists []|exists [wire type n fs]];
    (split; [first [apply List.Forall_nil | apply List.Forall_cons; [exact Hf|apply List.Forall_nil]]|]);
    intros i la lb sc ps sp st Hi V;
    pose proof (goes_relay a i _ _ _ _ _ _ _ V type n fs Hsm Hn _ _ eq_refl Ht Hd) as G;
    rewrite Ha in G; cbn [flat_map] in G.
  - unfold down_to in G. simpl_frames_in G. destruct lb as [[]|]; cbn in G; rewrite ?app_nil_r in *; exact G.
  - rewrite (to_ue_some pc _ me a Hr) in G. unfold down_to in G. cbn [app] in G.
    simpl_frames_in G.
    destruct lb as [[]|]; cbn in G; rewrite ?app_nil_r in *; exact G.
Qed.

Lemma bye_caller_gone (pc : PcscfNode) :
  bye_routes pc ->
  bye_routes (after_state (Some SIP_BYE) (sip_locals from_ue_tags bye_fields no_locals) pc).
Proof.
  intros (Hr & _ & Hv). split; [exact Hr|]. split; [|exact Hv]. right. unfold caller_of.
  cbn [after_state call_to_caller_ set_maps].
  change (sip_locals _ bye_fields _ SIP_CALL_ID) with id. rewrite lookup_delete_eq. reflexivity.
Qed.

(** The caller's thread. *)
Lemma hanging_thread (lb : Label) (st st' : Ims) :
  lb = PcTake a \/ lb = PcForward a \/ lb = PcFinish a ->
  hanging st -> exec lb st = Some st' -> hanging st'.
Proof.
  intros Hlb [u up down t sc pc ps sp Hview Hup Hdown Ht Hps Hsp Hsc Hpc] E.
  set (p := enc_sip SIP_BYE seq bye_fields).
  pose proof (parse_small from_ue_tags SIP_BYE seq bye_fields bye_small Hseq) as Hl. fold p in Hl.
  pose proof (sip_type_enc SIP_BYE seq bye_fields Hseq) as Hty. fold p in Hty.
  pose proof (v_a _ _ _ _ _ _ _ _ _ (Hview (S a) ltac:(lia))) as La.
  destruct Hlb as [-> | [-> | ->]]; destruct Ht as [-> | [-> | ->]];
    try (cbn [exec] in E; rewrite La in E; discriminate E).
  - destruct up as [|f up]; [cbn [exec] in E; rewrite La in E; discriminate E|].
    apply List.Forall_cons_iff in Hup as [<- Hup].
    apply (Hanging st' u up down (Forwarding p) sc pc ps sp); try assumption; [|right; left; reflexivity].
    intros i Hi. refine (goes_det _ _ _ _ _ E).
    pose proof (goes_take a i (not_eq_sym Hi) _ _ _ _ _ _ _ (Hview i Hi) bye up p _ eq_refl eq_refl
                  (recv_small_forward _ _ _ bye_small) Hl) as G.
    rewrite Hty in G. exact G.
  - apply (Hanging st' u up down (Finishing p) sc pc (ps ++ [bye]) sp); try assumption.
    + intros i Hi. refine (goes_det _ _ _ _ _ E).
      exact (goes_forward a i (not_eq_sym Hi) _ _ _ _ _ _ _ (Hview i Hi) p eq_refl (proj2 (proj2 Hpc))).
    + right; right; reflexivity.
    + apply List.Forall_app. split; [exact Hps|]. apply List.Forall_cons; [reflexivity|apply List.Forall_nil].
  - apply (Hanging st' u up down Receiving sc
             (after_state (Some SIP_BYE) (sip_locals from_ue_tags bye_fields no_locals) pc) ps sp);
      try assumption; [|left; reflexivity|apply bye_caller_gone; exact Hpc].
    intros i Hi. refine (goes_det _ _ _ _ _ E).
    pose proof (goes_finish a i (not_eq_sym Hi) _ _ _ _ _ _ _ (Hview i Hi) p _ eq_refl Hl) as G.
    rewrite Hty in G. exact G.
Qed.

(** The queues. *)
Lemma hanging_queues (lb : Label) (st st' : Ims) :
  lb = UeRx a \/ lb = PcRx \/ lb = ScRx ->
  hanging st -> exec lb st = Some st' -> hanging st'.
Proof.
  intros Hlb [u up down t sc pc ps sp Hview Hup Hdown Ht Hps Hsp Hsc Hpc] E.
  pose proof (Hview (S a) ltac:(lia)) as V. destruct Hlb as [-> | [-> | ->]].
  - destruct down as [|f down];
      [cbn [exec] in E; rewrite (v_a _ _ _ _ _ _ _ _ _ V) in E; discriminate E|].
    apply List.Forall_cons_iff in Hdown as [Hf Hdown]. destruct (hangup_heard u f Hf) as [u' G].
    apply (Hanging st' u' up down t sc pc ps sp); try assumption.
    intros i Hi. exact (goes_det _ _ _ _ (G i _ _ _ _ _ _ _ _ _ Hi (Hview i Hi)) E).
  - destruct sp as [|f sp];
      [cbn [exec] in E; rewrite (v_sp _ _ _ _ _ _ _ _ _ V) in E; discriminate E|].
    apply List.Forall_cons_iff in Hsp as [Hf Hsp].
    destruct (hangup_relayed pc f Hpc Hf) as (gs & Hgs & G).
    apply (Hanging st' u up (down ++ gs) t sc pc ps sp); try assumption;
      [|apply List.Forall_app; split; assumption].
    intros i Hi. exact (goes_det _ _ _ _ (G i _ _ _ _ _ _ Hi (Hview i Hi)) E).
  - destruct ps as [|f ps];
      [cbn [exec] in E; rewrite (v_ps _ _ _ _ _ _ _ _ _ V) in E; discriminate E|].
    apply List.Forall_cons_iff in Hps as [<- Hps].
    set (sc' := tick (set_calls (delete id (calls_ sc)) sc)).
    apply (Hanging st' u up down t sc' pc ps
             (sp ++ [wire SIP_200_OK (sc_next_seq_ sc) bye_ok_fields; bye])); try assumption.
    + intros i Hi. refine (goes_det _ _ _ _ _ E).
      pose proof (goes_scscf a i _ _ _ _ _ _ _ (Hview i Hi) SIP_BYE seq bye_fields bye_small Hseq ps _ _ eq_refl
                    (bye_delivers _ _ sc (parse_small _ _ _ _ bye_small Hseq))) as G.
      simpl_frames_in G.
      change (response_fields _ _ _ _ _) with bye_ok_fields in G.
      rewrite (msg_wire SIP_200_OK _ bye_ok_fields bye_ok_small) in G. exact G.
    + apply List.Forall_app. split; [exact Hsp|].
      apply List.Forall_cons; [apply HangOk; exact Hsc|]. apply List.Forall_cons; [apply HangBye|apply List.Forall_nil].
    + apply u32_range.
Qed.

Lemma hanging_step (st st' : Ims) : hanging st -> int_step st st' -> hanging st'.
Proof.
  intros Hh (lb & Hi & E).
  assert (K : forall i, lb = UeRx i \/ lb = PcTake i \/ lb = PcForward i \/ lb = PcFinish i -> i = a).
  { intros i Hlb. destruct (decide (i = a)) as [|Hn]; [assumption|]. exfalso.
    destruct Hh as [u up down t sc pc ps sp Hview]. exact (idle_stuck i lb _ _ _ _ _ _ _ Hn (Hview i Hn) Hlb E). }
  destruct lb as [| |i|i|i|i| |]; try discriminate Hi.
  1-4: assert (i = a) as -> by (apply K; auto).
  1: eapply hanging_queues; [|exact Hh|exact E]; auto.
  1-3: eapply hanging_thread; [|exact Hh|exact E]; auto.
  all: eapply hanging_queues; [|exact Hh|exact E]; auto.
Qed.

End HangUp.

(** The caller's command starts it. *)
Lemma hanging_starts (a b : nat) (ua ub : UeSimulator) (id : bytes) (cs : CallState) (st st1 : Ims) :
  dialog a b ua ub id cs st -> exec (Cmd a BYE) st = Some st1 ->
  hanging a (cfg_impu (cfg_ ua)) id (ue_next_seq_ ua) (i_links st) st1.
Proof.
  intros [[Hab Ha Hb Hca Hcb Hra Hrb Hv Hps Hsp Hsa Hsb (Hnh & Hns & Hnp)]
    Hne Hid Ia Ib Hcallee Pa Pb Hdel Hcall Sa Sb] E.
  assert (V : forall i, i <> a -> view a i (idle_link ua) (i_links st !! i) (i_sc st) (i_pc st) [] [] st)
    by (intros; constructor; first [assumption | reflexivity]).
  assert (Hroutes : bye_routes a (cfg_impu (cfg_ ua)) id (i_pc st)).
  { split; [exact Hra|]. split; [left; unfold caller_of; rewrite Pa; reflexivity|exact Hv]. }
  assert (Hcmd : command_frame BYE ua = bye id (ue_next_seq_ ua)).
  { unfold bye. rewrite <- msg_wire by (apply bye_small; exact Hid).
    unfold command_frame, command_message. cbn [fst snd]. rewrite Ia. reflexivity. }
  pose proof (command_step BYE ua) as D. destruct (accepted BYE ua).
  - apply (Hanging _ _ _ _ _ _ (ue_tick (commanded BYE ua)) [bye id (ue_next_seq_ ua)] [] Receiving
             (i_sc st) (i_pc st) [] []); try assumption; try apply List.Forall_nil; [|repeat constructor|left; reflexivity].
    intros i Hi. refine (goes_det _ _ _ _ _ E).
    pose proof (goes_cmd a i (not_eq_sym Hi) _ _ _ _ _ _ _ (V i Hi) BYE _ _ D) as G.
    rewrite Hcmd in G. simpl_view G. exact G.
  - apply (Hanging _ _ _ _ _ _ ua [] [] Receiving (i_sc st) (i_pc st) [] []); try assumption;
      try apply List.Forall_nil; [|left; reflexivity].
    intros i Hi. refine (goes_det _ _ _ _ _ E).
    exact (goes_cmd a i (not_eq_sym Hi) _ _ _ _ _ _ _ (V i Hi) BYE _ _ D).
Qed.

(** The caller of a call hangs up while nothing else is going on: however the
    threads then run, no other phone's state or queues ever change.  The
    BYE comes back to the caller or is dropped; the callee stays in the
    call. *)
Theorem bye_never_reaches_callee (a b : nat) (ua ub : UeSimulator) (id : bytes) (cs : CallState)
    (st st1 st' : Ims)
    (D : dialog a b ua ub id cs st)
    (Hidle : forall i l, i_links st !! i = Some l -> i <> a -> exists u, l = idle_link u)
    (Hbye : exec (Cmd a BYE) st = Some st1) (Hruns : rtc int_step st1 st') :
  (forall i, i <> a -> i_links st' !! i = i_links st !! i)
  /\ exists lb, i_links st' !! b = Some lb /\ l_ue lb = ub.
Proof.
  assert (I : hanging a (cfg_impu (cfg_ ua)) id (ue_next_seq_ ua) (i_links st) st').
  { pose proof (hanging_starts _ _ _ _ _ _ _ _ D Hbye) as I0. clear Hbye.
    induction Hruns as [|x y z E _ IH]; [exact I0|]. apply IH.
    exact (hanging_step _ _ _ _ _ (r_sa _ _ _ _ _ (d_reach _ _ _ _ _ _ _ D)) (d_short _ _ _ _ _ _ _ D)
             Hidle _ _ I0 E). }
  destruct I as [u up down t sc pc ps sp V].
  assert (K : forall i, i <> a -> i_links st' !! i = i_links st !! i)
    by (intros i Hi; exact (v_b _ _ _ _ _ _ _ _ _ (V i Hi))).
  split; [exact K|]. exists (idle_link ub). split; [|reflexivity].
  pose proof (d_reach _ _ _ _ _ _ _ D) as R. rewrite K by exact (not_eq_sym (r_ne _ _ _ _ _ R)).
  exact (r_b _ _ _ _ _ R).
Qed.

(** The call of [held_call], resumed: nobody but the caller notices its end. *)
Lemma bye_never_reaches_callee_witness :
  exists st1, exec (Cmd 0 BYE) held_call = Some st1
    /\ forall st', rtc int_step st1 st' ->
        exists lb, i_links st' !! 1%nat = Some lb /\ state_ (l_ue lb) = IN_CALL.
Proof.
  eexists. split; [reflexivity|]. intros st' Hr.
  destruct (bye_never_reaches_callee 0 1 (talking (newUe CFG_A) ON_HOLD (str "c") IMPU_B [])
              (talking (newUe CFG_B) IN_CALL (str "c") [] IMPU_A) (str "c")
              (mkCall IMPU_A IMPU_B (str "c") true false) held_call _ st' ltac:(dialog_closed)
              ltac:(intros i l; unfold held_call, two_phones; cbn [i_links]; intros E Hi;
                    rewrite lookup_insert_ne in E by congruence;
                    apply lookup_singleton_Some in E; destruct E as [_ <-]; eexists; reflexivity)
              eq_refl Hr) as [_ (lb & E & El)].
  exists lb. split; [exact E|]. rewrite El. reflexivity.
Defined.
